(* ===== verification/_CoqProject ===== *)
-Q . S2P
Prelude.v
Fallible.v
Text.v
LinkCodec.v
PhoneLink.v
LinkFacts.v
LinkTheorems.v
Csm.v
Bootstrap.v
CarPlayProbe.v
TcpClient.v
Crypto.v
CryptoCalls.v
Srp.v
ControlCipher.v
Rtsp.v
Bplist.v
BplistFacts.v
FileStore.v
Config.v
PairingStore.v
HeadUnitCapabilities.v
DaemonLog.v
LogStreams.v
CarplayIpc.v
MediaForwarders.v
SessionAudio.v
SessionVideo.v
SessionPairing.v
SessionChannel.v
SessionEvents.v
SessionSetup.v
NetworkManager.v
BluezInventory.v
ManagementUi.v
BluetoothWorker.v
CarplayWorker.v
WorkerSessions.v
ManagementPage.v
ReceiverTypes.v
DaemonParts.v
DaemonRequests.v
DaemonInvariants.v
DaemonTransactions.v
DaemonWorkflow.v
ManagementListener.v
IngressQueue.v
Sockets.v
VideoFile.v
AndroidAuto.v
WiredReceiver.v
ReceiverReports.v
DaemonReceiver.v
DaemonMain.v
BridgePipes.v
Processes.v
NmcliProcess.v
Diagnostics.v
Tools.v
Forwarding.v
EndToEnd.v
BluezDiscovery.v
BluezAgent.v
InventoryBus.v
BluezPairing.v
BluezFacts.v
