(* ===== verification/Prelude.v ===== *)
(** * AA2ACP: a verification library for the Android Auto to CarPlay bridge

    AA2ACP lets a CarPlay head unit show Android Auto.  One process talks iAP2
    to the head unit over Bluetooth, authenticates it, learns its Wi-Fi and
    speaks AirPlay to it; a daemon hosts the Android Auto side, the management
    page and the worker, joined by UNIX sockets.  This library follows the C++
    sources under src/ file by file.

    ** Files and what they model

    - [Prelude], [Text], [Fallible]: octets, machine words, fields, lists; the
      string and number functions of the C++ library the program uses; a state
      monad of computations that may fail.
    - iAP2 (src/src/iap2/): [LinkCodec] and [PhoneLink] are link_layer.cpp, the
      frame codec and the whole state machine; [LinkFacts] has its invariants
      and [LinkTheorems] its theorems.  [Csm] is csm.cpp, [Bootstrap]
      bootstrap.cpp, [CarPlayProbe] carplay_probe.cpp, [Diagnostics] what the
      two log of a message, [NetworkManager] network_manager.cpp with one nmcli
      process in [NmcliProcess].
      bluez_pairing.cpp is in four files: [BluezDiscovery] (the SDP query),
      [BluezAgent] (the messages on the bus, the agent and the profiles that
      BlueZ calls), [BluezPairing] (discovery, pairing, connecting and closing)
      and [BluezFacts] (what holds in every run of them).  Two programs put the
      parts together: [TcpClient] is src/src/iap2_tcp_main.cpp and
      [BluetoothWorker], with the pipes of a session in [BridgePipes],
      src/src/iap2_bt_main.cpp.
    - AirPlay (src/src/airplay/): [Crypto] is crypto.cpp as operations on
      octets and [CryptoCalls] the same call by call over an abstract OpenSSL, [Srp] srp.cpp over [Z], [ControlCipher] control_cipher.cpp,
      [Rtsp] rtsp.cpp with the TLV8 fields, [Bplist] and [BplistFacts]
      bplist.cpp, [PairingStore] pairing_store.cpp and [HeadUnitCapabilities]
      head_unit_capabilities.cpp.  session.cpp is in seven files: [SessionPairing]
      (Pair-Setup and Pair-Verify), [SessionChannel] and [SessionEvents] (the
      encrypted control and event channels), [SessionSetup] (every request
      after Pair-Verify, the senders and the teardown), [SessionAudio] and
      [SessionVideo] (the data streams), [VideoFile] (files of H.264 and the
      summaries of property lists).
    - Android Auto (src/src/aa/wired_receiver.cpp): [ReceiverTypes] the types the
      receiver shares with the daemon, [AndroidAuto] the handlers of one session
      and its microphone, [IngressQueue] the bounded queues of reports and audio,
      [WiredReceiver] the receiver with its devices, sessions and jobs, as the
      instructions of its threads, and [ReceiverReports] what becomes of the reports
      and of a stop when the other threads come in between.
    - The bridge (src/src/bridge/): [Config] is config.cpp, [DaemonLog]
      and [LogStreams] daemon_log.cpp with logging.hpp, [CarplayIpc] carplay_ipc.cpp,
      [CarplayWorker] carplay_worker.cpp with many sessions of both processes in
      [WorkerSessions], [MediaForwarders] with its thread in [Forwarding]
      media_forwarders.cpp, [BluezInventory] and [InventoryBus] bluez_inventory.cpp,
      [ManagementListener] management_listener.cpp with the queue of clients,
      [ManagementUi] and [ManagementPage] management_ui.cpp.  [FileStore] holds
      the system calls the three stores share, over the visible contents of the
      file system.  [Sockets] is how all of them open, share, use and close
      their sockets, [Processes] how they start, read, end and reap children.
    - The daemon (src/src/bridge_daemon_main.cpp): [DaemonParts] the diagnostic
      dump, key events, arguments and retries; [DaemonRequests] one definition
      per HTTP route and per step of a background thread; [DaemonInvariants]
      what holds in every run of them; [DaemonTransactions] the changes of the
      settings by several threads and [DaemonWorkflow] the scans and the preflights,
      both cut into steps under their locks; [DaemonReceiver] the thread of the
      Android Auto receiver with h264_normalizer.cpp; [DaemonMain] the arguments,
      the reading of requests and the shutdown.
    - [EndToEnd]: what the worker does with an event or a sound of the head unit,
      and the paths from the phone to the head unit and back through all of these
      ([requests_reach_daemon]: nothing of it is lost when nothing fails).
    - [Tools]: src/src/android_auto_usb_main.cpp and
      src/src/airplay_pair_setup_probe_main.cpp.

    ** State and interaction

    A class is a record of its members and a method a function on it.  Where a
    method calls out through a callback (the link's transport, log and control
    handler), the callback is a field of a type class and every call is an
    event of a ghost trace, so that ordering can be stated.  Services of the
    system and of other libraries (OpenSSL, clocks, random numbers, sockets,
    files) are class fields, arguments, or scripts of outcomes over which the
    theorems quantify; laws that are assumed of them are class fields too
    ([EVPLaws], [ControlClient]) and the witnesses instantiate them.  Threads
    that share a queue are step relations over its locked operations
    ([CarplayIpc.step], [MediaForwarders.vstep]).  The daemon is a step
    relation too: its requests and background steps change one record of state,
    in any order, and so is the Android Auto receiver, whose calls, devices and
    instructions of the I/O and the USB thread are its inputs: each instruction is
    one section under the lock, one test, one call or one callback, so that a stop
    or another call can come between any two.  The bus is a script of what BlueZ
    answers and of the calls it makes meanwhile.  A descriptor is a number that
    the calls open and close; [Sockets.disciplined] says of a list of calls that
    it names none that is not open.  The pieces meet where the processes do: what
    the daemon sends as the arguments of a session is what the worker's command
    line parses, the paths on it are those on which the daemon's forwarders
    listen, the capabilities that the worker stores are those the receiver offers
    to the phone, and what the worker's mailbox sends is what the daemon's loop
    reads.

    ** What the theorems show

    - The link: in-order, gap-free, duplicate-free delivery in every reachable
      state; the effect of every kind of frame; acknowledgement of a prefix;
      termination of the receive loop; bounded state; silence once dead; the
      round trip of a frame through the receive buffer.
    - Authentication: a bootstrap that is done, and a client that exits with
      success, verified a signature over its own challenge.
    - Codecs: round trips of CSM streams, RTSP, TLV8, property lists, cipher
      frames, socket frames, NAL units, forms and the three file formats, with
      limits on what decoding can cost.
    - Files: saving is all or nothing at every moment and for every failure.
    - The session: both sides of SRP derive one key; the control channel belongs
      to the accessory whose long-term key is recorded, and an honest accessory
      is accepted; a response is authentic and answers its own request; events
      are handed over and answered whole, in order and once; the requests carry,
      in the octets that are sealed and sent, numbers without gaps, media flows
      only after RECORD and the teardown is sent once; a replayed microphone packet is dropped; the screen stream
      decodes to the access units that were sent; the three places that cut H.264
      into units cut it alike.
    - Pairing over BlueZ: nothing is confirmed but by the user; the outcome of a
      pairing and what it leaves on the bus; a connection is the one that was
      awaited, on a socket that BlueZ passed for it; every call has the types of
      the interface it goes to; what the inventory reads of BlueZ's reply is what
      the reply says of each device, if its properties come in the expected order;
      a scan ends and is stopped.
    - Android Auto: a phone is awaited whenever there is none; a receiver that is
      being stopped only ends what was under way, and a stopped one is silent; the
      queue of reports refines a bounded queue, and a report goes to the session of
      the moment; the microphone
      sends the newest sound and waits for each acknowledgement; discovery
      announces what the head unit can do; a session ends once.
    - Descriptors and children: opening, sharing, failing and destroying close
      every descriptor once and touch none that is closed; a listener is its
      owner's alone; sending and reading end at their deadlines; children are
      reaped; what is read from one is taken whole or not at all; a failed nmcli
      is never silent; a cryptographic helper frees what it made and writes
      only into its buffers, whichever call fails.
    - The composition: every pipe ends where it began; what the head unit
      announced is what the phone is offered; each sound keeps its own pipe.  The
      phone obeys requests that the head unit sealed, over all workers and sessions
      of the daemon, and nothing else, in order and once; the head unit decodes pictures and sounds that the phone sent, in
      order and once, from a key frame on; so does the daemon the microphone.
    - The log: every line that is enabled is kept once, whole and in order, and the
      page shows the end of just that.
    - Queues: bounds, exact accounting, order, and what a slow consumer loses.
    - Workers: a question to the user gets its own answer; success of the bridge
      means an authenticated accessory and a completed session; a session that
      is asked to stop ends, and is killed only after it was asked; a session is
      stopped by its own stop, or by a signal to the child, and its result is taken
      for no other; the Wi-Fi
      passphrase never appears on a command line.
    - The daemon: no change without the page's token or with the default
      password; settings, file and hotspot change together or not at all; the
      states of the preflight workflow when requests come one at a time, and at most
      one scan and one preflight when they do not; retries back off; concurrent
      changes of the settings are those of some order, and nobody sees one half done.
    - The management page: request framing does not depend on how the network
      cuts the request; escaped text is inert and unchanged, and no value on the
      page brings markup of its own.

    ** Bounds and fuel

    Loops over a buffer take fuel equal to its length, and every turn consumes
    at least one octet; [process_packets] has a theorem that its fuel is enough.
    The property-list decoder's fuel is the nesting limit of the code itself.
    Loops over system calls take their outcomes from a finite script and end
    with it.

    ** Not modelled

    The libraries are not: aasdk with libusb and protobuf, FFmpeg, BlueZ, the D-Bus
    library, OpenSSL; what they return or call is an argument, an event or a class.
    Of the parts above are left out how signal handlers are installed and most of the
    lines that are only logged.  In [DaemonRequests] and [DaemonInvariants] a request
    or a background step of the daemon is one atomic step; interleavings inside one
    are considered for the changes of the settings ([DaemonTransactions]) and for the
    scans and the preflights ([DaemonWorkflow]), not for the password that waits to be
    applied, where they do harm ([DaemonTransactions.newer_password_lost]).  A call on
    the bus that was given up is over in [BluezPairing]; in the program its reply may
    still come, and is then written into a dead variable.  Failures to allocate are considered in the helpers
    of crypto.cpp only. *)

From Stdlib Require Export String Ascii ZArith Lia.
From stdpp Require Export base tactics numbers list sets gmap.

#[global] Open Scope Z_scope.

(** ** Bytes and machine words *)

(** A byte buffer ([std::vector<std::uint8_t>], [std::string] and the spans
    over them): the octets in order, each as its unsigned value. *)
Abbreviation Bytes := (list Z).

Definition is_u (w x : Z) : Prop := 0 <= x < 2 ^ w.
Abbreviation is_u8 := (is_u 8).
Abbreviation is_u16 := (is_u 16).
Abbreviation is_u32 := (is_u 32).
Abbreviation is_u64 := (is_u 64).
Abbreviation bytes_ok := (Forall (is_u 8)).

(** [static_cast<std::uintW_t>]: reduction modulo 2^w. *)
Definition wrap (w x : Z) : Z := x mod 2 ^ w.
Abbreviation u8 := (wrap 8).
Abbreviation u16 := (wrap 16).
Abbreviation u32 := (wrap 32).
Abbreviation u64 := (wrap 64).

(** [static_cast<std::int8_t>]: two's complement of the low octet. *)
Definition s8 (x : Z) : Z :=
  let y := x mod 256 in if y <? 128 then y else y - 256.

(** [size()] of a container, as the unsigned value the code compares. *)
Definition size_of {A} (l : list A) : Z := Z.of_nat (length l).

(** [bytes[i]]; every use is guarded by a length test of the code. *)
Definition byte_at (l : Bytes) (i : nat) : Z := nth i l 0.

(** [span.subspan(offset, count)]. *)
Definition subspan {A} (off n : nat) (l : list A) : list A := take n (drop off l).

(** Equality of two byte buffers, as [operator==] decides it. *)
Definition bytes_eqb (a b : Bytes) : bool := bool_decide (a = b).

(** The octets of a string literal of the program. *)
Fixpoint bs (s : string) : Bytes :=
  match s with
  | EmptyString => []
  | String c r => Z.of_N (N_of_ascii c) :: bs r
  end.
Arguments bs : simpl never.

(** ** Big- and little-endian fields *)

(** [append_be]: the [n] octets of [x], most significant first. *)
Fixpoint be_bytes (n : nat) (x : Z) : Bytes :=
  match n with
  | O => []
  | S k => u8 (Z.shiftr x (8 * Z.of_nat k)) :: be_bytes k x
  end.

(** [result = (result << 8) | byte] over the octets of a field. *)
Definition be_value (l : Bytes) : Z :=
  fold_left (fun acc b => Z.lor (Z.shiftl acc 8) b) l 0.

Fixpoint le_bytes (n : nat) (x : Z) : Bytes :=
  match n with
  | O => []
  | S k => u8 x :: le_bytes k (Z.shiftr x 8)
  end.

Fixpoint le_value (l : Bytes) : Z :=
  match l with
  | [] => 0
  | b :: t => Z.lor b (Z.shiftl (le_value t) 8)
  end.

(** ** Tactics of the development *)

(** Case analysis on the innermost boolean test or option the goal matches
    on, with the arithmetic tests turned into inequalities. *)
Ltac bool_hyps :=
  repeat match goal with
  | H : (_ && _) = true |- _ => apply andb_prop in H as [? ?]
  | H : (_ || _) = false |- _ => apply orb_false_elim in H as [? ?]
  | H : negb _ = true |- _ => apply negb_true_iff in H
  | H : negb _ = false |- _ => apply negb_false_iff in H
  | H : (_ =? _) = true |- _ => apply Z.eqb_eq in H
  | H : (_ =? _) = false |- _ => apply Z.eqb_neq in H
  | H : (_ <? _) = true |- _ => apply Z.ltb_lt in H
  | H : (_ <? _) = false |- _ => apply Z.ltb_ge in H
  | H : (_ <=? _) = true |- _ => apply Z.leb_le in H
  | H : (_ <=? _) = false |- _ => apply Z.leb_gt in H
  | H : (_ >? _) = true |- _ => rewrite Z.gtb_ltb in H; apply Z.ltb_lt in H
  | H : (_ >? _) = false |- _ => rewrite Z.gtb_ltb in H; apply Z.ltb_ge in H
  | H : (_ >=? _) = true |- _ => rewrite Z.geb_leb in H; apply Z.leb_le in H
  | H : (_ >=? _) = false |- _ => rewrite Z.geb_leb in H; apply Z.leb_gt in H
  | H : bool_decide _ = true |- _ => apply bool_decide_eq_true in H
  | H : bool_decide _ = false |- _ => apply bool_decide_eq_false in H
  end.

(** Case analysis on the outermost test of the goal, dead branches closed. *)
Ltac step_match :=
  match goal with
  | |- context [match ?x with _ => _ end] =>
      lazymatch x with
      | context [match _ with _ => _ end] => fail
      | _ => let E := fresh "E" in destruct x eqn:E
      end
  end; bool_hyps; simplify_eq/=.

(** Case analysis on the outermost test of an equation that is a premise. *)
Ltac if_case E :=
  lazymatch goal with |- (if ?b then _ else _) = _ -> _ => destruct b eqn:E end; bool_hyps.

(** The same on the tests of a hypothesis. *)
Ltac step_in H :=
  match type of H with
  | context [match ?x with _ => _ end] =>
      lazymatch x with
      | context [match _ with _ => _ end] => fail
      | _ => let E := fresh "E" in destruct x eqn:E
      end
  end; bool_hyps; simplify_eq/=.

Create HintDb aa2acp.
Create Rewrite HintDb len.

(** ** Words *)

Lemma wrap_id w x : is_u w x -> wrap w x = x.
Proof. intros H. apply Z.mod_small, H. Qed.

Lemma wrap_is_u w x : 0 <= w -> is_u w (wrap w x).
Proof. intros H. apply Z.mod_pos_bound. lia. Qed.

Lemma wrap_bit w x n : 0 <= w -> 0 <= n -> Z.testbit (wrap w x) n = (n <? w) && Z.testbit x n.
Proof.
  intros Hw Hn. unfold wrap. destruct (n <? w) eqn:E; bool_hyps.
  - by rewrite Z.mod_pow2_bits_low by lia.
  - by rewrite Z.mod_pow2_bits_high by lia.
Qed.

Lemma is_u8_iff x : is_u8 x <-> 0 <= x < 256.
Proof. reflexivity. Qed.

Lemma u8_ok x : is_u8 (u8 x).
Proof. apply wrap_is_u. lia. Qed.

#[export] Hint Resolve u8_ok wrap_is_u : aa2acp.
#[export] Hint Rewrite @length_app @length_take @length_drop @length_cons : len.

Lemma size_app {A} (l k : list A) : size_of (l ++ k) = size_of l + size_of k.
Proof. unfold size_of. rewrite length_app. lia. Qed.

Lemma size_cons {A} (x : A) l : size_of (x :: l) = 1 + size_of l.
Proof. unfold size_of. simpl. lia. Qed.

Lemma size_nonneg {A} (l : list A) : 0 <= size_of l.
Proof. unfold size_of. lia. Qed.

Lemma size_nil_iff {A} (l : list A) : size_of l = 0 <-> l = [].
Proof. unfold size_of. destruct l; simpl; split; intros; (lia || done). Qed.

(** [(hi << 8) | lo] is addition when [lo] is an octet. *)
Lemma lor_shift8 a b : is_u8 b -> Z.lor (Z.shiftl a 8) b = a * 256 + b.
Proof.
  intros Hb.
  enough (Z.land (Z.shiftl a 8) b = 0) as H0.
  { pose proof (Z.add_lor_land (Z.shiftl a 8) b).
    pose proof (Z.shiftl_mul_pow2 a 8 ltac:(lia)) as E. change (2 ^ 8) with 256 in E. lia. }
  apply Z.bits_inj'; intros i Hi; rewrite Z.land_spec, Z.bits_0.
  destruct (Z.lt_ge_cases i 8); [by rewrite Z.shiftl_spec_low|].
  rewrite (Z.bits_above_log2 b); [by rewrite andb_false_r| apply Hb |].
  destruct (Z.eq_dec b 0) as [->|]; [cbn; lia|].
  apply Z.lt_le_trans with 8; [apply Z.log2_lt_pow2; destruct Hb; lia | lia].
Qed.

Lemma shiftr8 x : Z.shiftr x 8 = x / 256.
Proof. apply Z.shiftr_div_pow2. lia. Qed.

(** ** Big-endian fields *)

Lemma length_be_bytes n x : length (be_bytes n x) = n.
Proof. induction n; simpl; congruence. Qed.

Lemma be_bytes_ok n x : bytes_ok (be_bytes n x).
Proof. induction n; simpl; constructor; auto with aa2acp. Qed.

Lemma be_value_acc l : bytes_ok l -> forall acc,
  fold_left (fun acc b => Z.lor (Z.shiftl acc 8) b) l acc
  = acc * 256 ^ size_of l + be_value l.
Proof.
  unfold be_value. induction 1 as [|b l Hb Hl IH]; intros acc; simpl.
  - rewrite Z.pow_0_r. lia.
  - rewrite IH, (IH (Z.lor _ b)), size_cons, Z.pow_add_r by (apply size_nonneg || lia).
    rewrite !lor_shift8 by done. lia.
Qed.

Lemma be_value_cons b l :
  is_u8 b -> bytes_ok l -> be_value (b :: l) = b * 256 ^ size_of l + be_value l.
Proof. intros. unfold be_value at 1. simpl. by rewrite be_value_acc. Qed.

Lemma be_value_bound l : bytes_ok l -> 0 <= be_value l < 256 ^ size_of l.
Proof.
  induction 1 as [|b l Hb Hl IH]; [cbv; split; congruence|].
  rewrite be_value_cons, size_cons, Z.pow_add_r by (done || apply size_nonneg || lia).
  destruct Hb. nia.
Qed.

Lemma be_value_bytes n x : be_value (be_bytes n x) = x mod 256 ^ Z.of_nat n.
Proof.
  induction n as [|n IH]; simpl.
  - rewrite Z.mod_1_r. done.
  - rewrite be_value_cons by auto using be_bytes_ok with aa2acp.
    unfold size_of. rewrite length_be_bytes, IH.
    rewrite Z.shiftr_div_pow2, Z.pow_mul_r by lia.
    change (2 ^ 8) with 256. rewrite (Nat2Z.inj_succ n), Z.pow_succ_r by lia.
    unfold wrap. change (2 ^ 8) with 256.
    rewrite (Z.mul_comm 256), (Z.rem_mul_r x) by lia. lia.
Qed.

Lemma be_value_bytes_id n x :
  0 <= x < 256 ^ Z.of_nat n -> be_value (be_bytes n x) = x.
Proof. intros. rewrite be_value_bytes. by apply Z.mod_small. Qed.

Lemma be_bytes_mod n m x : (n <= m)%nat -> be_bytes n (x mod 256 ^ Z.of_nat m) = be_bytes n x.
Proof.
  intros. induction n as [|n IH]; simpl; [done|]. rewrite IH by lia. f_equal.
  unfold wrap. rewrite !Z.shiftr_div_pow2, !Z.pow_mul_r by lia. change (2 ^ 8) with 256.
  replace (Z.of_nat m) with (Z.of_nat n + (1 + (Z.of_nat m - Z.of_nat n - 1))) by lia.
  rewrite (Z.pow_add_r 256 (Z.of_nat n)), Z.rem_mul_r by lia.
  rewrite (Z.mul_comm (256 ^ Z.of_nat n) ((_ / _) mod _)), Z.div_add by lia.
  rewrite (Z.div_small (x mod _)) by (apply Z.mod_pos_bound; lia).
  rewrite Z.add_0_l, Z.pow_add_r, Z.pow_1_r, Z.rem_mul_r by lia.
  rewrite Z.add_mod, (Z.mul_comm 256), Z.mod_mul, Z.add_0_r, !Z.mod_mod by lia. done.
Qed.

Lemma be_bytes_value l : bytes_ok l -> be_bytes (length l) (be_value l) = l.
Proof.
  induction 1 as [|b l Hb Hl IH]; simpl; [done|].
  pose proof (be_value_bound l Hl) as Hv. unfold size_of in Hv.
  rewrite be_value_cons by done. unfold size_of. f_equal.
  - rewrite Z.shiftr_div_pow2, Z.pow_mul_r by lia. change (2 ^ 8) with 256.
    rewrite Z.div_add_l, (Z.div_small (be_value l)), Z.add_0_r by lia. by apply wrap_id.
  - rewrite <- (be_bytes_mod (length l) (length l)), Z.add_comm, Z.mod_add by lia.
    by rewrite Z.mod_small.
Qed.

(** ** Little-endian fields *)

Lemma length_le_bytes n x : length (le_bytes n x) = n.
Proof. revert x; induction n; simpl; intros; auto. Qed.

Lemma le_bytes_ok n x : bytes_ok (le_bytes n x).
Proof. revert x; induction n; simpl; constructor; auto with aa2acp. Qed.

Lemma le_value_cons b l : is_u8 b -> le_value (b :: l) = b + 256 * le_value l.
Proof. intros. simpl. rewrite Z.lor_comm, lor_shift8 by done. lia. Qed.

Lemma le_value_bytes n x : 0 <= x < 256 ^ Z.of_nat n -> le_value (le_bytes n x) = x.
Proof.
  revert x; induction n as [|n IH]; intros x H; [simpl in *; lia|].
  rewrite Nat2Z.inj_succ, Z.pow_succ_r in H by lia.
  change (le_bytes (S n) x) with (u8 x :: le_bytes n (Z.shiftr x 8)).
  rewrite le_value_cons, IH by auto with aa2acp || (rewrite shiftr8; split;
    [apply Z.div_pos; lia | apply Z.div_lt_upper_bound; lia]).
  rewrite shiftr8. unfold wrap. change (2 ^ 8) with 256.
  rewrite (Z.div_mod x 256) at 3 by lia. lia.
Qed.

(** ** 16-bit big-endian fields *)

(** src/iap2/link_layer.cpp and src/iap2/csm.cpp: [read_u16]. *)
Definition read_u16 (bytes : Bytes) (offset : nat) : Z :=
  u16 (Z.lor (Z.shiftl (byte_at bytes offset) 8) (byte_at bytes (offset + 1))).

(** [write_u16]: the two octets it stores at an offset. *)
Definition u16_field (value : Z) : Bytes :=
  [u8 (Z.shiftr value 8); u8 (Z.land value 255)].

Lemma land255 x : Z.land x 255 = x mod 256.
Proof. change 255 with (Z.ones 8). by rewrite Z.land_ones. Qed.

Lemma u16_field_ok v : bytes_ok (u16_field v).
Proof. repeat constructor; auto with aa2acp; apply u8_ok. Qed.

Lemma length_u16_field v : length (u16_field v) = 2%nat.
Proof. reflexivity. Qed.

Lemma byte_at_app_r l k i : byte_at (l ++ k) (length l + i) = byte_at k i.
Proof. unfold byte_at. rewrite app_nth2 by lia. f_equal. lia. Qed.

Lemma byte_at_app_l l k i : (i < length l)%nat -> byte_at (l ++ k) i = byte_at l i.
Proof. apply app_nth1. Qed.

Lemma byte_at_ok l i : bytes_ok l -> is_u8 (byte_at l i).
Proof.
  intros H. unfold byte_at. destruct (nth_in_or_default i l 0) as [Hin | ->].
  - rewrite Forall_forall in H. by apply H, list_elem_of_In.
  - split; lia.
Qed.

Lemma read_u16_cons2 hi lo t :
  is_u8 hi -> is_u8 lo -> read_u16 (hi :: lo :: t) 0 = hi * 256 + lo.
Proof.
  intros [] []. unfold read_u16, byte_at. simpl. rewrite lor_shift8 by done.
  apply wrap_id. split; lia.
Qed.

Lemma read_u16_drop l n i : read_u16 (drop n l) i = read_u16 l (n + i).
Proof.
  unfold read_u16, byte_at. rewrite !nth_skipn. by rewrite Nat.add_assoc.
Qed.

Lemma read_u16_app_r l k i : read_u16 (l ++ k) (length l + i) = read_u16 k i.
Proof.
  unfold read_u16. rewrite <- Nat.add_assoc, !byte_at_app_r. done.
Qed.

Lemma read_u16_app_l l k i : (i + 1 < length l)%nat -> read_u16 (l ++ k) i = read_u16 l i.
Proof. intros. unfold read_u16. rewrite !byte_at_app_l by lia. done. Qed.

Lemma read_u16_ok l i : is_u16 (read_u16 l i).
Proof. apply wrap_is_u. lia. Qed.

Lemma read_u16_field v t : is_u16 v -> read_u16 (u16_field v ++ t) 0 = v.
Proof.
  intros [H0 H1]. simpl. rewrite read_u16_cons2 by apply u8_ok.
  rewrite shiftr8, land255. unfold wrap. change (2 ^ 8) with 256. rewrite Z.mod_mod by lia.
  rewrite (Z.mod_small (v / 256)). { pose proof (Z.div_mod v 256). lia. }
  split; [apply Z.div_pos; lia | apply Z.div_lt_upper_bound; lia].
Qed.

(** A field in the middle of a buffer. *)
Lemma read_u16_mid pre v t i :
  is_u16 v -> i = length pre -> read_u16 (pre ++ u16_field v ++ t) i = v.
Proof.
  intros Hv ->. rewrite <- (Nat.add_0_r (length pre)), read_u16_app_r. by apply read_u16_field.
Qed.

(** ** Lists *)

Lemma subspan_app {A} (a b c : list A) :
  subspan (length a) (length b) (a ++ b ++ c) = b.
Proof. unfold subspan. by rewrite drop_app_length, take_app_length. Qed.

Lemma subspan_app' {A} (a b c : list A) n m :
  n = length a -> m = length b -> subspan n m (a ++ b ++ c) = b.
Proof. intros -> ->. apply subspan_app. Qed.

Lemma Forall_subspan {A} (P : A -> Prop) n m l : Forall P l -> Forall P (subspan n m l).
Proof. intros. by apply Forall_take, Forall_drop. Qed.

Lemma bytes_ok_app a b : bytes_ok (a ++ b) <-> bytes_ok a /\ bytes_ok b.
Proof. apply Forall_app. Qed.

#[export] Hint Resolve be_bytes_ok le_bytes_ok u16_field_ok byte_at_ok read_u16_ok
  Forall_subspan : aa2acp.

(** Splits [bytes_ok] of a concatenation of literals and fields. *)
Ltac bytes_solve :=
  repeat first
    [ apply Forall_nil_2 | apply Forall_cons_2 | (apply Forall_app; split)
    | apply u8_ok | apply be_bytes_ok | apply le_bytes_ok | apply u16_field_ok ];
  auto with aa2acp; try (split; lia).

Lemma bytes_eqb_eq a b : bytes_eqb a b = true <-> a = b.
Proof. apply bool_decide_eq_true. Qed.

Lemma bytes_eqb_refl a : bytes_eqb a a = true.
Proof. by apply bytes_eqb_eq. Qed.

Lemma bs_ok s : bytes_ok (bs s).
Proof.
  induction s as [|c s IH]; [constructor|]. constructor; [|exact IH].
  destruct c as [[] [] [] [] [] [] [] []]; split; cbn; lia.
Qed.
#[export] Hint Resolve bs_ok : aa2acp.
