(* ===== verification/Fallible.v ===== *)
(** * Computations that change a state and may fail

    The functions of the session return an error code at every failure and keep
    what they did until then; here such a function is a computation of [Fallible],
    with the lemmas that take a run of one apart. *)

From S2P Require Import Prelude.

Definition Fallible (S A : Type) : Type := S -> option A * S.

#[export] Instance fallible_ret {S} : MRet (Fallible S) := fun A a s => (Some a, s).
#[export] Instance fallible_bind {S} : MBind (Fallible S) := fun A B f m s =>
  match m s with
  | (Some a, s') => f a s'
  | (None, s') => (None, s')
  end.

Definition from_option {S A} (o : option A) : Fallible S A := fun s => (o, s).
Definition check {S} (b : bool) : Fallible S unit := fun s => (if b then Some tt else None, s).

(** ** Facts: running a computation *)

Lemma bind_run {S A B} (m : Fallible S A) (f : A -> Fallible S B) s r s' :
  (m ≫= f) s = (r, s') ->
  (m s = (None, s') /\ r = None) \/ exists a s1, m s = (Some a, s1) /\ f a s1 = (r, s').
Proof.
  unfold mbind, fallible_bind. destruct (m s) as [[a|] s1] eqn:E; intros H; [right; by exists a, s1|left].
  by injection H as <- <-.
Qed.

(** One step of a run that is known: the failure of the step, or the rest. *)
Ltac run H :=
  let a := fresh "a" in let s1 := fresh "s1" in let E := fresh "E" in
  apply bind_run in H as [[E ->]|(a & s1 & E & H)].

Lemma bind_ok {S A B} (m : Fallible S A) (f : A -> Fallible S B) s b s' :
  (m ≫= f) s = (Some b, s') -> exists a s1, m s = (Some a, s1) /\ f a s1 = (Some b, s').
Proof. intros [[_ [=]]|Hr]%bind_run. exact Hr. Qed.

Lemma bind_assoc {S A B C} (m : Fallible S A) (f : A -> Fallible S B) (g : B -> Fallible S C) s :
  (m ≫= fun a => f a ≫= g) s = ((m ≫= f) ≫= g) s.
Proof. unfold mbind, fallible_bind. by destruct (m s) as [[a|] s1]. Qed.

Lemma ret_run {S A} (a : A) s r s' : (mret a : Fallible S A) s = (r, s') -> r = Some a /\ s' = s.
Proof. by intros [= <- <-]. Qed.

(** A computation that leaves the state alone. *)
Definition quiet {S A} (m : Fallible S A) : Prop := forall s, (m s).2 = s.

Lemma quiet_bind {S A B} (m : Fallible S A) (f : A -> Fallible S B) :
  quiet m -> (forall a, quiet (f a)) -> quiet (m ≫= f).
Proof.
  intros Hm Hf s. unfold mbind, fallible_bind. specialize (Hm s).
  destruct (m s) as [[a|] s1]; cbn in Hm |- *; subst s1; [apply Hf|done].
Qed.

Lemma quiet_from_option {S A} (o : option A) : quiet (S:=S) (from_option o).
Proof. done. Qed.

Lemma quiet_check {S} b : quiet (S:=S) (check b).
Proof. done. Qed.

Lemma quiet_ret {S A} (a : A) : quiet (S:=S) (mret a).
Proof. done. Qed.

Lemma quiet_run {S A} (m : Fallible S A) s r s' : quiet m -> m s = (r, s') -> s' = s.
Proof. intros Hm Hr. specialize (Hm s). by rewrite Hr in Hm. Qed.

#[export] Hint Resolve quiet_from_option quiet_check quiet_ret : aa2acp.
Ltac quiet_solve := repeat first [progress eauto with aa2acp | apply quiet_bind; [|intros ?]].

Lemma check_run {S} b (s : S) r s' : check b s = (r, s') -> s' = s /\ (r = Some tt /\ b = true \/ r = None /\ b = false).
Proof. unfold check. destruct b; intros [= <- <-]; auto. Qed.

Lemma check_ok {S} b (s : S) s' : check b s = (Some tt, s') -> s' = s /\ b = true.
Proof. by intros [-> [[_ ->]|[? _]]]%check_run. Qed.

Lemma from_option_run {S A} (o : option A) (s : S) r s' : from_option o s = (r, s') -> s' = s /\ r = o.
Proof. by intros [= <- <-]. Qed.

(** One step of a run that succeeds. *)
Ltac run_ok H :=
  let a := fresh "a" in let s1 := fresh "s1" in let E := fresh "E" in
  apply bind_ok in H as (a & s1 & E & H);
  first [apply from_option_run in E as [-> E]; symmetry in E | destruct a; apply check_ok in E as [-> E] | idtac].
