(* ===== verification/Text.v ===== *)
(** * Text primitives of the C++ standard library the program is built on

    [std::string] and [std::string_view] searches, [std::tolower] and the other
    [<cctype>] tests in the C locale, [std::to_string], [std::from_chars],
    [%02x] and [std::getline], over the byte buffers of [Prelude].  The
    components use these instead of each defining its own. *)

From S2P Require Import Prelude.
#[local] Open Scope Z_scope.

(** ** Searching *)

Fixpoint starts_with (pat l : Bytes) : bool :=
  match pat, l with
  | [], _ => true
  | p :: ps, x :: xs => (p =? x) && starts_with ps xs
  | _ :: _, [] => false
  end.

(** [std::search] / [find(pattern)]: the first occurrence. *)
Fixpoint search (pat l : Bytes) : option nat :=
  if starts_with pat l then Some O
  else match l with
       | [] => None
       | _ :: t => S <$> search pat t
       end.

(** [find(pattern, pos)]. *)
Definition find_from (pat l : Bytes) (pos : nat) : option nat :=
  Nat.add pos <$> search pat (drop pos l).

Definition find_char (c : Z) (l : Bytes) : option nat := search [c] l.

Definition CRLF : Bytes := [13; 10].
Definition CRLFCRLF : Bytes := [13; 10; 13; 10].

Fixpoint drop_while (f : Z -> bool) (l : Bytes) : Bytes :=
  match l with
  | [] => []
  | x :: t => if f x then drop_while f t else l
  end.

(** [find_first_of(chars) == npos]. *)
Definition find_none_of (chars l : Bytes) : bool :=
  forallb (fun c => negb (existsb (Z.eqb c) chars)) l.

(** ** Characters (C locale) *)

Definition is_digit (c : Z) : bool := (48 <=? c) && (c <=? 57).
Definition is_xdigit (c : Z) : bool :=
  is_digit c || ((65 <=? c) && (c <=? 70)) || ((97 <=? c) && (c <=? 102)).
Definition is_space (c : Z) : bool := (c =? 32) || ((9 <=? c) && (c <=? 13)).
Definition to_lower (c : Z) : Z := if (65 <=? c) && (c <=? 90) then c + 32 else c.
Definition to_upper (c : Z) : Z := if (97 <=? c) && (c <=? 122) then c - 32 else c.
Definition is_blank (c : Z) : bool := (c =? 32) || (c =? 9).

(** The [lower] helper of the RTSP code. *)
Definition lower (l : Bytes) : Bytes := map to_lower l.

(** [trim]: from the first to the last character that is not in [" \t"]. *)
Definition trim (l : Bytes) : Bytes :=
  rev (drop_while is_blank (rev (drop_while is_blank l))).

(** ** Decimal and hexadecimal *)

Fixpoint dec_fuel (fuel : nat) (n : Z) : Bytes :=
  match fuel with
  | O => []
  | S f => if n <? 10 then [48 + n] else dec_fuel f (n / 10) ++ [48 + n mod 10]
  end.

(** [std::to_string] of an integer. *)
Definition dec_nonneg (n : Z) : Bytes := dec_fuel (S (Z.to_nat (Z.log2 n))) n.
Definition dec (n : Z) : Bytes :=
  if n <? 0 then 45 :: dec_nonneg (- n) else dec_nonneg n.

Fixpoint digits_prefix (l : Bytes) : Bytes :=
  match l with
  | c :: t => if is_digit c then c :: digits_prefix t else []
  | [] => []
  end.

Definition digits_value (l : Bytes) : Z :=
  fold_left (fun acc c => acc * 10 + (c - 48)) l 0.

(** [std::from_chars] on an unsigned type with maximum [max]: the value and the
    number of characters consumed, [None] on [invalid_argument] and
    [result_out_of_range]. *)
Definition from_chars (max : Z) (l : Bytes) : option (Z * nat) :=
  let d := digits_prefix l in
  match d with
  | [] => None
  | _ => if max <? digits_value d then None else Some (digits_value d, length d)
  end.

(** The idiom [error == std::errc{} && end == value.data() + value.size()]. *)
Definition parse_unsigned (max : Z) (l : Bytes) : option Z :=
  match from_chars max l with
  | Some (v, n) => if Nat.eqb n (length l) then Some v else None
  | None => None
  end.

(** The same for [int]: an optional minus sign. *)
Definition parse_int (l : Bytes) : option Z :=
  match l with
  | c :: t => if c =? 45 then Z.opp <$> parse_unsigned (2 ^ 31) t
              else parse_unsigned (2 ^ 31 - 1) l
  | [] => None
  end.

(** [std::stoi] in base ten: leading white space, a sign, digits; [None] when it
    throws ([invalid_argument] or [out_of_range]). *)
Definition stoi (l : Bytes) : option Z :=
  let l := drop_while is_space l in
  let '(negative, l) := match l with
                        | 45 :: t => (true, t)
                        | 43 :: t => (false, t)
                        | _ => (false, l)
                        end in
  match digits_prefix l with
  | [] => None
  | ds =>
      let v := if negative then - digits_value ds else digits_value ds in
      if (v <? -2147483648) || (2147483647 <? v) then None else Some v
  end.

Definition hex_digit (n : Z) : Z := if n <? 10 then 48 + n else 87 + n.

(** [%0nx] of a value below 16^n. *)
Fixpoint hex (n : nat) (x : Z) : Bytes :=
  match n with
  | O => []
  | S k => hex_digit (Z.land (Z.shiftr x (4 * Z.of_nat k)) 15) :: hex k x
  end.

(** ** [std::getline] until the stream fails *)

Fixpoint getlines_from (cur l : Bytes) : list Bytes :=
  match l with
  | [] => match cur with [] => [] | _ => [rev cur] end
  | c :: t => if c =? 10 then rev cur :: getlines_from [] t
              else getlines_from (c :: cur) t
  end.
Definition getlines (l : Bytes) : list Bytes := getlines_from [] l.

(** ** Lemmas *)

Lemma starts_with_iff pat l : starts_with pat l = true <-> exists t, l = pat ++ t.
Proof.
  revert l; induction pat as [|p ps IH]; intros [|x xs]; simpl.
  - split; [exists []; done | done].
  - split; [by eexists | done].
  - split; [done | intros [t [=]]].
  - rewrite andb_true_iff, Z.eqb_eq, IH. split.
    + intros [-> [t ->]]. by exists t.
    + intros [t [= -> ->]]. eauto.
Qed.

Lemma starts_with_app pat t : starts_with pat (pat ++ t) = true.
Proof. apply starts_with_iff. by eexists. Qed.

Lemma search_Some pat l n :
  search pat l = Some n ->
  (exists t, drop n l = pat ++ t) /\ (n <= length l)%nat /\
  forall m, (m < n)%nat -> starts_with pat (drop m l) = false.
Proof.
  revert n; induction l as [|x l IH]; intros n; simpl.
  - destruct (starts_with pat []) eqn:E; [|done]. intros [= <-].
    apply starts_with_iff in E. repeat split; [done|simpl; lia|lia].
  - destruct (starts_with pat (x :: l)) eqn:E.
    + intros [= <-]. apply starts_with_iff in E. repeat split; [done|simpl; lia|lia].
    + intros (n' & Hn & ->)%fmap_Some. destruct (IH _ Hn) as (Ht & Hle & Hlt).
      repeat split; [done|simpl; lia|]. intros [|m] Hm; [done|]. apply Hlt. lia.
Qed.

Lemma search_None pat l :
  search pat l = None -> forall m, (m <= length l)%nat -> starts_with pat (drop m l) = false.
Proof.
  induction l as [|x l IH]; simpl; intros H m Hm.
  - destruct (starts_with pat []) eqn:E; [done|]. by rewrite drop_nil.
  - destruct (starts_with pat (x :: l)) eqn:E; [done|].
    apply fmap_None in H. destruct m; [done|]. apply IH; [done|lia].
Qed.

(** A pattern is found at the first position where it occurs. *)
Lemma search_first pat l n :
  starts_with pat (drop n l) = true -> (n <= length l)%nat ->
  (forall m, (m < n)%nat -> starts_with pat (drop m l) = false) ->
  search pat l = Some n.
Proof.
  intros H1 Hn H2. destruct (search pat l) as [k|] eqn:E.
  - apply search_Some in E as ((t & Ht) & Hk & Hlt). f_equal.
    destruct (Nat.lt_trichotomy k n) as [Hl|[->|Hl]]; [|done|].
    + specialize (H2 k Hl). rewrite Ht, starts_with_app in H2. done.
    + rewrite Hlt in H1 by lia. done.
  - rewrite (search_None _ _ E) in H1 by lia. done.
Qed.

Lemma search_nil_pat l : search [] l = Some O.
Proof. by destruct l. Qed.

Lemma find_char_app c pre t :
  Forall (fun x => x <> c) pre -> find_char c (pre ++ c :: t) = Some (length pre).
Proof.
  unfold find_char. induction 1 as [|x pre Hx Hpre IH]; simpl.
  - by rewrite Z.eqb_refl.
  - rewrite (proj2 (Z.eqb_neq c x)) by done. simpl. by rewrite IH.
Qed.

Lemma find_char_none c l : Forall (fun x => x <> c) l -> find_char c l = None.
Proof.
  unfold find_char. induction 1 as [|x l Hx Hl IH]; simpl; [done|].
  rewrite (proj2 (Z.eqb_neq c x)) by done. simpl. by rewrite IH.
Qed.

Lemma find_char_none_inv c l : find_char c l = None -> Forall (fun x => x <> c) l.
Proof.
  unfold find_char. induction l as [|x l IH]; simpl; [constructor|].
  destruct (c =? x) eqn:E; [done|]. simpl. intros H%fmap_None. constructor; [|by apply IH].
  apply Z.eqb_neq in E. congruence.
Qed.

Lemma find_char_Some c l n :
  find_char c l = Some n -> exists t, l = take n l ++ c :: t /\ Forall (fun x => x <> c) (take n l).
Proof.
  unfold find_char. revert n; induction l as [|x l IH]; intros n; simpl; [done|].
  destruct (c =? x) eqn:E; simpl.
  - intros [= <-]. apply Z.eqb_eq in E as ->. exists l. split; [done|constructor].
  - intros (m & Hm & ->)%fmap_Some. destruct (IH _ Hm) as (t & Ht & Hf).
    exists t. simpl. split; [by f_equal|]. constructor; [|done].
    apply Z.eqb_neq in E. congruence.
Qed.

Lemma drop_while_none f l : (forall x, x ∈ l -> f x = false) -> drop_while f l = l.
Proof. destruct l as [|x l]; intros H; simpl; [done|]. rewrite H; [done|set_solver]. Qed.

Lemma trim_id l :
  (forall x, x ∈ l -> is_blank x = false) -> trim l = l.
Proof.
  intros H. unfold trim. rewrite (drop_while_none _ l H).
  rewrite drop_while_none; [apply rev_involutive|].
  intros x Hx. apply H. apply list_elem_of_In, in_rev. by apply list_elem_of_In.
Qed.

(** ** Round trip of [std::to_string] and [std::from_chars] *)

Lemma digit_ok d : 0 <= d < 10 -> is_digit (48 + d) = true.
Proof. intros. unfold is_digit. rewrite andb_true_iff, !Z.leb_le. lia. Qed.

Lemma digits_prefix_all l t :
  Forall (fun c => is_digit c = true) l ->
  match t with [] => True | c :: _ => is_digit c = false end ->
  digits_prefix (l ++ t) = l.
Proof.
  induction 1 as [|c l Hc Hl IH]; simpl; intros Ht.
  - destruct t as [|c t]; simpl; [done|]. by rewrite Ht.
  - rewrite Hc. f_equal. by apply IH.
Qed.

Lemma digits_value_snoc l c : digits_value (l ++ [c]) = digits_value l * 10 + (c - 48).
Proof. unfold digits_value. by rewrite fold_left_app. Qed.

Lemma dec_fuel_spec f n :
  0 <= n < 2 ^ Z.of_nat f -> (0 < f)%nat ->
  Forall (fun c => is_digit c = true) (dec_fuel f n) /\
  digits_value (dec_fuel f n) = n /\ dec_fuel f n <> [].
Proof.
  revert n; induction f as [|f IH]; intros n Hn Hf; [lia|]. simpl.
  destruct (n <? 10) eqn:E; bool_hyps.
  - split_and!; [|cbn -[Z.mul]; lia|done]. constructor; [apply digit_ok; lia|constructor].
  - rewrite Nat2Z.inj_succ, Z.pow_succ_r in Hn by lia.
    destruct f as [|f]; [simpl in Hn; lia|].
    destruct (IH (n / 10)) as (H1 & H2 & H3); [|lia|].
    { split; [apply Z.div_pos; lia|apply Z.div_lt_upper_bound; lia]. }
    pose proof (Z.mod_pos_bound n 10). pose proof (Z.div_mod n 10).
    split_and!.
    + apply Forall_app; split; [done|]. constructor; [apply digit_ok; lia|constructor].
    + rewrite digits_value_snoc, H2. lia.
    + by destruct (dec_fuel (S f) (n / 10)).
Qed.

Lemma dec_nonneg_spec n :
  0 <= n ->
  Forall (fun c => is_digit c = true) (dec_nonneg n) /\
  digits_value (dec_nonneg n) = n /\ dec_nonneg n <> [].
Proof.
  intros Hn. apply dec_fuel_spec; [|lia]. split; [done|].
  rewrite Nat2Z.inj_succ, Z2Nat.id by apply Z.log2_nonneg.
  destruct (Z.eq_dec n 0) as [->|]; [reflexivity|]. apply Z.log2_spec. lia.
Qed.

Lemma dec_of_nonneg n : 0 <= n -> dec n = dec_nonneg n.
Proof. intros. unfold dec. by rewrite (proj2 (Z.ltb_ge n 0)). Qed.

Lemma dec_digits n : 0 <= n -> Forall (fun c => is_digit c = true) (dec n).
Proof. intros. rewrite dec_of_nonneg by done. by apply dec_nonneg_spec. Qed.

Lemma dec_not_nil n : 0 <= n -> dec n <> [].
Proof. intros. rewrite dec_of_nonneg by done. by apply dec_nonneg_spec. Qed.

(** [from_chars] reads back what [to_string] printed, and stops at the first
    character after it. *)
Lemma from_chars_dec max n t :
  0 <= n <= max ->
  match t with [] => True | c :: _ => is_digit c = false end ->
  from_chars max (dec n ++ t) = Some (n, length (dec n)).
Proof.
  intros Hn Ht. unfold from_chars. rewrite digits_prefix_all by (done || apply dec_digits; lia).
  destruct (dec_nonneg_spec n) as (_ & Hv & Hnil); [lia|].
  rewrite dec_of_nonneg by lia. destruct (dec_nonneg n) as [|c l] eqn:E; [done|].
  rewrite Hv, (proj2 (Z.ltb_ge max n)) by lia. done.
Qed.

Lemma parse_unsigned_dec max n : 0 <= n <= max -> parse_unsigned max (dec n) = Some n.
Proof.
  intros Hn. unfold parse_unsigned.
  rewrite <- (app_nil_r (dec n)) at 1. rewrite from_chars_dec by done.
  by rewrite Nat.eqb_refl.
Qed.

Lemma parse_unsigned_bound max l v : parse_unsigned max l = Some v -> v <= max.
Proof.
  unfold parse_unsigned, from_chars. intros H.
  destruct (digits_prefix l); [done|]. repeat step_in H; lia.
Qed.

Lemma digits_value_nonneg l : Forall (fun c => is_digit c = true) l -> 0 <= digits_value l.
Proof.
  induction l as [|c l IH] using rev_ind; [done|]. rewrite Forall_app, Forall_singleton, digits_value_snoc.
  intros [Hl Hc]. specialize (IH Hl). unfold is_digit in Hc. bool_hyps. lia.
Qed.

Lemma digits_prefix_digits l : Forall (fun c => is_digit c = true) (digits_prefix l).
Proof. induction l as [|c l IH]; cbn; [constructor|]. destruct (is_digit c) eqn:E; by constructor. Qed.

Lemma parse_unsigned_nonneg max l v : parse_unsigned max l = Some v -> 0 <= v.
Proof.
  unfold parse_unsigned, from_chars. pose proof (digits_value_nonneg _ (digits_prefix_digits l)).
  destruct (digits_prefix l); [done|]. destruct (_ <? _); [done|]. destruct (Nat.eqb _ _); [|done]. by intros [= <-].
Qed.

Lemma digit_range c : is_digit c = true -> 48 <= c <= 57.
Proof. unfold is_digit. intros. bool_hyps. lia. Qed.

Lemma dec_ok n : 0 <= n -> bytes_ok (dec n).
Proof.
  intros. eapply Forall_impl; [by apply dec_digits|].
  intros c Hc%digit_range. split; lia.
Qed.

(** ** [std::getline] *)

Lemma getlines_from_line cur l t :
  Forall (fun c => c <> 10) l ->
  getlines_from cur (l ++ 10 :: t) = (rev cur ++ l) :: getlines t.
Proof.
  intros H. revert cur. induction H as [|c l Hc Hl IH]; intros cur; simpl.
  - by rewrite app_nil_r.
  - rewrite (proj2 (Z.eqb_neq c 10)), IH by done. simpl. by rewrite <- app_assoc.
Qed.

Lemma getlines_line l t :
  Forall (fun c => c <> 10) l -> getlines (l ++ 10 :: t) = l :: getlines t.
Proof. apply (getlines_from_line []). Qed.

(** ** Text of lines that end in CRLF *)

Definition crlf_lines (lines : list Bytes) : Bytes := concat (map (fun l => l ++ CRLF) lines).

(** A line with no carriage return in it, and not empty. *)
Definition line_ok (l : Bytes) : Prop := Forall (fun c => c <> 13) l /\ l <> [].

Lemma crlf_lines_cons l ls : crlf_lines (l :: ls) = l ++ CRLF ++ crlf_lines ls.
Proof. unfold crlf_lines. simpl. by rewrite <- app_assoc. Qed.

Lemma crlf_lines_app a b : crlf_lines (a ++ b) = crlf_lines a ++ crlf_lines b.
Proof. unfold crlf_lines. by rewrite map_app, concat_app. Qed.

Lemma length_crlf_lines_snoc ls l :
  length (crlf_lines (ls ++ [l])) = (length (crlf_lines ls) + length l + 2)%nat.
Proof. rewrite crlf_lines_app, length_app, crlf_lines_cons, !length_app. simpl. lia. Qed.

Lemma crlf_lines_length ls : Forall line_ok ls -> (3 * length ls <= length (crlf_lines ls))%nat.
Proof.
  induction 1 as [|l ls [_ Hl] _ IH]; [simpl; lia|].
  rewrite crlf_lines_cons, !length_app. destruct l; [done|]. simpl in *. lia.
Qed.

Lemma search_skip c pat l t :
  Forall (fun x => x <> c) l -> search (c :: pat) (l ++ t) = Nat.add (length l) <$> search (c :: pat) t.
Proof.
  induction 1 as [|x l Hx Hl IH]; [simpl app; by destruct (search (c :: pat) t)|].
  cbn [app search starts_with length]. rewrite (proj2 (Z.eqb_neq c x)) by done. cbn [andb].
  rewrite IH. by destruct (search (c :: pat) t).
Qed.

Lemma search_crlf l t : Forall (fun c => c <> 13) l -> search CRLF (l ++ CRLF ++ t) = Some (length l).
Proof.
  intros Hl. unfold CRLF. rewrite search_skip by done. simpl. f_equal. lia.
Qed.

Lemma search_crlfcrlf_skip c t :
  c <> 13 -> search CRLFCRLF (13 :: 10 :: c :: t) = Nat.add 2 <$> search CRLFCRLF (c :: t).
Proof.
  intros Hc.
  assert (search CRLFCRLF (13 :: 10 :: c :: t) = S <$> search CRLFCRLF (10 :: c :: t)) as ->.
  { unfold CRLFCRLF. cbn [search starts_with]. rewrite (proj2 (Z.eqb_neq 13 c)) by congruence. done. }
  assert (search CRLFCRLF (10 :: c :: t) = S <$> search CRLFCRLF (c :: t)) as -> by done.
  by destruct (search CRLFCRLF (c :: t)).
Qed.

Lemma search_crlfcrlf_lines ls t :
  Forall line_ok ls -> ls <> [] ->
  search CRLFCRLF (crlf_lines ls ++ CRLF ++ t) = Some (length (crlf_lines ls) - 2)%nat.
Proof.
  intros Hls Hne. induction Hls as [|l ls [Hl Hn] Hls IH]; [done|].
  rewrite crlf_lines_cons, <- !app_assoc. unfold CRLFCRLF. rewrite search_skip by done.
  fold CRLFCRLF. destruct ls as [|l' ls].
  - simpl. f_equal. rewrite length_app. simpl. lia.
  - assert (search CRLFCRLF (CRLF ++ crlf_lines (l' :: ls) ++ CRLF ++ t)
            = Nat.add 2 <$> search CRLFCRLF (crlf_lines (l' :: ls) ++ CRLF ++ t)) as ->.
    { apply Forall_cons in Hls as [[Hl' Hn'] _]. rewrite crlf_lines_cons.
      destruct l' as [|c l']; [done|]. apply Forall_cons in Hl' as [Hc _].
      by apply (search_crlfcrlf_skip c). }
    rewrite IH by done. simpl fmap. f_equal.
    rewrite !length_app. assert (2 <= length (crlf_lines (l' :: ls)))%nat
      by (rewrite crlf_lines_cons, !length_app; simpl; lia).
    simpl. lia.
Qed.

(** A pattern found in a buffer is found at the same place when more follows. *)
Lemma search_extend pat l t n : search pat l = Some n -> search pat (l ++ t) = Some n.
Proof.
  intros Hs. pose proof (search_Some _ _ _ Hs) as ((u & Hu) & Hn & Hlt).
  assert (n + length pat <= length l)%nat.
  { apply (f_equal length) in Hu. rewrite length_drop, length_app in Hu. lia. }
  apply search_first.
  - rewrite drop_app_le, Hu by done. rewrite <- app_assoc. apply starts_with_app.
  - rewrite length_app. lia.
  - intros m Hm. specialize (Hlt m Hm). rewrite drop_app_le by lia.
    destruct (starts_with pat (drop m l ++ t)) eqn:E; [|done].
    apply starts_with_iff in E as [v Hv].
    assert (take (length pat) (drop m l ++ t) = pat) as Ht by (rewrite Hv; apply take_app_length).
    rewrite take_app_le in Ht by (rewrite length_drop; lia).
    rewrite <- (take_drop (length pat) (drop m l)), Ht, starts_with_app in Hlt. done.
Qed.

(** What was found in a longer text is found where it ends. *)
Lemma search_prefix pat l t n :
  search pat (l ++ t) = Some n -> (n + length pat <= length l)%nat -> search pat l = Some n.
Proof.
  intros (Hat & _ & Hlt)%search_Some Hn. destruct Hat as [u Hu]. rewrite drop_app_le in Hu by lia.
  apply search_first; [|lia|].
  - apply starts_with_iff. exists (drop (length pat) (drop n l)).
    rewrite <- (take_drop (length pat) (drop n l)) at 1. f_equal.
    apply (f_equal (take (length pat))) in Hu.
    by rewrite take_app_le, take_app_length in Hu by (rewrite length_drop; lia).
  - intros m Hm. specialize (Hlt m Hm). rewrite drop_app_le in Hlt by lia.
    destruct (starts_with pat (drop m l)) eqn:E; [|done].
    apply starts_with_iff in E as [v Hv]. by rewrite Hv, <- app_assoc, starts_with_app in Hlt.
Qed.

Lemma find_from_extend pat l t pos n :
  find_from pat l pos = Some n -> find_from pat (l ++ t) pos = Some n.
Proof.
  unfold find_from. intros (k & Hk & ->)%fmap_Some.
  destruct (Nat.le_gt_cases pos (length l)) as [Hle|Hgt].
  - by rewrite drop_app_le, (search_extend _ _ t _ Hk).
  - rewrite drop_ge in Hk by lia. destruct pat; [|done]. simpl in Hk. simplify_eq.
    by rewrite search_nil_pat.
Qed.

Lemma find_from_bound pat l pos n :
  find_from pat l pos = Some n ->
  (pos <= n /\ (pos <= length l -> n + length pat <= length l))%nat.
Proof.
  unfold find_from. intros (k & Hk & ->)%fmap_Some.
  apply search_Some in Hk as ((u & Hu) & Hk & _). split; [lia|]. intros Hp.
  apply (f_equal length) in Hu. rewrite length_drop in Hk.
  rewrite !length_drop, length_app in Hu. lia.
Qed.

(** An occurrence of a pattern at or after a position is an upper bound of the
    first one found from there. *)
Lemma find_from_le pat l pos n :
  starts_with pat (drop n l) = true -> (pos <= n <= length l)%nat ->
  exists k, find_from pat l pos = Some k /\ (k <= n)%nat.
Proof.
  intros Hs Hn. unfold find_from. destruct (search pat (drop pos l)) as [k|] eqn:E.
  - exists (pos + k)%nat. split; [done|]. apply search_Some in E as (_ & _ & Hlt).
    destruct (Nat.le_gt_cases (pos + k) n); [done|].
    specialize (Hlt (n - pos)%nat). rewrite drop_drop in Hlt.
    replace (pos + (n - pos))%nat with n in Hlt by lia. rewrite Hs in Hlt. discriminate Hlt. lia.
  - pose proof (search_None _ _ E (n - pos)) as Hno. rewrite drop_drop in Hno.
    replace (pos + (n - pos))%nat with n in Hno by lia. rewrite Hs in Hno.
    discriminate Hno. rewrite length_drop. lia.
Qed.

Lemma parse_int_dec n : 0 <= n <= 2 ^ 31 - 1 -> parse_int (dec n) = Some n.
Proof.
  intros Hn. pose proof (dec_digits n ltac:(lia)) as Hd.
  pose proof (dec_not_nil n ltac:(lia)) as Hne. pose proof (parse_unsigned_dec (2 ^ 31 - 1) n Hn) as Hp.
  destruct (dec n) as [|c t]; [done|]. apply Forall_cons in Hd as [Hc%digit_range _].
  unfold parse_int. by rewrite (proj2 (Z.eqb_neq c 45)) by lia.
Qed.
