(* ===== verification/LinkCodec.v ===== *)
(** * iAP2 link-layer frames

    [src/include/aa2acp/iap2/link_layer.hpp] and the codec half of
    [src/src/iap2/link_layer.cpp]: the checksum, the link synchronisation
    payload and the nine-octet packet header, with the diagnostic text the link
    writes for each frame. *)

From S2P Require Import Prelude Text.
#[local] Open Scope Z_scope.

(** ** Data *)

(* src/include/aa2acp/iap2/link_layer.hpp:14-15 kMarker *)
Definition kMarker : Bytes := [255; 85; 2; 0; 238; 16].

(* src/include/aa2acp/iap2/link_layer.hpp:16-16 kControlSyn *)
Definition kControlSyn : Z := 128.
(* src/include/aa2acp/iap2/link_layer.hpp:17-17 kControlAck *)
Definition kControlAck : Z := 64.
(* src/include/aa2acp/iap2/link_layer.hpp:19-19 kControlRst *)
Definition kControlRst : Z := 16.
(* src/include/aa2acp/iap2/link_layer.hpp:20-20 kControlSessionId *)
Definition kControlSessionId : Z := 10.
(* src/src/iap2/link_layer.cpp:11-11 kPacketStart *)
Definition kPacketStart : Z := 65370.

(* src/include/aa2acp/iap2/link_layer.hpp:24-28 Session *)
Record Session := mkSession { ses_id : Z; ses_type : Z; ses_version : Z }.

(* src/include/aa2acp/iap2/link_layer.hpp:30-39 Lsp *)
Record Lsp := mkLsp {
  max_outgoing : Z;
  max_len : Z;
  retransmission_timeout : Z;
  ack_timeout : Z;
  max_retransmissions : Z;
  max_ack : Z;
  sessions : list Session
}.

(* src/include/aa2acp/iap2/link_layer.hpp:30-39 Lsp (member initialisers) *)
Definition default_lsp : Lsp :=
  mkLsp 4 65535 0 0 0 0
    [mkSession kControlSessionId 0 2; mkSession 11 2 1; mkSession 12 1 2].

(* src/include/aa2acp/iap2/link_layer.hpp:41-47 Header *)
Record Header := mkHeader {
  hdr_length : Z;
  control : Z;
  sequence : Z;
  acknowledgement : Z;
  session_id : Z
}.

#[export] Instance session_eq_dec : EqDecision Session.
Proof. solve_decision. Defined.
#[export] Instance lsp_eq_dec : EqDecision Lsp.
Proof. solve_decision. Defined.
#[export] Instance header_eq_dec : EqDecision Header.
Proof. solve_decision. Defined.

(** ** Operations *)

(* src/src/iap2/link_layer.cpp:51-57 checksum *)
Definition checksum (bytes : Bytes) : Z :=
  u8 (0 - fold_left (fun sum byte => u8 (sum + byte)) bytes 0).

(* src/src/iap2/link_layer.cpp:59-65 has_valid_checksum *)
Definition has_valid_checksum (bytes : Bytes) : bool :=
  fold_left (fun sum byte => u8 (sum + byte)) bytes 0 =? 0.

(* src/src/iap2/link_layer.cpp:67-83 encode_lsp *)
Definition encode_lsp (lsp : Lsp) : Bytes :=
  [1; max_outgoing lsp] ++ u16_field (max_len lsp) ++
  u16_field (retransmission_timeout lsp) ++ u16_field (ack_timeout lsp) ++
  [max_retransmissions lsp; max_ack lsp] ++
  concat (map (fun s => [ses_id s; ses_type s; ses_version s]) (sessions lsp)).

(** The loop [for (offset = 10; offset < size; offset += 3)]; the size test
    before it makes the remainder a multiple of three octets. *)
(* src/src/iap2/link_layer.cpp:101-104 decode_lsp (session loop) *)
Fixpoint decode_sessions (bytes : Bytes) : list Session :=
  match bytes with
  | a :: b :: c :: t => mkSession a b c :: decode_sessions t
  | _ => []
  end.

(* src/src/iap2/link_layer.cpp:85-106 decode_lsp *)
Definition decode_lsp (bytes : Bytes) : option Lsp :=
  if (size_of bytes <? 10) || negb (byte_at bytes 0 =? 1)
     || negb ((size_of bytes - 10) mod 3 =? 0)
  then None
  else
    let maximum_length := read_u16 bytes 2 in
    if maximum_length <? 9 then None
    else Some (mkLsp (byte_at bytes 1) maximum_length (read_u16 bytes 4)
                     (read_u16 bytes 6) (byte_at bytes 8) (byte_at bytes 9)
                     (decode_sessions (drop 10 bytes))).

(* src/src/iap2/link_layer.cpp:108-118 encode_header *)
Definition encode_header (header : Header) : Bytes :=
  let first8 := u16_field kPacketStart ++ u16_field (hdr_length header) ++
                [control header; sequence header; acknowledgement header;
                 session_id header] in
  first8 ++ [checksum first8].

(* src/src/iap2/link_layer.cpp:120-130 decode_header *)
Definition decode_header (bytes : Bytes) : option Header :=
  if negb (has_valid_checksum bytes) || negb (read_u16 bytes 0 =? kPacketStart)
  then None
  else
    let length := read_u16 bytes 2 in
    if length <? 9 then None
    else Some (mkHeader length (byte_at bytes 4) (byte_at bytes 5)
                        (byte_at bytes 6) (byte_at bytes 7)).

(** [snprintf] into a 128-octet buffer keeps at most 127 characters. *)
(* src/src/iap2/link_layer.cpp:25-47 packet_summary *)
Definition packet_summary (direction : Bytes) (header : Header)
    (payload : Bytes) : Bytes :=
  let csm := if (6 <=? size_of payload) && (byte_at payload 0 =? 64)
                && (byte_at payload 1 =? 64)
             then read_u16 payload 4 else 0 in
  let text := bs "iAP2: " ++ direction ++ bs " frame ctrl=0x" ++ hex 2 (control header)
    ++ bs " seq=" ++ dec (sequence header) ++ bs " ack=" ++ dec (acknowledgement header)
    ++ bs " session=" ++ dec (session_id header) ++ bs " payload=" ++ dec (size_of payload) in
  take 127 (if negb (csm =? 0) then text ++ bs " csm=0x" ++ hex 4 csm else text).

(** ** Well-formedness: every field at the width of its type *)

Definition session_ok (s : Session) : Prop :=
  is_u8 (ses_id s) /\ is_u8 (ses_type s) /\ is_u8 (ses_version s).

Definition lsp_ok (l : Lsp) : Prop :=
  is_u8 (max_outgoing l) /\ is_u16 (max_len l) /\
  is_u16 (retransmission_timeout l) /\ is_u16 (ack_timeout l) /\
  is_u8 (max_retransmissions l) /\ is_u8 (max_ack l) /\
  Forall session_ok (sessions l).

Definition header_ok (h : Header) : Prop :=
  is_u16 (hdr_length h) /\ is_u8 (control h) /\ is_u8 (sequence h) /\
  is_u8 (acknowledgement h) /\ is_u8 (session_id h).

(** ** Lemmas *)

Definition byte_sum (bytes : Bytes) : Z := fold_left Z.add bytes 0.

Lemma sum_wrap bytes a :
  fold_left (fun sum byte => u8 (sum + byte)) bytes (u8 a)
  = u8 (fold_left Z.add bytes a).
Proof.
  revert a; induction bytes as [|b bytes IH]; intros a; simpl; [done|].
  rewrite <- IH. f_equal. unfold wrap. by rewrite Z.add_mod_idemp_l.
Qed.

Lemma checksum_sum bytes : checksum bytes = u8 (- byte_sum bytes).
Proof.
  unfold checksum, byte_sum. change 0 with (u8 0) at 2. rewrite sum_wrap.
  unfold wrap. by rewrite Zminus_mod_idemp_r, Z.sub_0_l.
Qed.

Lemma has_valid_checksum_sum bytes :
  has_valid_checksum bytes = (u8 (byte_sum bytes) =? 0).
Proof. unfold has_valid_checksum, byte_sum. by rewrite <- sum_wrap. Qed.

Lemma byte_sum_snoc bytes b : byte_sum (bytes ++ [b]) = byte_sum bytes + b.
Proof. unfold byte_sum. by rewrite fold_left_app. Qed.

Lemma checksum_ok bytes : is_u8 (checksum bytes).
Proof. apply u8_ok. Qed.

(** Appending its checksum makes any buffer valid. *)
Lemma checksum_valid bytes : has_valid_checksum (bytes ++ [checksum bytes]) = true.
Proof.
  rewrite has_valid_checksum_sum, byte_sum_snoc, checksum_sum. unfold wrap.
  by rewrite Z.add_mod_idemp_r, Z.add_opp_diag_r.
Qed.

Lemma length_encode_header h : length (encode_header h) = 9%nat.
Proof. reflexivity. Qed.

Lemma encode_header_ok h : header_ok h -> bytes_ok (encode_header h).
Proof.
  intros (_ & ? & ? & ? & ?). unfold encode_header.
  bytes_solve.
Qed.

Lemma concat_sessions_length l :
  length (concat (map (fun s => [ses_id s; ses_type s; ses_version s]) l)) = (3 * length l)%nat.
Proof. induction l; simpl; [done|]. rewrite IHl. lia. Qed.

Lemma decode_encode_sessions l :
  decode_sessions (concat (map (fun s => [ses_id s; ses_type s; ses_version s]) l)) = l.
Proof. induction l as [|[] l IH]; simpl; congruence. Qed.

Lemma length_encode_lsp l : length (encode_lsp l) = (10 + 3 * length (sessions l))%nat.
Proof. unfold encode_lsp. simpl. by rewrite concat_sessions_length. Qed.

Lemma encode_lsp_ok l : lsp_ok l -> bytes_ok (encode_lsp l).
Proof.
  intros (? & ? & ? & ? & ? & ? & Hs). unfold encode_lsp.
  bytes_solve.
  induction Hs as [|s ss (? & ? & ?) Hss IH]; simpl; bytes_solve.
Qed.

Lemma decode_sessions_ok bytes : bytes_ok bytes -> Forall session_ok (decode_sessions bytes).
Proof.
  revert bytes. fix IH 1. intros [|a [|b [|c t]]] H; simpl; auto.
  apply Forall_cons_1 in H as [Ha H]. apply Forall_cons_1 in H as [Hb H].
  apply Forall_cons_1 in H as [Hc H]. apply Forall_cons_2; [done|]. by apply IH.
Qed.

(** Decoded link parameters have fields at their widths. *)
Lemma decode_lsp_ok bytes l : bytes_ok bytes -> decode_lsp bytes = Some l -> lsp_ok l /\ 9 <= max_len l.
Proof.
  intros H Hd. unfold decode_lsp in Hd. repeat step_in Hd.
  split; [|done]. repeat split; try apply byte_at_ok; try apply read_u16_ok; auto.
  all: try apply byte_at_ok; auto. by apply decode_sessions_ok, Forall_drop.
Qed.

Lemma decode_header_ok bytes h :
  bytes_ok bytes -> decode_header bytes = Some h -> header_ok h /\ 9 <= hdr_length h.
Proof.
  intros H Hd. unfold decode_header in Hd. repeat step_in Hd.
  split; [|done]. repeat split; first [apply byte_at_ok | apply read_u16_ok]; auto.
Qed.

(** ** Round trips *)

(** A packet header survives the wire: [decode_header] accepts what
    [encode_header] produces for every header whose fields have their declared
    widths and whose length covers the header itself, and returns it. *)
Lemma decode_encode_header h :
  header_ok h -> 9 <= hdr_length h -> decode_header (encode_header h) = Some h.
Proof.
  intros (Hl & _) H9. unfold decode_header.
  unfold encode_header at 1. rewrite checksum_valid.
  change (read_u16 (encode_header h) 0) with kPacketStart. rewrite Z.eqb_refl. simpl negb.
  change (read_u16 (encode_header h) 2) with (read_u16 (u16_field (hdr_length h) ++ []) 0).
  rewrite read_u16_field by done. rewrite (proj2 (Z.ltb_ge _ 9)) by done.
  by destruct h.
Qed.

(** The link synchronisation payload survives the wire: for every [Lsp]
    with fields at their widths and a maximum frame length of at least nine,
    decoding its encoding gives the same parameters and the same sessions. *)
Theorem decode_encode_lsp l :
  lsp_ok l -> 9 <= max_len l -> decode_lsp (encode_lsp l) = Some l.
Proof.
  intros (Ho & Hm & Hr & Ha & _) H9. unfold decode_lsp.
  unfold size_of. rewrite length_encode_lsp.
  rewrite (proj2 (Z.ltb_ge _ 10)) by lia.
  replace (Z.of_nat _ - 10) with (Z.of_nat (length (sessions l)) * 3) by lia.
  rewrite Z.mod_mul by lia. simpl negb. simpl orb.
  assert (read_u16 (encode_lsp l) 2 = max_len l) as ->.
  { exact (read_u16_field (max_len l) (drop 4 (encode_lsp l)) Hm). }
  rewrite (proj2 (Z.ltb_ge _ 9)) by done.
  assert (read_u16 (encode_lsp l) 4 = retransmission_timeout l) as ->.
  { exact (read_u16_field (retransmission_timeout l) (drop 6 (encode_lsp l)) Hr). }
  assert (read_u16 (encode_lsp l) 6 = ack_timeout l) as ->.
  { exact (read_u16_field (ack_timeout l) (drop 8 (encode_lsp l)) Ha). }
  change (drop 10 (encode_lsp l)) with
    (concat (map (fun s => [ses_id s; ses_type s; ses_version s]) (sessions l))).
  rewrite decode_encode_sessions. by destruct l.
Qed.

Lemma decode_encode_lsp_witness :
  lsp_ok default_lsp /\ decode_lsp (encode_lsp default_lsp) = Some default_lsp.
Proof.
  assert (lsp_ok default_lsp) as H by (repeat split; repeat constructor; vm_compute; congruence).
  split; [exact H|]. apply (decode_encode_lsp _ H). simpl. lia.
Defined.
