(* ===== verification/PhoneLink.v ===== *)
(** * The phone-side iAP2 link ([PhoneLink])

    [src/include/aa2acp/iap2/link_layer.hpp] and the state machine half of
    [src/src/iap2/link_layer.cpp].  The record [PhoneLink] has the members of
    the class; each method is one definition that takes and returns it.  The
    callbacks the caller installs are the class [Transport] ([send_], [log_])
    and the class [ControlClient] ([control_data_]); every call of a callback is
    an event of the ghost field [trace], newest first, and the transport may
    answer each send differently, since it is handed the trace so far.  A
    [steady_clock] time is its count of nanoseconds. *)

From S2P Require Import Prelude Text LinkCodec.
From stdpp Require Import relations.
#[local] Open Scope Z_scope.

(** ** State *)

(* src/include/aa2acp/iap2/link_layer.hpp:22-22 State *)
Inductive State := Detect | Negotiate | Normal | Dead.

#[export] Instance state_eq_dec : EqDecision State.
Proof. solve_decision. Defined.

Definition state_eqb (a b : State) : bool := bool_decide (a = b).

(* src/include/aa2acp/iap2/link_layer.hpp:76-81 PendingMessage *)
Record PendingMessage := mkPending {
  pm_sequence : Z;
  pm_frame : Bytes;
  pm_deadline : Z;
  pm_retries : Z
}.

(** Calls of the callbacks: a frame handed to [send_] with its result, a line
    handed to [log_], and a data frame accepted in sequence, with whether it
    was handed to [control_data_]. *)
Inductive Event :=
| EvSend (frame : Bytes) (ok : bool)
| EvLog (text : Bytes)
| EvData (seq : Z) (payload : Bytes) (delivered : bool).

(* src/include/aa2acp/iap2/link_layer.hpp:101-117 PhoneLink (members) *)
Record PhoneLink := mkLink {
  state : State;
  detect_dump_logged : bool;
  lsp : Lsp;
  sent_sequence : Z;
  peer_control_session_id : Z;
  last_received_sequence : Z;
  last_sequence_valid : bool;
  receive_buffer : Bytes;
  next_marker : Z;
  next_syn : Z;
  pending : list PendingMessage;
  syn_sequence : Z;
  syn_outstanding : bool;
  trace : list Event
}.

(* src/include/aa2acp/iap2/link_layer.hpp:104-117 PhoneLink (member initialisers) *)
Definition new_link : PhoneLink :=
  mkLink Detect false default_lsp 99 kControlSessionId 0 false [] 0 0 [] 0 false [].

Definition set_state (s : State) (l : PhoneLink) : PhoneLink :=
  mkLink s (detect_dump_logged l) (lsp l) (sent_sequence l) (peer_control_session_id l)
    (last_received_sequence l) (last_sequence_valid l) (receive_buffer l) (next_marker l)
    (next_syn l) (pending l) (syn_sequence l) (syn_outstanding l) (trace l).
Definition set_dump_logged (b : bool) (l : PhoneLink) : PhoneLink :=
  mkLink (state l) b (lsp l) (sent_sequence l) (peer_control_session_id l)
    (last_received_sequence l) (last_sequence_valid l) (receive_buffer l) (next_marker l)
    (next_syn l) (pending l) (syn_sequence l) (syn_outstanding l) (trace l).
Definition set_lsp (v : Lsp) (l : PhoneLink) : PhoneLink :=
  mkLink (state l) (detect_dump_logged l) v (sent_sequence l) (peer_control_session_id l)
    (last_received_sequence l) (last_sequence_valid l) (receive_buffer l) (next_marker l)
    (next_syn l) (pending l) (syn_sequence l) (syn_outstanding l) (trace l).
Definition set_sent_sequence (v : Z) (l : PhoneLink) : PhoneLink :=
  mkLink (state l) (detect_dump_logged l) (lsp l) v (peer_control_session_id l)
    (last_received_sequence l) (last_sequence_valid l) (receive_buffer l) (next_marker l)
    (next_syn l) (pending l) (syn_sequence l) (syn_outstanding l) (trace l).
Definition set_peer_session (v : Z) (l : PhoneLink) : PhoneLink :=
  mkLink (state l) (detect_dump_logged l) (lsp l) (sent_sequence l) v
    (last_received_sequence l) (last_sequence_valid l) (receive_buffer l) (next_marker l)
    (next_syn l) (pending l) (syn_sequence l) (syn_outstanding l) (trace l).
(** [last_sequence_valid_ = true; last_received_sequence_ = v]. *)
Definition set_received (v : Z) (l : PhoneLink) : PhoneLink :=
  mkLink (state l) (detect_dump_logged l) (lsp l) (sent_sequence l) (peer_control_session_id l)
    v true (receive_buffer l) (next_marker l)
    (next_syn l) (pending l) (syn_sequence l) (syn_outstanding l) (trace l).
Definition set_buffer (v : Bytes) (l : PhoneLink) : PhoneLink :=
  mkLink (state l) (detect_dump_logged l) (lsp l) (sent_sequence l) (peer_control_session_id l)
    (last_received_sequence l) (last_sequence_valid l) v (next_marker l)
    (next_syn l) (pending l) (syn_sequence l) (syn_outstanding l) (trace l).
Definition set_next_marker (v : Z) (l : PhoneLink) : PhoneLink :=
  mkLink (state l) (detect_dump_logged l) (lsp l) (sent_sequence l) (peer_control_session_id l)
    (last_received_sequence l) (last_sequence_valid l) (receive_buffer l) v
    (next_syn l) (pending l) (syn_sequence l) (syn_outstanding l) (trace l).
Definition set_next_syn (v : Z) (l : PhoneLink) : PhoneLink :=
  mkLink (state l) (detect_dump_logged l) (lsp l) (sent_sequence l) (peer_control_session_id l)
    (last_received_sequence l) (last_sequence_valid l) (receive_buffer l) (next_marker l)
    v (pending l) (syn_sequence l) (syn_outstanding l) (trace l).
Definition set_pending (v : list PendingMessage) (l : PhoneLink) : PhoneLink :=
  mkLink (state l) (detect_dump_logged l) (lsp l) (sent_sequence l) (peer_control_session_id l)
    (last_received_sequence l) (last_sequence_valid l) (receive_buffer l) (next_marker l)
    (next_syn l) v (syn_sequence l) (syn_outstanding l) (trace l).
Definition set_syn (s : Z) (outstanding : bool) (l : PhoneLink) : PhoneLink :=
  mkLink (state l) (detect_dump_logged l) (lsp l) (sent_sequence l) (peer_control_session_id l)
    (last_received_sequence l) (last_sequence_valid l) (receive_buffer l) (next_marker l)
    (next_syn l) (pending l) s outstanding (trace l).
Definition add_event (e : Event) (l : PhoneLink) : PhoneLink :=
  mkLink (state l) (detect_dump_logged l) (lsp l) (sent_sequence l) (peer_control_session_id l)
    (last_received_sequence l) (last_sequence_valid l) (receive_buffer l) (next_marker l)
    (next_syn l) (pending l) (syn_sequence l) (syn_outstanding l) (e :: trace l).

(** [std::chrono::milliseconds] and [std::chrono::seconds] on the clock. *)
Definition milliseconds (n : Z) : Z := n * 1000000.
Definition seconds (n : Z) : Z := n * 1000000000.

(** The [send_] and [log_] callbacks of the owner of the link. *)
Class Transport := {
  transport_send : list Event -> Bytes -> bool;
  log_installed : bool
}.

(** ** Sending *)

Section Sending.
Context `{Transport}.

Definition send_frame (frame : Bytes) (l : PhoneLink) : bool * PhoneLink :=
  let ok := transport_send (trace l) frame in
  (ok, add_event (EvSend frame ok) l).

(* src/src/iap2/link_layer.cpp:520-524 PhoneLink::log *)
Definition log (message : Bytes) (l : PhoneLink) : PhoneLink :=
  if log_installed then add_event (EvLog message) l else l.

(* src/src/iap2/link_layer.cpp:274-280 PhoneLink::send_marker *)
Definition send_marker (l : PhoneLink) : bool * PhoneLink :=
  let (ok, l) := send_frame kMarker l in
  if ok then (true, l)
  else (false, log (bs "iAP2: marker transport send failed; link is dead")
                   (set_state Dead l)).

(* src/src/iap2/link_layer.cpp:302-317 PhoneLink::encode_packet *)
Definition encode_packet (l : PhoneLink) (payload : Bytes)
    (seq ctrl session : Z) : Bytes :=
  if negb (bytes_eqb payload []) && (65525 <? size_of payload) then []
  else
    let header := encode_header
      (mkHeader (u16 (if bytes_eqb payload [] then 9 else size_of payload + 10))
                ctrl seq (last_received_sequence l) session) in
    header ++ (if bytes_eqb payload [] then [] else payload ++ [checksum payload]).

(* src/src/iap2/link_layer.cpp:319-335 PhoneLink::write_packet *)
Definition write_packet (payload : Bytes) (seq ctrl session : Z)
    (l : PhoneLink) : PhoneLink :=
  let header :=
    mkHeader (u16 (if bytes_eqb payload [] then 9 else size_of payload + 10))
             ctrl seq (last_received_sequence l) session in
  let l := log (packet_summary (bs "tx") header payload) l in
  let packet := encode_packet l payload seq ctrl session in
  let failed l := log (bs "iAP2: control packet transport send failed")
                      (set_state Dead l) in
  if bytes_eqb packet [] then failed l
  else let (ok, l) := send_frame packet l in if ok then l else failed l.

(* src/src/iap2/link_layer.cpp:282-298 PhoneLink::send_syn *)
Definition send_syn (now : Z) (acknowledge_peer : bool) (l : PhoneLink) : PhoneLink :=
  if negb (state_eqb (state l) Negotiate) then l
  else
    let payload := encode_lsp (lsp l) in
    let l :=
      if negb (syn_outstanding l) then
        let s := u8 (sent_sequence l + 1) in
        set_syn s true (set_sent_sequence s l)
      else l in
    let l := write_packet payload (syn_sequence l)
               (u8 (Z.lor kControlSyn (if acknowledge_peer then kControlAck else 0))) 0 l in
    set_next_syn (now + milliseconds 500) l.

(* src/src/iap2/link_layer.cpp:300-300 PhoneLink::send_ack *)
Definition send_ack (l : PhoneLink) : PhoneLink :=
  write_packet [] (sent_sequence l) kControlAck 0 l.

(** [clock] is the [steady_clock::now()] the method reads. *)
(* src/src/iap2/link_layer.cpp:239-272 PhoneLink::send_control *)
Definition send_control (clock : Z) (payload : Bytes) (l : PhoneLink)
    : bool * PhoneLink :=
  if negb (state_eqb (state l) Normal) || bytes_eqb payload []
     || (max_len (lsp l) <? 10) || (max_len (lsp l) - 10 <? size_of payload)
  then (false, l)
  else if max_outgoing (lsp l) <=? size_of (pending l) then
    (false, log (bs "iAP2: send window full; dropping control message") l)
  else
    let s := u8 (sent_sequence l + 1) in
    let l := set_sent_sequence s l in
    let header := mkHeader (u16 (size_of payload + 10)) kControlAck s
                    (last_received_sequence l) (peer_control_session_id l) in
    let l := log (packet_summary (bs "tx") header payload) l in
    let frame := encode_packet l payload s kControlAck (peer_control_session_id l) in
    let failed l :=
      (false, set_pending [] (set_state Dead
        (log (bs "iAP2: control message transport send failed; link is dead") l))) in
    if bytes_eqb frame [] then failed l
    else
      let (ok, l) := send_frame frame l in
      if ok then
        (true, set_pending
           (pending l ++ [mkPending s frame
              (clock + milliseconds (retransmission_timeout (lsp l))) 0]) l)
      else failed l.

(* src/src/iap2/link_layer.cpp:137-146 PhoneLink::start *)
Definition start (now : Z) (l : PhoneLink) : PhoneLink :=
  if negb (state_eqb (state l) Detect) then l
  else
    let (ok, l) := send_marker l in
    if ok then log (bs "iAP2: sent initial marker and LSP SYN")
                   (send_syn now false (set_state Negotiate l))
    else l.

(** The retransmission loop over [pending_]: [visited] are the messages the
    loop has passed, with the retries and deadlines it gave them. *)
(* src/src/iap2/link_layer.cpp:216-236 PhoneLink::tick (retransmission loop) *)
Fixpoint tick_pending (now : Z) (visited rest : list PendingMessage)
    (l : PhoneLink) : PhoneLink :=
  match rest with
  | [] => set_pending visited l
  | m :: rest =>
      if now <? pm_deadline m then tick_pending now (visited ++ [m]) rest l
      else if max_retransmissions (lsp l) <=? pm_retries m then
        set_pending [] (set_state Dead
          (log (bs "iAP2: control message exhausted retransmissions; link is dead") l))
      else
        let m' := mkPending (pm_sequence m) (pm_frame m)
                    (now + milliseconds (retransmission_timeout (lsp l)))
                    (u32 (pm_retries m + 1)) in
        let (ok, l) := send_frame (pm_frame m) l in
        if ok then tick_pending now (visited ++ [m']) rest l
        else set_pending [] (set_state Dead
          (log (bs "iAP2: control retransmission failed; link is dead") l))
  end.

(* src/src/iap2/link_layer.cpp:202-237 PhoneLink::tick *)
Definition tick (now : Z) (l : PhoneLink) : PhoneLink :=
  if state_eqb (state l) Dead then l
  else
    let (go_on, l) :=
      if state_eqb (state l) Detect && (next_marker l <=? now) then
        let (ok, l) := send_marker l in
        if ok then (true, set_next_marker (now + seconds 1) l) else (false, l)
      else (true, l) in
    if negb go_on then l
    else
      let l := if state_eqb (state l) Negotiate && (next_syn l <=? now)
               then send_syn now false l else l in
      tick_pending now [] (pending l) l.

End Sending.

(** ** Receiving *)

(** Cumulative acknowledgement over wrapping eight-bit sequence numbers. *)
(* src/src/iap2/link_layer.cpp:339-342 acknowledged_by *)
Definition acknowledged_by (seq ack : Z) : bool := 0 <=? s8 (ack - seq).

(** What one execution of a loop body does: go round again or leave. *)
Inductive Loop (A : Type) :=
| Continue (a : A)
| Return (a : A).
Arguments Continue {A} a.
Arguments Return {A} a.

(** The clamping of a received LSP before it is adopted. *)
(* src/src/iap2/link_layer.cpp:436-443 PhoneLink::handle_packet (clamping) *)
Definition clamp_lsp (r : Lsp) : Lsp :=
  mkLsp (Z.min (Z.max (max_outgoing r) 1) 128) (max_len r)
        (Z.max (retransmission_timeout r) 100) (Z.max (ack_timeout r) 50)
        (Z.max (max_retransmissions r) 1) (max_ack r) (sessions r).

Definition kMaxReceiveBuffer : Z := 128 * 1024.

(** The text logged once for traffic that arrives before the marker. *)
(* src/src/iap2/link_layer.cpp:170-181 PhoneLink::receive (detect dump) *)
Definition detect_dump (bytes : Bytes) : Bytes :=
  bs "iAP2: received " ++ dec (size_of bytes) ++ bs " byte(s) without marker:"
  ++ concat (map (fun b => bs " " ++ hex 2 b) (take 32 bytes))
  ++ (if 32 <? size_of bytes then bs " ..." else []).

(** A client of the link: its state [C] and the [control_data_] callback it
    installed, which runs while the link is handling the frame and may itself
    call [send_control]. *)
Definition control_callback `{Transport} (C : Type) : Type :=
  option (Bytes -> PhoneLink * C -> PhoneLink * C).

Section Receiving.
Context `{Transport} {C : Type} (control_data : control_callback C).

(** An accepted frame goes to the callback when it is for the control
    session and a callback is installed. *)
(* src/src/iap2/link_layer.cpp:512-514 PhoneLink::handle_packet (control_data_) *)
Definition deliver (seq : Z) (payload : Bytes) (mine : bool)
    (w : PhoneLink * C) : PhoneLink * C :=
  let '(l, c) := w in
  match control_data with
  | Some callback =>
      let l := add_event (EvData seq payload mine) l in
      if mine then callback payload (l, c) else (l, c)
  | None => (add_event (EvData seq payload false) l, c)
  end.

(* src/src/iap2/link_layer.cpp:399-518 PhoneLink::handle_packet *)
Definition handle_packet (header : Header) (payload : Bytes) (now : Z)
    (w : PhoneLink * C) : PhoneLink * C :=
  let '(l, c) := w in
  let l := log (packet_summary (bs "rx") header payload) l in
  if negb (Z.land (control header) kControlRst =? 0) then
    (log (bs "iAP2: accessory sent reset")
       (set_buffer [] (set_syn (syn_sequence l) false
         (set_pending [] (set_state Dead l)))), c)
  else
    let has_ack := negb (Z.land (control header) kControlAck =? 0) in
    let l :=
      if has_ack && negb (size_of (pending l) =? 0) then
        set_pending (filter (fun m => acknowledged_by (pm_sequence m)
                               (acknowledgement header) = false) (pending l)) l
      else l in
    if negb (Z.land (control header) kControlSyn =? 0) then
      if state_eqb (state l) Normal then
        (log (bs "iAP2: acknowledged SYN while link is established") (send_ack l), c)
      else
        match decode_lsp payload with
        | Some received_lsp =>
            let negotiated := clamp_lsp received_lsp in
            let l := set_lsp negotiated l in
            let l := match List.find (fun s => ses_type s =? 0) (sessions negotiated) with
                     | Some s => set_peer_session (ses_id s) l
                     | None => l
                     end in
            let l := set_received (sequence header) l in
            let l := send_syn now true l in
            (if state_eqb (state l) Negotiate
             then log (bs "iAP2: received accessory SYN; awaiting ACK of our SYN") l
             else l, c)
        | None => (log (bs "iAP2: received undecodable LSP payload") l, c)
        end
    else if has_ack && state_eqb (state l) Negotiate then
      (if syn_outstanding l && acknowledged_by (syn_sequence l) (acknowledgement header)
       then log (bs "iAP2: link established (NORMAL)")
              (set_state Normal (set_syn (syn_sequence l) false l))
       else log (bs "iAP2: received ACK that does not acknowledge our SYN") l, c)
    else if (Z.land (control header) (Z.lnot kControlAck) =? 0)
            && negb (bytes_eqb payload []) then
      if negb (state_eqb (state l) Normal) then
        (log (bs "iAP2: ignoring data frame while link is not established") l, c)
      else if last_sequence_valid l
              && negb (sequence header =? last_received_sequence l)
              && (128 <? u8 (sequence header - last_received_sequence l)) then
        (send_ack l, c)
      else if last_sequence_valid l
              && (1 <? u8 (sequence header - last_received_sequence l)) then
        (send_ack (log (bs "iAP2: sequence gap detected; awaiting retransmission") l), c)
      else if last_sequence_valid l
              && (sequence header =? last_received_sequence l) then
        (send_ack (log (bs "iAP2: duplicate sequence dropped") l), c)
      else
        let l := set_received (sequence header) l in
        let mine := session_id header =? peer_control_session_id l in
        let '(l, c) := deliver (sequence header) payload mine (l, c) in
        (send_ack l, c)
    else (l, c).

(** One iteration of the [while] loop of [process_packets]. *)
(* src/src/iap2/link_layer.cpp:347-395 PhoneLink::process_packets (loop body) *)
Definition process_step (now : Z) (w : PhoneLink * C) : Loop (PhoneLink * C) :=
  let '(l, c) := w in
  let buf := receive_buffer l in
  if size_of buf <? 9 then Return (l, c)
  else
    let start := match find_char 255 (take (length buf - 1) buf) with
                 | Some n => n
                 | None => (length buf - 1)%nat
                 end in
    if Nat.eqb start (length buf - 1) then
      Return (set_buffer (drop (length buf - 1) buf) l, c)
    else if negb (byte_at buf (start + 1) =? 90) then
      Continue (set_buffer (drop (start + 1) buf) l, c)
    else
      let buf := drop start buf in
      let l := set_buffer buf l in
      if size_of buf <? 9 then Return (l, c)
      else
        match decode_header (take 9 buf) with
        | None => Continue (set_buffer (drop 1 buf) l, c)
        | Some header =>
            let len := Z.to_nat (hdr_length header) in
            if max_len (lsp l) <? hdr_length header then
              Return (set_buffer [] (set_state Dead
                (log (bs "iAP2: peer exceeded negotiated maximum frame length") l)), c)
            else if size_of buf <? hdr_length header then Return (l, c)
            else if 9 <? hdr_length header then
              let payload_and_checksum := subspan 9 (len - 9) buf in
              if negb (has_valid_checksum payload_and_checksum) then
                Continue (set_buffer (drop len buf) l, c)
              else
                Continue (handle_packet header
                  (take (len - 10) payload_and_checksum) now
                  (set_buffer (drop len buf) l, c))
            else
              Continue (handle_packet header [] now (set_buffer (drop len buf) l, c))
        end.

Fixpoint process_loop (fuel : nat) (now : Z) (w : PhoneLink * C)
    : option (PhoneLink * C) :=
  match fuel with
  | O => None
  | S f => match process_step now w with
           | Continue w => process_loop f now w
           | Return w => Some w
           end
  end.

(** The loop; [process_packets_terminates] shows the fuel is enough. *)
(* src/src/iap2/link_layer.cpp:344-397 PhoneLink::process_packets *)
Definition process_packets (now : Z) (w : PhoneLink * C) : PhoneLink * C :=
  match process_loop (S (length (receive_buffer w.1))) now w with
  | Some w => w
  | None => w
  end.

(* src/src/iap2/link_layer.cpp:148-200 PhoneLink::receive *)
Definition receive (bytes : Bytes) (now : Z) (w : PhoneLink * C) : PhoneLink * C :=
  let '(l, c) := w in
  if (kMaxReceiveBuffer <? size_of (receive_buffer l))
     || (kMaxReceiveBuffer - size_of (receive_buffer l) <? size_of bytes) then
    (log (bs "iAP2: receive buffer overflow; link is dead")
       (set_buffer [] (set_state Dead l)), c)
  else
    let l := set_buffer (receive_buffer l ++ bytes) l in
    if state_eqb (state l) Detect then
      match search kMarker (receive_buffer l) with
      | None =>
          let l :=
            if negb (bytes_eqb bytes []) && negb (detect_dump_logged l) && log_installed
            then set_dump_logged true (add_event (EvLog (detect_dump bytes)) l)
            else l in
          (if 5 <? size_of (receive_buffer l)
           then set_buffer (drop (length (receive_buffer l) - 5) (receive_buffer l)) l
           else l, c)
      | Some marker =>
          let l := set_buffer (drop (marker + 6) (receive_buffer l)) l in
          let l := set_state Negotiate l in
          let l := log (bs "iAP2: accessory marker detected; negotiating LSP") l in
          process_packets now (send_syn now false l, c)
      end
    else process_packets now (l, c).

End Receiving.

(** ** Clients and reachable states *)

(** One [send_control] call of a client. *)
Definition control_send `{Transport} (l l' : PhoneLink) : Prop :=
  exists clock payload, bytes_ok payload /\ l' = (send_control clock payload l).2.

(** What a client of the link promises: its callback touches the link through
    [send_control] only. *)
Class ControlClient `{Transport} {C : Type} (cb : control_callback C) : Prop :=
  control_client_sends : forall h payload l c,
    cb = Some h -> bytes_ok payload -> rtc control_send l (h payload (l, c)).1.

(** The calls the owner of the link makes, in any order. *)
Inductive link_op `{Transport} {C} (cb : control_callback C)
    : PhoneLink * C -> PhoneLink * C -> Prop :=
| op_start now l c : link_op cb (l, c) (start now l, c)
| op_receive bytes now w : bytes_ok bytes -> link_op cb w (receive cb bytes now w)
| op_tick now l c : link_op cb (l, c) (tick now l, c)
| op_send clock payload l c :
    bytes_ok payload -> link_op cb (l, c) ((send_control clock payload l).2, c)
| op_client l c c' : link_op cb (l, c) (l, c').

Definition link_run `{Transport} {C} (cb : control_callback C) := rtc (link_op cb).

Definition link_reachable `{Transport} {C} (cb : control_callback C) (c : C)
    (w : PhoneLink * C) : Prop := link_run cb (new_link, c) w.
