(* ===== verification/LinkFacts.v ===== *)
(** * Properties of the phone-side link

    The frame relation [tx_step] of the sending operations, the interface
    [ControlClient] a client of the link has to meet, the invariants of the link
    over every reachable state, termination of the receive loop, in-order
    delivery and the wire round trip of a packet. *)

From S2P Require Import Prelude Text LinkCodec PhoneLink.
From stdpp Require Import relations.
#[local] Open Scope Z_scope.

Lemma state_eqb_eq a b : state_eqb a b = true <-> a = b.
Proof. apply bool_decide_eq_true. Qed.
Lemma state_eqb_neq a b : state_eqb a b = false <-> a <> b.
Proof. apply bool_decide_eq_false. Qed.
Lemma state_eqb_refl a : state_eqb a a = true.
Proof. by apply state_eqb_eq. Qed.

(** ** The accepted data frames of a trace *)

Definition is_data (e : Event) : bool :=
  match e with EvData _ _ _ => true | _ => false end.

Definition data_events (tr : list Event) : list Event := List.filter is_data tr.

Fixpoint accepted (tr : list Event) : list Z :=
  match tr with
  | [] => []
  | EvData s _ _ :: t => s :: accepted t
  | _ :: t => accepted t
  end.

Lemma data_events_app a b : data_events (a ++ b) = data_events a ++ data_events b.
Proof. apply List.filter_app. Qed.

Lemma accepted_data tr : accepted (data_events tr) = accepted tr.
Proof.
  unfold data_events. induction tr as [|[f ok|t|s p d] tr IH]; simpl; rewrite ?IH; done.
Qed.

(** What sending may change: everything the receive side depends on is left
    alone, and the link either keeps its state or dies. *)
Record tx_step (l l' : PhoneLink) : Prop := {
  tx_buffer : receive_buffer l' = receive_buffer l;
  tx_received : last_received_sequence l' = last_received_sequence l;
  tx_valid : last_sequence_valid l' = last_sequence_valid l;
  tx_lsp : lsp l' = lsp l;
  tx_peer : peer_control_session_id l' = peer_control_session_id l;
  tx_state : state l' = state l \/ state l' = Dead;
  tx_data : data_events (trace l') = data_events (trace l)
}.

#[export] Instance tx_step_preorder : PreOrder tx_step.
Proof.
  split.
  - intros l. split; auto.
  - intros a b c [????? Hs1 ?] [????? Hs2 ?]. split; try congruence.
    destruct Hs2 as [->|]; [destruct Hs1 as [->|]|]; auto.
Qed.

(** Case analysis on everything an operation tests, keeping the records. *)
Ltac link_cases :=
  repeat match goal with
  | |- context [if ?b then _ else _] => destruct b eqn:?
  | |- context [match ?x with _ => _ end] => destruct x eqn:?
  end.

Section Facts.
Context `{Transport}.

Lemma log_tx msg l : tx_step l (log msg l).
Proof. unfold log. destruct log_installed; split; auto. Qed.

Lemma send_frame_tx f l : tx_step l (send_frame f l).2.
Proof. split; auto. Qed.

Lemma add_send_tx f ok l : tx_step l (add_event (EvSend f ok) l).
Proof. split; auto. Qed.

Lemma set_state_dead_tx l : tx_step l (set_state Dead l).
Proof. split; auto. Qed.

Lemma set_pending_tx p l : tx_step l (set_pending p l).
Proof. split; auto. Qed.

Lemma set_sent_tx s l : tx_step l (set_sent_sequence s l).
Proof. split; auto. Qed.

Lemma write_packet_tx payload sq ctrl sid l : tx_step l (write_packet payload sq ctrl sid l).
Proof.
  unfold write_packet. set (l1 := log _ l).
  assert (tx_step l l1) as H1 by apply log_tx. clearbody l1.
  destruct (bytes_eqb _ []).
  { etrans; [exact H1|]. etrans; [apply set_state_dead_tx|apply log_tx]. }
  destruct (send_frame _ _) as [ok l2] eqn:E.
  assert (tx_step l l2) as H2.
  { etrans; [exact H1|]. change l2 with (ok, l2).2. rewrite <- E. apply send_frame_tx. }
  destruct ok; [exact H2|].
  etrans; [exact H2|]. etrans; [apply set_state_dead_tx|apply log_tx].
Qed.

Lemma send_ack_tx l : tx_step l (send_ack l).
Proof. apply write_packet_tx. Qed.

Lemma send_control_tx clock payload l : tx_step l (send_control clock payload l).2.
Proof.
  unfold send_control. destruct (_ || _); [reflexivity|].
  destruct (_ <=? _); [apply log_tx|].
  set (l1 := log _ _).
  assert (tx_step l l1) as H1 by (etrans; [apply set_sent_tx|apply log_tx]).
  clearbody l1. cbv zeta.
  assert (forall l2, tx_step l l2 -> tx_step l (set_pending [] (set_state Dead (log
    (bs "iAP2: control message transport send failed; link is dead") l2)))) as Hf.
  { intros l2 H2. etrans; [exact H2|]. etrans; [apply log_tx|].
    etrans; [apply set_state_dead_tx|apply set_pending_tx]. }
  destruct (bytes_eqb _ []); [by apply Hf|].
  destruct (send_frame _ _) as [ok l2] eqn:E.
  assert (tx_step l l2) as H2.
  { etrans; [exact H1|]. change l2 with (ok, l2).2. rewrite <- E. apply send_frame_tx. }
  destruct ok; [|by apply Hf]. etrans; [exact H2|apply set_pending_tx].
Qed.

Lemma send_marker_tx l : tx_step l (send_marker l).2.
Proof.
  unfold send_marker. destruct (send_frame _ _) as [ok l2] eqn:E.
  assert (tx_step l l2) as H2.
  { change l2 with (ok, l2).2. rewrite <- E. apply send_frame_tx. }
  destruct ok; [done|]. etrans; [exact H2|].
  etrans; [apply set_state_dead_tx|apply log_tx].
Qed.

Lemma send_syn_tx now ack l : tx_step l (send_syn now ack l).
Proof.
  unfold send_syn. destruct (negb _); [done|]. cbv zeta.
  match goal with |- tx_step l (set_next_syn _ (write_packet _ _ _ _ ?x)) => set (l1 := x) end.
  assert (tx_step l l1) as H1 by (unfold l1; destruct (negb _); split; auto).
  etrans; [exact H1|]. etrans; [apply write_packet_tx|]. split; auto.
Qed.

Lemma tick_pending_tx now rest : forall visited l, tx_step l (tick_pending now visited rest l).
Proof.
  assert (forall msg l, tx_step l (set_pending [] (set_state Dead (log msg l)))) as Hf.
  { intros msg l. etrans; [apply log_tx|].
    etrans; [apply set_state_dead_tx|apply set_pending_tx]. }
  induction rest as [|m rest IH]; intros visited l; simpl; [apply set_pending_tx|].
  destruct (_ <? _); [apply IH|]. destruct (_ <=? _); [apply Hf|].
  destruct (transport_send _ _); (etrans; [apply (add_send_tx (pm_frame m))|]).
  - apply IH.
  - apply Hf.
Qed.

Lemma tick_tx now l : tx_step l (tick now l).
Proof.
  unfold tick. destruct (state_eqb _ Dead); [done|].
  match goal with |- tx_step l (let (_, _) := ?x in _) => destruct x as [go l1] eqn:E end.
  assert (tx_step l l1) as H1.
  { destruct (_ && _).
    - pose proof (send_marker_tx l) as Hm. destruct (send_marker l) as [ok l2].
      simpl in Hm. destruct ok; simplify_eq; [|done].
      etrans; [exact Hm|]. split; auto.
    - simplify_eq. reflexivity. }
  destruct (negb go); [done|]. etrans; [exact H1|].
  etrans; [|apply tick_pending_tx]. destruct (state_eqb (state l1) Negotiate && _);
    [apply send_syn_tx|done].
Qed.

End Facts.

(** ** Invariants *)

(** Accepted sequence numbers, newest first, go up by one modulo 256. *)
Fixpoint consecutive (seqs : list Z) : Prop :=
  match seqs with
  | a :: (b :: _) as t => a = u8 (b + 1) /\ consecutive t
  | _ => True
  end.

(** The receive side: words at their width, the buffer within its bound, and
    the order of what has been accepted. *)
Record rx_inv (l : PhoneLink) : Prop := {
  rx_bytes : bytes_ok (receive_buffer l);
  rx_bound : size_of (receive_buffer l) <= kMaxReceiveBuffer;
  rx_lsp : lsp_ok (lsp l);
  rx_max_len : 9 <= max_len (lsp l);
  rx_window : 1 <= max_outgoing (lsp l) <= 128;
  rx_last : is_u8 (last_received_sequence l);
  rx_peer : is_u8 (peer_control_session_id l);
  rx_order : consecutive (accepted (trace l));
  rx_early : state l = Detect \/ state l = Negotiate -> accepted (trace l) = [];
  rx_next : state l = Normal -> forall s t, accepted (trace l) = s :: t ->
              last_sequence_valid l = true /\ last_received_sequence l = s
}.

(** The send side: words at their width and the window of unacknowledged
    messages. *)
Record win_inv (l : PhoneLink) : Prop := {
  win_sent : is_u8 (sent_sequence l);
  win_syn : is_u8 (syn_sequence l);
  win_size : size_of (pending l) <= 128;
  win_limit : state l <> Dead -> size_of (pending l) <= max_outgoing (lsp l);
  win_early : state l = Detect \/ state l = Negotiate -> pending l = []
}.

Definition link_inv (l : PhoneLink) : Prop := rx_inv l /\ win_inv l.

Lemma rx_inv_tx l l' : tx_step l l' -> rx_inv l -> rx_inv l'.
Proof.
  intros [Hb Hr Hv Hl Hp Hs Hd] [].
  assert (accepted (trace l') = accepted (trace l)) as Ha.
  { by rewrite <- accepted_data, Hd, accepted_data. }
  split; rewrite ?Hb, ?Hr, ?Hv, ?Hl, ?Hp, ?Ha; auto.
  - intros Hst. apply rx_early0. destruct Hs as [<-|Hs]; [done|].
    rewrite Hs in Hst. by destruct Hst.
  - intros. apply (rx_next0) with t; [|done]. destruct Hs as [Hs|Hs]; congruence.
Qed.

(** Sending operations that leave the window alone. *)
Definition win_same (l l' : PhoneLink) : Prop :=
  tx_step l l' /\ pending l' = pending l /\ sent_sequence l' = sent_sequence l /\
  syn_sequence l' = syn_sequence l.

Lemma win_inv_same l l' : win_same l l' -> win_inv l -> win_inv l'.
Proof.
  intros ([? ? ? Hl ? Hs ?] & Hp & Hss & Hsy) []. split; rewrite ?Hp, ?Hss, ?Hsy, ?Hl; auto.
  - intros. apply win_limit0. destruct Hs as [Hs|Hs]; congruence.
  - intros Hst. apply win_early0. destruct Hs as [<-|Hs]; [done|].
    rewrite Hs in Hst. by destruct Hst.
Qed.

Lemma win_inv_dead l : win_inv l -> win_inv (set_pending [] (set_state Dead l)).
Proof.
  intros []. split; simpl; auto; try (unfold size_of; simpl; lia); naive_solver.
Qed.

Section Invariants.
Context `{Transport}.

Lemma log_same msg l : win_same l (log msg l).
Proof. split; [apply log_tx|]. unfold log. by destruct log_installed. Qed.

Lemma log_inv msg l : link_inv l -> link_inv (log msg l).
Proof.
  intros [? ?]. split; [by eapply rx_inv_tx, H0; apply log_tx|].
  eapply win_inv_same; [apply log_same|done].
Qed.

Lemma write_packet_same payload sq ctrl sid l :
  win_same l (write_packet payload sq ctrl sid l).
Proof.
  split; [apply write_packet_tx|]. unfold write_packet, send_frame, log.
  destruct log_installed; cbn -[encode_packet packet_summary bs]; link_cases; done.
Qed.

Lemma link_inv_same l l' : win_same l l' -> link_inv l -> link_inv l'.
Proof.
  intros Hs [Hr Hw]. split; [eapply rx_inv_tx; [apply Hs|done]|by eapply win_inv_same].
Qed.

Lemma write_packet_inv payload sq ctrl sid l :
  link_inv l -> link_inv (write_packet payload sq ctrl sid l).
Proof. apply link_inv_same, write_packet_same. Qed.

Lemma send_ack_inv l : link_inv l -> link_inv (send_ack l).
Proof. apply write_packet_inv. Qed.

Lemma send_syn_inv now ack l : link_inv l -> link_inv (send_syn now ack l).
Proof.
  intros [Hr Hw]. split; [eapply rx_inv_tx, Hr; apply send_syn_tx|].
  unfold send_syn. destruct (negb _); [done|]. cbv zeta.
  match goal with |- win_inv (set_next_syn _ (write_packet ?p ?s ?ct ?sid ?x)) =>
    assert (win_inv x) as Hx; [|
      pose proof (win_inv_same _ _ (write_packet_same p s ct sid x) Hx) as []] end.
  { destruct Hw. destruct (negb _); split; simpl; auto with aa2acp. }
  split; auto.
Qed.

Lemma send_control_inv clock payload l :
  link_inv l -> link_inv (send_control clock payload l).2.
Proof.
  intros [Hr Hw]. split; [eapply rx_inv_tx, Hr; apply send_control_tx|].
  unfold send_control. destruct (_ || _) eqn:Hg; [done|].
  destruct (_ <=? _) eqn:Hwin; [apply (win_inv_same l); [apply log_same|done]|].
  apply orb_false_elim in Hg as [[[Hn _]%orb_false_elim _]%orb_false_elim _].
  apply negb_false_iff, state_eqb_eq in Hn. bool_hyps.
  set (l1 := log _ _).
  assert (win_inv l1 /\ pending l1 = pending l /\ lsp l1 = lsp l /\ state l1 = state l)
    as (Hw1 & Hp & Hl & Hst).
  { split_and!; [|unfold l1, log; by destruct log_installed..].
    eapply win_inv_same; [apply log_same|].
    destruct Hw. split; simpl; auto with aa2acp. }
  clearbody l1. cbv zeta.
  destruct (bytes_eqb _ []).
  { apply win_inv_dead, (win_inv_same l1); [apply log_same|done]. }
  unfold send_frame. destruct (transport_send _ _); simpl.
  - destruct Hw1. split; simpl; auto; rewrite ?Hp, ?Hl in *; simpl.
    + rewrite size_app. unfold size_of at 2. simpl.
      destruct Hr. lia.
    + intros _. rewrite size_app. unfold size_of at 2. simpl. lia.
    + rewrite Hst, Hn. by intros [].
  - apply win_inv_dead, (win_inv_same l1); [|done].
    split; [etrans; [apply add_send_tx|apply log_tx]|].
    unfold log. by destruct log_installed.
Qed.

Lemma send_marker_same l : win_same l (send_marker l).2.
Proof.
  split; [apply send_marker_tx|]. unfold send_marker, send_frame, log.
  destruct (transport_send _ _); [done|]. by destruct log_installed.
Qed.

Lemma start_inv now l : link_inv l -> link_inv (start now l).
Proof.
  intros Hl. unfold start. destruct (state_eqb (state l) Detect) eqn:E; [|done].
  apply state_eqb_eq in E. simpl.
  pose proof (link_inv_same _ _ (send_marker_same l) Hl) as Hm.
  assert (forall ok l1, send_marker l = (ok, l1) -> ok = true ->
          accepted (trace l1) = [] /\ pending l1 = []) as Hacc.
  { intros ok l1 Hs ->. unfold send_marker, send_frame in Hs.
    destruct (transport_send _ _); simplify_eq. destruct Hl as [[] []].
    split; simpl; auto. }
  destruct (send_marker l) as [[] l1]; [|done].
  apply log_inv, send_syn_inv. destruct (Hacc true l1) as [H1 H2]; [done..|].
  destruct Hm as [[] []]. simpl in *. split; split; simpl; auto; try congruence.
  rewrite H2. unfold size_of. simpl. lia.
Qed.

Lemma tick_pending_inv now rest : forall visited l,
  rx_inv l -> win_inv (set_pending (visited ++ rest) l) ->
  win_inv (tick_pending now visited rest l).
Proof.
  assert (forall (A : list PendingMessage) msg l, win_inv (set_pending A l) ->
    win_inv (set_pending [] (set_state Dead (log msg l)))) as Hf.
  { intros A msg l []. pose proof (log_same msg l) as (? & Hp & Hs & Hsy).
    split; simpl; rewrite ?Hs, ?Hsy; auto; try (unfold size_of; simpl; lia); naive_solver. }
  assert (forall (A : list PendingMessage) x y l, win_inv (set_pending (A ++ [x] ++ y) l) ->
    forall x', win_inv (set_pending ((A ++ [x']) ++ y) l)) as Hm.
  { intros A x y l [] x'. split; simpl in *; auto.
    - rewrite !size_app in *. unfold size_of in *. simpl in *. lia.
    - intros Hd. specialize (win_limit0 Hd). rewrite !size_app in *.
      unfold size_of in *. simpl in *. lia.
    - intros Hd. specialize (win_early0 Hd). by destruct A. }
  induction rest as [|m rest IH]; intros visited l Hr Hw; simpl.
  - by rewrite app_nil_r in Hw.
  - destruct (_ <? _); [apply IH; [done|by apply (Hm _ m)]|].
    destruct (_ <=? _); [by eapply Hf|].
    destruct (transport_send _ _).
    + apply IH; [eapply rx_inv_tx, Hr; apply add_send_tx|].
      apply (Hm _ m). by destruct Hw; split.
    + eapply (Hf (visited ++ m :: rest)). by destruct Hw; split.
Qed.

Lemma tick_inv now l : link_inv l -> link_inv (tick now l).
Proof.
  intros [Hr Hw]. split; [eapply rx_inv_tx, Hr; apply tick_tx|].
  unfold tick. destruct (state_eqb _ Dead); [done|].
  match goal with |- win_inv (let (_, _) := ?x in _) => destruct x as [go l1] eqn:E end.
  assert (link_inv l1) as H1.
  { destruct (_ && _); [|by simplify_eq].
    pose proof (link_inv_same _ _ (send_marker_same l) (conj Hr Hw)) as Hm.
    destruct (send_marker l) as [[] l2]; simplify_eq; [|done].
    destruct Hm as [[] []]. by split; split. }
  destruct (negb go); [apply H1|].
  match goal with |- win_inv (tick_pending _ _ _ ?y) => set (l2 := y) end.
  assert (link_inv l2) as [Hr2 Hw2].
  { unfold l2. destruct (state_eqb (state l1) _ && _); [by apply send_syn_inv|done]. }
  apply tick_pending_inv; [done|]. simpl. destruct Hw2. by split.
Qed.

End Invariants.

(** ** The receive side *)

Lemma clamp_lsp_ok r :
  lsp_ok r -> 9 <= max_len r ->
  lsp_ok (clamp_lsp r) /\ 9 <= max_len (clamp_lsp r) /\ 1 <= max_outgoing (clamp_lsp r) <= 128.
Proof.
  intros (? & ? & ? & ? & ? & ? & ?) ?. unfold clamp_lsp, lsp_ok, is_u in *. simpl.
  split_and!; try done; lia.
Qed.

Section Receive.
Context `{Transport} {C : Type} (cb : control_callback C) `{!ControlClient cb}.

Lemma control_sends_inv l l' :
  rtc control_send l l' -> link_inv l -> link_inv l'.
Proof.
  induction 1 as [|l1 l2 l3 (clock & p & Hp & ->) _ IH]; [done|].
  intros. by apply IH, send_control_inv.
Qed.

Lemma control_sends_tx l l' : rtc control_send l l' -> tx_step l l'.
Proof.
  induction 1 as [|l1 l2 l3 (clock & p & Hp & ->) _ IH]; [done|].
  etrans; [apply send_control_tx|done].
Qed.

(** Frames handled keep the invariant. *)
Lemma set_pending_filter_inv (P : PendingMessage -> Prop) `{!forall m, Decision (P m)} l :
  link_inv l -> link_inv (set_pending (filter P (pending l)) l).
Proof.
  intros [Hr Hw]. split; [eapply rx_inv_tx, Hr; apply set_pending_tx|].
  assert (size_of (filter P (pending l)) <= size_of (pending l)).
  { unfold size_of. pose proof (length_filter P (pending l)). lia. }
  destruct Hw. split; simpl; auto; try lia.
  - intros Hd. specialize (win_limit0 Hd). lia.
  - intros He. rewrite win_early0 by done. done.
Qed.

Lemma adopt_lsp_inv r sq l :
  link_inv l -> state l <> Normal -> lsp_ok r -> 9 <= max_len r -> is_u8 sq ->
  link_inv (set_received sq
    match List.find (fun s => ses_type s =? 0) (sessions (clamp_lsp r)) with
    | Some s => set_peer_session (ses_id s) (set_lsp (clamp_lsp r) l)
    | None => set_lsp (clamp_lsp r) l
    end).
Proof.
  intros [[] []] Hst Hok Hm Hsq. pose proof (clamp_lsp_ok r Hok Hm) as (Hc & Hcm & Hco).
  assert (Detect = state l \/ Negotiate = state l \/ Dead = state l) as Hs
    by (destruct (state l); auto; congruence).
  assert (state l <> Dead -> size_of (pending l) <= max_outgoing (clamp_lsp r)) as Hlim.
  { intros Hd. rewrite win_early0 by intuition congruence. unfold size_of; simpl; lia. }
  assert (forall s, List.find (fun s => ses_type s =? 0) (sessions (clamp_lsp r)) = Some s ->
          is_u8 (ses_id s)) as Hid.
  { intros s [Hin _]%List.find_some. destruct Hc as (_ & _ & _ & _ & _ & _ & Hss).
    rewrite List.Forall_forall in Hss. by apply (Hss s Hin). }
  destruct (List.find _ _) as [s|].
  - specialize (Hid s eq_refl). split; split; simpl; auto; intros; congruence.
  - split; split; simpl; auto; intros; congruence.
Qed.

Lemma accept_seq last sq :
  is_u8 last -> is_u8 sq -> sq <> last -> u8 (sq - last) <= 1 -> sq = u8 (last + 1).
Proof.
  unfold is_u, wrap. change (2 ^ 8) with 256. intros [? ?] [? ?] Hne Hle.
  assert (sq - last < 0 \/ 0 < sq - last) as [Hn|Hp] by lia.
  - rewrite <- (Z.mod_add _ 1) in Hle by lia. rewrite Z.mod_small in Hle by lia.
    replace (last + 1) with (0 + 1 * 256) by lia. rewrite Z.mod_add by lia. change (0 mod 256) with 0. lia.
  - rewrite Z.mod_small in Hle by lia. rewrite Z.mod_small by lia. lia.
Qed.

Lemma accept_inv sq payload mine l :
  link_inv l -> state l = Normal -> is_u8 sq ->
  (last_sequence_valid l = true ->
     sq <> last_received_sequence l /\ u8 (sq - last_received_sequence l) <= 1) ->
  link_inv (add_event (EvData sq payload mine) (set_received sq l)).
Proof.
  intros [[] []] Hn Hsq Hv. split; split; simpl; auto.
  - destruct (accepted (trace l)) as [|s t] eqn:E; [done|].
    destruct (rx_next0 Hn s t eq_refl) as [Hl <-]. destruct (Hv Hl).
    split; [by apply accept_seq|done].
  - rewrite Hn. by intros [].
  - by intros _ s t [= <- _].
Qed.

Lemma reset_inv b l :
  link_inv l ->
  link_inv (set_buffer [] (set_syn (syn_sequence l) b (set_pending [] (set_state Dead l)))).
Proof.
  intros [[] []]. split; split; simpl; auto; try (unfold size_of; simpl; lia);
    try done; by intros [].
Qed.

Lemma killed_inv l : link_inv l -> link_inv (set_buffer [] (set_state Dead l)).
Proof.
  intros [[] []]. split; split; simpl; auto; try done; by intros [].
Qed.

Lemma established_inv l :
  link_inv l -> state l = Negotiate ->
  link_inv (set_state Normal (set_syn (syn_sequence l) false l)).
Proof.
  intros [[] []] Hn. split; split; simpl; auto; try (by intros []).
  - intros _ s t E. rewrite rx_early0 in E by auto. done.
  - intros _. apply win_limit0. congruence.
Qed.

Lemma handle_data_inv header payload l c :
  link_inv l -> state l = Normal -> is_u8 (sequence header) -> bytes_ok payload ->
  (last_sequence_valid l = true -> sequence header <> last_received_sequence l /\
     u8 (sequence header - last_received_sequence l) <= 1) ->
  let mine := session_id header =? peer_control_session_id l in
  let l := set_received (sequence header) l in
  link_inv (deliver cb (sequence header) payload mine (l, c)).1.
Proof.
  intros Hl Hn Hs Hp Hv mine l'. unfold deliver. destruct cb as [h|] eqn:Ecb; cbv zeta.
  - destruct mine; [|by apply accept_inv].
    eapply control_sends_inv; [by eapply control_client_sends|]. by apply accept_inv.
  - by apply accept_inv.
Qed.

Lemma handle_packet_inv header payload now l c :
  link_inv l -> header_ok header -> bytes_ok payload ->
  link_inv (handle_packet cb header payload now (l, c)).1.
Proof.
  intros Hl Hh Hp. unfold handle_packet. cbv zeta.
  apply (log_inv (packet_summary (bs "rx") header payload)) in Hl.
  set (l1 := log _ l) in *. clearbody l1. clear l. rename l1 into l.
  destruct (negb (Z.land _ kControlRst =? 0)); [by apply log_inv, reset_inv|].
  set (l1 := if _ && negb _ then _ else l).
  assert (link_inv l1) as H1 by (unfold l1; case_match; auto using set_pending_filter_inv).
  clearbody l1. clear l Hl. rename l1 into l.
  destruct (negb (Z.land _ kControlSyn =? 0)).
  { destruct (state_eqb (state l) Normal) eqn:En; [by apply log_inv, send_ack_inv|].
    apply state_eqb_neq in En. destruct (decode_lsp payload) as [r|] eqn:Ed; [|by apply log_inv].
    apply decode_lsp_ok in Ed as [Hr Hm]; [|done]. simpl.
    pose proof (adopt_lsp_inv r (sequence header) l H1 En Hr Hm (proj1 (proj2 (proj2 Hh)))) as Ha.
    apply (send_syn_inv now true) in Ha. simpl in Ha.
    destruct (state_eqb (state (send_syn _ _ _)) _); [by apply log_inv|done]. }
  destruct (negb (Z.land _ kControlAck =? 0) && state_eqb _ _) eqn:Ea.
  { apply andb_prop in Ea as [_ Ea%state_eqb_eq].
    destruct (syn_outstanding l && _); simpl; [by apply log_inv, established_inv|by apply log_inv]. }
  destruct (_ && negb (bytes_eqb payload [])); [|done].
  destruct (negb (state_eqb (state l) Normal)) eqn:En; [by apply log_inv|].
  apply negb_false_iff, state_eqb_eq in En.
  destruct (last_sequence_valid l && negb _ && (128 <? _)) eqn:E1; [by apply send_ack_inv|].
  destruct (last_sequence_valid l && (1 <? _)) eqn:E2; [by apply send_ack_inv, log_inv|].
  destruct (last_sequence_valid l && (sequence header =? _)) eqn:E3;
    [by apply send_ack_inv, log_inv|].
  pose proof (handle_data_inv header payload l c H1 En (proj1 (proj2 (proj2 Hh))) Hp) as Hd.
  cbv zeta in Hd. destruct (deliver _ _ _ _ _) as [l2 c2].
  apply send_ack_inv, Hd. intros Hv. rewrite Hv in E2, E3. simpl in *. bool_hyps. auto.
Qed.

(** Handling a frame leaves the rest of the buffer for the next one, unless
    the frame was a reset. *)
Lemma handle_packet_buffer header payload now l c :
  bytes_ok payload ->
  receive_buffer (handle_packet cb header payload now (l, c)).1 = receive_buffer l \/
  receive_buffer (handle_packet cb header payload now (l, c)).1 = [].
Proof.
  intros Hp. unfold handle_packet. cbv zeta.
  pose proof (tx_buffer _ _ (log_tx (packet_summary (bs "rx") header payload) l)) as Hl.
  set (l1 := log _ l) in *. clearbody l1. rewrite <- Hl. clear l Hl. rename l1 into l.
  destruct (negb (Z.land _ kControlRst =? 0)).
  { right. simpl. by rewrite (tx_buffer _ _ (log_tx _ _)). }
  left. set (l1 := if _ && negb _ then _ else l).
  assert (receive_buffer l = receive_buffer l1) as -> by (unfold l1; by case_match).
  clearbody l1. clear l. rename l1 into l.
  destruct (negb (Z.land _ kControlSyn =? 0)).
  { destruct (state_eqb (state l) Normal).
    { simpl. rewrite (tx_buffer _ _ (log_tx _ _)). apply (tx_buffer _ _ (send_ack_tx _)). }
    destruct (decode_lsp payload) as [r|]; [|apply (tx_buffer _ _ (log_tx _ _))]. simpl.
    set (l1 := set_received _ _). assert (receive_buffer l1 = receive_buffer l) as <-
      by (unfold l1; by case_match).
    pose proof (tx_buffer _ _ (send_syn_tx now true l1)) as <-.
    destruct (state_eqb _ _); [apply (tx_buffer _ _ (log_tx _ _))|done]. }
  destruct (negb (Z.land _ kControlAck =? 0) && state_eqb _ _).
  { destruct (syn_outstanding l && _); simpl; by rewrite (tx_buffer _ _ (log_tx _ _)). }
  destruct (_ && negb (bytes_eqb payload [])); [|done].
  assert (forall m l, receive_buffer (send_ack (log m l)) = receive_buffer l) as Hla.
  { intros m l0. rewrite (tx_buffer _ _ (send_ack_tx _)). apply (tx_buffer _ _ (log_tx _ _)). }
  destruct (negb (state_eqb (state l) Normal)); [apply (tx_buffer _ _ (log_tx _ _))|].
  destruct (last_sequence_valid l && negb _ && (128 <? _)); [apply (tx_buffer _ _ (send_ack_tx _))|].
  destruct (last_sequence_valid l && (1 <? _)); [apply Hla|].
  destruct (last_sequence_valid l && (sequence header =? _)); [apply Hla|].
  destruct (deliver _ _ _ _ _) as [l2 c2] eqn:E. simpl.
  rewrite (tx_buffer _ _ (send_ack_tx _)). unfold deliver in E.
  destruct cb as [h|] eqn:Ecb; [|by simplify_eq].
  destruct (session_id header =? _); [|by simplify_eq].
  match type of E with h _ (?l0, _) = _ =>
    pose proof (control_sends_tx l0 _ (control_client_sends h payload l0 c eq_refl Hp)) as Ht end.
  rewrite E in Ht. apply (tx_buffer _ _ Ht).
Qed.

Definition loop_value {A} (o : Loop A) : A := match o with Continue a | Return a => a end.

Lemma set_buffer_inv b l :
  link_inv l -> bytes_ok b -> size_of b <= size_of (receive_buffer l) -> link_inv (set_buffer b l).
Proof. intros [[] []] Hb Hs. split; split; simpl; auto. lia. Qed.

Lemma set_buffer_drop_inv n l :
  link_inv l -> link_inv (set_buffer (drop n (receive_buffer l)) l).
Proof.
  intros Hl. apply set_buffer_inv; [done|apply Forall_drop, Hl|].
  unfold size_of. rewrite length_drop. lia.
Qed.

Lemma drop_shorter {A} n (l : list A) :
  (0 < n)%nat -> l <> [] -> (length (drop n l) < length l)%nat.
Proof. intros ? ?. rewrite length_drop. destruct l; [done|simpl; lia]. Qed.

Lemma set_buffer_twice a b l : set_buffer a (set_buffer b l) = set_buffer a l.
Proof. done. Qed.

(** One iteration keeps the invariant, and goes round again only with a
    shorter buffer. *)
Lemma process_step_inv now l c :
  link_inv l ->
  link_inv (loop_value (process_step cb now (l, c))).1 /\
  forall w, process_step cb now (l, c) = Continue w ->
    (length (receive_buffer w.1) < length (receive_buffer l))%nat.
Proof.
  intros Hl. unfold process_step. destruct (size_of _ <? 9) eqn:E9; [done|]. bool_hyps.
  assert (receive_buffer l <> []) as Hne.
  { intros E. rewrite E in E9. unfold size_of in E9. simpl in E9. lia. }
  set (start := match find_char _ _ with Some _ => _ | None => _ end). clearbody start.
  destruct (Nat.eqb _ _); [split; [by apply set_buffer_drop_inv|done]|].
  destruct (negb _).
  { split; [by apply set_buffer_drop_inv|]. intros w [= <-]. simpl.
    apply drop_shorter; [lia|done]. }
  set (l1 := set_buffer _ l). assert (link_inv l1) as H1 by by apply set_buffer_drop_inv.
  assert (length (receive_buffer l1) <= length (receive_buffer l))%nat as Hle
    by (simpl; rewrite length_drop; lia).
  change (drop start (receive_buffer l)) with (receive_buffer l1).
  clearbody l1. destruct (size_of (receive_buffer l1) <? 9) eqn:E9'; [done|]. bool_hyps.
  assert (receive_buffer l1 <> []) as Hne'.
  { intros E. rewrite E in E9'. unfold size_of in E9'. simpl in E9'. lia. }
  assert (forall n, (0 < n)%nat ->
    (length (drop n (receive_buffer l1)) < length (receive_buffer l))%nat) as Hdrop.
  { intros n Hn. pose proof (drop_shorter n _ Hn Hne'). lia. }
  destruct (decode_header _) as [header|] eqn:Eh.
  2: { split; [by apply set_buffer_drop_inv|]. intros w [= <-]. simpl. apply Hdrop. lia. }
  apply decode_header_ok in Eh as [Hh Hlen]; [|apply Forall_take, H1].
  destruct (_ <? hdr_length header).
  { split; [|done]. by apply killed_inv, log_inv. }
  destruct (_ <? hdr_length header); [done|].
  assert (0 < Z.to_nat (hdr_length header))%nat as Hpos by lia.
  assert (forall payload, bytes_ok payload ->
    link_inv (loop_value (Continue (handle_packet cb header payload now
      (set_buffer (drop (Z.to_nat (hdr_length header)) (receive_buffer l1)) l1, c)))).1 /\
    (forall w, Continue (handle_packet cb header payload now
      (set_buffer (drop (Z.to_nat (hdr_length header)) (receive_buffer l1)) l1, c)) = Continue w ->
      (length (receive_buffer w.1) < length (receive_buffer l))%nat)) as Hhandle.
  { intros payload Hp. split; [by apply handle_packet_inv; [apply set_buffer_drop_inv|..]|].
    intros w Hw. apply (f_equal loop_value) in Hw. cbn [loop_value] in Hw. rewrite <- Hw.
    destruct (handle_packet_buffer header payload now (set_buffer (drop (Z.to_nat
      (hdr_length header)) (receive_buffer l1)) l1) c Hp) as [E|E]; cbn [fst] in *; rewrite E.
    - by apply Hdrop.
    - simpl. destruct (receive_buffer l); [done|simpl; lia]. }
  destruct (9 <? _); [|by apply Hhandle].
  destruct (negb _).
  { split; [by apply set_buffer_drop_inv|]. intros w [= <-]. by apply Hdrop. }
  apply Hhandle, Forall_take, Forall_subspan, H1.
Qed.

Lemma process_loop_some fuel : forall now l c,
  link_inv l -> (length (receive_buffer l) < fuel)%nat ->
  exists w, process_loop cb fuel now (l, c) = Some w /\ link_inv w.1.
Proof.
  induction fuel as [|fuel IH]; intros now l c Hl Hf; [lia|]. cbn [process_loop].
  destruct (process_step_inv now l c Hl) as [Hi Hs].
  destruct (process_step cb now (l, c)) as [[l' c']|w]; [|exists w; split; [done|exact Hi]].
  apply IH; [done|]. specialize (Hs _ eq_refl). simpl in Hs. lia.
Qed.

Lemma process_packets_inv now l c :
  link_inv l -> link_inv (process_packets cb now (l, c)).1.
Proof.
  intros Hl. unfold process_packets. simpl (_ , _).1.
  destruct (process_loop_some (S (length (receive_buffer l))) now l c Hl) as (w & -> & Hw);
    [lia|done].
Qed.

Lemma set_state_negotiate_inv l :
  link_inv l -> state l = Detect -> link_inv (set_state Negotiate l).
Proof.
  intros [[] []] Hd. split; split; simpl; auto; try done.
  intros _. apply win_limit0. congruence.
Qed.

Lemma receive_inv bytes now l c :
  link_inv l -> bytes_ok bytes -> link_inv (receive cb bytes now (l, c)).1.
Proof.
  intros Hl Hb. unfold receive.
  destruct (_ || _) eqn:Eo; [by apply log_inv, killed_inv|].
  apply orb_false_elim in Eo as [E1 E2]. bool_hyps.
  set (l1 := set_buffer _ l). assert (link_inv l1) as H1.
  { destruct Hl as [[] []]. split; split; simpl; auto.
    - by apply Forall_app.
    - rewrite size_app. lia. }
  assert (state l1 = state l) as Hst by done. clearbody l1. clear l Hl E1 E2 Hst.
  rename l1 into l. destruct (state_eqb (state l) Detect) eqn:Ed; [|by apply process_packets_inv].
  apply state_eqb_eq in Ed. destruct (search kMarker (receive_buffer l)) as [m|]; simpl.
  - apply process_packets_inv, send_syn_inv, log_inv, set_state_negotiate_inv; [|done].
    by apply set_buffer_drop_inv.
  - set (l1 := if _ && log_installed then _ else l).
    assert (link_inv l1) as H2.
    { unfold l1. case_match; [|done]. destruct H1 as [[] []]. by split; split. }
    clearbody l1. destruct (5 <? size_of (receive_buffer l1)); [by apply set_buffer_drop_inv|done].
Qed.

Lemma link_op_inv w w' : link_op cb w w' -> link_inv w.1 -> link_inv w'.1.
Proof.
  destruct 1 as [now l c|bytes now [l c] Hb|now l c|clock p l c Hp|l c c']; simpl; intros.
  - by apply start_inv.
  - by apply receive_inv.
  - by apply tick_inv.
  - by apply send_control_inv.
  - done.
Qed.

Lemma new_link_inv : link_inv new_link.
Proof.
  split; split; try done; try (by intros []); try (vm_compute; split; congruence);
    try (vm_compute; congruence).
  repeat split; try (vm_compute; congruence).
  repeat constructor; vm_compute; congruence.
Qed.

Lemma link_run_inv w w' : link_run cb w w' -> link_inv w.1 -> link_inv w'.1.
Proof. induction 1; eauto using link_op_inv. Qed.

Lemma link_reachable_inv c w : link_reachable cb c w -> link_inv w.1.
Proof. intros Hr. by apply (link_run_inv _ _ Hr), new_link_inv. Qed.
End Receive.

(** ** What the link does to its client *)

Section ClientState.
Context `{Transport} {C : Type} (cb : control_callback C) (P : C -> Prop).
Hypothesis callback_keeps : forall h payload l c,
  cb = Some h -> P c -> P (h payload (l, c)).2.

Lemma handle_packet_client header payload now l c :
  P c -> P (handle_packet cb header payload now (l, c)).2.
Proof.
  intros Hc. unfold handle_packet. cbv zeta. set (l0 := log _ l). clearbody l0.
  destruct (negb (Z.land _ kControlRst =? 0)); [done|].
  set (l1 := if _ && negb _ then _ else l0). clearbody l1.
  destruct (negb (Z.land _ kControlSyn =? 0)).
  { destruct (state_eqb (state l1) Normal); [done|]. by destruct (decode_lsp payload). }
  destruct (negb (Z.land _ kControlAck =? 0) && state_eqb _ _); [done|].
  destruct (_ && negb (bytes_eqb payload [])); [|done].
  destruct (negb (state_eqb (state l1) Normal)); [done|].
  destruct (last_sequence_valid l1 && negb _ && (128 <? _)); [done|].
  destruct (last_sequence_valid l1 && (1 <? _)); [done|].
  destruct (last_sequence_valid l1 && (sequence header =? _)); [done|].
  assert (forall sq pl m w, P w.2 -> P (deliver cb sq pl m w).2) as Hd.
  { intros sq pl m [l2 c2] Hw. unfold deliver. destruct cb as [h|] eqn:Ecb; [|done].
    destruct m; [|done]. by apply callback_keeps. }
  match goal with |- context [deliver cb ?a ?b ?m ?w] =>
    specialize (Hd a b m w Hc); by destruct (deliver cb a b m w) end.
Qed.

Lemma process_step_client now l c : P c -> P (loop_value (process_step cb now (l, c))).2.
Proof.
  intros Hc. unfold process_step. destruct (size_of _ <? 9); [done|].
  set (start := match find_char _ _ with Some _ => _ | None => _ end). clearbody start.
  destruct (Nat.eqb _ _); [done|]. destruct (negb _); [done|].
  destruct (size_of _ <? 9); [done|].
  destruct (decode_header _) as [header|]; [|done].
  destruct (_ <? hdr_length header); [done|].
  destruct (_ <? hdr_length header); [done|].
  destruct (9 <? hdr_length header); [|by apply handle_packet_client].
  destruct (negb _); [done|]. by apply handle_packet_client.
Qed.

Lemma process_loop_client fuel : forall now l c w,
  P c -> process_loop cb fuel now (l, c) = Some w -> P w.2.
Proof.
  induction fuel as [|fuel IH]; intros now l c w Hc; [done|]. cbn [process_loop].
  pose proof (process_step_client now l c Hc) as Hs.
  destruct (process_step cb now (l, c)) as [[l' c']|w']; cbn [loop_value] in Hs.
  - by apply IH.
  - by intros [= <-].
Qed.

Lemma receive_client bytes now l c : P c -> P (receive cb bytes now (l, c)).2.
Proof.
  intros Hc. unfold receive. destruct (_ || _); [done|].
  set (l1 := set_buffer _ l). clearbody l1.
  assert (forall l, P (process_packets cb now (l, c)).2) as Hp.
  { intros l2. unfold process_packets. destruct (process_loop _ _ _ _) eqn:E; [|done].
    by apply process_loop_client in E. }
  destruct (state_eqb (state l1) Detect); [|done]. by destruct (search _ _).
Qed.
End ClientState.
