(* ===== verification/LinkTheorems.v ===== *)
(** * What the phone-side link guarantees

    The theorems about [PhoneLink]: bounds and order on every reachable link,
    termination of the receive loop, what each kind of frame does, the round
    trip of a packet through the receive buffer, and the link's death. *)

From S2P Require Import Prelude Text LinkCodec PhoneLink LinkFacts.
From stdpp Require Import relations.
#[local] Open Scope Z_scope.

(** ** Instances used by the witnesses and examples *)

(** A transport that takes every frame, with logging off. *)
#[export] Instance open_transport : Transport := {| transport_send _ _ := true; log_installed := false |}.

(** A client that records what it is handed. *)
Definition recorder : control_callback (list Bytes) :=
  Some (fun payload '(l, c) => (l, c ++ [payload])).

#[export] Instance recorder_client : ControlClient recorder.
Proof. intros h payload l c [= <-] _. reflexivity. Qed.

(** ** Silence *)

(** The events the outside can see: frames sent and data handed over. *)
Definition is_wire (e : Event) : bool := match e with EvLog _ => false | _ => true end.
Definition wire (tr : list Event) : list Event := List.filter is_wire tr.

(** Two dead links that show the outside the same history. *)
Definition silent (l l' : PhoneLink) : Prop :=
  state l = Dead -> state l' = Dead /\ wire (trace l') = wire (trace l).

#[export] Instance silent_preorder : PreOrder silent.
Proof.
  split; [by intros l Hl|]. intros a b c H1 H2 Ha.
  destruct (H1 Ha) as [Hb Hw]. destruct (H2 Hb) as [Hc Hw']. split; congruence.
Qed.

Section Silence.
Context `{Transport} {C : Type} (cb : control_callback C).

Lemma log_silent msg l : silent l (log msg l).
Proof. intros Hd. unfold log. by destruct log_installed. Qed.

Lemma silent_then_log msg l l' : silent l l' -> silent l (log msg l').
Proof. intros. etrans; [done|apply log_silent]. Qed.

Lemma send_control_silent clock p l : silent l (send_control clock p l).2.
Proof. intros Hd. unfold send_control. by rewrite Hd. Qed.

Lemma killed_silent msg l : silent l (log msg (set_buffer [] (set_state Dead l))).
Proof. by apply silent_then_log. Qed.

Lemma send_syn_dead now ack l : state l = Dead -> send_syn now ack l = l.
Proof. intros Hd. unfold send_syn. by rewrite Hd. Qed.

Lemma handle_packet_silent header payload now l c :
  silent l (handle_packet cb header payload now (l, c)).1.
Proof.
  etrans; [apply (log_silent (packet_summary (bs "rx") header payload))|].
  unfold handle_packet. generalize (log (packet_summary (bs "rx") header payload) l).
  clear l. intros l Hd. cbv zeta.
  destruct (negb (Z.land _ kControlRst =? 0)); [by apply (silent_then_log _ l)|].
  set (l1 := if _ && negb _ then _ else l).
  assert (silent l l1) as H1 by (unfold l1; by case_match).
  destruct (H1 Hd) as [Hd1 Hw]. clearbody l1. rewrite Hd1. cbn [state_eqb].
  rewrite andb_false_r.
  assert (forall m l2, silent l1 l2 -> silent l (log m l2)) as Hlog.
  { intros. etrans; [done|]. by apply silent_then_log. }
  change (state_eqb Dead Normal) with false. cbv iota. simpl negb. cbv iota.
  destruct (negb (Z.land _ kControlSyn =? 0)).
  { destruct (decode_lsp payload) as [r|]; [|by apply (Hlog _ l1)].
    cbv zeta. set (l2 := set_received _ _).
    assert (state l2 = Dead /\ trace l2 = trace l1) as [Hd2 Ht] by (unfold l2; by case_match).
    rewrite send_syn_dead, Hd2 by done. split; [exact Hd2|]. change (wire (trace l2) = wire (trace l)). by rewrite Ht. }
  destruct (_ && negb (bytes_eqb payload [])); [by apply (Hlog _ l1)|done].
Qed.

Lemma process_step_silent now l c :
  silent l (loop_value (process_step cb now (l, c))).1.
Proof.
  unfold process_step. destruct (size_of _ <? 9); [done|].
  set (start := match find_char _ _ with Some _ => _ | None => _ end). clearbody start.
  destruct (Nat.eqb _ _); [done|]. destruct (negb _); [done|].
  destruct (size_of _ <? 9); [done|].
  destruct (decode_header _) as [header|]; [|done].
  destruct (_ <? hdr_length header).
  { intros Hd. cbn. split; [done|]. unfold log. by destruct log_installed. }
  destruct (_ <? hdr_length header); [done|].
  destruct (9 <? hdr_length header).
  - destruct (negb _); [done|]. cbn [loop_value].
    match goal with |- silent _ (handle_packet _ _ _ _ (?x, _)).1 => trans x; [done|] end.
    apply handle_packet_silent.
  - cbn [loop_value].
    match goal with |- silent _ (handle_packet _ _ _ _ (?x, _)).1 => trans x; [done|] end.
    apply handle_packet_silent.
Qed.

Lemma process_loop_silent fuel : forall now l c w,
  process_loop cb fuel now (l, c) = Some w -> silent l w.1.
Proof.
  induction fuel as [|fuel IH]; intros now l c w; [done|]. cbn [process_loop].
  pose proof (process_step_silent now l c) as Hs.
  destruct (process_step cb now (l, c)) as [[l' c']|w']; cbn [loop_value] in Hs.
  - intros Hw. etrans; [exact Hs|]. by apply (IH now l' c').
  - by intros [= <-].
Qed.

Lemma link_op_silent w w' : link_op cb w w' -> silent w.1 w'.1.
Proof.
  destruct 1 as [now l c|bytes now [l c] Hb|now l c|clock p l c Hp|l c c']; simpl; try done.
  - intros Hd. unfold start. rewrite Hd. exact (conj Hd eq_refl).
  - intros Hd. unfold receive.
    destruct (_ || _).
    { by apply (killed_silent _ l). }
    cbn [state set_buffer]. rewrite Hd. change (state_eqb Dead Detect) with false. cbv iota zeta.
    unfold process_packets. destruct (process_loop _ _ _ _) as [w|] eqn:E; [|done].
    by apply process_loop_silent in E; apply E.
  - intros Hd. unfold tick. rewrite Hd. exact (conj Hd eq_refl).
  - apply send_control_silent.
Qed.
End Silence.

(** ** A packet through the receive buffer *)

Section Wire.
Context `{Transport} {C : Type} (cb : control_callback C).

Lemma encode_packet_split l payload s ctrl sid :
  size_of payload <= 65525 ->
  exists h, encode_packet l payload s ctrl sid =
    encode_header h ++ (if bytes_eqb payload [] then [] else payload ++ [checksum payload]) /\
    h = mkHeader (if bytes_eqb payload [] then 9 else size_of payload + 10)
          ctrl s (last_received_sequence l) sid.
Proof.
  intros Hp. eexists. split; [|done]. unfold encode_packet.
  destruct (bytes_eqb payload []) eqn:E; simpl negb; cbv iota; [done|].
  rewrite (proj2 (Z.ltb_ge _ _)) by lia. simpl andb. cbv iota.
  rewrite (wrap_id 16); [done|]. split; [|change (2 ^ 16) with 65536]; pose proof (size_nonneg payload); lia.
Qed.

(** The first nine octets of the buffer are a header: what the loop does. *)
Lemma process_step_header now l c h tail :
  receive_buffer l = encode_header h ++ tail -> header_ok h -> 9 <= hdr_length h ->
  process_step cb now (l, c) =
    let len := Z.to_nat (hdr_length h) in
    let rest := drop (len - 9) tail in
    if max_len (lsp l) <? hdr_length h then
      Return (set_buffer [] (set_state Dead
        (log (bs "iAP2: peer exceeded negotiated maximum frame length") l)), c)
    else if size_of tail <? hdr_length h - 9 then Return (l, c)
    else if 9 <? hdr_length h then
      if has_valid_checksum (take (len - 9) tail) then
        Continue (handle_packet cb h (take (len - 10) tail) now (set_buffer rest l, c))
      else Continue (set_buffer rest l, c)
    else Continue (handle_packet cb h [] now (set_buffer rest l, c)).
Proof.
  intros Hb Hh H9. unfold process_step. rewrite Hb.
  assert (length (encode_header h ++ tail) = 9 + length tail)%nat as Hlen
    by (rewrite length_app, length_encode_header; done).
  assert (size_of (encode_header h ++ tail) = 9 + size_of tail) as Hsz
    by (rewrite size_app; done).
  pose proof (size_nonneg tail).
  rewrite Hsz, (proj2 (Z.ltb_ge _ 9)) by lia.
  replace (length (encode_header h ++ tail) - 1)%nat with (S (7 + length tail)) by lia.
  change (find_char 255 (take (S (7 + length tail)) (encode_header h ++ tail))) with (Some 0%nat).
  cbv iota. change (Nat.eqb 0 _) with false. cbv iota.
  change (byte_at (encode_header h ++ tail) (0 + 1)) with 90. change (negb (90 =? 90)) with false.
  cbv iota. rewrite drop_0, Hsz, (proj2 (Z.ltb_ge _ 9)) by lia.
  rewrite (take_app_length' (encode_header h)), decode_encode_header by done.
  assert (set_buffer (encode_header h ++ tail) l = l) as -> by (rewrite <- Hb; by destruct l).
  destruct (max_len (lsp l) <? hdr_length h); [done|]. cbv zeta.
  destruct (9 + size_of tail <? hdr_length h) eqn:E1;
    destruct (size_of tail <? hdr_length h - 9) eqn:E2; bool_hyps; try lia; [done|].
  assert (drop (Z.to_nat (hdr_length h)) (encode_header h ++ tail)
          = drop (Z.to_nat (hdr_length h) - 9) tail) as ->.
  { rewrite drop_app, drop_ge by (rewrite length_encode_header; lia). done. }
  destruct (9 <? hdr_length h) eqn:E3; [|done]. bool_hyps.
  unfold subspan. rewrite (drop_app_length' (encode_header h)) by done.
  rewrite take_take, Nat.min_l by lia. destruct (has_valid_checksum _); reflexivity.
Qed.

Lemma process_step_packet now l c l' payload s ctrl sid rest :
  receive_buffer l = encode_packet l' payload s ctrl sid ++ rest ->
  bytes_ok payload -> is_u8 s -> is_u8 ctrl -> is_u8 sid ->
  is_u8 (last_received_sequence l') ->
  size_of payload <= 65525 -> size_of payload + 10 <= max_len (lsp l) ->
  process_step cb now (l, c) =
    Continue (handle_packet cb
      (mkHeader (if bytes_eqb payload [] then 9 else size_of payload + 10) ctrl s
                (last_received_sequence l') sid)
      payload now (set_buffer rest l, c)).
Proof.
  intros Hb Hp Hs Hc Hsid Hlr Hsz Hmax.
  destruct (encode_packet_split l' payload s ctrl sid Hsz) as (h & Henc & Hh).
  pose proof (size_nonneg payload). rewrite Henc, <- app_assoc in Hb.
  assert (is_u16 (hdr_length h) /\ 9 <= hdr_length h <= size_of payload + 10) as [Hl16 Hl9].
  { rewrite Hh. unfold is_u. simpl. destruct (bytes_eqb payload []); lia. }
  assert (header_ok h) as Hok by (split; [done|rewrite Hh; simpl; split_and!; assumption]).
  rewrite (process_step_header now l c h _ Hb Hok) by lia.
  rewrite (proj2 (Z.ltb_ge _ _)) by lia. rewrite <- Hh. cbv zeta.
  destruct (bytes_eqb payload []) eqn:E.
  - apply bytes_eqb_eq in E as ->. replace (hdr_length h) with 9 by (by rewrite Hh).
    simpl app. rewrite (proj2 (Z.ltb_ge _ _)) by (pose proof (size_nonneg rest); lia).
    change (9 <? 9) with false. cbv iota. by rewrite drop_0.
  - replace (hdr_length h) with (size_of payload + 10) by (by rewrite Hh).
    assert (payload <> []) as Hne by (intros ->; done).
    assert (0 < size_of payload) by (destruct payload; [done|rewrite size_cons in *;
      pose proof (size_nonneg payload); lia]).
    assert (Z.to_nat (size_of payload + 10) - 10 = length payload)%nat as Hn10
      by (unfold size_of; lia).
    assert (Z.to_nat (size_of payload + 10) - 9 = length (payload ++ [checksum payload]))%nat as Hn9
      by (rewrite length_app; unfold size_of; simpl; lia).
    rewrite Hn9, Hn10, <- app_assoc, !size_app. change (size_of [checksum payload]) with 1.
    rewrite (proj2 (Z.ltb_ge _ _)) by (pose proof (size_nonneg rest); lia).
    rewrite (proj2 (Z.ltb_lt 9 _)) by lia.
    rewrite app_assoc, take_app_length, drop_app_length, checksum_valid.
    by rewrite <- app_assoc, take_app_length.
Qed.
End Wire.

(** ** Cumulative acknowledgement *)

(** Unacknowledged messages numbered [b], [b + 1], ... modulo 256. *)
Fixpoint pending_run (b : Z) (ms : list PendingMessage) : Prop :=
  match ms with
  | [] => True
  | m :: t => pm_sequence m = u8 b /\ pending_run (b + 1) t
  end.

Lemma s8_small x : -128 <= x < 128 -> s8 x = x.
Proof.
  intros Hx. unfold s8. destruct (Z.lt_ge_cases x 0) as [Hn|Hp].
  - rewrite <- (Z.mod_add x 1 256), Z.mod_small by lia.
    rewrite (proj2 (Z.ltb_ge _ _)) by lia. lia.
  - rewrite Z.mod_small by lia. by rewrite (proj2 (Z.ltb_lt _ _)) by lia.
Qed.

Lemma acknowledged_by_offset b x y :
  -128 <= y - x < 128 -> acknowledged_by (u8 (b + x)) (u8 (b + y)) = (x <=? y).
Proof.
  intros Hxy. unfold acknowledged_by, s8, wrap. change (2 ^ 8) with 256.
  rewrite <- Zminus_mod. change (if (b + y - (b + x)) mod 256 <? 128 then
    (b + y - (b + x)) mod 256 else (b + y - (b + x)) mod 256 - 256) with (s8 (b + y - (b + x))).
  rewrite s8_small by lia. destruct (Z.leb_spec 0 (b + y - (b + x))), (Z.leb_spec x y); lia || done.
Qed.

Lemma pending_run_filter ms : forall b j,
  pending_run b ms -> size_of ms - j <= 128 -> j <= 128 ->
  filter (fun m => acknowledged_by (pm_sequence m) (u8 (b + j - 1)) = false) ms
  = drop (Z.to_nat j) ms.
Proof.
  induction ms as [|m ms IH]; intros b j Hr Hl Hj; simpl in Hr; [by rewrite drop_nil|].
  destruct Hr as [Hm Hr]. rewrite size_cons in Hl. pose proof (size_nonneg ms).
  specialize (IH (b + 1) (j - 1) Hr ltac:(lia) ltac:(lia)).
  replace (b + 1 + (j - 1) - 1) with (b + j - 1) in IH by lia.
  assert (acknowledged_by (pm_sequence m) (u8 (b + j - 1)) = (0 <=? j - 1)) as Ha.
  { rewrite Hm. replace b with (b + 0) at 1 by lia. replace (b + j - 1) with (b + (j - 1)) by lia.
    apply acknowledged_by_offset. lia. }
  destruct (Z.leb_spec 0 (j - 1)).
  - rewrite filter_cons_False by congruence. rewrite IH.
    replace (Z.to_nat j) with (S (Z.to_nat (j - 1))) by lia. done.
  - rewrite filter_cons_True by done. rewrite IH.
    replace (Z.to_nat j) with 0%nat by lia. replace (Z.to_nat (j - 1)) with 0%nat by lia. done.
Qed.

(** ** Theorems *)

(** C1. Ordered delivery. On every link reachable from construction by any
    sequence of calls of its owner (start, receive with arbitrary octets, tick,
    send_control), with any transport and any client that only sends, the
    sequence numbers of the data frames accepted so far are consecutive modulo
    256: nothing is skipped, repeated or reordered. *)
Theorem link_delivers_in_order `{Transport} {C : Type} (cb : control_callback C)
    `{!ControlClient cb} (c : C) w :
  link_reachable cb c w -> consecutive (accepted (trace w.1)).
Proof. intros Hr. apply (link_reachable_inv cb c w Hr). Qed.

(** Bounds. A reachable link never buffers more than 128 KiB, never holds
    more unacknowledged messages than the window the peer granted (and at most
    128) while it is alive, and keeps every counter at eight bits. *)
Theorem link_stays_bounded `{Transport} {C : Type} (cb : control_callback C)
    `{!ControlClient cb} (c : C) w :
  link_reachable cb c w ->
  size_of (receive_buffer w.1) <= kMaxReceiveBuffer /\
  (state w.1 <> Dead -> size_of (pending w.1) <= max_outgoing (lsp w.1)) /\
  size_of (pending w.1) <= 128 /\ 1 <= max_outgoing (lsp w.1) <= 128 /\
  is_u8 (sent_sequence w.1) /\ is_u8 (last_received_sequence w.1) /\ lsp_ok (lsp w.1).
Proof. intros Hr. destruct (link_reachable_inv cb c w Hr) as [[] []]. auto 10. Qed.

(** C40. The receive loop terminates. On a reachable link one more iteration
    than there are octets in the buffer is always enough, so [process_packets]
    is the result of the loop however large its fuel. *)
Theorem process_packets_terminates `{Transport} {C : Type} (cb : control_callback C)
    `{!ControlClient cb} (c : C) w now fuel :
  link_reachable cb c w -> (length (receive_buffer w.1) < fuel)%nat ->
  process_loop cb fuel now w = Some (process_packets cb now w).
Proof.
  intros Hr Hf. pose proof (link_reachable_inv cb c w Hr) as Hi. destruct w as [l c']. simpl in *.
  assert (forall f l c, link_inv l -> (length (receive_buffer l) < f)%nat ->
    process_loop cb f now (l, c) = process_loop cb (S f) now (l, c)) as Hstep.
  { clear -ControlClient0. induction f as [|f IH]; intros l c Hl Hf; [lia|].
    destruct (process_step_inv cb now l c Hl) as [Hi Hs]. cbn [process_loop].
    destruct (process_step cb now (l, c)) as [[l2 c2]|]; [|done].
    specialize (Hs _ eq_refl). apply IH; [exact Hi|]. simpl in Hs. lia. }
  assert (exists k, fuel = k + S (length (receive_buffer l)))%nat as [k ->] by (exists (fuel -
    S (length (receive_buffer l)))%nat; lia). clear Hf.
  induction k as [|k IH]; simpl plus.
  - unfold process_packets. simpl fst.
    destruct (process_loop_some cb (S (length (receive_buffer l))) now l c' Hi) as (w & -> & _);
      [lia|done].
  - rewrite <- IH. symmetry. apply Hstep; [done|lia].
Qed.

(** A packet survives the wire. When a live link with an empty buffer
    receives exactly one packet produced by [encode_packet] that respects the
    negotiated maximum length, it handles that packet's header and payload and
    nothing else. *)
Theorem receive_packet `{Transport} {C : Type} (cb : control_callback C) `{!ControlClient cb}
    now l c l' payload s ctrl sid :
  receive_buffer l = [] -> state l <> Detect ->
  bytes_ok payload -> is_u8 s -> is_u8 ctrl -> is_u8 sid -> is_u8 (last_received_sequence l') ->
  size_of payload <= 65525 -> size_of payload + 10 <= max_len (lsp l) ->
  receive cb (encode_packet l' payload s ctrl sid) now (l, c) =
    handle_packet cb
      (mkHeader (if bytes_eqb payload [] then 9 else size_of payload + 10) ctrl s
                (last_received_sequence l') sid) payload now (l, c).
Proof.
  intros Hb Hst Hp Hs Hc Hsid Hlr Hsz Hmax. unfold receive.
  set (packet := encode_packet _ _ _ _ _).
  assert (9 <= size_of packet <= 65535) as Hlen.
  { unfold packet. destruct (encode_packet_split l' payload s ctrl sid Hsz) as (h & -> & _).
    rewrite size_app. unfold size_of in *. rewrite length_encode_header.
    destruct (bytes_eqb payload []); rewrite ?length_app; simpl; lia. }
  rewrite Hb. change (size_of []) with 0. rewrite Z.sub_0_r.
  rewrite (proj2 (Z.ltb_ge _ 0)) by (unfold kMaxReceiveBuffer; lia).
  rewrite (proj2 (Z.ltb_ge _ (size_of packet))) by (unfold kMaxReceiveBuffer; lia).
  cbn [orb app]. cbv zeta. set (l1 := set_buffer packet l).
  assert (state_eqb (state l1) Detect = false) as -> by by apply state_eqb_neq.
  unfold process_packets. change (receive_buffer (l1, c).1) with packet.
  destruct (length packet) as [|n] eqn:En; [unfold size_of in Hlen; lia|].
  cbn [process_loop].
  rewrite (process_step_packet cb now l1 c l' payload s ctrl sid []); auto;
    [|simpl; by rewrite app_nil_r].
  assert (set_buffer [] l1 = l) as -> by (unfold l1; rewrite set_buffer_twice, <- Hb; by destruct l).
  set (h := mkHeader _ _ _ _ _).
  assert (receive_buffer (handle_packet cb h payload now (l, c)).1 = []) as He.
  { by destruct (handle_packet_buffer cb h payload now l c Hp) as [->|]. }
  destruct (handle_packet cb h payload now (l, c)) as [l2 c2]. simpl in He.
  unfold process_step. by rewrite He.
Qed.

Lemma receive_packet_witness :
  receive recorder (encode_packet (set_state Normal new_link) [64; 64; 0; 6; 29; 1] 1 kControlAck 10)
    0 (set_state Normal new_link, []) =
  handle_packet recorder (mkHeader 16 kControlAck 1 0 10) [64; 64; 0; 6; 29; 1] 0
    (set_state Normal new_link, []).
Proof.
  apply (receive_packet recorder 0 (set_state Normal new_link) [] (set_state Normal new_link)
    [64; 64; 0; 6; 29; 1]); try done; try (vm_compute; split; congruence);
    try (vm_compute; congruence).
  repeat (apply Forall_cons_2; [split; vm_compute; congruence|]). apply Forall_nil_2.
Defined.

(** Death is final. Once the link is [Dead], whatever its owner calls, it
    stays dead, sends no frame and hands no data over. *)
Theorem dead_link_is_silent `{Transport} {C : Type} (cb : control_callback C) w w' :
  link_run cb w w' -> state w.1 = Dead ->
  state w'.1 = Dead /\ wire (trace w'.1) = wire (trace w.1).
Proof.
  intros Hr. change (silent w.1 w'.1).
  induction Hr as [w|w1 w2 w3 Hop _ IH]; [by intros ?|].
  etrans; [by eapply link_op_silent|done].
Qed.

(** ** A negotiation, as an accessory drives it *)

(** The frames of an accessory that names its control session 1 and asks for
    an empty window, which the link raises to one message. *)
Definition accessory_frame (ctrl seq ack sid : Z) (payload : Bytes) : Bytes :=
  encode_header (mkHeader (if bytes_eqb payload [] then 9 else size_of payload + 10) ctrl seq ack sid)
  ++ (if bytes_eqb payload [] then [] else payload ++ [checksum payload]).

Definition accessory_lsp : Lsp :=
  mkLsp 0 65535 0 0 0 0 [mkSession 1 0 2; mkSession 11 2 1; mkSession 12 1 2].

Definition negotiated : PhoneLink * list Bytes :=
  let w := (start 0 new_link, []) in
  let w := receive recorder kMarker 0 w in
  let w := receive recorder (accessory_frame kControlSyn 3 100 0 (encode_lsp accessory_lsp)) 0 w in
  receive recorder (accessory_frame kControlAck 4 100 0 []) 0 w.

(** A request sent, the reply delivered, and a later frame held back. *)
Definition conversation : PhoneLink * list Bytes :=
  let '(l, c) := negotiated in
  let w := ((send_control 0 [64; 64; 0; 6; 29; 0] l).2, c) in
  let w := receive recorder (accessory_frame kControlAck 4 101 1 [64; 64; 0; 6; 29; 1]) 0 w in
  receive recorder (accessory_frame kControlAck 6 101 1 [66]) 0 w.

Lemma bytes_ok_dec l : forallb (fun b => (0 <=? b) && (b <? 256)) l = true -> bytes_ok l.
Proof.
  rewrite forallb_forall, List.Forall_forall. intros Hb b Hin. specialize (Hb b Hin).
  bool_hyps. by split.
Qed.

Lemma reach_op `{Transport} {C} (cb : control_callback C) c w w' :
  link_reachable cb c w -> link_op cb w w' -> link_reachable cb c w'.
Proof. intros Hr Ho. exact (rtc_r _ _ _ Hr Ho). Qed.

Lemma reach_receive `{Transport} {C} (cb : control_callback C) c w bytes now :
  link_reachable cb c w -> forallb (fun b => (0 <=? b) && (b <? 256)) bytes = true ->
  link_reachable cb c (receive cb bytes now w).
Proof. intros Hr Hb. eapply reach_op; [exact Hr|]. by apply op_receive, bytes_ok_dec. Qed.

Lemma negotiated_reachable : link_reachable recorder [] negotiated.
Proof.
  unfold negotiated. cbv zeta. do 3 (apply reach_receive; [|vm_compute; reflexivity]).
  eapply reach_op; [apply rtc_refl|apply op_start].
Qed.

Lemma conversation_reachable : link_reachable recorder [] conversation.
Proof.
  pose proof negotiated_reachable as Hr. unfold conversation. destruct negotiated as [l c].
  cbv zeta. do 2 (apply reach_receive; [|vm_compute; reflexivity]).
  eapply reach_op; [exact Hr|]. apply op_send, bytes_ok_dec. reflexivity.
Qed.

Example negotiation_establishes :
  (state negotiated.1, max_outgoing (lsp negotiated.1), peer_control_session_id negotiated.1,
   last_received_sequence negotiated.1) = (Normal, 1, 1, 3).
Proof. vm_compute. reflexivity. Qed.

Example conversation_delivers :
  (conversation.2, accepted (trace conversation.1), last_received_sequence conversation.1,
   pending conversation.1) = ([[64; 64; 0; 6; 29; 1]], [4], 4, []).
Proof. vm_compute. reflexivity. Qed.

Lemma link_delivers_in_order_witness :
  link_reachable recorder [] conversation /\ consecutive (accepted (trace conversation.1)).
Proof.
  split; [exact conversation_reachable|].
  exact (link_delivers_in_order recorder [] conversation conversation_reachable).
Defined.

Lemma link_stays_bounded_witness :
  link_reachable recorder [] conversation /\
  size_of (receive_buffer conversation.1) <= kMaxReceiveBuffer /\
  size_of (pending conversation.1) <= 128.
Proof.
  pose proof (link_stays_bounded recorder [] conversation conversation_reachable) as Hb.
  split; [exact conversation_reachable|]. split; apply Hb.
Defined.

Lemma process_packets_terminates_witness :
  link_reachable recorder [] negotiated /\
  process_loop recorder 100 0 negotiated = Some (process_packets recorder 0 negotiated).
Proof.
  split; [exact negotiated_reachable|].
  apply (process_packets_terminates recorder [] negotiated 0 100 negotiated_reachable).
  apply Nat.ltb_lt. vm_compute. reflexivity.
Defined.

(** A reset kills the link; the data frame after it is not delivered. *)
Definition reset : PhoneLink * list Bytes :=
  receive recorder (accessory_frame kControlRst 5 100 0 []) 0 conversation.

Lemma dead_link_is_silent_witness :
  let w := receive recorder (accessory_frame kControlAck 5 100 1 [66]) 0 reset in
  state reset.1 = Dead /\ state w.1 = Dead /\ wire (trace w.1) = wire (trace reset.1).
Proof.
  assert (state reset.1 = Dead) as Hd by (vm_compute; reflexivity).
  cbv zeta. split; [exact Hd|].
  apply (dead_link_is_silent recorder reset); [|exact Hd].
  apply rtc_once, op_receive, bytes_ok_dec. reflexivity.
Defined.

(** ** What a frame does *)

(** Only the peer's acknowledgement of our own outstanding SYN establishes
    the link: if handling a frame makes a link [Normal] that was not, the link
    was negotiating with its SYN unacknowledged, and the frame carries ACK, no
    SYN, no RST and an acknowledgement that covers the SYN. *)
Theorem normal_needs_ack_of_syn `{Transport} {C : Type} (cb : control_callback C)
    header payload now l c :
  state l <> Normal -> state (handle_packet cb header payload now (l, c)).1 = Normal ->
  state l = Negotiate /\ syn_outstanding l = true /\
  acknowledged_by (syn_sequence l) (acknowledgement header) = true /\
  Z.land (control header) kControlAck <> 0 /\
  Z.land (control header) kControlSyn = 0 /\ Z.land (control header) kControlRst = 0.
Proof.
  intros Hst. unfold handle_packet. cbv zeta.
  pose proof (log_same (packet_summary (bs "rx") header payload) l) as _.
  assert (forall m l, state (log m l) = state l) as Hlog
    by (intros; unfold log; by destruct log_installed).
  assert (syn_outstanding (log (packet_summary (bs "rx") header payload) l) = syn_outstanding l /\
          syn_sequence (log (packet_summary (bs "rx") header payload) l) = syn_sequence l)
    as [<- <-] by (unfold log; by destruct log_installed).
  rewrite <- (Hlog (packet_summary (bs "rx") header payload) l) in Hst |- *.
  set (l1 := log _ l) in *. clearbody l1. clear l. rename l1 into l.
  destruct (negb (Z.land _ kControlRst =? 0)) eqn:Er; [simpl; by rewrite Hlog|].
  set (l1 := if _ && negb _ then _ else l).
  assert (state l1 = state l /\ syn_outstanding l1 = syn_outstanding l /\
          syn_sequence l1 = syn_sequence l) as (H1 & H2 & H3) by (unfold l1; by case_match).
  clearbody l1. rewrite <- H1, <- H2, <- H3 in *. clear l H1 H2 H3. rename l1 into l.
  destruct (negb (Z.land _ kControlSyn =? 0)) eqn:Es.
  { destruct (state_eqb (state l) Normal) eqn:En; [by apply state_eqb_eq in En|].
    destruct (decode_lsp payload) as [r|]; [|simpl; by rewrite Hlog].
    set (l1 := set_received _ _). assert (state l1 = state l) as H1 by (unfold l1; by case_match).
    pose proof (tx_state _ _ (send_syn_tx now true l1)) as Hs. clearbody l1.
    destruct (state_eqb (state (send_syn _ _ _)) _); simpl; rewrite ?Hlog;
      destruct Hs as [Hs|Hs]; rewrite Hs; congruence. }
  destruct (negb (Z.land _ kControlAck =? 0) && state_eqb _ _) eqn:Ea.
  { apply andb_prop in Ea as [Ha En%state_eqb_eq].
    destruct (syn_outstanding l && _) eqn:Eo; simpl; rewrite Hlog; [|done]. bool_hyps. done. }
  destruct (_ && negb (bytes_eqb payload [])); [|done].
  rewrite (proj2 (state_eqb_neq _ _) Hst). simpl. by rewrite Hlog.
Qed.

Lemma normal_needs_ack_of_syn_witness :
  let l := (receive recorder (accessory_frame kControlSyn 3 100 0 (encode_lsp accessory_lsp)) 0
             (start 0 new_link, [])).1 in
  let h := mkHeader 9 kControlAck 4 100 0 in
  state l <> Normal /\ state (handle_packet recorder h [] 0 (l, [])).1 = Normal /\
  syn_outstanding l = true.
Proof.
  cbv zeta. split_and!; [vm_compute; congruence|vm_compute; reflexivity|].
  apply (normal_needs_ack_of_syn recorder (mkHeader 9 kControlAck 4 100 0) [] 0 _ []);
    vm_compute; congruence.
Defined.

(** A data frame on an established link. The frame that follows the last
    one accepted is handed over exactly once, recorded as received and then
    acknowledged; any other sequence number (a repetition, a gap, an old frame)
    changes neither the receive state nor the client and is answered by an
    acknowledgement of the last frame accepted. *)
Theorem data_frame_outcome `{Transport} {C : Type} (cb : control_callback C)
    header payload now l c :
  state l = Normal -> last_sequence_valid l = true -> payload <> [] ->
  is_u8 (sequence header) -> is_u8 (last_received_sequence l) ->
  control header = 0 \/ control header = kControlAck ->
  exists l1, tx_step l l1 /\ state l1 = Normal /\
    handle_packet cb header payload now (l, c) =
      if u8 (sequence header - last_received_sequence l) =? 1 then
        let '(l2, c2) := deliver cb (sequence header) payload
                           (session_id header =? peer_control_session_id l)
                           (set_received (sequence header) l1, c) in
        (send_ack l2, c2)
      else (send_ack l1, c).
Proof.
  intros Hn Hv Hp Hs Hl Hc. unfold handle_packet. cbv zeta.
  pose proof (log_tx (packet_summary (bs "rx") header payload) l) as Hx.
  assert (forall m l, state (log m l) = state l) as Hlog
    by (intros; unfold log; by destruct log_installed).
  pose proof (Hlog (packet_summary (bs "rx") header payload) l) as Hn1.
  set (l1 := log _ l) in *. clearbody l1.
  assert (negb (Z.land (control header) kControlRst =? 0) = false) as ->
    by by destruct Hc as [-> | ->].
  set (l2 := if _ && negb _ then _ else l1).
  assert (tx_step l l2 /\ state l2 = Normal) as [Hx2 Hn2].
  { split; [etrans; [exact Hx|]|]; unfold l2; case_match; try done; try (by apply set_pending_tx);
      simpl; congruence. }
  clearbody l2. clear l1 Hx Hn1.
  assert (negb (Z.land (control header) kControlSyn =? 0) = false) as ->
    by by destruct Hc as [-> | ->].
  rewrite Hn2. change (state_eqb Normal Negotiate) with false. rewrite andb_false_r.
  assert ((Z.land (control header) (Z.lnot kControlAck) =? 0) = true) as ->
    by by destruct Hc as [-> | ->].
  assert (bytes_eqb payload [] = false) as -> by (apply not_true_iff_false; by rewrite bytes_eqb_eq).
  change (negb (state_eqb Normal Normal)) with false. cbn [negb andb]. cbv iota.
  change (peer_control_session_id (set_received (sequence header) l2))
    with (peer_control_session_id l2).
  rewrite (tx_valid _ _ Hx2), Hv, (tx_received _ _ Hx2), (tx_peer _ _ Hx2). cbn [andb].
  set (d := u8 (sequence header - last_received_sequence l)).
  assert (sequence header = last_received_sequence l -> d = 0) as Hd0.
  { intros E. unfold d. by rewrite E, Z.sub_diag. }
  assert (d = 0 -> sequence header = last_received_sequence l) as Hd0'.
  { unfold d, is_u, wrap in *. change (2 ^ 8) with 256 in *. intros E.
    apply Z.mod_divide in E as [k E]; lia. }
  assert (0 <= d) as Hdpos by (apply u8_ok). clearbody d.
  assert (forall m, tx_step l (log m l2)) as Hxl by (intros; etrans; [done|apply log_tx]).
  destruct (sequence header =? last_received_sequence l) eqn:Eq; bool_hyps; cbn [negb andb].
  - rewrite (Hd0 Eq). change (1 <? 0) with false. change (0 =? 1) with false. cbv iota.
    eexists. split; [apply Hxl|]. split; [by rewrite Hlog|]. done.
  - destruct (128 <? d) eqn:E128; bool_hyps.
    { rewrite (proj2 (Z.eqb_neq d 1)) by lia. by exists l2. }
    destruct (1 <? d) eqn:E1; bool_hyps.
    { rewrite (proj2 (Z.eqb_neq d 1)) by lia. eexists. split; [apply Hxl|].
      split; [by rewrite Hlog|]. done. }
    assert (d = 1) as -> by (destruct (Z.eq_dec d 0); [tauto|lia]).
    change (1 =? 1) with true. cbv iota. by exists l2.
Qed.

Lemma data_frame_outcome_witness :
  let l := negotiated.1 in let h := mkHeader 16 kControlAck 4 100 1 in
  (exists l1, tx_step l l1 /\ state l1 = Normal /\
    handle_packet recorder h [64; 64; 0; 6; 29; 1] 0 (l, []) =
      let '(l2, c2) := deliver recorder 4 [64; 64; 0; 6; 29; 1] true (set_received 4 l1, []) in
      (send_ack l2, c2)) /\
  (handle_packet recorder h [64; 64; 0; 6; 29; 1] 0 (l, [])).2 = [[64; 64; 0; 6; 29; 1]].
Proof.
  cbv zeta. split; [|vm_compute; reflexivity].
  apply (data_frame_outcome recorder (mkHeader 16 kControlAck 4 100 1) [64; 64; 0; 6; 29; 1] 0
    negotiated.1 []); try (vm_compute; congruence); try (vm_compute; split; congruence).
  by right.
Defined.

(** Cumulative acknowledgement. With at most 128 messages outstanding,
    numbered consecutively from [b] modulo 256, a bare acknowledgement of the
    [j]-th of them (or of the one before the first, for [j = 0]) drops exactly
    the first [j], and does nothing else but log. *)
Theorem ack_drops_prefix `{Transport} {C : Type} (cb : control_callback C) header now l c b j :
  state l = Normal -> control header = kControlAck ->
  pending_run b (pending l) -> size_of (pending l) <= 128 -> 0 <= j <= size_of (pending l) ->
  acknowledgement header = u8 (b + j - 1) ->
  handle_packet cb header [] now (l, c) =
    (set_pending (drop (Z.to_nat j) (pending l)) (log (packet_summary (bs "rx") header []) l), c).
Proof.
  intros Hn Hc Hr Hsz Hj Ha. unfold handle_packet. cbv zeta. rewrite Hc.
  assert (state (log (packet_summary (bs "rx") header []) l) = state l /\
          pending (log (packet_summary (bs "rx") header []) l) = pending l) as [Hs Hp]
    by (unfold log; by destruct log_installed).
  set (l1 := log _ l) in *. clearbody l1. cbn [kControlAck kControlRst kControlSyn Z.land Pos.land].
  change (negb (_ =? 0)) with false at 1. cbv iota. simpl andb.
  assert (state (if negb (size_of (pending l1) =? 0) then
    set_pending (filter (fun m => acknowledged_by (pm_sequence m) (acknowledgement header) = false)
      (pending l1)) l1 else l1) = Normal) as -> by (case_match; simpl; congruence).
  simpl. rewrite Hp, Ha. f_equal.
  destruct (size_of (pending l) =? 0) eqn:E; bool_hyps; simpl.
  - apply size_nil_iff in E. rewrite E, drop_nil, <- E, <- Hp. by destruct l1.
  - by rewrite (pending_run_filter _ _ _ Hr) by lia.
Qed.

Lemma ack_drops_prefix_witness :
  let m n := mkPending n [] 0 0 in
  let l := set_pending [m 254; m 255; m 0; m 1] (set_state Normal new_link) in
  let h := mkHeader 9 kControlAck 1 0 0 in
  handle_packet recorder h [] 0 (l, []) = (set_pending [m 1] l, []).
Proof.
  apply (ack_drops_prefix recorder (mkHeader 9 kControlAck 1 0 0) 0
    (set_pending (map (fun n => mkPending n [] 0 0) [254; 255; 0; 1]) (set_state Normal new_link))
    [] 254 3); try reflexivity.
  - repeat split; reflexivity.
  - vm_compute. congruence.
  - split; vm_compute; congruence.
Defined.
