(* ===== verification/Csm.v ===== *)
(** * CSM messages of the iAP2 control session

    [src/include/aa2acp/iap2/csm.hpp] and [src/src/iap2/csm.cpp]: the message
    and parameter encodings, the incremental decoder and the software-MFi
    signature check.  OpenSSL is the class [OpenSSL]; the diagnostics written at
    debug level are left out. *)

From S2P Require Import Prelude Text.
#[local] Open Scope Z_scope.

(** ** Data *)

(* src/include/aa2acp/iap2/csm.hpp:11-11 kStart *)
Definition kStart : Z := 16448.
(* src/include/aa2acp/iap2/csm.hpp:12-12 kStartIdentification *)
Definition kStartIdentification : Z := 7424.
(* src/include/aa2acp/iap2/csm.hpp:13-13 kIdentificationInformation *)
Definition kIdentificationInformation : Z := 7425.
(* src/include/aa2acp/iap2/csm.hpp:14-14 kIdentificationAccepted *)
Definition kIdentificationAccepted : Z := 7426.
(* src/include/aa2acp/iap2/csm.hpp:15-15 kIdentificationRejected *)
Definition kIdentificationRejected : Z := 7427.
(* src/include/aa2acp/iap2/csm.hpp:16-16 kRequestAuthenticationCertificate *)
Definition kRequestAuthenticationCertificate : Z := 43520.
(* src/include/aa2acp/iap2/csm.hpp:17-17 kAuthenticationCertificate *)
Definition kAuthenticationCertificate : Z := 43521.
(* src/include/aa2acp/iap2/csm.hpp:18-18 kRequestAuthenticationChallengeResponse *)
Definition kRequestAuthenticationChallengeResponse : Z := 43522.
(* src/include/aa2acp/iap2/csm.hpp:19-19 kAuthenticationResponse *)
Definition kAuthenticationResponse : Z := 43523.
(* src/include/aa2acp/iap2/csm.hpp:20-20 kAuthenticationFailed *)
Definition kAuthenticationFailed : Z := 43524.
(* src/include/aa2acp/iap2/csm.hpp:21-21 kAuthenticationSucceeded *)
Definition kAuthenticationSucceeded : Z := 43525.

(* src/include/aa2acp/iap2/csm.hpp:23-26 Message *)
Record Message := mkMessage { msg_id : Z; msg_payload : Bytes }.

(** The decoder is its buffer. *)
(* src/include/aa2acp/iap2/csm.hpp:42-49 Decoder *)
Record Decoder := mkDecoder { csm_buffer : Bytes }.

Definition new_decoder : Decoder := mkDecoder [].

(** ** Encoding *)

(* src/src/iap2/csm.cpp:30-43 encode *)
Definition encode (id : Z) (payload : Bytes) : Bytes :=
  if 65535 - 6 <? size_of payload then []
  else u16_field kStart ++ u16_field (u16 (6 + size_of payload)) ++ u16_field id ++ payload.

(* src/src/iap2/csm.cpp:45-57 encode_bytes_parameter *)
Definition encode_bytes_parameter (id parameter_id : Z) (value : Bytes) : Bytes :=
  if 65535 - 10 <? size_of value then []
  else encode id (u16_field (u16 (4 + size_of value)) ++ u16_field parameter_id ++ value).

(** The scan of the parameter list; [fuel] is the size of the payload, every
    round consuming at least four octets. *)
Fixpoint first_bytes_parameter_from (fuel : nat) (payload : Bytes) (parameter_id : Z)
    (offset : nat) : option Bytes :=
  match fuel with
  | O => None
  | S fuel =>
      if (length payload <? offset + 4)%nat then None
      else
        let len := Z.to_nat (read_u16 payload offset) in
        let id := read_u16 payload (offset + 2) in
        if (len <? 4)%nat || (length payload <? offset + len)%nat then None
        else if id =? parameter_id then Some (subspan (offset + 4) (len - 4) payload)
        else first_bytes_parameter_from fuel payload parameter_id (offset + len)
  end.

(* src/src/iap2/csm.cpp:59-77 first_bytes_parameter *)
Definition first_bytes_parameter (payload : Bytes) (parameter_id : Z) : option Bytes :=
  first_bytes_parameter_from (S (length payload)) payload parameter_id 0.

(** ** The decoder *)

Definition kMaximumBufferSize : Z := 128 * 1024.

(* src/src/iap2/csm.cpp:174-182 Decoder::push *)
Definition push (bytes : Bytes) (d : Decoder) : Decoder :=
  if kMaximumBufferSize - Z.min (size_of (csm_buffer d)) kMaximumBufferSize <? size_of bytes
  then mkDecoder []
  else mkDecoder (csm_buffer d ++ bytes).

(** One pass of the outer loop: the decoder it leaves, and whether it returns
    (with which message) or goes round again. *)
Inductive Pass := Again (d : Decoder) | Leave (r : option Message) (d : Decoder).

(* src/src/iap2/csm.cpp:185-214 Decoder::next (loop body) *)
Definition next_pass (d : Decoder) : Pass :=
  let buf := csm_buffer d in
  if size_of buf <? 6 then Leave None d
  else
    let start := match search [64; 64] buf with
                 | Some n => n
                 | None => (length buf - 1)%nat
                 end in
    if Nat.eqb (start + 1) (length buf) then Leave None (mkDecoder (drop start buf))
    else if negb (Nat.eqb start 0) then Again (mkDecoder (drop start buf))
    else
      let len := Z.to_nat (read_u16 buf 2) in
      if (len <? 6)%nat then Again (mkDecoder (drop 1 buf))
      else if (length buf <? len)%nat then Leave None d
      else Leave (Some (mkMessage (read_u16 buf 4) (subspan 6 (len - 6) buf)))
             (mkDecoder (drop len buf)).

Fixpoint next_loop (fuel : nat) (d : Decoder) : option (option Message * Decoder) :=
  match fuel with
  | O => None
  | S fuel => match next_pass d with
              | Again d => next_loop fuel d
              | Leave r d => Some (r, d)
              end
  end.

(** [next_loop_total] shows that the fuel is enough. *)
(* src/src/iap2/csm.cpp:184-216 Decoder::next *)
Definition next (d : Decoder) : option Message * Decoder :=
  default (None, d) (next_loop (S (length (csm_buffer d))) d).

(** [while (const auto message = decoder.next())], as every owner of a decoder
    runs it: the messages in order. *)
Fixpoint drain (fuel : nat) (d : Decoder) : list Message * Decoder :=
  match fuel with
  | O => ([], d)
  | S fuel => match next d with
              | (Some m, d) => let (ms, d) := drain fuel d in (m :: ms, d)
              | (None, d) => ([], d)
              end
  end.

(** ** The software-MFi signature check *)

(** What the check asks of OpenSSL: the DER parser of a PKCS#7 bundle, the
    certificates and signers of a signed bundle, the key of a certificate and
    PKCS#1 v1.5 recovery of a signature. *)
Class OpenSSL := {
  PKCS7 : Type;
  X509 : Type;
  EVP_PKEY : Type;
  d2i_PKCS7 : Bytes -> option PKCS7;
  PKCS7_type_is_signed : PKCS7 -> bool;
  PKCS7_certificates : PKCS7 -> list X509;
  PKCS7_get0_signers : PKCS7 -> list X509;
  X509_get_pubkey : X509 -> option EVP_PKEY;
  EVP_PKEY_base_id : EVP_PKEY -> Z;
  EVP_PKEY_verify_recover : EVP_PKEY -> Bytes -> option Bytes
}.

Definition EVP_PKEY_RSA : Z := 6.

(* src/src/iap2/csm.cpp:156-158 kSha1DigestInfoPrefix *)
Definition kSha1DigestInfoPrefix : Bytes :=
  [48; 33; 48; 9; 6; 5; 43; 14; 3; 2; 26; 5; 0; 4; 20].

(* src/src/iap2/csm.cpp:79-172 verify_mfi_v2_signature *)
Definition verify_mfi_v2_signature `{OpenSSL} (challenge signature certificate_der : Bytes) : bool :=
  match d2i_PKCS7 certificate_der with
  | None => false
  | Some bundle =>
      let certificates := if PKCS7_type_is_signed bundle then PKCS7_certificates bundle else [] in
      let signers := if PKCS7_type_is_signed bundle then PKCS7_get0_signers bundle else [] in
      let signer := match signers, certificates with
                    | s :: _, _ => Some s
                    | [], c :: _ => Some c
                    | [], [] => None
                    end in
      match signer with
      | None => false
      | Some signer =>
          match X509_get_pubkey signer with
          | None => false
          | Some key =>
              if negb (EVP_PKEY_base_id key =? EVP_PKEY_RSA) then false
              else match EVP_PKEY_verify_recover key signature with
                   | None => false
                   | Some recovered =>
                       let raw_challenge :=
                         (size_of recovered =? size_of challenge) && bytes_eqb challenge recovered in
                       let sha1_digest_info :=
                         (size_of recovered =? size_of kSha1DigestInfoPrefix + size_of challenge)
                         && bytes_eqb kSha1DigestInfoPrefix (take 15 recovered)
                         && bytes_eqb challenge (drop 15 recovered) in
                       raw_challenge || sha1_digest_info
                   end
          end
      end
  end.

(** ** Lemmas *)

Lemma next_pass_shrinks d d' :
  next_pass d = Again d' -> (length (csm_buffer d') < length (csm_buffer d))%nat.
Proof.
  unfold next_pass. intros Hp. repeat step_in Hp.
  all: rewrite length_drop; unfold size_of in *.
  all: repeat match goal with H : Nat.eqb _ _ = false |- _ => apply Nat.eqb_neq in H end; lia.
Qed.

Lemma next_loop_total fuel d :
  (length (csm_buffer d) < fuel)%nat -> exists r, next_loop fuel d = Some r.
Proof.
  revert d. induction fuel as [|fuel IH]; intros d Hf; [lia|]. cbn [next_loop].
  destruct (next_pass d) as [d'|r d'] eqn:E; [|eauto].
  apply next_pass_shrinks in E. apply IH. lia.
Qed.

Lemma length_encode id p :
  size_of p <= 65529 -> length (encode id p) = (6 + length p)%nat.
Proof. intros. unfold encode. rewrite (proj2 (Z.ltb_ge _ _)) by lia. done. Qed.

Lemma encode_ok id p : bytes_ok p -> bytes_ok (encode id p).
Proof. intros. unfold encode. case_match; bytes_solve. Qed.

(** A message at the front of the buffer is returned and removed. *)
Lemma next_message id p rest :
  is_u16 id -> size_of p <= 65529 ->
  next (mkDecoder (encode id p ++ rest)) = (Some (mkMessage id p), mkDecoder rest).
Proof.
  intros Hid Hp. unfold next. cbn [csm_buffer next_loop].
  set (buf := encode id p ++ rest).
  assert (buf = u16_field kStart ++ u16_field (u16 (6 + size_of p)) ++ u16_field id ++ p ++ rest)
    as Hb by (unfold buf, encode; rewrite (proj2 (Z.ltb_ge _ _)) by lia; by rewrite <- !app_assoc).
  pose proof (size_nonneg p) as H0. pose proof (size_nonneg rest) as H0'.
  assert (length buf = 6 + length p + length rest)%nat as Hlen.
  { unfold buf. rewrite length_app, length_encode; lia. }
  unfold next_pass. cbn [csm_buffer].
  rewrite (proj2 (Z.ltb_ge (size_of buf) 6)) by (unfold size_of; lia).
  assert (search [64; 64] buf = Some 0%nat) as -> by (by rewrite Hb).
  rewrite (proj2 (Nat.eqb_neq (0 + 1) _)) by lia. cbn [Nat.eqb negb].
  assert (Z.to_nat (read_u16 buf 2) = 6 + length p)%nat as ->.
  { rewrite Hb, read_u16_mid by (done || apply wrap_is_u; lia). rewrite wrap_id by (unfold is_u; lia). unfold size_of. lia. }
  rewrite (proj2 (Nat.ltb_ge _ 6)), (proj2 (Nat.ltb_ge (length buf) _)) by lia.
  cbn [default from_option]; unfold Datatypes.id; f_equal; [do 2 f_equal|f_equal].
  - rewrite Hb, (app_assoc (u16_field kStart)). by apply read_u16_mid.
  - rewrite Hb. rewrite (app_assoc (u16_field kStart)), (app_assoc (_ ++ _)).
    apply subspan_app'; [done|lia].
  - rewrite Hb. rewrite (app_assoc (u16_field kStart)), (app_assoc (_ ++ _)), (app_assoc _ p).
    apply drop_app_length'. rewrite length_app. done.
Qed.

(** A message that has not arrived completely is left in the buffer. *)
Lemma next_partial id p b t :
  is_u16 id -> size_of p <= 65529 -> b ++ t = encode id p -> t <> [] ->
  next (mkDecoder b) = (None, mkDecoder b).
Proof.
  intros Hid Hp Hbt Ht. unfold next. cbn [csm_buffer next_loop].
  assert (length b + length t = 6 + length p)%nat as Hlen
    by (rewrite <- (length_encode id p Hp), <- Hbt, length_app; lia).
  assert (0 < length t)%nat by (destruct t; [done|simpl; lia]).
  unfold next_pass. cbn [csm_buffer].
  destruct (size_of b <? 6) eqn:E6; [done|]. bool_hyps. unfold size_of in E6.
  assert (read_u16 b 2 = u16 (6 + size_of p)) as Hr.
  { rewrite <- (read_u16_app_l b t 2), Hbt by lia. unfold encode.
    rewrite (proj2 (Z.ltb_ge _ _)) by lia. apply read_u16_mid; [|done]. apply wrap_is_u. lia. }
  assert (search [64; 64] b = Some 0%nat) as ->.
  { unfold encode in Hbt. rewrite (proj2 (Z.ltb_ge _ _)) in Hbt by lia.
    destruct b as [|b0 [|b1 b]]; simpl in E6; try lia. by simplify_eq/=. }
  rewrite (proj2 (Nat.eqb_neq (0 + 1) _)) by lia. cbn [Nat.eqb negb]. rewrite Hr.
  pose proof (size_nonneg p). rewrite wrap_id by (unfold is_u; lia).
  replace (Z.to_nat (6 + size_of p)) with (6 + length p)%nat by (unfold size_of; lia).
  rewrite (proj2 (Nat.ltb_ge _ 6)), (proj2 (Nat.ltb_lt (length b) _)) by lia. done.
Qed.

(** ** Parameters *)

(** A list of parameters as it stands in a payload. *)
Definition encode_parameter (parameter : Z * Bytes) : Bytes :=
  u16_field (u16 (size_of parameter.2 + 4)) ++ u16_field parameter.1 ++ parameter.2.

Definition parameter_ok (parameter : Z * Bytes) : Prop :=
  is_u16 parameter.1 /\ size_of parameter.2 <= 65531.

Lemma length_encode_parameter q : length (encode_parameter q) = (4 + length q.2)%nat.
Proof. done. Qed.

Lemma first_bytes_parameter_at fuel pre ps id :
  Forall parameter_ok ps -> (length (concat (map encode_parameter ps)) < fuel)%nat ->
  first_bytes_parameter_from fuel (pre ++ concat (map encode_parameter ps)) id (length pre)
  = option_map snd (List.find (fun q => q.1 =? id) ps).
Proof.
  intros Hps. revert fuel pre. induction Hps as [|[i v] ps [Hi Hv] Hps IH]; intros fuel pre Hf.
  - destruct fuel; [done|]. simpl. rewrite app_nil_r.
    by rewrite (proj2 (Nat.ltb_lt _ _)) by lia.
  - destruct fuel as [|fuel]; [simpl in Hf; lia|].
    cbn [map concat] in *. rewrite length_app, length_encode_parameter in Hf. cbn [snd fst] in *.
    set (rest := concat (map encode_parameter ps)) in *.
    set (buf := pre ++ encode_parameter (i, v) ++ rest).
    assert (buf = pre ++ u16_field (u16 (size_of v + 4)) ++ u16_field i ++ v ++ rest) as Hb
      by (unfold buf, encode_parameter; cbn [fst snd]; by rewrite <- !app_assoc).
    assert (length buf = length pre + 4 + length v + length rest)%nat as Hlen
      by (rewrite Hb, !length_app; unfold u16_field; simpl; lia).
    cbn [first_bytes_parameter_from]. fold buf.
    rewrite (proj2 (Nat.ltb_ge (length buf) _)) by lia. pose proof (size_nonneg v).
    assert (Z.to_nat (read_u16 buf (length pre)) = 4 + length v)%nat as ->.
    { rewrite Hb, read_u16_mid by (done || apply wrap_is_u; lia). rewrite wrap_id by (unfold is_u; lia). unfold size_of. lia. }
    rewrite (proj2 (Nat.ltb_ge _ 4)), (proj2 (Nat.ltb_ge (length buf) _)) by lia. cbn [orb].
    assert (read_u16 buf (length pre + 2) = i) as ->.
    { rewrite Hb, (app_assoc pre). apply read_u16_mid; [done|]. rewrite length_app. done. }
    cbn [List.find fst]. destruct (i =? id); cbn [option_map snd].
    + f_equal. rewrite Hb, (app_assoc pre), (app_assoc (pre ++ _)).
      apply subspan_app'; [rewrite !length_app; simpl; lia|lia].
    + replace buf with ((pre ++ encode_parameter (i, v)) ++ rest) by (unfold buf; by rewrite app_assoc).
      replace (length pre + (4 + length v))%nat with (length (pre ++ encode_parameter (i, v)))
        by (rewrite length_app, length_encode_parameter; done).
      apply IH. lia.
Qed.

Lemma first_bytes_parameter_find ps id :
  Forall parameter_ok ps ->
  first_bytes_parameter (concat (map encode_parameter ps)) id
  = option_map snd (List.find (fun q => q.1 =? id) ps).
Proof. intros Hps. apply (first_bytes_parameter_at _ [] ps id Hps). simpl. lia. Qed.

Lemma encode_bytes_parameter_eq id parameter_id value :
  size_of value <= 65525 ->
  encode_bytes_parameter id parameter_id value = encode id (encode_parameter (parameter_id, value)).
Proof.
  intros. unfold encode_bytes_parameter. rewrite (proj2 (Z.ltb_ge _ _)) by lia.
  unfold encode_parameter. cbn [fst snd]. by rewrite Z.add_comm.
Qed.

(** ** Streams of messages *)

Definition message_ok (m : Message) : Prop :=
  is_u16 (msg_id m) /\ size_of (msg_payload m) <= 65529.

Definition encode_message (m : Message) : Bytes := encode (msg_id m) (msg_payload m).

(** A client's decoding of a sequence of chunks: every chunk is pushed and the
    decoder drained. *)
Fixpoint decode_chunks (chunks : list Bytes) (d : Decoder) : list Message * Decoder :=
  match chunks with
  | [] => ([], d)
  | chunk :: chunks =>
      let d := push chunk d in
      let (ms, d) := drain (S (length (csm_buffer d))) d in
      let (ms', d) := decode_chunks chunks d in
      (ms ++ ms', d)
  end.

(** What is buffered between chunks: nothing, or the beginning of a message. *)
Definition partial (b : Bytes) (ms : list Message) : Prop :=
  match ms with
  | [] => b = []
  | m :: _ => (length b < length (encode_message m))%nat
  end.

Lemma encode_message_length m :
  message_ok m -> length (encode_message m) = (6 + length (msg_payload m))%nat.
Proof. intros [? ?]. by apply length_encode. Qed.

Lemma split_at_message b rest m ms :
  b ++ rest = encode_message m ++ concat (map encode_message ms) ->
  (length (encode_message m) <= length b)%nat ->
  exists b', b = encode_message m ++ b' /\ b' ++ rest = concat (map encode_message ms).
Proof.
  intros E Hl. exists (drop (length (encode_message m)) b).
  assert (take (length (encode_message m)) b = encode_message m) as Ht.
  { transitivity (take (length (encode_message m)) (b ++ rest)).
    - by rewrite take_app_le by done.
    - rewrite E. apply take_app_length. }
  pose proof (take_drop (length (encode_message m)) b) as Hb. rewrite Ht in Hb. split; [done|].
  apply (app_inv_head (encode_message m)). rewrite app_assoc, Hb. exact E.
Qed.

Lemma drain_stream fuel ms : forall b rest,
  Forall message_ok ms -> b ++ rest = concat (map encode_message ms) ->
  (length b < fuel)%nat ->
  exists ms1 ms2 b', drain fuel (mkDecoder b) = (ms1, mkDecoder b') /\ ms = ms1 ++ ms2 /\
    b' ++ rest = concat (map encode_message ms2) /\ partial b' ms2.
Proof.
  revert ms. induction fuel as [|fuel IH]; intros ms b rest Hms E Hf; [lia|]. cbn [drain].
  destruct ms as [|m ms].
  - cbn [map concat] in E. apply app_eq_nil in E as [-> ->].
    exists [], [], []. split_and!; done.
  - apply Forall_cons in Hms as [Hm Hms]. pose proof (encode_message_length m Hm) as Hlm.
    cbn [map concat] in E.
    destruct (Nat.le_gt_cases (length (encode_message m)) (length b)) as [Hle|Hgt].
    + destruct (split_at_message _ _ _ _ E Hle) as (b' & -> & E').
      unfold encode_message at 1. rewrite next_message by apply Hm.
      destruct (IH ms b' rest Hms E') as (ms1 & ms2 & b2 & -> & -> & E2 & Hp).
      { rewrite length_app in Hf. lia. }
      exists (m :: ms1), ms2, b2. split_and!; try done. by destruct m.
    + exists [], (m :: ms), b. split_and!; try done.
      assert (b ++ take (length (encode_message m) - length b) rest = encode_message m) as Hb.
      { transitivity (take (length (encode_message m)) (b ++ rest)).
        - by rewrite take_app_ge by lia.
        - rewrite E. apply take_app_length. }
      rewrite (next_partial (msg_id m) (msg_payload m) b _ (proj1 Hm) (proj2 Hm) Hb); [done|].
      intros En. rewrite En, app_nil_r in Hb. subst b. lia.
Qed.

Lemma decode_chunks_stream chunks : forall ms b,
  Forall message_ok ms -> Forall (fun c => size_of c <= 65536) chunks ->
  partial b ms -> b ++ concat chunks = concat (map encode_message ms) ->
  decode_chunks chunks (mkDecoder b) = (ms, mkDecoder []).
Proof.
  induction chunks as [|chunk chunks IH]; intros ms b Hms Hc Hp E; cbn [decode_chunks concat] in *.
  - rewrite app_nil_r in E. destruct ms as [|m ms]; [by simpl in Hp; subst|].
    simpl in Hp, E. apply (f_equal length) in E. rewrite length_app in E. lia.
  - apply Forall_cons in Hc as [Hc Hcs].
    assert (size_of b <= 65536) as Hb.
    { unfold size_of. destruct ms as [|m ms]; simpl in Hp; [subst; simpl; lia|].
      apply Forall_cons in Hms as [Hm _]. rewrite encode_message_length in Hp by done.
      destruct Hm. unfold size_of in *. lia. }
    unfold push, kMaximumBufferSize. cbn [csm_buffer].
    rewrite (proj2 (Z.ltb_ge _ _)) by lia. rewrite app_assoc in E.
    destruct (drain_stream (S (length (b ++ chunk))) ms (b ++ chunk) _ Hms E)
      as (ms1 & ms2 & b' & Hd & -> & E' & Hp'); [lia|].
    cbn [csm_buffer]. rewrite Hd. apply Forall_app in Hms as [_ Hms2].
    by rewrite (IH ms2 b' Hms2 Hcs Hp' E').
Qed.

(** ** Theorems *)

(** A stream of CSM messages survives any fragmentation: however the
    concatenation of the encodings of a list of messages is cut into chunks of
    at most 64 KiB, pushing the chunks one by one and draining the decoder after
    each yields exactly those messages in order and leaves nothing behind. *)
Theorem csm_stream_roundtrip ms chunks :
  Forall message_ok ms -> Forall (fun c => size_of c <= 65536) chunks ->
  concat chunks = concat (map encode_message ms) ->
  decode_chunks chunks new_decoder = (ms, new_decoder).
Proof.
  intros Hms Hc E. apply decode_chunks_stream; auto.
  destruct ms as [|m ms]; [done|]. apply Forall_cons in Hms as [Hm _].
  simpl. rewrite encode_message_length by done. lia.
Qed.

Lemma csm_stream_roundtrip_witness :
  decode_chunks [[64; 64; 0]; [7; 29; 1; 5; 64]; []; [64; 0; 6; 29; 2]] new_decoder
  = ([mkMessage 7425 [5]; mkMessage 7426 []], new_decoder).
Proof.
  apply csm_stream_roundtrip.
  - repeat (apply Forall_cons_2; [split; [split|]; vm_compute; congruence|]). apply Forall_nil_2.
  - repeat (apply Forall_cons_2; [vm_compute; congruence|]). apply Forall_nil_2.
  - reflexivity.
Defined.

(** Parameters are found by their identifier: over the encoding of any list
    of parameters, [first_bytes_parameter] returns the value of the first one
    with the identifier asked for, and nothing when there is none. *)
Theorem first_parameter_found ps id :
  Forall parameter_ok ps ->
  first_bytes_parameter (concat (map encode_parameter ps)) id
  = option_map snd (List.find (fun q => q.1 =? id) ps).
Proof. apply first_bytes_parameter_find. Qed.

Lemma first_parameter_found_witness :
  first_bytes_parameter (concat (map encode_parameter [(1, [7]); (2, [8; 9]); (2, [3])])) 2
  = Some [8; 9].
Proof.
  apply (first_parameter_found [(1, [7]); (2, [8; 9]); (2, [3])] 2).
  repeat (apply Forall_cons_2; [split; [split|]; vm_compute; congruence|]). apply Forall_nil_2.
Defined.

(** The decoder never loses its place: whatever is in the buffer, [next]
    terminates, and a message it returns has left the buffer at least six
    octets and its payload shorter; when it returns none, nothing was added. *)
Theorem next_makes_progress d :
  exists r, next_loop (S (length (csm_buffer d))) d = Some r /\ next d = r /\
    match r with
    | (Some m, d') => (length (csm_buffer d') + length (msg_payload m) + 6
                       <= length (csm_buffer d))%nat
    | (None, d') => (length (csm_buffer d') <= length (csm_buffer d))%nat
    end.
Proof.
  destruct (next_loop_total (S (length (csm_buffer d))) d) as [r Hr]; [lia|].
  exists r. split; [done|]. unfold next. rewrite Hr. split; [done|].
  clear -Hr. revert Hr. generalize (S (length (csm_buffer d))) as fuel. intros fuel. revert d.
  induction fuel as [|fuel IH]; intros d Hr; [done|]. cbn [next_loop] in Hr.
  destruct (next_pass d) as [d'|r' d'] eqn:E.
  - apply IH in Hr. pose proof (next_pass_shrinks _ _ E). destruct r as [[m|] d2]; lia.
  - simplify_eq. unfold next_pass in E. repeat step_in E.
    all: rewrite ?length_drop; unfold subspan; rewrite ?length_take, ?length_drop; try lia.
    all: repeat match goal with H : Nat.ltb _ _ = false |- _ => apply Nat.ltb_ge in H end; lia.
Qed.

(** The certificate the check takes from a signed bundle. *)
Definition signer_of `{OpenSSL} (bundle : PKCS7) : option X509 :=
  head (PKCS7_get0_signers bundle ++ PKCS7_certificates bundle).

(** What a valid software-MFi signature is: the check accepts exactly when
    the certificate bundle parses and is signed, its signer (or else its first
    certificate) holds an RSA key, and that key recovers from the signature
    either the challenge itself or the challenge behind the SHA-1 DigestInfo
    prefix. *)
Theorem signature_accepted_iff `{OpenSSL} challenge signature certificate :
  verify_mfi_v2_signature challenge signature certificate = true <->
  exists bundle signer key recovered,
    d2i_PKCS7 certificate = Some bundle /\ PKCS7_type_is_signed bundle = true /\
    signer_of bundle = Some signer /\ X509_get_pubkey signer = Some key /\
    EVP_PKEY_base_id key = EVP_PKEY_RSA /\
    EVP_PKEY_verify_recover key signature = Some recovered /\
    (recovered = challenge \/ recovered = kSha1DigestInfoPrefix ++ challenge).
Proof.
  unfold verify_mfi_v2_signature, signer_of.
  assert (forall r, (size_of r =? size_of challenge) && bytes_eqb challenge r
      || ((size_of r =? size_of kSha1DigestInfoPrefix + size_of challenge)
          && bytes_eqb kSha1DigestInfoPrefix (take 15 r) && bytes_eqb challenge (drop 15 r)) = true
      <-> r = challenge \/ r = kSha1DigestInfoPrefix ++ challenge) as Hr.
  { intros r. rewrite orb_true_iff, !andb_true_iff, !bytes_eqb_eq, !Z.eqb_eq. split.
    - intros [[_ ->]|[[_ H1] H2]]; [by left|right]. by rewrite H1, H2 at 1; rewrite take_drop.
    - intros [-> | ->]; [by left|right]. rewrite size_app. done. }
  split.
  - intros Hv. destruct (d2i_PKCS7 certificate) as [b|]; [|done].
    destruct (PKCS7_type_is_signed b) eqn:Es; [|done]. exists b.
    destruct (head (PKCS7_get0_signers b ++ PKCS7_certificates b)) as [s|] eqn:Eh;
      destruct (PKCS7_get0_signers b) as [|s' ss], (PKCS7_certificates b) as [|c cs]; simplify_eq/=;
      try done.
    all: destruct (X509_get_pubkey _) as [k|] eqn:Ek; [|done];
      destruct (EVP_PKEY_base_id k =? EVP_PKEY_RSA) eqn:Ei; [|done];
      destruct (EVP_PKEY_verify_recover k signature) as [r|] eqn:Er; [|done];
      apply Hr in Hv; apply Z.eqb_eq in Ei; eauto 15.
  - intros (b & s & k & r & -> & -> & Hs & Hk & Hi & Hrec & Hc).
    destruct (PKCS7_get0_signers b) as [|s' ss], (PKCS7_certificates b) as [|c cs]; simplify_eq/=.
    all: rewrite Hk, Hi, Z.eqb_refl, Hrec; by apply Hr.
Qed.
