(* ===== verification/Bootstrap.v ===== *)
(** * The CSM bootstrap: identification and software-MFi authentication

    [src/include/aa2acp/iap2/bootstrap.hpp] and [src/src/iap2/bootstrap.cpp].
    The session is a record; its methods run on the pair of the link they send
    through and the session.  [std::random_device] and [steady_clock::now] are
    the classes [Random] and [Clock]; log lines are left out. *)

From S2P Require Import Prelude Text LinkCodec PhoneLink LinkFacts Csm.
From stdpp Require Import relations.
#[local] Open Scope Z_scope.

(** The n-th value drawn from [std::random_device]. *)
Class Random := { random_device : nat -> Z }.

(** What [steady_clock::now()] returns inside [send_control]. *)
Class Clock := { clock_now : PhoneLink -> Z }.

(** [link_->send_control(...)] at the time the clock shows. *)
Definition send_now `{Transport, Clock} (payload : Bytes) (l : PhoneLink) : bool * PhoneLink :=
  send_control (clock_now l) payload l.

(* src/include/aa2acp/iap2/bootstrap.hpp:27-34 BootstrapSession::Stage *)
Inductive Stage :=
| Idle | AwaitIdentification | AwaitCertificate | AwaitResponse | Done | Failed.

#[export] Instance stage_eq_dec : EqDecision Stage.
Proof. solve_decision. Defined.

(** The members, and the number of values drawn from the random device. *)
(* src/include/aa2acp/iap2/bootstrap.hpp:40-44 BootstrapSession (members) *)
Record BootstrapSession := mkBootstrap {
  bs_decoder : Decoder;
  bs_linked : bool;
  challenge : Bytes;
  certificate : Bytes;
  stage : Stage;
  draws : nat
}.

Definition new_bootstrap : BootstrapSession :=
  mkBootstrap new_decoder false (repeat 0 20) [] Idle 0.

Definition set_stage (s : Stage) (b : BootstrapSession) : BootstrapSession :=
  mkBootstrap (bs_decoder b) (bs_linked b) (challenge b) (certificate b) s (draws b).
Definition set_decoder (d : Decoder) (b : BootstrapSession) : BootstrapSession :=
  mkBootstrap d (bs_linked b) (challenge b) (certificate b) (stage b) (draws b).
Definition set_certificate (c : Bytes) (b : BootstrapSession) : BootstrapSession :=
  mkBootstrap (bs_decoder b) (bs_linked b) (challenge b) c (stage b) (draws b).

(* src/src/iap2/bootstrap.cpp:51-51 BootstrapSession::attach *)
Definition attach (b : BootstrapSession) : BootstrapSession :=
  mkBootstrap (bs_decoder b) true (challenge b) (certificate b) (stage b) (draws b).

(* src/src/iap2/bootstrap.cpp:68-68 BootstrapSession::done *)
Definition done (b : BootstrapSession) : bool := bool_decide (stage b = Done).
(* src/src/iap2/bootstrap.cpp:69-69 BootstrapSession::failed *)
Definition failed (b : BootstrapSession) : bool := bool_decide (stage b = Failed).
(* src/src/iap2/bootstrap.cpp:70-70 BootstrapSession::started *)
Definition started (b : BootstrapSession) : bool := bool_decide (stage b <> Idle).

(* src/src/iap2/bootstrap.cpp:78-82 BootstrapSession::fail *)
Definition fail (b : BootstrapSession) : BootstrapSession := set_stage Failed b.

Section Session.
Context `{Transport, Clock, Random, OpenSSL}.

Abbreviation World := (PhoneLink * BootstrapSession)%type.

(** [link_ == nullptr || !link_->send_control(request)]. *)
Definition try_send (request : Bytes) (w : World) : bool * World :=
  let '(l, b) := w in
  if bs_linked b then let (ok, l) := send_now request l in (ok, (l, b))
  else (false, (l, b)).

(* src/src/iap2/bootstrap.cpp:72-76 BootstrapSession::send_empty *)
Definition send_empty (id : Z) (w : World) : World :=
  match try_send (encode id []) w with
  | (true, w) => w
  | (false, (l, b)) => (l, fail b)
  end.

(* src/src/iap2/bootstrap.cpp:53-59 BootstrapSession::begin *)
Definition begin (w : World) : World :=
  let '(l, b) := w in
  send_empty kStartIdentification (l, set_stage AwaitIdentification b).

(** [for (auto &byte : challenge_) byte = static_cast<std::uint8_t>(random())]. *)
(* src/src/iap2/bootstrap.cpp:128-131 BootstrapSession::handle (challenge) *)
Definition draw_challenge (b : BootstrapSession) : BootstrapSession :=
  mkBootstrap (bs_decoder b) (bs_linked b)
    (map (fun i => u8 (random_device (draws b + i))) (seq 0 20))
    (certificate b) (stage b) (draws b + 20).

(* src/src/iap2/bootstrap.cpp:84-161 BootstrapSession::handle *)
Definition handle (message : Message) (w : World) : World :=
  let '(l, b) := w in
  match stage b with
  | AwaitIdentification =>
      if msg_id message =? kIdentificationRejected then (l, fail b)
      else if msg_id message =? kIdentificationInformation then
        let w := send_empty kIdentificationAccepted (l, b) in
        let '(l, b) := send_empty kRequestAuthenticationCertificate w in
        (l, set_stage AwaitCertificate b)
      else (l, b)
  | AwaitCertificate =>
      if negb (msg_id message =? kAuthenticationCertificate) then (l, b)
      else match first_bytes_parameter (msg_payload message) 0 with
           | None => (l, fail b)
           | Some certificate =>
               let b := draw_challenge (set_certificate certificate b) in
               let request := encode_bytes_parameter
                                kRequestAuthenticationChallengeResponse 0 (challenge b) in
               match try_send request (l, b) with
               | (false, (l, b)) => (l, fail b)
               | (true, (l, b)) => (l, set_stage AwaitResponse b)
               end
           end
  | AwaitResponse =>
      if msg_id message =? kAuthenticationFailed then (l, fail b)
      else if msg_id message =? kAuthenticationResponse then
        match first_bytes_parameter (msg_payload message) 0 with
        | None => (l, fail b)
        | Some signature =>
            if negb (verify_mfi_v2_signature (challenge b) signature (certificate b))
            then (l, fail b)
            else
              let '(l, b) := send_empty kAuthenticationSucceeded (l, b) in
              (l, set_stage Done b)
        end
      else (l, b)
  | Idle | Done | Failed => (l, b)
  end.

(** The [while] loop of [receive]: at most one message per six octets. *)
Fixpoint handle_all (fuel : nat) (w : World) : World :=
  match fuel with
  | O => w
  | S fuel =>
      let '(l, b) := w in
      match next (bs_decoder b) with
      | (Some message, d) => handle_all fuel (handle message (l, set_decoder d b))
      | (None, d) => (l, set_decoder d b)
      end
  end.

(* src/src/iap2/bootstrap.cpp:61-66 BootstrapSession::receive *)
Definition receive (bytes : Bytes) (w : World) : World :=
  let '(l, b) := w in
  let d := push bytes (bs_decoder b) in
  handle_all (S (length (csm_buffer d))) (l, set_decoder d b).
End Session.

(** ** The session as a client of the link *)

Section Client.
Context `{Transport, Clock, Random, OpenSSL}.

Abbreviation World := (PhoneLink * BootstrapSession)%type.

Lemma try_send_sends request l b :
  bytes_ok request -> rtc control_send l (try_send request (l, b)).2.1.
Proof.
  intros Hr. unfold try_send, send_now. destruct (bs_linked b); [|reflexivity].
  destruct (send_control _ _ _) as [ok l'] eqn:E. apply rtc_once.
  exists (clock_now l), request. by rewrite E.
Qed.

Lemma try_send_session request l b : (try_send request (l, b)).2.2 = b.
Proof.
  unfold try_send. destruct (bs_linked b); [|reflexivity]. by destruct (send_now _ _).
Qed.

Lemma send_empty_sends id l b : rtc control_send l (send_empty id (l, b)).1.
Proof.
  unfold send_empty.
  pose proof (try_send_sends (encode id []) l b (encode_ok _ _ (Forall_nil_2 _))) as Hs.
  by destruct (try_send _ _) as [[] [l' b']].
Qed.

(** [send_empty] leaves the session alone or marks it failed. *)
Lemma send_empty_session id l b :
  (send_empty id (l, b)).2 = b \/ (send_empty id (l, b)).2 = fail b.
Proof.
  unfold send_empty. pose proof (try_send_session (encode id []) l b) as Hs.
  destruct (try_send _ _) as [[] [l' b']]; simpl in *; subst; auto.
Qed.

Lemma draw_challenge_ok b : bytes_ok (challenge (draw_challenge b)).
Proof.
  unfold draw_challenge. cbn [challenge].
  induction (seq 0 20); constructor; [apply u8_ok|done].
Qed.

Lemma encode_bytes_parameter_ok id pid v :
  bytes_ok v -> bytes_ok (encode_bytes_parameter id pid v).
Proof.
  intros. unfold encode_bytes_parameter. case_match; [constructor|].
  apply encode_ok. bytes_solve.
Qed.

Lemma handle_sends message l b : rtc control_send l (handle message (l, b)).1.
Proof.
  unfold handle. destruct (stage b); try reflexivity.
  - destruct (_ =? kIdentificationRejected); [reflexivity|].
    destruct (_ =? kIdentificationInformation); [|reflexivity].
    pose proof (send_empty_sends kIdentificationAccepted l b) as Hs1.
    destruct (send_empty kIdentificationAccepted (l, b)) as [l1 b1].
    pose proof (send_empty_sends kRequestAuthenticationCertificate l1 b1) as Hs2.
    destruct (send_empty _ (l1, b1)) as [l2 b2]. by etrans.
  - destruct (negb _); [reflexivity|]. destruct (first_bytes_parameter _ _) as [c|]; [|reflexivity].
    set (b1 := draw_challenge _). set (request := encode_bytes_parameter _ _ _).
    pose proof (try_send_sends request l b1
      (encode_bytes_parameter_ok _ _ _ (draw_challenge_ok _))) as Hs.
    by destruct (try_send _ _) as [[] [l' b']].
  - destruct (_ =? kAuthenticationFailed); [reflexivity|].
    destruct (_ =? kAuthenticationResponse); [|reflexivity].
    destruct (first_bytes_parameter _ _) as [s|]; [|reflexivity].
    destruct (negb _); [reflexivity|].
    pose proof (send_empty_sends kAuthenticationSucceeded l b) as Hs.
    by destruct (send_empty _ _) as [l1 b1].
Qed.

Lemma handle_all_sends fuel : forall l b, rtc control_send l (handle_all fuel (l, b)).1.
Proof.
  induction fuel as [|fuel IH]; intros l b; [reflexivity|]. cbn [handle_all].
  destruct (next _) as [[m|] d]; [|reflexivity].
  pose proof (handle_sends m l (set_decoder d b)) as Hs.
  destruct (handle m _) as [l' b']. etrans; [exact Hs|apply IH].
Qed.

Lemma receive_sends bytes l b : rtc control_send l (receive bytes (l, b)).1.
Proof. apply handle_all_sends. Qed.

(** The callback the owner installs when only the bootstrap is wanted. *)
Definition bootstrap_callback : control_callback BootstrapSession := Some receive.

#[export] Instance bootstrap_client : ControlClient bootstrap_callback.
Proof. intros h payload l b [= <-] _. apply receive_sends. Qed.

(** ** Authentication *)

(** A finished session holds a certificate whose key signed its challenge. *)
Definition authenticated (b : BootstrapSession) : Prop :=
  stage b = Done ->
  exists signature, verify_mfi_v2_signature (challenge b) signature (certificate b) = true.

Lemma handle_authenticated message l b :
  authenticated b -> authenticated (handle message (l, b)).2.
Proof.
  intros Hb. unfold handle. destruct (stage b) eqn:Es; try done.
  - destruct (_ =? kIdentificationRejected); [done|].
    destruct (_ =? kIdentificationInformation); [|done].
    destruct (send_empty _ (l, b)) as [l1 b1]. by destruct (send_empty _ (l1, b1)) as [l2 b2].
  - destruct (negb _); [done|]. destruct (first_bytes_parameter _ _) as [c|]; [|done].
    by destruct (try_send _ _) as [[] [l' b']].
  - destruct (_ =? kAuthenticationFailed); [done|].
    destruct (_ =? kAuthenticationResponse); [|done].
    destruct (first_bytes_parameter _ _) as [s|]; [|done].
    destruct (verify_mfi_v2_signature _ _ _) eqn:Ev; [|done]. simpl negb. cbv iota.
    pose proof (send_empty_session kAuthenticationSucceeded l b) as Hs.
    destruct (send_empty _ _) as [l1 b1]. simpl in *. intros _. exists s. by destruct Hs as [-> | ->].
Qed.

Lemma handle_all_authenticated fuel : forall l b,
  authenticated b -> authenticated (handle_all fuel (l, b)).2.
Proof.
  induction fuel as [|fuel IH]; intros l b Hb; [done|]. cbn [handle_all].
  destruct (next _) as [[m|] d]; [|done].
  pose proof (handle_authenticated m l (set_decoder d b) Hb) as Hs.
  destruct (handle m _) as [l' b']. by apply IH.
Qed.

(** What may happen to a session: its owner begins it, its link hands it
    control payloads, and the link does anything else in between. *)
Inductive session_step : World -> World -> Prop :=
| step_attach l b : session_step (l, b) (l, attach b)
| step_begin l b : session_step (l, b) (begin (l, b))
| step_receive bytes l b : session_step (l, b) (receive bytes (l, b))
| step_link l l' b : session_step (l, b) (l', b).

Lemma session_authenticated w w' :
  rtc session_step w w' -> authenticated w.2 -> authenticated w'.2.
Proof.
  induction 1 as [|w1 w2 w3 Hs _ IH]; [done|]. intros Hw. apply IH. destruct Hs as [l b|l b|bytes l b|];
    [done| | |done].
  - unfold begin. pose proof (send_empty_session kStartIdentification l
      (set_stage AwaitIdentification b)) as [-> | ->]; done.
  - by apply handle_all_authenticated.
Qed.
End Client.

(** C21. Authentication is sound. However the owner drives the session and
    whatever the accessory sends, a session that reports [done] holds a
    certificate and a challenge of its own for which the accessory produced a
    signature that passes [verify_mfi_v2_signature]. *)
Theorem done_means_authenticated `{Transport, Clock, Random, OpenSSL} l w :
  rtc session_step (l, new_bootstrap) w -> done w.2 = true ->
  exists signature, verify_mfi_v2_signature (challenge w.2) signature (certificate w.2) = true.
Proof.
  intros Hr Hd%bool_decide_eq_true. by apply (session_authenticated _ _ Hr).
Qed.

(** What moves the session to [Done]: only an authentication response,
    received while one is awaited, whose parameter 0 is a valid signature of
    the challenge; a failed send of the final message does not prevent it. *)
Theorem done_iff_response `{Transport, Clock, Random, OpenSSL} message l b :
  stage b <> Done ->
  (stage (handle message (l, b)).2 = Done <->
   stage b = AwaitResponse /\ msg_id message = kAuthenticationResponse /\
   exists signature, first_bytes_parameter (msg_payload message) 0 = Some signature /\
     verify_mfi_v2_signature (challenge b) signature (certificate b) = true).
Proof.
  intros Hb. unfold handle. split.
  - destruct (stage b) eqn:Es; try done; try (simpl; congruence).
    + destruct (_ =? kIdentificationRejected); [done|].
      destruct (_ =? kIdentificationInformation); [|simpl; congruence].
      destruct (send_empty _ (l, b)) as [l1 b1]. by destruct (send_empty _ (l1, b1)) as [l2 b2].
    + destruct (negb _); [simpl; congruence|].
      destruct (first_bytes_parameter _ _) as [c|]; [|done].
      by destruct (try_send _ _) as [[] [l' b']].
    + destruct (_ =? kAuthenticationFailed); [done|].
      destruct (_ =? kAuthenticationResponse) eqn:Ei; [|simpl; congruence]. bool_hyps.
      destruct (first_bytes_parameter _ _) as [s|]; [|done].
      destruct (verify_mfi_v2_signature _ _ _) eqn:Ev; [|done]. eauto.
  - intros (-> & -> & s & -> & ->). simpl.
    by destruct (send_empty _ _) as [l1 b1].
Qed.

(** ** Lost failures *)

(** When neither message of the identification reply can be sent, the failure
    that [send_empty] records is overwritten and the session waits on. *)
Lemma failed_identification_is_lost `{Transport, Clock, Random, OpenSSL} payload l b :
  stage b = AwaitIdentification -> state l <> Normal ->
  handle (mkMessage kIdentificationInformation payload) (l, b) = (l, set_stage AwaitCertificate b).
Proof.
  intros Hb Hl. unfold handle. rewrite Hb. cbn [msg_id].
  change (kIdentificationInformation =? kIdentificationRejected) with false.
  change (kIdentificationInformation =? kIdentificationInformation) with true. cbv iota.
  assert (forall id b, send_empty id (l, b) = (l, fail b)) as Hs.
  { intros id b0. unfold send_empty, try_send, send_now, send_control.
    rewrite (proj2 (state_eqb_neq _ _) Hl). simpl. by destruct (bs_linked b0). }
  by rewrite !Hs.
Qed.

(** ** A complete exchange *)

Module Demo.
(** A toy OpenSSL: a bundle is its key, and recovery reverses the octets. *)
#[local] Instance demo_openssl : OpenSSL := {|
  PKCS7 := Bytes; X509 := Bytes; EVP_PKEY := Bytes;
  d2i_PKCS7 der := if bytes_eqb der [] then None else Some der;
  PKCS7_type_is_signed _ := true;
  PKCS7_certificates b := [b];
  PKCS7_get0_signers _ := [];
  X509_get_pubkey x := Some x;
  EVP_PKEY_base_id _ := 6;
  EVP_PKEY_verify_recover _ s := Some (rev s) |}.
#[local] Instance demo_clock : Clock := {| clock_now _ := 0 |}.
#[local] Instance demo_random : Random := {| random_device n := Z.of_nat n + 250 |}.
#[local] Instance demo_transport : Transport :=
  {| transport_send _ _ := true; log_installed := false |}.

Definition start_link : PhoneLink :=
  set_lsp (mkLsp 128 65535 100 50 1 0 []) (set_state Normal new_link).
Definition exchange : PhoneLink * BootstrapSession :=
  let w := begin (start_link, attach new_bootstrap) in
  let w := receive (encode kIdentificationInformation []) w in
  let w := receive (encode_bytes_parameter kAuthenticationCertificate 0 [1; 2; 3]) w in
  receive (encode_bytes_parameter kAuthenticationResponse 0
             [13; 12; 11; 10; 9; 8; 7; 6; 5; 4; 3; 2; 1; 0; 255; 254; 253; 252; 251; 250]) w.

Lemma then_receive w bytes w0 :
  rtc session_step w0 w -> rtc session_step w0 (receive bytes w).
Proof. intros. eapply rtc_r; [done|]. destruct w. apply step_receive. Qed.

Lemma exchange_steps : rtc session_step (start_link, new_bootstrap) exchange.
Proof.
  unfold exchange. cbv zeta. do 3 apply then_receive.
  eapply rtc_l; [apply step_attach|]. apply rtc_once, step_begin.
Qed.
End Demo.

Lemma done_means_authenticated_witness :
  done Demo.exchange.2 = true /\
  exists signature, @verify_mfi_v2_signature Demo.demo_openssl
    (challenge Demo.exchange.2) signature (certificate Demo.exchange.2) = true.
Proof.
  assert (done Demo.exchange.2 = true) as Hd by (vm_compute; reflexivity).
  split; [exact Hd|].
  apply (@done_means_authenticated Demo.demo_transport Demo.demo_clock Demo.demo_random
    Demo.demo_openssl Demo.start_link Demo.exchange); [|exact Hd].
  exact Demo.exchange_steps.
Defined.

Lemma done_iff_response_witness :
  let b := set_certificate [1] (set_stage AwaitResponse (attach new_bootstrap)) in
  stage (@handle Demo.demo_transport Demo.demo_clock Demo.demo_random Demo.demo_openssl
    (mkMessage kAuthenticationResponse (encode_parameter (0, repeat 0 20))) (new_link, b)).2 = Done.
Proof.
  cbv zeta.
  apply (@done_iff_response Demo.demo_transport Demo.demo_clock Demo.demo_random
    Demo.demo_openssl); [vm_compute; congruence|].
  split; [reflexivity|]. split; [reflexivity|]. exists (repeat 0 20). split; vm_compute; reflexivity.
Defined.
