(* ===== verification/CarPlayProbe.v ===== *)
(** * The CarPlay probe

    [src/include/aa2acp/iap2/carplay_probe.hpp] and
    [src/src/iap2/carplay_probe.cpp]: the client of the control session after
    authentication, which announces CarPlay, asks the accessory for its Wi-Fi
    and waits for [CarPlayStartSession].  The Wi-Fi join handler is a parameter
    and may call [set_airplay_endpoint] while it runs; log lines are left out. *)

From S2P Require Import Prelude Text LinkCodec PhoneLink LinkFacts Csm Bootstrap.
From stdpp Require Import relations.
#[local] Open Scope Z_scope.

(* src/src/iap2/carplay_probe.cpp:15-15 kCarPlayAvailability *)
Definition kCarPlayAvailability : Z := 17152.
(* src/src/iap2/carplay_probe.cpp:16-16 kCarPlayStartSession *)
Definition kCarPlayStartSession : Z := 17153.
(* src/src/iap2/carplay_probe.cpp:17-17 kRequestAccessoryWifiConfiguration *)
Definition kRequestAccessoryWifiConfiguration : Z := 22274.
(* src/src/iap2/carplay_probe.cpp:18-18 kAccessoryWifiConfiguration *)
Definition kAccessoryWifiConfiguration : Z := 22275.
(* src/src/iap2/carplay_probe.cpp:19-19 kWirelessCarPlayUpdate *)
Definition kWirelessCarPlayUpdate : Z := 19981.

(** ** Parameters *)

(* src/src/iap2/carplay_probe.cpp:21-24 append_u16 *)
Definition append_u16 (output : Bytes) (value : Z) : Bytes :=
  output ++ [u8 (Z.shiftr value 8); u8 value].

(* src/src/iap2/carplay_probe.cpp:26-31 append_parameter *)
Definition append_parameter (output : Bytes) (id : Z) (value : Bytes) : Bytes :=
  append_u16 (append_u16 output (u16 (size_of value + 4))) id ++ value.

(* src/src/iap2/carplay_probe.cpp:33-45 attributes *)
Definition attributes (available : bool) (identifier : Bytes) : Bytes :=
  let output := append_parameter [] 0 [if available then 1 else 0] in
  if negb (bytes_eqb identifier []) then append_parameter output 1 (identifier ++ [0])
  else output.

(* src/src/iap2/carplay_probe.cpp:47-56 string_parameter *)
Definition string_parameter (message : Message) (id : Z) : Bytes :=
  match first_bytes_parameter (msg_payload message) id with
  | None => []
  | Some value => if default 1 (last value) =? 0 then removelast value else value
  end.

(* src/src/iap2/carplay_probe.cpp:58-67 u32_parameter *)
Definition u32_parameter (message : Message) (id : Z) : Z :=
  match first_bytes_parameter (msg_payload message) id with
  | Some [a; b; c; d] =>
      Z.lor (Z.lor (Z.lor (Z.shiftl a 24) (Z.shiftl b 16)) (Z.shiftl c 8)) d
  | _ => 0
  end.

(* src/src/iap2/carplay_probe.cpp:69-72 u8_parameter *)
Definition u8_parameter (message : Message) (id : Z) : Z :=
  match first_bytes_parameter (msg_payload message) id with
  | Some [a] => a
  | _ => 0
  end.

(** ** The probe *)

(* src/include/aa2acp/iap2/network_manager.hpp:9-14 AccessoryWifiConfiguration *)
Record AccessoryWifiConfiguration := mkWifi {
  ssid : Bytes;
  passphrase : Bytes;
  security_type : Z;
  channel : Z
}.

(* src/include/aa2acp/iap2/carplay_probe.hpp:41-51 CarPlayProbe (members) *)
Record CarPlayProbe := mkProbe {
  pr_decoder : Decoder;
  pr_linked : bool;
  bluetooth_identifier : Bytes;
  wifi_join_handler : bool;
  request_wifi : bool;
  awaiting_wifi_configuration : bool;
  pr_started : bool;
  pr_done : bool;
  pr_failed : bool;
  airplay_port : Z;
  airplay_host : Bytes
}.

(* src/src/iap2/carplay_probe.cpp:109-110 CarPlayProbe::CarPlayProbe *)
Definition new_probe (identifier : Bytes) : CarPlayProbe :=
  mkProbe new_decoder false identifier false false false false false false 0 [].

(* src/src/iap2/carplay_probe.cpp:112-112 CarPlayProbe::attach *)
Definition attach (p : CarPlayProbe) : CarPlayProbe :=
  mkProbe (pr_decoder p) true (bluetooth_identifier p) (wifi_join_handler p) (request_wifi p)
    (awaiting_wifi_configuration p) (pr_started p) (pr_done p) (pr_failed p)
    (airplay_port p) (airplay_host p).
(* src/src/iap2/carplay_probe.cpp:114-116 CarPlayProbe::request_wifi_configuration *)
Definition request_wifi_configuration (enabled : bool) (p : CarPlayProbe) : CarPlayProbe :=
  mkProbe (pr_decoder p) (pr_linked p) (bluetooth_identifier p) (wifi_join_handler p) enabled
    (awaiting_wifi_configuration p) (pr_started p) (pr_done p) (pr_failed p)
    (airplay_port p) (airplay_host p).
(* src/src/iap2/carplay_probe.cpp:118-122 CarPlayProbe::set_wifi_join_handler *)
Definition set_wifi_join_handler (installed : bool) (p : CarPlayProbe) : CarPlayProbe :=
  mkProbe (pr_decoder p) (pr_linked p) (bluetooth_identifier p) installed true
    (awaiting_wifi_configuration p) (pr_started p) (pr_done p) (pr_failed p)
    (airplay_port p) (airplay_host p).
(* src/src/iap2/carplay_probe.cpp:124-128 CarPlayProbe::set_airplay_endpoint *)
Definition set_airplay_endpoint (host : Bytes) (port : Z) (p : CarPlayProbe) : CarPlayProbe :=
  mkProbe (pr_decoder p) (pr_linked p) (bluetooth_identifier p) (wifi_join_handler p)
    (request_wifi p) (awaiting_wifi_configuration p) (pr_started p) (pr_done p) (pr_failed p)
    port host.
Definition set_probe_decoder (d : Decoder) (p : CarPlayProbe) : CarPlayProbe :=
  mkProbe d (pr_linked p) (bluetooth_identifier p) (wifi_join_handler p)
    (request_wifi p) (awaiting_wifi_configuration p) (pr_started p) (pr_done p) (pr_failed p)
    (airplay_port p) (airplay_host p).
Definition set_awaiting (p : CarPlayProbe) : CarPlayProbe :=
  mkProbe (pr_decoder p) (pr_linked p) (bluetooth_identifier p) (wifi_join_handler p)
    (request_wifi p) true (pr_started p) (pr_done p) (pr_failed p)
    (airplay_port p) (airplay_host p).
Definition set_started (p : CarPlayProbe) : CarPlayProbe :=
  mkProbe (pr_decoder p) (pr_linked p) (bluetooth_identifier p) (wifi_join_handler p)
    (request_wifi p) (awaiting_wifi_configuration p) true (pr_done p) (pr_failed p)
    (airplay_port p) (airplay_host p).
Definition set_done (p : CarPlayProbe) : CarPlayProbe :=
  mkProbe (pr_decoder p) (pr_linked p) (bluetooth_identifier p) (wifi_join_handler p)
    (request_wifi p) (awaiting_wifi_configuration p) (pr_started p) true (pr_failed p)
    (airplay_port p) (airplay_host p).
(* src/src/iap2/carplay_probe.cpp:179-183 CarPlayProbe::fail *)
Definition fail (p : CarPlayProbe) : CarPlayProbe :=
  mkProbe (pr_decoder p) (pr_linked p) (bluetooth_identifier p) (wifi_join_handler p)
    (request_wifi p) (awaiting_wifi_configuration p) (pr_started p) (pr_done p) true
    (airplay_port p) (airplay_host p).

(** The installed join handler: its answer, and the endpoint it may set. *)
Class WifiJoin := {
  join_wifi : AccessoryWifiConfiguration -> bool;
  join_endpoint : AccessoryWifiConfiguration -> option (Bytes * Z)
}.

Section Probe.
Context `{Transport, Clock, WifiJoin}.

Abbreviation World := (PhoneLink * CarPlayProbe)%type.

Definition probe_send (request : Bytes) (w : World) : bool * World :=
  let '(l, p) := w in
  if pr_linked p then let (ok, l) := send_now request l in (ok, (l, p)) else (false, (l, p)).

(* src/src/iap2/carplay_probe.cpp:130-164 CarPlayProbe::begin *)
Definition begin (w : World) : World :=
  let '(l, p) := w in
  if negb (pr_linked p) then (l, fail p)
  else if request_wifi p then
    match probe_send (encode kRequestAccessoryWifiConfiguration []) (l, p) with
    | (false, (l, p)) => (l, fail p)
    | (true, (l, p)) => (l, set_started (set_awaiting p))
    end
  else if bytes_eqb (bluetooth_identifier p) [] then (l, fail p)
  else
    let wireless := attributes true (bluetooth_identifier p) in
    let payload := append_parameter [] 1 wireless in
    match probe_send (encode kCarPlayAvailability payload) (l, p) with
    | (false, (l, p)) => (l, fail p)
    | (true, (l, p)) => (l, set_started p)
    end.

(** [wifi_join_handler_(configuration)], with the endpoint it sets. *)
Definition call_join (c : AccessoryWifiConfiguration) (p : CarPlayProbe) : bool * CarPlayProbe :=
  (join_wifi c,
   match join_endpoint c with Some (host, port) => set_airplay_endpoint host port p | None => p end).

(* src/src/iap2/carplay_probe.cpp:185-251 CarPlayProbe::handle *)
Definition handle (message : Message) (w : World) : World :=
  let '(l, p) := w in
  if msg_id message =? kCarPlayStartSession then
    let port := u32_parameter message 2 in
    let device := string_parameter message 3 in
    let p := set_airplay_endpoint device port p in
    if negb (request_wifi p) then (l, set_done p)
    else match probe_send (encode kRequestAccessoryWifiConfiguration []) (l, p) with
         | (false, (l, p)) => (l, fail p)
         | (true, (l, p)) => (l, set_awaiting p)
         end
  else if (msg_id message =? kAccessoryWifiConfiguration) && awaiting_wifi_configuration p then
    let configuration := mkWifi (string_parameter message 1) (string_parameter message 2)
                           (u8_parameter message 3) (u8_parameter message 4) in
    if bytes_eqb (ssid configuration) [] then (l, fail p)
    else if wifi_join_handler p then
      let (joined, p) := call_join configuration p in
      if negb joined then (l, fail p)
      else match probe_send (encode_bytes_parameter kWirelessCarPlayUpdate 0 [1]) (l, p) with
           | (false, (l, p)) => (l, fail p)
           | (true, (l, p)) =>
               if negb (bytes_eqb (airplay_host p) []) && negb (airplay_port p =? 0)
               then (l, set_done p) else (l, p)
           end
    else (l, set_done p)
  else (l, p).

Fixpoint handle_all (fuel : nat) (w : World) : World :=
  match fuel with
  | O => w
  | S fuel =>
      let '(l, p) := w in
      match next (pr_decoder p) with
      | (Some message, d) => handle_all fuel (handle message (l, set_probe_decoder d p))
      | (None, d) => (l, set_probe_decoder d p)
      end
  end.

(* src/src/iap2/carplay_probe.cpp:166-171 CarPlayProbe::receive *)
Definition receive (bytes : Bytes) (w : World) : World :=
  let '(l, p) := w in
  let d := push bytes (pr_decoder p) in
  handle_all (S (length (csm_buffer d))) (l, set_probe_decoder d p).
End Probe.

(** ** The probe as a client of the link *)

Section ProbeFacts.
Context `{Transport, Clock, WifiJoin}.

Abbreviation World := (PhoneLink * CarPlayProbe)%type.

Lemma probe_send_sends request l p :
  bytes_ok request -> rtc control_send l (probe_send request (l, p)).2.1.
Proof.
  intros Hr. unfold probe_send, send_now. destruct (pr_linked p); [|reflexivity].
  destruct (send_control _ _ _) as [ok l'] eqn:E. apply rtc_once.
  exists (clock_now l), request. by rewrite E.
Qed.

Lemma probe_send_probe request l p : (probe_send request (l, p)).2.2 = p.
Proof.
  unfold probe_send. destruct (pr_linked p); [|reflexivity]. by destruct (send_now _ _).
Qed.

Lemma probe_handle_sends message l p : rtc control_send l (handle message (l, p)).1.
Proof.
  unfold handle. destruct (_ =? kCarPlayStartSession).
  - destruct (negb _); [reflexivity|]. set (p1 := set_airplay_endpoint _ _ p).
    pose proof (probe_send_sends (encode kRequestAccessoryWifiConfiguration []) l p1
      (encode_ok _ _ (Forall_nil_2 _))) as Hs.
    by destruct (probe_send _ _) as [[] [l' p']].
  - destruct (_ && _); [|reflexivity]. destruct (bytes_eqb _ []); [reflexivity|].
    destruct (wifi_join_handler p); [|reflexivity]. destruct (call_join _ p) as [joined p1].
    destruct (negb joined); [reflexivity|].
    assert (bytes_ok (encode_bytes_parameter kWirelessCarPlayUpdate 0 [1])) as Hok
      by (apply encode_bytes_parameter_ok; bytes_solve).
    pose proof (probe_send_sends _ l p1 Hok) as Hs.
    destruct (probe_send _ _) as [[] [l' p']]; [|done]. by destruct (_ && _).
Qed.

Lemma probe_handle_all_sends fuel : forall l p, rtc control_send l (handle_all fuel (l, p)).1.
Proof.
  induction fuel as [|fuel IH]; intros l p; [reflexivity|]. cbn [handle_all].
  destruct (next _) as [[m|] d]; [|reflexivity].
  pose proof (probe_handle_sends m l (set_probe_decoder d p)) as Hs.
  destruct (handle m _) as [l' p']. etrans; [exact Hs|apply IH].
Qed.

Lemma probe_receive_sends bytes l p : rtc control_send l (receive bytes (l, p)).1.
Proof. apply probe_handle_all_sends. Qed.
End ProbeFacts.

(** A parameter list, one [append_parameter] at a time. *)
Lemma append_parameter_encode output id value :
  append_parameter output id value = output ++ encode_parameter (id, value).
Proof.
  unfold append_parameter, append_u16, encode_parameter, u16_field. cbn [fst snd].
  assert (forall x, u8 (Z.land x 255) = u8 x) as E.
  { intros x. rewrite land255. unfold wrap. change (2 ^ 8) with 256. by rewrite Z.mod_mod. }
  rewrite !E, <- !app_assoc. done.
Qed.

Lemma attributes_encode available identifier :
  identifier <> [] ->
  attributes available identifier =
  concat (map encode_parameter [(0, [if available then 1 else 0]); (1, identifier ++ [0])]).
Proof.
  intros Hi. unfold attributes.
  assert (bytes_eqb identifier [] = false) as -> by (apply not_true_iff_false; by rewrite bytes_eqb_eq).
  cbn [negb]. rewrite !append_parameter_encode. simpl. by rewrite app_nil_r.
Qed.

Lemma string_parameter_snoc message id value :
  first_bytes_parameter (msg_payload message) id = Some (value ++ [0]) ->
  string_parameter message id = value.
Proof.
  intros E. unfold string_parameter. rewrite E, last_snoc. simpl.
  by rewrite removelast_last.
Qed.

(** The accessory can read the CarPlay announcement: with a Bluetooth
    identifier of at most 65,000 octets, the message [begin] sends decodes to a
    [CarPlayAvailability] whose parameter 1 is an attribute list that says
    available and gives back the identifier. *)
Theorem availability_roundtrip identifier rest :
  identifier <> [] -> size_of identifier <= 65000 ->
  exists message wireless,
    next (mkDecoder (encode kCarPlayAvailability
            (append_parameter [] 1 (attributes true identifier)) ++ rest))
    = (Some message, mkDecoder rest) /\
    msg_id message = kCarPlayAvailability /\
    first_bytes_parameter (msg_payload message) 1 = Some wireless /\
    u8_parameter (mkMessage 0 wireless) 0 = 1 /\
    string_parameter (mkMessage 0 wireless) 1 = identifier.
Proof.
  intros Hi Hs. rewrite append_parameter_encode, attributes_encode by done. simpl app at 1.
  set (ps := [(0, [1]); (1, identifier ++ [0])]).
  assert (Forall parameter_ok ps) as Hps.
  { repeat constructor; cbn [fst snd]; rewrite ?size_app; unfold is_u, size_of in *; simpl; lia. }
  assert (size_of (concat (map encode_parameter ps)) = 10 + size_of identifier) as Hsz.
  { unfold ps, size_of. cbn [map concat]. rewrite !length_app, !length_encode_parameter. simpl.
    rewrite length_app. simpl. lia. }
  set (wireless := concat (map encode_parameter ps)) in *.
  assert (size_of (encode_parameter (1, wireless)) = 4 + size_of wireless) as Hsw
    by (unfold size_of; rewrite length_encode_parameter; simpl; lia).
  exists (mkMessage kCarPlayAvailability (encode_parameter (1, wireless))), wireless.
  split_and!.
  - apply next_message; [split; vm_compute; congruence|lia].
  - done.
  - cbn [msg_payload].
    rewrite <- (app_nil_r (encode_parameter (1, wireless))).
    change (encode_parameter (1, wireless) ++ []) with
      (concat (map encode_parameter [(1, wireless)])).
    rewrite first_bytes_parameter_find; [done|].
    repeat constructor; cbn [fst snd]; unfold is_u; lia.
  - unfold u8_parameter. cbn [msg_payload]. unfold wireless.
    by rewrite first_bytes_parameter_find.
  - apply string_parameter_snoc. cbn [msg_payload]. unfold wireless.
    by rewrite first_bytes_parameter_find.
Qed.

Lemma availability_roundtrip_witness :
  exists message wireless,
    next (mkDecoder (encode kCarPlayAvailability
            (append_parameter [] 1 (attributes true (bs "00:11:22:33:44:55"))) ++ [64]))
    = (Some message, mkDecoder [64]) /\
    msg_id message = kCarPlayAvailability /\
    first_bytes_parameter (msg_payload message) 1 = Some wireless /\
    u8_parameter (mkMessage 0 wireless) 0 = 1 /\
    string_parameter (mkMessage 0 wireless) 1 = bs "00:11:22:33:44:55".
Proof. apply availability_roundtrip; vm_compute; congruence. Defined.

(** When the probe finishes. Handling a message completes a probe that was
    not done exactly in two ways: a [CarPlayStartSession] when no Wi-Fi was
    asked for, or an awaited accessory Wi-Fi configuration with an SSID that,
    when a join handler is installed, was joined and reported, and whose probe
    then knows a host and a non-zero port. *)
Theorem probe_done_step `{Transport, Clock, WifiJoin} message l p :
  pr_done p = false -> pr_done (handle message (l, p)).2 = true ->
  let w := handle message (l, p) in
  let c := mkWifi (string_parameter message 1) (string_parameter message 2)
             (u8_parameter message 3) (u8_parameter message 4) in
  (msg_id message = kCarPlayStartSession /\ request_wifi p = false) \/
  (msg_id message = kAccessoryWifiConfiguration /\ awaiting_wifi_configuration p = true /\
   ssid c <> [] /\
   (wifi_join_handler p = true ->
    join_wifi c = true /\ airplay_host w.2 <> [] /\ airplay_port w.2 <> 0 /\
    (probe_send (encode_bytes_parameter kWirelessCarPlayUpdate 0 [1]) (l, (call_join c p).2)).1
    = true)).
Proof.
  intros Hd. unfold handle. cbv zeta.
  destruct (msg_id message =? kCarPlayStartSession) eqn:E1; bool_hyps.
  - destruct (negb (request_wifi _)) eqn:Er; [by left; bool_hyps|].
    set (p1 := set_airplay_endpoint _ _ p).
    pose proof (probe_send_probe (encode kRequestAccessoryWifiConfiguration []) l p1) as Hp.
    destruct (probe_send _ _) as [[] [l' p']]; simpl in *; subst p'; simpl; congruence.
  - destruct ((msg_id message =? kAccessoryWifiConfiguration) && _) eqn:E2; [|simpl; congruence].
    bool_hyps. set (c := mkWifi _ _ _ _).
    destruct (bytes_eqb (ssid c) []) eqn:E3; [simpl; congruence|].
    assert (ssid c <> []) as Hne by (intros E; rewrite E in E3; done).
    intros Hr. right. split_and!; try done. intros Hw. revert Hr. rewrite Hw.
    destruct (call_join c p) as [joined p1] eqn:Ej.
    assert (pr_done p1 = false) as Hd1.
    { unfold call_join in Ej. destruct (join_endpoint c) as [[h q]|]; simplify_eq; done. }
    assert (joined = join_wifi c) as -> by (unfold call_join in Ej; congruence).
    destruct (join_wifi c); simpl negb; cbv iota; [|simpl; congruence].
    pose proof (probe_send_probe (encode_bytes_parameter kWirelessCarPlayUpdate 0 [1]) l p1) as Hp.
    cbn [snd]. destruct (probe_send _ _) as [[] [l' p']]; simpl in *; subst p'; [|simpl; congruence].
    destruct (negb (bytes_eqb (airplay_host p1) []) && _) eqn:E4; [|simpl; congruence].
    bool_hyps. intros _. simpl. split_and!; try done. intros E. rewrite E in *. done.
Qed.

Lemma probe_done_step_witness :
  let p := new_probe [] in
  let m := mkMessage kCarPlayStartSession (encode_parameter (2, [0; 0; 27; 88])) in
  let i1 := {| transport_send _ _ := true; log_installed := false |} in
  let i2 := {| clock_now _ := 0 |} in
  let i3 := {| join_wifi _ := true; join_endpoint _ := None |} in
  airplay_port (@handle i1 i2 i3 m (new_link, p)).2 = 7000 /\
  (msg_id m = kCarPlayStartSession /\ request_wifi p = false \/
   msg_id m = kAccessoryWifiConfiguration /\ awaiting_wifi_configuration p = true /\
   string_parameter m 1 <> [] /\ (wifi_join_handler p = true -> False)).
Proof.
  intros p m i1 i2 i3. split; [vm_compute; reflexivity|].
  destruct (@probe_done_step i1 i2 i3 m new_link p eq_refl) as [Hs|(Hs & _)];
    [vm_compute; reflexivity|left; exact Hs|exfalso; revert Hs; vm_compute; congruence].
Defined.
