(* ===== verification/TcpClient.v ===== *)
(** * The TCP development client

    [src/src/iap2_tcp_main.cpp]: the program that runs the phone side of the
    iAP2 protocol over a TCP connection.  It puts the link, the bootstrap and
    the probe together: the control callback hands payloads to the probe once
    the bootstrap is done, and the main loop reads the socket, ticks the link
    and starts the two clients.  What [poll], [recv] and the clock return in
    each round is an argument. *)

From S2P Require Import Prelude Text LinkCodec PhoneLink LinkFacts Csm Bootstrap CarPlayProbe.
From stdpp Require Import relations.
#[local] Open Scope Z_scope.

(** ** Sockets *)

(** One address [getaddrinfo] returned: the descriptor [socket] gives for it and
    whether [connect] succeeds. *)
Record Address := mkAddress { addr_socket : Z; addr_connects : bool }.

Fixpoint connect_first (addresses : list Address) : Z :=
  match addresses with
  | [] => -1
  | a :: t => if (0 <=? addr_socket a) && addr_connects a then addr_socket a
              else connect_first t
  end.

(* src/src/iap2_tcp_main.cpp:20-44 connect_tcp *)
Definition connect_tcp (addresses : option (list Address)) : Z :=
  match addresses with None => -1 | Some l => connect_first l end.

(** [send] may take any part of what is left; [written] are its results. *)
(* src/src/iap2_tcp_main.cpp:46-57 send_all *)
Fixpoint send_all (written : list Z) (bytes : Bytes) : bool :=
  if bytes_eqb bytes [] then true
  else match written with
       | [] => false
       | n :: written => if n <=? 0 then false else send_all written (drop (Z.to_nat n) bytes)
       end.

(** ** Arguments *)

Record Options := mkOptions {
  host : Bytes;
  port : Bytes;
  timeout_seconds : Z;
  bootstrap : bool;
  carplay : bool;
  wifi_config : bool
}.

Definition default_options : Options :=
  mkOptions (bs "127.0.0.1") (bs "12346") 10 false false false.

(* src/src/iap2_tcp_main.cpp:62-97 main (arguments) *)
Fixpoint parse_arguments (arguments : list Bytes) (o : Options) : option Options :=
  match arguments with
  | [] => Some o
  | argument :: rest =>
      let flag name := bytes_eqb argument (bs name) in
      match rest with
      | value :: rest' =>
          if flag "--host"%string then
            parse_arguments rest' (mkOptions value (port o) (timeout_seconds o)
                                     (bootstrap o) (carplay o) (wifi_config o))
          else if flag "--port"%string then
            parse_arguments rest' (mkOptions (host o) value (timeout_seconds o)
                                     (bootstrap o) (carplay o) (wifi_config o))
          else if flag "--timeout"%string then
            let t := default 10 (stoi value) in
            parse_arguments rest' (mkOptions (host o) (port o) (if t <=? 0 then 10 else t)
                                     (bootstrap o) (carplay o) (wifi_config o))
          else if flag "--bootstrap"%string then
            parse_arguments rest (mkOptions (host o) (port o) (timeout_seconds o)
                                    true (carplay o) (wifi_config o))
          else if flag "--carplay"%string then
            parse_arguments rest (mkOptions (host o) (port o) (timeout_seconds o)
                                    true true (wifi_config o))
          else if flag "--wifi-config"%string then
            parse_arguments rest (mkOptions (host o) (port o) (timeout_seconds o) true true true)
          else None
      | [] =>
          if flag "--bootstrap"%string then
            Some (mkOptions (host o) (port o) (timeout_seconds o) true (carplay o) (wifi_config o))
          else if flag "--carplay"%string then
            Some (mkOptions (host o) (port o) (timeout_seconds o) true true (wifi_config o))
          else if flag "--wifi-config"%string then
            Some (mkOptions (host o) (port o) (timeout_seconds o) true true true)
          else None
      end
  end.

(** ** The main loop *)

(** What the socket has in a round: nothing, or the octets [recv] returned
    (none when the peer closed or the read failed). *)
Inductive Poll := NotReadable | Readable (bytes : Bytes).

(** A round: the clock at the loop test, the result of [poll], the clock after. *)
Record Turn := mkTurn { turn_start : Z; turn_poll : Poll; turn_now : Z }.

Definition Clients : Type := BootstrapSession * CarPlayProbe.

Section Main.
Context `{Transport, Clock, Random, OpenSSL, WifiJoin}.

(* src/src/iap2_tcp_main.cpp:116-123 main (control callback) *)
Definition on_control (carplay : bool) (bytes : Bytes) (w : PhoneLink * Clients)
    : PhoneLink * Clients :=
  let '(l, (session, probe)) := w in
  if carplay && Bootstrap.done session then
    let '(l, probe) := CarPlayProbe.receive bytes (l, probe) in (l, (session, probe))
  else
    let '(l, session) := Bootstrap.receive bytes (l, session) in (l, (session, probe)).

Definition dispatch (carplay : bool) : control_callback Clients := Some (on_control carplay).

(* src/src/iap2_tcp_main.cpp:132-137 main (loop condition) *)
Definition keep_running (o : Options) (deadline clock : Z) (w : PhoneLink * Clients) : bool :=
  let '(l, (session, probe)) := w in
  (clock <? deadline) && negb (state_eqb (state l) Dead)
  && (negb (bootstrap o)
      || (if carplay o then negb (pr_done probe) && negb (pr_failed probe)
          else negb (Bootstrap.done session) && negb (Bootstrap.failed session)))
  && (bootstrap o || negb (state_eqb (state l) Normal)).

(* src/src/iap2_tcp_main.cpp:151-158 main (after the socket) *)
Definition after_poll (o : Options) (now : Z) (w : PhoneLink * Clients) : PhoneLink * Clients :=
  let '(l, (session, probe)) := w in
  let l := tick now l in
  let '(l, session) :=
    if bootstrap o && state_eqb (state l) Normal && negb (Bootstrap.started session)
    then Bootstrap.begin (l, session) else (l, session) in
  let '(l, probe) :=
    if carplay o && Bootstrap.done session && negb (pr_started probe)
    then CarPlayProbe.begin (l, probe) else (l, probe) in
  (l, (session, probe)).

(** [None]: the rounds given are used up and the loop still runs. *)
(* src/src/iap2_tcp_main.cpp:132-159 main (loop) *)
Fixpoint main_loop (o : Options) (deadline : Z) (turns : list Turn) (w : PhoneLink * Clients)
    : option (PhoneLink * Clients) :=
  match turns with
  | [] => None
  | t :: turns =>
      if negb (keep_running o deadline (turn_start t) w) then Some w
      else match turn_poll t with
           | Readable [] => Some w
           | Readable bytes =>
               main_loop o deadline turns
                 (after_poll o (turn_now t)
                    (PhoneLink.receive (dispatch (carplay o)) bytes (turn_now t) w))
           | NotReadable => main_loop o deadline turns (after_poll o (turn_now t) w)
           end
  end.

(* src/src/iap2_tcp_main.cpp:161-165 main (exit code) *)
Definition exit_code (o : Options) (w : PhoneLink * Clients) : Z :=
  let '(l, (session, probe)) := w in
  if carplay o then (if pr_done probe then 0 else 1)
  else if bootstrap o then (if Bootstrap.done session then 0 else 1)
  else if state_eqb (state l) Normal then 0 else 1.

(* src/src/iap2_tcp_main.cpp:107-129 main (objects) *)
Definition initial (o : Options) (now : Z) : PhoneLink * Clients :=
  (start now new_link,
   (Bootstrap.attach new_bootstrap,
    request_wifi_configuration (wifi_config o) (CarPlayProbe.attach (new_probe [])))).

(** [None] when the turns given end before the program does. *)
(* src/src/iap2_tcp_main.cpp:61-166 main *)
Definition main (arguments : list Bytes) (addresses : option (list Address))
    (clock_deadline clock_start : Z) (turns : list Turn) : option (Z * (PhoneLink * Clients)) :=
  match parse_arguments arguments default_options with
  | None => Some (2, initial default_options 0)
  | Some o =>
      if connect_tcp addresses <? 0 then Some (1, initial o 0)
      else
        let deadline := clock_deadline + seconds (timeout_seconds o) in
        match main_loop o deadline turns (initial o clock_start) with
        | None => None
        | Some w => Some (exit_code o w, w)
        end
  end.

(** ** Facts *)

#[export] Instance dispatch_client carplay : ControlClient (dispatch carplay).
Proof.
  intros h payload l [s p] [= <-] _. unfold on_control. destruct (carplay && _).
  - pose proof (probe_receive_sends payload l p) as Hs.
    by destruct (CarPlayProbe.receive payload (l, p)).
  - pose proof (Bootstrap.receive_sends payload l s) as Hs.
    by destruct (Bootstrap.receive payload (l, s)).
Qed.

(** The clients of a run: a finished bootstrap is authenticated, and the probe
    has not finished before it. *)
Definition clients_ok (o : Options) (c : Clients) : Prop :=
  authenticated c.1 /\
  (carplay o = true -> pr_done c.2 = true -> stage c.1 = Done).

Lemma done_stage s : Bootstrap.done s = true <-> stage s = Done.
Proof. apply bool_decide_eq_true. Qed.

Lemma dispatch_ok o h payload l c :
  dispatch (carplay o) = Some h -> clients_ok o c -> clients_ok o (h payload (l, c)).2.
Proof.
  intros [= <-] Hc. destruct c as [s p], Hc as [Ha Hd]. cbn [fst snd] in *. unfold on_control.
  destruct (carplay o && Bootstrap.done s) eqn:E.
  - apply andb_prop in E as [Ec Es%done_stage].
    destruct (CarPlayProbe.receive payload (l, p)) as [l' p']. by split.
  - pose proof (handle_all_authenticated (S (length (csm_buffer (push payload (bs_decoder s)))))
      l (set_decoder (push payload (bs_decoder s)) s) Ha) as Ha'.
    unfold Bootstrap.receive. destruct (Bootstrap.handle_all _ _) as [l' s'].
    split; [exact Ha'|]. cbn [fst snd]. intros Hcp Hp. specialize (Hd Hcp Hp).
    rewrite Hcp in E. rewrite (proj2 (done_stage s) Hd) in E. done.
Qed.

Lemma begin_authenticated l s : authenticated (Bootstrap.begin (l, s)).2.
Proof.
  unfold Bootstrap.begin. by destruct (send_empty_session kStartIdentification l
    (set_stage AwaitIdentification s)) as [-> | ->].
Qed.

Lemma begin_not_done l p :
  pr_done (CarPlayProbe.begin (l, p)).2 = pr_done p.
Proof.
  unfold CarPlayProbe.begin. destruct (negb _); [done|].
  destruct (request_wifi p).
  - pose proof (probe_send_probe (encode kRequestAccessoryWifiConfiguration []) l p) as Hp.
    destruct (probe_send _ _) as [[] [l' p']]; simpl in *; by subst p'.
  - destruct (bytes_eqb _ []); [done|]. set (request := encode _ _).
    pose proof (probe_send_probe request l p) as Hp.
    destruct (probe_send _ _) as [[] [l' p']]; simpl in *; by subst p'.
Qed.

Lemma after_poll_ok o now w : clients_ok o w.2 -> clients_ok o (after_poll o now w).2.
Proof.
  destruct w as [l [s p]]. cbn [snd]. intros Hc. unfold after_poll. set (l1 := tick now l).
  destruct (if bootstrap o && _ && _ then _ else _) as [l2 s2] eqn:E2.
  assert (clients_ok o (s2, p)) as Hc2.
  { destruct (bootstrap o && _ && _) eqn:Eb; [|by simplify_eq].
    apply andb_prop in Eb as [_ Eb]. pose proof (begin_authenticated l1 s) as Ha.
    rewrite E2 in Ha. split; [exact Ha|]. cbn [fst snd]. intros Hcp Hp.
    destruct Hc as [_ Hd]. specialize (Hd Hcp Hp). cbn [fst] in Hd.
    unfold Bootstrap.started in Eb. rewrite Hd in Eb. done. }
  clear E2. destruct (carplay o && _ && _) eqn:Ec; [|done].
  pose proof (begin_not_done l2 p) as Hp. destruct (CarPlayProbe.begin (l2, p)) as [l3 p3].
  destruct Hc2 as [Ha Hd]. split; [done|]. cbn [fst snd] in *. by rewrite Hp.
Qed.

Lemma main_loop_ok o deadline turns : forall w w',
  clients_ok o w.2 -> main_loop o deadline turns w = Some w' -> clients_ok o w'.2.
Proof.
  induction turns as [|t turns IH]; intros w w' Hc; [done|]. cbn [main_loop].
  destruct (negb _); [by intros [= <-]|].
  destruct (turn_poll t) as [|[|b bytes]].
  - by apply IH, after_poll_ok.
  - by intros [= <-].
  - apply IH, after_poll_ok. destruct w as [l c].
    apply receive_client; [apply dispatch_ok|exact Hc].
Qed.
End Main.

(** ** Theorems *)

(** Success of the client means authentication. When the program exits with
    code 0 after being asked for the bootstrap or for CarPlay, the accessory
    has proved possession of the key of the certificate the session holds: a
    signature over the session's challenge passes [verify_mfi_v2_signature]. *)
Theorem exit_0_authenticated `{Transport, Clock, Random, OpenSSL, WifiJoin}
    arguments addresses clock_deadline clock_start turns o l session probe :
  parse_arguments arguments default_options = Some o ->
  bootstrap o || carplay o = true ->
  main arguments addresses clock_deadline clock_start turns = Some (0, (l, (session, probe))) ->
  exists signature, verify_mfi_v2_signature (challenge session) signature (certificate session) = true.
Proof.
  intros Ho Hb. unfold main. rewrite Ho. destruct (_ <? 0); [done|].
  destruct (main_loop _ _ _ _) as [w|] eqn:El; [|done]. intros [= He ->].
  apply main_loop_ok in El as [Ha Hd];
    [|split; [intros E; discriminate E|intros _ E; discriminate E]]. apply Ha. cbn [fst snd] in *.
  unfold exit_code in He. destruct (carplay o).
  - destruct (pr_done probe); [by apply Hd|discriminate].
  - rewrite orb_false_r in Hb. rewrite Hb in He.
    destruct (Bootstrap.done session) eqn:Es; [by apply done_stage|discriminate].
Qed.

(** The client stops at its deadline: if the clock shows the deadline at one
    of the rounds given, the program has exited, with code 0, 1 or 2. *)
Theorem main_stops_at_deadline `{Transport, Clock, Random, OpenSSL, WifiJoin}
    arguments addresses clock_deadline clock_start turns :
  (exists t, In t turns /\
     forall o, parse_arguments arguments default_options = Some o ->
       clock_deadline + seconds (timeout_seconds o) <= turn_start t) ->
  exists code w, main arguments addresses clock_deadline clock_start turns = Some (code, w) /\
    (code = 0 \/ code = 1 \/ code = 2).
Proof.
  intros (t & Hin & Ht). unfold main.
  destruct (parse_arguments _ _) as [o|]; [|do 2 eexists; split; [reflexivity|auto]].
  destruct (_ <? 0); [do 2 eexists; split; [reflexivity|auto]|].
  specialize (Ht o eq_refl). set (deadline := clock_deadline + _) in *.
  assert (exists w, main_loop o deadline turns (initial o clock_start) = Some w) as [w ->].
  { generalize (initial o clock_start). clearbody deadline.
    induction turns as [|t' turns IH]; intros w; [done|]. cbn [main_loop].
    destruct (negb (keep_running o deadline (turn_start t') w)) eqn:Ek; [by eauto|].
    destruct Hin as [->|Hin].
    - exfalso. apply negb_false_iff in Ek. destruct w as [l [s p]]. cbn in Ek.
      apply andb_prop in Ek as [[[Ek _]%andb_prop _]%andb_prop _]. bool_hyps. lia.
    - destruct (turn_poll t') as [|[|b bytes]]; [by apply IH|by eauto|by apply IH]. }
  exists (exit_code o w), w. split; [done|]. unfold exit_code. destruct w as [l [s p]].
  repeat case_match; auto.
Qed.

(** ** A run of the program *)

Module Demo.
Import Bootstrap.Demo.
#[local] Instance demo_join : WifiJoin :=
  {| join_wifi _ := true; join_endpoint _ := None |}.
#[local] Existing Instances demo_openssl demo_clock demo_random demo_transport.

Definition frame (ctrl seq ack sid : Z) (payload : Bytes) : Bytes :=
  encode_header (mkHeader (if bytes_eqb payload [] then 9 else size_of payload + 10)
                   ctrl seq ack sid)
  ++ (if bytes_eqb payload [] then [] else payload ++ [checksum payload]).

Definition peer_lsp : Lsp := mkLsp 8 65535 0 0 0 0 [mkSession 1 0 2].

(** What the accessory sends, one read per round, each acknowledging what it
    has received. *)
Definition reads : list Bytes :=
  [ kMarker; frame kControlSyn 3 100 0 (encode_lsp peer_lsp); frame kControlAck 3 100 0 [];
    frame kControlAck 4 101 1 (encode kIdentificationInformation []);
    frame kControlAck 5 103 1 (encode_bytes_parameter kAuthenticationCertificate 0 [1; 2; 3]);
    frame kControlAck 6 104 1 (encode_bytes_parameter kAuthenticationResponse 0
      [13; 12; 11; 10; 9; 8; 7; 6; 5; 4; 3; 2; 1; 0; 255; 254; 253; 252; 251; 250]) ].

Definition turns : list Turn :=
  map (fun b => mkTurn 0 (Readable b) 0) reads ++ [mkTurn 0 NotReadable 0; mkTurn 10000000000 NotReadable 0].

Abbreviation run := (@main demo_transport demo_clock demo_random demo_openssl demo_join
  [bs "--bootstrap"] (Some [mkAddress 3 true]) 0 0 turns).

Example run_succeeds : option_map fst run = Some 0.
Proof. vm_compute. reflexivity. Qed.
End Demo.

Lemma exit_0_authenticated_witness :
  exists l session probe, Demo.run = Some (0, (l, (session, probe))) /\
  exists signature, @verify_mfi_v2_signature Bootstrap.Demo.demo_openssl
    (challenge session) signature (certificate session) = true.
Proof.
  destruct Demo.run as [[code [l [session probe]]]|] eqn:E;
    [|exfalso; assert (option_map fst Demo.run = Some 0) by (vm_compute; reflexivity); rewrite E in *; done].
  assert (code = 0) as ->.
  { assert (option_map fst Demo.run = Some 0) as Hc by (vm_compute; reflexivity).
    rewrite E in Hc. by injection Hc. }
  exists l, session, probe. split; [reflexivity|].
  apply (@exit_0_authenticated Bootstrap.Demo.demo_transport Bootstrap.Demo.demo_clock
    Bootstrap.Demo.demo_random Bootstrap.Demo.demo_openssl Demo.demo_join
    [bs "--bootstrap"] (Some [mkAddress 3 true]) 0 0 Demo.turns
    (mkOptions (bs "127.0.0.1") (bs "12346") 10 true false false) l session probe);
    [vm_compute; reflexivity|reflexivity|exact E].
Defined.

Lemma main_stops_at_deadline_witness :
  exists code w, Demo.run = Some (code, w) /\ (code = 0 \/ code = 1 \/ code = 2).
Proof.
  apply (@main_stops_at_deadline Bootstrap.Demo.demo_transport Bootstrap.Demo.demo_clock
    Bootstrap.Demo.demo_random Bootstrap.Demo.demo_openssl Demo.demo_join).
  exists (mkTurn 10000000000 NotReadable 0). split; [vm_compute; tauto|].
  intros o [= <-]. vm_compute. congruence.
Defined.
