(* ===== verification/Crypto.v ===== *)
(** * The cryptographic helpers of the AirPlay code

    [src/include/aa2acp/airplay/crypto.hpp] and [src/src/airplay/crypto.cpp]:
    thin wrappers with their own length checks over OpenSSL's EVP interface.
    The EVP operations are the class [EVP], each [None] when OpenSSL reports a
    failure; [EVPLaws] is what their documentation promises of the cipher.
    [CryptoCalls] gives both from the single calls to OpenSSL. *)

From S2P Require Import Prelude Text.
#[local] Open Scope Z_scope.

Class EVP := {
  (** ChaCha20-Poly1305 of a key, nonce, associated data and plaintext: the
      ciphertext and the 16-octet tag. *)
  evp_encrypt : Bytes -> Bytes -> Bytes -> Bytes -> option (Bytes * Bytes);
  (** Decryption of a ciphertext and tag; [None] when the tag does not match. *)
  evp_decrypt : Bytes -> Bytes -> Bytes -> Bytes -> Bytes -> option Bytes;
  evp_hkdf_sha512 : Bytes -> Bytes -> Bytes -> nat -> option Bytes;
  evp_sign_ed25519 : Bytes -> Bytes -> option Bytes;
  evp_verify_ed25519 : Bytes -> Bytes -> Bytes -> bool;
  (** The n-th key pair generated (private, public), for either curve. *)
  evp_keygen_ed25519 : nat -> option (Bytes * Bytes);
  evp_keygen_x25519 : nat -> option (Bytes * Bytes);
  evp_derive_x25519 : Bytes -> Bytes -> option Bytes
}.

Class EVPLaws `{EVP} : Prop := {
  evp_encrypt_lengths : forall key nonce aad plain ciphertext tag,
    evp_encrypt key nonce aad plain = Some (ciphertext, tag) ->
    length ciphertext = length plain /\ length tag = 16%nat;
  evp_decrypt_encrypt : forall key nonce aad plain ciphertext tag,
    evp_encrypt key nonce aad plain = Some (ciphertext, tag) ->
    evp_decrypt key nonce aad ciphertext tag = Some plain
}.

Section Helpers.
Context `{EVP}.

(* src/src/airplay/crypto.cpp:19-25 nonce_for_label *)
Definition nonce_for_label (label : Bytes) : Bytes :=
  let used := take 8 label in [0; 0; 0; 0] ++ used ++ repeat 0 (8 - length used).

(* src/src/airplay/crypto.cpp:29-50 hkdf_sha512 *)
Definition hkdf_sha512 (ikm salt info : Bytes) (length : nat) : Bytes :=
  default [] (evp_hkdf_sha512 ikm salt info length).

(* src/src/airplay/crypto.cpp:58-84 seal_with_nonce *)
Definition seal_with_nonce (key nonce plaintext aad : Bytes) : option Bytes :=
  if negb (size_of key =? 32) || negb (size_of nonce =? 12) then None
  else match evp_encrypt key nonce aad plaintext with
       | None => None
       | Some (ciphertext, tag) => Some (ciphertext ++ tag)
       end.

(* src/src/airplay/crypto.cpp:52-56 seal *)
Definition seal (key label plaintext : Bytes) : option Bytes :=
  seal_with_nonce key (nonce_for_label label) plaintext [].

(* src/src/airplay/crypto.cpp:92-120 open_with_nonce *)
Definition open_with_nonce (key nonce ciphertext aad : Bytes) : option Bytes :=
  if negb (size_of key =? 32) || negb (size_of nonce =? 12) || (size_of ciphertext <? 16)
  then None
  else
    let encrypted_size := (length ciphertext - 16)%nat in
    evp_decrypt key nonce aad (take encrypted_size ciphertext) (drop encrypted_size ciphertext).

(* src/src/airplay/crypto.cpp:86-90 open *)
Definition open (key label ciphertext : Bytes) : option Bytes :=
  open_with_nonce key (nonce_for_label label) ciphertext [].

(* src/src/airplay/crypto.cpp:122-144 ed25519_generate *)
Definition ed25519_generate (n : nat) : option (Bytes * Bytes) := evp_keygen_ed25519 n.

(* src/src/airplay/crypto.cpp:146-163 ed25519_sign *)
Definition ed25519_sign (private_key data : Bytes) : option Bytes :=
  evp_sign_ed25519 private_key data.

(* src/src/airplay/crypto.cpp:165-177 ed25519_verify *)
Definition ed25519_verify (public_key data signature : Bytes) : bool :=
  evp_verify_ed25519 public_key data signature.

(* src/src/airplay/crypto.cpp:179-201 x25519_generate *)
Definition x25519_generate (n : nat) : option (Bytes * Bytes) := evp_keygen_x25519 n.

(* src/src/airplay/crypto.cpp:203-232 x25519_shared *)
Definition x25519_shared (private_key public_key : Bytes) : option Bytes :=
  match evp_derive_x25519 private_key public_key with
  | None => None
  | Some shared => if forallb (fun byte => byte =? 0) shared then None else Some shared
  end.
End Helpers.

(** ** Facts *)

Section HelperFacts.
Context `{EVPLaws}.

Lemma open_seal_with_nonce key nonce plaintext aad sealed :
  seal_with_nonce key nonce plaintext aad = Some sealed ->
  open_with_nonce key nonce sealed aad = Some plaintext.
Proof.
  unfold seal_with_nonce, open_with_nonce.
  destruct (negb (size_of key =? 32) || negb (size_of nonce =? 12)); [done|].
  destruct (evp_encrypt key nonce aad plaintext) as [[c t]|] eqn:E; [|done]. intros [= <-].
  destruct (evp_encrypt_lengths _ _ _ _ _ _ E) as [Hc Ht].
  rewrite (proj2 (Z.ltb_ge _ 16)) by (unfold size_of; rewrite length_app; lia). cbn [orb].
  replace (length (c ++ t) - 16)%nat with (length c) by (rewrite length_app; lia).
  rewrite take_app_length, drop_app_length. by apply evp_decrypt_encrypt.
Qed.

Lemma seal_with_nonce_length key nonce plaintext aad sealed :
  seal_with_nonce key nonce plaintext aad = Some sealed ->
  length sealed = (length plaintext + 16)%nat.
Proof.
  unfold seal_with_nonce.
  destruct (negb (size_of key =? 32) || negb (size_of nonce =? 12)); [done|].
  destruct (evp_encrypt key nonce aad plaintext) as [[c t]|] eqn:E; [|done]. intros [= <-].
  destruct (evp_encrypt_lengths _ _ _ _ _ _ E) as [Hc Ht]. rewrite length_app. lia.
Qed.

Lemma open_seal key label plaintext sealed :
  seal key label plaintext = Some sealed -> open key label sealed = Some plaintext.
Proof. apply open_seal_with_nonce. Qed.
End HelperFacts.

(** A toy cipher for the examples: the tag is the length of the plaintext and
    the sum of the nonce, and the octets stand in the clear. *)
Module Toy.
Definition toy_tag (nonce plain : Bytes) : Bytes :=
  u8 (size_of plain) :: u8 (fold_left Z.add nonce 0) :: repeat 7 14.

Definition toy_evp : EVP := {|
  evp_encrypt _ nonce _ plain := Some (plain, toy_tag nonce plain);
  evp_decrypt _ nonce _ c t := if bytes_eqb t (toy_tag nonce c) then Some c else None;
  evp_hkdf_sha512 ikm _ _ n := Some (take n (ikm ++ repeat 1 n));
  evp_sign_ed25519 k d := Some (k ++ d);
  evp_verify_ed25519 k d s := bytes_eqb s (k ++ d);
  evp_keygen_ed25519 n := Some (repeat (Z.of_nat n) 32, repeat (Z.of_nat n) 32);
  evp_keygen_x25519 n := Some (repeat (Z.of_nat n) 32, repeat (Z.of_nat n) 32);
  evp_derive_x25519 a b := Some (zip_with Z.add a b) |}.

Lemma toy_laws : @EVPLaws toy_evp.
Proof.
  split; cbn.
  - intros ? ? ? ? ? ? [= <- <-]. done.
  - intros ? ? ? ? ? ? [= <- <-]. by rewrite bytes_eqb_refl.
Qed.
End Toy.
