(* ===== verification/CryptoCalls.v ===== *)
(** * The cryptographic helpers, call by call

    [src/src/airplay/crypto.cpp] under the operations of [Crypto]: the contexts and
    keys of OpenSSL with their owners, the buffers the calls write into, the sizes
    that are passed as [int], and the order of the calls.  OpenSSL is the class
    [OpenSSL] with its documented behaviour in [OpenSSLLaws]; from it come the
    operations and laws that the rest of the development asks for ([calls_evp],
    [calls_laws]). *)

From stdpp Require Import option.
From S2P Require Import Prelude Text Fallible Crypto.
#[local] Open Scope Z_scope.

Definition INT_MAX : Z := 2147483647.
Definition int_of (n : Z) : Z := let y := n mod 2 ^ 32 in if y <? 2 ^ 31 then y else y - 2 ^ 32.

Lemma int_of_id n : 0 <= n <= INT_MAX -> int_of n = n.
Proof.
  unfold int_of, INT_MAX. intros Hn. rewrite Z.mod_small by lia.
  by replace (n <? 2 ^ 31) with true by (symmetry; apply Z.ltb_lt; lia).
Qed.

Inductive KeyKind := Ed25519 | X25519.

(** A call gives the object as it is afterwards and the octets it wrote; [None] is a
    result other than one. A size stands before the octets it is for, or is the
    room for those that are written. *)
Class OpenSSL := {
  CipherContext : Type;
  cipher_fresh : CipherContext;
  encrypt_init : Bytes -> Bytes -> CipherContext -> option CipherContext;
  encrypt_aad : Z -> Bytes -> CipherContext -> option CipherContext;
  encrypt_update : Z -> Bytes -> CipherContext -> option (CipherContext * Bytes);
  encrypt_final : CipherContext -> option (CipherContext * Bytes);
  get_tag : nat -> CipherContext -> option Bytes;
  decrypt_init : Bytes -> Bytes -> CipherContext -> option CipherContext;
  decrypt_aad : Z -> Bytes -> CipherContext -> option CipherContext;
  decrypt_update : Z -> Bytes -> CipherContext -> option (CipherContext * Bytes);
  set_tag : Bytes -> CipherContext -> option CipherContext;
  decrypt_final : CipherContext -> option Bytes;
  Key : Type;
  new_raw_private_key : KeyKind -> Bytes -> option Key;
  new_raw_public_key : KeyKind -> Bytes -> option Key;
  get_raw_private_key : Key -> nat -> option Bytes;
  get_raw_public_key : Key -> nat -> option Bytes;
  KeyContext : Type;
  key_context : KeyKind -> option KeyContext;
  keygen_init : KeyContext -> option KeyContext;
  (** The key depends on the random numbers of the moment. *)
  keygen : nat -> KeyContext -> option Key;
  hkdf_context : option KeyContext;
  derive_init : KeyContext -> option KeyContext;
  set_sha512 : KeyContext -> option KeyContext;
  set_salt : Z -> Bytes -> KeyContext -> option KeyContext;
  set_key : Z -> Bytes -> KeyContext -> option KeyContext;
  add_info : Z -> Bytes -> KeyContext -> option KeyContext;
  (** [EVP_PKEY_CTX_new] of a key that may be null. *)
  context_for : option Key -> option KeyContext;
  set_peer : Key -> KeyContext -> option KeyContext;
  derive : nat -> KeyContext -> option Bytes;
  DigestContext : Type;
  digest_fresh : DigestContext;
  sign_init : Key -> DigestContext -> option DigestContext;
  digest_sign : nat -> Bytes -> DigestContext -> option Bytes;
  verify_init : Key -> DigestContext -> option DigestContext;
  digest_verify : Bytes -> Bytes -> DigestContext -> bool
}.

(** Associated data that is empty is not passed at all. *)
Definition with_aad `{OpenSSL} (update : Z -> Bytes -> CipherContext -> option CipherContext) (size : Z) (aad : Bytes)
    (c : CipherContext) : option CipherContext :=
  match aad with [] => Some c | _ => update size aad c end.

(** ** Owners and buffers *)

(** The objects that exist, the number of the next one, and whether something was
    freed that is not there or written where there is no room. *)
Record Memory := mkMemory { next : nat; live : list nat; broken : bool }.

Definition release (n : nat) (m : Memory) : Memory :=
  match live m with
  | o :: rest => mkMemory (next m) rest (broken m || negb (Nat.eqb o n))
  | [] => mkMemory (next m) [] true
  end.

Section Calls.
Context `{OpenSSL}.
(** Whether there was memory for the n-th object. *)
Variable memory_left : nat -> bool.

(** An object in a [unique_ptr]: the body has it, or a null pointer, and it is freed
    behind the body. *)
(* src/src/airplay/crypto.cpp:13-17 PkeyContext, Pkey, CipherContext, DigestContext *)
Definition hold {O A} (make : nat -> option O) (body : option O -> Fallible Memory A) : Fallible Memory A := fun m =>
  let n := next m in
  match (if memory_left n then make n else None) with
  | None => body None (mkMemory (S n) (live m) (broken m))
  | Some o => let '(r, m) := body (Some o) (mkMemory (S n) (n :: live m) (broken m)) in (r, release n m)
  end.

(** What a call writes into a buffer at an offset. *)
Definition put (offset : nat) (written buffer : Bytes) : Fallible Memory Bytes := fun m =>
  if (offset + length written <=? length buffer)%nat
  then (Some (take offset buffer ++ written ++ drop (offset + length written) buffer), m)
  else (None, mkMemory (next m) (live m) true).

Definition resize (n : nat) (buffer : Bytes) : Bytes := take n buffer ++ repeat 0 (n - length buffer).

(** ** The helpers *)

(* src/src/airplay/crypto.cpp:29-50 hkdf_sha512 *)
Definition derive_hkdf (ikm salt info : Bytes) (size : nat) : Fallible Memory Bytes :=
  hold (fun _ => hkdf_context) (fun context =>
    c ← from_option context;
    c ← from_option (derive_init c);
    c ← from_option (set_sha512 c);
    c ← from_option (set_salt (int_of (size_of salt)) salt c);
    c ← from_option (set_key (int_of (size_of ikm)) ikm c);
    c ← from_option (add_info (int_of (size_of info)) info c);
    key ← from_option (derive size c);
    output ← put 0 key (repeat 0 size);
    mret (resize (length key) output)).

(* src/src/airplay/crypto.cpp:58-84 seal_with_nonce *)
Definition seal_with_nonce (key nonce plaintext aad : Bytes) : Fallible Memory Bytes :=
  if negb (size_of key =? 32) || negb (size_of nonce =? 12) then from_option None
  else hold (fun _ => Some cipher_fresh) (fun context =>
    c ← from_option context;
    c ← from_option (encrypt_init key nonce c);
    c ← from_option (with_aad encrypt_aad (int_of (size_of aad)) aad c);
    ce ← from_option (encrypt_update (int_of (size_of plaintext)) plaintext c);
    output ← put 0 ce.2 (repeat 0 (length plaintext + 16));
    cf ← from_option (encrypt_final ce.1);
    output ← put (length ce.2) cf.2 output;
    tag ← from_option (get_tag 16 cf.1);
    output ← put (length ce.2 + length cf.2) tag output;
    mret (resize (length ce.2 + length cf.2 + 16) output)).

(* src/src/airplay/crypto.cpp:92-120 open_with_nonce *)
Definition open_with_nonce (key nonce ciphertext aad : Bytes) : Fallible Memory Bytes :=
  if negb (size_of key =? 32) || negb (size_of nonce =? 12) || (size_of ciphertext <? 16) then from_option None
  else hold (fun _ => Some cipher_fresh) (fun context =>
    let encrypted_size := (length ciphertext - 16)%nat in
    c ← from_option context;
    c ← from_option (decrypt_init key nonce c);
    c ← from_option (with_aad decrypt_aad (int_of (size_of aad)) aad c);
    cp ← from_option (decrypt_update (int_of (Z.of_nat encrypted_size)) (take encrypted_size ciphertext) c);
    output ← put 0 cp.2 (repeat 0 encrypted_size);
    c ← from_option (set_tag (drop encrypted_size ciphertext) cp.1);
    f ← from_option (decrypt_final c);
    output ← put (length cp.2) f output;
    mret (resize (length cp.2 + length f) output)).

(* src/src/airplay/crypto.cpp:122-144 ed25519_generate *)
Definition generate (kind : KeyKind) : Fallible Memory (Bytes * Bytes) :=
  hold (fun _ => key_context kind) (fun context =>
    c ← from_option context;
    c ← from_option (keygen_init c);
    hold (fun n => keygen n c) (fun key =>
      k ← from_option key;
      private ← from_option (get_raw_private_key k 32);
      private_key ← put 0 private (repeat 0 32);
      public ← from_option (get_raw_public_key k 32);
      public_key ← put 0 public (repeat 0 32);
      mret (resize (length private) private_key, resize (length public) public_key))).

(* src/src/airplay/crypto.cpp:122-122 ed25519_generate *)
Definition ed25519_generate : Fallible Memory (Bytes * Bytes) := generate Ed25519.
(* src/src/airplay/crypto.cpp:179-201 x25519_generate *)
Definition x25519_generate : Fallible Memory (Bytes * Bytes) := generate X25519.

(* src/src/airplay/crypto.cpp:146-163 ed25519_sign *)
Definition ed25519_sign (private_key data : Bytes) : Fallible Memory Bytes :=
  hold (fun _ => new_raw_private_key Ed25519 private_key) (fun key =>
    hold (fun _ => Some digest_fresh) (fun context =>
      k ← from_option key;
      c ← from_option context;
      c ← from_option (sign_init k c);
      signature ← from_option (digest_sign 64 data c);
      output ← put 0 signature (repeat 0 64);
      mret (resize (length signature) output))).

(** The function returns whether there is a result. *)
(* src/src/airplay/crypto.cpp:165-177 ed25519_verify *)
Definition ed25519_verify (public_key data signature : Bytes) : Fallible Memory unit :=
  hold (fun _ => new_raw_public_key Ed25519 public_key) (fun key =>
    hold (fun _ => Some digest_fresh) (fun context =>
      k ← from_option key;
      c ← from_option context;
      c ← from_option (verify_init k c);
      check (digest_verify signature data c))).

(* src/src/airplay/crypto.cpp:203-232 x25519_shared *)
Definition x25519_shared (private_key public_key : Bytes) : Fallible Memory Bytes :=
  hold (fun _ => new_raw_private_key X25519 private_key) (fun private_pkey =>
    hold (fun _ => new_raw_public_key X25519 public_key) (fun public_pkey =>
      hold (fun _ => context_for private_pkey) (fun context =>
        _ ← from_option private_pkey;
        public ← from_option public_pkey;
        c ← from_option context;
        c ← from_option (derive_init c);
        c ← from_option (set_peer public c);
        secret ← from_option (derive 32 c);
        output ← put 0 secret (repeat 0 32);
        let shared := resize (length secret) output in
        if forallb (fun byte => byte =? 0) shared then from_option None else mret shared))).
End Calls.

(** ** What the calls amount to *)

Section Pure.
Context `{OpenSSL}.

(** The octets of an encryption, and of a decryption, as long as the sizes are an
    [int]. *)
Definition encryption (key nonce aad plain : Bytes) : option (Bytes * Bytes) :=
  if (INT_MAX <? size_of plain) || (INT_MAX <? size_of aad) then None
  else
    c ← encrypt_init key nonce cipher_fresh;
    c ← with_aad encrypt_aad (size_of aad) aad c;
    ce ← encrypt_update (size_of plain) plain c;
    cf ← encrypt_final ce.1;
    tag ← get_tag 16 cf.1;
    Some (ce.2 ++ cf.2, tag).

Definition decryption (key nonce aad encrypted tag : Bytes) : option Bytes :=
  if (INT_MAX <? size_of encrypted) || (INT_MAX <? size_of aad) then None
  else
    c ← decrypt_init key nonce cipher_fresh;
    c ← with_aad decrypt_aad (size_of aad) aad c;
    cp ← decrypt_update (size_of encrypted) encrypted c;
    c ← set_tag tag cp.1;
    f ← decrypt_final c;
    Some (cp.2 ++ f).

Definition key_derivation (ikm salt info : Bytes) (size : nat) : option Bytes :=
  if (INT_MAX <? size_of ikm) || (INT_MAX <? size_of salt) || (INT_MAX <? size_of info) then None
  else
    c ← hkdf_context;
    c ← derive_init c;
    c ← set_sha512 c;
    c ← set_salt (size_of salt) salt c;
    c ← set_key (size_of ikm) ikm c;
    c ← add_info (size_of info) info c;
    derive size c.

(** The context is object [n] and the key the next one. *)
Definition generated (kind : KeyKind) (n : nat) : option (Bytes * Bytes) :=
  c ← key_context kind;
  c ← keygen_init c;
  k ← keygen (S n) c;
  private ← get_raw_private_key k 32;
  public ← get_raw_public_key k 32;
  Some (private, public).

Definition signature_of (private_key data : Bytes) : option Bytes :=
  k ← new_raw_private_key Ed25519 private_key;
  c ← sign_init k digest_fresh;
  digest_sign 64 data c.

Definition signature_ok (public_key data signature : Bytes) : bool :=
  match (k ← new_raw_public_key Ed25519 public_key; verify_init k digest_fresh) with
  | Some c => digest_verify signature data c
  | None => false
  end.

Definition secret_of (private_key public_key : Bytes) : option Bytes :=
  k ← new_raw_private_key X25519 private_key;
  public ← new_raw_public_key X25519 public_key;
  c ← context_for (Some k);
  c ← derive_init c;
  c ← set_peer public c;
  derive 32 c.

#[export] Instance calls_evp : EVP := {|
  evp_encrypt := encryption;
  evp_decrypt := decryption;
  evp_hkdf_sha512 := key_derivation;
  evp_sign_ed25519 := signature_of;
  evp_verify_ed25519 := signature_ok;
  evp_keygen_ed25519 := generated Ed25519;
  evp_keygen_x25519 := generated X25519;
  evp_derive_x25519 := secret_of
|}.
End Pure.

(** What the documentation says: ChaCha20-Poly1305 is a stream cipher, nothing is
    written beyond the room that was given, and what was encrypted is decrypted. *)
Class OpenSSLLaws `{OpenSSL} : Prop := {
  encrypt_update_length : forall plain c c' e,
    encrypt_update (size_of plain) plain c = Some (c', e) -> length e = length plain;
  encrypt_final_empty : forall c c' f, encrypt_final c = Some (c', f) -> f = [];
  tag_length : forall n c tag, get_tag n c = Some tag -> length tag = n;
  decrypt_update_length : forall encrypted c c' p,
    decrypt_update (size_of encrypted) encrypted c = Some (c', p) -> length p = length encrypted;
  decrypt_final_empty : forall c f, decrypt_final c = Some f -> f = [];
  private_key_room : forall k n key, get_raw_private_key k n = Some key -> (length key <= n)%nat;
  public_key_room : forall k n key, get_raw_public_key k n = Some key -> (length key <= n)%nat;
  derive_room : forall n c secret, derive n c = Some secret -> (length secret <= n)%nat;
  sign_room : forall n data c signature, digest_sign n data c = Some signature -> (length signature <= n)%nat;
  decryption_encryption : forall key nonce aad plain encrypted tag,
    encryption key nonce aad plain = Some (encrypted, tag) -> decryption key nonce aad encrypted tag = Some plain
}.

(** The laws that the development asks of the operations. *)
#[export] Instance calls_laws `{OpenSSLLaws} : EVPLaws.
Proof.
  split; cbn; [|apply decryption_encryption]. unfold encryption. intros key nonce aad plain encrypted tag.
  destruct (_ || _); [done|]. intros Hs.
  repeat (apply bind_Some in Hs as (? & ? & Hs)). destruct_and?; simplify_eq.
  repeat match goal with p : (_ * _)%type |- _ => destruct p end. cbn [fst snd] in *.
  repeat match goal with
  | E : encrypt_update _ _ _ = Some _ |- _ => apply encrypt_update_length in E
  | E : encrypt_final _ = Some _ |- _ => apply encrypt_final_empty in E as ->
  | E : get_tag _ _ = Some _ |- _ => apply tag_length in E
  end. by rewrite app_nil_r.
Qed.

(** ** Runs *)

Section Runs.
Context `{OpenSSL} (memory_left : nat -> bool).

(** From object [n] on, a run has this result, unless there was no memory for one of
    its objects; it frees what it made and nothing else, and writes only where
    there is room. *)
Definition implements {A} (n : nat) (run : Fallible Memory A) (spec : option A) : Prop :=
  forall m, next m = n ->
    let '(r, m') := run m in
    live m' = live m /\ broken m' = broken m /\ (n <= next m')%nat /\
    (r = spec \/ r = None /\ exists k, (n <= k < next m')%nat /\ memory_left k = false).

Lemma implements_option {A} n (o : option A) : implements n (from_option o) o.
Proof. intros m <-. cbn. split_and!; [done|done|lia|by left]. Qed.

(** A call that fails ends the run. *)
Lemma implements_step {A B} n (o : option A) (f : A -> Fallible Memory B) t :
  (forall a, o = Some a -> implements n (f a) t) -> (o = None -> t = None) -> implements n (from_option o ≫= f) t.
Proof.
  intros Hf Hn m Hm. unfold mbind, fallible_bind, from_option. destruct o as [a|].
  - exact (Hf a eq_refl m Hm).
  - cbn. rewrite (Hn eq_refl). split_and!; [done|done|lia|by left].
Qed.

Lemma implements_fails {A B} n (f : A -> Fallible Memory B) : implements n (from_option None ≫= f) None.
Proof. by apply implements_step. Qed.

Lemma implements_put {B} n offset written buffer (f : Bytes -> Fallible Memory B) t :
  (offset + length written <= length buffer)%nat ->
  implements n (f (take offset buffer ++ written ++ drop (offset + length written) buffer)) t ->
  implements n (put offset written buffer ≫= f) t.
Proof.
  intros Hr Hf m Hm. unfold mbind, fallible_bind, put. rewrite (proj2 (Nat.leb_le _ _) Hr). exact (Hf m Hm).
Qed.

Lemma implements_hold {O A} n (make : nat -> option O) (body : option O -> Fallible Memory A) t :
  (forall o, make n = Some o -> implements (S n) (body (Some o)) t) ->
  (make n = None -> t = None) -> (forall k, implements k (body None) None) ->
  implements n (hold memory_left make body) t.
Proof.
  intros Hs Hn Hnull m Hm. unfold hold. rewrite Hm.
  destruct (if memory_left n then make n else None) as [o|] eqn:E.
  - destruct (memory_left n); [|done].
    specialize (Hs o E (mkMemory (S n) (n :: live m) (broken m)) eq_refl).
    destruct (body (Some o) _) as [r m'] eqn:Eb. cbn [live broken] in Hs. destruct Hs as (Hl & Hb & Hnx & Hr).
    unfold release. rewrite Hl. cbn [live broken next]. rewrite Nat.eqb_refl, orb_false_r, Hb.
    split_and!; [done|done|lia|]. destruct Hr as [->|(-> & k & Hk & Hf)]; [by left|right]. split; [done|]. exists k. split; [lia|done].
  - specialize (Hnull (S n) (mkMemory (S n) (live m) (broken m)) eq_refl).
    destruct (body None _) as [r m']. cbn [live broken] in Hnull. destruct Hnull as (Hl & Hb & Hnx & Hr).
    assert (r = None) as -> by (by destruct Hr as [->|[-> _]]). split_and!; [done|done|lia|].
    destruct (memory_left n) eqn:El; [left; symmetry; by apply Hn|right]. split; [done|]. exists n. split; [lia|done].
Qed.

Lemma implements_returns {A} n (a : A) t : t = Some a -> implements n (mret a) t.
Proof. intros ->. apply implements_option. Qed.

Lemma drop_repeat n m (x : Z) : drop n (repeat x m) = repeat x (m - n).
Proof. revert n. induction m as [|m IH]; intros [|n]; cbn; [done..|apply IH]. Qed.

(** A buffer that is filled from the front: what is there so far, and zeros. *)
Lemma put_behind {B} n front written room (f : Bytes -> Fallible Memory B) t :
  (length written <= room)%nat -> implements n (f ((front ++ written) ++ repeat 0 (room - length written))) t ->
  implements n (put (length front) written (front ++ repeat 0 room) ≫= f) t.
Proof.
  intros Hr Hf. apply implements_put; [rewrite length_app, repeat_length; lia|].
  rewrite take_app_length, drop_app_add, drop_repeat, app_assoc. exact Hf.
Qed.

Lemma resize_front written rest : resize (length written) (written ++ rest) = written.
Proof. unfold resize. rewrite take_app_length, length_app. replace (_ - _)%nat with 0%nat by lia. apply app_nil_r. Qed.
End Runs.

(** What the calls so far returned is put into the result. *)
Ltac known :=
  cbn; repeat match goal with E : ?o = _ |- context [?o] => rewrite E; cbn end; try done.

(** The next call of a run, or its end. *)
Ltac call := first [
  apply implements_step; [intros ? ?; simplify_eq|intros ?; simplify_eq; by known] |
  apply implements_hold; [intros ? ?; simplify_eq|intros ?; simplify_eq; by known|intros ?; solve [repeat first [apply implements_fails |
    apply implements_hold; [intros ? ?|done|intros ?] | apply implements_step; [intros ? ?|done]]]] |
  apply implements_fails].

Section Refinement.
Context `{OpenSSLLaws} (memory_left : nat -> bool).

Lemma sizes_fit (a b : Bytes) : size_of a <= INT_MAX -> size_of b <= INT_MAX ->
  (INT_MAX <? size_of a) || (INT_MAX <? size_of b) = false.
Proof. intros. by rewrite !(proj2 (Z.ltb_ge _ _)) by done. Qed.

Lemma int_of_size (l : Bytes) : size_of l <= INT_MAX -> int_of (size_of l) = size_of l.
Proof. intros. apply int_of_id. split; [apply size_nonneg|done]. Qed.

Lemma seal_implements n key nonce plain aad : size_of plain <= INT_MAX -> size_of aad <= INT_MAX ->
  implements memory_left n (seal_with_nonce memory_left key nonce plain aad) (Crypto.seal_with_nonce key nonce plain aad).
Proof.
  intros Hp Ha. unfold seal_with_nonce, Crypto.seal_with_nonce. destruct (_ || _); [apply implements_option|].
  rewrite !int_of_size by done. cbn [evp_encrypt calls_evp]. unfold encryption. rewrite sizes_fit by done.
  do 5 call. destruct a1 as [c1 e]. cbn [fst snd]. apply encrypt_update_length in H3 as Hlen.
  apply (put_behind _ _ []); [lia|]. call. destruct a1 as [c2 f]. cbn [fst snd]. apply encrypt_final_empty in H4 as Hempty. cbn [app].
  apply put_behind; [rewrite Hempty; cbn; lia|]. call. apply tag_length in H5 as Htag. rewrite <- length_app.
  apply put_behind; [rewrite Htag; cbn; lia|]. apply implements_returns.
  rewrite <- Htag, <- length_app, resize_front. by known.
Qed.

Lemma open_implements n key nonce sealed aad : size_of sealed <= INT_MAX -> size_of aad <= INT_MAX ->
  implements memory_left n (open_with_nonce memory_left key nonce sealed aad) (Crypto.open_with_nonce key nonce sealed aad).
Proof.
  intros Hs Ha. unfold open_with_nonce, Crypto.open_with_nonce.
  destruct (negb (size_of key =? 32) || negb (size_of nonce =? 12) || (size_of sealed <? 16)) eqn:Eg; [apply implements_option|].
  assert (Hsize : 16 <= size_of sealed) by (bool_hyps; lia). clear Eg.
  set (encrypted := take (length sealed - 16) sealed). set (tag := drop (length sealed - 16) sealed).
  assert (He : length encrypted = (length sealed - 16)%nat) by (unfold encrypted; rewrite length_take; unfold size_of in *; lia).
  assert (Hi : size_of encrypted <= INT_MAX) by (unfold size_of in *; lia).
  rewrite <- He. change (Z.of_nat (length encrypted)) with (size_of encrypted). rewrite !int_of_size by done.
  cbn [evp_decrypt calls_evp]. unfold decryption. rewrite sizes_fit by done.
  do 5 call. destruct a1 as [c1 p]. cbn [fst snd]. apply decrypt_update_length in H3 as Hlen.
  apply (put_behind _ _ []); [lia|]. do 2 call. apply decrypt_final_empty in H5 as Hempty. cbn [app].
  apply put_behind; [rewrite Hempty; cbn; lia|]. apply implements_returns.
  rewrite <- length_app, resize_front. by known.
Qed.

Lemma hkdf_implements n ikm salt info size :
  size_of ikm <= INT_MAX -> size_of salt <= INT_MAX -> size_of info <= INT_MAX ->
  implements memory_left n (derive_hkdf memory_left ikm salt info size) (evp_hkdf_sha512 ikm salt info size).
Proof.
  intros Hk Hs Hi. unfold derive_hkdf. rewrite !int_of_size by done. cbn [evp_hkdf_sha512 calls_evp]. unfold key_derivation.
  rewrite sizes_fit, (proj2 (Z.ltb_ge _ _)) by done. cbn [orb].
  do 8 call. apply derive_room in H7 as Hroom. apply (put_behind _ _ []); [done|].
  apply implements_returns. cbn [app]. rewrite resize_front. by known.
Qed.

Lemma generate_implements n kind : implements memory_left n (generate memory_left kind) (generated kind n).
Proof.
  unfold generate, generated. do 6 call. apply private_key_room in H4 as Hroom. apply (put_behind _ _ [] _ 32); [done|].
  call. apply public_key_room in H5 as Hroom'. apply (put_behind _ _ [] _ 32); [done|].
  apply implements_returns. cbn [app]. rewrite !resize_front. by known.
Qed.

Lemma sign_implements n private_key data :
  implements memory_left n (ed25519_sign memory_left private_key data) (Crypto.ed25519_sign private_key data).
Proof.
  unfold ed25519_sign, Crypto.ed25519_sign. cbn [evp_sign_ed25519 calls_evp]. unfold signature_of.
  do 6 call. apply sign_room in H3 as Hroom. apply (put_behind _ _ [] _ 64); [done|].
  apply implements_returns. cbn [app]. rewrite !resize_front. by known.
Qed.

Lemma verify_implements n public_key data signature :
  implements memory_left n (ed25519_verify memory_left public_key data signature)
    (if Crypto.ed25519_verify public_key data signature then Some tt else None).
Proof.
  unfold ed25519_verify, Crypto.ed25519_verify. cbn [evp_verify_ed25519 calls_evp]. unfold signature_ok.
  do 5 call. unfold check. intros m <-. cbn. split_and!; [done|done|lia|left]. by known.
Qed.

Lemma shared_implements n private_key public_key :
  implements memory_left n (x25519_shared memory_left private_key public_key) (Crypto.x25519_shared private_key public_key).
Proof.
  unfold x25519_shared, Crypto.x25519_shared. cbn [evp_derive_x25519 calls_evp]. unfold secret_of.
  do 9 call. apply derive_room in H6 as Hroom. apply (put_behind _ _ [] _ 32); [done|].
  cbn [app]. rewrite resize_front. destruct (forallb _ _) eqn:Ez; [|apply implements_returns; by known].
  intros m <-. cbn. split_and!; [done|done|lia|left]. by known.
Qed.

(** C36. The helpers are the operations on octets that the rest of the development uses.
    Each one, from any memory, gives the result of the operation unless there was no
    memory for one of its objects; whatever fails, it frees every context and key that
    it made once and no other, and it writes nowhere but into its buffers, as long
    as the sizes it passes are an [int]. *)
Theorem helpers_refine_operations n :
  (forall key nonce plain aad, size_of plain <= INT_MAX -> size_of aad <= INT_MAX ->
    implements memory_left n (seal_with_nonce memory_left key nonce plain aad) (Crypto.seal_with_nonce key nonce plain aad)) /\
  (forall key nonce sealed aad, size_of sealed <= INT_MAX -> size_of aad <= INT_MAX ->
    implements memory_left n (open_with_nonce memory_left key nonce sealed aad) (Crypto.open_with_nonce key nonce sealed aad)) /\
  (forall ikm salt info size, size_of ikm <= INT_MAX -> size_of salt <= INT_MAX -> size_of info <= INT_MAX ->
    implements memory_left n (derive_hkdf memory_left ikm salt info size) (evp_hkdf_sha512 ikm salt info size)) /\
  implements memory_left n (ed25519_generate memory_left) (Crypto.ed25519_generate n) /\
  implements memory_left n (x25519_generate memory_left) (Crypto.x25519_generate n) /\
  (forall private_key data,
    implements memory_left n (ed25519_sign memory_left private_key data) (Crypto.ed25519_sign private_key data)) /\
  (forall public_key data signature,
    implements memory_left n (ed25519_verify memory_left public_key data signature)
      (if Crypto.ed25519_verify public_key data signature then Some tt else None)) /\
  (forall private_key public_key,
    implements memory_left n (x25519_shared memory_left private_key public_key) (Crypto.x25519_shared private_key public_key)).
Proof.
  split_and!; intros;
    [by apply seal_implements|by apply open_implements|by apply hkdf_implements|apply generate_implements|
     apply generate_implements|apply sign_implements|apply verify_implements|apply shared_implements].
Qed.
End Refinement.

(** ** Evaluated *)

(** A library for the examples: the cipher of [Toy], whose context holds the nonce, the
    octets and the tag. *)
Definition toy_ssl : OpenSSL := {|
  CipherContext := Bytes * Bytes * Bytes;
  cipher_fresh := ([], [], []);
  encrypt_init _ nonce c := Some (nonce, c.1.2, c.2);
  encrypt_aad _ _ c := Some c;
  encrypt_update _ plain c := Some ((c.1.1, plain, c.2), plain);
  encrypt_final c := Some (c, []);
  get_tag n c := Some (take n (Toy.toy_tag c.1.1 c.1.2 ++ repeat 0 n));
  decrypt_init _ nonce c := Some (nonce, c.1.2, c.2);
  decrypt_aad _ _ c := Some c;
  decrypt_update _ encrypted c := Some ((c.1.1, encrypted, c.2), encrypted);
  set_tag tag c := Some (c.1, tag);
  decrypt_final c := if bytes_eqb c.2 (Toy.toy_tag c.1.1 c.1.2) then Some [] else None;
  Key := Bytes;
  new_raw_private_key _ key := if size_of key =? 32 then Some key else None;
  new_raw_public_key _ key := if size_of key =? 32 then Some key else None;
  get_raw_private_key key n := Some (take n key);
  get_raw_public_key key n := Some (take n key);
  KeyContext := Bytes;
  key_context _ := Some [];
  keygen_init c := Some c;
  keygen n _ := Some (repeat (Z.of_nat n) 32);
  hkdf_context := Some [];
  derive_init c := Some c;
  set_sha512 c := Some c;
  set_salt _ salt c := Some (c ++ salt);
  set_key _ key c := Some (c ++ key);
  add_info _ info c := Some (c ++ info);
  context_for key := key;
  set_peer public c := Some (zip_with Z.add c public);
  derive n c := Some (take n (c ++ repeat 1 n));
  DigestContext := Bytes;
  digest_fresh := [];
  sign_init key _ := Some key;
  digest_sign n data c := Some (take n (c ++ data));
  verify_init key _ := Some key;
  digest_verify signature data c := bytes_eqb signature (c ++ data)
|}.

Lemma toy_ssl_laws : @OpenSSLLaws toy_ssl.
Proof.
  split; cbn -[take Toy.toy_tag app].
  - by intros ? ? ? ? [= <- <-].
  - by intros ? ? ? [= <- <-].
  - intros n c tag [= <-]. rewrite length_take. cbn [length]. rewrite repeat_length. lia.
  - by intros ? ? ? ? [= <- <-].
  - intros c f. by destruct (bytes_eqb _ _); [intros [= <-]|].
  - intros k n key [= <-]. rewrite length_take. lia.
  - intros k n key [= <-]. rewrite length_take. lia.
  - intros n c secret [= <-]. rewrite length_take. lia.
  - intros n data c signature [= <-]. rewrite length_take. lia.
  - unfold encryption, decryption. intros key nonce aad plain encrypted tag. destruct (_ || _) eqn:E; [done|].
    assert (Ht : take 16 (Toy.toy_tag nonce plain ++ repeat 0 16) = Toy.toy_tag nonce plain) by done.
    destruct aad; cbn -[Toy.toy_tag take app repeat bytes_eqb]; rewrite Ht; intros [= <- <-]; rewrite app_nil_r, E;
      cbn -[Toy.toy_tag bytes_eqb]; rewrite bytes_eqb_refl; cbn; by rewrite app_nil_r.
Qed.

Definition fresh_memory : Memory := mkMemory 0 [] false.

Lemma helpers_refine_operations_witness :
  let sealed := ([1; 2; 3] ++ Toy.toy_tag (repeat 0 12) [1; 2; 3]) in
  @seal_with_nonce toy_ssl (fun _ => true) (repeat 9 32) (repeat 0 12) [1; 2; 3] [] fresh_memory
    = (Some sealed, mkMemory 1 [] false) /\
  implements (fun _ => true) 0 (@seal_with_nonce toy_ssl (fun _ => true) (repeat 9 32) (repeat 0 12) [1; 2; 3] [])
    (@Crypto.seal_with_nonce (@calls_evp toy_ssl) (repeat 9 32) (repeat 0 12) [1; 2; 3] []).
Proof.
  split; [vm_compute; reflexivity|].
  apply (proj1 (@helpers_refine_operations toy_ssl toy_ssl_laws (fun _ => true) 0)); vm_compute; by intros.
Defined.

(** Without memory for the second key nothing is derived, and the first one and the
    context are freed. *)
Example no_memory_for_peer :
  @x25519_shared toy_ssl (fun n => negb (Nat.eqb n 1)) (repeat 9 32) (repeat 1 32) fresh_memory = (None, mkMemory 3 [] false).
Proof. vm_compute. reflexivity. Qed.

(** A peer whose point is of low order is refused. *)
Example zero_secret_refused :
  @x25519_shared toy_ssl (fun _ => true) (repeat 0 32) (repeat 0 32) fresh_memory = (None, mkMemory 3 [] false).
Proof. vm_compute. reflexivity. Qed.
