(* ===== verification/Srp.v ===== *)
(** * The SRP-6a client of Pair-Setup

    [src/include/aa2acp/airplay/srp.hpp] and [src/src/airplay/srp.cpp]: the
    3072-bit group of RFC 5054 with SHA-512.  OpenSSL's big numbers are [Z]; its
    big-number operations fail only when memory runs out, which is not modelled.
    SHA-512 is the class [Digest], [None] when OpenSSL reports a failure;
    [DigestLaws] is its documented output size.  The 32 octets of [RAND_bytes]
    are an argument, [None] when the generator fails.

    The server side of RFC 5054, which is not in the repository, is written from
    its formulas in [Module Server] and is what the client is compared with. *)

From Stdlib Require Import Zpow_facts.
From S2P Require Import Prelude.
#[local] Open Scope Z_scope.

Class Digest := evp_sha512 : Bytes -> option Bytes.

Class DigestLaws `{Digest} : Prop := {
  digest_total : forall data, is_Some (evp_sha512 data);
  digest_size : forall data digest,
    evp_sha512 data = Some digest -> length digest = 64%nat /\ bytes_ok digest
}.

(* src/src/airplay/srp.cpp:15-15 kGroupBytes *)
Definition kGroupBytes : nat := 384.

(* src/src/airplay/srp.cpp:16-28 kPrimeHex *)
Definition kPrime : Z :=
  0xFFFFFFFFFFFFFFFFC90FDAA22168C234C4C6628B80DC1CD129024E088A67CC74020BBEA63B139B22514A08798E3404DDEF9519B3CD3A431B302B0A6DF25F14374FE1356D6D51C245E485B576625E7EC6F44C42E9A637ED6B0BFF5CB6F406B7EDEE386BFB5A899FA5AE9F24117C4B1FE649286651ECE45B3DC2007CB8A163BF0598DA48361C55D39A69163FA8FD24CF5F83655D23DCA3AD961C62F356208552BB9ED529077096966D670C354E4ABC9804F1746C08CA18217C32905E462E36CE3BE39E772C180E86039B2783A2EC07A28FB5C55DF06F4C52C9DE2BCBF6955817183995497CEA956AE515D2261898FA051015728E5A8AAAC42DAD33170D04507A33A85521ABDF1CBA64ECFB850458DBEF0A8AEA71575D060C7DB3970F85A6E1E4C7ABF5AE8CDB0933D71E8C94E04A25619DCEE3D2261AD2EE6BF12FFA06D98A0864D87602733EC86A64521F2B18177B200CBBE117577A615D6C770988C0BAD946E208E24FA074E5AB3143DB5BFCE0FD108E4B82D120A93AD2CAFFFFFFFFFFFFFFFF.

(* src/src/airplay/srp.cpp:89-91 SrpClient::process_challenge (generator) *)
Definition kGenerator : Z := 5.

(* src/src/airplay/srp.cpp:117-117 SrpClient::process_challenge (username) *)
Definition username : Bytes := bs "Pair-Setup".
(* src/src/airplay/srp.cpp:118-118 SrpClient::process_challenge (password) *)
Definition password : Bytes := bs "3939".

(** [BN_mod_exp] for the prime of the group. *)
Definition mod_exp (base exponent : Z) : Z := Zpow_mod base exponent kPrime.

(** [BN_bn2binpad]: nothing when the value does not fit. *)
(* src/src/airplay/srp.cpp:38-44 padded *)
Definition padded (value : Z) : Bytes :=
  if value <? 256 ^ Z.of_nat kGroupBytes then be_bytes kGroupBytes value else [].

Section Client.
Context `{Digest}.

(* src/src/airplay/srp.cpp:46-60 sha512 *)
Definition sha512 (parts : list Bytes) : Bytes := default [] (evp_sha512 (concat parts)).

(* src/include/aa2acp/airplay/srp.hpp:13-27 SrpClient *)
Record SrpClient := mkSrp {
  public_key : Bytes;
  client_proof : Bytes;
  session_key : Bytes
}.

Definition new_client : SrpClient := mkSrp [] [] [].

(* src/src/airplay/srp.cpp:108-111 SrpClient::process_challenge (multiplier) *)
Definition multiplier : Z := be_value (sha512 [padded kPrime; padded kGenerator]).

(* src/src/airplay/srp.cpp:119-127 SrpClient::process_challenge (x) *)
Definition password_exponent (salt : Bytes) : Z :=
  be_value (sha512 [salt; sha512 [username; bs ":"; password]]).

(* src/src/airplay/srp.cpp:160-165 SrpClient::process_challenge (xor_hash) *)
Definition xor_hash : Bytes :=
  let h_prime := sha512 [padded kPrime] in
  let h_generator := sha512 [[5]] in
  map (fun index => Z.lxor (byte_at h_prime index) (byte_at h_generator index)) (seq 0 (length h_prime)).

(* src/src/airplay/srp.cpp:166-170 SrpClient::process_challenge (client_proof_) *)
Definition proof_of (salt client_key server_key key : Bytes) : Bytes :=
  sha512 [xor_hash; sha512 [username]; salt; client_key; server_key; key].

(** The premaster secret of the base, the private key, the scrambling parameter
    and the password exponent; every step reduces modulo the prime. *)
(* src/src/airplay/srp.cpp:153-157 SrpClient::process_challenge (shared) *)
Definition premaster (base private_key u x : Z) : Z :=
  let ux := (u * x) mod kPrime in
  let exponent := (private_key + ux) mod kPrime in
  mod_exp base exponent.

(* src/src/airplay/srp.cpp:70-172 SrpClient::process_challenge *)
Definition process_challenge (random : option Bytes) (salt server_public_key : Bytes) (c : SrpClient)
    : bool * SrpClient :=
  let c := new_client in
  if bytes_eqb salt [] || negb (size_of server_public_key =? Z.of_nat kGroupBytes) then (false, c)
  else
    let server := be_value server_public_key in
    if kPrime <=? server then (false, c)
    else if server mod kPrime =? 0 then (false, c)
    else match random with
    | None => (false, c)
    | Some private_random =>
        let private_key := be_value private_random in
        let public_key := padded (mod_exp kGenerator private_key) in
        let c := mkSrp public_key [] [] in
        let x := password_exponent salt in
        let u := be_value (sha512 [public_key; server_public_key]) in
        let verifier := mod_exp kGenerator x in
        if u =? 0 then (false, c)
        else
          let multiplier_verifier := (multiplier * verifier) mod kPrime in
          let base := (server - multiplier_verifier) mod kPrime in
          if base =? 0 then (false, c)
          else
            let session_key := sha512 [padded (premaster base private_key u x)] in
            let client_proof := proof_of salt public_key server_public_key session_key in
            (size_of client_proof =? 64, mkSrp public_key client_proof session_key)
    end.

(* src/src/airplay/srp.cpp:174-180 SrpClient::verify_server *)
Definition verify_server (server_proof : Bytes) (c : SrpClient) : bool :=
  if bytes_eqb (public_key c) [] || bytes_eqb (client_proof c) [] || bytes_eqb (session_key c) []
  then false
  else bytes_eqb server_proof (sha512 [public_key c; client_proof c; session_key c]).
End Client.

(** ** The server of RFC 5054 *)

Module Server.
Section Server.
Context `{Digest}.

(** The verifier the server holds for the user, [g^x]. *)
Definition verifier (salt : Bytes) : Z := mod_exp kGenerator (password_exponent salt).
(** [B = k v + g^b]. *)
Definition challenge (salt : Bytes) (b : Z) : Z :=
  (multiplier * verifier salt + mod_exp kGenerator b) mod kPrime.
(** [u = H(A | B)]. *)
Definition scramble (client_key : Bytes) (salt : Bytes) (b : Z) : Z :=
  be_value (sha512 [client_key; padded (challenge salt b)]).
(** [S = (A v^u)^b], and the key [K = H(S)]. *)
Definition secret (client_key : Bytes) (salt : Bytes) (b : Z) : Z :=
  mod_exp (be_value client_key * mod_exp (verifier salt) (scramble client_key salt b)) b.
Definition key (client_key : Bytes) (salt : Bytes) (b : Z) : Bytes :=
  sha512 [padded (secret client_key salt b)].
(** The proof the server accepts, and its own. *)
Definition expected_proof (client_key : Bytes) (salt : Bytes) (b : Z) : Bytes :=
  proof_of salt client_key (padded (challenge salt b)) (key client_key salt b).
Definition server_proof (client_key : Bytes) (salt : Bytes) (b : Z) : Bytes :=
  sha512 [client_key; expected_proof client_key salt b; key client_key salt b].
End Server.
End Server.

(** ** Facts *)

(** The prime has exactly the octets of the group and leaves room for the
    exponents of the client. *)
Lemma kPrime_bounds : 2 ^ 1024 + 2 ^ 256 < kPrime < 256 ^ Z.of_nat kGroupBytes.
Proof. split; vm_compute; reflexivity. Qed.

Lemma kPrime_large : 1 < kPrime.
Proof. vm_compute; reflexivity. Qed.

Lemma kPrime_gcd_5 : Z.gcd kPrime 5 = 1.
Proof. vm_compute; reflexivity. Qed.

#[local] Opaque kPrime.

Lemma mod_exp_spec base exponent : 0 <= exponent -> mod_exp base exponent = base ^ exponent mod kPrime.
Proof. intros He. apply Zpow_mod_correct. pose proof kPrime_large. lia. Qed.

Lemma mod_exp_bound base exponent : 0 <= exponent -> 0 <= mod_exp base exponent < kPrime.
Proof. intros He. rewrite mod_exp_spec by done. apply Z.mod_pos_bound. pose proof kPrime_large. lia. Qed.

Lemma mod_exp_base base exponent :
  0 <= exponent -> mod_exp (base mod kPrime) exponent = mod_exp base exponent.
Proof.
  intros He. rewrite !mod_exp_spec by done. symmetry. apply Zpower_mod. pose proof kPrime_large. lia.
Qed.

Lemma padded_bytes value : 0 <= value < kPrime -> padded value = be_bytes kGroupBytes value.
Proof.
  intros Hv. unfold padded. pose proof kPrime_bounds.
  by rewrite (proj2 (Z.ltb_lt value _)) by lia.
Qed.

Lemma padded_value value : 0 <= value < kPrime -> be_value (padded value) = value.
Proof.
  intros Hv. pose proof kPrime_bounds. rewrite padded_bytes by done. apply be_value_bytes_id. lia.
Qed.

Lemma size_padded value : 0 <= value < kPrime -> size_of (padded value) = Z.of_nat kGroupBytes.
Proof. intros Hv. rewrite padded_bytes by done. unfold size_of. by rewrite length_be_bytes. Qed.

(** A power of the generator is never zero modulo the prime: five does not
    divide it. *)
Lemma generator_power_nonzero exponent : 0 <= exponent -> mod_exp kGenerator exponent <> 0.
Proof.
  intros He Hz. rewrite mod_exp_spec in Hz by done. pose proof kPrime_large.
  apply Z.mod_divide in Hz; [|lia]. revert Hz. pattern exponent. apply natlike_ind; [| |done].
  - rewrite Z.pow_0_r. intros Hd%Z.divide_pos_le; lia.
  - intros e Hn IH Hd. apply IH. rewrite Z.pow_succ_r in Hd by done.
    apply Z.gauss in Hd; [done|exact kPrime_gcd_5].
Qed.

Section ClientFacts.
Context `{DigestLaws}.

Lemma sha512_size parts : size_of (sha512 parts) = 64 /\ bytes_ok (sha512 parts).
Proof.
  unfold sha512. destruct (digest_total (concat parts)) as [d Hd]. rewrite Hd. cbn [default].
  destruct (digest_size _ _ Hd) as [Hl Ho]. split; [|done]. unfold size_of, Datatypes.id. by rewrite Hl.
Qed.

Lemma sha512_not_nil parts : bytes_eqb (sha512 parts) [] = false.
Proof.
  pose proof (sha512_size parts) as [Hs _]. destruct (sha512 parts) as [|x l]; [done|].
  unfold bytes_eqb. by rewrite bool_decide_eq_false_2.
Qed.

Lemma sha512_value parts : 0 <= be_value (sha512 parts) < 2 ^ 512.
Proof.
  pose proof (sha512_size parts) as [Hs Ho]. pose proof (be_value_bound _ Ho) as Hb. rewrite Hs in Hb. exact Hb.
Qed.

(** The scrambling parameter and the password exponent have 512 bits each and
    the private key 256, so neither reduction of the exponent changes it. *)
Lemma premaster_exact base private_key parts salt :
  0 <= private_key < 2 ^ 256 ->
  let u := be_value (sha512 parts) in
  let x := password_exponent salt in
  premaster base private_key u x = mod_exp base (private_key + u * x).
Proof.
  intros Hp u x. assert (0 <= u < 2 ^ 512) as Hu by apply sha512_value.
  assert (0 <= x < 2 ^ 512) as Hx by apply sha512_value. pose proof kPrime_bounds.
  assert (0 <= u * x < 2 ^ 1024) as Hux.
  { split; [lia|]. replace (2 ^ 1024) with (2 ^ 512 * 2 ^ 512) by reflexivity. nia. }
  unfold premaster. rewrite (Z.mod_small (u * x)) by lia. by rewrite Z.mod_small by lia.
Qed.

(** What the client subtracts from the challenge leaves the power of the
    generator. *)
Lemma challenge_base salt b :
  0 <= b ->
  (Server.challenge salt b - (multiplier * mod_exp kGenerator (password_exponent salt)) mod kPrime)
    mod kPrime = mod_exp kGenerator b.
Proof.
  intros Hb. unfold Server.challenge, Server.verifier. pose proof kPrime_large.
  rewrite <- Zminus_mod. set (kv := multiplier * _).
  replace (kv + mod_exp kGenerator b - kv) with (mod_exp kGenerator b) by lia.
  apply Z.mod_small, mod_exp_bound, Hb.
Qed.

(** Both sides compute the same power. *)
Lemma secrets_agree a b u x :
  0 <= a -> 0 <= b -> 0 <= u -> 0 <= x ->
  mod_exp (mod_exp kGenerator b) (a + u * x)
  = mod_exp (mod_exp kGenerator a * mod_exp (mod_exp kGenerator x) u) b.
Proof.
  intros Ha Hb Hu Hx. assert (0 <= u * x) by nia.
  rewrite <- (mod_exp_base (mod_exp kGenerator a * _)) by done.
  rewrite !(mod_exp_spec kGenerator), !(mod_exp_spec (kGenerator ^ x mod kPrime)) by done.
  pose proof kPrime_large. rewrite <- (Zpower_mod (kGenerator ^ x)) by lia.
  rewrite <- Zmult_mod, !mod_exp_base by lia. rewrite !mod_exp_spec by lia. f_equal.
  rewrite <- !Z.pow_mul_r, <- Z.pow_add_r, <- Z.pow_mul_r by nia. f_equal. nia.
Qed.
End ClientFacts.

(** ** Theorems *)

(** C38. The client and a server that knows the password agree. When the server
    answers with the challenge of RFC 5054 for any private number [b], and
    neither the challenge nor the scrambling parameter is zero, the client
    accepts it, holds the server's session key and sends the proof the server
    expects, and accepts the server's own proof and no other. *)
Theorem srp_agreement `{DigestLaws} random salt b c :
  length random = 32%nat -> bytes_ok random -> salt <> [] -> 0 <= b ->
  let A := padded (mod_exp kGenerator (be_value random)) in
  Server.challenge salt b <> 0 -> Server.scramble A salt b <> 0 ->
  let '(ok, c') := process_challenge (Some random) salt (padded (Server.challenge salt b)) c in
  ok = true /\ public_key c' = A /\ session_key c' = Server.key A salt b /\
  client_proof c' = Server.expected_proof A salt b /\
  forall proof, verify_server proof c' = true <-> proof = Server.server_proof A salt b.
Proof.
  intros Hl Hr Hs Hb A HB Hu. pose proof kPrime_large.
  assert (0 <= Server.challenge salt b < kPrime) as Hc by (apply Z.mod_pos_bound; lia).
  assert (0 <= be_value random < 2 ^ 256) as Ha.
  { pose proof (be_value_bound _ Hr) as Hv. unfold size_of in Hv. by rewrite Hl in Hv. }
  set (salted := mod_exp kGenerator (password_exponent salt)) in *.
  unfold process_challenge. rewrite size_padded, padded_value by done.
  rewrite (proj2 (Z.leb_gt kPrime _)) by lia. rewrite (Z.mod_small (Server.challenge salt b)) by lia.
  rewrite Z.eqb_refl, (proj2 (Z.eqb_neq _ 0)) by done. rewrite (bool_decide_eq_false_2 _ Hs : bytes_eqb salt [] = false).
  cbn [negb orb]. fold A. fold (Server.scramble A salt b). rewrite (proj2 (Z.eqb_neq _ 0)) by done.
  rewrite challenge_base by done. rewrite (proj2 (Z.eqb_neq _ 0)) by by apply generator_power_nonzero.
  unfold Server.scramble. rewrite premaster_exact by done.
  pose proof (sha512_value [A; padded (Server.challenge salt b)]).
  pose proof (sha512_value [salt; sha512 [username; bs ":"; password]]) as Hx.
  fold (password_exponent salt) in Hx.
  rewrite secrets_agree by lia. rewrite <- (padded_value (mod_exp kGenerator (be_value random)))
    by (apply mod_exp_bound; lia). fold A. fold (Server.verifier salt).
  fold (Server.scramble A salt b). fold (Server.secret A salt b). fold (Server.key A salt b).
  fold (Server.expected_proof A salt b). split_and!; try done.
  - apply Z.eqb_eq, sha512_size.
  - intros proof. unfold verify_server. cbn [public_key client_proof session_key].
    unfold Server.expected_proof at 1, proof_of, Server.key at 2. rewrite !sha512_not_nil.
    destruct (bytes_eqb A []) eqn:EA; [|apply bytes_eqb_eq].
    apply bytes_eqb_eq in EA. assert (size_of A = Z.of_nat kGroupBytes) as HA
      by (apply size_padded, mod_exp_bound; lia). by rewrite EA in HA.
Qed.

(** A digest for the examples: the sum of the octets in the last place. *)
Definition toy_digest : Digest := fun data =>
  Some (repeat 0 63 ++ [1 + fold_left Z.add data 0 mod 3]).

Lemma zeros_ok n : bytes_ok (repeat 0 n).
Proof. induction n; constructor; [unfold is_u; lia|done]. Qed.

Lemma toy_digest_laws : @DigestLaws toy_digest.
Proof.
  split; intros data; [by eexists|]. intros digest E. apply (inj Some) in E as <-. split; [done|].
  apply Forall_app. split; [apply zeros_ok|]. constructor; [|done].
  pose proof (Z.mod_pos_bound (fold_left Z.add data 0) 3 ltac:(lia)). unfold is_u. lia.
Qed.

Lemma srp_agreement_witness :
  let random := repeat 0 31 ++ [6] in
  let salt := [1; 2; 3] in
  let A := padded (mod_exp kGenerator 6) in
  let '(ok, c') := @process_challenge toy_digest (Some random) salt
                     (padded (@Server.challenge toy_digest salt 7)) new_client in
  ok = true /\ public_key c' = A /\ session_key c' = @Server.key toy_digest A salt 7 /\
  client_proof c' = @Server.expected_proof toy_digest A salt 7 /\
  forall proof, @verify_server toy_digest proof c' = true <-> proof = @Server.server_proof toy_digest A salt 7.
Proof.
  apply (@srp_agreement toy_digest toy_digest_laws (repeat 0 31 ++ [6]) [1; 2; 3] 7 new_client).
  - reflexivity.
  - apply Forall_app. split; [apply zeros_ok|]. constructor; [unfold is_u; lia|done].
  - done.
  - lia.
  - vm_compute. discriminate.
  - vm_compute. discriminate.
Defined.

(** What the client refuses. Whatever the peer sends, the exchange goes on
    only if the salt is not empty, the challenge has the size of the group and
    lies strictly between zero and the prime, random numbers were available, and
    neither the scrambling parameter nor the base of the premaster secret is
    zero; in every other case there is no session key and no proof is accepted. *)
Theorem challenge_accepted_iff `{DigestLaws} random salt server_public_key c :
  let '(ok, c') := process_challenge random salt server_public_key c in
  (ok = true <->
   salt <> [] /\ size_of server_public_key = Z.of_nat kGroupBytes /\
   be_value server_public_key < kPrime /\ be_value server_public_key mod kPrime <> 0 /\
   exists private_random, random = Some private_random /\
     be_value (sha512 [padded (mod_exp kGenerator (be_value private_random)); server_public_key]) <> 0 /\
     (be_value server_public_key
      - (multiplier * mod_exp kGenerator (password_exponent salt)) mod kPrime) mod kPrime <> 0) /\
  (ok = false -> session_key c' = [] /\ forall proof, verify_server proof c' = false).
Proof.
  unfold process_challenge.
  assert (forall a, let c' := mkSrp a [] [] in session_key c' = [] /\ forall proof, verify_server proof c' = false)
    as Hno by (intros a; split; [done|]; intros proof; unfold verify_server; by rewrite orb_true_r).
  destruct (bytes_eqb salt [] || _) eqn:E1.
  { split; [|intros _; exact (Hno [])]. split; [done|]. intros (Hs & Hl & _).
    apply orb_true_iff in E1 as [E1|E1]; bool_hyps; [by apply bytes_eqb_eq in E1|done]. }
  apply orb_false_iff in E1 as [E0 E1]. bool_hyps.
  assert (salt <> []) as Hs by (intros ->; done).
  destruct (kPrime <=? _) eqn:E2; [split; [split; [done|bool_hyps; lia]|intros _; exact (Hno [])]|].
  destruct (_ =? 0) eqn:E3; [split; [split; [done|bool_hyps; tauto]|intros _; exact (Hno [])]|].
  destruct random as [r|]; [|split; [split; [done|intros (_&_&_&_&r&?&_); done]|intros _; exact (Hno [])]].
  cbv zeta. destruct (be_value (sha512 _) =? 0) eqn:E4;
    [split; [split; [done|intros (_&_&_&_&r'&[= <-]&?&_); bool_hyps; done]|intros _; apply Hno]|].
  destruct (_ =? 0) eqn:E5 in |- *;
    [split; [split; [done|intros (_&_&_&_&r'&[= <-]&_&?); bool_hyps; done]|intros _; apply Hno]|].
  bool_hyps. rewrite (proj1 (sha512_size _) : size_of (proof_of _ _ _ _) = 64). split; [|done].
  split; [|done]. intros _. split_and!; try done. by exists r.
Qed.

Lemma challenge_accepted_iff_witness :
  (@process_challenge toy_digest (Some (repeat 0 31 ++ [6])) [1] (repeat 0 384) new_client).1 = false.
Proof.
  pose proof (@challenge_accepted_iff toy_digest toy_digest_laws (Some (repeat 0 31 ++ [6])) [1]
    (repeat 0 384) new_client) as Hi.
  destruct (process_challenge _ _ _ _) as [ok c'] in Hi |- *. destruct ok; [|done].
  destruct Hi as [[Hi _] _]. destruct (Hi eq_refl) as (_ & _ & _ & Hz & _).
  contradiction Hz. vm_compute. reflexivity.
Defined.

(** Without the range check a multiple of the prime would do what zero does; the
    prime itself is refused. *)
Example prime_is_refused :
  (@process_challenge toy_digest (Some (repeat 0 31 ++ [6])) [1] (padded kPrime) new_client).1 = false.
Proof. vm_compute. reflexivity. Qed.
