(* ===== verification/ControlCipher.v ===== *)
(** * The encrypted AirPlay control channel

    [src/include/aa2acp/airplay/control_cipher.hpp] and
    [src/src/airplay/control_cipher.cpp]: frames of a little-endian length, the
    ciphertext and its tag, under a nonce that counts frames.  Each method takes
    the cipher and returns it. *)

From S2P Require Import Prelude Text Crypto.
#[local] Open Scope Z_scope.

(* src/include/aa2acp/airplay/control_cipher.hpp:19-23 ControlCipher (members) *)
Record ControlCipher := mkCipher {
  read_key : Bytes;
  write_key : Bytes;
  read_counter : Z;
  write_counter : Z
}.

(* src/src/airplay/control_cipher.cpp:20-21 ControlCipher::ControlCipher *)
Definition new_cipher (read_key write_key : Bytes) : ControlCipher :=
  mkCipher read_key write_key 0 0.

(* src/src/airplay/control_cipher.cpp:10-16 nonce_for_counter *)
Definition nonce_for_counter (counter : Z) : Bytes :=
  [0; 0; 0; 0] ++ map (fun index => u8 (Z.shiftr counter (Z.of_nat index * 8))) (seq 0 8).

Definition frame_length (b0 b1 : Z) : Z := Z.lor b0 (Z.shiftl b1 8).

Section Cipher.
Context `{EVP}.

(* src/src/airplay/control_cipher.cpp:23-37 ControlCipher::encrypt *)
Definition encrypt (plaintext : Bytes) (c : ControlCipher) : option Bytes * ControlCipher :=
  if 65535 <? size_of plaintext then (None, c)
  else
    let header := [u8 (size_of plaintext); u8 (Z.shiftr (size_of plaintext) 8)] in
    match seal_with_nonce (write_key c) (nonce_for_counter (write_counter c)) plaintext header with
    | None => (None, c)
    | Some encrypted =>
        (Some (header ++ encrypted),
         mkCipher (read_key c) (write_key c) (read_counter c) (u64 (write_counter c + 1)))
    end.

(* src/src/airplay/control_cipher.cpp:39-54 ControlCipher::decrypt *)
Definition decrypt (frame : Bytes) (c : ControlCipher) : option Bytes * ControlCipher :=
  if size_of frame <? 18 then (None, c)
  else
    let length := frame_length (byte_at frame 0) (byte_at frame 1) in
    if negb (size_of frame =? length + 18) then (None, c)
    else
      match open_with_nonce (read_key c) (nonce_for_counter (read_counter c))
              (drop 2 frame) (take 2 frame) with
      | None => (None, c)
      | Some plaintext =>
          (Some plaintext,
           mkCipher (read_key c) (write_key c) (u64 (read_counter c + 1)) (write_counter c))
      end.

(** The result, the buffer it leaves and the cipher. *)
(* src/src/airplay/control_cipher.cpp:56-70 ControlCipher::decrypt_one *)
Definition decrypt_one (buffer : Bytes) (c : ControlCipher)
    : option Bytes * Bytes * ControlCipher :=
  if size_of buffer <? 2 then (Some [], buffer, c)
  else
    let length := frame_length (byte_at buffer 0) (byte_at buffer 1) in
    let frame_size := length + 18 in
    if size_of buffer <? frame_size then (Some [], buffer, c)
    else
      match decrypt (take (Z.to_nat frame_size) buffer) c with
      | (None, c) => (None, buffer, c)
      | (Some plaintext, c) => (Some plaintext, drop (Z.to_nat frame_size) buffer, c)
      end.

(** The loop of every reader: frames are taken while they are complete and not
    empty; [None] when one fails to authenticate. *)
Fixpoint decrypt_all (fuel : nat) (buffer : Bytes) (c : ControlCipher)
    : option (list Bytes) * Bytes * ControlCipher :=
  match fuel with
  | O => (Some [], buffer, c)
  | S fuel =>
      match decrypt_one buffer c with
      | (None, buffer, c) => (None, buffer, c)
      | (Some [], buffer, c) => (Some [], buffer, c)
      | (Some plaintext, buffer, c) =>
          match decrypt_all fuel buffer c with
          | (None, buffer, c) => (None, buffer, c)
          | (Some ps, buffer, c) => (Some (plaintext :: ps), buffer, c)
          end
      end
  end.

(** A writer that sends one frame per message. *)
Fixpoint encrypt_all (messages : list Bytes) (c : ControlCipher) : option (list Bytes) * ControlCipher :=
  match messages with
  | [] => (Some [], c)
  | m :: messages =>
      match encrypt m c with
      | (None, c) => (None, c)
      | (Some frame, c) =>
          match encrypt_all messages c with
          | (None, c) => (None, c)
          | (Some frames, c) => (Some (frame :: frames), c)
          end
      end
  end.
End Cipher.

(** ** Facts *)

Lemma frame_length_bytes n :
  0 <= n <= 65535 -> frame_length (u8 n) (u8 (Z.shiftr n 8)) = n.
Proof.
  intros Hn. unfold frame_length. rewrite Z.lor_comm, lor_shift8 by apply u8_ok.
  rewrite shiftr8. unfold wrap. change (2 ^ 8) with 256.
  rewrite (Z.mod_small (n / 256)) by (split; [apply Z.div_pos; lia|apply Z.div_lt_upper_bound; lia]).
  pose proof (Z.div_mod n 256). lia.
Qed.

Lemma frame_length_nonneg b0 b1 : is_u8 b0 -> is_u8 b1 -> 0 <= frame_length b0 b1 <= 65535.
Proof.
  intros H0 H1. unfold frame_length. rewrite Z.lor_comm, lor_shift8 by done.
  destruct H0, H1. lia.
Qed.

Section CipherFacts.
Context `{EVPLaws}.

Lemma encrypt_frame plaintext c frame c' :
  encrypt plaintext c = (Some frame, c') ->
  size_of plaintext <= 65535 /\ length frame = (18 + length plaintext)%nat /\
  take 2 frame = [u8 (size_of plaintext); u8 (Z.shiftr (size_of plaintext) 8)] /\
  c' = mkCipher (read_key c) (write_key c) (read_counter c) (u64 (write_counter c + 1)) /\
  open_with_nonce (write_key c) (nonce_for_counter (write_counter c)) (drop 2 frame) (take 2 frame)
  = Some plaintext.
Proof.
  unfold encrypt. destruct (65535 <? _) eqn:Es; [done|]. bool_hyps.
  destruct (seal_with_nonce _ _ _ _) as [sealed|] eqn:E; [|done]. intros [= <- <-].
  split_and!; try done.
  - apply seal_with_nonce_length in E. simpl. lia.
  - by apply open_seal_with_nonce.
Qed.

(** A complete frame at the head of the buffer is decrypted and removed. *)
Lemma decrypt_one_frame plaintext w frame w' rest r :
  encrypt plaintext w = (Some frame, w') ->
  read_key r = write_key w -> read_counter r = write_counter w ->
  decrypt_one (frame ++ rest) r =
    (Some plaintext, rest,
     mkCipher (read_key r) (write_key r) (u64 (read_counter r + 1)) (write_counter r)).
Proof.
  intros He Hk Hc. apply encrypt_frame in He as (Hs & Hl & Ht & _ & Ho).
  unfold decrypt_one. pose proof (size_nonneg plaintext) as Hn.
  assert (byte_at (frame ++ rest) 0 = u8 (size_of plaintext) /\
          byte_at (frame ++ rest) 1 = u8 (Z.shiftr (size_of plaintext) 8)) as [E0 E1].
  { destruct frame as [|f0 [|f1 frame]]; simplify_eq/=; done. }
  rewrite E0, E1, frame_length_bytes by lia.
  rewrite (proj2 (Z.ltb_ge _ 2)), (proj2 (Z.ltb_ge (size_of (frame ++ rest)) _))
    by (unfold size_of in *; rewrite length_app; lia).
  replace (Z.to_nat (size_of plaintext + 18)) with (length frame) by (unfold size_of; lia).
  rewrite take_app_length, drop_app_length. unfold decrypt.
  assert (byte_at frame 0 = u8 (size_of plaintext) /\
          byte_at frame 1 = u8 (Z.shiftr (size_of plaintext) 8)) as [E2 E3].
  { destruct frame as [|f0 [|f1 frame]]; simplify_eq/=; done. }
  rewrite E2, E3, frame_length_bytes by lia.
  rewrite (proj2 (Z.ltb_ge _ 18)) by (unfold size_of in *; lia).
  rewrite (proj2 (Z.eqb_eq (size_of frame) _)) by (unfold size_of in *; lia). cbn [negb].
  by rewrite Hk, Hc, Ho.
Qed.

(** A frame that has not arrived completely stays in the buffer. *)
Lemma decrypt_one_partial plaintext w frame w' b t r :
  encrypt plaintext w = (Some frame, w') -> frame = b ++ t -> t <> [] ->
  decrypt_one b r = (Some [], b, r).
Proof.
  intros He -> Hne. apply encrypt_frame in He as (Hs & Hl & Ht & _ & _).
  unfold decrypt_one. destruct (size_of b <? 2) eqn:E; [done|]. bool_hyps.
  pose proof (size_nonneg plaintext) as Hn. rewrite length_app in Hl.
  assert (0 < length t)%nat by (destruct t; [done|simpl; lia]).
  assert (byte_at b 0 = u8 (size_of plaintext) /\
          byte_at b 1 = u8 (Z.shiftr (size_of plaintext) 8)) as [E0 E1].
  { destruct b as [|f0 [|f1 b]]; [unfold size_of in E; simpl in E; lia..|]. by simplify_eq/=. }
  rewrite E0, E1, frame_length_bytes by lia.
  by rewrite (proj2 (Z.ltb_lt _ _)) by (unfold size_of in *; lia).
Qed.

Lemma decrypt_all_stream messages : forall w frames w' r fuel rest,
  encrypt_all messages w = (Some frames, w') -> Forall (fun m => m <> []) messages ->
  read_key r = write_key w -> read_counter r = write_counter w ->
  decrypt_one rest (mkCipher (read_key r) (write_key r) (write_counter w') (write_counter r))
    = (Some [], rest, mkCipher (read_key r) (write_key r) (write_counter w') (write_counter r)) ->
  (length messages < fuel)%nat ->
  decrypt_all fuel (concat frames ++ rest) r =
    (Some messages, rest,
     mkCipher (read_key r) (write_key r) (write_counter w') (write_counter r)).
Proof.
  induction messages as [|m ms IH]; intros w frames w' r fuel rest He Hne Hk Hc Hrest Hf;
    (destruct fuel as [|fuel]; [simpl in Hf; lia|]).
  - simplify_eq/=. rewrite <- Hc in *. destruct r as [rk wk rc wc]. cbn in *. by rewrite Hrest.
  - cbn [encrypt_all] in He.
    destruct (encrypt m w) as [[frame|] w1] eqn:E1; [|done].
    destruct (encrypt_all ms w1) as [[frames'|] w2] eqn:E2; [|done]. simplify_eq.
    apply Forall_cons in Hne as [Hm Hne]. cbn [concat decrypt_all]. rewrite <- app_assoc.
    rewrite (decrypt_one_frame _ _ _ _ _ _ E1 Hk Hc).
    destruct (encrypt_frame _ _ _ _ E1) as (_ & _ & _ & -> & _).
    destruct m as [|m0 m]; [done|].
    rewrite (IH _ _ _ (mkCipher (read_key r) (write_key r) (u64 (read_counter r + 1))
      (write_counter r)) fuel rest E2); try done; simpl.
    + by rewrite Hc.
    + simpl in Hf. lia.
Qed.
End CipherFacts.

(** ** Theorems *)

(** The nonce never repeats: two 64-bit frame counters with the same nonce
    are the same counter. *)
Theorem nonce_injective m n :
  is_u64 m -> is_u64 n -> nonce_for_counter m = nonce_for_counter n -> m = n.
Proof.
  intros Hm Hn E. unfold nonce_for_counter in E. apply (app_inv_head [0; 0; 0; 0]) in E.
  assert (forall x, map (fun index => u8 (Z.shiftr x (Z.of_nat index * 8))) (seq 0 8) = le_bytes 8 x)
    as Hle.
  { intros x. cbn [seq map le_bytes]. rewrite !Z.shiftr_shiftr by lia. done. }
  rewrite !Hle in E. rewrite <- (le_value_bytes 8 m), <- (le_value_bytes 8 n) by done. by rewrite E.
Qed.

Lemma nonce_injective_witness :
  let m := 1 in let n := 1 + 2 ^ 63 - 2 ^ 63 in m = n.
Proof. cbv zeta. apply nonce_injective; [split; vm_compute; congruence..|reflexivity]. Defined.

(** Encrypted messages come through in order. For a cipher that meets its
    documentation, when a writer encrypts a list of non-empty messages and the
    reader, holding the same key and the same counter, finds the frames followed
    by an unfinished next frame, it decrypts exactly the messages, leaves the
    unfinished frame in the buffer and arrives at the writer's counter. *)
Theorem cipher_stream_roundtrip `{EVPLaws} messages w frames w' next frame w'' b t r :
  encrypt_all messages w = (Some frames, w') -> Forall (fun m => m <> []) messages ->
  encrypt next w' = (Some frame, w'') -> frame = b ++ t -> t <> [] ->
  read_key r = write_key w -> read_counter r = write_counter w ->
  decrypt_all (S (length messages)) (concat frames ++ b) r =
    (Some messages, b,
     mkCipher (read_key r) (write_key r) (write_counter w') (write_counter r)).
Proof.
  intros He Hne Hn Hf Ht Hk Hc. eapply decrypt_all_stream; try done; [|lia].
  by eapply decrypt_one_partial.
Qed.

Lemma cipher_stream_roundtrip_witness :
  let k := repeat 9 32 in
  let r := new_cipher k [] in
  @decrypt_all Toy.toy_evp 3
    (concat (default [] (@encrypt_all Toy.toy_evp [[1; 2]; [3]] (new_cipher [] k)).1) ++ [1; 0; 5]) r
  = (Some [[1; 2]; [3]], [1; 0; 5], mkCipher k [] 2 0).
Proof.
  cbv zeta. pose proof Toy.toy_laws as Hl.
  apply (@cipher_stream_roundtrip Toy.toy_evp Hl [[1; 2]; [3]] (new_cipher [] (repeat 9 32))
    (default [] (@encrypt_all Toy.toy_evp [[1; 2]; [3]] (new_cipher [] (repeat 9 32))).1)
    (mkCipher [] (repeat 9 32) 0 2) [5]
    (default [] (@encrypt Toy.toy_evp [5] (mkCipher [] (repeat 9 32) 0 2)).1)
    (mkCipher [] (repeat 9 32) 0 3) [1; 0; 5]
    (drop 3 (default [] (@encrypt Toy.toy_evp [5] (mkCipher [] (repeat 9 32) 0 2)).1)));
    try (vm_compute; reflexivity).
  - repeat constructor; discriminate.
  - vm_compute. discriminate.
Defined.

(** A frame that does not authenticate changes nothing: when [decrypt_one]
    fails, the buffer and both counters are what they were; when it succeeds on
    a frame, exactly that frame has left the buffer and the read counter has
    gone up by one. *)
Theorem decrypt_one_outcome `{EVP} buffer c :
  bytes_ok buffer ->
  let length := frame_length (byte_at buffer 0) (byte_at buffer 1) in
  decrypt_one buffer c =
    if (size_of buffer <? 2) || (size_of buffer <? length + 18) then (Some [], buffer, c)
    else match open_with_nonce (read_key c) (nonce_for_counter (read_counter c))
                 (subspan 2 (Z.to_nat length + 16) buffer) (take 2 buffer) with
         | None => (None, buffer, c)
         | Some plaintext =>
             (Some plaintext, drop (Z.to_nat length + 18) buffer,
              mkCipher (read_key c) (write_key c) (u64 (read_counter c + 1)) (write_counter c))
         end.
Proof.
  intros Hb length. unfold decrypt_one. fold length.
  destruct (size_of buffer <? 2) eqn:E2; [done|]. bool_hyps. cbn [orb].
  destruct (size_of buffer <? length + 18) eqn:E; [done|]. bool_hyps.
  assert (0 <= length <= 65535) as Hl by (apply frame_length_nonneg; by apply byte_at_ok).
  set (n := Z.to_nat (length + 18)). assert (n = Z.to_nat length + 18)%nat as Hn by lia.
  rewrite <- Hn. unfold decrypt.
  assert (size_of (take n buffer) = length + 18) as Hs
    by (unfold size_of in *; rewrite length_take; lia).
  assert (byte_at (take n buffer) 0 = byte_at buffer 0 /\
          byte_at (take n buffer) 1 = byte_at buffer 1) as [-> ->].
  { rewrite Hn. replace (Z.to_nat length + 18)%nat with (S (S (Z.to_nat length + 16))) by lia.
    by destruct buffer as [|? [|? ?]]. }
  fold length. rewrite Hs, (proj2 (Z.ltb_ge _ 18)), Z.eqb_refl by lia. cbn [negb].
  assert (drop 2 (take n buffer) = subspan 2 (Z.to_nat length + 16) buffer) as ->.
  { unfold subspan. rewrite take_drop_commute. do 2 f_equal. lia. }
  rewrite take_take, Nat.min_l by lia.
  by destruct (open_with_nonce _ _ _ _).
Qed.

Lemma decrypt_one_outcome_witness :
  let c := new_cipher (repeat 9 32) [] in
  @decrypt_one Toy.toy_evp (2 :: 0 :: repeat 1 18) c = (None, 2 :: 0 :: repeat 1 18, c).
Proof.
  cbv zeta. etransitivity; [apply (@decrypt_one_outcome Toy.toy_evp)|vm_compute; reflexivity].
  apply Forall_forall. intros x Hx. cbn in Hx. set_unfold in Hx. unfold is_u. lia.
Defined.

(** A frame with an empty payload is consumed, yet reported like a frame that
    has not arrived yet: readers stop although more frames are buffered. *)
Example empty_frame_looks_incomplete :
  let k := repeat 9 32 in
  let frames := default [] (@encrypt_all Toy.toy_evp [[]; [3]] (new_cipher [] k)).1 in
  (@decrypt_all Toy.toy_evp 5 (concat frames) (new_cipher k [])).1.1 = Some [] /\
  read_counter (@decrypt_all Toy.toy_evp 5 (concat frames) (new_cipher k [])).2 = 1.
Proof. vm_compute. done. Qed.
