(* ===== verification/Rtsp.v ===== *)
(** * RTSP messages and TLV8 fields

    [src/include/aa2acp/airplay/rtsp.hpp] and [src/src/airplay/rtsp.cpp]:
    requests to the head unit, the framing and parsing of its responses, and the
    type-length-value encoding of the pairing messages.  The header and field
    maps are stdpp's finite maps. *)

From S2P Require Import Prelude Text.
#[local] Open Scope Z_scope.

Definition RequestHeaders : Type := list (Bytes * Bytes).

(* src/include/aa2acp/airplay/rtsp.hpp:16-20 Response *)
Record Response := mkResponse {
  status : Z;
  headers : gmap Bytes Bytes;
  body : Bytes
}.

(** ** Requests *)

(** The header lines of a request, in order. *)
(* src/src/airplay/rtsp.cpp:34-49 encode_request (headers) *)
Definition request_lines (method path : Bytes) (cseq : Z) (body content_type : Bytes)
    (additional_headers : RequestHeaders) : list Bytes :=
  let has_user_agent := existsb (fun h => bytes_eqb (lower h.1) (bs "user-agent")) additional_headers in
  [method ++ bs " " ++ path ++ bs " RTSP/1.0"; bs "CSeq: " ++ dec cseq]
  ++ (if negb has_user_agent then [bs "User-Agent: AA2ACP/0.1"] else [])
  ++ map (fun h => h.1 ++ bs ": " ++ h.2) additional_headers
  ++ (if negb (bytes_eqb content_type []) then [bs "Content-Type: " ++ content_type] else [])
  ++ [bs "Content-Length: " ++ dec (size_of body)].

(* src/src/airplay/rtsp.cpp:30-53 encode_request *)
Definition encode_request (method path : Bytes) (cseq : Z) (body content_type : Bytes)
    (additional_headers : RequestHeaders) : Bytes :=
  crlf_lines (request_lines method path cseq body content_type additional_headers) ++ CRLF ++ body.

(** ** Responses *)

(** [~std::size_t{0}]. *)
(* src/src/airplay/rtsp.cpp:63-63 kContentLengthNotSet *)
Definition kContentLengthNotSet : Z := 2 ^ 64 - 1.
(* src/src/airplay/rtsp.cpp:95-95 kMaxContentLength *)
Definition kMaxContentLength : Z := 1024 * 1024.

(** What one header line does to [content_length]; [None] is the return of
    nothing for a duplicate or a malformed value. *)
(* src/src/airplay/rtsp.cpp:71-84 complete_response_size (line) *)
Definition scan_line (line : Bytes) (content_length : Z) : option Z :=
  match find_char 58 line with
  | Some colon =>
      if bytes_eqb (lower (take colon line)) (bs "content-length") then
        if negb (content_length =? kContentLengthNotSet) then None
        else parse_unsigned (2 ^ 64 - 1) (trim (drop (colon + 1) line))
      else Some content_length
  | None => Some content_length
  end.

(** The loop over the lines before [header_end]; [find] cannot fail there, and
    [scan_headers_fuel] shows the fuel is enough. *)
(* src/src/airplay/rtsp.cpp:66-89 complete_response_size (loop) *)
Fixpoint scan_headers (fuel : nat) (text : Bytes) (header_end cursor : nat)
    (content_length : Z) : option Z :=
  match fuel with
  | O => None
  | S fuel =>
      if (header_end <=? cursor)%nat then Some content_length
      else
        let line_end := find_from CRLF text cursor in
        let line := subspan cursor (default header_end line_end - cursor) text in
        match scan_line line content_length with
        | None => None
        | Some content_length =>
            match line_end with
            | None => Some content_length
            | Some line_end => scan_headers fuel text header_end (line_end + 2) content_length
            end
        end
  end.

(* src/src/airplay/rtsp.cpp:55-104 complete_response_size *)
Definition complete_response_size (bytes : Bytes) : option nat :=
  match search CRLFCRLF bytes with
  | None => None
  | Some header_end =>
      match scan_headers (S header_end) bytes header_end 0 kContentLengthNotSet with
      | None => None
      | Some content_length =>
          let content_length := if content_length =? kContentLengthNotSet then 0 else content_length in
          if kMaxContentLength <? content_length then None
          else
            let body_start := (header_end + 4)%nat in
            if size_of bytes - Z.of_nat body_start <? content_length then None
            else Some (body_start + Z.to_nat content_length)%nat
      end
  end.

(** [response.headers.emplace]: the first header of a name stays. *)
(* src/src/airplay/rtsp.cpp:136-140 parse_response (line) *)
Definition parse_line (line : Bytes) (m : gmap Bytes Bytes) : gmap Bytes Bytes :=
  match find_char 58 line with
  | Some colon =>
      let name := lower (trim (take colon line)) in
      match m !! name with
      | Some _ => m
      | None => <[name := trim (drop (colon + 1) line)]> m
      end
  | None => m
  end.

(* src/src/airplay/rtsp.cpp:132-142 parse_response (loop) *)
Fixpoint parse_headers (fuel : nat) (text : Bytes) (header_end cursor : nat)
    (m : gmap Bytes Bytes) : gmap Bytes Bytes :=
  match fuel with
  | O => m
  | S fuel =>
      if (header_end <=? cursor)%nat then m
      else match find_from CRLF text cursor with
           | None => m
           | Some next => parse_headers fuel text header_end (next + 2)
                            (parse_line (subspan cursor (next - cursor) text) m)
           end
  end.

(* src/src/airplay/rtsp.cpp:106-147 parse_response *)
Definition parse_response (bytes : Bytes) : option Response :=
  match complete_response_size bytes with
  | None => None
  | Some full_size =>
      let text := take full_size bytes in
      match search CRLFCRLF text, search CRLF text with
      | Some header_end, Some line_end =>
          if negb (starts_with (bs "RTSP/1.0 ") text) then None
          else
            let status_text := subspan 9 (line_end - 9) text in
            let status_number := match find_char 32 status_text with
                                 | Some space => take space status_text
                                 | None => status_text
                                 end in
            match parse_int status_number with
            | None => None
            | Some status =>
                Some (mkResponse status
                        (parse_headers (S header_end) text header_end (line_end + 2) ∅)
                        (subspan (header_end + 4) (full_size - (header_end + 4)) bytes))
            end
      | _, _ => None
      end
  end.

(** ** TLV8 *)

(** The chunks of one value: at most 255 octets each, none for an empty value. *)
Fixpoint tlv8_chunks (fuel : nat) (type : Z) (value : Bytes) : Bytes :=
  match fuel with
  | O => []
  | S fuel =>
      match value with
      | [] => []
      | _ => let chunk := take 255 value in
             type :: u8 (size_of chunk) :: chunk ++ tlv8_chunks fuel type (drop 255 value)
      end
  end.

(* src/src/airplay/rtsp.cpp:149-162 encode_tlv8 *)
Definition encode_tlv8 (fields : list (Z * Bytes)) : Bytes :=
  concat (map (fun f => tlv8_chunks (length f.2) f.1 f.2) fields).

(** [result[type].insert(...)]: the value is appended to what the type has. *)
Definition tlv8_append (m : gmap Z Bytes) (type : Z) (value : Bytes) : gmap Z Bytes :=
  <[type := default [] (m !! type) ++ value]> m.

Fixpoint decode_tlv8_from (fuel : nat) (bytes : Bytes) (m : gmap Z Bytes) : gmap Z Bytes :=
  match fuel with
  | O => m
  | S fuel =>
      match bytes with
      | type :: size :: rest =>
          if size_of rest <? size then ∅
          else decode_tlv8_from fuel (drop (Z.to_nat size) rest)
                 (tlv8_append m type (take (Z.to_nat size) rest))
      | _ => m
      end
  end.

(* src/src/airplay/rtsp.cpp:164-179 decode_tlv8 *)
Definition decode_tlv8 (bytes : Bytes) : gmap Z Bytes :=
  decode_tlv8_from (S (length bytes)) bytes ∅.

(** ** Facts about the header loop *)

(** The scan over lines that are given one by one. *)
Fixpoint scan_lines (lines : list Bytes) (content_length : Z) : option Z :=
  match lines with
  | [] => Some content_length
  | l :: lines => scan_line l content_length ≫= scan_lines lines
  end.

Lemma find_from_line pre l t :
  Forall line_ok pre -> Forall (fun c => c <> 13) l ->
  find_from CRLF (crlf_lines pre ++ l ++ CRLF ++ t) (length (crlf_lines pre))
  = Some (length (crlf_lines pre) + length l)%nat.
Proof. intros _ Hl. unfold find_from. by rewrite drop_app_length, search_crlf. Qed.

Lemma scan_headers_lines ls : forall pre t fuel content_length,
  Forall line_ok pre -> Forall line_ok ls -> (length ls < fuel)%nat ->
  scan_headers fuel (crlf_lines (pre ++ ls) ++ t) (length (crlf_lines (pre ++ ls)) - 2)
    (length (crlf_lines pre)) content_length = scan_lines ls content_length.
Proof.
  induction ls as [|l ls IH]; intros pre t fuel cl Hpre Hls Hf; destruct fuel as [|fuel];
    try (simpl in Hf; lia); cbn [scan_headers scan_lines].
  - rewrite app_nil_r, (proj2 (Nat.leb_le _ _)) by lia. done.
  - apply Forall_cons in Hls as [[Hl Hn] Hls]. rewrite crlf_lines_app, crlf_lines_cons.
    rewrite (proj2 (Nat.leb_gt _ _)).
    2: { rewrite !length_app. simpl. destruct l; [done|simpl; lia]. }
    rewrite <- !app_assoc, find_from_line by done. cbn [default]. unfold Datatypes.id.
    replace (length (crlf_lines pre) + length l - length (crlf_lines pre))%nat with (length l) by lia.
    rewrite subspan_app. destruct (scan_line l cl) as [cl'|]; [|done]. cbn [mbind option_bind].
    rewrite <- (IH (pre ++ [l]) t fuel cl'); [|apply Forall_app; split; [done|by apply Forall_singleton]|done|simpl in Hf; lia].
    rewrite length_crlf_lines_snoc, <- !app_assoc. cbn [app].
    rewrite (crlf_lines_app pre), crlf_lines_cons, <- !app_assoc. done.
Qed.

Lemma crlf_lines_nonempty ls : Forall line_ok ls -> ls <> [] ->
  (length ls + 2 <= length (crlf_lines ls))%nat.
Proof. intros Hls Hne. pose proof (crlf_lines_length ls Hls). destruct ls; [done|simpl in *; lia]. Qed.

(** The size of a message made of well-formed header lines and a body. *)
Lemma complete_size_lines ls t content_length :
  Forall line_ok ls -> ls <> [] -> scan_lines ls kContentLengthNotSet = Some content_length ->
  0 <= content_length <= kMaxContentLength -> content_length <= size_of t ->
  complete_response_size (crlf_lines ls ++ CRLF ++ t)
  = Some (length (crlf_lines ls) + 2 + Z.to_nat content_length)%nat.
Proof.
  intros Hls Hne Hs Hc Ht. unfold complete_response_size. rewrite search_crlfcrlf_lines by done.
  pose proof (crlf_lines_nonempty ls Hls Hne) as Hlen.
  pose proof (scan_headers_lines ls [] (CRLF ++ t) (S (length (crlf_lines ls) - 2))
    kContentLengthNotSet) as Hscan.
  cbn [app] in Hscan. change (length (crlf_lines [])) with 0%nat in Hscan. rewrite Hscan, Hs by (done || lia).
  assert ((content_length =? kContentLengthNotSet) = false) as ->
    by (apply Z.eqb_neq; unfold kContentLengthNotSet, kMaxContentLength in *; lia).
  rewrite (proj2 (Z.ltb_ge _ content_length)) by lia.
  rewrite (proj2 (Z.ltb_ge _ content_length)).
  - f_equal. lia.
  - rewrite !size_app. unfold size_of in *. simpl. lia.
Qed.

(** What follows the header does not matter to the scan. *)
Lemma scan_headers_extend fuel : forall text t header_end cursor content_length,
  starts_with CRLFCRLF (drop header_end text) = true ->
  scan_headers fuel (text ++ t) header_end cursor content_length
  = scan_headers fuel text header_end cursor content_length.
Proof.
  induction fuel as [|fuel IH]; intros text t he cursor cl Hs; [done|]. cbn [scan_headers].
  destruct (he <=? cursor)%nat eqn:E; [done|]. apply Nat.leb_gt in E.
  assert (he + 4 <= length text)%nat as Hlen.
  { apply starts_with_iff in Hs as [u Hu]. apply (f_equal length) in Hu.
    rewrite length_drop, length_app in Hu. simpl in Hu. lia. }
  destruct (find_from_le CRLF text cursor he) as (k & Hk & Hle); [|lia|].
  { apply starts_with_iff in Hs as [u ->]. apply starts_with_iff. by exists (CRLF ++ u). }
  rewrite Hk, (find_from_extend _ _ t _ _ Hk). cbn [default]. unfold Datatypes.id.
  apply find_from_bound in Hk as [Hk1 Hk2].
  assert (subspan cursor (k - cursor) (text ++ t) = subspan cursor (k - cursor) text) as ->.
  { unfold subspan. rewrite drop_app_le, take_app_le; [done|rewrite length_drop; lia|lia]. }
  destruct (scan_line _ _); [|done]. by apply IH.
Qed.

Lemma search_at pat l n : search pat l = Some n -> starts_with pat (drop n l) = true.
Proof. intros ((t & ->) & _ & _)%search_Some. apply starts_with_app. Qed.

Lemma complete_size_extend bytes t n :
  complete_response_size bytes = Some n ->
  (n <= length bytes)%nat /\ complete_response_size (bytes ++ t) = Some n.
Proof.
  unfold complete_response_size. destruct (search CRLFCRLF bytes) as [he|] eqn:E; [|done].
  rewrite (search_extend _ _ t _ E), scan_headers_extend by by apply search_at.
  pose proof (search_at _ _ _ E) as Hat. apply starts_with_iff in Hat as [u Hu].
  apply (f_equal length) in Hu. rewrite length_drop, length_app in Hu. simpl in Hu.
  destruct (scan_headers _ _ _ _ _) as [cl|]; [|done]. cbv zeta.
  set (cl' := if cl =? kContentLengthNotSet then 0 else cl). clearbody cl'.
  destruct (_ <? cl'); [done|]. destruct (_ <? cl') eqn:E2; [done|]. bool_hyps. intros [= <-].
  unfold size_of in *. split; [lia|].
  by rewrite (proj2 (Z.ltb_ge _ cl')) by (rewrite length_app; lia).
Qed.

(** The parser over header lines given one by one. *)
Lemma parse_headers_lines ls : forall pre t fuel m,
  Forall line_ok pre -> Forall line_ok ls -> (length ls < fuel)%nat ->
  parse_headers fuel (crlf_lines (pre ++ ls) ++ t) (length (crlf_lines (pre ++ ls)) - 2)
    (length (crlf_lines pre)) m = fold_left (fun m l => parse_line l m) ls m.
Proof.
  induction ls as [|l ls IH]; intros pre t fuel m Hpre Hls Hf; destruct fuel as [|fuel];
    try (simpl in Hf; lia); cbn [parse_headers fold_left].
  - rewrite app_nil_r, (proj2 (Nat.leb_le _ _)) by lia. done.
  - apply Forall_cons in Hls as [[Hl Hn] Hls]. rewrite crlf_lines_app, crlf_lines_cons.
    rewrite (proj2 (Nat.leb_gt _ _)).
    2: { rewrite !length_app. simpl. destruct l; [done|simpl; lia]. }
    rewrite <- !app_assoc, find_from_line by done.
    replace (length (crlf_lines pre) + length l - length (crlf_lines pre))%nat with (length l) by lia.
    rewrite subspan_app.
    rewrite <- (IH (pre ++ [l]) t fuel);
      [|apply Forall_app; split; [done|by apply Forall_singleton]|done|simpl in Hf; lia].
    rewrite length_crlf_lines_snoc, <- !app_assoc. cbn [app].
    rewrite (crlf_lines_app pre), crlf_lines_cons, <- !app_assoc. done.
Qed.

Lemma bs_line s : forallb (fun c => negb (c =? 13)) (bs s) = true -> Forall (fun c => c <> 13) (bs s).
Proof.
  rewrite forallb_forall, List.Forall_forall. intros Hb c Hc. specialize (Hb c Hc). by bool_hyps.
Qed.

Lemma dec_line n : 0 <= n -> Forall (fun c => c <> 13) (dec n).
Proof.
  intros Hn. eapply Forall_impl; [by apply dec_digits|]. intros c Hc%digit_range. lia.
Qed.

(** A line [Name: value] leaves the content length alone unless the name is
    [content-length]. *)
Lemma scan_line_other name value content_length :
  Forall (fun c => c <> 58) name -> lower name <> bs "content-length" ->
  scan_line (name ++ bs ": " ++ value) content_length = Some content_length.
Proof.
  intros Hn Hl. unfold scan_line. change (bs ": " ++ value) with (58 :: 32 :: value).
  rewrite find_char_app, take_app_length by done.
  destruct (bytes_eqb _ _) eqn:E; [|done]. by apply bytes_eqb_eq in E.
Qed.

Lemma trim_blank_digits ds :
  Forall (fun c => is_digit c = true) ds -> trim (32 :: ds) = ds.
Proof.
  intros Hd. assert (forall x, x ∈ ds -> is_blank x = false) as Hb.
  { intros x Hx. rewrite Forall_forall in Hd. specialize (Hd x Hx). apply digit_range in Hd.
    unfold is_blank. apply orb_false_intro; apply Z.eqb_neq; lia. }
  rewrite <- (trim_id ds Hb) at 2. done.
Qed.

Lemma scan_line_content_length n :
  0 <= n <= 2 ^ 64 - 1 ->
  scan_line (bs "Content-Length: " ++ dec n) kContentLengthNotSet = Some n.
Proof.
  intros Hn. unfold scan_line.
  change (bs "Content-Length: " ++ dec n) with (bs "Content-Length" ++ 58 :: 32 :: dec n).
  rewrite find_char_app, take_app_length by (repeat constructor; vm_compute; congruence).
  change (bytes_eqb (lower (bs "Content-Length")) (bs "content-length")) with true. cbv iota.
  rewrite Z.eqb_refl. cbn [negb]. rewrite <- (Nat.add_comm 1).
  change (1 + length (bs "Content-Length"))%nat with (length (bs "Content-Length" ++ [58])).
  change (bs "Content-Length" ++ 58 :: 32 :: dec n)
    with ((bs "Content-Length" ++ [58]) ++ 32 :: dec n).
  rewrite drop_app_length, trim_blank_digits by (apply dec_digits; lia).
  by apply parse_unsigned_dec.
Qed.

Lemma scan_lines_app a b cl cl' :
  scan_lines a cl = Some cl' -> scan_lines (a ++ b) cl = scan_lines b cl'.
Proof.
  revert cl. induction a as [|l a IH]; intros cl; simpl; [by intros [= ->]|].
  destruct (scan_line l cl) as [c|]; [|done]. simpl. apply IH.
Qed.

(** ** Facts about TLV8 *)

Lemma tlv8_append_app m type a b :
  tlv8_append (tlv8_append m type a) type b = tlv8_append m type (a ++ b).
Proof.
  unfold tlv8_append. rewrite lookup_insert_eq, insert_insert_eq. simpl. by rewrite app_assoc.
Qed.

Lemma decode_chunks_value fuel : forall dfuel type value rest m,
  (length value <= fuel)%nat -> value <> [] ->
  (length (tlv8_chunks fuel type value ++ rest) < dfuel)%nat ->
  exists dfuel', (length rest < dfuel')%nat /\
    decode_tlv8_from dfuel (tlv8_chunks fuel type value ++ rest) m
    = decode_tlv8_from dfuel' rest (tlv8_append m type value).
Proof.
  induction fuel as [|fuel IH]; intros dfuel type value rest m Hl Hne Hd.
  { destruct value; [done|simpl in Hl; lia]. }
  assert (exists v vs, value = v :: vs) as (v & vs & Hv) by (destruct value; [done|eauto]).
  assert (tlv8_chunks (S fuel) type value = type :: u8 (size_of (take 255 value)) ::
          take 255 value ++ tlv8_chunks fuel type (drop 255 value)) as Hc by (by rewrite Hv).
  rewrite Hc in *. set (chunk := take 255 value) in *. set (tail := drop 255 value) in *.
  assert (value = chunk ++ tail) as Hval by (unfold chunk, tail; by rewrite take_drop).
  assert (size_of chunk <= 255) as Hsz by (unfold size_of, chunk; rewrite length_take; lia).
  destruct dfuel as [|dfuel]; [simpl in Hd; lia|]. cbn [app decode_tlv8_from].
  pose proof (size_nonneg chunk). rewrite wrap_id by (unfold is_u; lia). rewrite <- app_assoc.
  rewrite (proj2 (Z.ltb_ge _ (size_of chunk))) by (rewrite size_app; pose proof
    (size_nonneg (tlv8_chunks fuel type tail ++ rest)); lia).
  replace (Z.to_nat (size_of chunk)) with (length chunk) by (unfold size_of; lia).
  rewrite drop_app_length, take_app_length.
  simpl length in Hd. rewrite !length_app in Hd.
  destruct (decide (tail = [])) as [Et|Et].
  - exists dfuel. rewrite Hval, Et, app_nil_r. destruct fuel; simpl; (split; [lia|done]).
  - assert (length chunk = 255%nat) as H255.
    { destruct (Nat.le_gt_cases 255 (length value)) as [Hle|Hgt].
      - unfold chunk. rewrite length_take. lia.
      - destruct Et. unfold tail. apply drop_ge. lia. }
    pose proof (f_equal length Hval) as Hlen. rewrite length_app in Hlen.
    replace (tlv8_append m type value) with (tlv8_append (tlv8_append m type chunk) type tail)
      by (by rewrite tlv8_append_app, Hval).
    apply IH; [lia|done|rewrite length_app; lia].
Qed.

(** ** Theorems *)

(** The framing of a response is settled as soon as it is found: when
    [complete_response_size] returns a size for the octets received so far, it
    covers no more than those, returns the same size whatever arrives later, and
    [parse_response] then parses the same response. *)
Theorem response_framing_stable bytes t n :
  complete_response_size bytes = Some n ->
  (n <= length bytes)%nat /\ complete_response_size (bytes ++ t) = Some n /\
  parse_response (bytes ++ t) = parse_response bytes.
Proof.
  intros Hn. destruct (complete_size_extend bytes t n Hn) as [Hl He].
  split_and!; [done..|]. unfold parse_response. rewrite He, Hn, take_app_le by done. cbv zeta.
  destruct (search CRLFCRLF (take n bytes)) as [he|] eqn:Eh; [|done].
  destruct (search CRLF (take n bytes)) as [le|]; [|done].
  destruct (negb _); [done|]. destruct (parse_int _); [|done]. do 2 f_equal.
  pose proof (search_at _ _ _ Eh) as Hat. apply starts_with_iff in Hat as [u Hu].
  apply (f_equal length) in Hu. rewrite length_drop, length_take, length_app in Hu. simpl in Hu.
  unfold subspan. rewrite drop_app_le, take_app_le; [done|rewrite length_drop; lia|lia].
Qed.

Definition sample_response : Bytes :=
  crlf_lines [bs "RTSP/1.0 200 OK"; bs "CSeq: 3"; bs "content-length : 9"; bs "Content-Length: 2"]
  ++ CRLF ++ bs "hi".

Lemma response_framing_stable_witness :
  complete_response_size sample_response = Some (length sample_response) /\
  parse_response (sample_response ++ bs "RTSP/1.0 500") = parse_response sample_response.
Proof.
  assert (complete_response_size sample_response = Some (length sample_response)) as Hs
    by (vm_compute; reflexivity).
  split; [exact Hs|]. apply (response_framing_stable sample_response _ _ Hs).
Defined.

(** A method or a header name: no carriage return and no colon. *)
Definition token_ok (l : Bytes) : Prop := Forall (fun c => c <> 13 /\ c <> 58) l.
Definition text_ok (l : Bytes) : Prop := Forall (fun c => c <> 13) l.

Definition header_line_ok (h : Bytes * Bytes) : Prop :=
  token_ok h.1 /\ h.1 <> [] /\ lower h.1 <> bs "content-length" /\ text_ok h.2.

Lemma token_text l : token_ok l -> text_ok l.
Proof. intros Hl. eapply Forall_impl; [exact Hl|]. intros c Hc. apply Hc. Qed.

Lemma token_no_colon l : token_ok l -> Forall (fun c => c <> 58) l.
Proof. intros Hl. eapply Forall_impl; [exact Hl|]. intros c Hc. apply Hc. Qed.

Section RequestLines.
Context (method path : Bytes) (cseq : Z) (body content_type : Bytes) (additional : RequestHeaders).
Context (Hm : token_ok method) (Hmn : method <> []) (Hp : token_ok path) (Hc : 0 <= cseq)
  (Hct : text_ok content_type) (Hb : size_of body <= kMaxContentLength)
  (Ha : Forall header_line_ok additional).

Lemma request_lines_ok :
  Forall line_ok (request_lines method path cseq body content_type additional).
Proof using Hm Hmn Hp Hc Hct Ha.
  pose proof (size_nonneg body) as Hb0.
  unfold request_lines. repeat apply Forall_app_2; repeat apply Forall_cons_2;
    try apply Forall_nil_2.
  - split; [|by destruct method]. repeat apply Forall_app_2; first [by apply token_text|by apply bs_line].
  - split; [|done]. apply Forall_app_2; [by apply bs_line|by apply dec_line].
  - destruct (negb _); repeat constructor; vm_compute; congruence.
  - induction Ha as [|[name value] hs (Hn & Hnn & _ & Hv) Hhs IH]; [done|].
    apply Forall_cons_2; [|by apply IH]. cbn [fst snd] in *. split; [|by destruct name].
    repeat apply Forall_app_2; first [by apply token_text|by apply bs_line|done].
  - destruct (negb _); [|constructor]. apply Forall_singleton. split; [|done].
    apply Forall_app_2; [by apply bs_line|done].
  - split; [|done]. apply Forall_app_2; [by apply bs_line|by apply dec_line].
Qed.

Lemma request_lines_scan :
  scan_lines (request_lines method path cseq body content_type additional) kContentLengthNotSet
  = Some (size_of body).
Proof using Hm Hp Hc Hct Hb Ha.
  pose proof (size_nonneg body) as Hb0.
  assert (forall l cl, find_char 58 l = None -> scan_line l cl = Some cl) as Hno
    by (intros l cl Hf; unfold scan_line; by rewrite Hf).
  assert (forall name value, Forall (fun c => c <> 58) (bs name) ->
    lower (bs name) <> bs "content-length" ->
    scan_line (bs name ++ bs ": " ++ value) kContentLengthNotSet = Some kContentLengthNotSet) as Hlit2
    by (intros; by apply scan_line_other).
  unfold request_lines. cbn [app scan_lines].
  rewrite Hno.
  2: { apply find_char_none. repeat apply Forall_app_2;
         first [by apply token_no_colon
             | repeat constructor; vm_compute; congruence]. }
  cbn [mbind option_bind].
  assert (bs "CSeq: " ++ dec cseq = bs "CSeq" ++ bs ": " ++ dec cseq) as -> by done.
  rewrite Hlit2 by (repeat constructor; vm_compute; congruence). cbn [mbind option_bind].
  rewrite (scan_lines_app _ _ _ kContentLengthNotSet).
  2: { destruct (negb _); [|done]. vm_compute. done. }
  rewrite (scan_lines_app _ _ _ kContentLengthNotSet).
  2: { clear -Ha. induction Ha as [|[name value] hs (Hn & _ & Hl & _) Hhs IH]; [done|].
       cbn [map scan_lines fst snd] in *. rewrite scan_line_other; [by apply IH|by apply token_no_colon|done]. }
  rewrite (scan_lines_app _ _ _ kContentLengthNotSet).
  2: { destruct (negb _); [|done]. cbn [scan_lines].
       assert (bs "Content-Type: " ++ content_type = bs "Content-Type" ++ bs ": " ++ content_type)
         as -> by done.
       by rewrite Hlit2 by (repeat constructor; vm_compute; congruence). }
  cbn [scan_lines]. rewrite scan_line_content_length; [done|].
  unfold kMaxContentLength in Hb. lia.
Qed.
End RequestLines.

(** The length a request announces is the length it has: for a method, path,
    header names and values and content type without carriage returns, names
    without colon other than [Content-Length], and a body of at most 1 MiB, the
    scan of [complete_response_size] over an encoded request followed by
    anything finds the end of the request. *)
Theorem request_is_framed method path cseq body content_type additional rest :
  token_ok method -> method <> [] -> token_ok path -> 0 <= cseq ->
  text_ok content_type -> size_of body <= kMaxContentLength ->
  Forall header_line_ok additional ->
  complete_response_size (encode_request method path cseq body content_type additional ++ rest)
  = Some (length (encode_request method path cseq body content_type additional)).
Proof.
  intros Hm Hmn Hp Hc Hct Hb Ha. unfold encode_request. rewrite <- !app_assoc.
  pose proof (request_lines_ok method path cseq body content_type additional Hm Hmn Hp Hc Hct Ha) as Hls.
  pose proof (request_lines_scan method path cseq body content_type additional Hm Hp Hc Hct Hb Ha)
    as Hscan.
  pose proof (size_nonneg body). pose proof (size_nonneg rest).
  rewrite (complete_size_lines _ _ (size_of body) Hls);
    [|discriminate|done|lia|rewrite size_app; lia].
  f_equal. rewrite !length_app. unfold size_of. simpl. lia.
Qed.

Lemma request_is_framed_witness :
  let r := encode_request (bs "POST") (bs "/pair-setup") 1 [1; 2; 3] (bs "application/x-apple-binary-plist")
             [(bs "X-Apple-HKP", bs "3")] in
  complete_response_size (r ++ bs "POST") = Some (length r).
Proof.
  cbv zeta. apply request_is_framed; try (vm_compute; congruence).
  all: repeat constructor; vm_compute; congruence.
Defined.

(** A response given line by line. *)
Lemma parse_lines_response status reason ls body rest :
  0 <= status <= 2 ^ 31 - 1 -> text_ok reason -> Forall line_ok ls ->
  scan_lines ((bs "RTSP/1.0 " ++ dec status ++ bs " " ++ reason) :: ls) kContentLengthNotSet
    = Some (size_of body) -> size_of body <= kMaxContentLength ->
  parse_response (crlf_lines ((bs "RTSP/1.0 " ++ dec status ++ bs " " ++ reason) :: ls)
                  ++ CRLF ++ body ++ rest)
  = Some (mkResponse status (fold_left (fun m l => parse_line l m) ls ∅) body).
Proof.
  intros Hst Hr Hls Hscan Hb. set (sl := bs "RTSP/1.0 " ++ _) in *.
  assert (line_ok sl) as Hsl.
  { split; [|done]. repeat apply Forall_app_2; [by apply bs_line|apply dec_line; lia|by apply bs_line|done]. }
  assert (Forall line_ok (sl :: ls)) as Hall by by apply Forall_cons_2.
  pose proof (size_nonneg body) as Hb0. pose proof (size_nonneg rest).
  unfold parse_response.
  rewrite (complete_size_lines (sl :: ls) _ (size_of body)) by (done || lia || (rewrite size_app; lia)).
  set (lines := crlf_lines (sl :: ls)).
  set (n := (length lines + 2 + Z.to_nat (size_of body))%nat).
  assert (take n (lines ++ CRLF ++ body ++ rest) = lines ++ CRLF ++ body) as ->.
  { rewrite !app_assoc. apply take_app_length'. rewrite !length_app. unfold n, size_of. simpl. lia. }
  cbv zeta. unfold lines at 1. rewrite search_crlfcrlf_lines by done. fold lines.
  assert (search CRLF (lines ++ CRLF ++ body) = Some (length sl)) as ->.
  { unfold lines. rewrite crlf_lines_cons, <- !app_assoc. apply search_crlf, Hsl. }
  assert (lines ++ CRLF ++ body = sl ++ CRLF ++ crlf_lines ls ++ CRLF ++ body) as Hl
    by (unfold lines; rewrite crlf_lines_cons; by rewrite <- !app_assoc).
  assert (starts_with (bs "RTSP/1.0 ") (lines ++ CRLF ++ body) = true) as ->
    by (rewrite Hl; unfold sl; rewrite <- !app_assoc; apply starts_with_app).
  cbn [negb].
  assert (subspan 9 (length sl - 9) (lines ++ CRLF ++ body) = dec status ++ bs " " ++ reason) as ->.
  { rewrite Hl. unfold sl. rewrite <- (app_assoc (bs "RTSP/1.0 ")). apply subspan_app'; [done|].
    rewrite length_app. change (length (bs "RTSP/1.0 ")) with 9%nat. lia. }
  change (bs " " ++ reason) with (32 :: reason).
  rewrite find_char_app, take_app_length.
  2: { eapply Forall_impl; [apply dec_digits; lia|]. intros c Hc%digit_range. lia. }
  rewrite parse_int_dec by lia.
  do 2 f_equal.
  - pose proof (parse_headers_lines ls [sl] (CRLF ++ body) (S (length lines - 2)) ∅) as Hp.
    change (crlf_lines ([sl] ++ ls)) with lines in Hp.
    assert (length (crlf_lines [sl]) = length sl + 2)%nat as Hsl2
      by (rewrite crlf_lines_cons, !length_app; simpl; lia).
    rewrite Hsl2 in Hp. apply Hp; [by apply Forall_singleton|done|].
    pose proof (crlf_lines_nonempty (sl :: ls) Hall ltac:(discriminate)) as Hlen. fold lines in Hlen.
    change (length (sl :: ls)) with (S (length ls)) in Hlen. lia.
  - rewrite app_assoc. pose proof (crlf_lines_nonempty (sl :: ls) Hall ltac:(discriminate)) as Hlen.
    fold lines in Hlen. change (length (sl :: ls)) with (S (length ls)) in Hlen.
    apply subspan_app'; rewrite ?length_app; unfold n, size_of; simpl; lia.
Qed.

(** Parsing a response, line by line: for a status line
    [RTSP/1.0 status reason] and header lines whose lengths announce the body,
    [parse_response] returns the status, the headers with lower-case trimmed
    names (the first of each name) and exactly the body, whatever follows. *)
Theorem parse_response_lines status reason ls body rest :
  0 <= status <= 2 ^ 31 - 1 -> text_ok reason -> Forall line_ok ls ->
  scan_lines ((bs "RTSP/1.0 " ++ dec status ++ bs " " ++ reason) :: ls) kContentLengthNotSet
    = Some (size_of body) -> size_of body <= kMaxContentLength ->
  parse_response (crlf_lines ((bs "RTSP/1.0 " ++ dec status ++ bs " " ++ reason) :: ls)
                  ++ CRLF ++ body ++ rest)
  = Some (mkResponse status (fold_left (fun m l => parse_line l m) ls ∅) body).
Proof. apply parse_lines_response. Qed.

Lemma parse_response_lines_witness :
  parse_response (crlf_lines [bs "RTSP/1.0 200 OK"; bs "Content-Length: 2"] ++ CRLF ++ [7; 8] ++ [9])
  = Some (mkResponse 200 {[ bs "content-length" := bs "2" ]} [7; 8]).
Proof.
  etransitivity; [apply (parse_response_lines 200 (bs "OK") [bs "Content-Length: 2"] [7; 8] [9])|];
    try reflexivity; try (vm_compute; congruence).
  - split; vm_compute; congruence.
  - repeat constructor; vm_compute; congruence.
  - repeat constructor; vm_compute; congruence.
Defined.

(** Decoding what was encoded. *)
Lemma decode_encode_tlv8 fields :
  decode_tlv8 (encode_tlv8 fields)
  = fold_left (fun m f => if bytes_eqb f.2 [] then m else tlv8_append m f.1 f.2) fields ∅.
Proof.
  unfold decode_tlv8. generalize (∅ : gmap Z Bytes).
  enough (forall fuel m, (length (encode_tlv8 fields) < fuel)%nat ->
    decode_tlv8_from fuel (encode_tlv8 fields) m = fold_left (fun m f =>
      if bytes_eqb f.2 [] then m else tlv8_append m f.1 f.2) fields m) as He by (intros; apply He; lia).
  induction fields as [|[type value] fields IH]; intros fuel m Hf.
  { by destruct fuel. }
  unfold encode_tlv8 in *. cbn [map concat fold_left fst snd] in *.
  destruct (bytes_eqb value []) eqn:E.
  { apply bytes_eqb_eq in E as ->. by apply IH. }
  destruct (decode_chunks_value (length value) fuel type value
    (concat (map (fun f => tlv8_chunks (length f.2) f.1 f.2) fields)) m) as (fuel' & Hf' & ->);
    [lia|intros ->; done|done|].
  by apply IH.
Qed.

Lemma tlv8_fold_other fields t : forall m,
  t ∉ map fst fields ->
  fold_left (fun m f => if bytes_eqb f.2 [] then m else tlv8_append m f.1 f.2) fields m !! t = m !! t.
Proof.
  induction fields as [|[k v] fields IH]; intros m Ht; [done|]. cbn [map fst] in Ht.
  apply not_elem_of_cons in Ht as [Hne Ht]. cbn [fold_left fst snd]. rewrite IH by done.
  destruct (bytes_eqb v []); [done|]. unfold tlv8_append. by rewrite lookup_insert_ne.
Qed.

(** A field that is listed once is found. *)
Lemma decode_field fields t v :
  NoDup (map fst fields) -> (t, v) ∈ fields -> v <> [] -> decode_tlv8 (encode_tlv8 fields) !! t = Some v.
Proof.
  rewrite decode_encode_tlv8. intros Hd Hin Hne.
  enough (forall m : gmap Z Bytes, m !! t = None ->
    fold_left (fun m f => if bytes_eqb f.2 [] then m else tlv8_append m f.1 f.2) fields m !! t = Some v) as He
    by (by apply He).
  induction fields as [|[k w] fields IH]; intros m Hm; [by apply not_elem_of_nil in Hin|].
  cbn [map fst] in Hd. apply NoDup_cons in Hd as [Hk Hd]. cbn [fold_left fst snd].
  apply elem_of_cons in Hin as [[= <- <-]|Hin].
  - rewrite tlv8_fold_other by done. unfold bytes_eqb. rewrite bool_decide_eq_false_2 by done.
    unfold tlv8_append. by rewrite lookup_insert_eq, Hm.
  - apply IH; [done|done|]. destruct (bytes_eqb w []); [done|]. unfold tlv8_append.
    rewrite lookup_insert_ne; [done|]. intros <-. apply Hk. apply list_elem_of_fmap. by exists (k, v).
Qed.


(** TLV8 fields survive: decoding the encoding of a list of fields with
    octet types gives, for each type, the concatenation of the values listed
    under it, whatever their lengths; empty values leave no trace. *)
Theorem tlv8_roundtrip fields :
  decode_tlv8 (encode_tlv8 fields)
  = fold_left (fun m f => if bytes_eqb f.2 [] then m else tlv8_append m f.1 f.2) fields ∅.
Proof. apply decode_encode_tlv8. Qed.

(** A repeated Content-Length whose first value is 2^64 - 1 escapes the check
    for duplicates, since that value is the mark for none seen. *)
Example duplicate_length_accepted :
  complete_response_size (crlf_lines [bs "RTSP/1.0 200 OK";
    bs "Content-Length: 18446744073709551615"; bs "Content-Length: 1"] ++ CRLF ++ [7])
  = Some 77%nat.
Proof. vm_compute. reflexivity. Qed.
