(* ===== verification/Bplist.v ===== *)
(** * Binary property lists

    [src/include/aa2acp/airplay/bplist.hpp] and [src/src/airplay/bplist.cpp]:
    the value type, the encoder with its table of nodes and the decoder with its
    limits on depth, nodes and copied octets.  A [double] is its 64-bit pattern;
    a dictionary ([std::map]) is an association list in key order. *)

From S2P Require Import Prelude Text.
#[local] Open Scope Z_scope.

(** ** Values *)

(* src/include/aa2acp/airplay/bplist.hpp:13-26 PlistValue *)
#[warnings="-register-all"]
Inductive PlistValue :=
| PBool (b : bool)
| PInt (n : Z)
| PReal (bits : Z)
| PString (s : Bytes)
| PData (d : Bytes)
| PArray (items : list PlistValue)
| PDict (entries : list (Bytes * PlistValue)).

(** [std::string::operator<]: lexicographic on unsigned octets. *)
Fixpoint bytes_ltb (a b : Bytes) : bool :=
  match a, b with
  | _, [] => false
  | [], _ :: _ => true
  | x :: a, y :: b => (x <? y) || ((x =? y) && bytes_ltb a b)
  end.

(** [Dictionary::emplace]: in order, the first value of a key stays. *)
Fixpoint emplace (key : Bytes) (value : PlistValue) (d : list (Bytes * PlistValue))
    : list (Bytes * PlistValue) :=
  match d with
  | [] => [(key, value)]
  | (k, v) :: t =>
      if bytes_ltb key k then (key, value) :: d
      else if bytes_eqb key k then d
      else (k, v) :: emplace key value t
  end.

(** ** Encoding *)

(* src/src/airplay/bplist.cpp:11-12 magic *)
Definition magic : Bytes := [98; 112; 108; 105; 115; 116; 48; 48].

(** [append_be] is [be_bytes] of the prelude. *)
(* src/src/airplay/bplist.cpp:14-18 append_be *)
Definition append_be (target : Bytes) (value : Z) (size : nat) : Bytes :=
  target ++ be_bytes size value.

(* src/src/airplay/bplist.cpp:31-39 bytes_for *)
Definition bytes_for (value : Z) : nat :=
  if value <=? 255 then 1%nat
  else if value <=? 65535 then 2%nat
  else if value <=? 4294967295 then 4%nat
  else 8%nat.

(* src/src/airplay/bplist.cpp:41-43 log2_bytes *)
Definition log2_bytes (size : nat) : Z :=
  if Nat.eqb size 1 then 0 else if Nat.eqb size 2 then 1 else if Nat.eqb size 4 then 2 else 3.

(* src/src/airplay/bplist.cpp:45-53 count_marker *)
Definition count_marker (type count : Z) : Bytes :=
  if count <? 15 then [u8 (Z.lor (Z.shiftl type 4) count)]
  else
    let size := bytes_for count in
    append_be [u8 (Z.lor (Z.shiftl type 4) 15); u8 (Z.lor 16 (log2_bytes size))] count size.

(* src/src/airplay/bplist.cpp:55-60 integer *)
Definition integer (value : Z) : Bytes :=
  let size := bytes_for value in append_be [u8 (Z.lor 16 (log2_bytes size))] value size.

(* src/src/airplay/bplist.cpp:62-65 Node *)
Record Node := mkNode { node_bytes : Bytes; node_refs : list nat }.

(* src/src/airplay/bplist.cpp:111-115 Encoder::encode (string) *)
Definition string_bytes (value : Bytes) : Bytes := count_marker 5 (size_of value) ++ value.
(* src/src/airplay/bplist.cpp:116-120 Encoder::encode (Bytes) *)
Definition data_bytes (value : Bytes) : Bytes := count_marker 4 (size_of value) ++ value.

(** [add] of a node without references. *)
Definition add_leaf (bytes : Bytes) (nodes : list Node) : nat * list Node :=
  let index := length nodes in
  (index, <[index := mkNode bytes []]> (nodes ++ [mkNode [] []])).

(** [nodes_] is threaded through; a node's slot is taken before its children
    are added and filled in afterwards. *)
(* src/src/airplay/bplist.cpp:69-145 Encoder::add, Encoder::encode *)
Fixpoint add (value : PlistValue) (nodes : list Node) {struct value} : nat * list Node :=
  match value with
  | PBool b => add_leaf [if b then 9 else 8] nodes
  | PInt n => add_leaf (integer n) nodes
  | PReal bits => add_leaf (append_be [35] bits 8) nodes
  | PString s => add_leaf (string_bytes s) nodes
  | PData d => add_leaf (data_bytes d) nodes
  | PArray items =>
      let index := length nodes in
      let nodes := nodes ++ [mkNode [] []] in
      let fix add_items (items : list PlistValue) (nodes : list Node) : list nat * list Node :=
        match items with
        | [] => ([], nodes)
        | item :: items =>
            let (ref, nodes) := add item nodes in
            let (refs, nodes) := add_items items nodes in
            (ref :: refs, nodes)
        end in
      let (refs, nodes) := add_items items nodes in
      (index, <[index := mkNode (count_marker 10 (size_of refs)) refs]> nodes)
  | PDict entries =>
      let index := length nodes in
      let nodes := nodes ++ [mkNode [] []] in
      let fix add_keys (entries : list (Bytes * PlistValue)) (nodes : list Node)
          : list nat * list Node :=
        match entries with
        | [] => ([], nodes)
        | (key, _) :: entries =>
            let (ref, nodes) := add_leaf (string_bytes key) nodes in
            let (refs, nodes) := add_keys entries nodes in
            (ref :: refs, nodes)
        end in
      let fix add_values (entries : list (Bytes * PlistValue)) (nodes : list Node)
          : list nat * list Node :=
        match entries with
        | [] => ([], nodes)
        | (_, item) :: entries =>
            let (ref, nodes) := add item nodes in
            let (refs, nodes) := add_values entries nodes in
            (ref :: refs, nodes)
        end in
      let (key_refs, nodes) := add_keys entries nodes in
      let (value_refs, nodes) := add_values entries nodes in
      (index, <[index := mkNode (count_marker 13 (size_of entries)) (key_refs ++ value_refs)]> nodes)
  end.

(** A node as it stands in the file. *)
Definition node_block (ref_size : nat) (node : Node) : Bytes :=
  node_bytes node ++ concat (map (fun ref => be_bytes ref_size (Z.of_nat ref)) (node_refs node)).

(** The offset of each node, the first being right after the magic. *)
Fixpoint node_offsets (ref_size start : nat) (nodes : list Node) : list nat :=
  match nodes with
  | [] => []
  | node :: nodes => start :: node_offsets ref_size (start + length (node_block ref_size node)) nodes
  end.

(* src/src/airplay/bplist.cpp:77-98 Encoder::finish *)
Definition finish (top : nat) (nodes : list Node) : Bytes :=
  let ref_size := bytes_for (size_of nodes - 1) in
  let offsets := node_offsets ref_size 8 nodes in
  let result := magic ++ concat (map (node_block ref_size) nodes) in
  let offset_table := size_of result in
  let offset_size := bytes_for offset_table in
  result ++ concat (map (fun offset => be_bytes offset_size (Z.of_nat offset)) offsets)
  ++ repeat 0 6 ++ [Z.of_nat offset_size; Z.of_nat ref_size]
  ++ be_bytes 8 (size_of nodes) ++ be_bytes 8 (Z.of_nat top) ++ be_bytes 8 offset_table.

(* src/src/airplay/bplist.cpp:321-324 encode_bplist *)
Definition encode_bplist (root : PlistValue) : Bytes :=
  let (top, nodes) := add root [] in finish top nodes.

(** ** Decoding *)

(* src/src/airplay/bplist.cpp:184-184 Decoder::kMaxDepth *)
Definition kMaxDepth : nat := 64.
(* src/src/airplay/bplist.cpp:185-185 Decoder::kMaxMaterializedNodes *)
Definition kMaxMaterializedNodes : Z := 65536.
(* src/src/airplay/bplist.cpp:188-188 Decoder::kMaxMaterializedBytes *)
Definition kMaxMaterializedBytes : Z := 8 * 1024 * 1024.

(* src/src/airplay/bplist.cpp:20-29 read_be *)
Definition read_be (bytes : Bytes) (offset size : nat) : option Z :=
  if (8 <? size)%nat || (length bytes <? offset)%nat || (length bytes - offset <? size)%nat
  then None
  else Some (be_value (subspan offset size bytes)).

(** [static_cast<double>(std::bit_cast<float>(x))] on bit patterns. *)
Definition double_of_float (x : Z) : Z :=
  let sign := Z.shiftl (Z.shiftr x 31) 63 in
  let exponent := Z.land (Z.shiftr x 23) 255 in
  let mantissa := Z.land x 8388607 in
  if exponent =? 255 then
    Z.lor sign (Z.lor (Z.shiftl 2047 52)
      (if mantissa =? 0 then 0 else Z.lor (Z.shiftl mantissa 29) (Z.shiftl 1 51)))
  else if exponent =? 0 then
    if mantissa =? 0 then sign
    else
      let k := Z.log2 mantissa in
      Z.lor sign (Z.lor (Z.shiftl (k - 149 + 1023) 52) (Z.shiftl (mantissa - 2 ^ k) (52 - k)))
  else Z.lor sign (Z.lor (Z.shiftl (exponent - 127 + 1023) 52) (Z.shiftl mantissa 29)).

(** The octets of one UTF-16 code unit. *)
(* src/src/airplay/bplist.cpp:257-269 Decoder::object (code unit) *)
Definition utf8_of_unit (code : Z) : Bytes :=
  if code <? 128 then [code]
  else if code <? 2048 then [Z.lor 192 (Z.shiftr code 6); Z.lor 128 (Z.land code 63)]
  else [Z.lor 224 (Z.shiftr code 12); Z.lor 128 (Z.land (Z.shiftr code 6) 63);
        Z.lor 128 (Z.land code 63)].

Fixpoint utf8_of_utf16 (bytes : Bytes) : Bytes :=
  match bytes with
  | hi :: lo :: t => utf8_of_unit (Z.lor (Z.shiftl hi 8) lo) ++ utf8_of_utf16 t
  | _ => []
  end.

(** The mutable counters: nodes and octets materialized. *)
Definition Counters : Type := Z * Z.

Section Decoder.
Context (bytes : Bytes) (offsets : list nat) (ref_size : nat).

(** The count of a container and the offset of its data. *)
(* src/src/airplay/bplist.cpp:190-201 Decoder::count *)
Definition count (offset : nat) (nibble : Z) : option (Z * nat) :=
  if negb (nibble =? 15) then Some (nibble, offset + 1)%nat
  else if (length bytes <? offset + 2)%nat || negb (Z.shiftr (byte_at bytes (offset + 1)) 4 =? 1)
  then None
  else
    let size := Z.to_nat (Z.shiftl 1 (Z.land (byte_at bytes (offset + 1)) 15)) in
    match read_be bytes (offset + 2) size with
    | None => None
    | Some value => Some (value, offset + 2 + size)%nat
    end.

(** The references of a container, each below the number of nodes. *)
(* src/src/airplay/bplist.cpp:277-285 Decoder::object (references) *)
Fixpoint read_refs (data_offset n : nat) : option (list nat) :=
  match n with
  | O => Some []
  | S n =>
      match read_be bytes data_offset ref_size with
      | None => None
      | Some ref =>
          if size_of offsets <=? ref then None
          else cons (Z.to_nat ref) <$> read_refs (data_offset + ref_size) n
      end
  end.

(** [fuel] is [kMaxDepth + 1 - depth]: at zero the depth is over the limit. *)
(* src/src/airplay/bplist.cpp:203-309 Decoder::object *)
Fixpoint object (fuel : nat) (index : nat) (c : Counters) : option (PlistValue * Counters) :=
  match fuel, offsets !! index with
  | S fuel, Some offset =>
      let '(nodes, copied) := c in
      let nodes := nodes + 1 in
      if kMaxMaterializedNodes <? nodes then None
      else
        let marker := byte_at bytes offset in
        let type := Z.shiftr marker 4 in
        let nibble := Z.land marker 15 in
        if (type =? 0) && ((nibble =? 8) || (nibble =? 9)) then
          Some (PBool (nibble =? 9), (nodes, copied))
        else if type =? 1 then
          match read_be bytes (offset + 1) (Z.to_nat (Z.shiftl 1 nibble)) with
          | None => None
          | Some value => Some (PInt value, (nodes, copied))
          end
        else if type =? 2 then
          match read_be bytes (offset + 1) (Z.to_nat (Z.shiftl 1 nibble)) with
          | None => None
          | Some value =>
              if nibble =? 3 then Some (PReal value, (nodes, copied))
              else if nibble =? 2 then Some (PReal (double_of_float (u32 value)), (nodes, copied))
              else None
          end
        else
          match count offset nibble with
          | None => None
          | Some (items, data_offset) =>
              let room := size_of bytes - Z.of_nat data_offset in
              if ((type =? 4) || (type =? 5)) && (0 <=? room) && (items <=? room) then
                let copied := copied + items in
                if kMaxMaterializedBytes <? copied then None
                else
                  let data := subspan data_offset (Z.to_nat items) bytes in
                  Some (if type =? 4 then PData data else PString data, (nodes, copied))
              else if (type =? 6) && (0 <=? room) && (items <=? room / 2) then
                let copied := copied + items * 3 in
                if kMaxMaterializedBytes <? copied then None
                else Some (PString (utf8_of_utf16 (subspan data_offset (Z.to_nat items * 2) bytes)),
                           (nodes, copied))
              else if ((type =? 10) || (type =? 13)) && (0 <=? room)
                      && (items <=? room / Z.of_nat ref_size)
                      && (negb (type =? 13) || (items <=? room / (2 * Z.of_nat ref_size))) then
                let n := Z.to_nat items in
                match read_refs data_offset (if type =? 13 then (n * 2)%nat else n) with
                | None => None
                | Some refs =>
                    if type =? 10 then
                      let fix items_of (refs : list nat) (c : Counters)
                          : option (list PlistValue * Counters) :=
                        match refs with
                        | [] => Some ([], c)
                        | ref :: refs =>
                            match object fuel ref c with
                            | None => None
                            | Some (value, c) =>
                                match items_of refs c with
                                | None => None
                                | Some (values, c) => Some (value :: values, c)
                                end
                            end
                        end in
                      match items_of refs (nodes, copied) with
                      | None => None
                      | Some (values, c) => Some (PArray values, c)
                      end
                    else
                      let fix entries_of (key_refs value_refs : list nat)
                          (d : list (Bytes * PlistValue)) (c : Counters)
                          : option (list (Bytes * PlistValue) * Counters) :=
                        match key_refs, value_refs with
                        | k :: key_refs, v :: value_refs =>
                            match object fuel k c with
                            | Some (PString key, c) =>
                                match object fuel v c with
                                | None => None
                                | Some (value, c) =>
                                    entries_of key_refs value_refs (emplace key value d) c
                                end
                            | _ => None
                            end
                        | _, _ => Some (d, c)
                        end in
                      match entries_of (take n refs) (drop n refs) [] (nodes, copied) with
                      | None => None
                      | Some (d, c) => Some (PDict d, c)
                      end
                end
              else None
          end
  | _, _ => None
  end.
End Decoder.

(** The offset table: every offset lies before the table. *)
(* src/src/airplay/bplist.cpp:169-175 Decoder::decode (offsets) *)
Fixpoint read_offsets (bytes : Bytes) (table : Z) (position offset_size n : nat) : option (list nat) :=
  match n with
  | O => Some []
  | S n =>
      match read_be bytes position offset_size with
      | None => None
      | Some offset =>
          if table <=? offset then None
          else cons (Z.to_nat offset) <$> read_offsets bytes table (position + offset_size) offset_size n
      end
  end.

(* src/src/airplay/bplist.cpp:153-177 Decoder::decode *)
Definition decode_bplist_counted (bytes : Bytes) : option (PlistValue * Counters) :=
  if (size_of bytes <? 40) || negb (starts_with magic bytes) then None
  else
    let trailer := (length bytes - 32)%nat in
    let offset_size := byte_at bytes (trailer + 6) in
    let ref_size := byte_at bytes (trailer + 7) in
    match read_be bytes (trailer + 8) 8, read_be bytes (trailer + 16) 8,
          read_be bytes (trailer + 24) 8 with
    | Some count, Some top, Some table =>
        if (count =? 0) || (count <=? top) || (offset_size =? 0) || (ref_size =? 0)
           || (65536 <? count) || (size_of bytes <? table)
           || ((size_of bytes - table) / offset_size <? count)
        then None
        else
          match read_offsets bytes table (Z.to_nat table) (Z.to_nat offset_size) (Z.to_nat count) with
          | None => None
          | Some offsets => object bytes offsets (Z.to_nat ref_size) (S kMaxDepth) (Z.to_nat top) (0, 0)
          end
    | _, _, _ => None
    end.

(* src/src/airplay/bplist.cpp:326-329 decode_bplist *)
Definition decode_bplist (bytes : Bytes) : option PlistValue := fst <$> decode_bplist_counted bytes.

Example decode_encode_sample :
  let v := PDict [(bs "a", PArray [PBool true; PInt 70000; PData [1; 2]]); (bs "b", PReal 5);
                  (bs "c", PString (repeat 65 20))] in
  decode_bplist (encode_bplist v) = Some v.
Proof. vm_compute. reflexivity. Qed.
