(* ===== verification/BplistFacts.v ===== *)
(** * Properties of binary property lists

    Measures of a value (nodes, copied octets, depth), what the encoder's node
    table holds, and how the decoder reads a node back from the file. *)

From Stdlib Require Import Sorting.Sorted.
From S2P Require Import Prelude Text Bplist.
#[local] Open Scope Z_scope.

(** ** Induction and measures *)

Section Induction.
Context (P : PlistValue -> Prop).
Context (Hbool : forall b, P (PBool b)) (Hint : forall n, P (PInt n)) (Hreal : forall r, P (PReal r))
  (Hstring : forall s, P (PString s)) (Hdata : forall d, P (PData d))
  (Harray : forall items, Forall P items -> P (PArray items))
  (Hdict : forall entries, Forall (fun e => P e.2) entries -> P (PDict entries)).

Fixpoint plist_ind (v : PlistValue) : P v :=
  match v with
  | PBool b => Hbool b
  | PInt n => Hint n
  | PReal r => Hreal r
  | PString s => Hstring s
  | PData d => Hdata d
  | PArray items => Harray items ((fix go l : Forall P l :=
      match l with [] => Forall_nil_2 _ | x :: t => Forall_cons_2 _ _ _ (plist_ind x) (go t) end) items)
  | PDict entries => Hdict entries ((fix go l : Forall (fun e => P e.2) l :=
      match l with [] => Forall_nil_2 _ | x :: t => Forall_cons_2 _ _ _ (plist_ind x.2) (go t) end) entries)
  end.
End Induction.

(** Nodes a value takes in a file, and visits when it is decoded. *)
Fixpoint pv_nodes (v : PlistValue) : Z :=
  match v with
  | PArray items => 1 + fold_right (fun v acc => pv_nodes v + acc) 0 items
  | PDict entries => 1 + fold_right (fun e acc => 1 + pv_nodes e.2 + acc) 0 entries
  | _ => 1
  end.

(** Octets of data copied out of the file. *)
Fixpoint pv_copied (v : PlistValue) : Z :=
  match v with
  | PString s => size_of s
  | PData d => size_of d
  | PArray items => fold_right (fun v acc => pv_copied v + acc) 0 items
  | PDict entries => fold_right (fun e acc => size_of e.1 + pv_copied e.2 + acc) 0 entries
  | _ => 0
  end.

Fixpoint pv_depth (v : PlistValue) : nat :=
  match v with
  | PArray items => fold_right (fun v acc => Nat.max (S (pv_depth v)) acc) O items
  | PDict entries => fold_right (fun e acc => Nat.max (S (pv_depth e.2)) acc) O entries
  | _ => O
  end.

Definition key_lt (a b : Bytes * PlistValue) : Prop := bytes_ltb a.1 b.1 = true.

(** Integers and doubles at 64 bits, octets at eight, keys in strict order. *)
Fixpoint pv_ok (v : PlistValue) : Prop :=
  match v with
  | PBool _ => True
  | PInt n => is_u64 n
  | PReal bits => is_u64 bits
  | PString s => bytes_ok s
  | PData d => bytes_ok d
  | PArray items => fold_right (fun v acc => pv_ok v /\ acc) True items
  | PDict entries =>
      StronglySorted key_lt entries /\
      fold_right (fun e acc => (bytes_ok e.1 /\ pv_ok e.2) /\ acc) True entries
  end.

Lemma pv_nodes_pos v : 1 <= pv_nodes v.
Proof.
  induction v as [| | | | |items IH|entries IH] using plist_ind; simpl; try lia.
  - induction IH; simpl; lia.
  - induction IH; simpl; lia.
Qed.

Lemma pv_copied_nonneg v : 0 <= pv_copied v.
Proof.
  induction v as [| | | | |items IH|entries IH] using plist_ind; simpl; try apply size_nonneg; try lia.
  - induction IH; simpl; lia.
  - induction IH as [|[k x] es Hx Hes IH]; simpl in *; [lia|]. pose proof (size_nonneg k). lia.
Qed.

(** ** Keys *)

Lemma bytes_ltb_irrefl a : bytes_ltb a a = false.
Proof. induction a as [|x a IH]; simpl; [done|]. by rewrite Z.ltb_irrefl, Z.eqb_refl, IH. Qed.

Lemma bytes_ltb_asym a b : bytes_ltb a b = true -> bytes_ltb b a = false.
Proof.
  revert b. induction a as [|x a IH]; intros [|y b]; simpl; try done.
  intros H. apply orb_prop in H as [H|[H1 H2]%andb_prop]; bool_hyps.
  - rewrite (proj2 (Z.ltb_ge y x)), (proj2 (Z.eqb_neq y x)) by lia. done.
  - subst y. rewrite Z.ltb_irrefl, Z.eqb_refl. simpl. auto.
Qed.

(** A key above all the keys of a dictionary goes to its end. *)
Lemma emplace_last key value d :
  Forall (fun e => bytes_ltb e.1 key = true) d -> emplace key value d = d ++ [(key, value)].
Proof.
  induction 1 as [|[k v] d Hk Hd IH]; simpl in *; [done|].
  rewrite (bytes_ltb_asym _ _ Hk). destruct (bytes_eqb key k) eqn:E.
  - apply bytes_eqb_eq in E as ->. rewrite bytes_ltb_irrefl in Hk. done.
  - by rewrite IH.
Qed.

(** ** The encoder's table *)

(** The octets of a value that is one node. *)
Definition leaf_bytes (v : PlistValue) : option Bytes :=
  match v with
  | PBool b => Some [if b then 9 else 8]
  | PInt n => Some (integer n)
  | PReal bits => Some (append_be [35] bits 8)
  | PString s => Some (string_bytes s)
  | PData d => Some (data_bytes d)
  | PArray _ | PDict _ => None
  end.

(** The nodes represent a value at an index. *)
#[warnings="-register-all"]
Inductive holds (nodes : list Node) : nat -> PlistValue -> Prop :=
| holds_leaf i v b :
    leaf_bytes v = Some b -> nodes !! i = Some (mkNode b []) -> holds nodes i v
| holds_array i items refs :
    nodes !! i = Some (mkNode (count_marker 10 (size_of refs)) refs) ->
    Forall2 (holds nodes) refs items -> holds nodes i (PArray items)
| holds_dict i entries key_refs value_refs :
    nodes !! i = Some (mkNode (count_marker 13 (size_of entries)) (key_refs ++ value_refs)) ->
    Forall2 (fun r e => nodes !! r = Some (mkNode (string_bytes e.1) [])) key_refs entries ->
    Forall2 (fun r e => holds nodes r e.2) value_refs entries -> holds nodes i (PDict entries).

Fixpoint add_items (items : list PlistValue) (nodes : list Node) : list nat * list Node :=
  match items with
  | [] => ([], nodes)
  | item :: items =>
      let (ref, nodes) := add item nodes in
      let (refs, nodes) := add_items items nodes in (ref :: refs, nodes)
  end.

Fixpoint add_keys (entries : list (Bytes * PlistValue)) (nodes : list Node) : list nat * list Node :=
  match entries with
  | [] => ([], nodes)
  | (key, _) :: entries =>
      let (ref, nodes) := add_leaf (string_bytes key) nodes in
      let (refs, nodes) := add_keys entries nodes in (ref :: refs, nodes)
  end.

Fixpoint add_values (entries : list (Bytes * PlistValue)) (nodes : list Node) : list nat * list Node :=
  match entries with
  | [] => ([], nodes)
  | (_, item) :: entries =>
      let (ref, nodes) := add item nodes in
      let (refs, nodes) := add_values entries nodes in (ref :: refs, nodes)
  end.

Lemma add_array items nodes :
  add (PArray items) nodes =
  let (refs, nodes') := add_items items (nodes ++ [mkNode [] []]) in
  (length nodes, <[length nodes := mkNode (count_marker 10 (size_of refs)) refs]> nodes').
Proof. reflexivity. Qed.

Lemma add_dict entries nodes :
  add (PDict entries) nodes =
  let (key_refs, nodes1) := add_keys entries (nodes ++ [mkNode [] []]) in
  let (value_refs, nodes2) := add_values entries nodes1 in
  (length nodes,
   <[length nodes := mkNode (count_marker 13 (size_of entries)) (key_refs ++ value_refs)]> nodes2).
Proof. reflexivity. Qed.

Lemma insert_at {A} (l : list A) x y t : <[length l := y]> (l ++ x :: t) = l ++ y :: t.
Proof. rewrite insert_app_r_alt by lia. by rewrite Nat.sub_diag. Qed.

Lemma add_leaf_eq bytes nodes : add_leaf bytes nodes = (length nodes, nodes ++ [mkNode bytes []]).
Proof. unfold add_leaf. by rewrite insert_at. Qed.

Lemma lookup_mid {A} (pre : list A) x post i : i = length pre -> (pre ++ x :: post) !! i = Some x.
Proof. intros ->. by apply list_lookup_middle. Qed.

(** A node with something in it. *)
Definition filled (node : Node) : Prop := node_bytes node <> [].

Lemma count_marker_filled t n : count_marker t n <> [].
Proof. unfold count_marker. by case_match. Qed.

Lemma leaf_filled v b : leaf_bytes v = Some b -> b <> [].
Proof.
  destruct v; cbn [leaf_bytes]; intros [= <-]; try done;
    intros [E _]%app_eq_nil; by apply count_marker_filled in E.
Qed.

(** What adding does: new nodes go to the end, and they represent the value
    whatever the nodes before and after them are. *)
Definition added (v : PlistValue) : Prop := forall nodes, exists new,
  add v nodes = (length nodes, nodes ++ new) /\ size_of new = pv_nodes v /\ Forall filled new /\
  forall pre post, length pre = length nodes -> holds (pre ++ new ++ post) (length nodes) v.

Lemma leaf_added v b : leaf_bytes v = Some b -> added v.
Proof.
  intros Hb nodes. exists [mkNode b []].
  assert (add v nodes = add_leaf b nodes) as ->. { destruct v; simplify_eq/=; done. }
  rewrite add_leaf_eq. split_and!; [done|by destruct v|apply Forall_singleton; by eapply leaf_filled|].
  intros pre post Hl. eapply holds_leaf; [done|]. by apply lookup_mid.
Qed.

Lemma items_added items : Forall added items -> forall nodes, exists refs new,
  add_items items nodes = (refs, nodes ++ new) /\ length refs = length items /\
  size_of new = fold_right (fun v acc => pv_nodes v + acc) 0 items /\ Forall filled new /\
  forall pre post, length pre = length nodes -> Forall2 (holds (pre ++ new ++ post)) refs items.
Proof.
  induction 1 as [|v items Hv Hitems IH]; intros nodes.
  - exists [], []. cbn. rewrite app_nil_r. split_and!; done || constructor.
  - destruct (Hv nodes) as (new1 & Ha & Hn1 & Hf1 & Hh1). destruct (IH (nodes ++ new1))
      as (refs & new2 & Hb & Hlen & Hn2 & Hf2 & Hh2).
    exists (length nodes :: refs), (new1 ++ new2). cbn [add_items fold_right length].
    rewrite Ha, Hb, <- app_assoc, size_app. split_and!; [done|lia|lia|by apply Forall_app_2|].
    intros pre post Hl. constructor.
    + rewrite <- app_assoc. by apply Hh1.
    + rewrite <- app_assoc. rewrite (app_assoc pre). apply Hh2. rewrite !length_app. lia.
Qed.

Lemma keys_added entries : forall nodes, exists refs new,
  add_keys entries nodes = (refs, nodes ++ new) /\ length refs = length entries /\
  length new = length entries /\ Forall filled new /\
  forall pre post, length pre = length nodes ->
    Forall2 (fun r e => (pre ++ new ++ post) !! r = Some (mkNode (string_bytes e.1) [])) refs entries.
Proof.
  induction entries as [|[k v] entries IH]; intros nodes.
  - exists [], []. cbn. rewrite app_nil_r. split_and!; done || constructor.
  - destruct (IH (nodes ++ [mkNode (string_bytes k) []])) as (refs & new & Ha & Hlen & Hn & Hfl & Hh).
    exists (length nodes :: refs), (mkNode (string_bytes k) [] :: new).
    cbn [add_keys length]. rewrite add_leaf_eq, Ha, <- app_assoc.
    split_and!; [done|lia|lia|by apply Forall_cons_2; [apply (leaf_filled (PString k))|]|].
    intros pre post Hl. constructor; [by apply lookup_mid|].
    change (pre ++ (mkNode (string_bytes k) [] :: new) ++ post)
      with (pre ++ [mkNode (string_bytes k) []] ++ new ++ post).
    rewrite app_assoc. apply Hh. rewrite !length_app. simpl. lia.
Qed.

Lemma values_added entries : Forall (fun e => added e.2) entries -> forall nodes, exists refs new,
  add_values entries nodes = (refs, nodes ++ new) /\ length refs = length entries /\
  size_of new = fold_right (fun e acc => pv_nodes e.2 + acc) 0 entries /\ Forall filled new /\
  forall pre post, length pre = length nodes ->
    Forall2 (fun r e => holds (pre ++ new ++ post) r e.2) refs entries.
Proof.
  induction 1 as [|[k v] entries Hv Hes IH]; intros nodes.
  - exists [], []. cbn. rewrite app_nil_r. split_and!; done || constructor.
  - destruct (Hv nodes) as (new1 & Ha & Hn1 & Hf1 & Hh1). destruct (IH (nodes ++ new1))
      as (refs & new2 & Hb & Hlen & Hn2 & Hf2 & Hh2).
    exists (length nodes :: refs), (new1 ++ new2). cbn [add_values fold_right length fst snd] in *.
    rewrite Ha, Hb, <- app_assoc, size_app. split_and!; [done|lia|lia|by apply Forall_app_2|].
    intros pre post Hl. constructor.
    + rewrite <- app_assoc. by apply Hh1.
    + replace (pre ++ (new1 ++ new2) ++ post) with ((pre ++ new1) ++ new2 ++ post)
        by (by rewrite <- !app_assoc). apply Hh2. rewrite !length_app. lia.
Qed.

Lemma dict_nodes_split (entries : list (Bytes * PlistValue)) :
  fold_right (fun e acc => 1 + pv_nodes e.2 + acc) 0 entries
  = size_of entries + fold_right (fun e acc => pv_nodes e.2 + acc) 0 entries.
Proof. induction entries as [|e es IH]; simpl; [done|]. rewrite size_cons. lia. Qed.

Lemma add_added v : added v.
Proof.
  induction v as [b|n|r|s|d|items IH|entries IH] using plist_ind; try (eapply leaf_added; done).
  - intros nodes. rewrite add_array.
    destruct (items_added items IH (nodes ++ [mkNode [] []])) as (refs & new & -> & Hlen & Hn & Hfl & Hh).
    exists (mkNode (count_marker 10 (size_of refs)) refs :: new).
    rewrite <- app_assoc. cbn [app pv_nodes]. rewrite insert_at, size_cons.
    split_and!; [done|lia|by apply Forall_cons_2; [apply count_marker_filled|]|].
    intros pre post Hl. eapply holds_array; [by apply lookup_mid|].
    set (node := mkNode _ _).
    replace (pre ++ node :: new ++ post) with ((pre ++ [node]) ++ new ++ post)
      by (by rewrite <- app_assoc). apply Hh. rewrite !length_app. simpl. lia.
  - intros nodes. rewrite add_dict.
    destruct (keys_added entries (nodes ++ [mkNode [] []])) as (kr & kn & -> & Hkl & Hkn & Hkf & Hkh).
    destruct (values_added entries IH ((nodes ++ [mkNode [] []]) ++ kn))
      as (vr & vn & -> & Hvl & Hvn & Hvf & Hvh).
    exists (mkNode (count_marker 13 (size_of entries)) (kr ++ vr) :: kn ++ vn).
    rewrite <- !app_assoc. cbn [app pv_nodes]. rewrite insert_at, size_cons, size_app, dict_nodes_split.
    split_and!; [done|unfold size_of in *; lia|by apply Forall_cons_2;
      [apply count_marker_filled|apply Forall_app_2]|]. intros pre post Hl. set (node := mkNode _ _).
    eapply holds_dict; [by apply lookup_mid| |].
    + replace (pre ++ node :: (kn ++ vn) ++ post) with ((pre ++ [node]) ++ kn ++ (vn ++ post))
        by (by rewrite <- !app_assoc). apply Hkh. rewrite !length_app. simpl. lia.
    + replace (pre ++ node :: (kn ++ vn) ++ post) with (((pre ++ [node]) ++ kn) ++ vn ++ post)
        by (by rewrite <- !app_assoc). apply Hvh. rewrite !length_app. simpl. lia.
Qed.

(** ** Reading fields back *)

Lemma read_be_mid pre b post off n :
  off = length pre -> n = length b -> (n <= 8)%nat ->
  read_be (pre ++ b ++ post) off n = Some (be_value b).
Proof.
  intros -> -> Hn. unfold read_be. rewrite subspan_app, !length_app.
  rewrite (proj2 (Nat.ltb_ge _ _)), (proj2 (Nat.ltb_ge _ (length pre))), (proj2 (Nat.ltb_ge _ (length b)))
    by lia. done.
Qed.

Lemma read_be_field pre x post off n :
  off = length pre -> (n <= 8)%nat -> 0 <= x < 256 ^ Z.of_nat n ->
  read_be (pre ++ be_bytes n x ++ post) off n = Some x.
Proof.
  intros Ho Hn Hx. rewrite (read_be_mid _ _ _ _ n Ho); [|by rewrite length_be_bytes|done].
  by rewrite be_value_bytes_id.
Qed.

Lemma byte_at_mid pre b t off : off = length pre -> byte_at (pre ++ b :: t) off = b.
Proof. intros ->. rewrite <- (Nat.add_0_r (length pre)), byte_at_app_r. done. Qed.

Lemma bytes_for_cases x :
  0 <= x < 2 ^ 64 ->
  (bytes_for x = 1 \/ bytes_for x = 2 \/ bytes_for x = 4 \/ bytes_for x = 8)%nat /\
  x < 256 ^ Z.of_nat (bytes_for x).
Proof.
  intros Hx. unfold bytes_for.
  destruct (x <=? 255) eqn:E1; [split; [tauto|]; bool_hyps; change (256 ^ Z.of_nat 1) with 256; lia|].
  destruct (x <=? 65535) eqn:E2; [split; [tauto|]; bool_hyps; change (256 ^ Z.of_nat 2) with 65536; lia|].
  destruct (x <=? 4294967295) eqn:E3;
    [split; [tauto|]; bool_hyps; change (256 ^ Z.of_nat 4) with 4294967296; lia|].
  split; [tauto|]. change (256 ^ Z.of_nat 8) with (2 ^ 64). lia.
Qed.

(** The marker octet of a type and a nibble. *)
Lemma marker_parts t c :
  0 <= t < 16 -> 0 <= c < 16 ->
  Z.shiftr (u8 (Z.lor (Z.shiftl t 4) c)) 4 = t /\ Z.land (u8 (Z.lor (Z.shiftl t 4) c)) 15 = c.
Proof.
  intros Ht Hc.
  assert (forallb (fun t => forallb (fun c =>
    (Z.shiftr (u8 (Z.lor (Z.shiftl t 4) c)) 4 =? t) && (Z.land (u8 (Z.lor (Z.shiftl t 4) c)) 15 =? c))
    (seqZ 0 16)) (seqZ 0 16) = true) as Hall by (vm_compute; reflexivity).
  rewrite forallb_forall in Hall. specialize (Hall t). rewrite forallb_forall in Hall.
  assert (forall x, 0 <= x < 16 -> In x (seqZ 0 16)) as Hin
    by (intros x Hx; apply list_elem_of_In, elem_of_seqZ; lia).
  specialize (Hall (Hin t Ht) c (Hin c Hc)). by bool_hyps.
Qed.

(** The head of a counted node, read from the file. *)
Lemma count_spec t n pre post :
  0 <= t < 16 -> 0 <= n < 2 ^ 64 ->
  let file := pre ++ count_marker t n ++ post in
  let marker := byte_at file (length pre) in
  Z.shiftr marker 4 = t /\
  count file (length pre) (Z.land marker 15)
  = Some (n, length pre + length (count_marker t n))%nat.
Proof.
  intros Ht Hn file marker. unfold marker, file, count_marker. destruct (n <? 15) eqn:E; bool_hyps.
  - cbn [app]. rewrite byte_at_mid by done. destruct (marker_parts t n) as [-> ->]; [lia..|].
    split; [done|]. unfold count. by rewrite (proj2 (Z.eqb_neq n 15)) by lia.
  - unfold append_be. cbn [app]. rewrite byte_at_mid by done.
    destruct (marker_parts t 15) as [-> ->]; [lia..|]. split; [done|]. unfold count.
    set (m := u8 (Z.lor (Z.shiftl t 4) 15)).
    destruct (bytes_for_cases n Hn) as [Hs Hlt]. set (size := bytes_for n) in *.
    change (negb (15 =? 15)) with false. cbv iota.
    set (m2 := u8 (Z.lor 16 (log2_bytes size))).
    assert (Z.shiftr m2 4 = 1 /\ Z.to_nat (Z.shiftl 1 (Z.land m2 15)) = size) as [Hm1 Hm2]
      by (unfold m2; destruct Hs as [-> | [-> | [-> | ->]]]; done).
    replace (pre ++ m :: m2 :: be_bytes size n ++ post)
      with ((pre ++ [m]) ++ m2 :: (be_bytes size n ++ post)) by (by rewrite <- app_assoc).
    rewrite byte_at_mid, Hm1, Hm2 by (rewrite length_app; simpl; lia).
    rewrite (proj2 (Nat.ltb_ge _ _)) by (rewrite !length_app; simpl; lia). cbn [orb Z.eqb negb].
    change (negb (1 =? 1)) with false. cbv iota.
    replace ((pre ++ [m]) ++ m2 :: be_bytes size n ++ post)
      with ((pre ++ [m; m2]) ++ be_bytes size n ++ post) by (by rewrite <- !app_assoc).
    rewrite read_be_field by (rewrite ?length_app; simpl; lia || (destruct Hs as [-> | [-> | [-> | ->]]]; lia)).
    do 2 f_equal. simpl. rewrite length_be_bytes. lia.
Qed.

Lemma count_marker_ok t n : bytes_ok (count_marker t n).
Proof. unfold count_marker. case_match; unfold append_be; bytes_solve. Qed.

(** ** Decoding a node table *)

Section Containers.
Context (object : nat -> Counters -> option (PlistValue * Counters)).

Fixpoint items_of (refs : list nat) (c : Counters) : option (list PlistValue * Counters) :=
  match refs with
  | [] => Some ([], c)
  | ref :: refs =>
      match object ref c with
      | None => None
      | Some (value, c) =>
          match items_of refs c with
          | None => None
          | Some (values, c) => Some (value :: values, c)
          end
      end
  end.

Fixpoint entries_of (key_refs value_refs : list nat) (d : list (Bytes * PlistValue)) (c : Counters)
    : option (list (Bytes * PlistValue) * Counters) :=
  match key_refs, value_refs with
  | k :: key_refs, v :: value_refs =>
      match object k c with
      | Some (PString key, c) =>
          match object v c with
          | None => None
          | Some (value, c) => entries_of key_refs value_refs (emplace key value d) c
          end
      | _ => None
      end
  | _, _ => Some (d, c)
  end.
End Containers.

Section Reading.
Context (file : Bytes) (offsets : list nat) (ref_size : nat) (nodes : list Node).
Context (Hlayout : forall i node, nodes !! i = Some node -> exists pre post,
  offsets !! i = Some (length pre) /\ file = pre ++ node_block ref_size node ++ post).
Context (Hoffsets : length offsets = length nodes) (Hsize : (1 <= ref_size <= 8)%nat)
  (Hfits : forall r, (r < length nodes)%nat -> Z.of_nat r < 256 ^ Z.of_nat ref_size).

Lemma read_refs_mid refs : forall pre post off,
  file = pre ++ concat (map (fun ref => be_bytes ref_size (Z.of_nat ref)) refs) ++ post ->
  off = length pre -> Forall (fun r => (r < length nodes)%nat) refs ->
  read_refs file offsets ref_size off (length refs) = Some refs.
Proof using Hoffsets Hsize Hfits.
  induction refs as [|r refs IH]; intros pre post off Hf Ho Hr; [done|].
  apply Forall_cons in Hr as [Hr Hrs]. cbn [length read_refs]. cbn [map concat] in Hf.
  rewrite <- app_assoc in Hf. rewrite Hf at 1.
  rewrite read_be_field; [|done|lia|split; [lia|by apply Hfits]].
  rewrite (proj2 (Z.leb_gt _ _)) by (unfold size_of; lia).
  rewrite (IH (pre ++ be_bytes ref_size (Z.of_nat r)) post), Nat2Z.id; [done| |  |done].
  - by rewrite Hf, <- app_assoc.
  - rewrite length_app, length_be_bytes. lia.
Qed.

(** A container node is decoded by decoding what it refers to. *)
Lemma object_container fuel i t m refs nodes_seen copied :
  nodes !! i = Some (mkNode (count_marker t (Z.of_nat m)) refs) ->
  t = 10 \/ t = 13 -> Z.of_nat m < 2 ^ 64 ->
  length refs = (if (t =? 13)%Z then m * 2 else m)%nat ->
  Forall (fun r => (r < length nodes)%nat) refs -> nodes_seen < kMaxMaterializedNodes ->
  object file offsets ref_size (S fuel) i (nodes_seen, copied) =
    if t =? 10 then
      match items_of (object file offsets ref_size fuel) refs (nodes_seen + 1, copied) with
      | None => None
      | Some (values, c) => Some (PArray values, c)
      end
    else
      match entries_of (object file offsets ref_size fuel) (take m refs) (drop m refs) []
              (nodes_seen + 1, copied) with
      | None => None
      | Some (d, c) => Some (PDict d, c)
      end.
Proof using Hlayout Hoffsets Hsize Hfits.
  intros Hn Ht Hm Hlen Hrefs Hseen. destruct (Hlayout i _ Hn) as (pre & post & Hi & Hf).
  unfold node_block in Hf. cbn [node_bytes node_refs] in Hf. rewrite <- app_assoc in Hf.
  set (blob := concat _) in Hf.
  destruct (count_spec t (Z.of_nat m) pre (blob ++ post)) as [Htype Hcount]; [lia..|].
  rewrite <- Hf in Htype, Hcount. cbn [object]. rewrite Hi.
  rewrite (proj2 (Z.ltb_ge _ _)) by lia. cbv zeta. rewrite Htype, Hcount.
  assert ((t =? 0) = false /\ (t =? 1) = false /\ (t =? 2) = false /\ (t =? 4) = false /\
    (t =? 5) = false /\ (t =? 6) = false /\ (t =? 10) || (t =? 13) = true)
    as (-> & -> & -> & -> & -> & -> & ->) by (by destruct Ht as [-> | ->]).
  cbn [andb orb].
  set (data := (length pre + length (count_marker t (Z.of_nat m)))%nat).
  assert (size_of file - Z.of_nat data = Z.of_nat (length refs * ref_size) + size_of post) as ->.
  { assert (length blob = length refs * ref_size)%nat as Hb.
    { unfold blob. clear -refs. induction refs as [|r rs IH]; [done|]. simpl.
      rewrite length_app, length_be_bytes. lia. }
    unfold data. rewrite Hf at 1. rewrite !size_app. unfold size_of. lia. }
  pose proof (size_nonneg post).
  rewrite (proj2 (Z.leb_le 0 _)) by lia. cbn [andb].
  rewrite (proj2 (Z.leb_le (Z.of_nat m) (_ / Z.of_nat ref_size))).
  2: { apply Z.div_le_lower_bound; [lia|]. destruct (t =? 13); nia. }
  cbn [andb].
  assert (negb (t =? 13) || (Z.of_nat m <=?
    (Z.of_nat (length refs * ref_size) + size_of post) / (2 * Z.of_nat ref_size)) = true) as ->.
  { destruct (t =? 13); [|done]. cbn [negb orb]. apply Z.leb_le, Z.div_le_lower_bound; nia. }
  assert ((if t =? 13 then (Z.to_nat (Z.of_nat m) * 2)%nat else Z.to_nat (Z.of_nat m)) = length refs)
    as -> by (rewrite Nat2Z.id, Hlen; by destruct (t =? 13)).
  rewrite (read_refs_mid refs (pre ++ count_marker t (Z.of_nat m)) post data);
    [|by rewrite Hf, <- app_assoc|by rewrite length_app|done].
  rewrite Nat2Z.id. reflexivity.
Qed.

(** The octets of a string or of data stand behind their marker and their count. *)
Lemma counted_octets t d pre post :
  file = pre ++ (count_marker t (size_of d) ++ d) ++ post -> t = 4 \/ t = 5 -> size_of d < 2 ^ 64 ->
  Z.shiftr (byte_at file (length pre)) 4 = t /\
  count file (length pre) (Z.land (byte_at file (length pre)) 15)
  = Some (size_of d, length pre + length (count_marker t (size_of d)))%nat /\
  size_of file - Z.of_nat (length pre + length (count_marker t (size_of d))) = size_of d + size_of post /\
  subspan (length pre + length (count_marker t (size_of d))) (length d) file = d.
Proof using Hoffsets Hsize.
  intros Hf Ht Hd. rewrite <- app_assoc in Hf.
  destruct (count_spec t (size_of d) pre (d ++ post)) as [Htype Hcount]; [lia|pose proof (size_nonneg d); lia|].
  rewrite <- Hf in Htype, Hcount. split_and!; [done..| |].
  - rewrite Hf at 1. rewrite !size_app. unfold size_of. lia.
  - rewrite Hf at 1. rewrite app_assoc. apply subspan_app'; [by rewrite length_app|done].
Qed.

(** A node without references is decoded to the value it encodes. *)
Lemma object_leaf fuel i v b nodes_seen copied :
  leaf_bytes v = Some b -> nodes !! i = Some (mkNode b []) -> pv_ok v ->
  nodes_seen < kMaxMaterializedNodes -> copied + pv_copied v <= kMaxMaterializedBytes -> 0 <= copied ->
  object file offsets ref_size (S fuel) i (nodes_seen, copied)
  = Some (v, (nodes_seen + 1, copied + pv_copied v)).
Proof using Hlayout Hoffsets Hsize.
  intros Hv Hn Hok Hseen Hcop Hc0. destruct (Hlayout i _ Hn) as (pre & post & Hi & Hf).
  unfold node_block in Hf. cbn [node_bytes node_refs map concat] in Hf. rewrite app_nil_r in Hf.
  cbn [object]. rewrite Hi, (proj2 (Z.ltb_ge _ _)) by lia. cbv zeta.
  destruct v as [bo|n|bits|s|d| |]; cbn [leaf_bytes] in Hv; try discriminate Hv;
    injection Hv as <-; cbn [pv_ok pv_copied] in *;
    rewrite ?Z.add_0_r.
  - cbn [app] in Hf. rewrite Hf, byte_at_mid by done. by destruct bo.
  - unfold integer, append_be in Hf. destruct (bytes_for_cases n Hok) as [Hs Hlt].
    set (size := bytes_for n) in *. cbn [app] in Hf. set (m := u8 _) in Hf.
    assert (Z.shiftr m 4 = 1 /\ Z.to_nat (Z.shiftl 1 (Z.land m 15)) = size) as [Hm1 Hm2]
      by (unfold m; destruct Hs as [-> | [-> | [-> | ->]]]; done).
    assert (byte_at file (length pre) = m) as -> by (rewrite Hf; by apply byte_at_mid).
    rewrite Hm1, Hm2. cbn [Z.eqb andb Pos.eqb].
    replace (pre ++ m :: be_bytes size n ++ post) with ((pre ++ [m]) ++ be_bytes size n ++ post)
      in Hf by (by rewrite <- app_assoc).
    rewrite Hf, read_be_field; [done|rewrite length_app; simpl; lia| |split; [apply Hok|done]].
    destruct Hs as [-> | [-> | [-> | ->]]]; lia.
  - unfold append_be in Hf. cbn [app] in Hf.
    assert (byte_at file (length pre) = 35) as -> by (rewrite Hf; by apply byte_at_mid).
    change (Z.shiftr 35 4) with 2. change (Z.land 35 15) with 3. cbn [Z.eqb andb Pos.eqb].
    replace (pre ++ 35 :: be_bytes 8 bits ++ post) with ((pre ++ [35]) ++ be_bytes 8 bits ++ post)
      in Hf by (by rewrite <- app_assoc).
    change (Z.to_nat (Z.shiftl 1 3)) with 8%nat.
    rewrite Hf, read_be_field; [done|rewrite length_app; simpl; lia|lia|exact Hok].
  - destruct (counted_octets 5 s pre post Hf) as (-> & -> & -> & Hsub); [by right|unfold kMaxMaterializedBytes in *; lia|].
    pose proof (size_nonneg s). pose proof (size_nonneg post). cbn [Z.eqb andb orb Pos.eqb].
    rewrite (proj2 (Z.leb_le 0 _)), (proj2 (Z.leb_le (size_of s) _)), (proj2 (Z.ltb_ge _ _)) by lia.
    cbn [andb]. replace (Z.to_nat (size_of s)) with (length s) by (unfold size_of; lia). by rewrite Hsub.
  - destruct (counted_octets 4 d pre post Hf) as (-> & -> & -> & Hsub); [by left|unfold kMaxMaterializedBytes in *; lia|].
    pose proof (size_nonneg d). pose proof (size_nonneg post). cbn [Z.eqb andb orb Pos.eqb].
    rewrite (proj2 (Z.leb_le 0 _)), (proj2 (Z.leb_le (size_of d) _)), (proj2 (Z.ltb_ge _ _)) by lia.
    cbn [andb]. replace (Z.to_nat (size_of d)) with (length d) by (unfold size_of; lia). by rewrite Hsub.
Qed.

Lemma holds_index i v : holds nodes i v -> (i < length nodes)%nat.
Proof. destruct 1; by eapply lookup_lt_Some. Qed.

(** What [object] does at a fuel for the values the table holds. *)
Definition decodes (fuel : nat) : Prop := forall i v nodes_seen copied,
  holds nodes i v -> pv_ok v -> (pv_depth v < fuel)%nat -> 0 <= nodes_seen -> 0 <= copied ->
  nodes_seen + pv_nodes v <= kMaxMaterializedNodes ->
  copied + pv_copied v <= kMaxMaterializedBytes ->
  object file offsets ref_size fuel i (nodes_seen, copied)
  = Some (v, (nodes_seen + pv_nodes v, copied + pv_copied v)).

Lemma items_nonneg items :
  size_of (items : list PlistValue) <= fold_right (fun v acc => pv_nodes v + acc) 0 items /\
  0 <= fold_right (fun v acc => pv_copied v + acc) 0 items.
Proof.
  induction items as [|v items IH]; simpl; [done|]. rewrite size_cons.
  pose proof (pv_nodes_pos v). pose proof (pv_copied_nonneg v). lia.
Qed.

Lemma entries_nonneg entries :
  size_of (entries : list (Bytes * PlistValue))
    <= fold_right (fun e acc => 1 + pv_nodes e.2 + acc) 0 entries /\
  0 <= fold_right (fun e acc => size_of e.1 + pv_copied e.2 + acc) 0 entries.
Proof.
  induction entries as [|[k v] es IH]; simpl; [done|]. rewrite size_cons.
  pose proof (pv_nodes_pos v). pose proof (pv_copied_nonneg v). pose proof (size_nonneg k). lia.
Qed.

Lemma items_decoded fuel refs items : decodes fuel ->
  Forall2 (holds nodes) refs items -> forall nodes_seen copied,
  fold_right (fun v acc => pv_ok v /\ acc) True items ->
  (fold_right (fun v acc => Nat.max (S (pv_depth v)) acc) O items < S fuel)%nat ->
  0 <= nodes_seen -> 0 <= copied ->
  nodes_seen + fold_right (fun v acc => pv_nodes v + acc) 0 items <= kMaxMaterializedNodes ->
  copied + fold_right (fun v acc => pv_copied v + acc) 0 items <= kMaxMaterializedBytes ->
  items_of (object file offsets ref_size fuel) refs (nodes_seen, copied)
  = Some (items, (nodes_seen + fold_right (fun v acc => pv_nodes v + acc) 0 items,
                  copied + fold_right (fun v acc => pv_copied v + acc) 0 items)).
Proof.
  intros Hdec. induction 1 as [|r v refs items Hv Hall IH]; intros n c Hok Hd Hn0 Hc0 Hn Hc;
    cbn [items_of fold_right] in *.
  - by rewrite !Z.add_0_r.
  - destruct Hok as [Hokv Hok]. destruct (items_nonneg items).
    pose proof (pv_nodes_pos v). pose proof (pv_copied_nonneg v). pose proof (size_nonneg items).
    rewrite (Hdec r v) by (done || lia). rewrite IH by (done || lia). do 3 f_equal; lia.
Qed.

Lemma entries_decoded fuel key_refs value_refs entries : decodes fuel ->
  Forall2 (fun r e => nodes !! r = Some (mkNode (string_bytes e.1) [])) key_refs entries ->
  Forall2 (fun r e => holds nodes r e.2) value_refs entries -> forall d nodes_seen copied,
  StronglySorted key_lt entries -> Forall (fun a => Forall (key_lt a) entries) d ->
  fold_right (fun e acc => (bytes_ok e.1 /\ pv_ok e.2) /\ acc) True entries ->
  (fold_right (fun e acc => Nat.max (S (pv_depth e.2)) acc) O entries < S fuel)%nat ->
  0 <= nodes_seen -> 0 <= copied ->
  nodes_seen + fold_right (fun e acc => 1 + pv_nodes e.2 + acc) 0 entries <= kMaxMaterializedNodes ->
  copied + fold_right (fun e acc => size_of e.1 + pv_copied e.2 + acc) 0 entries
    <= kMaxMaterializedBytes ->
  entries_of (object file offsets ref_size fuel) key_refs value_refs d (nodes_seen, copied)
  = Some (d ++ entries,
      (nodes_seen + fold_right (fun e acc => 1 + pv_nodes e.2 + acc) 0 entries,
       copied + fold_right (fun e acc => size_of e.1 + pv_copied e.2 + acc) 0 entries)).
Proof.
  intros Hdec Hk. revert value_refs.
  induction Hk as [|kr [k v] key_refs entries Hk Hks IH]; intros value_refs Hv d n c Hs Hlt Hok Hd Hn0 Hc0 Hn Hc;
    inversion Hv as [|vr e vrs es Hv1 Hvs]; subst; cbn [entries_of fold_right fst snd] in *.
  - by rewrite !Z.add_0_r, app_nil_r.
  - destruct Hok as [[Hokk Hokv] Hok]. destruct (entries_nonneg entries).
    pose proof (pv_nodes_pos v). pose proof (pv_copied_nonneg v). pose proof (size_nonneg entries).
    pose proof (size_nonneg k).
    apply StronglySorted_inv in Hs as [Hs Hlt1].
    rewrite (Hdec kr (PString k)); try (done || (simpl; lia)); [|by eapply holds_leaf].
    cbn [pv_nodes pv_copied]. rewrite (Hdec vr v) by (done || lia).
    assert (Forall (fun a => bytes_ltb a.1 k = true) d) as Hdk.
    { eapply Forall_impl; [exact Hlt|]. intros a Ha. by apply Forall_cons in Ha as [Ha _]. }
    rewrite emplace_last by done.
    rewrite IH; try (done || lia).
    + rewrite <- app_assoc. do 3 f_equal; lia.
    + apply Forall_app_2; [|by apply Forall_singleton].
      eapply Forall_impl; [exact Hlt|]. intros a Ha. by apply Forall_cons in Ha as [_ Ha].
Qed.

(** Decoding a value the table holds gives it back and counts its nodes and
    octets, whenever the limits allow. *)
Lemma object_holds fuel : decodes fuel.
Proof using Hlayout Hoffsets Hsize Hfits.
  induction fuel as [|fuel IH]; intros i v n c Hh Hok Hd Hn0 Hc0 Hn Hc; [lia|].
  pose proof (pv_nodes_pos v) as Hpos.
  destruct Hh as [i v b Hb Hi|i items refs Hi Hall|i entries kr vr Hi Hk Hv].
  - assert (pv_nodes v = 1) as -> by by destruct v. eapply object_leaf; try done. lia.
  - cbn [pv_nodes pv_copied pv_depth pv_ok] in *. destruct (items_nonneg items).
    pose proof (Forall2_length _ _ _ Hall) as Hlen.
    rewrite (object_container fuel i 10 (length refs) refs);
      [|exact Hi|by left|unfold size_of, kMaxMaterializedNodes in *; lia|done| |].
    2: { apply Forall_forall. intros r Hr. apply list_elem_of_lookup in Hr as [j Hj].
         destruct (Forall2_lookup_l _ _ _ _ _ Hall Hj) as (v & _ & Hv). by eapply holds_index. }
    2: { pose proof (size_nonneg items). lia. }
    cbn [Z.eqb Pos.eqb]. rewrite (items_decoded fuel refs items IH Hall) by (done || lia).
    do 3 f_equal; lia.
  - cbn [pv_nodes pv_copied pv_depth pv_ok] in *. destruct (entries_nonneg entries).
    pose proof (Forall2_length _ _ _ Hk) as Hlk. pose proof (Forall2_length _ _ _ Hv) as Hlv.
    rewrite (object_container fuel i 13 (length entries) (kr ++ vr));
      [|exact Hi|by right|unfold size_of, kMaxMaterializedNodes in *; lia| | |].
    2: { rewrite length_app. cbn [Z.eqb Pos.eqb]. lia. }
    2: { apply Forall_app_2; apply Forall_forall; intros r Hr;
           apply list_elem_of_lookup in Hr as [j Hj].
         - destruct (Forall2_lookup_l _ _ _ _ _ Hk Hj) as (e & _ & He). by eapply lookup_lt_Some.
         - destruct (Forall2_lookup_l _ _ _ _ _ Hv Hj) as (e & _ & He). by eapply holds_index. }
    2: { pose proof (size_nonneg entries). lia. }
    cbn [Z.eqb Pos.eqb]. destruct Hok as [Hs Hok].
    rewrite take_app_length', drop_app_length' by done.
    rewrite (entries_decoded fuel kr vr entries IH Hk Hv []) by (done || lia || constructor).
    do 3 f_equal; lia.
Qed.

End Reading.

(** ** The file around the table *)

Lemma node_offsets_lookup rs : forall nodes start i,
  (i < length nodes)%nat ->
  node_offsets rs start nodes !! i
  = Some (start + length (concat (map (node_block rs) (take i nodes))))%nat.
Proof.
  induction nodes as [|node nodes IH]; intros start i Hi; [simpl in Hi; lia|].
  destruct i as [|i]; cbn [node_offsets]; [simpl; f_equal; lia|].
  simpl lookup. rewrite IH by (simpl in Hi; lia). cbn [take map concat]. rewrite length_app. f_equal. lia.
Qed.

Lemma length_node_offsets rs nodes : forall start, length (node_offsets rs start nodes) = length nodes.
Proof. induction nodes; intros; simpl; auto. Qed.

Lemma node_offsets_layout rs nodes i node rest :
  nodes !! i = Some node -> exists pre post,
    node_offsets rs 8 nodes !! i = Some (length pre) /\
    magic ++ concat (map (node_block rs) nodes) ++ rest = pre ++ node_block rs node ++ post.
Proof.
  intros Hi. exists (magic ++ concat (map (node_block rs) (take i nodes))),
    (concat (map (node_block rs) (drop (S i) nodes)) ++ rest).
  split.
  - rewrite node_offsets_lookup by by eapply lookup_lt_Some. done.
  - rewrite <- (take_drop_middle nodes i node Hi) at 1.
    rewrite map_app, concat_app. cbn [map concat]. by rewrite <- !app_assoc.
Qed.

Lemma read_offsets_mid file table size offsets : forall pre post position,
  file = pre ++ concat (map (fun offset => be_bytes size (Z.of_nat offset)) offsets) ++ post ->
  position = length pre -> (size <= 8)%nat -> table <= 256 ^ Z.of_nat size ->
  Forall (fun offset => Z.of_nat offset < table) offsets ->
  read_offsets file table position size (length offsets) = Some offsets.
Proof.
  induction offsets as [|o offsets IH]; intros pre post position Hf Hp Hs Ht Ho; [done|].
  apply Forall_cons in Ho as [Ho Hos]. cbn [length read_offsets]. cbn [map concat] in Hf.
  rewrite <- app_assoc in Hf. rewrite Hf at 1. rewrite read_be_field by (done || lia).
  rewrite (proj2 (Z.leb_gt _ _)) by lia.
  rewrite (IH (pre ++ be_bytes size (Z.of_nat o)) post), Nat2Z.id;
    [done|by rewrite Hf, <- app_assoc|rewrite length_app, length_be_bytes; lia|done|done|done].
Qed.

Lemma length_concat_be {A} (f : A -> Z) size (l : list A) :
  length (concat (map (fun x => be_bytes size (f x)) l)) = (length l * size)%nat.
Proof. induction l as [|x l IH]; simpl; [done|]. rewrite length_app, length_be_bytes. lia. Qed.

(** The trailer of a file, read by position from its end. *)
Lemma read_trailer body os rs n top table :
  (os < 256)%nat -> (rs < 256)%nat -> is_u64 n -> is_u64 top -> is_u64 table ->
  let file := body ++ repeat 0 6 ++ [Z.of_nat os; Z.of_nat rs] ++ be_bytes 8 n ++ be_bytes 8 top
                ++ be_bytes 8 table in
  let trailer := (length file - 32)%nat in
  byte_at file (trailer + 6) = Z.of_nat os /\ byte_at file (trailer + 7) = Z.of_nat rs /\
  read_be file (trailer + 8) 8 = Some n /\ read_be file (trailer + 16) 8 = Some top /\
  read_be file (trailer + 24) 8 = Some table.
Proof.
  intros Hos Hrs Hn Htop Htable file trailer.
  assert (trailer = length body) as ->.
  { unfold trailer, file. rewrite !length_app, repeat_length, !length_be_bytes. simpl. lia. }
  unfold file. split_and!.
  - rewrite app_assoc. cbn [app]. apply byte_at_mid. rewrite length_app. done.
  - replace (body ++ repeat 0 6 ++ [Z.of_nat os; Z.of_nat rs] ++ be_bytes 8 n ++ be_bytes 8 top
               ++ be_bytes 8 table)
      with ((body ++ repeat 0 6 ++ [Z.of_nat os]) ++ Z.of_nat rs :: be_bytes 8 n ++ be_bytes 8 top
               ++ be_bytes 8 table) by (by rewrite <- !app_assoc).
    apply byte_at_mid. rewrite !length_app. simpl. lia.
  - rewrite !app_assoc. rewrite <- (app_assoc _ (be_bytes 8 top)), <- (app_assoc _ (be_bytes 8 n)).
    apply read_be_field; [rewrite !length_app; simpl; lia|lia|exact Hn].
  - rewrite !app_assoc. rewrite <- (app_assoc _ (be_bytes 8 top)).
    apply read_be_field; [rewrite !length_app, length_be_bytes; simpl; lia|lia|exact Htop].
  - rewrite !app_assoc. rewrite <- (app_nil_r (be_bytes 8 table)).
    apply read_be_field; [rewrite !length_app, !length_be_bytes; simpl; lia|lia|exact Htable].
Qed.

(** Every offset points before the table. *)
Lemma offsets_before_table rs nodes :
  Forall filled nodes ->
  Forall (fun o => Z.of_nat o < size_of (magic ++ concat (map (node_block rs) nodes))) (node_offsets rs 8 nodes).
Proof.
  intros Hfill. apply Forall_forall. intros o Ho. apply list_elem_of_lookup in Ho as [i Hi].
  assert (i < length nodes)%nat as Hil by (apply lookup_lt_Some in Hi; by rewrite length_node_offsets in Hi).
  destruct (lookup_lt_is_Some_2 nodes i Hil) as [node Hnode].
  destruct (node_offsets_layout rs nodes i node [] Hnode) as (pre & post & Hp & Hf).
  assert (o = length pre) as -> by congruence.
  rewrite app_nil_r in Hf. rewrite Hf, !size_app.
  assert (0 < size_of (node_block rs node)).
  { rewrite Forall_lookup in Hfill. specialize (Hfill i node Hnode). unfold filled in Hfill.
    unfold node_block, size_of. rewrite length_app. destruct (node_bytes node); [done|simpl; lia]. }
  pose proof (size_nonneg post). unfold size_of in *. lia.
Qed.

Lemma decode_finish nodes root :
  holds nodes 0 root -> Forall filled nodes -> pv_ok root -> (pv_depth root <= kMaxDepth)%nat ->
  size_of nodes = pv_nodes root -> pv_nodes root <= kMaxMaterializedNodes ->
  pv_copied root <= kMaxMaterializedBytes -> size_of (finish 0 nodes) < 2 ^ 64 ->
  decode_bplist_counted (finish 0 nodes) = Some (root, (pv_nodes root, pv_copied root)).
Proof.
  intros Hh Hfill Hok Hd Hsz Hn Hc Hlen. pose proof (pv_nodes_pos root) as Hpos. unfold finish in *.
  set (rs := bytes_for (size_of nodes - 1)) in *. set (offsets := node_offsets rs 8 nodes) in *.
  set (result := magic ++ concat (map (node_block rs) nodes)) in *.
  set (os := bytes_for (size_of result)) in *.
  set (table := concat (map (fun o => be_bytes os (Z.of_nat o)) offsets)) in *.
  set (file := result ++ table ++ _) in *.
  assert (length table = length nodes * os)%nat as Htl
    by (unfold table; rewrite length_concat_be; unfold offsets; by rewrite length_node_offsets).
  assert (size_of file = size_of result + Z.of_nat (length nodes * os) + 32) as Hfl.
  { unfold file. rewrite !size_app. unfold size_of. rewrite Htl, repeat_length, !length_be_bytes. simpl. lia. }
  pose proof (size_nonneg result) as Hr0. assert (8 <= size_of result) as Hr8.
  { unfold result. rewrite size_app. pose proof (size_nonneg (concat (map (node_block rs) nodes))).
    change (size_of magic) with 8. lia. }
  unfold kMaxMaterializedNodes in *.
  destruct (bytes_for_cases (size_of result)) as [Hos Hoslt]; [lia|]. fold os in Hos, Hoslt.
  destruct (bytes_for_cases (size_of nodes - 1)) as [Hrs Hrslt]; [lia|]. fold rs in Hrs, Hrslt.
  assert (1 <= os <= 8 /\ 1 <= rs <= 8)%nat as [Hos8 Hrs8] by lia. clear Hos Hrs.
  destruct (read_trailer (result ++ table) os rs (size_of nodes) 0 (size_of result))
    as (E1 & E2 & E3 & E4 & E5); [lia|lia|unfold is_u; lia|unfold is_u; lia|unfold is_u; lia|].
  rewrite <- app_assoc in E1, E2, E3, E4, E5.
  change (be_bytes 8 (Z.of_nat 0)) with (be_bytes 8 0) in file. fold file in E1, E2, E3, E4, E5.
  unfold decode_bplist_counted. rewrite (proj2 (Z.ltb_ge _ 40)) by lia.
  assert (starts_with magic file = true) as -> by (unfold file, result; rewrite <- app_assoc; apply starts_with_app).
  cbn [negb orb]. cbv zeta. rewrite E1, E2, E3, E4, E5.
  rewrite (proj2 (Z.eqb_neq (size_of nodes) 0)), (proj2 (Z.leb_gt (size_of nodes) 0)),
    (proj2 (Z.eqb_neq (Z.of_nat os) 0)), (proj2 (Z.eqb_neq (Z.of_nat rs) 0)),
    (proj2 (Z.ltb_ge 65536 _)), (proj2 (Z.ltb_ge (size_of file) _)), (proj2 (Z.ltb_ge (_ / _) _)) by
    first [lia | apply Z.div_le_lower_bound; unfold size_of in *; nia].
  cbn [orb]. rewrite !Nat2Z.id.
  assert (Z.to_nat (size_of nodes) = length offsets) as ->
    by (unfold offsets; rewrite length_node_offsets; unfold size_of; lia).
  rewrite (read_offsets_mid file (size_of result) os offsets result
    (repeat 0 6 ++ [Z.of_nat os; Z.of_nat rs] ++ be_bytes 8 (size_of nodes) ++ be_bytes 8 0
      ++ be_bytes 8 (size_of result))); [|done|unfold size_of; lia|lia|lia|].
  - apply (object_holds file offsets rs nodes); try done; try lia.
    + intros i node Hi. unfold file, result, offsets. rewrite <- app_assoc. by apply node_offsets_layout.
    + unfold offsets. apply length_node_offsets.
    + intros r Hr. unfold size_of in Hrslt. lia.
  - by apply offsets_before_table.
Qed.

(** ** Limits of the decoder *)

Lemma read_be_nonneg file off n x : bytes_ok file -> read_be file off n = Some x -> 0 <= x.
Proof.
  unfold read_be. intros Hf. case_match; [done|]. intros [= <-]. apply be_value_bound.
  by apply Forall_subspan.
Qed.

Lemma count_nonneg file off nibble n d :
  bytes_ok file -> 0 <= nibble -> count file off nibble = Some (n, d) -> 0 <= n.
Proof.
  intros Hf Hn. unfold count. destruct (negb _); [by intros [= <- <-]|].
  destruct (_ || _); [done|]. destruct (read_be _ _ _) as [x|] eqn:E; [|done].
  intros [= <- <-]. by eapply read_be_nonneg.
Qed.

Lemma utf8_length bytes : size_of (utf8_of_utf16 bytes) <= 3 * (size_of bytes / 2).
Proof.
  assert (forall n bytes, (length bytes <= n)%nat ->
    size_of (utf8_of_utf16 bytes) <= 3 * (size_of bytes / 2)) as H.
  { clear bytes. induction n as [|n IH]; intros [|a [|b t]] Hn; try done; [simpl in Hn; lia|].
    cbn [utf8_of_utf16]. rewrite size_app, !size_cons.
    replace (1 + (1 + size_of t)) with (size_of t + 1 * 2) by lia. rewrite Z.div_add by lia.
    specialize (IH t ltac:(simpl in Hn; lia)).
    assert (size_of (utf8_of_unit (Z.lor (Z.shiftl a 8) b)) <= 3).
    { unfold utf8_of_unit. repeat case_match; unfold size_of; simpl; lia. }
    lia. }
  by apply (H (length bytes)).
Qed.

(** What a decoded value costs: its nodes and octets have been counted, and its
    depth is below the fuel. *)
Definition within (fuel : nat) (c : Counters) (v : PlistValue) (c' : Counters) : Prop :=
  c.1 + pv_nodes v <= c'.1 <= kMaxMaterializedNodes /\
  c.2 + pv_copied v <= c'.2 /\ (c.2 <= kMaxMaterializedBytes -> c'.2 <= kMaxMaterializedBytes) /\
  (pv_depth v < fuel)%nat.

Section Limits.
Context (file : Bytes) (offsets : list nat) (ref_size : nat) (Hfile : bytes_ok file).
Abbreviation object := (object file offsets ref_size).

Definition bounded (fuel : nat) : Prop :=
  forall i c v c', object fuel i c = Some (v, c') -> within fuel c v c'.

Lemma items_bounded fuel : bounded fuel -> forall refs c items c',
  c.1 <= kMaxMaterializedNodes ->
  items_of (object fuel) refs c = Some (items, c') ->
  c.1 + fold_right (fun v acc => pv_nodes v + acc) 0 items <= c'.1 <= kMaxMaterializedNodes /\
  c.2 + fold_right (fun v acc => pv_copied v + acc) 0 items <= c'.2 /\
  (c.2 <= kMaxMaterializedBytes -> c'.2 <= kMaxMaterializedBytes) /\
  (fold_right (fun v acc => Nat.max (S (pv_depth v)) acc) O items < S fuel)%nat.
Proof.
  intros Hb. induction refs as [|r refs IH]; intros c items c' Hc; cbn [items_of].
  - intros [= <- <-]. simpl. lia.
  - destruct (object fuel r c) as [[v c1]|] eqn:E1; [|done].
    destruct (items_of _ refs c1) as [[vs c2]|] eqn:E2; [|done]. intros [= <- <-].
    destruct (Hb _ _ _ _ E1) as (? & ? & ? & ?).
    destruct (IH c1 vs c2 ltac:(lia) E2) as (? & ? & ? & ?). cbn [fold_right]. lia.
Qed.

Definition entries_nodes (d : list (Bytes * PlistValue)) : Z :=
  fold_right (fun e acc => 1 + pv_nodes e.2 + acc) 0 d.
Definition entries_copied (d : list (Bytes * PlistValue)) : Z :=
  fold_right (fun e acc => size_of e.1 + pv_copied e.2 + acc) 0 d.
Definition entries_depth (d : list (Bytes * PlistValue)) : nat :=
  fold_right (fun e acc => Nat.max (S (pv_depth e.2)) acc) O d.

Lemma emplace_measures k v d :
  entries_nodes (emplace k v d) <= entries_nodes d + 1 + pv_nodes v /\
  entries_copied (emplace k v d) <= entries_copied d + size_of k + pv_copied v /\
  (entries_depth (emplace k v d) <= Nat.max (entries_depth d) (S (pv_depth v)))%nat.
Proof.
  pose proof (pv_nodes_pos v). pose proof (pv_copied_nonneg v). pose proof (size_nonneg k).
  unfold entries_nodes, entries_copied, entries_depth.
  induction d as [|[k' v'] d IH]; cbn [emplace]; [simpl; lia|].
  destruct (bytes_ltb k k'); [simpl; lia|]. destruct (bytes_eqb k k'); [simpl; lia|].
  cbn [fold_right fst snd]. lia.
Qed.

Lemma entries_bounded fuel : bounded fuel -> forall krs vrs d c d' c',
  c.1 <= kMaxMaterializedNodes -> (entries_depth d < S fuel)%nat ->
  entries_of (object fuel) krs vrs d c = Some (d', c') ->
  entries_nodes d' - entries_nodes d + c.1 <= c'.1 <= kMaxMaterializedNodes /\
  entries_copied d' - entries_copied d + c.2 <= c'.2 /\
  (c.2 <= kMaxMaterializedBytes -> c'.2 <= kMaxMaterializedBytes) /\
  (entries_depth d' < S fuel)%nat.
Proof.
  intros Hb. induction krs as [|kr krs IH]; intros vrs d c d' c' Hc Hd; cbn [entries_of].
  - intros [= <- <-]. lia.
  - destruct vrs as [|vr vrs]; [intros [= <- <-]; lia|].
    destruct (object fuel kr c) as [[k c1]|] eqn:E1; [|done].
    destruct k as [| | |key| | |]; try done.
    destruct (object fuel vr c1) as [[v c2]|] eqn:E2; [|done]. intros He.
    destruct (Hb _ _ _ _ E1) as (? & ? & ? & ?). destruct (Hb _ _ _ _ E2) as (? & ? & ? & ?).
    destruct (emplace_measures key v d) as (? & ? & ?). cbn [pv_nodes pv_copied] in *.
    destruct (IH vrs (emplace key v d) c2 d' c' ltac:(lia) ltac:(lia) He) as (? & ? & ? & ?). lia.
Qed.

Lemma object_bounded fuel : bounded fuel.
Proof using Hfile.
  induction fuel as [|fuel IH]; intros i [n c] v [n' c']; [done|]. cbn [Bplist.object].
  destruct (offsets !! i) as [off|]; [|done].
  destruct (kMaxMaterializedNodes <? n + 1) eqn:En; [done|]. bool_hyps. cbv zeta.
  set (marker := byte_at file off).
  assert (0 <= Z.land marker 15) as Hnib by (apply Z.land_nonneg; lia).
  assert (forall v c', pv_nodes v = 1 -> pv_depth v = O -> pv_copied v <= c' - c ->
    (c <= kMaxMaterializedBytes -> c' <= kMaxMaterializedBytes) ->
    within (S fuel) (n, c) v (n + 1, c')) as Hleaf by (intros ? ? Hn1 Hd1 ? ?; unfold within;
      rewrite Hn1, Hd1; simpl; lia).
  destruct ((_ =? 0) && _); [intros [= <- <- <-]; apply Hleaf; simpl; lia|].
  destruct (_ =? 1); [destruct (read_be _ _ _); [|done]; intros [= <- <- <-]; apply Hleaf; simpl; lia|].
  destruct (_ =? 2).
  { destruct (read_be _ _ _); [|done]. destruct (_ =? 3); [intros [= <- <- <-]; apply Hleaf; simpl; lia|].
    destruct (_ =? 2); [intros [= <- <- <-]; apply Hleaf; simpl; lia|done]. }
  destruct (count file off _) as [[items doff]|] eqn:Ec; [|done].
  apply count_nonneg in Ec; [|done|done].
  set (room := size_of file - Z.of_nat doff).
  destruct (((_ =? 4) || (_ =? 5)) && _ && _) eqn:Ed.
  { destruct (_ <? c + items) eqn:Eb; [done|]. bool_hyps. intros [= <- <- <-].
    assert (size_of (subspan doff (Z.to_nat items) file) <= items)
      by (unfold subspan, size_of; rewrite length_take; lia).
    destruct (_ =? 4); apply Hleaf; simpl; lia. }
  destruct ((_ =? 6) && _ && _).
  { destruct (_ <? c + items * 3) eqn:Eb; [done|]. bool_hyps. intros [= <- <- <-].
    pose proof (utf8_length (subspan doff (Z.to_nat items * 2) file)) as Hu.
    assert (size_of (subspan doff (Z.to_nat items * 2) file) / 2 <= items).
    { apply Z.div_le_upper_bound; [lia|]. unfold subspan, size_of. rewrite length_take. lia. }
    apply Hleaf; simpl; lia. }
  lazymatch goal with |- (if ?b then _ else None) = _ -> _ => destruct b; [|done] end. destruct (read_refs _ _ _ _ _) as [refs|]; [|done].
  destruct (_ =? 10).
  - change (match items_of (object fuel) refs (n + 1, c) with
      | None => None | Some (values, c) => Some (PArray values, c) end = Some (v, (n', c')) ->
      within (S fuel) (n, c) v (n', c')).
    destruct (items_of _ _ _) as [[vs c2]|] eqn:Ei; [|done]. intros [= <- ->].
    apply items_bounded in Ei; [|exact IH|simpl; lia]. unfold within. cbn [pv_nodes pv_copied pv_depth fst snd] in *. lia.
  - change (match entries_of (object fuel) (take (Z.to_nat items) refs) (drop (Z.to_nat items) refs) []
      (n + 1, c) with None => None | Some (d, c) => Some (PDict d, c) end = Some (v, (n', c')) ->
      within (S fuel) (n, c) v (n', c')).
    destruct (entries_of _ _ _ _ _) as [[d c2]|] eqn:Ei; [|done]. intros [= <- ->].
    apply entries_bounded in Ei; [|exact IH|simpl; lia|simpl; lia].
    unfold within. cbn [pv_nodes pv_copied pv_depth fst snd] in *.
    fold (entries_nodes d) (entries_copied d) (entries_depth d).
    change (entries_nodes []) with 0 in *. change (entries_copied []) with 0 in *. lia.
Qed.
End Limits.

(** ** Theorems *)

(** C37. Property lists survive the binary format: for a value with 64-bit
    numbers, octet strings and keys in strict order, of at most 65,536 nodes, 64
    levels and 8 MiB of data, whose encoding fits in memory, decoding its
    encoding gives exactly the value. *)
Theorem bplist_roundtrip v :
  pv_ok v -> pv_nodes v <= kMaxMaterializedNodes -> (pv_depth v <= kMaxDepth)%nat ->
  pv_copied v <= kMaxMaterializedBytes -> size_of (encode_bplist v) < 2 ^ 64 ->
  decode_bplist (encode_bplist v) = Some v.
Proof.
  intros Hok Hn Hd Hc Hlen. unfold decode_bplist, encode_bplist in *.
  destruct (add_added v []) as (new & Ha & Hsz & Hf & Hh). rewrite Ha in *.
  specialize (Hh [] [] eq_refl). rewrite app_nil_r in Hh. cbn [app length] in *.
  by rewrite (decode_finish new v).
Qed.

Lemma bplist_roundtrip_witness :
  let v := PDict [(bs "deviceID", PString (bs "00:11")); (bs "features", PInt 130367356919);
                  (bs "streams", PArray [PDict [(bs "type", PInt 110)]; PData [1; 2; 3]])] in
  decode_bplist (encode_bplist v) = Some v.
Proof.
  cbv zeta. apply bplist_roundtrip; try (vm_compute; congruence).
  - cbn [pv_ok fold_right fst snd]. split_and!; try done; try apply bs_ok;
      try (split; vm_compute; congruence);
      try (repeat (apply Forall_cons_2; [split; vm_compute; congruence|]); apply Forall_nil_2).
    + repeat constructor; vm_compute; reflexivity.
    + repeat constructor.
  - apply Nat.leb_le. vm_compute. reflexivity.
Defined.

(** Decoding is bounded: whatever octets it is given, a value that
    [decode_bplist] returns has at most 65,536 nodes, copies at most 8 MiB of
    data and is at most 64 levels deep, so shared and cyclic references cannot
    blow it up. *)
Theorem bplist_decode_bounded bytes v :
  bytes_ok bytes -> decode_bplist bytes = Some v ->
  pv_nodes v <= kMaxMaterializedNodes /\ pv_copied v <= kMaxMaterializedBytes /\
  (pv_depth v <= kMaxDepth)%nat.
Proof.
  unfold decode_bplist, decode_bplist_counted. intros Hb [[v' c'] [Hd ->]]%fmap_Some.
  repeat case_match; try done.
  apply object_bounded in Hd as (? & ? & Hc & ?); [|done]. cbn [fst snd] in *.
  unfold kMaxMaterializedBytes in *. lia.
Qed.

Lemma bplist_decode_bounded_witness :
  exists v, decode_bplist (encode_bplist (PArray [PInt 1; PString (bs "x")])) = Some v /\
  pv_nodes v <= kMaxMaterializedNodes.
Proof.
  exists (PArray [PInt 1; PString (bs "x")]). split; [vm_compute; reflexivity|].
  apply (bplist_decode_bounded (encode_bplist (PArray [PInt 1; PString (bs "x")])));
    [|vm_compute; reflexivity].
  vm_compute. repeat (apply Forall_cons_2; [split; congruence|]). apply Forall_nil_2.
Defined.

(** An array that contains itself is refused at the depth limit. *)
Example cyclic_array_refused :
  decode_bplist (magic ++ [161; 0] ++ [8] ++ repeat 0 6 ++ [1; 1] ++ be_bytes 8 1 ++ be_bytes 8 0
                 ++ be_bytes 8 10) = None.
Proof. vm_compute. reflexivity. Qed.

(** UTF-16 text outside the basic plane becomes one three-octet sequence for
    each surrogate, not the four-octet UTF-8 sequence of the character. *)
Example surrogates_not_joined :
  utf8_of_utf16 [216; 61; 222; 0] = [237; 160; 189; 237; 184; 128].
Proof. vm_compute. reflexivity. Qed.
