(* ===== verification/FileStore.v ===== *)
(** * Files written beside their destination and renamed into place

    The system calls the program's stores use, over the visible contents of
    the file system: every call takes its outcome from a script of results, so
    a theorem for all scripts covers every failure, short write and
    interruption; and every contents the file system goes through is recorded,
    so "at every moment" can be stated. *)

From S2P Require Import Prelude Text.
#[local] Open Scope Z_scope.

(** ** The file system and the script of system-call results *)

Abbreviation Disk := (gmap Bytes Bytes).

(** What the system answers: done (for [write], how many octets), interrupted,
    or any other error. *)
Inductive SysResult :=
| Done (n : nat)
| Interrupted
| Failed.

Record World := mkWorld {
  disk : Disk;
  history : list Disk;  (* every contents so far, the latest first *)
  script : list SysResult
}.

Definition start_world (d : Disk) (results : list SysResult) : World := mkWorld d [d] results.

(** The next result; a script that has run out fails every call. *)
Definition next_result (w : World) : SysResult * World :=
  match script w with
  | [] => (Failed, w)
  | r :: rs => (r, mkWorld (disk w) (history w) rs)
  end.

Definition set_disk (d : Disk) (w : World) : World := mkWorld d (d :: history w) (script w).

Definition is_done (r : SysResult) : bool := match r with Done _ => true | _ => false end.

(** A call with no effect on the contents of files: [fsync], [chmod],
    [create_directories], ... *)
Definition sys_plain (w : World) : bool * World :=
  let '(r, w) := next_result w in (is_done r, w).

(** [open(name, O_WRONLY | O_CREAT | O_EXCL)] and [mkstemp] with the name it chose. *)
Definition sys_create (name : Bytes) (w : World) : bool * World :=
  let '(r, w) := next_result w in
  if is_done r && bool_decide (disk w !! name = None) then (true, set_disk (<[name := []]> (disk w)) w)
  else (false, w).

(** [write(fd, data, size)]: at most [size] octets are added to the file. *)
Definition sys_write (name data : Bytes) (w : World) : SysResult * World :=
  let '(r, w) := next_result w in
  match r with
  | Done n =>
      let n := Nat.min n (length data) in
      (Done n, set_disk (<[name := default [] (disk w !! name) ++ take n data]> (disk w)) w)
  | r => (r, w)
  end.

Definition sys_unlink (name : Bytes) (w : World) : World :=
  let '(r, w) := next_result w in
  if is_done r then set_disk (delete name (disk w)) w else w.

Definition sys_rename (from to : Bytes) (w : World) : bool * World :=
  let '(r, w) := next_result w in
  match r, disk w !! from with
  | Done _, Some contents => (true, set_disk (<[to := contents]> (delete from (disk w))) w)
  | _, _ => (false, w)
  end.

(** The [write_all] lambda of [save_config] and [save_pairing_record]. The loop
    ends: every turn uses a result of the script. *)
(* src/src/bridge/config.cpp:131-145 write_all *)
Fixpoint write_loop (fuel : nat) (name data : Bytes) (w : World) : bool * World :=
  match data, fuel with
  | [], _ => (true, w)
  | _ :: _, O => (false, w)
  | _ :: _, S fuel =>
      match sys_write name data w with
      | (Interrupted, w) => write_loop fuel name data w
      | (Failed, w) => (false, w)
      | (Done O, w) => (false, w)
      | (Done n, w) => write_loop fuel name (drop n data) w
      end
  end.
Definition write_all (name data : Bytes) (w : World) : bool * World :=
  write_loop (S (length (script w))) name data w.

(** [path.parent_path().empty()] *)
Definition has_parent (path : Bytes) : bool := existsb (Z.eqb 47) path.

(** [path / name] for a relative, non-empty [name]. *)
Definition path_join (path name : Bytes) : Bytes :=
  match last path with
  | None => name
  | Some c => if c =? 47 then path ++ name else path ++ 47 :: name
  end.

(** ** What saving is allowed to touch *)

(** [touches d0 path content temporary d]: the disk [d] is [d0] but for the
    temporary file, and [path] holds its old contents or the new ones. *)
Definition harmless (d0 : Disk) (temporary : Bytes) (d : Disk) : Prop :=
  forall name, name <> temporary -> d !! name = d0 !! name.

Definition installed (d0 : Disk) (temporary path content : Bytes) (d : Disk) : Prop :=
  d !! path = Some content /\ d !! temporary = None /\
  forall name, name <> temporary -> name <> path -> d !! name = d0 !! name.

(** A world whose every contents since [w0] was harmless. *)
Definition quiet (d0 : Disk) (temporary : Bytes) (w : World) : Prop :=
  harmless d0 temporary (disk w) /\ Forall (harmless d0 temporary) (history w).

Lemma quiet_start d temporary results : quiet d temporary (start_world d results).
Proof. split; simpl; [done|]. repeat constructor; done. Qed.

Lemma harmless_insert d0 t d c : harmless d0 t d -> harmless d0 t (<[t := c]> d).
Proof. intros H n Hn. rewrite lookup_insert_ne by done. by apply H. Qed.

Lemma harmless_delete d0 t d : harmless d0 t d -> harmless d0 t (delete t d).
Proof. intros H n Hn. rewrite lookup_delete_ne by done. by apply H. Qed.

Lemma quiet_set_disk d0 t d w : harmless d0 t d -> quiet d0 t w -> quiet d0 t (set_disk d w).
Proof. intros Hd [? ?]. split; [done|by constructor]. Qed.

Lemma next_result_world w r w' :
  next_result w = (r, w') ->
  disk w' = disk w /\ history w' = history w /\ (length (script w') <= length (script w))%nat.
Proof. unfold next_result. destruct (script w) eqn:E; intros [= <- <-]; simpl; rewrite ?E; simpl; auto. Qed.

Lemma next_result_quiet d0 t w r w' : next_result w = (r, w') -> quiet d0 t w -> quiet d0 t w'.
Proof. intros (Hd & Hh & _)%next_result_world [? ?]. split; by rewrite ?Hd, ?Hh. Qed.

Lemma sys_plain_quiet d0 t w b w' : sys_plain w = (b, w') -> quiet d0 t w -> quiet d0 t w'.
Proof.
  unfold sys_plain. destruct (next_result w) as [r w1] eqn:E. intros [= <- <-].
  by apply (next_result_quiet _ _ _ _ _ E).
Qed.

Lemma sys_plain_disk w b w' : sys_plain w = (b, w') -> disk w' = disk w.
Proof.
  unfold sys_plain. destruct (next_result w) as [r w1] eqn:E. intros [= <- <-].
  by apply next_result_world in E as [? _].
Qed.

Lemma sys_create_quiet d0 t w b w' : sys_create t w = (b, w') -> quiet d0 t w -> quiet d0 t w'.
Proof.
  unfold sys_create. destruct (next_result w) as [r w1] eqn:E. intros H Hq.
  pose proof (next_result_quiet _ _ _ _ _ E Hq) as Hq1.
  destruct (_ && _); injection H as <- <-; [|done].
  apply quiet_set_disk; [|done]. by apply harmless_insert, Hq1.
Qed.

Lemma sys_create_file t w w' : sys_create t w = (true, w') -> disk w' !! t = Some [].
Proof.
  unfold sys_create. destruct (next_result w) as [r w1]. destruct (_ && _); [|done].
  intros [= <-]. simpl. by rewrite lookup_insert_eq.
Qed.

(** A file that cannot be created is left as it is. *)
Lemma sys_create_failed t w w' : sys_create t w = (false, w') -> disk w' = disk w.
Proof.
  unfold sys_create. destruct (next_result w) as [r w1] eqn:E. destruct (_ && _); [done|].
  intros [= <-]. by apply next_result_world in E as [? _].
Qed.

Lemma sys_write_quiet d0 t data w r w' :
  sys_write t data w = (r, w') -> quiet d0 t w -> quiet d0 t w'.
Proof.
  unfold sys_write. destruct (next_result w) as [r1 w1] eqn:E. intros H Hq.
  pose proof (next_result_quiet _ _ _ _ _ E Hq) as Hq1.
  destruct r1; injection H as <- <-; try done. apply quiet_set_disk; [|done]. by apply harmless_insert, Hq1.
Qed.

Lemma sys_unlink_quiet d0 t w : quiet d0 t w -> quiet d0 t (sys_unlink t w).
Proof.
  unfold sys_unlink. destruct (next_result w) as [r w1] eqn:E. intros Hq.
  pose proof (next_result_quiet _ _ _ _ _ E Hq) as Hq1. destruct (is_done r); [|done].
  apply quiet_set_disk; [|done]. by apply harmless_delete, Hq1.
Qed.

Lemma write_loop_quiet fuel d0 t data w b w' :
  write_loop fuel t data w = (b, w') -> quiet d0 t w -> quiet d0 t w'.
Proof.
  revert data w; induction fuel as [|fuel IH]; intros [|x data] w; cbn [write_loop];
    try (by intros [= <- <-]).
  destruct (sys_write t (x :: data) w) as [r w1] eqn:E. intros H Hq.
  pose proof (sys_write_quiet _ _ _ _ _ _ E Hq) as Hq1.
  destruct r as [[|n]| |]; [by injection H as <- <-|by apply (IH _ _ H)|by apply (IH _ _ H)|by injection H as <- <-].
Qed.

Lemma write_all_quiet d0 t data w b w' :
  write_all t data w = (b, w') -> quiet d0 t w -> quiet d0 t w'.
Proof. apply write_loop_quiet. Qed.

(** A successful [write_all] has added exactly the data. *)
Lemma write_loop_adds fuel t data w w' old :
  write_loop fuel t data w = (true, w') -> disk w !! t = Some old -> disk w' !! t = Some (old ++ data).
Proof.
  revert data w old; induction fuel as [|fuel IH]; intros [|x data] w old; cbn [write_loop];
    try (by (intros [= <-]; rewrite app_nil_r)); try done.
  destruct (sys_write t (x :: data) w) as [r w1] eqn:E. intros H Hold. unfold sys_write in E.
  destruct (next_result w) as [r1 w2] eqn:En. apply next_result_world in En as (Hd & _ & _).
  destruct r1 as [n| |]; injection E as <- <-; try done.
  - destruct (Nat.min n (S (length data))) as [|k] eqn:Em; [done|].
    apply (IH _ _ (old ++ take (S k) (x :: data))) in H.
    + rewrite H, <- app_assoc. f_equal. f_equal. apply take_drop.
    + simpl. rewrite lookup_insert_eq, Hd, Hold. done.
  - apply (IH _ _ old) in H; [done|by rewrite Hd].
Qed.

Lemma write_all_adds t data w w' old :
  write_all t data w = (true, w') -> disk w !! t = Some old -> disk w' !! t = Some (old ++ data).
Proof. apply write_loop_adds. Qed.

(** Renaming installs the contents of the temporary file or changes nothing. *)
Lemma sys_rename_outcome d0 t path content w b w' :
  t <> path -> quiet d0 t w -> disk w !! t = Some content ->
  sys_rename t path w = (b, w') ->
  if b then installed d0 t path content (disk w') /\
            history w' = disk w' :: history w
  else quiet d0 t w'.
Proof.
  unfold sys_rename. destruct (next_result w) as [r w1] eqn:E. intros Hne Hq Hc H.
  pose proof (next_result_world _ _ _ E) as (Hd & Hh & _). rewrite Hd, Hc in H.
  pose proof (next_result_quiet _ _ _ _ _ E Hq) as Hq1.
  destruct r; injection H as <- <-; try done. simpl. rewrite Hh. split; [|done].
  repeat split.
  - by rewrite lookup_insert_eq.
  - rewrite lookup_insert_ne, lookup_delete_eq; done.
  - intros m H1 H2. rewrite lookup_insert_ne, lookup_delete_ne by done. by apply Hq.
Qed.

(** The temporary name, longer than the path, is another file. *)
Lemma suffix_ne (path suffix : Bytes) : suffix <> [] -> path ++ suffix <> path.
Proof.
  intros Hs E. apply (f_equal length) in E. rewrite length_app in E.
  destruct suffix; [done|simpl in E; lia].
Qed.

(** At every moment the destination holds its old contents or all of the new. *)
Definition all_or_nothing (d0 : Disk) (path content : Bytes) (d : Disk) : Prop :=
  d !! path = d0 !! path \/ d !! path = Some content.

Lemma quiet_all_or_nothing d0 t path content w :
  t <> path -> quiet d0 t w -> Forall (all_or_nothing d0 path content) (history w).
Proof.
  intros Hne [_ H]. eapply Forall_impl; [exact H|]. intros d Hd. left. apply Hd. congruence.
Qed.

(** What every store promises of its save operation. *)
Definition save_outcome (d0 : Disk) (t path content : Bytes) (b : bool) (w : World) : Prop :=
  Forall (all_or_nothing d0 path content) (history w) /\
  if b then installed d0 t path content (disk w) else harmless d0 t (disk w).

Lemma quiet_outcome d0 t path content w :
  t <> path -> quiet d0 t w -> save_outcome d0 t path content false w.
Proof. intros Hne Hq. split; [by eapply quiet_all_or_nothing|apply Hq]. Qed.

(** Every contents of a world that renamed a file into place. *)
Lemma installed_outcome d0 t path content w w' :
  t <> path -> quiet d0 t w -> installed d0 t path content (disk w') ->
  history w' = disk w' :: history w -> save_outcome d0 t path content true w'.
Proof.
  intros Hne Hq Hi Hh. split; [|done]. rewrite Hh. constructor; [right; apply Hi|].
  by eapply quiet_all_or_nothing.
Qed.

Lemma sys_plain_outcome d0 t path content b w :
  save_outcome d0 t path content b w -> save_outcome d0 t path content b (sys_plain w).2.
Proof.
  destruct (sys_plain w) as [r w'] eqn:E. unfold sys_plain in E.
  destruct (next_result w) as [r1 w1] eqn:En. injection E as <- <-.
  apply next_result_world in En as (Hd & Hh & _). unfold save_outcome. simpl. by rewrite Hd, Hh.
Qed.

(** ** What a save depends on *)

(** Two disks that have the same files of some names. *)
Definition agree (P : Bytes -> Prop) (d d' : Disk) : Prop := forall name, P name -> d !! name = d' !! name.

#[export] Instance agree_equivalence P : Equivalence (agree P).
Proof.
  split.
  - by intros d name.
  - intros d d' H name Hn. by rewrite H.
  - intros d1 d2 d3 H1 H2 name Hn. by rewrite H1, H2.
Qed.

Lemma agree_insert P name c d d' : agree P d d' -> agree P (<[name := c]> d) (<[name := c]> d').
Proof. intros H n Hn. destruct (decide (n = name)) as [->|Hne]; [by rewrite !lookup_insert_eq|]. rewrite !lookup_insert_ne by done. by apply H. Qed.

Lemma agree_delete P name d d' : agree P d d' -> agree P (delete name d) (delete name d').
Proof. intros H n Hn. destruct (decide (n = name)) as [->|Hne]; [by rewrite !lookup_delete_eq|]. rewrite !lookup_delete_ne by done. by apply H. Qed.

(** Two worlds in which the same calls get the same results, on disks that agree. *)
Definition alike (P : Bytes -> Prop) (w w' : World) : Prop := agree P (disk w) (disk w') /\ script w = script w'.

Definition alike_result {A} (P : Bytes -> Prop) (r r' : A * World) : Prop := r.1 = r'.1 /\ alike P r.2 r'.2.

Lemma next_result_alike P w w' : alike P w w' -> alike_result P (next_result w) (next_result w').
Proof. intros [Hd Hs]. unfold next_result. rewrite <- Hs. destruct (script w) eqn:E; (split; [done|]); by split; [|cbn; rewrite <- ?Hs]. Qed.

Ltac alike_next w w' H :=
  let Hn := fresh in pose proof (next_result_alike _ _ _ H) as Hn;
  destruct (next_result w) as [?r ?w1], (next_result w') as [?r' ?w1']; cbn [alike_result fst snd] in Hn;
  destruct Hn as [E Hn]; cbn [fst snd] in E; subst.

Lemma sys_plain_alike P w w' : alike P w w' -> alike_result P (sys_plain w) (sys_plain w').
Proof. intros H. unfold sys_plain. alike_next w w' H. by split. Qed.

Lemma sys_create_alike P name w w' : P name -> alike P w w' -> alike_result P (sys_create name w) (sys_create name w').
Proof.
  intros Hn H. unfold sys_create. alike_next w w' H. destruct H0 as [Hd Hs]. cbn [snd] in Hd, Hs. rewrite <- (Hd name Hn).
  destruct (_ && _); (split; [done|]); [|by split]. split; [|done]. cbn. by apply agree_insert.
Qed.

Lemma sys_write_alike P name data w w' : P name -> alike P w w' -> alike_result P (sys_write name data w) (sys_write name data w').
Proof.
  intros Hn H. unfold sys_write. alike_next w w' H. destruct H0 as [Hd Hs]. cbn [snd] in Hd, Hs. rewrite <- (Hd name Hn).
  destruct r'; (split; [done|]); [|by split..]. split; [|done]. cbn. by apply agree_insert.
Qed.

Lemma sys_unlink_alike P name w w' : alike P w w' -> alike P (sys_unlink name w) (sys_unlink name w').
Proof.
  intros H. unfold sys_unlink. alike_next w w' H. destruct H0 as [Hd Hs]. cbn [snd] in Hd, Hs.
  destruct (is_done r'); [|by split]. split; [|done]. cbn. by apply agree_delete.
Qed.

Lemma sys_rename_alike P from to w w' : P from -> alike P w w' -> alike_result P (sys_rename from to w) (sys_rename from to w').
Proof.
  intros Hn H. unfold sys_rename. alike_next w w' H. destruct H0 as [Hd Hs]. cbn [snd] in Hd, Hs. rewrite <- (Hd from Hn).
  destruct r', (disk w1 !! from); (split; [done|]); try by split. split; [|done]. cbn. by apply agree_insert, agree_delete.
Qed.

Lemma write_loop_alike P fuel name : P name -> forall data w w', alike P w w' ->
  alike_result P (write_loop fuel name data w) (write_loop fuel name data w').
Proof.
  intros Hn. induction fuel as [|fuel IH]; intros [|c data] w w' H; cbn [write_loop]; try by split.
  pose proof (sys_write_alike P name (c :: data) w w' Hn H) as Hw.
  destruct (sys_write name (c :: data) w) as [r w1], (sys_write name (c :: data) w') as [r' w1']. destruct Hw as [E Hw]. cbn in E, Hw. subst r'.
  destruct r as [[|n]| |]; [by split|by apply IH|by apply IH|by split].
Qed.

Lemma write_all_alike P name data w w' : P name -> alike P w w' -> alike_result P (write_all name data w) (write_all name data w').
Proof. intros Hn H. unfold write_all. rewrite (proj2 H). by apply write_loop_alike. Qed.
