(* ===== verification/Config.v ===== *)
(** * The bridge's configuration file

    src/src/bridge/config.cpp: validation, the file format and its atomic
    replacement. *)

From S2P Require Import Prelude Text FileStore.
#[local] Open Scope Z_scope.

(** ** Data *)

(* src/include/aa2acp/bridge/config.hpp:11-21 Config *)
Record Config := mkConfig {
  head_unit_mac : Bytes;
  wifi_interface : Bytes;
  management_hotspot_ssid : Bytes;
  management_hotspot_passphrase : Bytes;
  airplay_pairing_store : Bytes
}.

Definition empty_config : Config := mkConfig [] [] [] [] [].

(* src/src/bridge/config.cpp:15-15 kMagic *)
Definition kMagic : Bytes := bs "AA2ACP-1".

Definition kHeadUnitMac : Bytes := bs "head_unit_mac".
Definition kWifiInterface : Bytes := bs "wifi_interface".
Definition kSsid : Bytes := bs "management_hotspot_ssid".
Definition kPassphrase : Bytes := bs "management_hotspot_passphrase".
Definition kPairingStore : Bytes := bs "airplay_pairing_store".

(** ** Validation *)

(* src/src/bridge/config.cpp:17-22 valid_key *)
Definition valid_key (key : Bytes) : bool :=
  bytes_eqb key kHeadUnitMac || bytes_eqb key kWifiInterface || bytes_eqb key kSsid
  || bytes_eqb key kPassphrase || bytes_eqb key kPairingStore.

(* src/src/bridge/config.cpp:24-27 valid_serialized_value *)
Definition valid_serialized_value (value : Bytes) : bool :=
  find_none_of [13; 10; 61] value && find_none_of [0] value.

Definition is_empty (l : Bytes) : bool := match l with [] => true | _ => false end.

(* src/src/bridge/config.cpp:31-45 validate_config *)
Definition validate_config (config : Config) (allow_legacy_hotspot : bool) : bool :=
  if is_empty (wifi_interface config)
     || negb (valid_serialized_value (head_unit_mac config))
     || negb (valid_serialized_value (wifi_interface config))
     || negb (valid_serialized_value (management_hotspot_ssid config))
     || negb (valid_serialized_value (management_hotspot_passphrase config))
     || negb (valid_serialized_value (airplay_pairing_store config))
  then false
  else
    let legacy_hotspot := is_empty (management_hotspot_ssid config)
                          && is_empty (management_hotspot_passphrase config) in
    if legacy_hotspot && allow_legacy_hotspot then true
    else negb (is_empty (management_hotspot_ssid config))
         && (8 <=? size_of (management_hotspot_passphrase config)).

(** ** Default paths *)

Section Paths.
Context (getenv : Bytes -> option Bytes) (temp_directory_path : Bytes).

Definition set_variable (name : Bytes) : option Bytes :=
  match getenv name with
  | Some (c :: t) => Some (c :: t)
  | _ => None
  end.

(* src/src/bridge/config.cpp:47-54 default_state_directory *)
Definition default_state_directory : Bytes :=
  match set_variable (bs "XDG_STATE_HOME") with
  | Some state_home => path_join state_home (bs "aa2acp")
  | None =>
      match set_variable (bs "HOME") with
      | Some home => path_join (path_join (path_join home (bs ".local")) (bs "state")) (bs "aa2acp")
      | None => path_join temp_directory_path (bs "aa2acp")
      end
  end.

(* src/src/bridge/config.cpp:56-58 default_config_path *)
Definition default_config_path : Bytes := path_join default_state_directory (bs "config").
(* src/src/bridge/config.cpp:60-62 default_airplay_pairing_store *)
Definition default_airplay_pairing_store : Bytes :=
  path_join default_state_directory (bs "airplay-pairing.bin").
(* src/src/bridge/config.cpp:64-66 default_head_unit_capabilities_store *)
Definition default_head_unit_capabilities_store : Bytes :=
  path_join default_state_directory (bs "head-unit-capabilities").
End Paths.

(** ** Loading *)

Definition with_field (key value : Bytes) (c : Config) : Config :=
  if bytes_eqb key kHeadUnitMac then
    mkConfig value (wifi_interface c) (management_hotspot_ssid c)
             (management_hotspot_passphrase c) (airplay_pairing_store c)
  else if bytes_eqb key kWifiInterface then
    mkConfig (head_unit_mac c) value (management_hotspot_ssid c)
             (management_hotspot_passphrase c) (airplay_pairing_store c)
  else if bytes_eqb key kSsid then
    mkConfig (head_unit_mac c) (wifi_interface c) value
             (management_hotspot_passphrase c) (airplay_pairing_store c)
  else if bytes_eqb key kPassphrase then
    mkConfig (head_unit_mac c) (wifi_interface c) (management_hotspot_ssid c) value
             (airplay_pairing_store c)
  else
    mkConfig (head_unit_mac c) (wifi_interface c) (management_hotspot_ssid c)
             (management_hotspot_passphrase c) value.

(** One turn of the loop over the lines. [line.starts_with("key=")] is [key]
    before the first '=', which [valid_key] has found. *)
(* src/src/bridge/config.cpp:75-88 load_config *)
Definition load_line (line : Bytes) (config : Config) : option Config :=
  match find_char 61 line with
  | None => None
  | Some separator =>
      if valid_key (take separator line) then
        Some (with_field (take separator line) (drop (separator + 1) line) config)
      else None
  end.

Fixpoint load_lines (lines : list Bytes) (config : Config) : option Config :=
  match lines with
  | [] => Some config
  | line :: lines =>
      match load_line line config with
      | None => None
      | Some config => load_lines lines config
      end
  end.

(** The text of the file, or [None] when it cannot be opened. *)
(* src/src/bridge/config.cpp:68-95 load_config *)
Definition load_config (file : option Bytes) : option Config :=
  match getlines (default [] file) with
  | [] => None
  | magic :: lines =>
      if bytes_eqb magic kMagic then
        match load_lines lines empty_config with
        | None => None
        | Some config => if validate_config config true then Some config else None
        end
      else None
  end.

(** ** Saving *)

Definition field_line (key value : Bytes) : Bytes := key ++ 61 :: value ++ [10].

(* src/src/bridge/config.cpp:115-124 save_config *)
Definition config_content (config : Config) : Bytes :=
  kMagic ++ [10]
  ++ field_line kHeadUnitMac (head_unit_mac config)
  ++ field_line kWifiInterface (wifi_interface config)
  ++ field_line kSsid (management_hotspot_ssid config)
  ++ field_line kPassphrase (management_hotspot_passphrase config)
  ++ (if is_empty (airplay_pairing_store config) then []
      else field_line kPairingStore (airplay_pairing_store config)).

(* src/src/bridge/config.cpp:109-111 save_config *)
Definition temporary_name (path : Bytes) (pid counter : Z) : Bytes :=
  path ++ bs ".tmp." ++ dec pid ++ bs "-" ++ dec counter.

(** The directory entry is synced last; its outcome is ignored. *)
(* src/src/bridge/config.cpp:97-165 save_config *)
Definition save_config (path : Bytes) (config : Config) (pid counter : Z) (w : World)
  : bool * World :=
  if negb (validate_config config false) then (false, w)
  else
    let '(directories, w) := if has_parent path then sys_plain w else (true, w) in
    if negb directories then (false, w)
    else
      let temporary := temporary_name path pid counter in
      let content := config_content config in
      let '(fd, w) := sys_create temporary w in
      if negb fd then (false, w)
      else
        let '(ok, w) := write_all temporary content w in
        let '(ok, w) := if ok then sys_plain w else (false, w) in
        let '(ok, w) := if ok then sys_rename temporary path w else (false, w) in
        if negb ok then (false, sys_unlink temporary w)
        else (true, if has_parent path then (sys_plain w).2 else w).

(** ** Lemmas *)

Lemma is_empty_false l : is_empty l = false -> l <> [].
Proof. by destruct l. Qed.

Lemma find_none_of_iff chars l :
  find_none_of chars l = true <-> Forall (fun c => c ∉ chars) l.
Proof.
  unfold find_none_of. rewrite forallb_forall, Forall_forall.
  split; intros H c Hc.
  - apply list_elem_of_In in Hc. apply H in Hc. intros Hin. apply negb_true_iff in Hc.
    assert (existsb (Z.eqb c) chars = true); [|congruence].
    apply existsb_exists. exists c. split; [by apply list_elem_of_In|apply Z.eqb_refl].
  - apply list_elem_of_In in Hc. apply H in Hc. apply negb_true_iff, not_true_is_false.
    intros (c' & Hin & ->%Z.eqb_eq)%existsb_exists. by apply Hc, list_elem_of_In.
Qed.

Definition value_ok (v : Bytes) : Prop := Forall (fun c => c <> 10 /\ c <> 61) v.

Lemma valid_value_ok v : valid_serialized_value v = true -> value_ok v.
Proof.
  unfold valid_serialized_value. intros [H _]%andb_prop. apply find_none_of_iff in H.
  eapply Forall_impl; [exact H|]. intros c Hc. split; intros ->; apply Hc; set_solver.
Qed.

Lemma validate_config_values c b :
  validate_config c b = true ->
  wifi_interface c <> [] /\ value_ok (head_unit_mac c) /\ value_ok (wifi_interface c) /\
  value_ok (management_hotspot_ssid c) /\ value_ok (management_hotspot_passphrase c) /\
  value_ok (airplay_pairing_store c).
Proof.
  unfold validate_config. repeat case_match; intros; bool_hyps; try done.
  all: split_and!; try by apply valid_value_ok.
  all: by apply is_empty_false.
Qed.

Lemma validate_config_weaken c : validate_config c false = true -> validate_config c true = true.
Proof. unfold validate_config. repeat case_match; bool_hyps; try done. Qed.

(** A serialized field is read back. *)
Lemma load_field key value text c :
  valid_key key = true -> Forall (fun x => x <> 10 /\ x <> 61) key -> value_ok value ->
  load_lines (getlines (field_line key value ++ text)) c =
  load_lines (getlines text) (with_field key value c).
Proof.
  intros Hk Hkey Hv. unfold field_line.
  replace ((key ++ 61 :: value ++ [10]) ++ text) with ((key ++ 61 :: value) ++ 10 :: text)
    by (rewrite <- !app_assoc; simpl; by rewrite <- app_assoc).
  rewrite getlines_line.
  - cbn [load_lines]. unfold load_line. rewrite find_char_app.
    + rewrite take_app_length, Hk. do 2 f_equal.
      replace (key ++ 61 :: value) with ((key ++ [61]) ++ value) by (by rewrite <- app_assoc).
      rewrite drop_app_length'; [done|]. rewrite length_app. simpl. lia.
    + eapply Forall_impl; [exact Hkey|]. by intros ? [_ ?].
  - apply Forall_app. split; [eapply Forall_impl; [exact Hkey|]; by intros ? [? _]|].
    constructor; [done|]. eapply Forall_impl; [exact Hv|]. by intros ? [? _].
Qed.

Ltac key_solve := vm_compute; repeat constructor; congruence.

Lemma load_config_content c :
  validate_config c true = true -> load_config (Some (config_content c)) = Some c.
Proof.
  intros Hv. destruct (validate_config_values _ _ Hv) as (_ & H1 & H2 & H3 & H4 & H5).
  unfold load_config, config_content. cbn [default app].
  replace (getlines _) with (kMagic :: getlines
    (field_line kHeadUnitMac (head_unit_mac c) ++ field_line kWifiInterface (wifi_interface c)
     ++ field_line kSsid (management_hotspot_ssid c)
     ++ field_line kPassphrase (management_hotspot_passphrase c)
     ++ (if is_empty (airplay_pairing_store c) then []
         else field_line kPairingStore (airplay_pairing_store c)))).
  2:{ symmetry. apply (getlines_line kMagic). key_solve. }
  rewrite bytes_eqb_refl.
  do 4 (rewrite load_field; [|reflexivity|key_solve|done]).
  assert (load_lines (getlines (if is_empty (airplay_pairing_store c) then []
      else field_line kPairingStore (airplay_pairing_store c)))
    (mkConfig (head_unit_mac c) (wifi_interface c) (management_hotspot_ssid c)
       (management_hotspot_passphrase c) []) = Some c) as Hlast.
  { destruct (is_empty _) eqn:E.
    - destruct c as [? ? ? ? [|]]; [done|done].
    - rewrite <- (app_nil_r (field_line _ _)), load_field; [|reflexivity|key_solve|done].
      by destruct c. }
  unfold with_field, empty_config. simpl. rewrite Hlast, Hv. done.
Qed.

Lemma temporary_name_ne path pid counter : temporary_name path pid counter <> path.
Proof. by apply suffix_ne. Qed.

Lemma save_config_outcome path c pid counter d results b w :
  save_config path c pid counter (start_world d results) = (b, w) ->
  save_outcome d (temporary_name path pid counter) path (config_content c) b w.
Proof.
  set (t := temporary_name path pid counter).
  assert (t <> path) as Hne by apply temporary_name_ne.
  assert (quiet d t (start_world d results)) as Hq by apply quiet_start.
  unfold save_config. fold t.
  destruct (negb (validate_config c false)); [intros [= <- <-]; by apply quiet_outcome|].
  destruct (if has_parent path then _ else _) as [dirs w1] eqn:E1.
  assert (quiet d t w1) as Hq1.
  { destruct (has_parent path); [by eapply sys_plain_quiet|by injection E1 as <- <-]. }
  clear Hq E1. destruct (negb dirs); [intros [= <- <-]; by apply quiet_outcome|].
  destruct (sys_create t w1) as [fd w2] eqn:E2.
  pose proof (sys_create_quiet _ _ _ _ _ E2 Hq1) as Hq2.
  destruct fd; cbn [negb]; [|intros [= <- <-]; by apply quiet_outcome].
  apply sys_create_file in E2.
  destruct (write_all t _ w2) as [ok3 w3] eqn:E3.
  pose proof (write_all_quiet _ _ _ _ _ _ E3 Hq2) as Hq3.
  destruct ok3; [|intros [= <- <-]; apply quiet_outcome; [done|]; by apply sys_unlink_quiet].
  apply (write_all_adds _ _ _ _ _ E3) in E2. cbn [app] in E2.
  destruct (sys_plain w3) as [ok4 w4] eqn:E4.
  pose proof (sys_plain_quiet _ _ _ _ _ E4 Hq3) as Hq4.
  destruct ok4; [|intros [= <- <-]; apply quiet_outcome; [done|]; by apply sys_unlink_quiet].
  rewrite <- (sys_plain_disk _ _ _ E4) in E2.
  destruct (sys_rename t path w4) as [ok5 w5] eqn:E5.
  pose proof (sys_rename_outcome d t path _ w4 ok5 w5 Hne Hq4 E2 E5) as Ho.
  destruct ok5; cbn [negb]; [|intros [= <- <-]; apply quiet_outcome; [done|]; by apply sys_unlink_quiet].
  destruct Ho as [Hi Hh]. intros [= <- <-].
  assert (save_outcome d t path (config_content c) true w5) as Hs by by eapply installed_outcome.
  destruct (has_parent path); [|done]. by apply sys_plain_outcome.
Qed.

(** A save reads and writes the file and its temporary file only. *)
Lemma save_config_alike P path c pid counter w w' :
  P (temporary_name path pid counter) -> alike P w w' ->
  alike_result P (save_config path c pid counter w) (save_config path c pid counter w').
Proof.
  intros Hp H. unfold save_config. destruct (negb (validate_config c false)); [by split|].
  assert (H0 : alike_result P (if has_parent path then sys_plain w else (true, w)) (if has_parent path then sys_plain w' else (true, w')))
    by (destruct (has_parent path); [by apply sys_plain_alike|by split]).
  destruct (if has_parent path then sys_plain w else _) as [b1 w1], (if has_parent path then sys_plain w' else _) as [b1' w1'].
  destruct H0 as [E H1]. cbn [fst snd] in E, H1. subst b1'. destruct (negb b1); [by split|].
  pose proof (sys_create_alike P _ _ _ Hp H1) as H2. destruct (sys_create _ w1) as [b2 w2], (sys_create _ w1') as [b2' w2'].
  destruct H2 as [E H2]. cbn [fst snd] in E, H2. subst b2'. destruct (negb b2); [by split|].
  pose proof (write_all_alike P _ (config_content c) _ _ Hp H2) as H3.
  destruct (write_all _ _ w2) as [b3 w3], (write_all _ _ w2') as [b3' w3']. destruct H3 as [E H3]. cbn [fst snd] in E, H3. subst b3'.
  assert (H4 : alike_result P (if b3 then sys_plain w3 else (false, w3)) (if b3 then sys_plain w3' else (false, w3')))
    by (destruct b3; [by apply sys_plain_alike|by split]).
  destruct (if b3 then sys_plain w3 else _) as [b4 w4], (if b3 then sys_plain w3' else _) as [b4' w4'].
  destruct H4 as [E H4]. cbn [fst snd] in E, H4. subst b4'.
  assert (H5 : alike_result P (if b4 then sys_rename (temporary_name path pid counter) path w4 else (false, w4))
    (if b4 then sys_rename (temporary_name path pid counter) path w4' else (false, w4')))
    by (destruct b4; [by apply sys_rename_alike|by split]).
  destruct (if b4 then sys_rename _ _ w4 else _) as [b5 w5], (if b4 then sys_rename _ _ w4' else _) as [b5' w5'].
  destruct H5 as [E H5]. cbn [fst snd] in E, H5. subst b5'. destruct (negb b5).
  - split; [done|]. by apply sys_unlink_alike.
  - split; [done|]. destruct (has_parent path); [|done]. by apply sys_plain_alike.
Qed.

Definition sample_config : Config :=
  mkConfig (bs "00:11:22:33:44:55") (bs "wlan0") (bs "AA2ACP-1234") (bs "secret123") [].

(** ** Theorems *)

(** C39. Saving the configuration is all or nothing, whatever the system calls
    answer: at every moment the file holds its old contents or the complete new
    ones; a save that returns true has installed the new file, removed the
    temporary one and touched nothing else; one that returns false has changed no
    file but the temporary one. *)
Theorem save_config_atomic path c pid counter d results :
  let '(saved, w) := save_config path c pid counter (start_world d results) in
  Forall (fun d' => d' !! path = d !! path \/ d' !! path = Some (config_content c)) (history w) /\
  if saved then
    validate_config c false = true /\
    disk w !! path = Some (config_content c) /\ disk w !! temporary_name path pid counter = None /\
    forall name, name <> temporary_name path pid counter -> name <> path -> disk w !! name = d !! name
  else forall name, name <> temporary_name path pid counter -> disk w !! name = d !! name.
Proof.
  destruct (save_config _ _ _ _ _) as [b w] eqn:E.
  pose proof (save_config_outcome _ _ _ _ _ _ _ _ E) as [Hh Ho]. split; [done|].
  destruct b; [|done]. split; [|done].
  unfold save_config in E. by destruct (validate_config c false).
Qed.

(** What was saved is loaded: after a save that succeeded, reading the file
    gives back the same configuration, which satisfies the checks of a complete
    one. *)
Theorem config_roundtrip path c pid counter d results w :
  save_config path c pid counter (start_world d results) = (true, w) ->
  load_config (disk w !! path) = Some c.
Proof.
  intros E. pose proof (save_config_outcome _ _ _ _ _ _ _ _ E) as [_ (Hd & _ & _)].
  rewrite Hd. apply load_config_content, validate_config_weaken.
  unfold save_config in E. by destruct (validate_config c false).
Qed.

Lemma config_roundtrip_witness :
  let r := save_config (bs "/var/config") sample_config 7 0
    (start_world ∅ [Done 0; Done 0; Interrupted; Done 40; Done 500; Done 0; Done 0; Done 0]) in
  r.1 = true /\ load_config (disk r.2 !! bs "/var/config") = Some sample_config.
Proof.
  cbv zeta. split; [vm_compute; reflexivity|].
  apply (config_roundtrip (bs "/var/config") sample_config 7 0 ∅
    [Done 0; Done 0; Interrupted; Done 40; Done 500; Done 0; Done 0; Done 0]).
  vm_compute. reflexivity.
Defined.

(** A load never returns what validation refuses, and a file of another format
    is refused. *)
Lemma load_config_valid file c : load_config file = Some c -> validate_config c true = true.
Proof. unfold load_config. intros H. repeat case_match; simplify_eq; done. Qed.

(** A failing disk leaves the old file, here with a write that stops half-way. *)
Example short_write_keeps_old :
  let old := <[bs "c" := bs "old"]> ∅ in
  let r := save_config (bs "c") sample_config 7 0 (start_world old [Done 0; Done 10; Failed; Done 0]) in
  r.1 = false /\ disk r.2 = old.
Proof. vm_compute. done. Qed.
