(* ===== verification/PairingStore.v ===== *)
(** * The AirPlay pairing record on disk

    src/src/airplay/pairing_store.cpp: the binary record with the controller's
    long-term key and the accessory's public key, and its replacement. *)

From S2P Require Import Prelude Text FileStore.
#[local] Open Scope Z_scope.

(** The [Ed25519] member holds the two halves of the controller's key. *)
(* src/include/aa2acp/airplay/pairing_store.hpp:11-15 PairingRecord *)
Record PairingRecord := mkRecord {
  controller_id : Bytes;
  private_key : Bytes;
  public_key : Bytes;
  accessory_public_key : Bytes
}.

(* src/src/airplay/pairing_store.cpp:15-15 kMagic *)
Definition kMagic : Bytes := bs "ACPPAIR1".

(** ** Reading *)

(** The octets left in the stream, [None] once a read has failed. *)
(* src/src/airplay/pairing_store.cpp:31-37 read_u16 *)
Definition read_u16 (stream : Bytes) : option (Z * Bytes) :=
  match stream with
  | low :: high :: rest => Some (u16 (Z.lor low (Z.shiftl high 8)), rest)
  | _ => None
  end.

(* src/src/airplay/pairing_store.cpp:39-43 read_bytes *)
Definition read_bytes (size : nat) (stream : Bytes) : option (Bytes * Bytes) :=
  if Nat.leb size (length stream) then Some (take size stream, drop size stream) else None.

(* src/src/airplay/pairing_store.cpp:47-65 load_pairing_record *)
Definition load_pairing_record (file : option Bytes) : option PairingRecord :=
  match read_bytes 8 (default [] file) with
  | None => None
  | Some (magic, stream) =>
      if negb (bytes_eqb magic kMagic) then None
      else match read_u16 stream with
      | None => None
      | Some (identifier_size, stream) =>
          if (identifier_size =? 0) || (1024 <? identifier_size) then None
          else match read_bytes (Z.to_nat identifier_size) stream with
          | None => None
          | Some (id, stream) =>
              match read_bytes 32 stream with
              | None => None
              | Some (private, stream) =>
                  match read_bytes 32 stream with
                  | None => None
                  | Some (public, stream) =>
                      match read_bytes 32 stream with
                      | None => None
                      | Some (accessory, _) => Some (mkRecord id private public accessory)
                      end
                  end
              end
          end
      end
  end.

(** ** Writing *)

(* src/src/airplay/pairing_store.cpp:17-29 write_u16 *)
Fixpoint write_octets (fuel : nat) (name data : Bytes) (w : World) : bool * World :=
  match data, fuel with
  | [], _ => (true, w)
  | _ :: _, O => (false, w)
  | _ :: _, S fuel =>
      match sys_write name data w with
      | (Done (S n), w) => write_octets fuel name (drop (S n) data) w
      | (_, w) => (false, w)
      end
  end.
Definition write_u16 (name : Bytes) (value : Z) (w : World) : bool * World :=
  write_octets 2 name [u8 (Z.land value 255); u8 (Z.land (Z.shiftr value 8) 255)] w.

(* src/src/airplay/pairing_store.cpp:69-73 save_pairing_record *)
Definition storable (record : PairingRecord) : bool :=
  negb ((size_of (controller_id record) =? 0) || (1024 <? size_of (controller_id record))
        || negb (size_of (private_key record) =? 32) || negb (size_of (public_key record) =? 32)
        || negb (size_of (accessory_public_key record) =? 32)).

(** [a && b] of two operations on the world. *)
Definition and_then (first second : World -> bool * World) (w : World) : bool * World :=
  let '(ok, w) := first w in if ok then second w else (false, w).

(* src/src/airplay/pairing_store.cpp:109-115 save_pairing_record *)
Definition write_record (temporary : Bytes) (record : PairingRecord) : World -> bool * World :=
  and_then (write_all temporary kMagic)
  (and_then (write_u16 temporary (u16 (size_of (controller_id record))))
  (and_then (write_all temporary (controller_id record))
  (and_then (write_all temporary (take 32 (private_key record)))
  (and_then (write_all temporary (take 32 (public_key record)))
            (write_all temporary (take 32 (accessory_public_key record))))))).

(** [suffix] is what [mkstemp] made of the template's last six characters.
    [fchmod] and [fsync] do not change contents. *)
(* src/src/airplay/pairing_store.cpp:67-126 save_pairing_record *)
Definition save_pairing_record (path : Bytes) (record : PairingRecord) (suffix : Bytes) (w : World)
  : bool * World :=
  if negb (storable record) then (false, w)
  else
    let '(directories, w) := if has_parent path then sys_plain w else (true, w) in
    if negb directories then (false, w)
    else
      let temporary := path ++ bs ".tmp." ++ suffix in
      let '(fd, w) := and_then (sys_create temporary) sys_plain w in
      if negb fd then (false, sys_unlink temporary w)
      else
        let '(ok, w) := and_then (write_record temporary record) sys_plain w in
        if negb ok then (false, sys_unlink temporary w)
        else
          let '(renamed, w) := sys_rename temporary path w in
          if renamed then (true, w) else (false, sys_unlink temporary w).

(** The file a record is written as. *)
Definition record_content (record : PairingRecord) : Bytes :=
  kMagic ++ [u8 (Z.land (u16 (size_of (controller_id record))) 255);
             u8 (Z.land (Z.shiftr (u16 (size_of (controller_id record))) 8) 255)]
  ++ controller_id record ++ take 32 (private_key record) ++ take 32 (public_key record)
  ++ take 32 (accessory_public_key record).

(** ** Lemmas *)

Lemma read_bytes_app a b : read_bytes (length a) (a ++ b) = Some (a, b).
Proof.
  unfold read_bytes. rewrite (proj2 (Nat.leb_le _ _)) by (rewrite length_app; lia).
  by rewrite take_app_length, drop_app_length.
Qed.

Lemma read_bytes_app' n a b : length a = n -> read_bytes n (a ++ b) = Some (a, b).
Proof. intros <-. apply read_bytes_app. Qed.

Lemma read_u16_value v rest :
  is_u16 v -> read_u16 (u8 (Z.land v 255) :: u8 (Z.land (Z.shiftr v 8) 255) :: rest) = Some (v, rest).
Proof.
  intros Hv. unfold read_u16. do 2 f_equal.
  rewrite Z.lor_comm, lor_shift8 by apply u8_ok.
  rewrite !land255, shiftr8. unfold wrap. change (2 ^ 8) with 256. rewrite !Z.mod_mod by lia.
  rewrite (Z.mod_small (v / 256)) by (destruct Hv; split; [apply Z.div_pos; lia|apply Z.div_lt_upper_bound; lia]).
  rewrite Z.mod_small; pose proof (Z.div_mod v 256); destruct Hv; lia.
Qed.

Lemma storable_sizes r :
  storable r = true ->
  1 <= size_of (controller_id r) <= 1024 /\ length (private_key r) = 32%nat /\
  length (public_key r) = 32%nat /\ length (accessory_public_key r) = 32%nat.
Proof.
  unfold storable. intros H. bool_hyps. pose proof (size_nonneg (controller_id r)).
  unfold size_of in *. lia.
Qed.

Lemma load_record_content r :
  storable r = true -> load_pairing_record (Some (record_content r)) = Some r.
Proof.
  intros (H0 & H1 & H2 & H3)%storable_sizes. unfold load_pairing_record, record_content.
  rewrite !take_ge by lia. cbn [from_option id].
  rewrite read_bytes_app' by reflexivity. rewrite bytes_eqb_refl. cbn [negb app].
  rewrite read_u16_value by (apply wrap_is_u; lia).
  rewrite wrap_id by (split; lia).
  rewrite (proj2 (Z.eqb_neq _ 0)), (proj2 (Z.ltb_ge 1024 _)) by lia. cbn [orb].
  rewrite read_bytes_app' by (unfold size_of; lia).
  rewrite !read_bytes_app' by done.
  rewrite <- (app_nil_r (accessory_public_key r)), read_bytes_app' by done.
  by destruct r.
Qed.

Lemma and_then_quiet d t (f g : World -> bool * World) w b w' :
  (forall w b w', f w = (b, w') -> quiet d t w -> quiet d t w') ->
  (forall w b w', g w = (b, w') -> quiet d t w -> quiet d t w') ->
  and_then f g w = (b, w') -> quiet d t w -> quiet d t w'.
Proof.
  intros Hf Hg. unfold and_then. destruct (f w) as [[|] w1] eqn:E; intros H Hq.
  - by apply (Hg _ _ _ H), (Hf _ _ _ E).
  - injection H as <- <-. by apply (Hf _ _ _ E).
Qed.

Lemma write_octets_quiet fuel d0 t data w b w' :
  write_octets fuel t data w = (b, w') -> quiet d0 t w -> quiet d0 t w'.
Proof.
  revert data w; induction fuel as [|fuel IH]; intros [|x data] w; cbn [write_octets];
    try (by intros [= <- <-]).
  destruct (sys_write t (x :: data) w) as [r w1] eqn:E. intros H Hq.
  pose proof (sys_write_quiet _ _ _ _ _ _ E Hq) as Hq1.
  destruct r as [[|n]| |]; try (by injection H as <- <-). by apply (IH _ _ H).
Qed.

(** [adds t f data]: a successful [f] has added [data] to the file [t]. *)
Definition adds (t : Bytes) (f : World -> bool * World) (data : Bytes) : Prop :=
  forall w w' old, f w = (true, w') -> disk w !! t = Some old -> disk w' !! t = Some (old ++ data).

Lemma and_then_adds t f g a b : adds t f a -> adds t g b -> adds t (and_then f g) (a ++ b).
Proof.
  intros Hf Hg w w' old. unfold and_then. destruct (f w) as [[|] w1] eqn:E; [|done].
  intros H Hold. rewrite (Hg _ _ _ H (Hf _ _ _ E Hold)). by rewrite <- app_assoc.
Qed.

Lemma plain_adds t : adds t sys_plain [].
Proof. intros w w' old H Hold. rewrite (sys_plain_disk _ _ _ H), app_nil_r. done. Qed.

Lemma write_all_adds' t data : adds t (write_all t data) data.
Proof. intros w w' old. apply write_all_adds. Qed.

(** The two octets are written one by one or together. *)
Lemma write_octets_adds fuel t data : adds t (write_octets fuel t data) data.
Proof.
  intros w w' old H Hold. apply (write_loop_adds fuel t data w w' old); [|done].
  revert data w old H Hold; induction fuel as [|fuel IH]; intros [|x data] w old; cbn [write_octets write_loop];
    try done.
  destruct (sys_write t (x :: data) w) as [r w1] eqn:E. intros H Hold.
  destruct r as [[|n]| |]; try done. unfold sys_write in E.
  destruct (next_result w) as [r1 w2] eqn:En. apply next_result_world in En as (Hd & _ & _).
  destruct r1; try done. injection E as Hn <-.
  eapply (IH _ _ _ H). simpl. apply lookup_insert_eq.
Qed.

Lemma write_record_quiet d t r w b w' :
  write_record t r w = (b, w') -> quiet d t w -> quiet d t w'.
Proof.
  revert w b w'. unfold write_record.
  repeat first [ (intros ? ? ?; by apply write_all_quiet) | (intros ? ? ?; by apply write_octets_quiet)
               | intros ? ? ? ; apply and_then_quiet ].
Qed.

Lemma write_record_adds t r : adds t (write_record t r) (record_content r).
Proof.
  unfold write_record, record_content.
  repeat first [apply write_all_adds' | apply write_octets_adds | apply and_then_adds].
Qed.

Lemma create_file_quiet d t w b w' :
  and_then (sys_create t) sys_plain w = (b, w') -> quiet d t w -> quiet d t w'.
Proof.
  apply and_then_quiet; intros ? ? ?; [apply sys_create_quiet|apply sys_plain_quiet].
Qed.

Lemma create_file_empty t w w' :
  and_then (sys_create t) sys_plain w = (true, w') -> disk w' !! t = Some [].
Proof.
  unfold and_then. destruct (sys_create t w) as [[|] w1] eqn:E; [|done]. intros H.
  rewrite (sys_plain_disk _ _ _ H). by eapply sys_create_file.
Qed.

Lemma save_pairing_record_outcome path r suffix d results b w :
  save_pairing_record path r suffix (start_world d results) = (b, w) ->
  save_outcome d (path ++ bs ".tmp." ++ suffix) path (record_content r) b w.
Proof.
  set (t := path ++ bs ".tmp." ++ suffix).
  assert (t <> path) as Hne by by apply suffix_ne.
  assert (quiet d t (start_world d results)) as Hq by apply quiet_start.
  unfold save_pairing_record. fold t.
  destruct (negb (storable r)); [intros [= <- <-]; by apply quiet_outcome|].
  destruct (if has_parent path then _ else _) as [dirs w1] eqn:E1.
  assert (quiet d t w1) as Hq1.
  { destruct (has_parent path); [by eapply sys_plain_quiet|by injection E1 as <- <-]. }
  clear Hq E1. destruct (negb dirs); [intros [= <- <-]; by apply quiet_outcome|].
  destruct (and_then (sys_create t) sys_plain w1) as [fd w2] eqn:E2.
  pose proof (create_file_quiet _ _ _ _ _ E2 Hq1) as Hq2.
  destruct fd; cbn [negb]; [|intros [= <- <-]; apply quiet_outcome; [done|]; by apply sys_unlink_quiet].
  apply create_file_empty in E2.
  destruct (and_then (write_record t r) sys_plain w2) as [ok3 w3] eqn:E3.
  assert (quiet d t w3) as Hq3.
  { eapply and_then_quiet; [| |exact E3|exact Hq2]; intros ? ? ?; [apply write_record_quiet|apply sys_plain_quiet]. }
  destruct ok3; cbn [negb]; [|intros [= <- <-]; apply quiet_outcome; [done|]; by apply sys_unlink_quiet].
  apply (and_then_adds t _ _ _ _ (write_record_adds t r) (plain_adds t) _ _ _ E3) in E2.
  rewrite app_nil_r in E2. cbn [app] in E2.
  destruct (sys_rename t path w3) as [ok4 w4] eqn:E4.
  pose proof (sys_rename_outcome d t path _ w3 ok4 w4 Hne Hq3 E2 E4) as Ho.
  destruct ok4; [|intros [= <- <-]; apply quiet_outcome; [done|]; by apply sys_unlink_quiet].
  destruct Ho as [Hi Hh]. intros [= <- <-]. by eapply installed_outcome.
Qed.

Lemma save_pairing_record_loads path r suffix d results w :
  save_pairing_record path r suffix (start_world d results) = (true, w) ->
  load_pairing_record (disk w !! path) = Some r.
Proof.
  intros Hs. pose proof (save_pairing_record_outcome _ _ _ _ _ _ _ Hs) as [_ (-> & _)].
  apply load_record_content. unfold save_pairing_record in Hs. by destruct (storable r).
Qed.

(** ** Theorems *)

(** Saving the pairing record is all or nothing and what it saved is loaded:
    whatever the system calls answer, at every moment the file holds its old
    contents or the complete new record; a save that returns true leaves a file
    that loads as exactly that record, and one that returns false has changed no
    file but its temporary one. *)
Theorem save_pairing_record_atomic path r suffix d results :
  let t := path ++ bs ".tmp." ++ suffix in
  let '(saved, w) := save_pairing_record path r suffix (start_world d results) in
  Forall (fun d' => d' !! path = d !! path \/ load_pairing_record (d' !! path) = Some r) (history w) /\
  if saved then
    load_pairing_record (disk w !! path) = Some r /\ disk w !! t = None /\
    forall name, name <> t -> name <> path -> disk w !! name = d !! name
  else forall name, name <> t -> disk w !! name = d !! name.
Proof.
  cbv zeta. destruct (save_pairing_record _ _ _ _) as [b w] eqn:E.
  pose proof (save_pairing_record_outcome _ _ _ _ _ _ _ E) as [Hh Ho].
  destruct (storable r) eqn:Es.
  - split; [|destruct b; [destruct Ho as (-> & ? & ?); by rewrite load_record_content|done]].
    eapply Forall_impl; [exact Hh|]. intros d' [?|Hd]; [by left|right].
    by rewrite Hd, load_record_content.
  - unfold save_pairing_record in E. rewrite Es in E. injection E as <- <-.
    split; [|done]. simpl. repeat constructor.
Qed.

(** A record that was interrupted in the middle of its length field is lost: the
    two octets are not retried after [EINTR], unlike the other writes. *)
Example interrupted_length_field :
  let r := mkRecord (bs "id") (repeat 1 32) (repeat 2 32) (repeat 3 32) in
  (save_pairing_record (bs "p") r (bs "abcdef")
    (start_world ∅ ([Done 0; Done 0; Done 8; Interrupted] ++ repeat (Done 100) 8))).1 = false /\
  (save_pairing_record (bs "p") r (bs "abcdef")
    (start_world ∅ ([Done 0; Done 0; Done 8; Done 2; Interrupted] ++ repeat (Done 100) 8))).1 = true.
Proof. vm_compute. done. Qed.
