(* ===== verification/HeadUnitCapabilities.v ===== *)
(** * What a head unit said it can do, and the cache of it on disk

    src/src/airplay/head_unit_capabilities.cpp: reading the capabilities from
    the [/info] property list, and their text file. *)

From S2P Require Import Prelude Text Bplist FileStore.
#[local] Open Scope Z_scope.

(* src/include/aa2acp/airplay/head_unit_capabilities.hpp:12-20 HeadUnitCapabilities *)
Record HeadUnitCapabilities := mkProfile {
  head_unit_mac : Bytes;
  width_pixels : Z;
  height_pixels : Z;
  max_fps : Z;
  media_pcm_48k_stereo : bool;
  guidance_pcm_16k_mono : bool;
  system_pcm_16k_mono : bool
}.

Abbreviation Dictionary := (list (Bytes * PlistValue)).

(* src/src/airplay/head_unit_capabilities.cpp:12-12 kMagic *)
Definition kMagic : Bytes := bs "AA2ACP-HEAD-UNIT-CAPABILITIES-1".

(** [dictionary.find(key)] *)
Fixpoint dict_find (d : Dictionary) (key : Bytes) : option PlistValue :=
  match d with
  | [] => None
  | (k, v) :: d => if bytes_eqb k key then Some v else dict_find d key
  end.

(* src/src/airplay/head_unit_capabilities.cpp:14-23 integer_at *)
Definition integer_at (d : Dictionary) (key : Bytes) : option Z :=
  match dict_find d key with
  | Some (PInt n) => Some n
  | _ => None
  end.

Definition is_some_eq (x : option Z) (n : Z) : bool :=
  match x with Some m => m =? n | None => false end.

(* src/src/airplay/head_unit_capabilities.cpp:25-33 valid *)
Definition valid (p : HeadUnitCapabilities) : bool :=
  let has_display := (0 <? width_pixels p) && (0 <? height_pixels p) && (0 <? max_fps p) in
  let has_audio := media_pcm_48k_stereo p || guidance_pcm_16k_mono p || system_pcm_16k_mono p in
  negb (bytes_eqb (head_unit_mac p) []) && (has_display || has_audio)
  && find_none_of [13; 10; 61] (head_unit_mac p).

(* src/src/airplay/head_unit_capabilities.cpp:35-42 parse_u32 *)
Definition parse_u32 (value : Bytes) : option Z := parse_unsigned (2 ^ 32 - 1) value.

(** The first audio entry of the wanted type decides. *)
(* src/src/airplay/head_unit_capabilities.cpp:54-67 supports_pcm *)
Fixpoint supports_pcm_in (array : list PlistValue) (audio_type : Bytes) (format : Z) : bool :=
  match array with
  | [] => false
  | PDict d :: array =>
      if negb (is_some_eq (integer_at d (bs "type")) 100) then supports_pcm_in array audio_type format
      else match dict_find d (bs "audioType"), integer_at d (bs "audioOutputFormats") with
           | Some (PString t), Some output =>
               if bytes_eqb t audio_type then Z.land output format =? format
               else supports_pcm_in array audio_type format
           | _, _ => supports_pcm_in array audio_type format
           end
  | _ :: array => supports_pcm_in array audio_type format
  end.

(* src/src/airplay/head_unit_capabilities.cpp:44-53 supports_pcm *)
Definition supports_pcm (info : Dictionary) (audio_type : Bytes) (format : Z) : bool :=
  match dict_find info (bs "audioFormats") with
  | Some (PArray array) => supports_pcm_in array audio_type format
  | _ => false
  end.

(** The loop over the displays: [None] is the early [return std::nullopt]. *)
(* src/src/airplay/head_unit_capabilities.cpp:87-102 head_unit_capabilities *)
Fixpoint first_display (array : list PlistValue) (profile : HeadUnitCapabilities)
    : option HeadUnitCapabilities :=
  match array with
  | [] => Some profile
  | PDict d :: array =>
      if negb (is_some_eq (integer_at d (bs "type")) 110) then first_display array profile
      else match integer_at d (bs "widthPixels"), integer_at d (bs "heightPixels"),
                 integer_at d (bs "maxFPS") with
           | Some width, Some height, Some fps =>
               if (4294967295 <? width) || (4294967295 <? height) || (4294967295 <? fps) then None
               else Some (mkProfile (head_unit_mac profile) (u32 width) (u32 height) (u32 fps)
                                    (media_pcm_48k_stereo profile) (guidance_pcm_16k_mono profile)
                                    (system_pcm_16k_mono profile))
           | _, _, _ => None
           end
  | _ :: array => first_display array profile
  end.

(* src/src/airplay/head_unit_capabilities.cpp:71-105 head_unit_capabilities *)
Definition head_unit_capabilities (info : Dictionary) (mac : Bytes) : option HeadUnitCapabilities :=
  let profile := mkProfile mac 0 0 0 (supports_pcm info (bs "media") 32768)
                           (supports_pcm info (bs "default") 16) (supports_pcm info (bs "alert") 16) in
  let with_display := match dict_find info (bs "displays") with
                      | Some (PArray array) => first_display array profile
                      | _ => Some profile
                      end in
  match with_display with
  | None => None
  | Some profile => if valid profile then Some profile else None
  end.

(** ** Loading *)

Definition kMac : Bytes := bs "head_unit_mac".
Definition kWidth : Bytes := bs "width_pixels".
Definition kHeight : Bytes := bs "height_pixels".
Definition kFps : Bytes := bs "max_fps".
Definition kMedia : Bytes := bs "media_pcm_48k_stereo".
Definition kGuidance : Bytes := bs "guidance_pcm_16k_mono".
Definition kSystem : Bytes := bs "system_pcm_16k_mono".

(* src/src/airplay/head_unit_capabilities.cpp:119-145 load_head_unit_capabilities *)
Definition load_entry (key value : Bytes) (p : HeadUnitCapabilities) : option HeadUnitCapabilities :=
  let '(mkProfile mac w h f m g s) := p in
  if bytes_eqb key kMac then Some (mkProfile value w h f m g s)
  else if bytes_eqb key kWidth then
    (fun w => mkProfile mac w h f m g s) <$> parse_u32 value
  else if bytes_eqb key kHeight then
    (fun h => mkProfile mac w h f m g s) <$> parse_u32 value
  else if bytes_eqb key kFps then
    (fun f => mkProfile mac w h f m g s) <$> parse_u32 value
  else if bytes_eqb key kMedia then Some (mkProfile mac w h f (bytes_eqb value (bs "1")) g s)
  else if bytes_eqb key kGuidance then Some (mkProfile mac w h f m (bytes_eqb value (bs "1")) s)
  else if bytes_eqb key kSystem then Some (mkProfile mac w h f m g (bytes_eqb value (bs "1")))
  else None.

Fixpoint load_entries (lines : list Bytes) (p : HeadUnitCapabilities) : option HeadUnitCapabilities :=
  match lines with
  | [] => Some p
  | line :: lines =>
      match find_char 61 line with
      | None => None
      | Some separator =>
          match load_entry (take separator line) (drop (separator + 1) line) p with
          | None => None
          | Some p => load_entries lines p
          end
      end
  end.

(* src/src/airplay/head_unit_capabilities.cpp:107-150 load_head_unit_capabilities *)
Definition load_head_unit_capabilities (file : option Bytes) (mac : Bytes)
    : option HeadUnitCapabilities :=
  match getlines (default [] file) with
  | [] => None
  | magic :: lines =>
      if bytes_eqb magic kMagic then
        match load_entries lines (mkProfile [] 0 0 0 false false false) with
        | None => None
        | Some p => if valid p && bytes_eqb (head_unit_mac p) mac then Some p else None
        end
      else None
  end.

(** ** Saving *)

Definition entry_line (key value : Bytes) : Bytes := key ++ 61 :: value ++ [10].
Definition flag (b : bool) : Bytes := if b then bs "1" else bs "0".

(* src/src/airplay/head_unit_capabilities.cpp:169-177 save_head_unit_capabilities *)
Definition profile_content (p : HeadUnitCapabilities) : Bytes :=
  kMagic ++ [10]
  ++ entry_line kMac (head_unit_mac p)
  ++ entry_line kWidth (dec (width_pixels p))
  ++ entry_line kHeight (dec (height_pixels p))
  ++ entry_line kFps (dec (max_fps p))
  ++ entry_line kMedia (flag (media_pcm_48k_stereo p))
  ++ entry_line kGuidance (flag (guidance_pcm_16k_mono p))
  ++ entry_line kSystem (flag (system_pcm_16k_mono p)).

(** The [ofstream]: the text is buffered, [static_cast<bool>(stream)] is read
    before the buffer reaches the file, and the destructor's flush is not
    checked. [stream_good] is what the test reads and the flush writes what the
    system accepts in one write. *)
(* src/src/airplay/head_unit_capabilities.cpp:152-186 save_head_unit_capabilities *)
Definition save_head_unit_capabilities (path : Bytes) (p : HeadUnitCapabilities) (suffix : Bytes)
    (w : World) : bool * World :=
  if negb (valid p) then (false, w)
  else
    let '(directories, w) := sys_plain w in
    if negb directories then (false, w)
    else
      let temporary := path ++ bs ".tmp." ++ suffix in
      let '(fd, w) := sys_create temporary w in
      if negb fd then (false, w)
      else
        let '(opened, w) := sys_plain w in
        let '(ok, w) := if opened then
                          let '(stream_good, w) := sys_plain w in
                          (stream_good, (sys_write temporary (profile_content p) w).2)
                        else (false, w) in
        let '(ok, w) := if ok then sys_plain w else (false, w) in
        let '(ok, w) := if ok then sys_rename temporary path w else (false, w) in
        if negb ok then (false, sys_unlink temporary w) else (true, w).

(** ** Lemmas *)

Definition text_ok (v : Bytes) : Prop := Forall (fun c => c <> 10) v.
Definition key_ok (v : Bytes) : Prop := Forall (fun c => c <> 10 /\ c <> 61) v.

Lemma load_one key value text p p' :
  key_ok key -> text_ok value -> load_entry key value p = Some p' ->
  load_entries (getlines (entry_line key value ++ text)) p = load_entries (getlines text) p'.
Proof.
  intros Hkey Hv He. unfold entry_line.
  replace ((key ++ 61 :: value ++ [10]) ++ text) with ((key ++ 61 :: value) ++ 10 :: text)
    by (rewrite <- !app_assoc; simpl; by rewrite <- app_assoc).
  rewrite getlines_line.
  - cbn [load_entries]. rewrite find_char_app.
    + rewrite take_app_length. replace (key ++ 61 :: value) with ((key ++ [61]) ++ value)
        by (by rewrite <- app_assoc).
      rewrite drop_app_length' by (rewrite length_app; simpl; lia). by rewrite He.
    + eapply Forall_impl; [exact Hkey|]. by intros ? [_ ?].
  - apply Forall_app. split; [eapply Forall_impl; [exact Hkey|]; by intros ? [? _]|].
    by constructor.
Qed.

Lemma dec_text n : 0 <= n -> text_ok (dec n).
Proof. intros. eapply Forall_impl; [by apply dec_digits|]. intros c Hc%digit_range. lia. Qed.

Lemma flag_text b : text_ok (flag b).
Proof. destruct b; vm_compute; repeat constructor; congruence. Qed.

Lemma flag_value b : bytes_eqb (flag b) (bs "1") = b.
Proof. by destruct b. Qed.

Definition profile_ok (p : HeadUnitCapabilities) : Prop :=
  is_u32 (width_pixels p) /\ is_u32 (height_pixels p) /\ is_u32 (max_fps p).

Lemma valid_mac p : valid p = true -> text_ok (head_unit_mac p).
Proof.
  unfold valid. intros H. bool_hyps. unfold find_none_of in *.
  match goal with Hf : forallb _ _ = true |- _ => rename Hf into Hnone end.
  rewrite forallb_forall in Hnone. apply Forall_forall. intros c Hc ->.
  apply list_elem_of_In, Hnone in Hc. discriminate Hc.
Qed.

Ltac key_solve := vm_compute; repeat constructor; congruence.

Lemma number_entries mac w h f m g s n :
  is_u32 n ->
  load_entry kWidth (dec n) (mkProfile mac w h f m g s) = Some (mkProfile mac n h f m g s) /\
  load_entry kHeight (dec n) (mkProfile mac w h f m g s) = Some (mkProfile mac w n f m g s) /\
  load_entry kFps (dec n) (mkProfile mac w h f m g s) = Some (mkProfile mac w h n m g s).
Proof.
  intros [? ?]. assert (parse_u32 (dec n) = Some n) as E by (apply parse_unsigned_dec; lia).
  unfold load_entry. split_and!;
  repeat match goal with |- context [bytes_eqb ?a ?b] =>
    let r := eval vm_compute in (bytes_eqb a b) in change (bytes_eqb a b) with r end;
  by rewrite E.
Qed.

Lemma load_profile_content p :
  profile_ok p -> valid p = true ->
  load_head_unit_capabilities (Some (profile_content p)) (head_unit_mac p) = Some p.
Proof.
  intros (Hw & Hh & Hf) Hv. pose proof (valid_mac _ Hv) as Hm. pose proof Hw as []. pose proof Hh as []. pose proof Hf as [].
  unfold load_head_unit_capabilities, profile_content.
  match goal with |- context [kMagic ++ [10] ++ ?rest] =>
    replace (getlines (default [] (Some (kMagic ++ [10] ++ rest)))) with (kMagic :: getlines rest) end.
  2:{ symmetry. apply (getlines_line kMagic). key_solve. }
  rewrite bytes_eqb_refl.
  set (v := fun w h f m g sy => mkProfile (head_unit_mac p) w h f m g sy).
  rewrite (load_one kMac _ _ _ (v 0 0 0 false false false)); [|key_solve|done|done].
  rewrite (load_one kWidth _ _ _ (v (width_pixels p) 0 0 false false false)); [|key_solve|apply dec_text; lia|by apply number_entries].
  rewrite (load_one kHeight _ _ _ (v (width_pixels p) (height_pixels p) 0 false false false)); [|key_solve|apply dec_text; lia|by apply number_entries].
  rewrite (load_one kFps _ _ _ (v (width_pixels p) (height_pixels p) (max_fps p) false false false)); [|key_solve|apply dec_text; lia|by apply number_entries].
  rewrite (load_one kMedia _ _ _ (v (width_pixels p) (height_pixels p) (max_fps p)
    (media_pcm_48k_stereo p) false false)); [|key_solve|apply flag_text|by destruct (media_pcm_48k_stereo p)].
  rewrite (load_one kGuidance _ _ _ (v (width_pixels p) (height_pixels p) (max_fps p)
    (media_pcm_48k_stereo p) (guidance_pcm_16k_mono p) false));
    [|key_solve|apply flag_text|by destruct (guidance_pcm_16k_mono p)].
  replace (entry_line kSystem _) with (entry_line kSystem (flag (system_pcm_16k_mono p)) ++ [])
    by apply app_nil_r.
  rewrite (load_one kSystem _ _ _ p); [|key_solve|apply flag_text|by destruct p as [? ? ? ? ? ? []]].
  cbn [getlines getlines_from load_entries]. by rewrite Hv, bytes_eqb_refl.
Qed.

Lemma first_display_keeps array p q :
  profile_ok p -> first_display array p = Some q -> profile_ok q /\ head_unit_mac q = head_unit_mac p.
Proof.
  intros Hp. induction array as [|x array IH]; cbn [first_display]; [by intros [= <-]|].
  destruct x as [| | | | | |d]; try done. destruct (negb _); [done|].
  destruct (integer_at d (bs "widthPixels")) as [w|]; [|done].
  destruct (integer_at d (bs "heightPixels")) as [h|]; [|done].
  destruct (integer_at d (bs "maxFPS")) as [f|]; [|done].
  destruct (_ || _); [done|]. intros [= <-]. split; [|done].
  repeat split; simpl; apply wrap_is_u; lia.
Qed.

Lemma head_unit_capabilities_ok info mac p :
  head_unit_capabilities info mac = Some p -> profile_ok p /\ valid p = true /\ head_unit_mac p = mac.
Proof.
  unfold head_unit_capabilities.
  set (p0 := mkProfile mac 0 0 0 _ _ _).
  assert (profile_ok p0) as H0 by (repeat split; simpl; lia).
  destruct (match dict_find info (bs "displays") with Some (PArray array) => first_display array p0 | _ => Some p0 end)
    as [q|] eqn:E; [|done].
  destruct (valid q) eqn:Ev; [|done]. intros [= <-].
  assert (profile_ok q /\ head_unit_mac q = mac) as [? ?]; [|done].
  repeat case_match; try (by injection E as <-).
  by apply (first_display_keeps _ _ _ H0) in E.
Qed.

Lemma sys_write_take t data w r w' :
  sys_write t data w = (r, w') -> disk w !! t = Some [] ->
  exists n, disk w' !! t = Some (take n data).
Proof.
  unfold sys_write. destruct (next_result w) as [r1 w1] eqn:E. intros H Hd.
  apply next_result_world in E as (Hdisk & _ & _).
  destruct r1; injection H as <- <-; simpl.
  - exists (Nat.min n (length data)). rewrite lookup_insert_eq, Hdisk, Hd. done.
  - exists O. by rewrite Hdisk, Hd.
  - exists O. by rewrite Hdisk, Hd.
Qed.

Lemma save_capabilities_outcome path p suffix d results b w :
  save_head_unit_capabilities path p suffix (start_world d results) = (b, w) ->
  exists n, save_outcome d (path ++ bs ".tmp." ++ suffix) path (take n (profile_content p)) b w.
Proof.
  set (t := path ++ bs ".tmp." ++ suffix).
  assert (t <> path) as Hne by by apply suffix_ne.
  assert (quiet d t (start_world d results)) as Hq by apply quiet_start.
  unfold save_head_unit_capabilities. fold t.
  destruct (negb (valid p)); [intros [= <- <-]; exists O; by apply quiet_outcome|].
  destruct (sys_plain _) as [dirs w1] eqn:E1. pose proof (sys_plain_quiet _ _ _ _ _ E1 Hq) as Hq1.
  destruct (negb dirs); [intros [= <- <-]; exists O; by apply quiet_outcome|].
  destruct (sys_create t w1) as [fd w2] eqn:E2.
  pose proof (sys_create_quiet _ _ _ _ _ E2 Hq1) as Hq2.
  destruct fd; cbn [negb]; [|intros [= <- <-]; exists O; by apply quiet_outcome].
  apply sys_create_file in E2.
  destruct (sys_plain w2) as [opened w3] eqn:E3.
  pose proof (sys_plain_quiet _ _ _ _ _ E3 Hq2) as Hq3. rewrite <- (sys_plain_disk _ _ _ E3) in E2.
  destruct opened; [|intros [= <- <-]; exists O; apply quiet_outcome; [done|]; by apply sys_unlink_quiet].
  destruct (sys_plain w3) as [good w4] eqn:E4.
  pose proof (sys_plain_quiet _ _ _ _ _ E4 Hq3) as Hq4. rewrite <- (sys_plain_disk _ _ _ E4) in E2.
  destruct (sys_write t (profile_content p) w4) as [r w5] eqn:E5. cbn [snd].
  pose proof (sys_write_quiet _ _ _ _ _ _ E5 Hq4) as Hq5.
  destruct (sys_write_take _ _ _ _ _ E5 E2) as [n Hn]. intros Hs; exists n; revert Hs; cbv beta iota.
  destruct good; [|intros [= <- <-]; apply quiet_outcome; [done|]; by apply sys_unlink_quiet].
  destruct (sys_plain w5) as [ok6 w6] eqn:E6.
  pose proof (sys_plain_quiet _ _ _ _ _ E6 Hq5) as Hq6. rewrite <- (sys_plain_disk _ _ _ E6) in Hn.
  destruct ok6; [|intros [= <- <-]; apply quiet_outcome; [done|]; by apply sys_unlink_quiet].
  destruct (sys_rename t path w6) as [ok7 w7] eqn:E7.
  pose proof (sys_rename_outcome d t path _ w6 ok7 w7 Hne Hq6 Hn E7) as Ho.
  destruct ok7; cbn [negb]; [|intros [= <- <-]; apply quiet_outcome; [done|]; by apply sys_unlink_quiet].
  destruct Ho as [Hi Hh]. intros [= <- <-]. by eapply installed_outcome.
Qed.

Definition sample_info : Dictionary :=
  [(bs "audioFormats", PArray [PDict [(bs "audioOutputFormats", PInt 49152); (bs "audioType", PString (bs "media"));
                                      (bs "type", PInt 100)]]);
   (bs "displays", PArray [PDict [(bs "heightPixels", PInt 480); (bs "maxFPS", PInt 30);
                                  (bs "type", PInt 110); (bs "widthPixels", PInt 800)]])].

(** ** Theorems *)

(** What a head unit announced is what a later run sees: capabilities read
    from an [/info] dictionary are within 32 bits and well formed, so the file
    written for them loads, for the same head unit, as the same capabilities. *)
Theorem capabilities_reload info mac p :
  head_unit_capabilities info mac = Some p ->
  load_head_unit_capabilities (Some (profile_content p)) mac = Some p.
Proof.
  intros (Hp & Hv & <-)%head_unit_capabilities_ok. by apply load_profile_content.
Qed.

Lemma capabilities_reload_witness :
  exists p, head_unit_capabilities sample_info (bs "00:11") = Some p /\
  load_head_unit_capabilities (Some (profile_content p)) (bs "00:11") = Some p.
Proof.
  exists (mkProfile (bs "00:11") 800 480 30 true false false). split; [vm_compute; reflexivity|].
  apply (capabilities_reload sample_info). vm_compute. reflexivity.
Defined.

(** Saving the capabilities installs what reached the disk of the new file,
    a prefix of it that the code does not check, or changes no file but the
    temporary one; at every moment the file holds its old contents or that. *)
Theorem save_capabilities_prefix path p suffix d results :
  let t := path ++ bs ".tmp." ++ suffix in
  let '(saved, w) := save_head_unit_capabilities path p suffix (start_world d results) in
  exists n,
  Forall (fun d' => d' !! path = d !! path \/ d' !! path = Some (take n (profile_content p))) (history w) /\
  if saved then
    disk w !! path = Some (take n (profile_content p)) /\ disk w !! t = None /\
    forall name, name <> t -> name <> path -> disk w !! name = d !! name
  else forall name, name <> t -> disk w !! name = d !! name.
Proof.
  cbv zeta. destruct (save_head_unit_capabilities _ _ _ _) as [b w] eqn:E.
  destruct (save_capabilities_outcome _ _ _ _ _ _ _ E) as (n & Hh & Ho). exists n.
  split; [exact Hh|]. by destruct b.
Qed.

(** A disk that fills up while the buffer is flushed replaces a good file with
    a truncated one, and the save reports success. *)
Example truncated_file_installed :
  let p := mkProfile (bs "00:11") 800 480 30 true false false in
  let old := <[bs "d/c" := profile_content p]> ∅ in
  let r := save_head_unit_capabilities (bs "d/c") p (bs "abcdef")
    (start_world old [Done 0; Done 0; Done 0; Done 0; Failed; Done 0; Done 0]) in
  r.1 = true /\ disk r.2 !! bs "d/c" = Some [] /\
  load_head_unit_capabilities (disk r.2 !! bs "d/c") (bs "00:11") = None.
Proof. vm_compute. done. Qed.
