(* ===== verification/DaemonLog.v ===== *)
(** * Logging

    src/include/aa2acp/bridge/logging.hpp and src/src/bridge/daemon_log.cpp: log
    levels and lines, the bounded tail kept for the management page, the buffers
    that mirror standard output and error, and the retention of log files. *)

From stdpp Require Import sorting.
From S2P Require Import Prelude Text Bplist BplistFacts Config FileStore.
#[local] Open Scope Z_scope.

(** ** Levels and lines *)

(* src/include/aa2acp/bridge/logging.hpp:12-12 LogLevel *)
Inductive LogLevel := debug | info | warning | error.

(* src/include/aa2acp/bridge/logging.hpp:14-26 log_level_name *)
Definition log_level_name (level : LogLevel) : Bytes :=
  match level with
  | debug => bs "debug"
  | info => bs "info"
  | warning => bs "warning"
  | error => bs "error"
  end.

(* src/include/aa2acp/bridge/logging.hpp:28-33 log_prefix *)
Definition log_prefix (level : LogLevel) (marker : Z) : Bytes :=
  let name := log_level_name level in
  bs "[" ++ name ++ repeat 32 (7 - length name) ++ bs "] " ++ [marker] ++ bs " ".

(* src/include/aa2acp/bridge/logging.hpp:35-45 parse_log_level *)
Definition parse_log_level (value : Bytes) : option LogLevel :=
  if bytes_eqb value (bs "debug") then Some debug
  else if bytes_eqb value (bs "info") then Some info
  else if bytes_eqb value (bs "warning") then Some warning
  else if bytes_eqb value (bs "error") then Some error
  else None.

(** [variable]: what [getenv("AA2ACP_LOG_LEVEL")] returns. *)
(* src/include/aa2acp/bridge/logging.hpp:47-51 configured_log_level *)
Definition configured_log_level (variable : option Bytes) : LogLevel :=
  match variable with
  | None => info
  | Some value => default info (parse_log_level value)
  end.

Definition severity (level : LogLevel) : Z :=
  match level with debug => 0 | info => 1 | warning => 2 | error => 3 end.

(* src/include/aa2acp/bridge/logging.hpp:53-55 log_level_enabled *)
Definition log_level_enabled (variable : option Bytes) (level : LogLevel) : bool :=
  severity (configured_log_level variable) <=? severity level.

(** Where a finished line goes: whether to standard error, and its text. *)
(* src/include/aa2acp/bridge/logging.hpp:76-115 LogLine *)
Definition log_line (variable : option Bytes) (level : LogLevel) (message : Bytes)
    : option (bool * Bytes) :=
  if negb (log_level_enabled variable level) || is_empty message then None
  else Some (match level with warning | error => true | _ => false end,
             log_prefix level 62 ++ message).

(** ** The bounded tail *)

(* src/include/aa2acp/bridge/daemon_log.hpp:21-21 kMaximumBytes *)
Definition kMaximumBytes : nat := 200 * 1024.

(* src/src/bridge/daemon_log.cpp:37-42 RecentLog::append *)
Definition append (text contents : Bytes) : Bytes :=
  let contents := contents ++ text in
  if Nat.ltb kMaximumBytes (length contents)
  then drop (length contents - kMaximumBytes) contents else contents.

(** ** The mirrored streams *)

(* src/src/bridge/daemon_log.cpp:124-130 TeeBuffer *)
Record TeeBuffer := mkTee {
  console : Bytes;
  file : option Bytes;
  recent : Bytes;
  at_line_start : bool;
  ticks : nat;                 (* how many time stamps were taken *)
  accepts : list (option nat)  (* how much each write is taken; all of it when empty *)
}.

(* src/src/bridge/daemon_log.cpp:57-65 TeeBuffer::has_log_level_prefix *)
Definition has_log_level_prefix (text : Bytes) : bool :=
  existsb (fun level => starts_with (bs "[" ++ log_level_name level) text)
          [debug; info; warning; error].

(** One write to a stream: its new contents and whether it took everything. *)
Definition put (r : option nat) (data stream : Bytes) : bool * Bytes :=
  match r with
  | None => (true, stream ++ data)
  | Some n => (Nat.leb (length data) n, stream ++ take n data)
  end.

Definition put_console (data : Bytes) (t : TeeBuffer) : bool * TeeBuffer :=
  let '(ok, c) := put (default None (head (accepts t))) data (console t) in
  (ok, mkTee c (file t) (recent t) (at_line_start t) (ticks t) (tail (accepts t))).

Definition put_file (data : Bytes) (t : TeeBuffer) : bool * TeeBuffer :=
  match file t with
  | None => (true, t)
  | Some f =>
      let '(ok, f) := put (default None (head (accepts t))) data f in
      (ok, mkTee (console t) (Some f) (recent t) (at_line_start t) (ticks t) (tail (accepts t)))
  end.

Definition put_recent (data : Bytes) (t : TeeBuffer) : TeeBuffer :=
  mkTee (console t) (file t) (append data (recent t)) (at_line_start t) (ticks t) (accepts t).

Definition set_line_start (b : bool) (t : TeeBuffer) : TeeBuffer :=
  mkTee (console t) (file t) (recent t) b (ticks t) (accepts t).

Section Tee.
(** The [n]-th time stamp, the level the buffer was made with, and the level of
    the [ScopedLogLevel] in force. *)
Context (log_timestamp : nat -> Bytes) (default_level : LogLevel) (active : option LogLevel).

Definition take_timestamp (t : TeeBuffer) : Bytes * TeeBuffer :=
  (log_timestamp (ticks t), mkTee (console t) (file t) (recent t) (at_line_start t) (S (ticks t)) (accepts t)).

Definition line_prefix (first : bool) (text : Bytes) : Bytes :=
  if has_log_level_prefix text then []
  else log_prefix (default default_level active) (if first then 62 else 124).

(* src/src/bridge/daemon_log.cpp:92-107 TeeBuffer::write_locked *)
Definition begin_line (first : bool) (text : Bytes) (t : TeeBuffer) : bool * TeeBuffer :=
  if negb (at_line_start t) then (true, t)
  else
    let prefix := line_prefix first text in
    let '(ok, t) := match prefix with [] => (true, t) | _ => put_console prefix t end in
    if negb ok then (false, t)
    else
      let '(stamp, t) := take_timestamp t in
      let '(ok, t) := put_file (stamp ++ prefix) t in
      if negb ok then (false, t)
      else (true, set_line_start false (put_recent (stamp ++ prefix) t)).

(** [text] from [offset] on; [first] is [offset == 0]. *)
(* src/src/bridge/daemon_log.cpp:90-122 TeeBuffer::write_locked *)
Fixpoint write_from (fuel : nat) (first : bool) (text : Bytes) (t : TeeBuffer) : bool * TeeBuffer :=
  match text, fuel with
  | [], _ => (true, t)
  | _ :: _, O => (false, t)
  | _ :: _, S fuel =>
      let '(ok, t) := begin_line first text t in
      if negb ok then (false, t)
      else
        let count := match find_char 10 text with None => length text | Some n => S n end in
        let piece := take count text in
        let '(ok, t) := put_console piece t in
        if negb ok then (false, t)
        else
          let '(ok, t) := put_file piece t in
          if negb ok then (false, t)
          else
            let t := set_line_start (byte_at text (count - 1) =? 10) (put_recent piece t) in
            write_from fuel false (drop count text) t
  end.

Definition write_locked (text : Bytes) (t : TeeBuffer) : bool * TeeBuffer :=
  write_from (length text) true text t.

(* src/src/bridge/daemon_log.cpp:76-80 TeeBuffer::xsputn *)
Definition xsputn (text : Bytes) (t : TeeBuffer) : Z * TeeBuffer :=
  let '(ok, t) := write_locked text t in (if ok then size_of text else 0, t).

(** [None] is end of file. *)
(* src/src/bridge/daemon_log.cpp:67-74 TeeBuffer::overflow *)
Definition overflow (character : option Z) (t : TeeBuffer) : option Z * TeeBuffer :=
  match character with
  | None => (Some 0, t)
  | Some c => let '(ok, t) := write_locked [c] t in (if ok then Some c else None, t)
  end.

(** ** Reference: what a text becomes, line by line *)

(** The text cut after every newline. *)
Fixpoint pieces_from (cur l : Bytes) : list Bytes :=
  match l with
  | [] => match cur with [] => [] | _ => [rev cur] end
  | c :: l => if c =? 10 then rev (c :: cur) :: pieces_from [] l else pieces_from (c :: cur) l
  end.
Definition pieces (l : Bytes) : list Bytes := pieces_from [] l.

(** Each piece with its prefix; only the first piece can continue a line. *)
Fixpoint prefixed (first start : bool) (ps : list Bytes) : list (Bytes * Bytes) :=
  match ps with
  | [] => []
  | p :: ps => (if start then line_prefix first p else [], p) :: prefixed false true ps
  end.

Definition on_console (ps : list (Bytes * Bytes)) : Bytes := concat (map (fun p => p.1 ++ p.2) ps).

(** With the time stamp of each line that starts here. *)
Fixpoint retained (start : bool) (tick : nat) (ps : list (Bytes * Bytes)) : Bytes :=
  match ps with
  | [] => []
  | (prefix, p) :: ps =>
      (if start then log_timestamp tick ++ prefix else []) ++ p
      ++ retained true (if start then S tick else tick) ps
  end.
End Tee.

(** ** Retention of the log files *)

(* src/src/bridge/daemon_log.cpp:163-163 next_daemon_log_path *)
Definition log_name_prefix : Bytes := bs "aa2acp-bridge-daemon-".

Definition ends_with (suffix l : Bytes) : bool := bytes_eqb (drop (length l - length suffix) l) suffix.

(** A directory entry: its name and whether it is a regular file. *)
(* src/src/bridge/daemon_log.cpp:162-163 next_daemon_log_path *)
Definition is_daemon_log (entry : Bytes * bool) : bool :=
  entry.2 && ends_with (bs ".log") entry.1 && starts_with log_name_prefix entry.1.

(** [left.filename() > right.filename()], or equal. *)
Definition newer (a b : Bytes) : Prop := bytes_ltb a b = false.
#[export] Instance newer_dec a b : Decision (newer a b) := decide (bytes_ltb a b = false).

(* src/src/bridge/daemon_log.cpp:159-172 next_daemon_log_path *)
Definition logs_to_remove (entries : list (Bytes * bool)) : list Bytes :=
  drop 29 (merge_sort newer (map fst (filter (fun e => is_daemon_log e = true) entries))).

(** [created]: whether the directory could be made; [removable]: which removals
    succeed. The result is the new path and what is left in the directory. *)
(* src/src/bridge/daemon_log.cpp:153-180 next_daemon_log_path *)
Definition next_daemon_log_path (state_directory : Bytes) (created : bool)
    (entries : list (Bytes * bool)) (removable : Bytes -> bool) (stamp pid : Z)
    : option Bytes * list (Bytes * bool) :=
  if negb created then (None, entries)
  else
    let gone := filter (fun n => removable n = true) (logs_to_remove entries) in
    (Some (path_join (path_join state_directory (bs "logs"))
             (log_name_prefix ++ dec stamp ++ bs "-" ++ dec pid ++ bs ".log")),
     filter (fun e => e.1 ∉ gone) entries).

(** ** Lemmas *)

Definition tail_of (l : Bytes) : Bytes := drop (length l - kMaximumBytes) l.

#[local] Opaque kMaximumBytes.

Lemma append_tail text l : append text (tail_of l) = tail_of (l ++ text).
Proof.
  unfold append, tail_of. set (k := kMaximumBytes). rewrite !length_app, !length_drop.
  destruct (Nat.le_gt_cases (length l) k) as [Hl|Hl].
  - replace (length l - k)%nat with O by lia. rewrite drop_0, Nat.sub_0_r.
    destruct (Nat.ltb_spec k (length l + length text)); [done|].
    by replace (length l + length text - k)%nat with O by lia.
  - replace (length l - (length l - k))%nat with k by lia.
    destruct (Nat.ltb_spec k (k + length text)).
    + replace (k + length text - k)%nat with (length text) by lia.
      rewrite <- drop_app_le, drop_drop by lia. f_equal. lia.
    + assert (text = []) as -> by (destruct text; simpl in *; [done|lia]).
      rewrite !app_nil_r. simpl. by rewrite Nat.add_0_r.
Qed.

Lemma pieces_from_None cur l :
  find_char 10 l = None -> pieces_from cur l = match rev cur ++ l with [] => [] | p => [p] end.
Proof.
  unfold find_char. revert cur; induction l as [|c l IH]; intros cur H.
  - simpl. rewrite app_nil_r. destruct cur as [|x cur]; [done|]. simpl.
    destruct (rev cur ++ [x]) eqn:E; [by apply app_eq_nil in E as [_ ?]|done].
  - cbn [search starts_with] in H. cbn [pieces_from]. rewrite (Z.eqb_sym c).
    destruct (10 =? c) eqn:E; cbn [andb] in H; [done|]. apply fmap_None in H.
    rewrite IH by done. simpl. by rewrite <- app_assoc.
Qed.

Lemma pieces_from_Some cur l n :
  find_char 10 l = Some n -> pieces_from cur l = (rev cur ++ take (S n) l) :: pieces (drop (S n) l).
Proof.
  unfold find_char. revert cur n; induction l as [|c l IH]; intros cur n H; [done|].
  cbn [search starts_with] in H. cbn [pieces_from]. rewrite (Z.eqb_sym c).
  destruct (10 =? c) eqn:E; cbn [andb] in H.
  - injection H as <-. apply Z.eqb_eq in E as <-. simpl. by rewrite drop_0.
  - apply fmap_Some in H as (m & Hm & ->). rewrite (IH _ _ Hm). simpl. by rewrite <- app_assoc.
Qed.

(** The piece [write_from] takes, and the rest. *)
Lemma pieces_cons x text :
  let count := match find_char 10 (x :: text) with None => length (x :: text) | Some n => S n end in
  pieces (x :: text) = take count (x :: text) :: pieces (drop count (x :: text)) /\
  (1 <= count <= length (x :: text))%nat /\
  (byte_at (x :: text) (count - 1) =? 10) = bool_decide (find_char 10 (x :: text) <> None) /\
  (find_char 10 (x :: text) = None -> drop count (x :: text) = []).
Proof.
  cbv zeta. destruct (find_char 10 (x :: text)) as [n|] eqn:E.
  - pose proof (search_Some _ _ _ E) as ((t & Ht) & Hn & _). split_and!; try done.
    + unfold pieces at 1. by rewrite (pieces_from_Some [] _ _ E).
    + lia.
    + apply (f_equal length) in Ht. rewrite length_drop in Ht. simpl in *. lia.
    + rewrite bool_decide_eq_true_2 by done. apply find_char_Some in E as (u & Hu & _).
      rewrite Hu at 1. simpl. rewrite Nat.sub_0_r.
      rewrite <- (Nat.add_0_r n) at 2.
      replace n with (length (take n (x :: text))) at 2 by (rewrite length_take; lia).
      by rewrite byte_at_app_r.
  - split_and!.
    + unfold pieces at 1. rewrite (pieces_from_None [] _ E). simpl rev. cbn [app].
      by rewrite take_ge, drop_ge by lia.
    + simpl. lia.
    + lia.
    + rewrite bool_decide_eq_false_2 by auto. apply Z.eqb_neq. intros Hc.
      pose proof (find_char_none_inv _ _ E) as Hf. rewrite List.Forall_forall in Hf.
      refine (Hf _ (nth_In (x :: text) 0 (n := (length (x :: text) - 1)%nat) _) Hc). simpl. lia.
    + intros _. by rewrite drop_ge by lia.
Qed.

Lemma starts_with_piece pat l n :
  Forall (fun c => c <> 10) pat -> find_char 10 l = Some n ->
  starts_with pat (take (S n) l) = starts_with pat l.
Proof.
  unfold find_char. intros Hp. revert l n. induction Hp as [|p pat Hx Hp IH]; intros l n H; [done|].
  destruct l as [|x l]; [done|]. cbn [search starts_with] in H.
  destruct (10 =? x) eqn:E; cbn [andb] in H.
  - injection H as <-. apply Z.eqb_eq in E as <-. simpl. by rewrite (proj2 (Z.eqb_neq p 10)).
  - apply fmap_Some in H as (m & Hm & ->). simpl. by rewrite (IH _ _ Hm).
Qed.

Lemma level_prefix_piece l n :
  find_char 10 l = Some n -> has_log_level_prefix (take (S n) l) = has_log_level_prefix l.
Proof.
  intros H. unfold has_log_level_prefix. cbn [existsb].
  assert (forall level, starts_with (bs "[" ++ log_level_name level) (take (S n) l)
                        = starts_with (bs "[" ++ log_level_name level) l) as Hs.
  { intros []; (apply starts_with_piece; [vm_compute; repeat constructor; congruence|done]). }
  by rewrite !Hs.
Qed.

Section TeeFacts.
Context (log_timestamp : nat -> Bytes) (default_level : LogLevel) (active : option LogLevel).
Abbreviation begin_line := (begin_line log_timestamp default_level active).
Abbreviation write_from := (write_from log_timestamp default_level active).
Abbreviation line_prefix := (line_prefix default_level active).
Abbreviation prefixed := (prefixed default_level active).
Abbreviation retained := (retained log_timestamp).

Lemma line_prefix_piece first x text :
  let count := match find_char 10 (x :: text) with None => length (x :: text) | Some n => S n end in
  line_prefix first (take count (x :: text)) = line_prefix first (x :: text).
Proof.
  cbv zeta. unfold DaemonLog.line_prefix. destruct (find_char 10 (x :: text)) as [n|] eqn:E.
  - by rewrite (level_prefix_piece _ _ E).
  - by rewrite take_ge by lia.
Qed.

(** The buffer after some text, when every write is taken: [shown] on the
    console and [kept] in the file and the tail. *)
Definition grown (t t' : TeeBuffer) (shown kept : Bytes) : Prop :=
  console t' = console t ++ shown /\ file t' = option_map (fun f => f ++ kept) (file t) /\
  (forall r, recent t = tail_of r -> recent t' = tail_of (r ++ kept)) /\ accepts t' = [].

Lemma grown_trans t1 t2 t3 a b c d :
  grown t1 t2 a b -> grown t2 t3 c d -> grown t1 t3 (a ++ c) (b ++ d).
Proof.
  intros (H1 & H2 & H3 & _) (K1 & K2 & K3 & K4). split_and!; try done.
  - by rewrite K1, H1, app_assoc.
  - rewrite K2, H2. destruct (file t1); [simpl; by rewrite app_assoc|done].
  - intros r Hr. by rewrite (K3 _ (H3 _ Hr)), app_assoc.
Qed.

Lemma begin_line_grows first text t :
  accepts t = [] ->
  exists t', begin_line first text t = (true, t') /\
  grown t t' (if at_line_start t then line_prefix first text else [])
    (if at_line_start t then log_timestamp (ticks t) ++ line_prefix first text else []) /\
  at_line_start t' = false /\ ticks t' = (if at_line_start t then S (ticks t) else ticks t).
Proof.
  destruct t as [c f r s k a]. cbn [accepts at_line_start ticks]. intros ->.
  unfold DaemonLog.begin_line. cbn [at_line_start]. destruct s; cbn [negb].
  - destruct (line_prefix first text) as [|p ps]; destruct f as [f|]; simpl;
      eexists; split; try reflexivity; (split; [|done]); split_and!; simpl; try done;
      rewrite ?app_nil_r; try done; intros r0 ->; apply append_tail.
  - eexists. split; [reflexivity|]. split; [|done]. split_and!; simpl; try done; rewrite ?app_nil_r; try done.
    + destruct f; [simpl; by rewrite app_nil_r|done].
    + intros r0 ->. by rewrite app_nil_r.
Qed.

Lemma put_piece_grows piece b t :
  accepts t = [] ->
  exists t1 t2, put_console piece t = (true, t1) /\ put_file piece t1 = (true, t2) /\
  grown t (set_line_start b (put_recent piece t2)) piece piece /\ ticks t2 = ticks t.
Proof.
  destruct t as [c f r s k a]. cbn [accepts]. intros ->. destruct f as [f|]; simpl;
    (eexists; eexists; split; [reflexivity|]; split; [reflexivity|]; split; [|done]);
    split_and!; simpl; try done; intros r0 ->; apply append_tail.
Qed.

Lemma write_from_lines fuel first text t :
  (length text <= fuel)%nat -> accepts t = [] ->
  exists t', write_from fuel first text t = (true, t') /\
  grown t t' (on_console (prefixed first (at_line_start t) (pieces text)))
    (retained (at_line_start t) (ticks t) (prefixed first (at_line_start t) (pieces text))).
Proof.
  revert first text t. induction fuel as [|fuel IH]; intros first [|x text] t Hf Ha; try (simpl in Hf; lia).
  1, 2: exists t; (split; [done|]); split_and!; simpl; try done; rewrite ?app_nil_r; try done;
    [destruct (file t); [simpl; by rewrite app_nil_r|done]|intros r ->; by rewrite app_nil_r].
  cbn [DaemonLog.write_from].
  destruct (begin_line_grows first (x :: text) t Ha) as (t1 & -> & Hg1 & Hs1 & Ht1). cbn [negb]. cbv zeta.
  pose proof (pieces_cons x text) as Hp. pose proof (line_prefix_piece first x text) as Hlp.
  cbv zeta in Hp, Hlp. set (count := match find_char 10 (x :: text) with None => _ | Some n => _ end) in *.
  destruct Hp as (Hpieces & Hcount & Hlast & Hnone).
  destruct (put_piece_grows (take count (x :: text)) (byte_at (x :: text) (count - 1) =? 10) t1)
    as (t2 & t3 & -> & Hpf & Hg2 & Ht3); [apply Hg1|]. cbn [negb]. rewrite Hpf. cbn [negb].
  set (t4 := set_line_start _ _) in *.
  destruct (IH false (drop count (x :: text)) t4) as (t5 & Hw & Hg3).
  { rewrite length_drop. simpl in *. lia. }
  { apply Hg2. }
  exists t5. split; [exact Hw|]. rewrite Hpieces. cbn [DaemonLog.prefixed].
  pose proof (grown_trans _ _ _ _ _ _ _ (grown_trans _ _ _ _ _ _ _ Hg1 Hg2) Hg3) as Hg.
  assert (ticks t4 = if at_line_start t then S (ticks t) else ticks t) as Htk by (by rewrite <- Ht1, <- Ht3).
  assert (at_line_start t4 = true \/ drop count (x :: text) = []) as Hrest.
  { unfold t4. simpl. rewrite Hlast. destruct (find_char 10 (x :: text)) eqn:E; [by left|right; by apply Hnone]. }
  rewrite Hlp. unfold on_console. cbn [map concat DaemonLog.retained fst snd].
  rewrite !app_assoc.
  destruct Hrest as [Hr|Hr].
  - rewrite Hr, Htk in Hg. destruct (at_line_start t); exact Hg.
  - rewrite Hr in Hg |- *. destruct (at_line_start t); exact Hg.
Qed.
End TeeFacts.

#[export] Instance newer_trans : Transitive newer.
Proof.
  intros a. induction a as [|x a IH]; intros [|y b] [|z c]; unfold newer in *; cbn [bytes_ltb]; try done.
  intros H1 H2. apply orb_false_elim in H1 as [H1 H1'], H2 as [H2 H2']. bool_hyps.
  apply orb_false_intro; [apply Z.ltb_ge; lia|].
  destruct (Z.eqb_spec x z) as [->|]; [|done]. cbn [andb]. assert (z = y) as <- by lia.
  rewrite Z.eqb_refl in *. by apply (IH b c).
Qed.

#[export] Instance newer_total : Total newer.
Proof.
  intros a b. unfold newer. destruct (bytes_ltb a b) eqn:E; [right|by left]. by apply bytes_ltb_asym.
Qed.

(** The daemon logs of a directory, newest first. *)
Definition daemon_logs (entries : list (Bytes * bool)) : list Bytes :=
  merge_sort newer (map fst (filter (fun e => is_daemon_log e = true) entries)).

Lemma daemon_logs_split entries :
  let logs := daemon_logs entries in
  logs ≡ₚ map fst (filter (fun e => is_daemon_log e = true) entries) /\
  logs = take 29 logs ++ logs_to_remove entries /\
  (forall kept gone, kept ∈ take 29 logs -> gone ∈ logs_to_remove entries -> newer kept gone).
Proof.
  cbv zeta. split; [apply merge_sort_Permutation|]. unfold logs_to_remove. fold (daemon_logs entries).
  split; [by rewrite take_drop|]. intros kept gone Hk Hg.
  pose proof (StronglySorted_merge_sort newer (map fst (filter (fun e => is_daemon_log e = true) entries))) as Hs.
  fold (daemon_logs entries) in Hs. rewrite <- (take_drop 29 (daemon_logs entries)) in Hs.
  by apply (proj1 (StronglySorted_app _ _ _) Hs).
Qed.

Lemma unique_entry (entries : list (Bytes * bool)) e e' :
  NoDup (map fst entries) -> e ∈ entries -> e' ∈ entries -> e.1 = e'.1 -> e = e'.
Proof.
  induction entries as [|x entries IH]; simpl; [set_solver|].
  intros [Hx Hnd]%NoDup_cons [->|He]%elem_of_cons [->|He']%elem_of_cons Heq; try done.
  - destruct Hx. rewrite Heq. by apply (list_elem_of_fmap_2 fst).
  - destruct Hx. rewrite <- Heq. by apply (list_elem_of_fmap_2 fst).
  - by apply IH.
Qed.

(** The directory after pruning. *)
Definition pruned (entries : list (Bytes * bool)) (removable : Bytes -> bool) : list (Bytes * bool) :=
  filter (fun e => e.1 ∉ filter (fun n => removable n = true) (logs_to_remove entries)) entries.

Lemma daemon_log_entry entries e :
  NoDup (map fst entries) -> e ∈ entries -> e.1 ∈ daemon_logs entries <-> is_daemon_log e = true.
Proof.
  intros Hnd He. destruct (daemon_logs_split entries) as (Hp & _ & _). rewrite Hp. split.
  - intros (e' & Heq & [Hd He']%list_elem_of_filter)%list_elem_of_fmap.
    by rewrite (unique_entry entries e e').
  - intros Hd. apply (list_elem_of_fmap_2 fst). by apply list_elem_of_filter.
Qed.

Lemma daemon_logs_nodup entries : NoDup (map fst entries) -> NoDup (daemon_logs entries).
Proof.
  intros Hnd. destruct (daemon_logs_split entries) as (Hp & _ & _). rewrite Hp.
  apply (sublist_NoDup _ (map fst entries)); [done|]. apply (fmap_sublist fst), sublist_filter.
Qed.

Lemma pruned_gone entries removable e :
  NoDup (map fst entries) -> e ∈ entries -> e ∉ pruned entries removable ->
  is_daemon_log e = true /\ removable e.1 = true /\
  forall k, k ∈ take 29 (daemon_logs entries) -> newer k e.1 /\ k <> e.1.
Proof.
  intros Hnd He Hg. destruct (daemon_logs_split entries) as (_ & Hsplit & Hnewer).
  assert (e.1 ∈ filter (fun n => removable n = true) (logs_to_remove entries)) as Hin.
  { apply dec_stable. intros Hn. apply Hg. by apply list_elem_of_filter. }
  apply list_elem_of_filter in Hin as [Hr Hin]. split_and!; [|done|].
  - apply (daemon_log_entry entries); [done..|]. rewrite Hsplit. apply elem_of_app. by right.
  - intros k Hk. split; [by apply Hnewer|]. intros ->.
    pose proof (daemon_logs_nodup _ Hnd) as Hl. rewrite Hsplit in Hl.
    apply NoDup_app in Hl as (_ & Hdis & _). by apply (Hdis e.1).
Qed.

Lemma pruned_length entries removable :
  NoDup (map fst entries) -> (forall name, removable name = true) ->
  (length (filter (fun k => is_daemon_log k = true) (pruned entries removable)) <= 29)%nat.
Proof.
  intros Hnd Hall. destruct (daemon_logs_split entries) as (_ & Hsplit & _).
  rewrite <- (length_fmap fst). etrans; [|apply (firstn_le_length 29 (daemon_logs entries))].
  apply submseteq_length, NoDup_submseteq.
  - apply (sublist_NoDup _ (map fst entries)); [done|].
    apply (fmap_sublist fst). etrans; apply sublist_filter.
  - intros n (e & -> & [Hd [Hg He]%list_elem_of_filter]%list_elem_of_filter)%list_elem_of_fmap.
    apply (daemon_log_entry entries) in Hd; [|done..]. rewrite Hsplit in Hd.
    apply elem_of_app in Hd as [Hd|Hd]; [done|]. destruct Hg. by apply list_elem_of_filter.
Qed.

(** ** Theorems *)

(** The log shown by the management page is always the end of everything
    logged: after any sequence of appends the retained text is exactly the last
    200 KiB of their concatenation. *)
Theorem recent_log_is_tail texts :
  fold_left (fun contents text => append text contents) texts [] =
  drop (length (concat texts) - 200 * 1024) (concat texts).
Proof.
  change (200 * 1024)%nat with kMaximumBytes. fold (tail_of (concat texts)).
  enough (forall seen, fold_left (fun contents text => append text contents) texts (tail_of seen)
                       = tail_of (seen ++ concat texts)) as H by apply (H []).
  induction texts as [|text texts IH]; intros seen; simpl.
  - by rewrite app_nil_r.
  - by rewrite append_tail, IH, app_assoc.
Qed.

(** What is written to a mirrored stream reaches the console line by line,
    each new line with its level prefix unless it has one, and reaches the log
    file and the retained tail as the same text with a time stamp before every
    new line; a line continued by a later write gets no second prefix. *)
Theorem tee_writes_lines log_timestamp default_level active text t :
  accepts t = [] -> recent t = tail_of (recent t) ->
  let lines := prefixed default_level active true (at_line_start t) (pieces text) in
  let kept := retained log_timestamp (at_line_start t) (ticks t) lines in
  exists t', xsputn log_timestamp default_level active text t = (size_of text, t') /\
  console t' = console t ++ on_console lines /\
  file t' = option_map (fun f => f ++ kept) (file t) /\
  recent t' = tail_of (recent t ++ kept).
Proof.
  cbv zeta. intros Ha Hr.
  destruct (write_from_lines log_timestamp default_level active (length text) true text t (le_n _) Ha)
    as (t' & Hw & Hc & Hf & Hk & _).
  exists t'. unfold xsputn, write_locked. rewrite Hw. split_and!; try done. by apply Hk.
Qed.

Definition sample_tee : TeeBuffer := mkTee [] (Some []) [] true 0 [].

Lemma tee_writes_lines_witness :
  exists t', xsputn (fun _ => bs "T ") info None (bs "hi") sample_tee = (2, t') /\
  console t' = bs "[info   ] > hi" /\ file t' = Some (bs "T [info   ] > hi").
Proof.
  destruct (tee_writes_lines (fun _ => bs "T ") info None (bs "hi") sample_tee) as (t' & H1 & H2 & H3 & _);
    [reflexivity|vm_compute; reflexivity|].
  exists t'. split; [exact H1|]. split; [exact H2|exact H3].
Defined.

(** Starting a new log keeps the 29 newest daemon logs, by the names that
    carry their time, and removes only older daemon logs, so that with the new one
    at most thirty remain when removals succeed; no other file is touched. *)
Theorem log_retention state entries removable stamp pid :
  NoDup (map fst entries) ->
  let remaining := (next_daemon_log_path state true entries removable stamp pid).2 in
  (forall e, e ∈ entries -> e ∉ remaining ->
     is_daemon_log e = true /\ removable e.1 = true /\
     forall k, k ∈ take 29 (daemon_logs entries) -> newer k e.1 /\ k <> e.1) /\
  (forall e, e ∈ remaining -> e ∈ entries) /\
  ((forall name, removable name = true) ->
   (length (filter (fun k => is_daemon_log k = true) remaining) <= 29)%nat).
Proof.
  intros Hnd. cbv zeta. unfold next_daemon_log_path. cbn [negb snd].
  fold (pruned entries removable). split_and!.
  - intros e. by apply pruned_gone.
  - intros e [_ ?]%list_elem_of_filter. done.
  - by apply pruned_length.
Qed.

Lemma log_retention_witness :
  let entries := map (fun n => (log_name_prefix ++ dec n ++ bs ".log", true)) [5; 9; 7] in
  (length (filter (fun k => is_daemon_log k = true)
    (next_daemon_log_path (bs "/s") true entries (fun _ => true) 100 1).2) <= 29)%nat.
Proof.
  cbv zeta. apply (log_retention (bs "/s")
    (map (fun n => (log_name_prefix ++ dec n ++ bs ".log", true)) [5; 9; 7]) (fun _ => true) 100 1).
  - apply (bool_decide_eq_true_1 _). vm_compute. reflexivity.
  - done.
Defined.

(** The level of a line is read back from the environment variable's syntax. *)
Example level_names_parse :
  map (fun l => parse_log_level (log_level_name l)) [debug; info; warning; error]
  = map Some [debug; info; warning; error].
Proof. reflexivity. Qed.

(** Thirty-one old logs: the two oldest go. *)
Example prune_31 :
  let entries := map (fun n => (log_name_prefix ++ dec (1000 + Z.of_nat n) ++ bs "-1.log", true)) (seq 0 31) in
  map fst (filter (fun e => e ∉ (next_daemon_log_path (bs "/s") true entries (fun _ => true) 2000 1).2) entries)
  = [log_name_prefix ++ bs "1000-1.log"; log_name_prefix ++ bs "1001-1.log"].
Proof. vm_compute. reflexivity. Qed.
