(* ===== verification/LogStreams.v ===== *)
(** * The two mirrored streams

    The rest of [src/src/bridge/daemon_log.cpp]: the buffers of standard output and
    error, which share one file and one tail, their installation, and the time stamp;
    with the lines of [src/include/aa2acp/bridge/logging.hpp] that go through them. *)

From S2P Require Import Prelude Text Bplist DaemonLog.
#[local] Open Scope Z_scope.

(** ** The time stamp *)

(** What [localtime_r] fills in: the year, the month from 1, the day and the time. *)
Record LocalTime := mkLocalTime { year : Z; month : Z; day : Z; hour : Z; minute : Z; second : Z }.

Definition two_digits (n : Z) : Bytes := (if n <? 10 then bs "0" else []) ++ dec n.
Definition three_digits (n : Z) : Bytes := (if n <? 100 then bs "0" else []) ++ two_digits n.

(** [strftime], whose first nineteen octets are kept, and [snprintf] behind them; a
    text that is shorter ends before what [snprintf] adds. *)
(* src/src/bridge/daemon_log.cpp:18-33 log_timestamp *)
Definition log_timestamp (t : LocalTime) (milliseconds : Z) : Bytes :=
  let text := dec (year t) ++ bs "-" ++ two_digits (month t) ++ bs "-" ++ two_digits (day t) ++ bs " "
              ++ two_digits (hour t) ++ bs ":" ++ two_digits (minute t) ++ bs ":" ++ two_digits (second t) in
  if Nat.ltb (length text) 19 then text
  else take 19 text ++ bs "." ++ three_digits (milliseconds mod 1000) ++ bs " ".

(** ** The streams *)

Inductive Stream := Cout | Cerr.

(** [cout_start], [cerr_start]: whether the buffer of the stream is at the start of a
    line, which each knows only of itself. *)
(* src/include/aa2acp/bridge/daemon_log.hpp:47-53 DaemonLog (members) *)
Record Streams := mkStreams {
  cout_text : Bytes;
  cout_start : bool;
  cerr_text : Bytes;
  cerr_start : bool;
  log_file : option Bytes;
  log_tail : Bytes;
  stamps : nat
}.

(** [opened]: whether a path was given and its file could be opened; what the streams
    and the file held before is kept. *)
(* src/src/bridge/daemon_log.cpp:132-144 DaemonLog *)
Definition new_streams (path : option Bytes) (opened : bool) (cout cerr file tail : Bytes) : Streams :=
  mkStreams cout true cerr true
    (match path with Some _ => if opened then Some file else None | None => None end) tail 0.

Definition tee_of (s : Stream) (l : Streams) : TeeBuffer :=
  match s with
  | Cout => mkTee (cout_text l) (log_file l) (log_tail l) (cout_start l) (stamps l) []
  | Cerr => mkTee (cerr_text l) (log_file l) (log_tail l) (cerr_start l) (stamps l) []
  end.

Definition set_tee (s : Stream) (t : TeeBuffer) (l : Streams) : Streams :=
  match s with
  | Cout => mkStreams (console t) (at_line_start t) (cerr_text l) (cerr_start l) (file t) (recent t) (ticks t)
  | Cerr => mkStreams (cout_text l) (cout_start l) (console t) (at_line_start t) (file t) (recent t) (ticks t)
  end.

(** The level that a buffer was made with. *)
(* src/src/bridge/daemon_log.cpp:136-142 DaemonLog (default levels) *)
Definition default_level (s : Stream) : LogLevel := match s with Cout => info | Cerr => error end.

(** What the streams and the file say when they are flushed. *)
(* src/src/bridge/daemon_log.cpp:82-88 TeeBuffer::sync *)
Definition sync (console_ok file_open file_ok : bool) : Z := if console_ok && (negb file_open || file_ok) then 0 else -1.

Section Lines.
Context (log_timestamp : nat -> Bytes).

Definition write_stream (s : Stream) (active : option LogLevel) (text : Bytes) (l : Streams) : Streams :=
  set_tee s (xsputn log_timestamp (default_level s) active text (tee_of s l)).2 l.

(** A line of the program: its level is in force while it is written. *)
(* src/include/aa2acp/bridge/logging.hpp:83-92 LogLine (destructor) *)
Definition log_to (variable : option Bytes) (level : LogLevel) (message : Bytes) (l : Streams) : Streams :=
  match log_line variable level message with
  | None => l
  | Some (err, text) => write_stream (if err then Cerr else Cout) (Some level) text l
  end.

(** ** Reference: the log as a list of lines *)

(** The lines of a message as they are kept: a stamp before each, and behind the stamp
    the level, with a bar in the lines that go on with the message. *)
Definition kept_lines (tick : nat) (level : LogLevel) (text : Bytes) : Bytes :=
  retained log_timestamp true tick (prefixed info (Some level) true true (pieces text)).

Fixpoint kept (tick : nat) (lines : list (bool * LogLevel * Bytes)) : Bytes :=
  match lines with
  | [] => []
  | (_, level, text) :: lines => kept_lines tick level text ++ kept (tick + length (pieces text)) lines
  end.

Definition shown (err : bool) (lines : list (bool * LogLevel * Bytes)) : Bytes :=
  concat (map (fun '(_, level, text) => on_console (prefixed info (Some level) true true (pieces text)))
    (filter (fun l => l.1.1 = err) lines)).

Definition written (variable : option Bytes) (messages : list (LogLevel * Bytes)) : list (bool * LogLevel * Bytes) :=
  omap (fun '(level, message) => (fun r : bool * Bytes => (r.1, level, r.2)) <$> log_line variable level message) messages.

(** ** Facts *)

#[local] Opaque kMaximumBytes.

(** A text that is empty or ends a line. *)
Definition whole (text : Bytes) : Prop := default 10 (last text) = 10.

Lemma whole_drop n text : whole text -> whole (drop n text).
Proof.
  unfold whole. intros H. rewrite <- (take_drop n text), last_app in H. by destruct (last (drop n text)).
Qed.

Lemma whole_newline x text : whole (x :: text) -> exists n, find_char 10 (x :: text) = Some n.
Proof.
  unfold whole. intros H. destruct (find_char 10 (x :: text)) as [n|] eqn:E; [by eexists|].
  pose proof (find_char_none_inv _ _ E) as F. rewrite List.Forall_forall in F.
  destruct (last (x :: text)) as [c|] eqn:L; [|by apply last_None in L].
  cbn in H. subst c. apply last_Some_elem_of, list_elem_of_In in L. by destruct (F 10 L).
Qed.

Lemma begin_line_state default active first text t t' :
  accepts t = [] -> at_line_start t = true -> begin_line log_timestamp default active first text t = (true, t') ->
  accepts t' = [] /\ ticks t' = S (ticks t).
Proof.
  intros Ha Hs E. destruct (begin_line_grows log_timestamp default active first text t Ha) as (u & E' & G & _ & T).
  rewrite E in E'. injection E' as <-. rewrite Hs in T. split; [apply G|exact T].
Qed.

Lemma write_whole default active fuel : forall first text t t',
  (length text <= fuel)%nat -> accepts t = [] -> at_line_start t = true -> whole text ->
  write_from log_timestamp default active fuel first text t = (true, t') ->
  at_line_start t' = true /\ ticks t' = (ticks t + length (pieces text))%nat.
Proof.
  induction fuel as [|fuel IH]; intros first [|x text] t t' Hf Ha Hs Hw E; try (simpl in Hf; lia).
  1, 2: injection E as <-; split; [done|]; unfold pieces; cbn; lia.
  cbn [write_from] in E.
  destruct (begin_line_grows log_timestamp default active first (x :: text) t Ha) as (t1 & E1 & G & S1 & T1).
  rewrite E1 in E. cbn [negb] in E. rewrite Hs in T1. destruct (whole_newline x text Hw) as [n En].
  pose proof (pieces_cons x text) as P. rewrite En in E, P. cbv zeta in E, P. destruct P as (-> & P2 & P3 & _).
  destruct (put_piece_grows (take (S n) (x :: text)) (byte_at (x :: text) (S n - 1) =? 10) t1) as (t2 & t3 & C1 & C2 & G2 & T3); [apply G|].
  rewrite C1 in E. cbn [negb] in E. rewrite C2 in E. cbn [negb] in E.
  apply IH in E; [|rewrite length_drop; simpl in *; lia|apply G2| |by apply whole_drop].
  - destruct E as [-> E]. split; [done|]. cbn in E |- *. rewrite T3 in E. lia.
  - cbn [at_line_start set_line_start]. rewrite P3. apply bool_decide_eq_true_2. congruence.
Qed.

Definition ready (l : Streams) : Prop := cout_start l = true /\ cerr_start l = true /\ log_tail l = tail_of (log_tail l).

(** The two default levels are never used while a level is in force. *)
Lemma line_prefix_active d first level text : line_prefix d (Some level) first text = line_prefix info (Some level) first text.
Proof. done. Qed.

Lemma prefixed_active d level first start ps : prefixed d (Some level) first start ps = prefixed info (Some level) first start ps.
Proof. revert first start. induction ps as [|p ps IH]; intros first start; [done|]. cbn. by rewrite IH. Qed.

Lemma tail_of_idem r : tail_of (tail_of r) = tail_of r.
Proof. apply (append_tail [] r) || (unfold tail_of; rewrite length_drop, drop_drop; f_equal; lia). Qed.

Lemma append_tail_of a b : tail_of (tail_of a ++ b) = tail_of (a ++ b).
Proof.
  rewrite <- (append_tail b a). unfold append. destruct (Nat.ltb_spec kMaximumBytes (length (tail_of a ++ b))) as [H|H]; [done|].
  change (drop (length (tail_of a ++ b) - kMaximumBytes) (tail_of a ++ b) = tail_of a ++ b).
  by replace (length (tail_of a ++ b) - kMaximumBytes)%nat with O by lia.
Qed.

Lemma write_stream_whole s level text l :
  ready l -> whole text ->
  let l' := write_stream s (Some level) text l in
  ready l' /\ stamps l' = (stamps l + length (pieces text))%nat /\
  log_file l' = option_map (fun f => f ++ kept_lines (stamps l) level text) (log_file l) /\
  log_tail l' = tail_of (log_tail l ++ kept_lines (stamps l) level text) /\
  let shown := on_console (prefixed info (Some level) true true (pieces text)) in
  cout_text l' = cout_text l ++ (if s is Cout then shown else []) /\
  cerr_text l' = cerr_text l ++ (if s is Cerr then shown else []).
Proof.
  intros (S1 & S2 & R) W. cbv zeta. unfold write_stream, xsputn, write_locked, kept_lines.
  assert (A : accepts (tee_of s l) = []) by by destruct s.
  assert (B : at_line_start (tee_of s l) = true) by by destruct s.
  destruct (write_from_lines log_timestamp (default_level s) (Some level) (length text) true text (tee_of s l) (le_n _) A)
    as (t' & E & C & F & K & _).
  pose proof (write_whole _ _ _ _ _ _ _ (le_n _) A B W E) as [T N]. rewrite E. cbn [snd].
  rewrite B in C, F, K. rewrite prefixed_active in C, F, K.
  destruct s; cbn in *; specialize (K _ R); split_and!; try done; try (by rewrite app_nil_r);
    (unfold ready; cbn [cout_start cerr_start log_tail]; split_and!; [done..|]; by rewrite K, tail_of_idem).
Qed.
Lemma log_line_whole variable level message err text :
  log_line variable level message = Some (err, text) -> whole message -> whole text.
Proof.
  unfold log_line, whole. destruct message as [|b message]; [by rewrite orb_true_r|].
  destruct (negb _ || _); [done|]. intros E W. assert (text = log_prefix level 62 ++ b :: message) as -> by congruence.
  rewrite last_app. destruct (last (b :: message)) eqn:L; [done|by apply last_None in L].
Qed.

Lemma shown_one err err' level text :
  shown err [(err', level, text)] = if decide (err' = err) then on_console (prefixed info (Some level) true true (pieces text)) else [].
Proof. unfold shown. rewrite filter_cons. cbn. case_decide; cbn; by rewrite ?app_nil_r. Qed.

Lemma log_to_whole variable level message l :
  ready l -> whole message ->
  let lines := written variable [(level, message)] in
  let l' := log_to variable level message l in
  ready l' /\ log_file l' = option_map (fun f => f ++ kept (stamps l) lines) (log_file l) /\
  log_tail l' = tail_of (log_tail l ++ kept (stamps l) lines) /\
  cout_text l' = cout_text l ++ shown false lines /\ cerr_text l' = cerr_text l ++ shown true lines /\
  forall more, kept (stamps l) (lines ++ more) = kept (stamps l) lines ++ kept (stamps l') more.
Proof.
  intros R W. cbv zeta. unfold log_to, written. cbn [omap list_omap].
  destruct (log_line variable level message) as [[err text]|] eqn:E; cbn [fmap option_fmap option_map fst snd app].
  - pose proof (log_line_whole _ _ _ _ _ E W) as Wt.
    destruct (write_stream_whole (if err then Cerr else Cout) level text l R Wt) as (R' & S' & F & T & C1 & C2).
    rewrite F, T, S'. cbn [kept]. rewrite app_nil_r. split_and!; try done.
    + rewrite C1, (shown_one false). by destruct err.
    + rewrite C2, (shown_one true). by destruct err.
  - cbn. rewrite !app_nil_r. split_and!; try done; [by destruct (log_file l); cbn; rewrite ?app_nil_r|apply R].
Qed.

(** The log is the lines of the program, whole and in their order. Whatever is logged
    at whatever levels, as long as every message ends its line: the file has the lines
    of all messages that are enabled, in the order in which they were logged to either
    stream, each with its own stamp and level and none broken by another; the page's
    tail is the end of just that; and each of the two streams has its own lines, those
    of warnings and errors on the second. *)
Theorem log_is_whole variable messages : forall l,
  ready l -> Forall (fun m => whole m.2) messages ->
  let lines := written variable messages in
  let l' := fold_left (fun l '(level, message) => log_to variable level message l) messages l in
  log_file l' = option_map (fun f => f ++ kept (stamps l) lines) (log_file l) /\
  log_tail l' = tail_of (log_tail l ++ kept (stamps l) lines) /\
  cout_text l' = cout_text l ++ shown false lines /\ cerr_text l' = cerr_text l ++ shown true lines.
Proof.
  induction messages as [|[level message] messages IH]; intros l R W.
  - cbn. rewrite !app_nil_r. split_and!; try done; [by destruct (log_file l); cbn; rewrite ?app_nil_r|apply R].
  - inversion W as [|? ? W1 W2]; subst. cbn [snd] in W1. cbv zeta. cbn [fold_left].
    destruct (log_to_whole variable level message l R W1) as (R' & F & T & C1 & C2 & K).
    destruct (IH _ R' W2) as (F' & T' & C1' & C2'). rewrite F', T', C1', C2', F, T, C1, C2.
    assert (Ew : written variable ((level, message) :: messages) = written variable [(level, message)] ++ written variable messages)
      by (unfold written; cbn [omap list_omap]; by case_match).
    assert (Es : forall err a b, shown err (a ++ b) = shown err a ++ shown err b)
      by (intros; unfold shown; by rewrite filter_app, map_app, concat_app).
    rewrite Ew, K, !Es, !app_assoc. split_and!; try done.
    + by destruct (log_file l); cbn; rewrite ?app_assoc.
    + by rewrite append_tail_of.
Qed.
End Lines.

Definition demo_stamp (n : nat) : Bytes := log_timestamp (mkLocalTime 2026 3 9 8 5 (Z.of_nat n)) 42.

Definition demo_messages : list (LogLevel * Bytes) :=
  [(info, bs "a" ++ [10]); (debug, bs "hidden" ++ [10]); (warning, bs "b" ++ [10] ++ bs "c" ++ [10]); (info, [])].

Lemma log_is_whole_witness :
  let l := new_streams (Some (bs "/log")) true [] [] [] [] in
  let l' := fold_left (fun l '(level, message) => log_to demo_stamp None level message l) demo_messages l in
  log_file l' = Some (bs "2026-03-09 08:05:00.042 [info   ] > a" ++ [10]
    ++ bs "2026-03-09 08:05:01.042 [warning] > b" ++ [10] ++ bs "2026-03-09 08:05:02.042 [warning] | c" ++ [10]).
Proof.
  intros l. cbv zeta.
  assert (R : ready l) by (split_and!; [done|done|by vm_compute]).
  assert (W : Forall (fun m => whole m.2) demo_messages) by (repeat constructor; by vm_compute).
  rewrite (proj1 (log_is_whole demo_stamp None demo_messages l R W)). by vm_compute.
Defined.

(** Each buffer knows only whether its own stream is at the start of a line: the file
    gets the lines of the other stream in the middle of one that is not finished. *)
Example unfinished_lines_mix :
  log_file (write_stream demo_stamp Cerr None (bs "b" ++ [10])
    (write_stream demo_stamp Cout None (bs "a") (new_streams (Some (bs "/log")) true [] [] [] []))) =
  Some (bs "2026-03-09 08:05:00.042 [info   ] > a2026-03-09 08:05:01.042 [error  ] > b" ++ [10]).
Proof. by vm_compute. Qed.
