(* ===== verification/CarplayIpc.v ===== *)
(** * The frame sockets between the daemon and the CarPlay worker

    src/include/aa2acp/bridge/carplay_ipc.hpp and src/src/bridge/carplay_ipc.cpp:
    the partial-transfer loops, the length-prefixed frames, the receiver's loop
    over one client and the writer with its bounded queue, whose producer and
    writing thread are interleaved by a step relation. *)

From S2P Require Import Prelude.
#[local] Open Scope Z_scope.

(* src/src/bridge/carplay_ipc.cpp:20-22 kMaximumFrameSize *)
Definition kMaximumFrameSize : Z := 4 * 1024 * 1024.
Definition kMaximumQueuedFrames : Z := 256.
Definition kMaximumQueuedBytes : Z := 16 * 1024 * 1024.

(** ** Partial transfers *)

(** What one turn of the loops of [send_all] and [receive_all] meets: a stop
    request or the deadline at the top of the loop, the outcomes of [poll], and
    those of [send] or [recv], which transfer at most [n] octets. *)
Inductive Turn :=
| StopRequested
| DeadlinePassed
| PollInterrupted
| PollFailed
| PollTimeout
| Unusable           (* an error flag of [revents], or no [POLLIN] *)
| Transfer (n : nat)
| TryAgain           (* EINTR, EAGAIN or EWOULDBLOCK *)
| TransferFailed.

(** The octets the socket took and whether they were all of them. A script of
    turns that runs out ends the loop as a stop request does. *)
(* src/src/bridge/carplay_ipc.cpp:24-60 send_all *)
Fixpoint send_all (turns : list Turn) (bytes : Bytes) : bool * Bytes * list Turn :=
  match bytes, turns with
  | [], _ => (true, [], turns)
  | _, [] => (false, [], [])
  | _, turn :: turns =>
      match turn with
      | StopRequested | DeadlinePassed | PollFailed | Unusable | TransferFailed => (false, [], turns)
      | PollInterrupted | PollTimeout | TryAgain => send_all turns bytes
      | Transfer n =>
          match Nat.min n (length bytes) with
          | O => (false, [], turns)
          | S k =>
              let '(ok, sent, turns) := send_all turns (drop (S k) bytes) in
              (ok, take (S k) bytes ++ sent, turns)
          end
      end
  end.

(** [stream]: what the peer has sent and not been read; [recv] at its end is the
    end of file. *)
(* src/src/bridge/carplay_ipc.cpp:62-102 receive_all *)
Fixpoint receive_all (turns : list Turn) (size : nat) (stream : Bytes)
    : option Bytes * Bytes * list Turn :=
  match size, turns with
  | O, _ => (Some [], stream, turns)
  | _, [] => (None, stream, [])
  | S _, turn :: turns =>
      match turn with
      | StopRequested | DeadlinePassed | PollFailed | Unusable | TransferFailed => (None, stream, turns)
      | PollInterrupted | PollTimeout | TryAgain => receive_all turns size stream
      | Transfer n =>
          match Nat.min n (Nat.min size (length stream)) with
          | O => (None, stream, turns)
          | S k =>
              match receive_all turns (size - S k) (drop (S k) stream) with
              | (Some rest, stream', turns) => (Some (take (S k) stream ++ rest), stream', turns)
              | r => r
              end
          end
      end
  end.

(** ** Frames *)

(* src/src/bridge/carplay_ipc.cpp:305-309 FrameSocketWriter::write *)
Definition frame_header (frame : Bytes) : Bytes :=
  let size := size_of frame in
  [u8 (Z.shiftr size 24); u8 (Z.shiftr size 16); u8 (Z.shiftr size 8); u8 size].

(* src/src/bridge/carplay_ipc.cpp:209-211 FrameSocketReceiver::receive *)
Definition header_size (header : Bytes) : Z :=
  Z.lor (Z.lor (Z.lor (Z.shiftl (byte_at header 0) 24) (Z.shiftl (byte_at header 1) 16))
               (Z.shiftl (byte_at header 2) 8)) (byte_at header 3).

(** The frames the callback gets from one client. Every turn of the loop reads
    four octets, so [fuel] bounds the frames by the octets of the stream. *)
(* src/src/bridge/carplay_ipc.cpp:205-222 FrameSocketReceiver::receive *)
Fixpoint receive_client (fuel : nat) (turns : list Turn) (stream : Bytes) : list Bytes :=
  match fuel with
  | O => []
  | S fuel =>
      match receive_all turns 4 stream with
      | (Some header, stream, turns) =>
          let size := header_size header in
          if (size =? 0) || (kMaximumFrameSize <? size) then []
          else
            match receive_all turns (Z.to_nat size) stream with
            | (Some frame, stream, turns) => frame :: receive_client fuel turns stream
            | (None, _, _) => []
            end
      | (None, _, _) => []
      end
  end.

Definition receive (turns : list Turn) (stream : Bytes) : list Bytes :=
  receive_client (S (length stream)) turns stream.

(** What the writer puts on a connection for a frame. *)
Definition wire (frame : Bytes) : Bytes := frame_header frame ++ frame.

(** ** The writer *)

(* src/include/aa2acp/bridge/carplay_ipc.hpp:60-70 FrameSocketWriter *)
Record FrameSocketWriter := mkWriter {
  frames : list Bytes;
  queued_bytes : Z
}.

(* src/src/bridge/carplay_ipc.cpp:245-259 FrameSocketWriter::send *)
Definition send (frame : Bytes) (w : FrameSocketWriter) : bool * FrameSocketWriter :=
  if (size_of frame =? 0) || (kMaximumFrameSize <? size_of frame) || (kMaximumQueuedBytes <? size_of frame)
  then (false, w)
  else if (kMaximumQueuedFrames <=? size_of (frames w))
          || (kMaximumQueuedBytes <? queued_bytes w + size_of frame)
  then (false, w)
  else (true, mkWriter (frames w ++ [frame]) (queued_bytes w + size_of frame)).

(* src/src/bridge/carplay_ipc.cpp:264-276 FrameSocketWriter::write *)
Definition take_front (w : FrameSocketWriter) : option (Bytes * FrameSocketWriter) :=
  match frames w with
  | [] => None
  | frame :: rest => Some (frame, mkWriter rest (queued_bytes w - size_of frame))
  end.

(* src/src/bridge/carplay_ipc.cpp:277-290 FrameSocketWriter::write *)
Definition requeue (stop : bool) (frame : Bytes) (w : FrameSocketWriter) : FrameSocketWriter :=
  if stop then w
  else if (size_of (frames w) <? kMaximumQueuedFrames)
          && (queued_bytes w + size_of frame <=? kMaximumQueuedBytes)
  then mkWriter (frame :: frames w) (queued_bytes w + size_of frame)
  else w.

(** Sending one frame on a connection: whether both parts went, and the octets
    the connection took. *)
(* src/src/bridge/carplay_ipc.cpp:305-311 FrameSocketWriter::write *)
Definition write_frame (turns : list Turn) (frame : Bytes) : bool * Bytes :=
  let '(ok, header, turns) := send_all turns (frame_header frame) in
  if ok then let '(ok, body, _) := send_all turns frame in (ok, header ++ body) else (false, header).

(** The producer and the writing thread. [inflight] is the frame the thread has
    taken; [connection] what the open connection took, [None] when there is
    none; [closed] the streams of the connections that failed; [accepted] every
    frame [send] returned true for, and [written] those written in full. *)
Record State := mkState {
  writer : FrameSocketWriter;
  inflight : option Bytes;
  connection : option Bytes;
  closed : list Bytes;
  accepted : list Bytes;
  written : list Bytes
}.

Definition initial : State := mkState (mkWriter [] 0) None None [] [] [].

(* src/src/bridge/carplay_ipc.cpp:261-320 FrameSocketWriter::write *)
Inductive step : State -> State -> Prop :=
| step_send frame w i c cl acc wr w' :
    send frame w = (true, w') ->
    step (mkState w i c cl acc wr) (mkState w' i c cl (acc ++ [frame]) wr)
| step_refused frame w i c cl acc wr w' :
    send frame w = (false, w') ->
    step (mkState w i c cl acc wr) (mkState w' i c cl acc wr)
| step_take frame w c cl acc wr w' :
    take_front w = Some (frame, w') ->
    step (mkState w None c cl acc wr) (mkState w' (Some frame) c cl acc wr)
| step_connect frame w cl acc wr :
    step (mkState w (Some frame) None cl acc wr) (mkState w (Some frame) (Some []) cl acc wr)
| step_cannot_connect stop frame w cl acc wr :
    step (mkState w (Some frame) None cl acc wr) (mkState (requeue stop frame w) None None cl acc wr)
| step_write turns frame w bytes sent cl acc wr :
    write_frame turns frame = (true, sent) ->
    step (mkState w (Some frame) (Some bytes) cl acc wr)
         (mkState w None (Some (bytes ++ sent)) cl acc (wr ++ [frame]))
| step_write_fails turns stop frame w bytes sent cl acc wr :
    write_frame turns frame = (false, sent) ->
    step (mkState w (Some frame) (Some bytes) cl acc wr)
         (mkState (requeue stop frame w) None None (cl ++ [bytes ++ sent]) acc wr).

Inductive reachable : State -> Prop :=
| reach_initial : reachable initial
| reach_step s s' : reachable s -> step s s' -> reachable s'.

(** ** Lemmas: transfers *)

Lemma send_all_prefix turns bytes ok sent rest :
  send_all turns bytes = (ok, sent, rest) ->
  exists missing, bytes = sent ++ missing /\ (ok = true <-> missing = []).
Proof.
  revert bytes ok sent rest; induction turns as [|t turns IH]; intros [|x bytes] ok sent rest; cbn [send_all].
  - intros [= <- <- <-]. by exists [].
  - intros [= <- <- <-]. by exists (x :: bytes).
  - intros [= <- <- <-]. by exists [].
  - destruct t; try (intros [= <- <- <-]; by exists (x :: bytes)); try apply IH.
    destruct (Nat.min n (length (x :: bytes))) as [|k]; [intros [= <- <- <-]; by exists (x :: bytes)|].
    destruct (send_all turns (drop (S k) (x :: bytes))) as [[ok' sent'] rest'] eqn:E.
    intros [= <- <- <-]. destruct (IH _ _ _ _ E) as (m & Hm & Hok). exists m. split; [|done].
    cbn [take drop app] in *. by rewrite <- app_assoc, <- Hm, take_drop.
Qed.

Lemma write_frame_prefix turns frame ok sent :
  write_frame turns frame = (ok, sent) ->
  exists missing, wire frame = sent ++ missing /\ (ok = true <-> missing = []).
Proof.
  unfold write_frame, wire. destruct (send_all turns (frame_header frame)) as [[ok1 s1] r1] eqn:E1.
  destruct (send_all_prefix _ _ _ _ _ E1) as (m1 & Hm1 & Hok1). destruct ok1.
  - destruct (send_all r1 frame) as [[ok2 s2] r2] eqn:E2. intros [= <- <-].
    destruct (send_all_prefix _ _ _ _ _ E2) as (m2 & Hm2 & Hok2).
    rewrite (proj1 Hok1 eq_refl), app_nil_r in Hm1. exists m2. split; [|done].
    by rewrite Hm1, <- app_assoc, <- Hm2.
  - intros [= <- <-]. exists (m1 ++ frame). split; [by rewrite Hm1, app_assoc|].
    split; [done|]. intros [-> _]%app_eq_nil. by apply Hok1.
Qed.

Lemma receive_all_exact turns size stream bytes rest turns' :
  receive_all turns size stream = (Some bytes, rest, turns') ->
  stream = bytes ++ rest /\ length bytes = size.
Proof.
  revert size stream bytes rest turns'; induction turns as [|t turns IH];
    intros [|size] stream bytes rest turns'; cbn [receive_all]; try done.
  - by intros [= <- <- <-].
  - by intros [= <- <- <-].
  - destruct t; try done; try apply IH.
    destruct (Nat.min n (Nat.min (S size) (length stream))) as [|k] eqn:Ek; [done|].
    destruct (receive_all turns (S size - S k) (drop (S k) stream)) as [[[r|] s] ts] eqn:E; [|done].
    intros [= <- <- <-]. destruct (IH _ _ _ _ _ E) as [Hs Hl]. split.
    + by rewrite <- app_assoc, <- Hs, take_drop.
    + rewrite length_app, length_take, Hl. lia.
Qed.

(** A script of transfers, all of at least one octet, long enough for [size]. *)
Lemma receive_all_succeeds turns bytes rest :
  Forall (fun t => exists n, t = Transfer (S n)) turns -> (length bytes <= length turns)%nat ->
  exists turns', receive_all turns (length bytes) (bytes ++ rest) = (Some bytes, rest, turns') /\
  Forall (fun t => exists n, t = Transfer (S n)) turns' /\
  (length turns - length bytes <= length turns')%nat.
Proof.
  intros Ht. revert bytes. induction Ht as [|t turns [n ->] Ht IH]; intros [|x bytes] Hl; try (simpl in Hl; lia).
  - by exists [].
  - exists (Transfer (S n) :: turns). split_and!; [done|constructor; eauto|simpl; lia].
  - cbn [receive_all length].
    destruct (Nat.min (S n) (Nat.min (S (length bytes)) (length ((x :: bytes) ++ rest)))) as [|k] eqn:Ek;
      [simpl in Ek; lia|].
    assert (k <= length bytes)%nat as Hk by lia.
    destruct (IH (drop k bytes)) as (turns' & Hr & Hf & Hlen).
    { rewrite length_drop. simpl in Hl. lia. }
    exists turns'. rewrite length_drop in *. split_and!; [|done|simpl in *; lia].
    replace (S (length bytes) - S k)%nat with (length bytes - k)%nat by lia.
    cbn [app drop take]. rewrite drop_app_le, Hr, take_app_le by lia.
    by rewrite take_drop.
Qed.

Lemma header_size_frame frame rest :
  0 <= size_of frame < 2 ^ 32 -> header_size (frame_header frame ++ rest) = size_of frame.
Proof.
  intros H. change (frame_header frame) with (be_bytes 4 (size_of frame)).
  transitivity (be_value (be_bytes 4 (size_of frame))); [|by apply be_value_bytes_id].
  unfold header_size, be_value, byte_at. cbn [be_bytes app nth fold_left].
  rewrite Z.shiftl_0_l, Z.lor_0_l. rewrite !Z.shiftl_lor, !Z.shiftl_shiftl by lia. done.
Qed.

Definition frame_ok (frame : Bytes) : Prop := 0 < size_of frame <= kMaximumFrameSize.

Lemma frame_bounds frame : frame_ok frame -> 0 < size_of frame < 2 ^ 32.
Proof. unfold frame_ok, kMaximumFrameSize. lia. Qed.

(** A stream cut anywhere is received as a prefix of its frames. *)
Lemma receive_client_prefix fuel turns fs stream missing :
  Forall frame_ok fs -> concat (map wire fs) = stream ++ missing ->
  exists rest, fs = receive_client fuel turns stream ++ rest.
Proof.
  intros Hf. revert fuel turns stream. induction Hf as [|f fs Hok Hf IH]; intros [|fuel] turns stream Hs;
    try (by eexists).
  - cbn [map concat] in Hs. symmetry in Hs. apply app_eq_nil in Hs as [-> ->]. exists [].
    cbn [receive_client]. destruct (receive_all turns 4 []) as [[[h|] s] ts] eqn:E; [|done].
    apply receive_all_exact in E as [Hnil Hlen]. by destruct h.
  - cbn [receive_client]. destruct (receive_all turns 4 stream) as [[[h|] s] ts] eqn:E; [|by eexists].
    apply receive_all_exact in E as [-> Hlen]. cbn [map concat] in Hs. unfold wire in Hs.
    rewrite <- !app_assoc in Hs.
    apply app_inj_1 in Hs as [<- Hs]; [|done].
    pose proof (frame_bounds _ Hok) as Hb.
    rewrite <- (app_nil_r (frame_header f)), header_size_frame by lia.
    destruct Hok as [H0 H1].
    rewrite (proj2 (Z.eqb_neq _ 0)), (proj2 (Z.ltb_ge _ _)) by lia. cbn [orb].
    destruct (receive_all ts _ s) as [[[g|] s2] ts2] eqn:E2; [|by eexists].
    apply receive_all_exact in E2 as [-> Hlen2]. rewrite <- app_assoc in Hs.
    apply app_inj_1 in Hs as [<- Hs]; [|unfold size_of in Hlen2; lia].
    destruct (IH fuel ts2 s2 Hs) as [rest Hrest]. exists rest. cbn [app]. by rewrite <- Hrest.
Qed.

Lemma receive_client_all fs fuel turns :
  Forall frame_ok fs -> (length fs < fuel)%nat ->
  Forall (fun t => exists n, t = Transfer (S n)) turns ->
  (length (concat (map wire fs)) <= length turns)%nat ->
  receive_client fuel turns (concat (map wire fs)) = fs.
Proof.
  intros Hf. revert fuel turns. induction Hf as [|f fs Hok Hf IH]; intros [|fuel] turns Hfuel Ht Hlen;
    try (simpl in Hfuel; lia).
  - cbn [receive_client map concat]. destruct (receive_all turns 4 []) as [[[h|] s] ts] eqn:E; [|done].
    apply receive_all_exact in E as [Hnil Hl]. by destruct h.
  - pose proof (frame_bounds _ Hok) as Hb.
    cbn [receive_client map concat] in *. unfold wire in *. rewrite <- !app_assoc in *.
    rewrite !length_app in Hlen.
    destruct (receive_all_succeeds turns (frame_header f) (f ++ concat (map (fun g => frame_header g ++ g) fs)) Ht)
      as (ts & Hr & Hts & Hl); [simpl in *; lia|].
    change (length (frame_header f)) with 4%nat in *. rewrite Hr.
    rewrite <- (app_nil_r (frame_header f)), header_size_frame by lia.
    destruct Hok as [H0 H1].
    rewrite (proj2 (Z.eqb_neq _ 0)), (proj2 (Z.ltb_ge _ _)) by lia. cbn [orb].
    unfold size_of. rewrite Nat2Z.id.
    destruct (receive_all_succeeds ts f (concat (map (fun g => frame_header g ++ g) fs)) Hts)
      as (ts2 & Hr2 & Hts2 & Hl2); [lia|].
    rewrite Hr2. f_equal. apply IH; [simpl in Hfuel; lia|done|lia].
Qed.

(** ** Lemmas: the writer *)

Definition total (fs : list Bytes) : Z := fold_right (fun f acc => size_of f + acc) 0 fs.

Lemma total_app a b : total (a ++ b) = total a + total b.
Proof. induction a as [|x a IH]; simpl; [done|]. rewrite IH. lia. Qed.

Definition writer_ok (w : FrameSocketWriter) : Prop :=
  queued_bytes w = total (frames w) /\ size_of (frames w) <= kMaximumQueuedFrames /\
  queued_bytes w <= kMaximumQueuedBytes /\ Forall frame_ok (frames w).

Lemma send_ok frame w b w' :
  writer_ok w -> send frame w = (b, w') ->
  writer_ok w' /\ frames w' = (if b then frames w ++ [frame] else frames w) /\ (b = true -> frame_ok frame).
Proof.
  intros (H1 & H2 & H3 & H4). unfold send. pose proof (size_nonneg frame).
  if_case E1; [intros [= <- <-]; by split|].
  if_case E2; intros [= <- <-]; [by split|].
  assert (frame_ok frame) by (unfold frame_ok; lia).
  split_and!; [|done|done]. unfold writer_ok. simpl. split_and!.
  - rewrite total_app, H1. simpl. lia.
  - rewrite size_app. unfold size_of at 2. simpl. lia.
  - lia.
  - apply Forall_app. split; [done|]. by constructor.
Qed.

Lemma take_front_ok w frame w' :
  writer_ok w -> take_front w = Some (frame, w') ->
  writer_ok w' /\ frames w = frame :: frames w' /\ frame_ok frame.
Proof.
  destruct w as [fs q]. intros (H1 & H2 & H3 & H4). unfold take_front. simpl in *.
  destruct fs as [|f fs]; [done|]. intros [= <- <-]. apply Forall_cons in H4 as [H4 H5].
  rewrite size_cons in H2. simpl in H1. destruct H4. split_and!; try done.
  unfold writer_ok. simpl. split_and!; try done; try lia.
Qed.

Lemma requeue_ok stop frame w :
  writer_ok w -> frame_ok frame ->
  writer_ok (requeue stop frame w) /\
  (frames (requeue stop frame w) = frame :: frames w \/ frames (requeue stop frame w) = frames w).
Proof.
  intros (H1 & H2 & H3 & H4) Hf. unfold requeue.
  destruct stop; [by split; [|right]|]. destruct (_ && _) eqn:E; [|by split; [|right]]. bool_hyps.
  split; [|by left]. unfold writer_ok. simpl. rewrite size_cons. split_and!; try lia. by constructor.
Qed.

Definition pending (s : State) : list Bytes :=
  written s ++ option_list (inflight s) ++ frames (writer s).

(** What a connection that failed took: whole frames, then part of one more. *)
Definition torn (stream : Bytes) (fs : list Bytes) : Prop :=
  exists frame partial missing, stream = concat (map wire fs) ++ partial /\
  wire frame = partial ++ missing /\ missing <> [] /\ frame_ok frame /\ Forall frame_ok fs.

(** What was written or waits is a subsequence, in order, of what was accepted,
    and the streams of the connections carry what was written. *)
Definition state_ok (s : State) : Prop :=
  writer_ok (writer s) /\ pending s `sublist_of` accepted s /\ Forall frame_ok (accepted s) /\
  exists fss current,
    Forall2 torn (closed s) fss /\ written s = concat fss ++ current /\
    match connection s with
    | None => current = []
    | Some bytes => bytes = concat (map wire current)
    end.

Lemma pending_ok s : state_ok s -> Forall frame_ok (pending s).
Proof. 
  intros (_ & Hsub & Hok & _). rewrite Forall_forall in *. intros f Hf.
  apply Hok. by eapply elem_of_sublist.
Qed.

(** Requeueing the frame in flight keeps the order. *)
Lemma requeue_pending stop frame w wr acc :
  writer_ok w -> frame_ok frame -> wr ++ [frame] ++ frames w `sublist_of` acc ->
  wr ++ frames (requeue stop frame w) `sublist_of` acc.
Proof.
  intros Hw Hf Hs. destruct (requeue_ok stop frame w Hw Hf) as [_ [->| ->]]; [done|].
  etrans; [|exact Hs]. apply sublist_app; [done|]. simpl. by apply sublist_cons.
Qed.

Lemma step_ok s s' : state_ok s -> step s s' -> state_ok s'.
Proof.
  intros Hs H. pose proof (pending_ok _ Hs) as Hp. destruct Hs as (Hw & Hsub & Hacc & fss & cur & Ht & Hwr & Hc).
  destruct H; unfold pending in Hsub, Hp; cbn [writer inflight connection closed accepted written option_list] in *.
  - destruct (send_ok _ _ _ _ Hw H) as (Hw' & Hfr & Hf). split_and!; [done| |apply Forall_app; auto|by eauto].
    unfold pending. simpl. rewrite Hfr, !app_assoc. apply sublist_app; [|done].
    by rewrite <- app_assoc.
  - destruct (send_ok _ _ _ _ Hw H) as (Hw' & Hfr & _). split_and!; [done| |done|by eauto].
    unfold pending. simpl. by rewrite Hfr.
  - destruct (take_front_ok _ _ _ Hw H) as (Hw' & Hfr & Hf). split_and!; [done| |done|by eauto].
    unfold pending. simpl. by rewrite Hfr in Hsub.
  - split_and!; [done|done|done|]. exists fss, []. subst cur. by split_and!.
  - apply Forall_app in Hp as [_ [Hf _]%Forall_cons].
    split_and!; [by apply requeue_ok|by apply requeue_pending|done|by eauto].
  - split_and!; [done| |done|].
    + unfold pending. simpl. by rewrite <- app_assoc.
    + exists fss, (cur ++ [frame]). apply write_frame_prefix in H as (m & Hm & Hok).
      rewrite (proj1 Hok eq_refl), app_nil_r in Hm. split_and!; [done|by rewrite Hwr, app_assoc|].
      by rewrite Hc, map_app, concat_app, <- Hm; simpl; rewrite app_nil_r.
  - apply Forall_app in Hp as [Hfs [Hf _]%Forall_cons].
    split_and!; [by apply requeue_ok|by apply requeue_pending|done|].
    exists (fss ++ [cur]), []. apply write_frame_prefix in H as (m & Hm & Hok). split_and!; [|by rewrite concat_app, app_nil_r; simpl; rewrite app_nil_r|done].
    apply Forall2_app; [done|]. constructor; [|constructor]. exists frame, sent, m.
    split_and!; try done; [by rewrite Hc| |].
    + intros ->. discriminate (proj2 Hok eq_refl).
    + rewrite Hwr in Hfs. by apply Forall_app in Hfs as [_ ?].
Qed.

Lemma reachable_ok s : reachable s -> state_ok s.
Proof.
  induction 1 as [|s s' _ IH Hstep]; [|by eapply step_ok].
  split_and!; try done. by exists [], [].
Qed.

Lemma receive_client_size fuel turns stream :
  (length (concat (map wire (receive_client fuel turns stream))) <= length stream)%nat.
Proof.
  revert turns stream. induction fuel as [|fuel IH]; intros turns stream; [simpl; lia|]. cbn [receive_client].
  destruct (receive_all turns 4 stream) as [[[h|] s] ts] eqn:E; [|simpl; lia].
  destruct (_ || _); [simpl; lia|].
  destruct (receive_all ts _ s) as [[[g|] s2] ts2] eqn:E2; [|simpl; lia].
  apply receive_all_exact in E as [-> Hl], E2 as [-> Hl2]. specialize (IH ts2 s2).
  cbn [map concat]. unfold wire at 1. rewrite !length_app in *. simpl. lia.
Qed.

(** The torn frame at the end of a stream is never delivered. *)
Lemma receive_torn turns stream fs : torn stream fs -> receive turns stream `sublist_of` fs.
Proof.
  intros (frame & partial & missing & -> & Hw & Hm & Hf & Hfs). unfold receive.
  set (stream := concat (map wire fs) ++ partial).
  destruct (receive_client_prefix (S (length stream)) turns (fs ++ [frame]) stream missing) as [rest Hr].
  - apply Forall_app. auto.
  - unfold stream. rewrite map_app, concat_app, <- app_assoc, <- Hw. simpl. by rewrite app_nil_r.
  - pose proof (receive_client_size (S (length stream)) turns stream) as Hlen.
    set (r := receive_client _ _ _) in *. destruct rest as [|x rest _] using rev_ind.
    + rewrite app_nil_r in Hr. rewrite <- Hr in Hlen. unfold stream in Hlen.
      rewrite map_app, concat_app in Hlen. cbn [map concat] in Hlen.
      rewrite app_nil_r, Hw, !length_app in Hlen.
      destruct missing; [done|]. simpl in Hlen. lia.
    + rewrite app_assoc in Hr. apply app_inj_tail in Hr as [Hfr _].
      rewrite Hfr. by apply sublist_inserts_r.
Qed.

Lemma receive_whole turns fs :
  Forall frame_ok fs -> receive turns (concat (map wire fs)) `sublist_of` fs.
Proof.
  intros Hf. unfold receive. set (n := S _).
  destruct (receive_client_prefix n turns fs (concat (map wire fs)) []) as [rest Hr];
    [done|by rewrite app_nil_r|].
  set (r := receive_client _ _ _) in *. rewrite Hr. by apply sublist_inserts_r.
Qed.

Definition streams (s : State) : list Bytes := closed s ++ option_list (connection s).

(** The frames the daemon's callback gets from all the connections, each read
    with its own script of turns. *)
Fixpoint received (turns : nat -> list Turn) (i : nat) (ss : list Bytes) : list Bytes :=
  match ss with
  | [] => []
  | stream :: ss => receive (turns i) stream ++ received turns (S i) ss
  end.

Lemma received_app turns i a b :
  received turns i (a ++ b) = received turns i a ++ received turns (i + length a) b.
Proof.
  revert i; induction a as [|x a IH]; intros i; simpl; [by rewrite Nat.add_0_r|].
  by rewrite IH, Nat.add_succ_r, <- app_assoc.
Qed.

Lemma received_torn turns i ss fss : Forall2 torn ss fss -> received turns i ss `sublist_of` concat fss.
Proof.
  intros H. revert i. induction H as [|s fs ss fss Ht H IH]; intros i; simpl; [done|].
  apply sublist_app; [by apply receive_torn|apply IH].
Qed.

(** ** Theorems *)

(** Frames cross the socket exactly: when every transfer moves at least one
    octet, however small, the receiver's callback gets precisely the frames that
    were written, in order. *)
Theorem frames_roundtrip fs turns :
  Forall frame_ok fs -> Forall (fun t => exists n, t = Transfer (S n)) turns ->
  (length (concat (map wire fs)) <= length turns)%nat ->
  receive turns (concat (map wire fs)) = fs.
Proof.
  intros Hf Ht Hl. apply receive_client_all; try done. clear Ht Hl.
  apply Nat.lt_succ_r. induction Hf as [|f fs Hok Hf IH]; simpl; [done|].
  rewrite length_app. pose proof (frame_bounds _ Hok). unfold size_of in *. lia.
Qed.

Lemma frames_roundtrip_witness :
  receive (repeat (Transfer 1) 12) (concat (map wire [[7]; [1; 2; 3]])) = [[7]; [1; 2; 3]].
Proof.
  apply frames_roundtrip.
  - repeat constructor; vm_compute; congruence.
  - apply Forall_forall. intros t Ht. exists O. by apply (repeat_spec 12), list_elem_of_In.
  - vm_compute. lia.
Defined.

(** What is received is some of what was accepted. *)
Lemma received_accepted s turns i :
  reachable s -> received turns i (streams s) `sublist_of` accepted s.
Proof.
  intros Hr. pose proof (reachable_ok _ Hr) as Hs. pose proof (pending_ok _ Hs) as Hp.
  destruct Hs as (_ & Hsub & _ & fss & cur & Ht & Hwr & Hc).
  etrans; [|exact Hsub]. unfold pending. apply sublist_inserts_r.
  unfold pending in Hp. apply Forall_app in Hp as [Hp _]. rewrite Hwr in Hp |- *.
  apply Forall_app in Hp as [_ Hcur].
  unfold streams. rewrite received_app. apply sublist_app; [by apply received_torn|].
  destruct (connection s) as [bytes|]; simpl; [|apply sublist_nil_l].
  rewrite app_nil_r, Hc. by apply receive_whole.
Qed.

(** The link between the worker and the daemon neither reorders, repeats,
    mixes up nor invents frames: in every reachable state of the producer and the
    writing thread, with connections failing anywhere and every read cut anywhere,
    the frames the daemon received over all connections are, in order, some of
    the frames [send] accepted. *)
Theorem frames_arrive_in_order s turns :
  reachable s -> received turns 0 (streams s) `sublist_of` accepted s.
Proof. apply received_accepted. Qed.

Lemma frames_arrive_in_order_witness :
  let s := mkState (mkWriter [[9]] 1) None None [[0; 0; 0; 1; 5; 0; 0; 0]] [[5]; [9]] [[5]] in
  reachable s /\ received (fun _ => repeat (Transfer 2) 9) 0 (streams s) `sublist_of` [[5]; [9]].
Proof.
  cbv zeta.
  assert (reachable (mkState (mkWriter [[9]] 1) None None [[0; 0; 0; 1; 5; 0; 0; 0]] [[5]; [9]] [[5]])) as Hr.
  { eapply reach_step; [|apply (step_write_fails [Transfer 3; TransferFailed] false [9] (mkWriter [] 0) [0; 0; 0; 1; 5] [0; 0; 0] []
        [[5]; [9]] [[5]]);
      reflexivity].
    eapply reach_step; [|apply (step_take [9] (mkWriter [[9]] 1)); reflexivity].
    eapply reach_step; [|apply (step_write [Transfer 4; Transfer 1] [5] (mkWriter [[9]] 1) [] [0; 0; 0; 1; 5] [] [[5]; [9]] []);
      reflexivity].
    eapply reach_step; [|apply step_connect].
    eapply reach_step; [|apply (step_take [5] (mkWriter [[5]; [9]] 2)); reflexivity].
    eapply reach_step; [|apply (step_send [9] (mkWriter [[5]] 1) None None [] [[5]] []); reflexivity].
    eapply reach_step; [apply reach_initial|apply (step_send [5] (mkWriter [] 0) None None [] [] []); reflexivity]. }
  split; [exact Hr|]. apply (frames_arrive_in_order _ (fun _ => repeat (Transfer 2) 9) Hr).
Defined.

(** The writer's queue is bounded and its accounting is exact: in every
    reachable state at most 256 frames and 16 MiB wait, the byte counter is the
    sum of the sizes of the queued frames, and every queued frame is one the
    receiver takes. *)
Theorem writer_queue_bounded s :
  reachable s ->
  queued_bytes (writer s) = total (frames (writer s)) /\
  size_of (frames (writer s)) <= kMaximumQueuedFrames /\
  queued_bytes (writer s) <= kMaximumQueuedBytes /\
  Forall (fun f => 0 < size_of f <= kMaximumFrameSize) (frames (writer s)).
Proof. intros (Hw & _)%reachable_ok. exact Hw. Qed.

Lemma writer_queue_bounded_witness :
  let s := mkState (mkWriter [[5]] 1) None None [] [[5]] [] in
  reachable s /\ queued_bytes (writer s) = total (frames (writer s)).
Proof.
  cbv zeta. assert (reachable (mkState (mkWriter [[5]] 1) None None [] [[5]] [])) as Hr.
  { eapply reach_step; [apply reach_initial|apply (step_send [5] (mkWriter [] 0) None None [] [] []); reflexivity]. }
  split; [exact Hr|]. apply (writer_queue_bounded _ Hr).
Defined.
