(* ===== verification/MediaForwarders.v ===== *)
(** * The Android Auto media forwarders

    src/include/aa2acp/bridge/media_forwarders.hpp and
    src/src/bridge/media_forwarders.cpp: the bounded queue shared with the
    forwarding thread, H.264 access units with the retained decoder entry point
    and the diagnostic capture, and PCM audio.  Every operation that holds
    [mutex_] is one function on the state; the thread's loop calls them in turn. *)

From S2P Require Import Prelude CarplayIpc.
#[local] Open Scope Z_scope.

(** ** The queue *)

(* src/include/aa2acp/bridge/media_forwarders.hpp:31-32 kMaximumQueuedFrames *)
Definition kMaximumQueuedFrames : Z := 600.
Definition kMaximumQueuedBytes : Z := 16 * 1024 * 1024.

(* src/include/aa2acp/bridge/media_forwarders.hpp:42-50 MediaSocketForwarder *)
Record Queue := mkQueue {
  maximum_queued_frames : Z;
  frames : list Bytes;
  queued_bytes : Z
}.

(** Dropping from the front while there is no room for [size] more octets. *)
(* src/src/bridge/media_forwarders.cpp:66-71 MediaSocketForwarder::enqueue *)
Fixpoint make_room (maximum size : Z) (fs : list Bytes) (queued : Z) : list Bytes * Z :=
  match fs with
  | [] => ([], queued)
  | f :: rest =>
      if (maximum <=? size_of fs) || (kMaximumQueuedBytes <? queued + size)
      then make_room maximum size rest (queued - size_of f)
      else (fs, queued)
  end.

(* src/src/bridge/media_forwarders.cpp:61-76 MediaSocketForwarder::enqueue *)
Definition enqueue (frame : Bytes) (q : Queue) : Queue :=
  if (size_of frame =? 0) || (kMaximumQueuedBytes <? size_of frame) then q
  else
    let '(fs, queued) := make_room (maximum_queued_frames q) (size_of frame) (frames q) (queued_bytes q) in
    mkQueue (maximum_queued_frames q) (fs ++ [frame]) (queued + size_of frame).

(* src/src/bridge/media_forwarders.cpp:159-171 MediaSocketForwarder::forward *)
Definition take_front (q : Queue) : option (Bytes * Queue) :=
  match frames q with
  | [] => None
  | frame :: rest => Some (frame, mkQueue (maximum_queued_frames q) rest (queued_bytes q - size_of frame))
  end.

(** [send_all] here has no stop token, so no turn of its scripts is a stop
    request; [stop] is the token as the two tests of [send_frame] find it. The
    octets the client took are the second result. *)
(* src/src/bridge/media_forwarders.cpp:119-130 MediaSocketForwarder::send_frame *)
Definition send_frame (stop : bool * bool) (turns : list Turn) (frame : Bytes) : bool * Bytes :=
  if stop.1 then (false, [])
  else
    let '(ok, header, turns) := send_all turns (frame_header frame) in
    if negb ok || stop.2 then (false, header)
    else let '(ok, body, _) := send_all turns frame in (ok, header ++ body).

(** ** H.264 access units *)

Definition three (input : Bytes) : bool :=
  Nat.leb 3 (length input) && (byte_at input 0 =? 0) && (byte_at input 1 =? 0) && (byte_at input 2 =? 1).
Definition four (input : Bytes) : bool :=
  Nat.leb 4 (length input) && (byte_at input 0 =? 0) && (byte_at input 1 =? 0)
  && (byte_at input 2 =? 0) && (byte_at input 3 =? 1).

(** A start code at the front: its length. *)
(* src/src/bridge/media_forwarders.cpp:250-259 VideoSocketForwarder::nalus *)
Definition start_code (input : Bytes) : option nat :=
  if negb (three input) && negb (four input) then None
  else Some (if four input then 4%nat else 3%nat).

(** Octets before the next start code, all of them when there is none. *)
(* src/src/bridge/media_forwarders.cpp:260-269 VideoSocketForwarder::nalus *)
Fixpoint nalu_length (input : Bytes) : nat :=
  match start_code input with
  | Some _ => O
  | None => match input with [] => O | _ :: rest => S (nalu_length rest) end
  end.

(* src/src/bridge/media_forwarders.cpp:246-276 VideoSocketForwarder::nalus *)
Fixpoint nalus_from (fuel : nat) (input : Bytes) : list Bytes :=
  match fuel with
  | O => []
  | S fuel =>
      match start_code input with
      | None => match input with [] => [] | _ :: rest => nalus_from fuel rest end
      | Some code =>
          let body := drop code input in
          let n := nalu_length body in
          let rest := nalus_from fuel (drop n body) in
          match n with O => rest | _ => take n body :: rest end
      end
  end.
Definition nalus (input : Bytes) : list Bytes := nalus_from (length input) input.

(** The diagnostic capture: the file while it is open, and the counter. *)
(* src/include/aa2acp/bridge/media_forwarders.hpp:95-99 VideoSocketForwarder *)
Record VideoSocketForwarder := mkVideo {
  queue : Queue;
  keyframe : Bytes;
  sps : Bytes;
  pps : Bytes;
  received_video_count : Z;
  dump_open : bool;
  dump_file : Bytes;
  dump_bytes : Z
}.

(* src/src/bridge/media_forwarders.cpp:288-301 VideoSocketForwarder::push *)
Definition scan_nalu (acc : Bytes * Bytes * bool) (nalu : Bytes) : Bytes * Bytes * bool :=
  let '(sps, pps, key) := acc in
  match nalu with
  | [] => acc
  | c :: _ =>
      let type := Z.land c 31 in
      if type =? 7 then (nalu, pps, key)
      else if type =? 8 then (sps, nalu, key)
      else if type =? 5 then (sps, pps, true)
      else acc
  end.

(** [writes]: what each [write] returns, [None] for [EINTR], [Some 0] for an
    error. *)
(* src/src/bridge/media_forwarders.cpp:228-244 VideoSocketForwarder::write_dump *)
Fixpoint write_dump (writes : list (option nat)) (bytes : Bytes) (file : Bytes) : bool * Bytes :=
  match bytes, writes with
  | [], _ => (true, file)
  | _, [] => (false, file)
  | _, None :: writes => write_dump writes bytes file
  | _, Some n :: writes =>
      match Nat.min n (length bytes) with
      | O => (false, file)
      | S k => write_dump writes (drop (S k) bytes) (file ++ take (S k) bytes)
      end
  end.

Definition kMaximumDumpBytes : Z := 64 * 1024 * 1024.

(* src/src/bridge/media_forwarders.cpp:303-313 VideoSocketForwarder::push *)
Definition capture (writes : list (option nat)) (frame : Bytes) (v : VideoSocketForwarder)
    : VideoSocketForwarder :=
  if dump_open v && (dump_bytes v <? kMaximumDumpBytes) then
    let count := Z.min (size_of frame) (kMaximumDumpBytes - dump_bytes v) in
    let '(ok, file) := write_dump writes (take (Z.to_nat count) frame) (dump_file v) in
    mkVideo (queue v) (keyframe v) (sps v) (pps v) (received_video_count v) ok file
            (if ok then dump_bytes v + count else dump_bytes v)
  else v.

Definition set_queue (q : Queue) (v : VideoSocketForwarder) : VideoSocketForwarder :=
  mkVideo q (keyframe v) (sps v) (pps v) (received_video_count v) (dump_open v) (dump_file v) (dump_bytes v).

(* src/src/bridge/media_forwarders.cpp:278-342 VideoSocketForwarder::push *)
Definition push (writes : list (option nat)) (access_unit : Bytes) (v : VideoSocketForwarder)
    : VideoSocketForwarder :=
  if (size_of access_unit =? 0) || (kMaximumQueuedBytes <? size_of access_unit) then v
  else
    let '(new_sps, new_pps, key) := fold_left scan_nalu (nalus access_unit) (sps v, pps v, false) in
    let v := mkVideo (queue v) (keyframe v) new_sps new_pps (received_video_count v + 1) (dump_open v)
                     (dump_file v) (dump_bytes v) in
    let v := capture writes access_unit v in
    let q := queue v in
    if negb key then
      if (size_of (frames q) <? maximum_queued_frames q)
         && (queued_bytes q + size_of access_unit <=? kMaximumQueuedBytes)
      then set_queue (mkQueue (maximum_queued_frames q) (frames q ++ [access_unit])
                              (queued_bytes q + size_of access_unit)) v
      else v
    else
      mkVideo (mkQueue (maximum_queued_frames q) [access_unit] (size_of access_unit)) access_unit
              (sps v) (pps v) (received_video_count v) (dump_open v)
              (dump_file v) (dump_bytes v).

(** The parameter sets a client gets before anything else. *)
(* src/src/bridge/media_forwarders.cpp:349-354 VideoSocketForwarder::on_client_connected *)
Definition config (v : VideoSocketForwarder) : Bytes :=
  match sps v, pps v with
  | [], _ | _, [] => []
  | _, _ => [0; 0; 0; 1] ++ sps v ++ [0; 0; 0; 1] ++ pps v
  end.

(** The state for the new client, and whether the client is kept with what it
    was sent. *)
(* src/src/bridge/media_forwarders.cpp:344-374 VideoSocketForwarder::on_client_connected *)
Definition on_client_connected (turns : list Turn) (v : VideoSocketForwarder)
    : (bool * Bytes) * VideoSocketForwarder :=
  let q := queue v in
  let q := match keyframe v with
           | [] => mkQueue (maximum_queued_frames q) [] 0
           | _ => if negb (bytes_eqb (hd [] (frames q)) (keyframe v))
                  then mkQueue (maximum_queued_frames q) [keyframe v] (size_of (keyframe v)) else q
           end in
  let v := set_queue q v in
  (match config v with
   | [] => (true, [])
   | c => send_frame (false, false) turns c
   end, v).

(** ** Audio *)

(* src/src/bridge/media_forwarders.cpp:378-383 AudioSocketForwarder::AudioSocketForwarder *)
Definition new_audio : Queue := mkQueue 100 [] 0.

(* src/src/bridge/media_forwarders.cpp:391-405 AudioSocketForwarder::push *)
Definition push_audio (pcm : Bytes) (q : Queue) : Queue :=
  if size_of pcm =? 0 then q else enqueue pcm q.

Definition new_video (capturing : bool) : VideoSocketForwarder :=
  mkVideo (mkQueue kMaximumQueuedFrames [] 0) [] [] [] 0 capturing [] 0.

(** ** Lemmas *)

Definition queue_ok (q : Queue) : Prop :=
  queued_bytes q = total (frames q) /\ size_of (frames q) <= maximum_queued_frames q /\
  queued_bytes q <= kMaximumQueuedBytes.

(** [fs] fits in a queue of [maximum] frames. *)
Definition fits (maximum : Z) (fs : list Bytes) : Prop :=
  size_of fs <= maximum /\ total fs <= kMaximumQueuedBytes.

Lemma size_snoc {A} (l : list A) x : size_of (l ++ [x]) = size_of l + 1.
Proof. rewrite size_app. unfold size_of at 2. simpl. lia. Qed.

Lemma total_snoc fs f : total (fs ++ [f]) = total fs + size_of f.
Proof. rewrite total_app. simpl. lia. Qed.

Lemma total_nonneg fs : 0 <= total fs.
Proof. induction fs as [|f fs IH]; simpl; [lia|]. pose proof (size_nonneg f). lia. Qed.

(** Room is made by dropping the fewest frames from the front. *)
Lemma make_room_spec maximum frame fs fs' queued' :
  1 <= maximum -> 0 <= size_of frame <= kMaximumQueuedBytes ->
  make_room maximum (size_of frame) fs (total fs) = (fs', queued') ->
  exists dropped, fs = dropped ++ fs' /\ queued' = total fs' /\ fits maximum (fs' ++ [frame]) /\
  (forall x before, dropped = before ++ [x] -> ~ fits maximum (x :: fs' ++ [frame])).
Proof.
  intros Hm Hf. revert fs' queued'. induction fs as [|f fs IH]; intros fs' queued'; cbn [make_room].
  - intros [= <- <-]. exists []. split_and!; try done.
    + unfold fits. simpl. unfold size_of in *. simpl. lia.
    + intros x before H. by destruct before.
  - cbn [total fold_right]. fold (total fs). if_case E.
    + replace (size_of f + total fs - size_of f) with (total fs) by lia. intros H.
      destruct (IH _ _ H) as (dropped & -> & -> & Hfit & Hlast). exists (f :: dropped). split_and!; try done.
      intros x before Hd. destruct dropped as [|d dropped] using rev_ind.
      * apply (app_inj_tail []) in Hd as [_ <-]. intros [H1 H2]. simpl in E, H2.
        rewrite total_app in H2. simpl in H2. rewrite size_cons, size_app in H1. unfold size_of at 2 in H1.
        simpl in H1. rewrite size_cons in E. apply orb_true_iff in E as [E|E]; bool_hyps; lia.
      * destruct before as [|b before]; [by destruct dropped|]. injection Hd as <- Hd.
        by apply (Hlast x before).
    + intros [= <- <-]. exists []. split_and!; try done.
      * unfold fits. rewrite size_app, total_app. cbn [total fold_right]. fold (total fs).
        unfold size_of at 2. simpl length. lia.
      * intros x before Hd. by destruct before.
Qed.

Lemma enqueue_ok frame q :
  1 <= maximum_queued_frames q -> queue_ok q ->
  queue_ok (enqueue frame q) /\ maximum_queued_frames (enqueue frame q) = maximum_queued_frames q.
Proof.
  intros Hm (H1 & H2 & H3). unfold enqueue. destruct (_ || _) eqn:E; [done|]. bool_hyps.
  destruct (make_room _ _ _ _) as [fs' q'] eqn:Er. rewrite H1 in Er.
  pose proof (size_nonneg frame).
  apply make_room_spec in Er as (dropped & Hd & -> & [Hf1 Hf2] & _); [|done|lia].
  rewrite total_app in Hf2. simpl in Hf2. split; [|done]. unfold queue_ok. simpl.
  rewrite total_app. simpl. lia.
Qed.

Lemma take_front_queue_ok q frame q' :
  queue_ok q -> take_front q = Some (frame, q') ->
  queue_ok q' /\ frames q = frame :: frames q' /\ maximum_queued_frames q' = maximum_queued_frames q.
Proof.
  destruct q as [m fs b]. intros (H1 & H2 & H3). unfold take_front. simpl in *.
  destruct fs as [|f fs]; [done|]. intros [= <- <-]. rewrite size_cons in H2. simpl in H1.
  pose proof (size_nonneg f). split; [|done]. unfold queue_ok. simpl. lia.
Qed.

Lemma write_dump_size writes bytes file ok file' :
  write_dump writes bytes file = (ok, file') ->
  size_of file <= size_of file' <= size_of file + size_of bytes /\
  (ok = true -> file' = file ++ bytes).
Proof.
  revert bytes file ok file'. induction writes as [|[n|] writes IH]; intros [|b bytes] file ok file'; cbn [write_dump];
    pose proof (size_nonneg file); try (intros [= <- <-]; rewrite ?app_nil_r; pose proof (size_nonneg (b :: bytes));
      unfold size_of in *; simpl in *; split; [lia|done]); try (intros [= <- <-]; rewrite app_nil_r; unfold size_of; simpl; split; [lia|done]).
  - destruct (Nat.min n (length (b :: bytes))) as [|k] eqn:Ek.
    { intros [= <- <-]. unfold size_of in *. simpl. split; [lia|done]. }
    intros Hw. destruct (IH _ _ _ _ Hw) as [Hs Hok]. split.
    + rewrite size_app in Hs. unfold size_of in *. rewrite length_take, length_drop in Hs. simpl in *. lia.
    + intros ->. rewrite Hok, <- app_assoc by done. by rewrite take_drop.
  - apply IH.
Qed.

(** *** NAL units *)

Definition code_bytes (long : bool) : Bytes := if long then [0; 0; 0; 1] else [0; 0; 1].

(** A NAL unit as the byte-stream format allows it: not empty, no start code
    inside and no zero at its end. *)
Definition nalu_ok (n : Bytes) : Prop :=
  n <> [] /\ nalu_length n = length n /\ last n <> Some 0.

Lemma start_code_at long rest : start_code (code_bytes long ++ rest) = Some (length (code_bytes long)).
Proof. destruct long; [done|by destruct rest]. Qed.

Lemma start_code_straddle x n long rest :
  start_code (x :: n) = None -> last (x :: n) <> Some 0 ->
  start_code ((x :: n) ++ code_bytes long ++ rest) = None.
Proof.
  unfold start_code, three, four, byte_at. intros H Hl.
  destruct n as [|y [|z [|w n]]]; simpl in *; [| | |exact H].
  all: destruct long; simpl; repeat match goal with |- context [?a =? ?b] => destruct (Z.eqb_spec a b) end;
    simpl in *; try done; try congruence.
Qed.

Lemma nalu_length_code n long rest :
  nalu_length n = length n -> last n <> Some 0 -> nalu_length (n ++ code_bytes long ++ rest) = length n.
Proof.
  induction n as [|x n IH]; intros Hn Hl.
  - simpl app. destruct long; reflexivity.
  - cbn [nalu_length] in Hn. destruct (start_code (x :: n)) eqn:E; [done|]. injection Hn as Hn.
    assert (start_code ((x :: n) ++ code_bytes long ++ rest) = None) as Es by by apply start_code_straddle.
    cbn [app nalu_length length] in *. rewrite Es. f_equal. apply IH; [done|].
    destruct n as [|y n]; [done|exact Hl].
Qed.

Definition annex_b (units : list (bool * Bytes)) : Bytes :=
  concat (map (fun u => code_bytes u.1 ++ u.2) units).

Lemma nalus_from_units fuel units :
  Forall (fun u => nalu_ok u.2) units -> (length (annex_b units) <= fuel)%nat ->
  nalus_from fuel (annex_b units) = map snd units.
Proof.
  intros Hu. revert fuel. induction Hu as [|[long n] units (Hne & Hn & Hl) Hu IH]; intros fuel Hf.
  - by destruct fuel.
  - unfold annex_b in *. cbn [map concat fst snd] in *. rewrite <- app_assoc in *.
    set (rest := concat (map (fun u => code_bytes u.1 ++ u.2) units)) in *.
    destruct fuel as [|fuel]; [destruct long; simpl in Hf; lia|].
    cbn [nalus_from]. rewrite start_code_at, drop_app_length.
    assert (nalu_length (n ++ rest) = length n) as ->.
    { destruct units as [|[l2 n2] units]; unfold rest; cbn [map concat fst snd]; [by rewrite app_nil_r|].
      rewrite <- app_assoc. by apply nalu_length_code. }
    rewrite take_app_length, drop_app_length. rewrite IH.
    + destruct n; [done|reflexivity].
    + rewrite !length_app in Hf. assert (0 < length n)%nat by (destruct n; [done|simpl; lia]).
      destruct long; simpl in Hf; lia.
Qed.

(** *** Video *)

Definition nalu_type (n : Bytes) : Z := Z.land (hd 0 n) 31.

(** An access unit with an IDR slice. *)
Definition is_keyframe (access_unit : Bytes) : Prop :=
  exists n, n ∈ nalus access_unit /\ n <> [] /\ nalu_type n = 5.

Lemma scan_one acc n :
  (scan_nalu acc n).2 = true <-> acc.2 = true \/ (n <> [] /\ nalu_type n = 5).
Proof.
  destruct acc as [[s p] k]. unfold scan_nalu, nalu_type. destruct n as [|c n]; cbn [hd snd].
  - split; [by left|]. by intros [?|[? _]].
  - destruct (Z.eqb_spec (Z.land c 31) 7) as [E|]; [|destruct (Z.eqb_spec (Z.land c 31) 8) as [E|]];
      try (rewrite E; split; [by left|by intros [?|[_ ?]]]).
    destruct (Z.eqb_spec (Z.land c 31) 5) as [E|E]; cbn [snd]; split; try done; auto.
    by intros [?|[_ ?]].
Qed.

Lemma scan_nalus ns acc :
  (fold_left scan_nalu ns acc).2 = true <-> acc.2 = true \/ exists n, n ∈ ns /\ n <> [] /\ nalu_type n = 5.
Proof.
  revert acc. induction ns as [|n ns IH]; intros acc; cbn [fold_left].
  - split; [by left|]. intros [?|(n & Hn & _)]; [done|]. by apply not_elem_of_nil in Hn.
  - rewrite IH, scan_one. split.
    + intros [[?|?]|(m & Hm & ?)]; [by left| |].
      * right. exists n. split; [apply elem_of_cons; by left|done].
      * right. exists m. split; [apply elem_of_cons; by right|done].
    + intros [?|(m & [->|Hm]%elem_of_cons & ?)]; [by left; left|by left; right|].
      right. by exists m.
Qed.

(** What the thread and the producer do to a forwarder; a frame whose sending
    fails is gone with the client, so taking it is the whole effect. *)
(* src/src/bridge/media_forwarders.cpp:132-181 MediaSocketForwarder::forward *)
Inductive vstep : VideoSocketForwarder -> VideoSocketForwarder -> Prop :=
| vstep_push writes access_unit v : vstep v (push writes access_unit v)
| vstep_take frame q v : take_front (queue v) = Some (frame, q) -> vstep v (set_queue q v)
| vstep_connect turns v : vstep v (on_client_connected turns v).2.

Inductive vreachable : VideoSocketForwarder -> Prop :=
| vreach_new capturing : vreachable (new_video capturing)
| vreach_step v v' : vreachable v -> vstep v v' -> vreachable v'.

Definition dump_ok (v : VideoSocketForwarder) : Prop :=
  (dump_open v = true -> size_of (dump_file v) = dump_bytes v) /\
  dump_bytes v <= kMaximumDumpBytes /\ size_of (dump_file v) <= kMaximumDumpBytes.

Definition video_ok (v : VideoSocketForwarder) : Prop :=
  queue_ok (queue v) /\ maximum_queued_frames (queue v) = kMaximumQueuedFrames /\
  size_of (keyframe v) <= kMaximumQueuedBytes /\ (keyframe v <> [] -> is_keyframe (keyframe v)) /\
  dump_ok v.

Lemma capture_ok writes frame v :
  dump_ok v -> dump_ok (capture writes frame v) /\ queue (capture writes frame v) = queue v /\
  keyframe (capture writes frame v) = keyframe v.
Proof.
  intros Hd. unfold capture. destruct (dump_open v && _) eqn:E; [|by split]. bool_hyps.
  destruct Hd as (H1 & H2 & H3). specialize (H1 ltac:(done)).
  set (count := Z.min _ _).
  destruct (write_dump writes _ _) as [ok file] eqn:Ew. apply write_dump_size in Ew as [Hs Hok].
  pose proof (size_nonneg frame). pose proof (size_nonneg (dump_file v)).
  assert (size_of (take (Z.to_nat count) frame) = count) as Hc
    by (unfold size_of in *; rewrite length_take; lia).
  rewrite Hc in Hs. split; [|done]. unfold dump_ok. simpl. destruct ok.
  - rewrite (Hok eq_refl), size_app, Hc. split_and!; try done; lia.
  - split_and!; [done|lia|lia].
Qed.

Lemma push_ok writes access_unit v : video_ok v -> video_ok (push writes access_unit v).
Proof.
  intros ((H1 & H2 & H3) & Hm & Hk & Hkey & Hd). unfold push.
  destruct (_ || _) eqn:E; [by split_and!|]. bool_hyps.
  destruct (fold_left scan_nalu _ _) as [[s' p'] key] eqn:Ef.
  set (v0 := mkVideo _ _ _ _ _ _ _ _).
  destruct (capture_ok writes access_unit v0 Hd) as (Hd' & Hq & Hkf).
  set (v1 := capture writes access_unit v0) in *. cbv zeta. rewrite Hq. simpl (queue v0).
  destruct key; cbn [negb].
  - unfold video_ok, queue_ok. simpl. pose proof (size_nonneg access_unit). split_and!; try lia; try done.
    + rewrite Hm. unfold size_of. simpl. unfold kMaximumQueuedFrames. lia.
    + intros _. pose proof (scan_nalus (nalus access_unit) (sps v, pps v, false)) as Hs.
      rewrite Ef in Hs. simpl in Hs. destruct (proj1 Hs eq_refl) as [?|?]; done.
  - destruct (_ && _) eqn:Er; unfold video_ok, queue_ok; simpl; rewrite ?Hq, ?Hkf; simpl.
    + bool_hyps. rewrite size_snoc, total_snoc. split_and!; try done; lia.
    + by split_and!.
Qed.

Lemma vstep_ok v v' : video_ok v -> vstep v v' -> video_ok v'.
Proof.
  intros Hv Hs. destruct Hs as [writes au v|frame q v Ht|turns v]; [by apply push_ok| |].
  - destruct Hv as (Hq & Hm & Hk & Hkey & Hd).
    apply take_front_queue_ok in Ht as (Hq' & _ & Hm'); [|done]. split_and!; simpl; try done. congruence.
  - destruct Hv as ((H1 & H2 & H3) & Hm & Hk & Hkey & Hd). cbv [on_client_connected snd].
    unfold video_ok, queue_ok. simpl. pose proof (size_nonneg (keyframe v)).
    destruct (keyframe v) as [|c kf] eqn:Ek; simpl.
    + rewrite Hm. split_and!; try done.
    + destruct (negb _); simpl; split_and!; try done; try lia.
      rewrite Hm. unfold size_of. simpl. unfold kMaximumQueuedFrames. lia.
Qed.

Lemma vreachable_ok v : vreachable v -> video_ok v.
Proof. induction 1 as [[]|v v' _ IH Hs]; [done|done|by eapply vstep_ok]. Qed.

(** *** Audio *)

Definition queueable (pcm : Bytes) : bool :=
  negb (size_of pcm =? 0) && (size_of pcm <=? kMaximumQueuedBytes).

(** The queue is the end of [accepted], and one more frame would not fit. *)
Definition keeps_newest (accepted : list Bytes) (q : Queue) : Prop :=
  queue_ok q /\ 1 <= maximum_queued_frames q /\
  exists dropped, accepted = dropped ++ frames q /\
  forall x before, dropped = before ++ [x] -> ~ fits (maximum_queued_frames q) (x :: frames q).

Lemma push_audio_newest accepted pcm q :
  keeps_newest accepted q ->
  keeps_newest (if queueable pcm then accepted ++ [pcm] else accepted) (push_audio pcm q) /\
  maximum_queued_frames (push_audio pcm q) = maximum_queued_frames q.
Proof.
  intros (Hq & Hm & dropped & Ha & Hd). unfold queueable, push_audio.
  destruct (size_of pcm =? 0) eqn:E0; cbn [negb andb]; [split; [|done]; by split_and!; [..|exists dropped]|].
  destruct (enqueue_ok pcm q Hm Hq) as [Hq' Hm']. unfold enqueue in *. rewrite E0 in *. cbn [orb] in *.
  rewrite Z.ltb_antisym in *.
  destruct (size_of pcm <=? kMaximumQueuedBytes) eqn:E1; cbn [negb] in *;
    [|split; [|done]; by split_and!; [..|exists dropped]].
  bool_hyps. pose proof (size_nonneg pcm). destruct Hq as (H1 & H2 & H3).
  destruct (make_room _ _ _ _) as [fs' q'] eqn:Er. rewrite H1 in Er.
  apply make_room_spec in Er as (d2 & Hfs & -> & Hfit & Hlast); [|done|lia].
  split; [|done]. split_and!; [done..|]. cbn [frames maximum_queued_frames].
  exists (dropped ++ d2). split; [by rewrite Ha, Hfs, <- !app_assoc|].
  intros x before Hx. destruct d2 as [|y d2 _] using rev_ind.
  - rewrite app_nil_r in Hx. simpl in Hfs. intros [Hs Ht]. apply (Hd x before Hx). rewrite Hfs.
    rewrite app_comm_cons, size_snoc in Hs. rewrite app_comm_cons, total_snoc in Ht. split; lia.
  - rewrite app_assoc in Hx. apply app_inj_tail in Hx as [_ <-]. by apply (Hlast y d2).
Qed.

Lemma push_audio_all pcms accepted q :
  keeps_newest accepted q ->
  let q' := fold_left (fun q pcm => push_audio pcm q) pcms q in
  keeps_newest (accepted ++ filter (fun pcm => queueable pcm = true) pcms) q' /\
  maximum_queued_frames q' = maximum_queued_frames q.
Proof.
  revert accepted q. induction pcms as [|pcm pcms IH]; intros accepted q Hk; cbv zeta; cbn [fold_left].
  - by rewrite app_nil_r.
  - destruct (push_audio_newest accepted pcm q Hk) as [Hk' Hm'].
    destruct (IH _ _ Hk') as [Hk'' Hm'']. rewrite Hm'' , Hm' in *. split; [|done].
    rewrite filter_cons. destruct (queueable pcm); simpl in *; [by rewrite <- app_assoc in Hk''|done].
Qed.

Lemma sent_whole turns frame sent : send_frame (false, false) turns frame = (true, sent) -> sent = wire frame.
Proof.
  unfold send_frame, wire. cbn [fst snd].
  destruct (send_all turns (frame_header frame)) as [[ok1 s1] r1] eqn:E1. rewrite orb_false_r.
  destruct ok1; cbn [negb]; [|done].
  destruct (send_all r1 frame) as [[ok2 s2] r2] eqn:E2. intros [= -> <-].
  apply send_all_prefix in E1 as (m1 & -> & H1), E2 as (m2 & -> & H2).
  by rewrite (proj1 H1 eq_refl), (proj1 H2 eq_refl), !app_nil_r.
Qed.

(** ** Theorems *)

(** The NAL units of an access unit are found exactly: an Annex B stream of
    units, each behind a three- or four-octet start code, is cut into just those
    units, in order. *)
Theorem nalus_roundtrip units :
  Forall (fun u => nalu_ok u.2) units -> nalus (annex_b units) = map snd units.
Proof. intros. by apply nalus_from_units. Qed.

Lemma nalus_roundtrip_witness :
  nalus (annex_b [(true, [103; 66; 0; 31]); (true, [104; 206]); (false, [101; 0; 0; 3; 1])])
  = [[103; 66; 0; 31]; [104; 206]; [101; 0; 0; 3; 1]].
Proof.
  apply (nalus_roundtrip [(true, [103; 66; 0; 31]); (true, [104; 206]); (false, [101; 0; 0; 3; 1])]).
  repeat constructor; vm_compute; congruence.
Defined.

(** A consumer that joins mid-stream starts at a decoder entry point: in
    every reachable state the queue a new client is given is empty or begins with
    the retained keyframe, an access unit that contains an IDR slice; and the
    first thing sent is the latest SPS and PPS. *)
Theorem client_starts_at_keyframe v turns :
  vreachable v ->
  let '((kept, sent), v') := on_client_connected turns v in
  (frames (queue v') = [] \/
   exists rest, frames (queue v') = keyframe v :: rest /\ is_keyframe (keyframe v)) /\
  (keyframe v <> [] -> frames (queue v') <> []) /\
  (kept = true -> sps v <> [] -> pps v <> [] ->
   sent = wire ([0; 0; 0; 1] ++ sps v ++ [0; 0; 0; 1] ++ pps v)).
Proof.
  intros Hr. pose proof (vreachable_ok _ Hr) as (_ & _ & _ & Hkey & _).
  destruct (on_client_connected turns v) as [[kept sent] v'] eqn:E. unfold on_client_connected in E.
  injection E as Hs <-. cbn [queue set_queue]. split_and!.
  - destruct (keyframe v) as [|c kf] eqn:Ek; [by left|right].
    destruct (bytes_eqb (hd [] (frames (queue v))) (c :: kf)) eqn:Eb; cbn [negb frames].
    + apply bytes_eqb_eq in Eb. destruct (frames (queue v)) as [|f fs]; [done|]. simpl in Eb. subst f.
      exists fs. split; [done|]. by apply Hkey.
    + exists []. split; [done|]. by apply Hkey.
  - intros Hne. destruct (keyframe v) as [|c kf] eqn:Ek; [done|].
    destruct (bytes_eqb (hd [] (frames (queue v))) (c :: kf)) eqn:Eb; cbn [negb frames]; [|done].
    intros Hnil. rewrite Hnil in Eb. discriminate Eb.
  - intros -> Hsps Hpps. unfold config in Hs. cbn [sps pps set_queue] in Hs.
    destruct (sps v) as [|s0 s] eqn:Es; [done|]. destruct (pps v) as [|p0 p] eqn:Ep; [done|].
    set (c := [0; 0; 0; 1] ++ (s0 :: s) ++ [0; 0; 0; 1] ++ p0 :: p) in *. cbn [app] in Hs.
    apply sent_whole in Hs. exact Hs.
Qed.

Lemma client_starts_at_keyframe_witness :
  let v := push [] [0; 0; 1; 101; 9] (push [] [0; 0; 1; 103; 1; 0; 0; 1; 104; 2] (new_video false)) in
  vreachable v /\ frames (queue (on_client_connected [Transfer 100; Transfer 100] v).2) <> [].
Proof.
  cbv zeta. assert (vreachable (push [] [0; 0; 1; 101; 9]
    (push [] [0; 0; 1; 103; 1; 0; 0; 1; 104; 2] (new_video false)))) as Hr.
  { eapply vreach_step; [|apply vstep_push]. eapply vreach_step; [apply vreach_new|apply vstep_push]. }
  split; [exact Hr|].
  pose proof (client_starts_at_keyframe _ [Transfer 100; Transfer 100] Hr) as H.
  destruct (on_client_connected _ _) as [[kept sent] v']. destruct H as (_ & H & _). apply H.
  vm_compute. discriminate.
Defined.

(** The video forwarder's memory and its capture file are bounded: in every
    reachable state at most 600 frames and 16 MiB are queued, the byte counter is
    exact, the retained keyframe is at most 16 MiB and the diagnostic file at most
    64 MiB. *)
Theorem video_bounded v :
  vreachable v ->
  queued_bytes (queue v) = total (frames (queue v)) /\ size_of (frames (queue v)) <= 600 /\
  queued_bytes (queue v) <= kMaximumQueuedBytes /\ size_of (keyframe v) <= kMaximumQueuedBytes /\
  size_of (dump_file v) <= 64 * 1024 * 1024.
Proof.
  intros Hr. destruct (vreachable_ok _ Hr) as ((H1 & H2 & H3) & Hm & Hk & _ & _ & _ & Hd).
  rewrite Hm in H2. done.
Qed.

Lemma video_bounded_witness :
  let v := push [Some 5%nat] [0; 0; 1; 101; 9] (new_video true) in
  vreachable v /\ size_of (dump_file v) <= 64 * 1024 * 1024.
Proof.
  cbv zeta. assert (vreachable (push [Some 5%nat] [0; 0; 1; 101; 9] (new_video true))) as Hr.
  { eapply vreach_step; [apply vreach_new|apply vstep_push]. }
  split; [exact Hr|]. apply (video_bounded _ Hr).
Defined.

(** A slow consumer loses only the oldest audio: after any packets were
    pushed with none taken, the queue is the longest end of the packets that
    keeps within 100 packets and 16 MiB. *)
Theorem audio_keeps_newest pcms :
  let q := fold_left (fun q pcm => push_audio pcm q) pcms new_audio in
  exists dropped,
    filter (fun pcm => queueable pcm = true) pcms = dropped ++ frames q /\
    fits 100 (frames q) /\
    forall x before, dropped = before ++ [x] -> ~ fits 100 (x :: frames q).
Proof.
  cbv zeta. destruct (push_audio_all pcms [] new_audio) as [((H1 & H2 & H3) & _ & dropped & Hd & Hl) Hm].
  { split_and!; [done..|]. exists []. split; [done|]. intros x before H. by destruct before. }
  cbv zeta in *. rewrite Hm in *. exists dropped. split; [exact Hd|]. split; [|exact Hl].
  split; [exact H2|]. by rewrite <- H1.
Qed.

(** A client that comes back after the keyframe was sent restarts at the
    keyframe without the dependent frame that was queued after it. *)
Example dependent_frame_lost_on_reconnect :
  let key := [0; 0; 1; 101; 9] in let dependent := [0; 0; 1; 65; 7] in
  let v := push [] dependent (push [] key (new_video false)) in
  let v := match take_front (queue v) with Some (_, q) => set_queue q v | None => v end in
  frames (queue v) = [dependent] /\
  frames (queue (on_client_connected [] v).2) = [key].
Proof. vm_compute. done. Qed.
