(* ===== verification/SessionAudio.v ===== *)
(** * Audio data streams of the AirPlay session

    [src/src/airplay/session.cpp]: the encrypted RTP packets of the media,
    guidance and system audio senders, and the microphone receiver with its
    replay window.  Sockets and callbacks are arguments: the receiver is a
    function of the datagrams, the senders of what the source of samples, the
    stop callback and the socket answer at every turn of their loops. *)

From S2P Require Import Prelude Text Crypto.
#[local] Open Scope Z_scope.

(** ** Shared pieces *)

(** Samples of 16 bits change their byte order: every octet of an even place is
    swapped with its successor. The callers have tested that the size is even. *)
(* src/src/airplay/session.cpp:1667-1668 run_session (microphone samples) *)
Fixpoint swap_samples (pcm : Bytes) : Bytes :=
  match pcm with
  | a :: b :: rest => b :: a :: swap_samples rest
  | _ => pcm
  end.

(* src/src/airplay/session.cpp:882-885 store_le32 *)
Definition store_le32 (value : Z) : Bytes :=
  map (fun index => u8 (Z.shiftr value (Z.of_nat index * 8))) (seq 0 4).

(* src/src/airplay/session.cpp:887-890 store_le64 *)
Definition store_le64 (value : Z) : Bytes :=
  map (fun index => u8 (Z.shiftr value (Z.of_nat index * 8))) (seq 0 8).

(** A nonce of twelve octets with a 64-bit counter in the last eight. *)
(* src/src/airplay/session.cpp:1944-1947 run_session (nonce12) *)
Definition nonce12 (counter : Z) : Bytes := [0; 0; 0; 0] ++ store_le64 counter.

(** ** The replay window of the microphone *)

(* src/src/airplay/session.cpp:1617-1619 run_session (microphone receiver) *)
Record ReplayWindow := mkReplay {
  have_nonce : bool;
  highest_nonce : Z;
  replay_window : Z
}.

Definition new_window : ReplayWindow := mkReplay false 0 0.

(** [None]: the packet is dropped. *)
(* src/src/airplay/session.cpp:1645-1662 run_session (replay window) *)
Definition replay_check (nonce_counter : Z) (w : ReplayWindow) : option ReplayWindow :=
  if have_nonce w then
    if highest_nonce w <? nonce_counter then
      let distance := nonce_counter - highest_nonce w in
      Some (mkReplay true nonce_counter
              (if 64 <=? distance then 1
               else Z.lor (u64 (Z.shiftl (replay_window w) distance)) 1))
    else
      let distance := highest_nonce w - nonce_counter in
      if (64 <=? distance) || negb (Z.land (replay_window w) (u64 (Z.shiftl 1 distance)) =? 0)
      then None
      else Some (mkReplay true (highest_nonce w)
                   (Z.lor (replay_window w) (u64 (Z.shiftl 1 distance))))
  else Some (mkReplay true nonce_counter 1).

(* src/src/airplay/session.cpp:1616-1616 run_session (microphone receiver) *)
Definition kPacketBytes : nat := 64 * 1024.

Section Streams.
Context `{EVP}.

(** The counter a datagram of at least eight octets ends with. *)
(* src/src/airplay/session.cpp:1640-1644 run_session (nonce_counter) *)
Definition packet_counter (packet : Bytes) : Z := le_value (drop (length packet - 8) packet).

(** One turn of the receiver's loop after [recv] into its 64 KiB buffer: what
    the callback gets, and the window. *)
(* src/src/airplay/session.cpp:1626-1669 run_session (microphone receiver) *)
Definition microphone_packet (key : Bytes) (datagram : Bytes) (w : ReplayWindow)
    : option Bytes * ReplayWindow :=
  let packet := take kPacketBytes datagram in
  let size := length packet in
  if size_of packet <? 12 + 16 + 8 then (None, w)
  else if negb (Z.shiftr (byte_at packet 0) 6 =? 2) || negb (Z.land (byte_at packet 1) 127 =? 100)
  then (None, w)
  else
    let nonce := [0; 0; 0; 0] ++ drop (size - 8) packet in
    match open_with_nonce key nonce (subspan 12 (size - 12 - 8) packet) (subspan 4 8 packet) with
    | None => (None, w)
    | Some decrypted =>
        match replay_check (packet_counter packet) w with
        | None => (None, w)
        | Some w =>
            if negb (size_of decrypted mod 2 =? 0) then (None, w)
            else (Some (swap_samples decrypted), w)
        end
    end.

(** The datagrams of the socket in order; each delivery with its datagram. *)
(* src/src/airplay/session.cpp:1620-1670 run_session (microphone receiver) *)
Fixpoint microphone_receiver (key : Bytes) (datagrams : list Bytes) (w : ReplayWindow)
    : list (Bytes * Bytes) :=
  match datagrams with
  | [] => []
  | datagram :: rest =>
      let '(delivered, w) := microphone_packet key datagram w in
      match delivered with
      | Some pcm => (datagram, pcm) :: microphone_receiver key rest w
      | None => microphone_receiver key rest w
      end
  end.

(** ** Audio senders *)

(* src/src/airplay/session.cpp:1922-1924 run_session (media-audio sender) *)
Record AudioSender := mkAudio {
  sequence : Z;
  timestamp : Z;
  counter : Z
}.

Definition new_sender : AudioSender := mkAudio 0 0 0.

(* src/src/airplay/session.cpp:1935-1943 run_session (RTP header) *)
Definition rtp_header (s : AudioSender) : Bytes :=
  [128; 100; u8 (Z.shiftr (sequence s) 8); u8 (sequence s);
   u8 (Z.shiftr (timestamp s) 24); u8 (Z.shiftr (timestamp s) 16);
   u8 (Z.shiftr (timestamp s) 8); u8 (timestamp s); 0; 0; 0; 0].

(* src/src/airplay/session.cpp:1932-1957 run_session (media-audio packet) *)
Definition audio_packet (key pcm : Bytes) (s : AudioSender) : option Bytes :=
  let payload := swap_samples pcm in
  let header := rtp_header s in
  match seal_with_nonce key (nonce12 (counter s)) payload (subspan 4 8 header) with
  | None => None
  | Some encrypted => Some (header ++ encrypted ++ store_le64 (counter s))
  end.

(* src/src/airplay/session.cpp:1963-1965 run_session (media-audio sender) *)
Definition next_packet (frame_size : Z) (pcm : Bytes) (s : AudioSender) : AudioSender :=
  mkAudio (u16 (sequence s + 1)) (u32 (timestamp s + u32 (size_of pcm / frame_size))) (u64 (counter s + 1)).

(** One turn of a sender: the stop callback, the next samples and whether the
    socket took the packet. *)
Record AudioTurn := mkTurn {
  stop_requested : bool;
  next_audio : option Bytes;
  send_ok : bool
}.

(** The samples that were sent, each with its packet. [frame_size] is four for
    the stereo media stream and two for the mono guidance and system streams. *)
(* src/src/airplay/session.cpp:1926-1972 run_session (media-audio sender) *)
Fixpoint audio_sender (key : Bytes) (frame_size : Z) (turns : list AudioTurn) (s : AudioSender)
    : list (Bytes * Bytes) :=
  match turns with
  | [] => []
  | turn :: turns =>
      if stop_requested turn then []
      else match next_audio turn with
      | None => []
      | Some pcm =>
          if (size_of pcm =? 0) || negb (size_of pcm mod frame_size =? 0)
          then audio_sender key frame_size turns s
          else match audio_packet key pcm s with
          | None => []
          | Some packet =>
              if negb (send_ok turn) then []
              else (pcm, packet) :: audio_sender key frame_size turns (next_packet frame_size pcm s)
          end
      end
  end.

(* src/src/airplay/session.cpp:1994-2028 run_session (launch_auxiliary_audio) *)
Definition auxiliary_audio_sender (key : Bytes) (turns : list AudioTurn) : list (Bytes * Bytes) :=
  audio_sender key 2 turns new_sender.
End Streams.

#[local] Opaque kPacketBytes.

(** ** The replay window accepts every fresh counter exactly once *)

(** The receiver's window after the counters of [accepted] went through. *)
Definition window_ok (accepted : list Z) (w : ReplayWindow) : Prop :=
  if have_nonce w then
    highest_nonce w ∈ accepted /\ Forall (fun c => c <= highest_nonce w) accepted /\
    forall d, 0 <= d -> (Z.testbit (replay_window w) d = true <-> d < 64 /\ highest_nonce w - d ∈ accepted)
  else accepted = [].

(** What the window is for: a counter is refused when it was accepted before or
    lies 64 or more below the highest. *)
Definition refused (accepted : list Z) (counter : Z) : Prop :=
  counter ∈ accepted \/ Exists (fun highest => counter + 64 <= highest) accepted.

#[export] Instance refused_dec accepted counter : Decision (refused accepted counter) := _.

Lemma land_bit x d : 0 <= d -> (Z.land x (Z.shiftl 1 d) =? 0) = negb (Z.testbit x d).
Proof.
  intros Hd. rewrite Z.shiftl_1_l. destruct (Z.testbit x d) eqn:E; cbn [negb].
  - apply Z.eqb_neq. intros Hz. apply (f_equal (fun y => Z.testbit y d)) in Hz.
    by rewrite Z.land_spec, Z.pow2_bits_true, E, Z.bits_0 in Hz by done.
  - apply Z.eqb_eq, Z.bits_inj'. intros n Hn. rewrite Z.land_spec, Z.bits_0, Z.pow2_bits_eqb by done.
    destruct (Z.eqb_spec d n) as [->|]; [by rewrite E|apply andb_false_r].
Qed.

Lemma u64_shift_1 d : 0 <= d < 64 -> u64 (Z.shiftl 1 d) = Z.shiftl 1 d.
Proof.
  intros Hd. apply wrap_id. rewrite Z.shiftl_1_l. split; [lia|apply Z.pow_lt_mono_r; lia].
Qed.

Lemma window_first counter : window_ok [counter] (mkReplay true counter 1).
Proof.
  split; [by apply list_elem_of_singleton|]. split; [by constructor|]. intros d Hd. cbn.
  change 1 with (2 ^ 0) at 1. rewrite Z.pow2_bits_eqb, Z.eqb_eq, list_elem_of_singleton by lia. lia.
Qed.

Lemma window_advances accepted counter highest window :
  (forall c, c ∈ accepted -> c <= highest) -> highest < counter ->
  (forall d, 0 <= d -> (Z.testbit window d = true <-> d < 64 /\ highest - d ∈ accepted)) ->
  let distance := counter - highest in
  window_ok (accepted ++ [counter])
    (mkReplay true counter
       (if 64 <=? distance then 1 else Z.lor (u64 (Z.shiftl window distance)) 1)).
Proof.
  intros Hle Hlt Hbits distance. split; [apply elem_of_app; right; by apply list_elem_of_singleton|].
  split; [apply Forall_app; split; [|by constructor]; apply Forall_forall; intros c Hc%Hle; cbn; lia|].
  intros d Hd. cbn. rewrite elem_of_app, list_elem_of_singleton. destruct (64 <=? distance) eqn:E; bool_hyps.
  - change 1 with (2 ^ 0) at 1. rewrite Z.pow2_bits_eqb, Z.eqb_eq by lia. split; [lia|].
    intros [? [Hc%Hle|?]]; lia.
  - rewrite Z.lor_spec, wrap_bit, Z.shiftl_spec by done. change 1 with (2 ^ 0) at 1.
    rewrite Z.pow2_bits_eqb, orb_true_iff, andb_true_iff, Z.ltb_lt, Z.eqb_eq by lia.
    destruct (Z.lt_ge_cases (d - distance) 0) as [Hn|Hn].
    + rewrite Z.testbit_neg_r by lia. split; [lia|]. intros [? [Hc%Hle|?]]; lia.
    + rewrite Hbits by lia. replace (highest - (d - distance)) with (counter - d) by lia. intuition lia.
Qed.

Lemma window_marks accepted counter highest window :
  highest ∈ accepted -> (forall c, c ∈ accepted -> c <= highest) ->
  (forall d, 0 <= d -> (Z.testbit window d = true <-> d < 64 /\ highest - d ∈ accepted)) ->
  0 <= highest - counter < 64 ->
  window_ok (accepted ++ [counter])
    (mkReplay true highest (Z.lor window (Z.shiftl 1 (highest - counter)))).
Proof.
  intros Hin Hle Hbits Hd. split; [apply elem_of_app; by left|].
  split; [apply Forall_app; split; [by apply Forall_forall|constructor; [cbn; lia|done]]|].
  intros d Hd'. cbn. rewrite elem_of_app, list_elem_of_singleton, Z.lor_spec, Z.shiftl_1_l.
  rewrite Z.pow2_bits_eqb, orb_true_iff, Z.eqb_eq, Hbits by lia. intuition lia.
Qed.

(** The window decides [refused], and stays right when a counter is accepted. *)
Lemma replay_check_spec accepted counter w :
  window_ok accepted w ->
  match replay_check counter w with
  | None => refused accepted counter
  | Some w' => ~ refused accepted counter /\ window_ok (accepted ++ [counter]) w'
  end.
Proof.
  intros Hw. unfold replay_check. unfold window_ok in Hw. destruct (have_nonce w).
  2: { rewrite Hw. split.
       - intros [Hc|(h & Hh & _)%Exists_exists]; by apply not_elem_of_nil in Hc || apply not_elem_of_nil in Hh.
       - cbn [app]. by apply window_first. }
  destruct Hw as (Hin & Hle & Hbits). rewrite Forall_forall in Hle.
  destruct (highest_nonce w <? counter) eqn:E; bool_hyps.
  - split.
    + intros [Hc|(h & Hh & Hd)%Exists_exists]; [specialize (Hle _ Hc)|specialize (Hle _ Hh)]; lia.
    + by apply window_advances.
  - set (d := highest_nonce w - counter) in *. destruct (64 <=? d) eqn:E2; bool_hyps; cbn [orb].
    { right. apply Exists_exists. exists (highest_nonce w). split; [done|lia]. }
    rewrite u64_shift_1, land_bit, negb_involutive by lia. destruct (Z.testbit _ _) eqn:E3.
    + left. apply Hbits in E3 as [_ E3]; [|lia]. by replace counter with (highest_nonce w - d) by lia.
    + assert (counter ∉ accepted) as Hnot.
      { intros Hc. rewrite (proj2 (Hbits d ltac:(lia))) in E3; [done|]. split; [lia|].
        by replace (highest_nonce w - d) with counter by lia. }
      split; [|by apply window_marks; [..|split; lia]].
      intros [?|(h & Hh & Hd)%Exists_exists]; [done|]. specialize (Hle _ Hh). lia.
Qed.

Section StreamFacts.
Context `{EVP}.

(** The samples of a datagram that passes the format and the cipher. *)
Definition authentic (key datagram : Bytes) : option Bytes :=
  let packet := take kPacketBytes datagram in
  if (size_of packet <? 36) || negb (Z.shiftr (byte_at packet 0) 6 =? 2)
     || negb (Z.land (byte_at packet 1) 127 =? 100) then None
  else open_with_nonce key ([0; 0; 0; 0] ++ drop (length packet - 8) packet)
         (subspan 12 (length packet - 12 - 8) packet) (subspan 4 8 packet).

Definition datagram_counter (datagram : Bytes) : Z := packet_counter (take kPacketBytes datagram).

(** The specification of the receiver: it remembers every counter it accepted. *)
Fixpoint fresh_deliveries (key : Bytes) (datagrams : list Bytes) (accepted : list Z)
    : list (Bytes * Bytes) :=
  match datagrams with
  | [] => []
  | datagram :: rest =>
      match authentic key datagram with
      | Some pcm =>
          if decide (refused accepted (datagram_counter datagram))
          then fresh_deliveries key rest accepted
          else (if size_of pcm mod 2 =? 0 then [(datagram, swap_samples pcm)] else [])
               ++ fresh_deliveries key rest (accepted ++ [datagram_counter datagram])
      | None => fresh_deliveries key rest accepted
      end
  end.

Lemma microphone_packet_authentic key datagram w :
  microphone_packet key datagram w =
    match authentic key datagram with
    | None => (None, w)
    | Some pcm =>
        match replay_check (datagram_counter datagram) w with
        | None => (None, w)
        | Some w' => (if size_of pcm mod 2 =? 0 then Some (swap_samples pcm) else None, w')
        end
    end.
Proof.
  unfold microphone_packet, authentic, datagram_counter. change (12 + 16 + 8) with 36.
  destruct (size_of _ <? 36); [done|]. cbn [orb]. destruct (_ || _); [done|].
  destruct (open_with_nonce _ _ _ _) as [pcm|]; [|done]. destruct (replay_check _ _); [|done].
  by destruct (_ =? 0).
Qed.

Lemma receiver_refines key datagrams : forall w accepted,
  window_ok accepted w ->
  microphone_receiver key datagrams w = fresh_deliveries key datagrams accepted.
Proof.
  induction datagrams as [|d ds IH]; intros w accepted Hw; [done|].
  cbn [microphone_receiver fresh_deliveries]. rewrite microphone_packet_authentic.
  destruct (authentic key d) as [pcm|]; [|by apply IH].
  pose proof (replay_check_spec accepted (datagram_counter d) w Hw) as Hc.
  destruct (replay_check _ _) as [w'|].
  - destruct Hc as [Hn Hw']. rewrite decide_False by done.
    destruct (_ =? 0); cbn [app]; by rewrite (IH _ _ Hw').
  - rewrite decide_True by done. by apply IH.
Qed.

Lemma fresh_deliveries_counters key datagrams : forall accepted,
  NoDup (map (fun d => datagram_counter d.1) (fresh_deliveries key datagrams accepted)) /\
  Forall (fun d => datagram_counter d.1 ∉ accepted) (fresh_deliveries key datagrams accepted).
Proof.
  induction datagrams as [|d ds IH]; intros accepted; cbn [fresh_deliveries]; [split; constructor|].
  destruct (authentic key d) as [pcm|]; [|apply IH]. case_decide as Hr; [apply IH|].
  destruct (IH (accepted ++ [datagram_counter d])) as [Hnd Hall].
  assert (Forall (fun e => (datagram_counter e.1 ∉ accepted) /\ datagram_counter e.1 <> datagram_counter d)
    (fresh_deliveries key ds (accepted ++ [datagram_counter d]))) as Hall'.
  { eapply Forall_impl; [exact Hall|]. intros e. cbn. rewrite elem_of_app, list_elem_of_singleton. tauto. }
  apply Forall_and in Hall' as [Ha Hb]. destruct (_ =? 0); [|done]. cbn [app map fst]. split.
  - constructor; [|done]. rewrite list_elem_of_fmap. intros (e & He & Hin). rewrite Forall_forall in Hb.
    by apply (Hb e).
  - constructor; [|done]. cbn. intros Hin. apply Hr. by left.
Qed.
End StreamFacts.

(** ** Packets of the senders at the receiver *)

Lemma length_swap_samples pcm : length (swap_samples pcm) = length pcm.
Proof.
  assert (forall n pcm, (length pcm <= n)%nat -> length (swap_samples pcm) = length pcm) as Hn.
  { induction n as [|n IH]; intros [|a [|b l]] Hl; simpl in *; try done; try lia. by rewrite IH by lia. }
  by eapply Hn.
Qed.

Lemma swap_samples_involutive pcm : swap_samples (swap_samples pcm) = pcm.
Proof.
  assert (forall n pcm, (length pcm <= n)%nat -> swap_samples (swap_samples pcm) = pcm) as Hn.
  { induction n as [|n IH]; intros [|a [|b l]] Hl; simpl in *; try done; try lia. by rewrite IH by lia. }
  by eapply Hn.
Qed.

Lemma store_le64_bytes value : store_le64 value = le_bytes 8 value.
Proof. unfold store_le64. cbn [seq map le_bytes]. by rewrite !Z.shiftr_shiftr by lia. Qed.

Section SenderFacts.
Context `{EVPLaws}.

Lemma rtp_header_fields s :
  length (rtp_header s) = 12%nat /\ byte_at (rtp_header s) 0 = 128 /\ byte_at (rtp_header s) 1 = 100.
Proof. done. Qed.

Lemma audio_packet_shape key pcm s packet :
  audio_packet key pcm s = Some packet ->
  exists encrypted, packet = rtp_header s ++ encrypted ++ store_le64 (counter s) /\
    seal_with_nonce key (nonce12 (counter s)) (swap_samples pcm) (subspan 4 8 (rtp_header s)) = Some encrypted /\
    length encrypted = (length pcm + 16)%nat.
Proof.
  unfold audio_packet. destruct (seal_with_nonce _ _ _ _) as [encrypted|] eqn:E; [|done].
  intros [= <-]. exists encrypted. split_and!; [done..|].
  rewrite (seal_with_nonce_length _ _ _ _ _ E), length_swap_samples. done.
Qed.

Lemma packet_counter_app header encrypted c :
  is_u64 c -> packet_counter (header ++ encrypted ++ store_le64 c) = c.
Proof.
  intros Hc. unfold packet_counter. rewrite app_assoc.
  replace (length ((header ++ encrypted) ++ store_le64 c) - 8)%nat with (length (header ++ encrypted))
    by (rewrite (length_app _ (store_le64 c)); change (length (store_le64 c)) with 8%nat; lia).
  rewrite drop_app_length, store_le64_bytes. by apply le_value_bytes.
Qed.

(** A packet of a sender passes the receiver's checks and opens to the samples
    in network order. *)
Lemma audio_packet_authentic key pcm s packet :
  audio_packet key pcm s = Some packet -> is_u64 (counter s) ->
  (length pcm + 36 <= kPacketBytes)%nat ->
  authentic key packet = Some (swap_samples pcm) /\ datagram_counter packet = counter s.
Proof.
  intros (encrypted & -> & Hs & Hl)%audio_packet_shape Hc Hlen.
  destruct (rtp_header_fields s) as (Hh & Hb0 & Hb1). set (header := rtp_header s) in *.
  assert (length (store_le64 (counter s)) = 8%nat) as H8 by done.
  assert (length (header ++ encrypted ++ store_le64 (counter s)) = (length pcm + 36)%nat) as Ht
    by (rewrite !length_app; lia).
  unfold authentic, datagram_counter. rewrite take_ge by lia. split; [|by apply packet_counter_app].
  rewrite !byte_at_app_l, Hb0, Hb1 by lia. rewrite (proj2 (Z.ltb_ge _ 36)) by (unfold size_of; lia).
  cbn [orb negb Z.eqb Z.shiftr Z.land]. rewrite Ht.
  replace (length pcm + 36 - 8)%nat with (length (header ++ encrypted)) by (rewrite length_app; lia).
  rewrite (app_assoc header), drop_app_length, <- app_assoc.
  replace (subspan 12 (length pcm + 36 - 12 - 8) (header ++ encrypted ++ store_le64 (counter s))) with encrypted.
  - replace (subspan 4 8 (header ++ _)) with (subspan 4 8 header) by done.
    by apply open_seal_with_nonce.
  - unfold subspan. rewrite <- Hh, drop_app_length, take_app_le, take_ge by lia. done.
Qed.

(** Samples a socket can carry: an even number of octets within a datagram. *)
Definition sendable (turn : AudioTurn) : Prop :=
  forall pcm, next_audio turn = Some pcm -> (length pcm + 36 <= kPacketBytes)%nat.

Lemma audio_stream_from key frame_size turns : (2 | frame_size) -> 0 < frame_size -> forall s accepted,
  Forall sendable turns -> 0 <= counter s -> counter s + Z.of_nat (length turns) < 2 ^ 64 ->
  Forall (fun c => c < counter s) accepted ->
  let sent := audio_sender key frame_size turns s in
  map snd (fresh_deliveries key (map snd sent) accepted) = map fst sent /\
  map (fun p => packet_counter p.2) sent = map (fun n => counter s + Z.of_nat n) (seq 0 (length sent)).
Proof.
  intros Heven Hpos. induction turns as [|turn turns IH]; intros s accepted Hok Hc Hb Ha; [done|].
  apply Forall_cons in Hok as [Hturn Hok]. cbn [audio_sender length] in *.
  destruct (stop_requested turn); [done|]. destruct (next_audio turn) as [pcm|] eqn:En; [|done].
  destruct (_ || _) eqn:Ep; [apply IH; [done..|lia|done]|]. bool_hyps.
  destruct (audio_packet key pcm s) as [packet|] eqn:Eq; [|done]. destruct (negb (send_ok turn)); [done|].
  assert (is_u64 (counter s)) as Hu by (split; lia).
  destruct (audio_packet_authentic _ _ _ _ Eq Hu (Hturn _ En)) as [Hp Hn].
  assert (counter (next_packet frame_size pcm s) = counter s + 1) as Hnext
    by (apply wrap_id; split; lia).
  destruct (IH (next_packet frame_size pcm s) (accepted ++ [counter s])) as [IH1 IH2];
    [done|lia|lia|rewrite Hnext; apply Forall_app; split; [eapply Forall_impl; [exact Ha|]; cbn; lia|constructor; [lia|done]]|].
  cbv zeta. cbn [map fst snd length seq fresh_deliveries]. split.
  - rewrite Hp, Hn. rewrite decide_False.
    2: { intros [Hin|(h & Hin & Hd)%Exists_exists]; rewrite Forall_forall in Ha; apply Ha in Hin; lia. }
    assert (size_of (swap_samples pcm) mod 2 = 0) as ->.
    { unfold size_of. rewrite length_swap_samples. apply Z.mod_divide; [done|].
      etransitivity; [exact Heven|]. apply Z.mod_divide; [lia|done]. }
    cbn [Z.eqb app map snd]. rewrite swap_samples_involutive. by f_equal.
  - f_equal.
    + apply audio_packet_shape in Eq as (encrypted & -> & _). rewrite packet_counter_app by done. lia.
    + rewrite IH2, Hnext, <- seq_shift, map_map. apply map_ext. intros n. lia.
Qed.
End SenderFacts.

(** ** Theorems *)

(** C35. The microphone receiver is its specification. With a window of 64 bits
    it delivers exactly what a receiver that remembers every accepted counter
    would deliver: each authentic datagram unless its counter was accepted
    before or lies 64 or more below the highest one. So no two deliveries ever
    carry the same counter, whatever is injected, reordered or replayed. *)
Theorem microphone_never_replays `{EVP} key datagrams :
  let delivered := microphone_receiver key datagrams new_window in
  delivered = fresh_deliveries key datagrams [] /\
  NoDup (map (fun d => datagram_counter d.1) delivered).
Proof.
  cbv zeta. rewrite (receiver_refines key datagrams new_window []) by done.
  split; [done|]. apply fresh_deliveries_counters.
Qed.

(** Sent audio arrives. For a cipher that meets its documentation, the
    packets of a sender, whatever its source, its stop callback and its socket
    do, count their nonces 0, 1, 2, ... without a gap, and a receiver with the
    same key and an empty window gets from them exactly the samples that were
    sent, in order and in their original byte order. *)
Theorem audio_stream_received `{EVPLaws} key frame_size turns :
  (2 | frame_size) -> 0 < frame_size -> Forall sendable turns ->
  Z.of_nat (length turns) < 2 ^ 64 ->
  let sent := audio_sender key frame_size turns new_sender in
  map (fun p => packet_counter p.2) sent = map Z.of_nat (seq 0 (length sent)) /\
  map snd (microphone_receiver key (map snd sent) new_window) = map fst sent.
Proof.
  intros Heven Hpos Hok Hb. cbv zeta. rewrite (receiver_refines key _ new_window []) by done.
  destruct (audio_stream_from key frame_size turns Heven Hpos new_sender [] Hok ltac:(done) Hb
    ltac:(constructor)) as [H1 H2]. by split.
Qed.

Lemma audio_stream_received_witness :
  let turns := [mkTurn false (Some [1; 2; 3; 4]) true; mkTurn false (Some [5]) true;
                mkTurn false (Some [6; 7; 8; 9]) true; mkTurn false None true] in
  let sent := @audio_sender Toy.toy_evp (repeat 9 32) 4 turns new_sender in
  map fst sent = [[1; 2; 3; 4]; [6; 7; 8; 9]] /\
  map snd (@microphone_receiver Toy.toy_evp (repeat 9 32) (map snd sent) new_window) = map fst sent.
Proof.
  split; [vm_compute; reflexivity|]. pose proof Toy.toy_laws as Hl.
  apply (@audio_stream_received Toy.toy_evp Hl (repeat 9 32) 4
    [mkTurn false (Some [1; 2; 3; 4]) true; mkTurn false (Some [5]) true;
     mkTurn false (Some [6; 7; 8; 9]) true; mkTurn false None true]).
  - by exists 2.
  - done.
  - repeat apply Forall_cons_2; [..|done]; intros pcm [= <-]; apply Nat.leb_le; vm_compute; reflexivity.
  - reflexivity.
Defined.

(** The samples a sender offers before it stops: of the right size, up to the
    first stop request or the end of the source. *)
Fixpoint offered (frame_size : Z) (turns : list AudioTurn) : list Bytes :=
  match turns with
  | [] => []
  | turn :: turns =>
      if stop_requested turn then []
      else match next_audio turn with
      | None => []
      | Some pcm => if (size_of pcm =? 0) || negb (size_of pcm mod frame_size =? 0)
                    then offered frame_size turns else pcm :: offered frame_size turns
      end
  end.

(** When neither the cipher nor the socket fails, everything offered is sent. *)
Lemma offered_is_sent `{EVP} key frame_size turns s :
  Forall (fun turn => send_ok turn = true) turns ->
  (forall pcm s, is_Some (audio_packet key pcm s)) ->
  map fst (audio_sender key frame_size turns s) = offered frame_size turns.
Proof.
  intros Hok Hseal. revert s. induction Hok as [|turn turns Ht _ IH]; intros s; [done|].
  cbn [audio_sender offered]. destruct (stop_requested turn); [done|].
  destruct (next_audio turn) as [pcm|]; [|done]. destruct (_ || _); [apply IH|].
  destruct (Hseal pcm s) as [packet ->]. rewrite Ht. cbn [negb map fst]. f_equal. apply IH.
Qed.
