(* ===== verification/SessionVideo.v ===== *)
(** * The screen stream of the AirPlay session

    [src/src/airplay/session.cpp]: splitting Annex-B input into NAL units, the
    slice header field that begins a picture, access units, the AVCC
    configuration, the wait for a decodable start of a live stream, and the
    encrypted frames of the data socket.  The source of frames, the stop callback
    and the outcome of every [send_all] are arguments. *)

From S2P Require Import Prelude Text Crypto CarplayIpc MediaForwarders SessionAudio.
#[local] Open Scope Z_scope.

(** ** NAL units *)

(** The start code at an offset: its length, or zero. *)
(* src/src/airplay/session.cpp:753-761 h264_nalus (start_code) *)
Definition code_at (input : Bytes) (offset : nat) : nat :=
  if (offset + 4 <=? length input)%nat && (byte_at input offset =? 0) && (byte_at input (offset + 1) =? 0)
     && (byte_at input (offset + 2) =? 0) && (byte_at input (offset + 3) =? 1) then 4
  else if (byte_at input offset =? 0) && (byte_at input (offset + 1) =? 0)
          && (byte_at input (offset + 2) =? 1) then 3
  else 0.

(* src/src/airplay/session.cpp:768-774 h264_nalus (end) *)
Fixpoint scan_end (fuel : nat) (input : Bytes) (end_ : nat) : nat :=
  match fuel with
  | O => end_
  | S fuel =>
      if (end_ + 3 <=? length input)%nat
      then match code_at input end_ with O => scan_end fuel input (end_ + 1) | S _ => end_ end
      else end_
  end.

(* src/src/airplay/session.cpp:767-776 h264_nalus (end) *)
Definition nalu_end (input : Bytes) (start : nat) : nat :=
  let end_ := scan_end (length input) input start in
  if (length input <? end_ + 3)%nat then length input else end_.

Fixpoint h264_nalus_from (fuel : nat) (input : Bytes) (offset : nat) : list Bytes :=
  match fuel with
  | O => []
  | S fuel =>
      if (offset + 3 <=? length input)%nat then
        match code_at input offset with
        | O => h264_nalus_from fuel input (offset + 1)
        | start_code =>
            let start := (offset + start_code)%nat in
            let end_ := nalu_end input start in
            let rest := h264_nalus_from fuel input end_ in
            if (start <? end_)%nat then subspan start (end_ - start) input :: rest else rest
        end
      else []
  end.

(* src/src/airplay/session.cpp:749-783 h264_nalus *)
Definition h264_nalus (input : Bytes) : list Bytes := h264_nalus_from (S (length input)) input 0.

Definition type_of (nalu : Bytes) : Z := Z.land (byte_at nalu 0) 31.

(** ** The first macroblock of a slice *)

(* src/src/airplay/session.cpp:791-800 first_mb_in_slice (rbsp) *)
Fixpoint rbsp_from (fuel : nat) (nalu : Bytes) (index : nat) : Bytes :=
  match fuel with
  | O => []
  | S fuel =>
      if (index <? length nalu)%nat then
        if (index + 2 <? length nalu)%nat && (byte_at nalu index =? 0) && (byte_at nalu (index + 1) =? 0)
           && (byte_at nalu (index + 2) =? 3)
        then 0 :: 0 :: rbsp_from fuel nalu (index + 2)
        else byte_at nalu index :: rbsp_from fuel nalu (index + 1)
      else []
  end.
Definition rbsp_of (nalu : Bytes) : Bytes := rbsp_from (length nalu) nalu 1.

(** [(rbsp[bit_offset / 8] >> (7 - (bit_offset % 8))) & 1U]. *)
Definition bit_at (rbsp : Bytes) (bit_offset : nat) : bool :=
  negb (Z.land (Z.shiftr (byte_at rbsp (bit_offset / 8)) (7 - Z.of_nat (bit_offset mod 8))) 1 =? 0).

(** [bit_offset] and [zero_bits] go up together; the fuel exceeds the limit of
    31 the loop has itself. *)
(* src/src/airplay/session.cpp:801-811 first_mb_in_slice (zero_bits) *)
Fixpoint count_zero_bits (fuel : nat) (rbsp : Bytes) (zero_bits : nat) : option nat :=
  match fuel with
  | O => None
  | S fuel =>
      if (length rbsp * 8 <=? zero_bits)%nat then None
      else if bit_at rbsp zero_bits then Some zero_bits
      else if (31 <? zero_bits + 1)%nat then None
      else count_zero_bits fuel rbsp (zero_bits + 1)
  end.

(* src/src/airplay/session.cpp:813-820 first_mb_in_slice (suffix) *)
Fixpoint read_suffix (count : nat) (rbsp : Bytes) (bit_offset : nat) (suffix : Z) : option Z :=
  match count with
  | O => Some suffix
  | S count =>
      if (length rbsp * 8 <=? bit_offset)%nat then None
      else read_suffix count rbsp (bit_offset + 1)
             (Z.lor (u32 (Z.shiftl suffix 1)) (Z.b2z (bit_at rbsp bit_offset)))
  end.

(* src/src/airplay/session.cpp:785-822 first_mb_in_slice *)
Definition first_mb_in_slice (nalu : Bytes) : option Z :=
  if size_of nalu <? 2 then None
  else
    let rbsp := rbsp_of nalu in
    match count_zero_bits 33 rbsp 0 with
    | None => None
    | Some zero_bits =>
        match read_suffix zero_bits rbsp (zero_bits + 1) 0 with
        | None => None
        | Some suffix => Some (u32 (u32 (Z.shiftl 1 (Z.of_nat zero_bits)) - 1 + suffix))
        end
    end.

(** ** Access units *)

(* src/src/airplay/session.cpp:826-828 h264_access_units (state) *)
Record Grouping := mkGrouping {
  result : list (list Bytes);
  current : list Bytes;
  has_vcl : bool
}.

(* src/src/airplay/session.cpp:829-834 h264_access_units (flush) *)
Definition flush (g : Grouping) : Grouping :=
  match current g with
  | [] => mkGrouping (result g) [] false
  | _ => mkGrouping (result g ++ [current g]) [] false
  end.

Definition is_vcl (nalu : Bytes) : bool := (1 <=? type_of nalu) && (type_of nalu <=? 5).

(** [!first_mb || *first_mb == 0]. *)
Definition begins_picture (nalu : Bytes) : bool :=
  match first_mb_in_slice nalu with None => true | Some first_mb => first_mb =? 0 end.

(* src/src/airplay/session.cpp:835-848 h264_access_units (loop) *)
Definition group_nalu (g : Grouping) (nalu : Bytes) : Grouping :=
  if bytes_eqb nalu [] then g
  else
    let type := type_of nalu in
    let g := if (type =? 9) || (((type =? 7) || (type =? 8)) && has_vcl g) then flush g else g in
    let g := if is_vcl nalu then
               let g := if has_vcl g && begins_picture nalu then flush g else g in
               mkGrouping (result g) (current g) true
             else g in
    mkGrouping (result g) (current g ++ [nalu]) (has_vcl g).

(* src/src/airplay/session.cpp:824-851 h264_access_units *)
Definition h264_access_units (nalus : list Bytes) : list (list Bytes) :=
  result (flush (fold_left group_nalu nalus (mkGrouping [] [] false))).

(** ** The decoder configuration *)

Definition has_type (type : Z) (nalu : Bytes) : bool := negb (bytes_eqb nalu []) && (type_of nalu =? type).

(* src/src/airplay/session.cpp:853-880 avcc_config *)
Definition avcc_config (nalus : list Bytes) : option Bytes :=
  match find (has_type 7) nalus, find (has_type 8) nalus with
  | Some sps, Some pps =>
      if (size_of sps <? 4) || (65535 <? size_of sps) || (65535 <? size_of pps) then None
      else Some ([1; byte_at sps 1; byte_at sps 2; byte_at sps 3; 255; 225;
                  u8 (Z.shiftr (size_of sps) 8); u8 (size_of sps)]
                 ++ sps ++ [1; u8 (Z.shiftr (size_of pps) 8); u8 (size_of pps)] ++ pps)
  | _, _ => None
  end.

(** ** The start of a live stream *)

(* src/src/airplay/session.cpp:2063-2063 run_session (startup limits) *)
Definition kMaximumStartupVideoBytes : Z := 16 * 1024 * 1024.
(* src/src/airplay/session.cpp:2064-2064 run_session (startup limits) *)
Definition kMaximumStartupVideoUnits : Z := 600.

(* src/src/airplay/session.cpp:2052-2066 run_session (startup state) *)
Record Startup := mkStartup {
  nalus : list Bytes;
  initial_access_units : list Bytes;
  startup_video_bytes : Z;
  startup_keyframe : bool
}.

(** The parameter sets of a type seen so far make way for those of this unit. *)
(* src/src/airplay/session.cpp:2105-2116 run_session (startup parameter sets) *)
Definition absorb_nalus (unit_nalus nalus : list Bytes) : list Bytes :=
  fold_left (fun nalus nalu =>
    if bytes_eqb nalu [] || negb ((type_of nalu =? 7) || (type_of nalu =? 8)) then nalus
    else List.filter (fun existing => negb (has_type (type_of nalu) existing)) nalus)
    unit_nalus nalus ++ unit_nalus.

(* src/src/airplay/session.cpp:2096-2123 run_session (startup unit) *)
Definition absorb_unit (access_unit : Bytes) (s : Startup) : Startup :=
  let unit_nalus := h264_nalus access_unit in
  let unit_keyframe := existsb (has_type 5) unit_nalus in
  mkStartup (absorb_nalus unit_nalus (nalus s))
            (if unit_keyframe then [access_unit] else initial_access_units s)
            (startup_video_bytes s + size_of access_unit)
            (startup_keyframe s || unit_keyframe).

Definition new_startup : Startup := mkStartup [] [] 0 false.

(** One turn: the stop callback, the next frame, and the stop callback again when
    there was none. *)
Record StartupTurn := mkStartupTurn {
  stop_before : bool;
  next_video_frame : option Bytes;
  stop_after : bool
}.

Inductive StartupResult :=
| Started (config : Bytes) (s : Startup)
| Ended (exit_code : Z).

(** The loop of a live session; [config] is what the turn before computed, as
    the loop's own condition tests it. A script that ends is a stop request. *)
(* src/src/airplay/session.cpp:2067-2124 run_session (startup loop) *)
Fixpoint startup (turns : list StartupTurn) (config : option Bytes) (s : Startup) : StartupResult :=
  match config, startup_keyframe s with
  | Some config, true => Started config s
  | _, _ =>
      match avcc_config (nalus s), startup_keyframe s with
      | Some config, true => Started config s
      | config, _ =>
          match turns with
          | [] => Ended 0
          | turn :: turns =>
              if stop_before turn then Ended 0
              else match next_video_frame turn with
              | None => if stop_after turn then Ended 0 else Ended 1
              | Some access_unit =>
                  if (kMaximumStartupVideoUnits <=? size_of (initial_access_units s))
                     || (kMaximumStartupVideoBytes - startup_video_bytes s <? size_of access_unit)
                  then Ended 1
                  else startup turns config (absorb_unit access_unit s)
              end
          end
      end
  end.

(** ** The data stream *)

(* src/src/airplay/session.cpp:2149-2151 run_session (config_header) *)
Definition config_header (config : Bytes) : Bytes :=
  store_le32 (u32 (size_of config)) ++ [1] ++ repeat 0 123.

(** The slices of an access unit, each behind its length. *)
(* src/src/airplay/session.cpp:2167-2176 run_session (send_access_unit) *)
Fixpoint frame_of (access_unit : list Bytes) : Bytes :=
  match access_unit with
  | [] => []
  | nalu :: rest =>
      if bytes_eqb nalu [] || negb ((type_of nalu =? 1) || (type_of nalu =? 5)) then frame_of rest
      else [u8 (Z.shiftr (size_of nalu) 24); u8 (Z.shiftr (size_of nalu) 16);
            u8 (Z.shiftr (size_of nalu) 8); u8 (size_of nalu)] ++ nalu ++ frame_of rest
  end.

(* src/src/airplay/session.cpp:2179-2182 run_session (send_access_unit) *)
Definition video_header (frame : Bytes) (frame_counter : Z) : Bytes :=
  store_le32 (u32 (size_of frame + 16)) ++ repeat 0 4 ++ store_le64 frame_counter ++ repeat 0 112.

Section Stream.
Context `{EVP}.

(** The counter, and the octets the data socket has taken. *)
(* src/src/airplay/session.cpp:2162-2164 run_session (frame_counter) *)
Record VideoSender := mkSender {
  frame_counter : Z;
  written : Bytes
}.

(** [io]: whether the header and the payload went out; a send that fails ends
    the stream and what it left on the wire is not recorded. *)
(* src/src/airplay/session.cpp:2165-2199 run_session (send_access_unit) *)
Definition send_access_unit (key : Bytes) (access_unit : list Bytes) (io : bool * bool) (s : VideoSender)
    : bool * VideoSender :=
  let frame := frame_of access_unit in
  if bytes_eqb frame [] then (true, s)
  else
    let header := video_header frame (frame_counter s) in
    match seal_with_nonce key (nonce12 (frame_counter s)) frame header with
    | None => (false, s)
    | Some encrypted =>
        if negb io.1 then (false, s)
        else if negb io.2 then (false, mkSender (frame_counter s) (written s ++ header))
        else (true, mkSender (u64 (frame_counter s + 1)) (written s ++ header ++ encrypted))
    end.

(** One turn of a sending loop: the stop callback, the frame the source gives
    ([None]: it ended) and what the socket does. *)
Record VideoTurn := mkVideoTurn {
  video_stop : bool;
  video_frame : option Bytes;
  video_io : bool * bool
}.

(** The exit code 0 is the end of the stream, a stop request or the end of the
    script. *)
(* src/src/airplay/session.cpp:2224-2236 run_session (live loop) *)
Fixpoint live_loop (key : Bytes) (turns : list VideoTurn) (s : VideoSender) : Z * VideoSender :=
  match turns with
  | [] => (0, s)
  | turn :: turns =>
      if video_stop turn then (0, s)
      else match video_frame turn with
      | None => (0, s)
      | Some access_unit =>
          let '(ok, s) := send_access_unit key (h264_nalus access_unit) (video_io turn) s in
          if negb ok then (1, s) else live_loop key turns s
      end
  end.

(** The units of a recording, each with the stop callback before it and what the
    socket does; [None]: the loop ran to its end. *)
(* src/src/airplay/session.cpp:2200-2214 run_session (static loop) *)
Fixpoint static_loop (key : Bytes) (units : list (list Bytes * bool * (bool * bool))) (s : VideoSender)
    : option Z * VideoSender :=
  match units with
  | [] => (None, s)
  | (access_unit, stop, io) :: units =>
      if stop : bool then (Some 0, s)
      else
        let '(ok, s) := send_access_unit key access_unit io s in
        if negb ok then (Some 1, s) else static_loop key units s
  end.

(* src/src/airplay/session.cpp:2215-2223 run_session (initial units) *)
Fixpoint initial_loop (key : Bytes) (units : list (Bytes * (bool * bool))) (s : VideoSender)
    : bool * VideoSender :=
  match units with
  | [] => (true, s)
  | (access_unit, io) :: units =>
      let '(ok, s) := send_access_unit key (h264_nalus access_unit) io s in
      if negb ok then (false, s) else initial_loop key units s
  end.

(** From the configuration to the end of the stream; [config_io] is whether the
    two parts of the configuration went out. A live session has no [recording],
    a recording neither [units] nor [turns]. *)
(* src/src/airplay/session.cpp:2149-2243 run_session (data stream) *)
Definition data_stream (key config : Bytes) (config_io : bool * bool)
    (recording : list (list Bytes * bool * (bool * bool))) (units : list (Bytes * (bool * bool)))
    (turns : list VideoTurn) : Z * VideoSender :=
  if negb config_io.1 then (1, mkSender 0 [])
  else if negb config_io.2 then (1, mkSender 0 (config_header config))
  else match static_loop key recording (mkSender 0 (config_header config ++ config)) with
  | (Some exit_code, s) => (exit_code, s)
  | (None, s) =>
      let '(ok, s) := initial_loop key units s in
      if negb ok then (1, s) else live_loop key turns s
  end.
End Stream.

(** ** Facts: NAL units *)

Lemma byte_at_drop l offset i : byte_at (drop offset l) i = byte_at l (offset + i).
Proof. unfold byte_at. rewrite !nth_lookup, lookup_drop. done. Qed.

Lemma drop_byte_at l i : (i < length l)%nat -> drop i l = byte_at l i :: drop (S i) l.
Proof.
  intros Hi. apply lookup_lt_is_Some in Hi as [x Hx]. rewrite (drop_S _ _ _ Hx).
  unfold byte_at. by rewrite nth_lookup, Hx.
Qed.

Lemma code_at_start input offset :
  (offset + 3 <= length input)%nat ->
  start_code (drop offset input) = match code_at input offset with O => None | code => Some code end.
Proof.
  intros Hl. unfold start_code, three, four, code_at. rewrite !byte_at_drop, length_drop, Nat.add_0_r.
  rewrite (proj2 (Nat.leb_le 3 _)) by lia. cbn [andb].
  assert ((4 <=? length input - offset)%nat = (offset + 4 <=? length input)%nat) as ->.
  { destruct (offset + 4 <=? length input)%nat eqn:E; [apply Nat.leb_le in E; apply Nat.leb_le; lia|].
    apply Nat.leb_gt in E. apply Nat.leb_gt. lia. }
  destruct (offset + 4 <=? length input)%nat, (byte_at input offset =? 0), (byte_at input (offset + 1) =? 0),
    (byte_at input (offset + 2) =? 0), (byte_at input (offset + 2) =? 1), (byte_at input (offset + 3) =? 1); done.
Qed.

Lemma code_at_bound input offset :
  (offset + 3 <= length input)%nat -> (offset + code_at input offset <= length input)%nat.
Proof.
  intros Hl. unfold code_at. destruct (offset + 4 <=? length input)%nat eqn:E; cbn [andb].
  - apply Nat.leb_le in E. destruct (_ && _); [lia|]. destruct (_ && _); lia.
  - destruct (_ && _); lia.
Qed.

Lemma no_code_short l : (length l < 3)%nat -> start_code l = None.
Proof. intros Hl. destruct l as [|? [|? [|? ?]]]; simpl in Hl; done || lia. Qed.

Lemma nalu_length_short l : (length l < 3)%nat -> nalu_length l = length l.
Proof.
  induction l as [|x l IH]; intros Hl; [done|]. cbn [nalu_length]. rewrite no_code_short by done.
  cbn [length] in *. f_equal. apply IH. lia.
Qed.

Lemma nalu_end_length fuel input end_ :
  (end_ <= length input)%nat -> (length input - end_ <= fuel)%nat ->
  (let e := scan_end fuel input end_ in if (length input <? e + 3)%nat then length input else e)
  = (end_ + nalu_length (drop end_ input))%nat.
Proof.
  revert end_. induction fuel as [|fuel IH]; intros end_ He Hf; cbn [scan_end].
  - rewrite (proj2 (Nat.ltb_lt _ _)) by lia. rewrite drop_ge by lia. cbn. lia.
  - destruct (end_ + 3 <=? length input)%nat eqn:E.
    + apply Nat.leb_le in E. pose proof (code_at_start input end_ E) as Hs.
      rewrite (drop_byte_at input end_) in * by lia. cbn [nalu_length] in *.
      destruct (code_at input end_) as [|k]; rewrite Hs.
      * rewrite IH by lia. replace (end_ + 1)%nat with (S end_) by lia. lia.
      * rewrite (proj2 (Nat.ltb_ge _ _)) by lia. lia.
    + apply Nat.leb_gt in E. rewrite (proj2 (Nat.ltb_lt _ _)) by lia.
      rewrite nalu_length_short, length_drop by (rewrite length_drop; lia). lia.
Qed.

Lemma nalus_from_short fuel l : (length l < 3)%nat -> nalus_from fuel l = [].
Proof.
  revert l. induction fuel as [|fuel IH]; intros l Hl; [done|]. cbn [nalus_from].
  rewrite no_code_short by done. destruct l; [done|]. apply IH. simpl in Hl. lia.
Qed.

Lemma h264_nalus_from_eq fuel : forall fuel' input offset,
  (length input - offset < fuel)%nat -> (length input - offset <= fuel')%nat ->
  h264_nalus_from fuel input offset = nalus_from fuel' (drop offset input).
Proof.
  induction fuel as [|fuel IH]; intros fuel' input offset Hf Hf'; [lia|]. cbn [h264_nalus_from].
  destruct (offset + 3 <=? length input)%nat eqn:E.
  2: { apply Nat.leb_gt in E. rewrite nalus_from_short by (rewrite length_drop; lia). done. }
  apply Nat.leb_le in E. destruct fuel' as [|fuel']; [lia|]. cbn [nalus_from].
  pose proof (code_at_bound input offset E) as Hb. rewrite code_at_start by done.
  destruct (code_at input offset) as [|k].
  - rewrite (drop_byte_at input offset) by lia. rewrite Nat.add_1_r. apply IH; lia.
  - assert (nalu_end input (offset + S k) = (offset + S k + nalu_length (drop (offset + S k) input))%nat) as He
      by (apply nalu_end_length; lia).
    rewrite He, drop_drop. rewrite (IH fuel') by lia. rewrite drop_drop.
    destruct (nalu_length (drop (offset + S k) input)) as [|n].
    + rewrite (proj2 (Nat.ltb_ge _ _)) by lia. by rewrite Nat.add_0_r.
    + rewrite (proj2 (Nat.ltb_lt _ _)) by lia. unfold subspan. do 2 f_equal. lia.
Qed.

(** ** Facts: the slice header *)

Lemma rbsp_from_raw fuel : forall nalu index,
  (length nalu - index <= fuel)%nat -> rbsp_from fuel nalu index = drop index nalu.
Proof.
  induction fuel as [|fuel IH]; intros nalu index Hf; cbn [rbsp_from]; [by rewrite drop_ge by lia|].
  destruct (index <? length nalu)%nat eqn:E; [apply Nat.ltb_lt in E|apply Nat.ltb_ge in E; by rewrite drop_ge].
  rewrite (drop_byte_at nalu index) by done. destruct (_ && _) eqn:Ep.
  - apply andb_prop in Ep as [[[El Ea]%andb_prop Eb]%andb_prop Ec]. bool_hyps. apply Nat.ltb_lt in El.
    rewrite IH by lia. rewrite (drop_byte_at nalu (S index)) by lia.
    replace (S index) with (index + 1)%nat by lia. rewrite Ea, Eb. do 3 f_equal. lia.
  - rewrite IH by lia. by rewrite Nat.add_1_r.
Qed.

Lemma rbsp_of_raw nalu : rbsp_of nalu = drop 1 nalu.
Proof. apply rbsp_from_raw. lia. Qed.

Lemma count_zero_bits_spec fuel rbsp n k :
  (forall i, (i < n)%nat -> bit_at rbsp i = false) -> bit_at rbsp n = true ->
  (n <= 31)%nat -> (n < length rbsp * 8)%nat -> (k <= n)%nat -> (n - k < fuel)%nat ->
  count_zero_bits fuel rbsp k = Some n.
Proof.
  intros Hz Hone Hn Hl. revert k. induction fuel as [|fuel IH]; intros k Hk Hf; [lia|]. cbn [count_zero_bits].
  rewrite (proj2 (Nat.leb_gt _ _)) by lia. destruct (decide (k = n)) as [->|Hne]; [by rewrite Hone|].
  rewrite Hz by lia. rewrite (proj2 (Nat.ltb_ge _ _)) by lia. apply IH; lia.
Qed.

Lemma read_suffix_spec rbsp value : 0 <= value < 2 ^ 32 -> forall count bit_offset suffix,
  (bit_offset + count <= length rbsp * 8)%nat -> suffix = Z.shiftr value (Z.of_nat count) ->
  (forall j, (j < count)%nat -> bit_at rbsp (bit_offset + j) = Z.testbit value (Z.of_nat (count - 1 - j))) ->
  read_suffix count rbsp bit_offset suffix = Some value.
Proof.
  intros Hv count. induction count as [|count IH]; intros bit_offset suffix Hl Hs Hb; cbn [read_suffix].
  - rewrite Hs. cbn. by rewrite Z.shiftr_0_r.
  - rewrite (proj2 (Nat.leb_gt _ _)) by lia. apply IH; [lia| |].
    + specialize (Hb 0%nat ltac:(lia)). rewrite Nat.add_0_r in Hb. rewrite Hb.
      replace (S count - 1 - 0)%nat with count by lia. rewrite Hs. clear Hs Hb IH.
      apply Z.bits_inj'. intros i Hi. rewrite Z.lor_spec, wrap_bit, Z.shiftl_spec by done.
      rewrite (Z.shiftr_spec value (Z.of_nat count) i) by done. destruct (Z.eq_dec i 0) as [->|Hne].
      * rewrite Z.testbit_neg_r, andb_false_r by lia. by destruct (Z.testbit value _).
      * assert (Z.testbit (Z.b2z (Z.testbit value (Z.of_nat count))) i = false) as ->
          by (destruct (Z.testbit value _); [apply (Z.bits_above_log2 1); cbn; lia|apply Z.bits_0]).
        rewrite Z.shiftr_spec, orb_false_r by lia. replace (i - 1 + Z.of_nat (S count)) with (i + Z.of_nat count) by lia.
        destruct (i <? 32) eqn:E; [done|]. bool_hyps. cbn [andb]. symmetry.
        destruct (Z.eq_dec value 0) as [->|Hv0]; [apply Z.bits_0|]. apply Z.bits_above_log2; [lia|].
        apply Z.log2_lt_pow2; [lia|]. eapply Z.lt_le_trans; [apply Hv|]. apply Z.pow_le_mono_r; lia.
    + intros j Hj. specialize (Hb (S j) ltac:(lia)). replace (bit_offset + S j)%nat with (bit_offset + 1 + j)%nat in Hb by lia.
      rewrite Hb. do 2 f_equal. lia.
Qed.

(** ** Facts: access units *)

Definition starts_unit (unit_has_vcl : bool) (nalu : Bytes) : bool :=
  (type_of nalu =? 9) || (((type_of nalu =? 7) || (type_of nalu =? 8)) && unit_has_vcl)
  || (is_vcl nalu && unit_has_vcl && begins_picture nalu).

(** The specification of the grouping: a NAL unit opens a new access unit exactly
    when it must, and otherwise joins the one before. *)
Inductive grouped : list (list Bytes) -> Prop :=
| grouped_nil : grouped []
| grouped_first nalu : grouped [[nalu]]
| grouped_new units unit nalu :
    grouped (units ++ [unit]) -> starts_unit (existsb is_vcl unit) nalu = true ->
    grouped ((units ++ [unit]) ++ [[nalu]])
| grouped_same units unit nalu :
    grouped (units ++ [unit]) -> starts_unit (existsb is_vcl unit) nalu = false ->
    grouped (units ++ [unit ++ [nalu]]).

Definition units_of (g : Grouping) : list (list Bytes) :=
  match current g with [] => result g | _ => result g ++ [current g] end.

Definition grouping_ok (seen : list Bytes) (g : Grouping) : Prop :=
  grouped (units_of g) /\ concat (units_of g) = List.filter (fun n => negb (bytes_eqb n [])) seen /\
  has_vcl g = existsb is_vcl (current g) /\ (current g = [] -> result g = []).

Lemma group_nalu_eq g nalu :
  nalu <> [] -> has_vcl g = existsb is_vcl (current g) ->
  group_nalu g nalu =
    let g' := if starts_unit (has_vcl g) nalu then flush g else g in
    mkGrouping (result g') (current g' ++ [nalu]) (has_vcl g' || is_vcl nalu).
Proof.
  intros Hne Hv. unfold group_nalu. rewrite (bool_decide_eq_false_2 _ Hne : bytes_eqb nalu [] = false).
  cbv zeta. unfold starts_unit, is_vcl.
  assert (has_vcl (flush g) = false) as Hf by (unfold flush; by destruct (current g)).
  destruct (type_of nalu =? 9) eqn:E9; bool_hyps.
  { rewrite E9. cbn. by rewrite orb_false_r. }
  destruct (type_of nalu =? 7) eqn:E7; bool_hyps.
  { rewrite E7. cbn. destruct (has_vcl g) eqn:Eh; cbn; by rewrite ?Hf, ?Eh. }
  destruct (type_of nalu =? 8) eqn:E8; bool_hyps.
  { rewrite E8. cbn. destruct (has_vcl g) eqn:Eh; cbn; by rewrite ?Hf, ?Eh. }
  cbn [orb andb]. destruct (_ && _) eqn:Evcl; cbn [andb].
  - destruct (has_vcl g && begins_picture nalu); by rewrite orb_true_r.
  - by rewrite orb_false_r.
Qed.

Lemma group_nalu_ok seen g nalu : grouping_ok seen g -> grouping_ok (seen ++ [nalu]) (group_nalu g nalu).
Proof.
  intros (Hg & Hc & Hv & He). unfold grouping_ok. rewrite List.filter_app. cbn [List.filter].
  destruct (decide (nalu = [])) as [->|Hne]; [cbn; by rewrite app_nil_r|].
  rewrite group_nalu_eq by done. rewrite (bool_decide_eq_false_2 _ Hne : bytes_eqb nalu [] = false).
  cbn [negb]. rewrite <- Hc. destruct g as [units unit vcl]. cbn [result current has_vcl] in *. subst vcl.
  unfold units_of in *. cbn [current result] in *. destruct unit as [|n unit].
  - specialize (He eq_refl) as ->. cbn. destruct (starts_unit _ _); cbn; split_and!; try done;
      (apply grouped_first || by rewrite orb_false_r || done).
  - destruct (starts_unit _ _) eqn:Es; unfold flush; cbn [current result has_vcl app]; split_and!.
    + by apply grouped_new.
    + by rewrite concat_app.
    + cbn. by destruct (is_vcl nalu).
    + done.
    + by apply (grouped_same units (n :: unit) nalu).
    + rewrite !concat_app. cbn. rewrite !app_nil_r. by rewrite <- app_assoc.
    + rewrite (app_comm_cons unit [nalu] n), existsb_app. cbn. by rewrite orb_false_r.
    + done.
Qed.

Lemma group_nalus_ok nalus_ : forall seen g,
  grouping_ok seen g -> grouping_ok (seen ++ nalus_) (fold_left group_nalu nalus_ g).
Proof.
  induction nalus_ as [|n ns IH]; intros seen g Hg; cbn [fold_left]; [by rewrite app_nil_r|].
  replace (seen ++ n :: ns) with ((seen ++ [n]) ++ ns) by by rewrite <- app_assoc.
  by apply IH, group_nalu_ok.
Qed.

(** The slices that begin a picture. *)
Definition picture_starts (unit : list Bytes) : list Bytes :=
  List.filter (fun n => is_vcl n && begins_picture n) unit.

Lemma grouped_one_picture units :
  grouped units ->
  Forall (fun unit => unit <> [] /\ (length (picture_starts unit) <= 1)%nat /\
                      (existsb is_vcl unit = false -> picture_starts unit = [])) units.
Proof.
  induction 1 as [|n|units unit n _ IH Hs|units unit n _ IH Hs].
  - constructor.
  - constructor; [|done]. split; [done|]. unfold picture_starts. cbn.
    destruct (is_vcl n), (begins_picture n); cbn; split; done || lia.
  - apply Forall_app. split; [done|]. constructor; [|done]. split; [done|]. unfold picture_starts. cbn.
    destruct (is_vcl n), (begins_picture n); cbn; split; done || lia.
  - apply Forall_app in IH as [Hi Hu]. apply Forall_app. split; [done|].
    apply Forall_cons in Hu as [(Hne & Hl & Hnone) _]. constructor; [|done]. split; [by destruct unit|].
    unfold picture_starts in *. rewrite List.filter_app, existsb_app. cbn. unfold starts_unit in Hs.
    apply orb_false_iff in Hs as [_ Hs]. destruct (is_vcl n); cbn in *; [|by rewrite app_nil_r, orb_false_r].
    rewrite orb_true_r. split; [|done]. destruct (existsb is_vcl unit); cbn in Hs.
    + rewrite Hs. by rewrite app_nil_r.
    + rewrite Hnone by done. destruct (begins_picture n); cbn; lia.
Qed.

(** ** Facts: the start of a live stream *)

Definition seen_nalus (seen : list Bytes) : list Bytes := concat (map h264_nalus seen).

(** The configuration of a sequence and a picture parameter set among the units
    seen. *)
Definition config_from (seen : list Bytes) (config : Bytes) : Prop :=
  exists sps pps, sps ∈ seen_nalus seen /\ pps ∈ seen_nalus seen /\
    has_type 7 sps = true /\ has_type 8 pps = true /\ avcc_config [sps; pps] = Some config.

Definition startup_ok (seen : list Bytes) (config : option Bytes) (s : Startup) : Prop :=
  (if startup_keyframe s
   then exists u, initial_access_units s = [u] /\ u ∈ seen /\ existsb (has_type 5) (h264_nalus u) = true
   else initial_access_units s = []) /\
  startup_video_bytes s = total seen /\ total seen <= kMaximumStartupVideoBytes /\
  (forall n, n ∈ nalus s -> n ∈ seen_nalus seen) /\
  (forall c, config = Some c -> config_from seen c).

Lemma config_from_mono seen more c : config_from seen c -> config_from (seen ++ more) c.
Proof.
  unfold config_from, seen_nalus. rewrite map_app, concat_app.
  intros (sps & pps & H1 & H2 & H3). exists sps, pps. rewrite !elem_of_app. tauto.
Qed.

Lemma has_type_other a b n : has_type a n = true -> a <> b -> has_type b n = false.
Proof.
  unfold has_type. intros [-> E]%andb_prop Hne. bool_hyps. rewrite E. cbn. by apply Z.eqb_neq.
Qed.

Lemma avcc_config_from seen s c :
  (forall n, n ∈ nalus s -> n ∈ seen_nalus seen) -> avcc_config (nalus s) = Some c -> config_from seen c.
Proof.
  intros Hin. unfold avcc_config at 1. destruct (find (has_type 7) _) as [sps|] eqn:E7; [|done].
  destruct (find (has_type 8) _) as [pps|] eqn:E8; [|done]. intros Hc.
  apply find_some in E7 as [Hs7 Ht7], E8 as [Hs8 Ht8]. exists sps, pps.
  split_and!; [by apply Hin, list_elem_of_In|by apply Hin, list_elem_of_In|done|done|].
  unfold avcc_config. cbn [find]. by rewrite Ht7, (has_type_other _ 8 _ Ht7), Ht8.
Qed.

Lemma absorb_nalus_in units nalus_ n : n ∈ absorb_nalus units nalus_ -> n ∈ nalus_ \/ n ∈ units.
Proof.
  unfold absorb_nalus. rewrite elem_of_app. intros [Hf|?]; [left|by right]. revert nalus_ Hf.
  induction units as [|u us IH]; intros ns Hf; cbn [fold_left] in Hf; [done|].
  apply IH in Hf. destruct (_ || _); [done|]. rewrite list_elem_of_In in *.
  by apply filter_In in Hf as [? _].
Qed.

Lemma absorb_unit_ok seen config s access_unit :
  startup_ok seen config s -> startup_video_bytes s + size_of access_unit <= kMaximumStartupVideoBytes ->
  startup_ok (seen ++ [access_unit]) config (absorb_unit access_unit s).
Proof.
  intros (Hk & Hb & Hm & Hn & Hc) Hle. unfold startup_ok, absorb_unit.
  cbn [startup_keyframe initial_access_units startup_video_bytes nalus]. rewrite total_snoc. split_and!.
  - destruct (existsb (has_type 5) (h264_nalus access_unit)) eqn:Ek.
    + rewrite orb_true_r. exists access_unit. split_and!; [done| |done].
      apply elem_of_app. right. by apply list_elem_of_singleton.
    + rewrite orb_false_r. destruct (startup_keyframe s); [|done].
      destruct Hk as (u & H1 & H2 & H3). exists u. rewrite elem_of_app. tauto.
  - lia.
  - lia.
  - intros n Hin. unfold seen_nalus in *. rewrite map_app, concat_app, elem_of_app.
    apply absorb_nalus_in in Hin as [Hin|Hin]; [left; by apply Hn|right]. cbn. by rewrite app_nil_r.
  - intros c Hcc. by apply config_from_mono, Hc.
Qed.

(** The limit on the number of buffered units is never met: at most one unit is
    ever kept. *)
Lemma unit_limit_never_met seen config s :
  startup_ok seen config s -> (kMaximumStartupVideoUnits <=? size_of (initial_access_units s)) = false.
Proof.
  intros (Hk & _). destruct (startup_keyframe s); [destruct Hk as (u & -> & _)|rewrite Hk]; done.
Qed.

(** What the loop's two tests find before it asks for another frame. *)
Definition ready (config : option Bytes) (s : Startup) : option Bytes :=
  if startup_keyframe s then match config with Some c => Some c | None => avcc_config (nalus s) end
  else None.

Lemma startup_unfold turns config s :
  startup turns config s =
    match ready config s with
    | Some config => Started config s
    | None =>
        match turns with
        | [] => Ended 0
        | turn :: turns =>
            if stop_before turn then Ended 0
            else match next_video_frame turn with
            | None => if stop_after turn then Ended 0 else Ended 1
            | Some access_unit =>
                if (kMaximumStartupVideoUnits <=? size_of (initial_access_units s))
                   || (kMaximumStartupVideoBytes - startup_video_bytes s <? size_of access_unit)
                then Ended 1
                else startup turns (avcc_config (nalus s)) (absorb_unit access_unit s)
            end
        end
    end.
Proof.
  unfold ready. destruct turns; cbn [startup]; destruct config, (startup_keyframe s), (avcc_config (nalus s)); done.
Qed.

Lemma ready_from seen config s c :
  startup_ok seen config s -> ready config s = Some c -> startup_ok seen (Some c) s /\ startup_keyframe s = true.
Proof.
  intros (Hk & Hb & Hm & Hn & Hc). unfold ready. destruct (startup_keyframe s) eqn:E; [|done]. intros Hr.
  split; [|done]. unfold startup_ok. rewrite E. split_and!; try done. intros c' [= <-].
  destruct config as [c0|]; [simplify_eq; by apply Hc|by eapply avcc_config_from].
Qed.

Lemma startup_spec turns : forall config s seen config' s',
  startup_ok seen config s -> startup turns config s = Started config' s' ->
  exists more rest, omap next_video_frame turns = more ++ rest /\
    startup_ok (seen ++ more) (Some config') s' /\ startup_keyframe s' = true.
Proof.
  induction turns as [|turn turns IH]; intros config s seen config' s' Hs; rewrite startup_unfold;
    (destruct (ready config s) as [c|] eqn:Er;
     [intros [= <- <-]; eexists [], _; rewrite (app_nil_r seen); split; [reflexivity|exact (ready_from _ _ _ _ Hs Er)]|]);
    [done|].
  destruct (stop_before turn); [done|]. cbn [omap list_omap].
  destruct (next_video_frame turn) as [u|] eqn:En; [|by destruct (stop_after turn)].
  rewrite (unit_limit_never_met seen config s Hs). cbn [orb].
  destruct (_ <? _) eqn:E; [done|]. bool_hyps. intros H.
  assert (startup_ok seen (avcc_config (nalus s)) s) as Hs'.
  { destruct Hs as (?&?&?&Hn&_). split_and!; try done. intros c Hc. by eapply avcc_config_from. }
  eapply IH in H as (more & rest & -> & Hok & Hk); [|apply (absorb_unit_ok seen _ s u Hs'); lia].
  exists (u :: more), rest. split_and!; [done| |done]. by rewrite <- app_assoc in Hok.
Qed.

(** ** The data stream as its receiver reads it *)

Definition slices (access_unit : list Bytes) : list Bytes :=
  List.filter (fun n => negb (bytes_eqb n []) && ((type_of n =? 1) || (type_of n =? 5))) access_unit.

(** A reader written from the format alone: every message is a header of 128
    octets with the little-endian size of the payload first, a one in the fifth
    octet for the configuration and a zero for a frame; a frame is sealed with
    its header as associated data under the counter in the header, which has to
    be the expected one; a slice follows its big-endian length. *)
Module Receiver.
Section Receiver.
Context `{EVP}.

Fixpoint split_frame (fuel : nat) (frame : Bytes) : option (list Bytes) :=
  match fuel, frame with
  | _, [] => Some []
  | O, _ => None
  | S fuel, _ =>
      let rest := drop 4 frame in
      let n := be_value (take 4 frame) in
      if (size_of frame <? 4) || (size_of rest <? n) then None
      else match split_frame fuel (drop (Z.to_nat n) rest) with
           | Some ns => Some (take (Z.to_nat n) rest :: ns)
           | None => None
           end
  end.

Fixpoint frames (fuel : nat) (key : Bytes) (expected : Z) (stream : Bytes) : option (list (list Bytes)) :=
  match fuel, stream with
  | _, [] => Some []
  | O, _ => None
  | S fuel, _ =>
      let header := take 128 stream in
      let rest := drop 128 stream in
      let n := Z.to_nat (le_value (take 4 header)) in
      let counter := le_value (subspan 8 8 header) in
      if (size_of stream <? 128) || (size_of rest <? Z.of_nat n) || negb (byte_at header 4 =? 0)
         || negb (counter =? expected) then None
      else match open_with_nonce key (nonce12 counter) (take n rest) header with
      | None => None
      | Some frame =>
          match split_frame (length frame) frame, frames fuel key (expected + 1) (drop n rest) with
          | Some ns, Some more => Some (ns :: more)
          | _, _ => None
          end
      end
  end.

Definition read (key stream : Bytes) : option (Bytes * list (list Bytes)) :=
  let header := take 128 stream in
  let rest := drop 128 stream in
  let n := Z.to_nat (le_value (take 4 header)) in
  if (size_of stream <? 128) || (size_of rest <? Z.of_nat n) || negb (byte_at header 4 =? 1) then None
  else match frames (length stream) key 0 (drop n rest) with
       | Some units => Some (take n rest, units)
       | None => None
       end.
End Receiver.
End Receiver.

Lemma frame_of_slices access_unit :
  frame_of access_unit = concat (map (fun n => be_bytes 4 (size_of n) ++ n) (slices access_unit)).
Proof.
  induction access_unit as [|n ns IH]; [done|]. cbn [frame_of]. unfold slices. cbn [List.filter].
  destruct (bytes_eqb n []); cbn [orb andb negb]; [exact IH|].
  destruct (_ || _); cbn [negb]; [|exact IH]. cbn [map concat]. fold (slices ns). rewrite <- IH, <- app_assoc.
  cbn -[Z.shiftr]. by rewrite Z.shiftr_0_r.
Qed.

Lemma split_frame_slices ns : forall fuel,
  Forall (fun n => size_of n < 2 ^ 32) ns ->
  (length (concat (map (fun n => be_bytes 4 (size_of n) ++ n) ns)) <= fuel)%nat ->
  Receiver.split_frame fuel (concat (map (fun n => be_bytes 4 (size_of n) ++ n) ns)) = Some ns.
Proof.
  induction ns as [|n ns IH]; intros fuel Hs Hf; [by destruct fuel|].
  apply Forall_cons in Hs as [Hn Hs]. cbn [map concat] in *. rewrite <- app_assoc in *.
  set (rest := concat _) in *. rewrite !length_app, length_be_bytes in Hf.
  destruct fuel as [|fuel]; [lia|]. pose proof (size_nonneg n) as Hz.
  assert (be_value (take 4 (be_bytes 4 (size_of n) ++ n ++ rest)) = size_of n) as Hv.
  { rewrite take_app_le, take_ge by (rewrite length_be_bytes; lia). apply be_value_bytes_id. cbn. lia. }
  assert (drop 4 (be_bytes 4 (size_of n) ++ n ++ rest) = n ++ rest) as Hd by done.
  cbn [Receiver.split_frame]. rewrite Hv, Hd.
  destruct (be_bytes 4 (size_of n) ++ n ++ rest) as [|x l] eqn:E; [done|]. rewrite <- E.
  rewrite (proj2 (Z.ltb_ge _ 4)) by (rewrite !size_app; unfold size_of in *; rewrite length_be_bytes; lia).
  rewrite (proj2 (Z.ltb_ge _ (size_of n))) by (rewrite size_app; pose proof (size_nonneg rest); lia). cbn [orb].
  unfold size_of. rewrite Nat2Z.id, drop_app_length, take_app_length.
  by rewrite IH by (done || lia).
Qed.

Lemma length_video_header frame c : length (video_header frame c) = 128%nat.
Proof. done. Qed.

Lemma store_le32_value x : le_value (store_le32 (u32 x)) = u32 x.
Proof.
  unfold store_le32.
  assert (map (fun index => u8 (Z.shiftr (u32 x) (Z.of_nat index * 8))) (seq 0 4) = le_bytes 4 (u32 x)) as ->.
  { cbn [seq map le_bytes]. by rewrite !Z.shiftr_shiftr by lia. }
  apply le_value_bytes. apply (wrap_is_u 32 x ltac:(lia)).
Qed.

Lemma store_le64_value c : is_u64 c -> le_value (store_le64 c) = c.
Proof. intros Hc. rewrite store_le64_bytes. by apply le_value_bytes. Qed.

Section StreamFacts.
Context `{EVPLaws}.

(** What the units put on the wire from a counter on. *)
Fixpoint wire (key : Bytes) (counter : Z) (units : list (list Bytes)) : option (Bytes * Z) :=
  match units with
  | [] => Some ([], counter)
  | u :: units =>
      if bytes_eqb (frame_of u) [] then wire key counter units
      else
        let header := video_header (frame_of u) counter in
        encrypted ← seal_with_nonce key (nonce12 counter) (frame_of u) header;
        '(rest, last) ← wire key (u64 (counter + 1)) units;
        Some (header ++ encrypted ++ rest, last)
  end.

Lemma wire_app key us vs : forall c w c' w' c'',
  wire key c us = Some (w, c') -> wire key c' vs = Some (w', c'') ->
  wire key c (us ++ vs) = Some (w ++ w', c'').
Proof.
  induction us as [|u us IH]; intros c w c' w' c'' H1 H2; cbn [wire app] in *; [by simplify_eq|].
  destruct (bytes_eqb (frame_of u) []); [by eapply IH|].
  destruct (seal_with_nonce _ _ _ _) as [e|]; [|done]. cbn [mbind option_bind] in *.
  destruct (wire key (u64 (c + 1)) us) as [[r l]|] eqn:E; [|done]. cbn in H1. simplify_eq.
  rewrite (IH _ _ _ _ _ E H2). cbn. by rewrite <- !app_assoc.
Qed.

Definition shown (units : list (list Bytes)) : list (list Bytes) :=
  List.filter (fun ns => negb (bool_decide (ns = []))) (map slices units).

Lemma frame_of_nil u : bytes_eqb (frame_of u) [] = bool_decide (slices u = []).
Proof.
  rewrite frame_of_slices. destruct (slices u) as [|n ns]; [done|].
  rewrite bool_decide_eq_false_2 by done. unfold bytes_eqb. by apply bool_decide_eq_false_2.
Qed.

Lemma wire_read key units : forall c w c' fuel,
  wire key c units = Some (w, c') -> 0 <= c -> c + size_of units < 2 ^ 64 ->
  Forall (fun u => size_of (frame_of u) + 16 < 2 ^ 32) units -> (length w <= fuel)%nat ->
  Receiver.frames fuel key c w = Some (shown units).
Proof.
  unfold shown. induction units as [|u units IH]; intros c w c' fuel Hw Hc Hb Hs Hf; cbn [wire] in Hw.
  { simplify_eq. by destruct fuel. }
  apply Forall_cons in Hs as [Hu Hs]. rewrite size_cons in Hb. pose proof (size_nonneg units).
  cbn [map List.filter]. rewrite <- frame_of_nil. destruct (bytes_eqb (frame_of u) []) eqn:E0; cbn [negb].
  { eapply IH; try done; lia. }
  set (header := video_header (frame_of u) c) in *.
  destruct (seal_with_nonce _ _ _ _) as [e|] eqn:Es; [|done]. cbn [mbind option_bind] in Hw.
  assert (u64 (c + 1) = c + 1) as Hw1 by (apply wrap_id; split; lia). rewrite Hw1 in Hw.
  destruct (wire key (c + 1) units) as [[r l]|] eqn:Er; [|done]. cbn [mbind option_bind] in Hw.
  apply (inj Some), pair_eq in Hw as [<- <-].
  assert (length header = 128%nat) as Hh by apply length_video_header.
  pose proof (seal_with_nonce_length _ _ _ _ _ Es) as He.
  rewrite !length_app, Hh in Hf. destruct fuel as [|fuel]; [lia|]. cbn [Receiver.frames].
  destruct (header ++ e ++ r) as [|x t] eqn:Et; [done|]. rewrite <- Et. clear x t Et.
  rewrite (take_app_length' header), (drop_app_length' header) by done.
  assert (le_value (take 4 header) = size_of e) as ->.
  { change (take 4 header) with (store_le32 (u32 (size_of (frame_of u) + 16))). rewrite store_le32_value.
    rewrite wrap_id by (pose proof (size_nonneg (frame_of u)); split; lia). unfold size_of. rewrite He. lia. }
  assert (le_value (subspan 8 8 header) = c) as ->.
  { change (subspan 8 8 header) with (store_le64 c). apply store_le64_value. split; lia. }
  assert (byte_at header 4 = 0) as -> by done. rewrite Z.eqb_refl. cbn [Z.eqb negb].
  rewrite (proj2 (Z.ltb_ge _ 128)) by (rewrite !size_app; unfold size_of; lia).
  replace (Z.to_nat (size_of e)) with (length e) by (unfold size_of; lia).
  rewrite (proj2 (Z.ltb_ge _ (Z.of_nat (length e)))) by (rewrite size_app; unfold size_of; lia). cbn [orb].
  rewrite take_app_length, drop_app_length. rewrite (open_seal_with_nonce _ _ _ _ _ Es).
  rewrite frame_of_slices, split_frame_slices; [| |done].
  - rewrite (IH (c + 1) r _ fuel Er) by (done || lia). by rewrite Z.eqb_refl.
  - rewrite frame_of_slices in Hu. apply Forall_forall. intros n Hn. clear -Hu Hn.
    induction (slices u) as [|m ms IH]; [by apply not_elem_of_nil in Hn|]. cbn [map concat] in Hu.
    rewrite !size_app in Hu. set (tail := concat _) in *. pose proof (size_nonneg tail).
    pose proof (size_nonneg m). pose proof (size_nonneg (be_bytes 4 (size_of m))).
    apply elem_of_cons in Hn as [->|Hn]; [lia|]. apply IH; [|done]. lia.
Qed.
End StreamFacts.

Section LoopFacts.
Context `{EVPLaws}.

Definition carried (key : Bytes) (units : list (list Bytes)) (s s' : VideoSender) : Prop :=
  exists w, wire key (frame_counter s) units = Some (w, frame_counter s') /\ written s' = written s ++ w.

Lemma carried_nil key s : carried key [] s s.
Proof. exists []. by rewrite app_nil_r. Qed.

Lemma carried_app key us vs s s' s'' :
  carried key us s s' -> carried key vs s' s'' -> carried key (us ++ vs) s s''.
Proof.
  intros (w & Hw & E) (w' & Hw' & E'). exists (w ++ w'). split; [by eapply wire_app|].
  by rewrite E', E, app_assoc.
Qed.

Lemma send_access_unit_carried key u io s s' :
  send_access_unit key u io s = (true, s') -> carried key [u] s s'.
Proof.
  unfold send_access_unit, carried. cbn [wire]. destruct (bytes_eqb (frame_of u) []) eqn:E.
  { intros [= <-]. exists []. by rewrite app_nil_r. }
  destruct (seal_with_nonce _ _ _ _) as [e|]; [|done]. destruct (negb io.1); [done|].
  destruct (negb io.2); [done|]. intros [= <-]. cbn [frame_counter written mbind option_bind].
  exists (video_header (frame_of u) (frame_counter s) ++ e). by rewrite app_nil_r.
Qed.

(** The units of a recording that are sent, and whether a stop request came. *)
Fixpoint static_frames (units : list (list Bytes * bool * (bool * bool))) : list (list Bytes) * bool :=
  match units with
  | [] => ([], false)
  | (access_unit, stop, _) :: units =>
      if stop : bool then ([], true) else let '(us, stopped) := static_frames units in (access_unit :: us, stopped)
  end.

Lemma static_loop_carried key units : forall s exit_code s',
  static_loop key units s = (exit_code, s') -> exit_code <> Some 1 ->
  carried key (static_frames units).1 s s' /\
  exit_code = (if (static_frames units).2 then Some 0 else None).
Proof.
  induction units as [|[[u stop] io] units IH]; intros s code s' Hl Hc; cbn [static_loop static_frames] in *.
  { injection Hl as <- <-. split; [apply carried_nil|done]. }
  destruct stop; [injection Hl as <- <-; split; [apply carried_nil|done]|].
  destruct (send_access_unit _ _ _ _) as [[] s1] eqn:E; cbn [negb] in Hl; [|by injection Hl as <- <-].
  destruct (IH _ _ _ Hl Hc) as [Hcar Hcode]. destruct (static_frames units) as [us stopped]. split; [|done].
  apply (carried_app key [u] _ s s1 s'); [by eapply send_access_unit_carried|done].
Qed.

Lemma initial_loop_carried key units : forall s s',
  initial_loop key units s = (true, s') -> carried key (map (fun u => h264_nalus u.1) units) s s'.
Proof.
  induction units as [|[u io] units IH]; intros s s' Hl; cbn [initial_loop map fst] in *.
  { injection Hl as <-. apply carried_nil. }
  destruct (send_access_unit _ _ _ _) as [[] s1] eqn:E; cbn [negb] in Hl; [|done].
  apply (carried_app key [h264_nalus u] _ s s1 s'); [by eapply send_access_unit_carried|by apply IH].
Qed.

(** The frames a live loop gets before it is stopped or the source ends. *)
Fixpoint live_frames (turns : list VideoTurn) : list (list Bytes) :=
  match turns with
  | [] => []
  | turn :: turns =>
      if video_stop turn then []
      else match video_frame turn with
      | None => []
      | Some access_unit => h264_nalus access_unit :: live_frames turns
      end
  end.

Lemma live_loop_carried key turns : forall s s',
  live_loop key turns s = (0, s') -> carried key (live_frames turns) s s'.
Proof.
  induction turns as [|turn turns IH]; intros s s' Hl; cbn [live_loop live_frames] in *.
  { injection Hl as <-. apply carried_nil. }
  destruct (video_stop turn); [injection Hl as <-; apply carried_nil|].
  destruct (video_frame turn) as [u|]; [|injection Hl as <-; apply carried_nil].
  destruct (send_access_unit _ _ _ _) as [[] s1] eqn:E; cbn [negb] in Hl; [|done].
  apply (carried_app key [h264_nalus u] _ s s1 s'); [by eapply send_access_unit_carried|by apply IH].
Qed.

Lemma read_config key config w units :
  size_of config < 2 ^ 32 ->
  Receiver.frames (length (config_header config ++ config ++ w)) key 0 w = Some units ->
  Receiver.read key (config_header config ++ config ++ w) = Some (config, units).
Proof.
  intros Hs Hf. set (header := config_header config) in *.
  assert (length header = 128%nat) as Hh by done. unfold Receiver.read.
  rewrite (take_app_length' header), (drop_app_length' header) by done.
  assert (le_value (take 4 header) = size_of config) as ->.
  { change (take 4 header) with (store_le32 (u32 (size_of config))). rewrite store_le32_value.
    pose proof (size_nonneg config). apply wrap_id. split; lia. }
  assert (byte_at header 4 = 1) as -> by done. cbn [Z.eqb Pos.eqb negb].
  rewrite (proj2 (Z.ltb_ge _ 128)) by (rewrite !size_app; unfold size_of; lia).
  replace (Z.to_nat (size_of config)) with (length config) by (unfold size_of; lia).
  rewrite (proj2 (Z.ltb_ge _ (Z.of_nat (length config)))) by (rewrite size_app; unfold size_of; lia).
  cbn [orb]. by rewrite take_app_length, drop_app_length, Hf.
Qed.
End LoopFacts.

(** ** Theorems *)

(** What a session shows when no error ends it. *)
Definition sent_units (recording : list (list Bytes * bool * (bool * bool))) (units : list (Bytes * (bool * bool)))
    (turns : list VideoTurn) : list (list Bytes) :=
  let '(us, stopped) := static_frames recording in
  if stopped : bool then us else us ++ map (fun u => h264_nalus u.1) units ++ live_frames turns.

(** What the head unit reads from the data stream. *)
Lemma data_stream_reads `{EVPLaws} key config recording units turns s :
  data_stream key config (true, true) recording units turns = (0, s) ->
  size_of config < 2 ^ 32 ->
  Forall (fun u => size_of (frame_of u) + 16 < 2 ^ 32) (sent_units recording units turns) ->
  size_of (sent_units recording units turns) < 2 ^ 64 ->
  Receiver.read key (written s) = Some (config, shown (sent_units recording units turns)).
Proof.
  unfold data_stream, sent_units. cbn [fst snd negb]. set (s0 := mkSender 0 _). intros Hl Hc.
  destruct (static_loop key recording s0) as [code s1] eqn:Es.
  destruct (static_loop_carried _ _ _ _ _ Es) as [Hcar Hcode]; [by intros ->|].
  destruct (static_frames recording) as [us stopped]. cbn [fst snd] in *.
  assert (carried key (if stopped then us else us ++ map (fun u => h264_nalus u.1) units ++ live_frames turns) s0 s)
    as (w & Hw & ->).
  { destruct stopped; subst code; [by injection Hl as <-|].
    destruct (initial_loop _ _ _) as [[] s2] eqn:E; cbn [negb] in Hl; [|done].
    eapply carried_app; [exact Hcar|]. eapply carried_app; [by apply initial_loop_carried|by apply live_loop_carried]. }
  intros Hu Hn. cbn [s0 frame_counter written] in *. rewrite <- app_assoc. apply read_config; [done|].
  eapply wire_read; try done. rewrite !length_app. lia.
Qed.

(** C34. The screen stream decodes. For a cipher that meets its documentation,
    when the stream of a recording or of a live session ends without an error, a
    reader of the documented format that insists on the counters 0, 1, 2, ... gets
    from the octets on the data socket exactly the decoder configuration and then
    the slices of every access unit that has any, in order, up to the stop
    request or the end of the source. *)
Theorem video_stream_decodes `{EVPLaws} key config recording units turns s :
  data_stream key config (true, true) recording units turns = (0, s) ->
  size_of config < 2 ^ 32 ->
  Forall (fun u => size_of (frame_of u) + 16 < 2 ^ 32) (sent_units recording units turns) ->
  size_of (sent_units recording units turns) < 2 ^ 64 ->
  Receiver.read key (written s) = Some (config, shown (sent_units recording units turns)).
Proof. apply data_stream_reads. Qed.

(** A short recording for the examples: parameter sets, an IDR slice, and the
    parameter sets of another resolution in front of a second IDR slice. *)
Definition demo_sets : Bytes := [0; 0; 0; 1; 103; 1; 2; 3; 0; 0; 0; 1; 104; 9].
Definition demo_idr : Bytes := [0; 0; 0; 1; 101; 128; 5].
Definition demo_new_sets : Bytes := [0; 0; 0; 1; 103; 7; 7; 7; 0; 0; 0; 1; 104; 8].
Definition demo_slice : Bytes := [0; 0; 1; 65; 64; 6].

Lemma video_stream_decodes_witness :
  let turns := [mkVideoTurn false (Some demo_slice) (true, true); mkVideoTurn false (Some demo_sets) (true, true);
                mkVideoTurn false None (true, true)] in
  let s := (@data_stream Toy.toy_evp (repeat 9 32) [1; 2; 3] (true, true) [] [(demo_idr, (true, true))] turns).2 in
  @Receiver.read Toy.toy_evp (repeat 9 32) (written s)
  = Some ([1; 2; 3], [[[101; 128; 5]]; [[65; 64; 6]]]).
Proof.
  cbv zeta. pose proof Toy.toy_laws as Hl.
  apply (@video_stream_decodes Toy.toy_evp Hl (repeat 9 32) [1; 2; 3] [] [(demo_idr, (true, true))]
    [mkVideoTurn false (Some demo_slice) (true, true); mkVideoTurn false (Some demo_sets) (true, true);
     mkVideoTurn false None (true, true)]).
  - vm_compute. reflexivity.
  - reflexivity.
  - apply (bool_decide_unpack _). vm_compute. exact I.
  - reflexivity.
Defined.

(** Access units. Every NAL unit that is not empty ends up in exactly one
    access unit, in order; a NAL unit opens a new access unit exactly when it is
    a delimiter, a parameter set after a slice, or a slice after a slice whose
    first macroblock is zero or unreadable; and no access unit holds two slices
    that begin a picture. *)
Theorem access_units_grouped nalus :
  let units := h264_access_units nalus in
  concat units = List.filter (fun n => negb (bytes_eqb n [])) nalus /\ grouped units /\
  Forall (fun unit => unit <> [] /\ (length (picture_starts unit) <= 1)%nat) units.
Proof.
  cbv zeta. unfold h264_access_units. set (g := fold_left _ _ _).
  assert (grouping_ok nalus g) as (Hg & Hc & _ & He).
  { apply (group_nalus_ok nalus [] (mkGrouping [] [] false)). split_and!; [apply grouped_nil|done..]. }
  assert (result (flush g) = units_of g) as -> by (unfold flush, units_of; by destruct (current g)).
  split_and!; [done|done|]. eapply Forall_impl; [by apply grouped_one_picture|]. cbn. tauto.
Qed.

(** A live stream starts at a decodable picture. When the wait for video
    succeeds, exactly one access unit is kept; it came from the source and holds
    an IDR slice; the configuration is that of a sequence and a picture parameter
    set among the frames received so far, of which there were at most 16 MiB. *)
Theorem live_stream_starts_decodable turns config s :
  startup turns None new_startup = Started config s ->
  exists received rest keyframe,
    omap next_video_frame turns = received ++ rest /\ initial_access_units s = [keyframe] /\
    keyframe ∈ received /\ existsb (has_type 5) (h264_nalus keyframe) = true /\
    config_from received config /\ total received <= kMaximumStartupVideoBytes.
Proof.
  intros Hs. eapply (startup_spec turns None new_startup []) in Hs
    as (received & rest & Hr & (Hk & Hb & Hm & _ & Hc) & Hkey).
  - rewrite Hkey in Hk. destruct Hk as (u & H1 & H2 & H3). exists received, rest, u. split_and!; try done.
    by apply Hc.
  - split_and!; try done.
Qed.

Definition demo_turn (frame : Bytes) : StartupTurn := mkStartupTurn false (Some frame) false.

Lemma live_stream_starts_decodable_witness :
  exists received rest keyframe,
    [demo_slice; demo_sets ++ demo_idr; demo_slice] = received ++ rest /\
    [demo_sets ++ demo_idr] = [keyframe] /\ keyframe ∈ received /\
    existsb (has_type 5) (h264_nalus keyframe) = true /\
    config_from received [1; 1; 2; 3; 255; 225; 0; 4; 103; 1; 2; 3; 1; 0; 2; 104; 9] /\
    total received <= kMaximumStartupVideoBytes.
Proof.
  pose proof (live_stream_starts_decodable
    (map demo_turn [demo_slice; demo_sets ++ demo_idr; demo_slice])
    [1; 1; 2; 3; 255; 225; 0; 4; 103; 1; 2; 3; 1; 0; 2; 104; 9]
    (mkStartup [[65; 64; 6]; [103; 1; 2; 3]; [104; 9]; [101; 128; 5]] [demo_sets ++ demo_idr] 27 true)) as Ht.
  apply Ht. vm_compute. reflexivity.
Defined.

(** The two tests of the startup loop differ by one turn: when the parameter sets
    change in the very unit that brings the first IDR slice, the configuration is
    the old one, and since only slices are sent the new sets are lost. *)
Example stale_configuration :
  startup (map demo_turn [demo_sets; demo_new_sets ++ demo_idr]) None new_startup
  = Started [1; 1; 2; 3; 255; 225; 0; 4; 103; 1; 2; 3; 1; 0; 2; 104; 9]
      (mkStartup [[103; 7; 7; 7]; [104; 8]; [101; 128; 5]] [demo_new_sets ++ demo_idr] 35 true).
Proof. vm_compute. reflexivity. Qed.

(** The session and the forwarder split video alike: the two scans for start
    codes, one by position and one of the remaining input, give the same NAL
    units for every input. *)
Theorem h264_nalus_agree input : h264_nalus input = MediaForwarders.nalus input.
Proof. unfold h264_nalus. by apply (h264_nalus_from_eq _ (length input) input 0%nat); lia. Qed.

(** The first macroblock is the Exp-Golomb number after the header octet:
    when the bits there are those of [v + 1] behind as many zeros as it has
    digits after the first, [v] is read, for every [v] the syntax allows. *)
Theorem first_mb_reads_exp_golomb nalu v n :
  0 <= v < 2 ^ 32 - 1 -> n = Z.to_nat (Z.log2 (v + 1)) ->
  (2 * n < length (drop 1 nalu) * 8)%nat ->
  (forall i, (i <= 2 * n)%nat -> bit_at (drop 1 nalu) i = Z.testbit (v + 1) (Z.of_nat (2 * n - i))) ->
  first_mb_in_slice nalu = Some v.
Proof.
  intros Hv Hn Hl Hb. unfold first_mb_in_slice.
  assert (0 < v + 1) as Hpos by lia. pose proof (Z.log2_spec _ Hpos) as [Hlo Hhi]. pose proof (Z.log2_nonneg (v + 1)).
  assert (Z.log2 (v + 1) < 32) by (apply Z.log2_lt_pow2; lia). rewrite <- Z.add_1_r in Hhi.
  assert (Z.of_nat n = Z.log2 (v + 1)) as Hn' by lia. rewrite <- Hn' in *.
  rewrite Z.pow_add_r in Hhi by lia.
  rewrite (proj2 (Z.ltb_ge _ 2)) by (rewrite length_drop in Hl; unfold size_of; lia).
  rewrite rbsp_of_raw. rewrite (count_zero_bits_spec 33 _ n 0); try lia.
  - rewrite (read_suffix_spec (drop 1 nalu) (v + 1 - 2 ^ Z.of_nat n)); [|lia|lia| |].
    + rewrite (wrap_id 32 (Z.shiftl 1 _)) by (rewrite Z.shiftl_1_l; split; [lia|apply Z.pow_lt_mono_r; lia]).
      rewrite Z.shiftl_1_l, wrap_id by (split; lia). f_equal. lia.
    + rewrite Z.shiftr_div_pow2, Z.div_small by lia. done.
    + intros j Hj. rewrite Hb by lia. replace (2 * n - (n + 1 + j))%nat with (n - 1 - j)%nat by lia.
      rewrite (Z.mod_unique_pos (v + 1) (2 ^ Z.of_nat n) 1 (v + 1 - 2 ^ Z.of_nat n)) by lia.
      symmetry. apply Z.mod_pow2_bits_low. lia.
  - intros i Hi. rewrite Hb by lia. apply Z.bits_above_log2; lia.
  - rewrite Hb by lia. replace (2 * n - n)%nat with n by lia. rewrite Hn'. by apply Z.bit_log2.
Qed.

Lemma first_mb_reads_exp_golomb_witness : first_mb_in_slice [65; 76] = Some 1.
Proof.
  apply (first_mb_reads_exp_golomb [65; 76] 1 1).
  - split; [lia|reflexivity].
  - reflexivity.
  - apply Nat.ltb_lt. reflexivity.
  - intros i Hi. destruct i as [|[|[|i]]]; [reflexivity..|lia].
Defined.

(** The emulation-prevention octet is copied along with the zeros before it
    ([rbsp_of_raw] says that nothing is ever removed), so a number of more than
    sixteen zero bits is misread: these octets stand for 65663. *)
Example emulation_prevention_kept :
  rbsp_of [65; 0; 0; 3; 128; 64; 0] = [0; 0; 3; 128; 64; 0] /\
  first_mb_in_slice [65; 0; 0; 128; 64; 0] = Some 65663 /\
  first_mb_in_slice [65; 0; 0; 3; 128; 64; 0] <> Some 65663.
Proof. vm_compute. split_and!; done. Qed.
