(* ===== verification/SessionPairing.v ===== *)
(** * Pairing of the AirPlay session

    [src/src/airplay/session.cpp], first part of [run_session]: Pair-Setup with
    its six messages, the persistent identity, and Pair-Verify with the keys of
    the control channel.  The code returns 1 at every error; here an operation is
    a computation over the session's surroundings that may fail, and every request
    that was handed to the socket stays in the ghost list [requests]. *)

From S2P Require Import Prelude Text Crypto Srp Rtsp FileStore PairingStore Fallible.
#[local] Open Scope Z_scope.

(** ** Surroundings *)

(** What one turn of a receive loop meets: the deadline or a stop request, a
    [poll] without data, data, or the end of the connection. *)
Inductive RecvTurn :=
| Expired
| Idle
| Received (data : Bytes)
| Closed.

(** [exchanges]: for every request to come, whether [send_all] succeeds and what
    the receive loop after it meets. *)
Record Surroundings := mkSurroundings {
  exchanges : list (bool * list RecvTurn);
  requests : list Bytes;
  files : World
}.

(** Computations that change the surroundings and may fail. *)
Abbreviation Session := (Fallible Surroundings).

(** ** One exchange *)

(* src/src/airplay/session.cpp:36-43 append_limited *)
Definition append_limited (target bytes : Bytes) (limit : Z) : option Bytes :=
  if (limit <? size_of target) || (limit - size_of target <? size_of bytes) then None
  else Some (target ++ bytes).

(* src/src/airplay/session.cpp:959-959 run_session (kMaxResponseBytes) *)
Definition kMaxResponseBytes : Z := 1024 * 1024.

(** [None]: the limit was exceeded. *)
(* src/src/airplay/session.cpp:948-969 run_session (receive loop) *)
Fixpoint collect_response (turns : list RecvTurn) (response_bytes : Bytes) : option Bytes :=
  match complete_response_size response_bytes with
  | Some _ => Some response_bytes
  | None =>
      match turns with
      | [] | Expired :: _ | Closed :: _ => Some response_bytes
      | Idle :: turns => collect_response turns response_bytes
      | Received data :: turns =>
          match append_limited response_bytes data kMaxResponseBytes with
          | None => None
          | Some response_bytes => collect_response turns response_bytes
          end
      end
  end.

(* src/src/airplay/session.cpp:1098-1126 run_session (exchange) *)
Definition exchange (request : Bytes) : Session Bytes := fun s =>
  match exchanges s with
  | [] => (None, s)
  | (sent, turns) :: rest =>
      let s := mkSurroundings rest (requests s ++ [request]) (files s) in
      if negb sent then (None, s) else (collect_response turns [], s)
  end.

(** A pairing message and the fields of the answer, which must have status 200. *)
(* src/src/airplay/session.cpp:1095-1133 run_session (pairing message) *)
Definition post (path : Bytes) (cseq : Z) (fields : list (Z * Bytes)) (headers : RequestHeaders)
    : Session (gmap Z Bytes) :=
  response_bytes ← exchange (encode_request (bs "POST") path cseq (encode_tlv8 fields)
                               (bs "application/pairing+tlv8") headers);
  response ← from_option (parse_response response_bytes);
  check (status response =? 200) ;;
  mret (decode_tlv8 (body response)).

(** ** Identities *)

(** [now]: the seconds of the system clock. *)
(* src/src/airplay/session.cpp:45-60 pairing_headers *)
Definition pairing_headers (now hkp : Z) : RequestHeaders :=
  [(bs "X-Apple-AbsoluteTime", dec (now - 978307200)); (bs "X-Apple-HKP", dec hkp);
   (bs "X-Apple-Client-Name", bs "User"); (bs "User-Agent", bs "AirPlay/950.7.1")]
  ++ (if hkp =? 2 then [(bs "X-Apple-PD", bs "1")] else []).

Definition upper_hex (nibble : Z) : Z := if nibble <? 10 then 48 + nibble else 55 + nibble.

(** [random]: the sixteen octets of [RAND_bytes], [None] when it fails. *)
(* src/src/airplay/session.cpp:73-90 random_controller_id *)
Definition random_controller_id (random : option Bytes) : option Bytes :=
  match random with
  | None => None
  | Some bytes =>
      let bytes := <[6%nat := Z.lor (Z.land (byte_at bytes 6) 15) 64]> bytes in
      let bytes := <[8%nat := Z.lor (Z.land (byte_at bytes 8) 63) 128]> bytes in
      Some (concat (imap (fun index byte =>
        (if bool_decide (index ∈ [4; 6; 8; 10]%nat) then [45] else [])
        ++ [upper_hex (Z.shiftr byte 4); upper_hex (Z.land byte 15)]) bytes))
  end.

(** The random numbers and key pairs a session draws, each possibly failing. *)
Record Draws := mkDraws {
  srp_random : option Bytes;
  controller_keys : nat;     (* the index of the Ed25519 pair drawn *)
  identifier_random : option Bytes;
  ephemeral_keys : nat;      (* the index of the X25519 pair drawn *)
  temporary_suffix : Bytes   (* what mkstemp chose *)
}.

Section Pairing.
Context `{Digest} `{EVP}.

(** ** Pair-Setup *)

(* src/src/airplay/session.cpp:1052-1092 run_session (Pair-Setup M5) *)
Definition setup_m5 (session_key encryption_key : Bytes) (controller : Bytes * Bytes) (controller_id : Bytes)
    : Session Bytes :=
  let controller_sign_key := hkdf_sha512 session_key (bs "Pair-Setup-Controller-Sign-Salt")
                               (bs "Pair-Setup-Controller-Sign-Info") 32 in
  let controller_signed := controller_sign_key ++ controller_id ++ controller.2 in
  controller_signature ← from_option (ed25519_sign controller.1 controller_signed);
  check (size_of controller_sign_key =? 32) ;;
  from_option (seal encryption_key (bs "PS-Msg05")
                 (encode_tlv8 [(1, controller_id); (3, controller.2); (10, controller_signature)])).

(** The accessory's identity in M6, checked: its long-term key. *)
(* src/src/airplay/session.cpp:1133-1175 run_session (Pair-Setup M6) *)
Definition setup_m6 (session_key encryption_key : Bytes) (m6 : gmap Z Bytes) : Session Bytes :=
  encrypted ← from_option (m6 !! 5);
  decrypted ← from_option (open encryption_key (bs "PS-Msg06") encrypted);
  check (bool_decide (m6 !! 6 = Some [6])) ;;
  let accessory := decode_tlv8 decrypted in
  let accessory_sign_key := hkdf_sha512 session_key (bs "Pair-Setup-Accessory-Sign-Salt")
                              (bs "Pair-Setup-Accessory-Sign-Info") 32 in
  accessory_id ← from_option (accessory !! 1);
  accessory_key ← from_option (accessory !! 3);
  accessory_signature ← from_option (accessory !! 10);
  check (size_of accessory_sign_key =? 32) ;;
  check (ed25519_verify accessory_key (accessory_sign_key ++ accessory_id ++ accessory_key)
           accessory_signature) ;;
  mret accessory_key.

(* src/src/airplay/session.cpp:937-1179 run_session (Pair-Setup) *)
Definition pair_setup (headers : RequestHeaders) (draws : Draws) : Session PairingRecord :=
  m2 ← post (bs "/pair-setup") 1 [(6, [1]); (0, [0])] headers;
  check (bool_decide (m2 !! 6 = Some [2])) ;;
  salt ← from_option (m2 !! 2);
  server_key ← from_option (m2 !! 3);
  let '(accepted, srp) := process_challenge (srp_random draws) salt server_key new_client in
  check accepted ;;
  m4 ← post (bs "/pair-setup") 2 [(6, [3]); (3, Srp.public_key srp); (4, client_proof srp)] headers;
  check (bool_decide (m4 !! 6 = Some [4])) ;;
  server_proof ← from_option (m4 !! 4);
  check (verify_server server_proof srp) ;;
  let encryption_key := hkdf_sha512 (session_key srp) (bs "Pair-Setup-Encrypt-Salt")
                          (bs "Pair-Setup-Encrypt-Info") 32 in
  check (size_of encryption_key =? 32) ;;
  controller ← from_option (ed25519_generate (controller_keys draws));
  controller_id ← from_option (random_controller_id (identifier_random draws));
  encrypted ← setup_m5 (session_key srp) encryption_key controller controller_id;
  m6 ← post (bs "/pair-setup") 3 [(6, [5]); (5, encrypted)] headers;
  accessory_key ← setup_m6 (session_key srp) encryption_key m6;
  mret (mkRecord controller_id controller.1 controller.2 accessory_key).

(** The stored identity, or a new one that is stored when there is a store. *)
(* src/src/airplay/session.cpp:923-1187 run_session (pairing record) *)
Definition establish_pairing (pairing_store : Bytes) (now : Z) (draws : Draws) : Session PairingRecord := fun s =>
  let stored := if bytes_eqb pairing_store [] then None
                else load_pairing_record (disk (files s) !! pairing_store) in
  let pairing := default (mkRecord [] [] [] []) stored in
  if negb (bytes_eqb (private_key pairing) []) then (Some pairing, s)
  else
    match pair_setup (pairing_headers now 0) draws s with
    | (None, s) => (None, s)
    | (Some pairing, s) =>
        if bytes_eqb pairing_store [] then (Some pairing, s)
        else
          let '(saved, w) := save_pairing_record pairing_store pairing (temporary_suffix draws) (files s) in
          (if saved then Some pairing else None, mkSurroundings (exchanges s) (requests s) w)
    end.

(** ** Pair-Verify *)

(** The shared secret and the keys of the control channel. *)
Record Verified := mkVerified {
  shared : Bytes;
  control_read : Bytes;
  control_write : Bytes
}.

(** The accessory's answer: its ephemeral key, the secret shared with it and the
    key of the exchange, after its signature was found right. *)
(* src/src/airplay/session.cpp:1238-1287 run_session (Pair-Verify M2) *)
Definition verify_m2 (pairing : PairingRecord) (ephemeral : Bytes * Bytes) (m2 : gmap Z Bytes)
    : Session (Bytes * Bytes * Bytes) :=
  peer_ephemeral ← from_option (m2 !! 3);
  shared ← from_option (x25519_shared ephemeral.1 peer_ephemeral);
  let verify_key := hkdf_sha512 shared (bs "Pair-Verify-Encrypt-Salt") (bs "Pair-Verify-Encrypt-Info") 32 in
  encrypted ← from_option (m2 !! 5);
  plain ← from_option (open verify_key (bs "PV-Msg02") encrypted);
  check (bool_decide (m2 !! 6 = Some [2]) && (size_of verify_key =? 32)) ;;
  let identity := decode_tlv8 plain in
  accessory_id ← from_option (identity !! 1);
  accessory_signature ← from_option (identity !! 10);
  check (ed25519_verify (accessory_public_key pairing)
           (peer_ephemeral ++ accessory_id ++ ephemeral.2) accessory_signature) ;;
  mret (peer_ephemeral, shared, verify_key).

(* src/src/airplay/session.cpp:1288-1314 run_session (Pair-Verify M3) *)
Definition verify_m3 (pairing : PairingRecord) (ephemeral : Bytes * Bytes) (peer_ephemeral verify_key : Bytes)
    : Session Bytes :=
  signature ← from_option (ed25519_sign (private_key pairing)
                (ephemeral.2 ++ controller_id pairing ++ peer_ephemeral));
  from_option (seal verify_key (bs "PV-Msg03") (encode_tlv8 [(1, controller_id pairing); (10, signature)])).

(* src/src/airplay/session.cpp:1364-1372 run_session (control channel keys) *)
Definition control_keys (shared : Bytes) : Session Verified :=
  let control_write := hkdf_sha512 shared (bs "Control-Salt") (bs "Control-Write-Encryption-Key") 32 in
  let control_read := hkdf_sha512 shared (bs "Control-Salt") (bs "Control-Read-Encryption-Key") 32 in
  check ((size_of control_write =? 32) && (size_of control_read =? 32)) ;;
  mret (mkVerified shared control_read control_write).

(* src/src/airplay/session.cpp:1189-1376 run_session (Pair-Verify) *)
Definition pair_verify (headers : RequestHeaders) (draws : Draws) (pairing : PairingRecord)
    : Session Verified :=
  ephemeral ← from_option (x25519_generate (ephemeral_keys draws));
  m2 ← post (bs "/pair-verify") 4 [(6, [1]); (3, ephemeral.2)] headers;
  '(peer_ephemeral, shared, verify_key) ← verify_m2 pairing ephemeral m2;
  encrypted ← verify_m3 pairing ephemeral peer_ephemeral verify_key;
  m4 ← post (bs "/pair-verify") 5 [(6, [3]); (5, encrypted)] headers;
  check (bool_decide (m4 !! 6 = Some [4])) ;;
  control_keys shared.

(** From the connection to the keys of the control channel. *)
(* src/src/airplay/session.cpp:923-1379 run_session (pairing) *)
Definition authenticate (pairing_store : Bytes) (now : Z) (draws : Draws) : Session (PairingRecord * Verified) :=
  pairing ← establish_pairing pairing_store now draws;
  verified ← pair_verify (pairing_headers now 2) draws pairing;
  mret (pairing, verified).
End Pairing.

(** ** Facts: exchanges *)

(** An exchange sends at most one request, and exactly one when it succeeds. *)
Definition sends (n : nat) (s s' : Surroundings) : Prop :=
  exists reqs, requests s' = requests s ++ reqs /\ length reqs = n /\ files s' = files s.

Lemma sends_refl s : sends 0 s s.
Proof. exists []. by rewrite app_nil_r. Qed.

Lemma sends_trans n m s s1 s2 : sends n s s1 -> sends m s1 s2 -> sends (n + m) s s2.
Proof.
  intros (r & H1 & L1 & F1) (r' & H2 & L2 & F2). exists (r ++ r'). rewrite length_app, H2, H1, <- app_assoc.
  split_and!; congruence || lia.
Qed.

Lemma exchange_sends request s r s' :
  exchange request s = (r, s') -> sends 1 s s' \/ (r = None /\ sends 0 s s').
Proof.
  unfold exchange. destruct (exchanges s) as [|[sent turns] rest]; [intros [= <- <-]; right; split; [done|apply sends_refl]|].
  intros H. left. exists [request]. destruct (negb sent); injection H as <- <-; done.
Qed.

(** The fields that an exchange answers with, when they are read at all. *)
Definition answer_of (e : bool * list RecvTurn) : option (gmap Z Bytes) :=
  response_bytes ← (if e.1 then collect_response e.2 [] else None);
  response ← parse_response response_bytes;
  if status response =? 200 then Some (decode_tlv8 (body response)) else None.

(** The answer to the request that comes after [n] others. *)
Definition answered (s : Surroundings) (n : nat) : option (gmap Z Bytes) := exchanges s !! n ≫= answer_of.

Definition post_request (path : Bytes) (cseq : Z) (fields : list (Z * Bytes)) (headers : RequestHeaders) : Bytes :=
  encode_request (bs "POST") path cseq (encode_tlv8 fields) (bs "application/pairing+tlv8") headers.

Lemma post_run path cseq fields headers s r s' :
  post path cseq fields headers s = (r, s') ->
  (exists e rest, exchanges s = e :: rest /\ r = answer_of e /\
     s' = mkSurroundings rest (requests s ++ [post_request path cseq fields headers]) (files s)) \/
  (r = None /\ s' = s).
Proof.
  unfold post, exchange, mbind, fallible_bind, post_request, answer_of, from_option, check.
  destruct (exchanges s) as [|[sent turns] rest]; [intros [= <- <-]; by right|]. intros Hr. left.
  exists (sent, turns), rest. cbn [fst snd]. destruct sent; cbn [negb mbind option_bind] in Hr |- *;
    [|by injection Hr as <- <-].
  destruct (collect_response turns []) as [octets|]; cbn [mbind option_bind]; [|by injection Hr as <- <-].
  destruct (parse_response octets) as [response|]; cbn [mbind option_bind]; [|by injection Hr as <- <-].
  destruct (status response =? 200); by injection Hr as <- <-.
Qed.

Lemma post_sends path cseq fields headers s r s' :
  post path cseq fields headers s = (r, s') -> sends 1 s s' \/ (r = None /\ sends 0 s s').
Proof.
  intros [(e & rest & _ & _ & ->)|[-> ->]]%post_run; [left; by eexists|right; split; [done|apply sends_refl]].
Qed.

#[local] Opaque check from_option.

Section PairingFacts.
Context `{Digest} `{EVP}.

Lemma setup_m5_quiet key ekey controller id : quiet (setup_m5 key ekey controller id).
Proof. unfold setup_m5. quiet_solve. Qed.

Lemma setup_m6_quiet key ekey m6 : quiet (setup_m6 key ekey m6).
Proof. unfold setup_m6. quiet_solve. Qed.

Lemma verify_m2_quiet pairing ephemeral m2 : quiet (verify_m2 pairing ephemeral m2).
Proof. unfold verify_m2. quiet_solve. Qed.

Lemma verify_m3_quiet pairing ephemeral peer key : quiet (verify_m3 pairing ephemeral peer key).
Proof. unfold verify_m3. quiet_solve. Qed.

Lemma control_keys_quiet shared : quiet (control_keys shared).
Proof. unfold control_keys. quiet_solve. Qed.

#[local] Hint Resolve setup_m5_quiet setup_m6_quiet verify_m2_quiet verify_m3_quiet control_keys_quiet : aa2acp.

(** The client's half of SRP is the one for the challenge that was received. *)
Definition challenged (s : Surroundings) (draws : Draws) (srp : SrpClient) : Prop :=
  exists m2 salt server_key, answered s 0 = Some m2 /\ m2 !! 6 = Some [2] /\
    m2 !! 2 = Some salt /\ m2 !! 3 = Some server_key /\
    process_challenge (srp_random draws) salt server_key new_client = (true, srp).

(** The peer knew the password: the proof in its second answer is that of SRP for
    the key this run agreed on, SHA-512 of A, M1 and K. *)
Definition server_proven (s : Surroundings) (srp : SrpClient) : Prop :=
  exists m4, answered s 1 = Some m4 /\ m4 !! 6 = Some [4] /\ session_key srp <> [] /\
    m4 !! 4 = Some (sha512 [Srp.public_key srp; client_proof srp; session_key srp]).

Definition setup_key (srp : SrpClient) : Bytes :=
  hkdf_sha512 (session_key srp) (bs "Pair-Setup-Encrypt-Salt") (bs "Pair-Setup-Encrypt-Info") 32.

(** The peer holds the private half of [key]: with it, it signed [key] itself and a
    value only this run has, in the sealed part of its third answer. *)
Definition accessory_signed (s : Surroundings) (srp : SrpClient) (key : Bytes) : Prop :=
  exists m6 sealed plain id signature,
    let sign_key := hkdf_sha512 (session_key srp) (bs "Pair-Setup-Accessory-Sign-Salt")
                      (bs "Pair-Setup-Accessory-Sign-Info") 32 in
    answered s 2 = Some m6 /\ m6 !! 6 = Some [6] /\ m6 !! 5 = Some sealed /\
    open (setup_key srp) (bs "PS-Msg06") sealed = Some plain /\
    decode_tlv8 plain !! 1 = Some id /\ decode_tlv8 plain !! 3 = Some key /\
    decode_tlv8 plain !! 10 = Some signature /\
    size_of sign_key = 32 /\ ed25519_verify key (sign_key ++ id ++ key) signature = true.

Lemma setup_m6_run s srp m6 s1 key s2 :
  answered s 2 = Some m6 -> setup_m6 (session_key srp) (setup_key srp) m6 s1 = (Some key, s2) ->
  accessory_signed s srp key.
Proof.
  unfold setup_m6. intros Ha Hr.
  repeat run_ok Hr. apply ret_run in Hr as [[= ->] ->]. bool_hyps. eexists m6, _, _, _, _. split_and!; eassumption.
Qed.

Lemma verify_server_proof proof srp :
  verify_server proof srp = true ->
  session_key srp <> [] /\ proof = sha512 [Srp.public_key srp; client_proof srp; session_key srp].
Proof.
  unfold verify_server. intros Hv. destruct (bytes_eqb (session_key srp) []) eqn:Ek; [by rewrite !orb_true_r in Hv|].
  destruct (bytes_eqb (Srp.public_key srp) [] || _ || _); [done|]. split; [|by apply bytes_eqb_eq].
  intros Hn. by rewrite Hn in Ek.
Qed.

(** The three requests of Pair-Setup: the greeting, the client's half of SRP with
    its proof, and the controller's identity, sealed. *)
Definition setup_requests (headers : RequestHeaders) (srp : SrpClient) (identity : Bytes) : list Bytes :=
  [post_request (bs "/pair-setup") 1 [(6, [1]); (0, [0])] headers;
   post_request (bs "/pair-setup") 2 [(6, [3]); (3, Srp.public_key srp); (4, client_proof srp)] headers;
   post_request (bs "/pair-setup") 3 [(6, [5]); (5, identity)] headers].

(** The third request holds the identity that was drawn for this run. *)
Definition holds_identity (draws : Draws) (srp : SrpClient) (controller : Bytes * Bytes) (id identity : Bytes) : Prop :=
  ed25519_generate (controller_keys draws) = Some controller /\
  random_controller_id (identifier_random draws) = Some id /\
  exists s, (setup_m5 (session_key srp) (setup_key srp) controller id s).1 = Some identity.

(** What a run of Pair-Setup may have done when it ends with [r]. *)
Definition setup_outcome (headers : RequestHeaders) (draws : Draws) (s s' : Surroundings) (r : option PairingRecord) : Prop :=
  exists n srp controller id identity, (n <= 3)%nat /\ files s' = files s /\
    requests s' = requests s ++ take n (setup_requests headers srp identity) /\
    ((2 <= n)%nat -> challenged s draws srp) /\
    ((3 <= n)%nat -> server_proven s srp /\ holds_identity draws srp controller id identity) /\
    forall record, r = Some record -> n = 3%nat /\
      (private_key record, PairingStore.public_key record) = controller /\ controller_id record = id /\
      accessory_signed s srp (accessory_public_key record).

(** After [n] of the requests. *)
Definition asked (headers : RequestHeaders) (s s1 : Surroundings) (n : nat) (srp : SrpClient) (identity : Bytes) : Prop :=
  requests s1 = requests s ++ take n (setup_requests headers srp identity) /\
  files s1 = files s /\ exchanges s1 = drop n (exchanges s).

Lemma asked_first headers s srp identity : asked headers s s 0 srp identity.
Proof. split_and!; [by rewrite app_nil_r|done..]. Qed.

Lemma asked_other headers s s1 n srp srp' identity identity' :
  asked headers s s1 n srp identity -> ((n <= 1)%nat \/ (n <= 2)%nat /\ srp = srp') -> asked headers s s1 n srp' identity'.
Proof.
  intros (Hr & Hrest) Hn. split; [|exact Hrest]. rewrite Hr. f_equal. unfold setup_requests.
  destruct n as [|[|[|n]]]; [done|done| |lia]. by destruct Hn as [?|[_ ->]]; [lia|].
Qed.

(** One more request, and its answer. *)
Lemma asked_post headers s s1 n srp identity path fields r s2 :
  asked headers s s1 n srp identity ->
  setup_requests headers srp identity !! n = Some (post_request path (Z.of_nat n + 1) fields headers) ->
  post path (Z.of_nat n + 1) fields headers s1 = (r, s2) ->
  (asked headers s s2 (S n) srp identity /\ r = answered s n) \/ (r = None /\ s2 = s1).
Proof.
  intros (Hr & Hf & He) Hn [(e & rest & Hx & -> & ->)|[-> ->]]%post_run; [left|by right].
  rewrite He in Hx. assert (exchanges s !! n = Some e) as Hl by by rewrite <- (Nat.add_0_r n), <- lookup_drop, Hx.
  split; [split_and!|unfold answered; by rewrite Hl]; cbn [requests files exchanges].
  - rewrite (take_S_r _ _ _ Hn), Hr. by rewrite app_assoc.
  - done.
  - by rewrite <- Nat.add_1_r, <- drop_drop, Hx.
Qed.

Lemma setup_stopped headers draws s s1 n srp controller id identity :
  asked headers s s1 n srp identity -> (n <= 3)%nat -> ((2 <= n)%nat -> challenged s draws srp) ->
  ((3 <= n)%nat -> server_proven s srp /\ holds_identity draws srp controller id identity) ->
  setup_outcome headers draws s s1 None.
Proof. intros (Hr & Hf & _) Hl Hc Hp. exists n, srp, controller, id, identity. by split_and!. Qed.

(** A step of a run that does not touch the surroundings: its failure, or its
    result, with the equation of the step named [E]. *)
Ltac quiet_run H E :=
  let a := fresh "a" in let s1 := fresh "s1" in let Es := fresh "Es" in
  apply bind_run in H as [[E ->]|(a & s1 & E & H)];
  [apply quiet_run in E; [subst|by eauto with aa2acp]
  |pose proof E as Es; apply quiet_run in Es; [subst s1|by eauto with aa2acp];
   first [apply check_run in E as [_ [[_ E]|[? _]]]; [|done]
         |apply from_option_run in E as [_ E]; symmetry in E|idtac]].

(** A step that posts after the requests of [H0]: one more was answered, or the run is over. *)
Ltac post_run H H0 H1 He :=
  run H; match goal with
  | E : post _ _ _ _ _ = _ |- _ => apply (asked_post _ _ _ _ _ _ _ _ _ _ H0 eq_refl) in E as [[H1 He]|[? ->]]
  end; try done.

(** What the third request answers is checked. *)
Lemma setup_identified headers draws s s1 srp controller id identity m6 r s' :
  asked headers s s1 3 srp identity -> answered s 2 = Some m6 ->
  challenged s draws srp -> server_proven s srp -> holds_identity draws srp controller id identity ->
  (accessory_key ← setup_m6 (session_key srp) (setup_key srp) m6;
   mret (mkRecord id controller.1 controller.2 accessory_key)) s1 = (r, s') ->
  setup_outcome headers draws s s' r.
Proof.
  intros Ha Hm Hc Hp Hi Hr. quiet_run Hr E; [by eapply setup_stopped|].
  apply ret_run in Hr as [-> ->]. destruct Ha as (Hr & Hf & _).
  exists 3%nat, srp, controller, id, identity. split_and!; try done.
  intros record [= <-]. split_and!; try done; [by destruct controller|by eapply setup_m6_run].
Qed.

(** From a proof that was right to the end. *)
Lemma setup_proven headers draws s s1 srp r s' :
  asked headers s s1 2 srp [] -> challenged s draws srp -> server_proven s srp ->
  (check (size_of (setup_key srp) =? 32) ;;
   controller ← from_option (ed25519_generate (controller_keys draws));
   controller_id ← from_option (random_controller_id (identifier_random draws));
   encrypted ← setup_m5 (session_key srp) (setup_key srp) controller controller_id;
   m6 ← post (bs "/pair-setup") 3 [(6, [5]); (5, encrypted)] headers;
   accessory_key ← setup_m6 (session_key srp) (setup_key srp) m6;
   mret (mkRecord controller_id controller.1 controller.2 accessory_key)) s1 = (r, s') ->
  setup_outcome headers draws s s' r.
Proof.
  intros Ha Hc Hp Hr. set (stopped := setup_stopped headers draws s).
  do 3 (let E := fresh "E" in quiet_run Hr E; [eapply (stopped _ 2%nat srp ([], []) [] []); done || lia|]).
  quiet_run Hr E5; [eapply (stopped _ 2%nat srp ([], []) [] []); done || lia|].
  rename a1 into id, a2 into identity.
  assert (holds_identity draws srp a0 id identity) as Hi.
  { split_and!; [done..|]. eexists. by rewrite E5. }
  apply (asked_other _ _ _ _ _ srp _ identity) in Ha; [|by right; split; [lia|]].
  post_run Hr Ha Ha' He.
  - by eapply (stopped _ 3%nat srp a0 id identity).
  - eapply (stopped _ 2%nat srp ([], []) [] identity); done || lia.
  - by eapply setup_identified.
Qed.

Lemma pair_setup_outcome headers draws s r s' :
  pair_setup headers draws s = (r, s') -> setup_outcome headers draws s s' r.
Proof.
  unfold pair_setup. intros Hr. pose proof (asked_first headers s new_client []) as Ha.
  set (stopped := setup_stopped headers draws s).
  post_run Hr Ha Ha1 He1;
    [eapply (stopped _ 1%nat _ ([], []) []); done || lia|eapply (stopped _ 0%nat _ ([], []) []); done || lia|].
  clear Ha.
  do 3 (let E := fresh "E" in quiet_run Hr E; [eapply (stopped _ 1%nat _ ([], []) []); done || lia|]).
  destruct (process_challenge _ _ _ _) as [accepted srp] eqn:Ep.
  quiet_run Hr Ea; [eapply (stopped _ 1%nat _ ([], []) []); done || lia|]. subst accepted.
  apply (asked_other _ _ _ _ _ srp _ []) in Ha1; [|by left].
  assert (challenged s draws srp) as Hc by (bool_hyps; by eexists _, _, _).
  post_run Hr Ha1 Ha2 He2;
    [eapply (stopped _ 2%nat srp ([], []) []); done || lia|eapply (stopped _ 1%nat srp ([], []) []); done || lia|].
  clear Ha1.
  do 3 (let E := fresh "E" in quiet_run Hr E; [eapply (stopped _ 2%nat srp ([], []) []); done || lia|]).
  apply (setup_proven _ _ _ s0 srp); try done. apply verify_server_proof in E4 as [Hk ->].
  bool_hyps. by eexists.
Qed.

(** *** Pair-Verify *)

(** The accessory of the record signed both ephemeral keys of this run. *)
Definition accessory_verified (pairing : PairingRecord) (ephemeral : Bytes * Bytes) (shared : Bytes) : Prop :=
  exists peer_ephemeral id signature,
    x25519_shared ephemeral.1 peer_ephemeral = Some shared /\
    ed25519_verify (accessory_public_key pairing) (peer_ephemeral ++ id ++ ephemeral.2) signature = true.

Lemma verify_m2_run pairing ephemeral m2 s peer shared key s' :
  verify_m2 pairing ephemeral m2 s = (Some (peer, shared, key), s') ->
  accessory_verified pairing ephemeral shared /\
  key = hkdf_sha512 shared (bs "Pair-Verify-Encrypt-Salt") (bs "Pair-Verify-Encrypt-Info") 32.
Proof.
  unfold verify_m2. intros Hr. repeat run_ok Hr. apply ret_run in Hr as [[= -> -> ->] ->].
  split; [|done]. eexists _, _, _. split; eassumption.
Qed.

Definition control_key (shared : Bytes) (info : string) : Bytes :=
  hkdf_sha512 shared (bs "Control-Salt") (bs info) 32.

Lemma control_keys_run shared s v s' :
  control_keys shared s = (Some v, s') ->
  v = mkVerified shared (control_key shared "Control-Read-Encryption-Key")
        (control_key shared "Control-Write-Encryption-Key") /\
  size_of (control_read v) = 32 /\ size_of (control_write v) = 32.
Proof.
  unfold control_keys. intros Hr. run_ok Hr. apply ret_run in Hr as [[= ->] ->]. bool_hyps. by split_and!.
Qed.

Lemma post_ok path cseq fields headers s m s' :
  post path cseq fields headers s = (Some m, s') -> sends 1 s s'.
Proof. by intros [Hs|[? _]]%post_sends. Qed.

Lemma pair_verify_run headers draws pairing s v s' :
  pair_verify headers draws pairing s = (Some v, s') ->
  sends 2 s s' /\ exists ephemeral,
    x25519_generate (ephemeral_keys draws) = Some ephemeral /\
    accessory_verified pairing ephemeral (shared v) /\
    control_read v = control_key (shared v) "Control-Read-Encryption-Key" /\
    control_write v = control_key (shared v) "Control-Write-Encryption-Key" /\
    size_of (control_read v) = 32 /\ size_of (control_write v) = 32.
Proof.
  unfold pair_verify. intros Hr. run_ok Hr. run_ok Hr. apply post_ok in E0 as Hs1.
  run_ok Hr. destruct a1 as [[peer sh] key]. pose proof E1 as Hq. apply quiet_run in Hq; [subst|apply verify_m2_quiet].
  apply verify_m2_run in E1 as [Hv _]. run_ok Hr. apply quiet_run in E1; [subst|apply verify_m3_quiet].
  run_ok Hr. apply post_ok in E1 as Hs2. run_ok Hr.
  pose proof Hr as Hq. apply quiet_run in Hq; [subst|apply control_keys_quiet].
  apply control_keys_run in Hr as (-> & Hk & Hk'). split; [exact (sends_trans _ _ _ _ _ Hs1 Hs2)|].
  exists a. by split_and!.
Qed.

(** Where the identity of a session comes from: the store, with nothing sent, or a
    Pair-Setup that the accessory passed, and then the store holds it now. *)
Definition identity_source (store : Bytes) (draws : Draws) (pairing : PairingRecord) (s s' : Surroundings) : Prop :=
  (s' = s /\ store <> [] /\ load_pairing_record (disk (files s) !! store) = Some pairing) \/
  (exists reqs, requests s' = requests s ++ reqs /\ length reqs = 3%nat /\
   (store <> [] -> load_pairing_record (disk (files s') !! store) = Some pairing) /\
   exists srp, challenged s draws srp /\ server_proven s srp /\ accessory_signed s srp (accessory_public_key pairing)).

Lemma establish_pairing_run store now draws s pairing s' d results :
  files s = start_world d results ->
  establish_pairing store now draws s = (Some pairing, s') ->
  identity_source store draws pairing s s'.
Proof.
  intros Hw. unfold establish_pairing.
  destruct (negb (bytes_eqb (private_key (default _ _)) [])) eqn:Ek.
  { intros [= <- <-]. left. split; [done|]. destruct (bytes_eqb store []) eqn:Es; [done|].
    split; [by intros ->|]. by destruct (load_pairing_record _). }
  destruct (pair_setup _ _ _) as [[record|] s1] eqn:Ep; [|done].
  apply pair_setup_outcome in Ep as (n & srp & controller & id & identity & Hl & Hf & Hr & Hc & Hp & Hrec).
  destruct (Hrec record eq_refl) as (-> & _ & _ & Hsigned). set (reqs := take 3 _) in Hr.
  assert (exists srp, challenged s draws srp /\ server_proven s srp /\ accessory_signed s srp (accessory_public_key record))
    as Hsrp by (exists srp; split_and!; [apply Hc; lia|by apply Hp|done]).
  destruct (bytes_eqb store []) eqn:Es.
  { intros [= <- <-]. right. exists reqs. split_and!; try done. apply bytes_eqb_eq in Es. by intros ?. }
  rewrite Hf, Hw. destruct (save_pairing_record _ _ _ _) as [[] w] eqn:Esave; [|done]. intros [= <- <-].
  right. exists reqs. split_and!; try done. intros _. cbn [files].
  apply save_pairing_record_loads in Esave. exact Esave.
Qed.
End PairingFacts.

(** ** An honest accessory *)

(** What the documentation promises of keys and signatures. *)
Class KeyLaws `{EVP} : Prop := {
  dh_agree : forall m n a b, evp_keygen_x25519 m = Some a -> evp_keygen_x25519 n = Some b ->
    evp_derive_x25519 a.1 b.2 = evp_derive_x25519 b.1 a.2;
  x25519_public_size : forall n a, evp_keygen_x25519 n = Some a -> length a.2 = 32%nat;
  sign_verifies : forall n k data signature, evp_keygen_ed25519 n = Some k ->
    evp_sign_ed25519 k.1 data = Some signature -> evp_verify_ed25519 k.2 data signature = true;
  sign_total : forall n k data, evp_keygen_ed25519 n = Some k ->
    exists signature, evp_sign_ed25519 k.1 data = Some signature /\ signature <> [];
  hkdf_total : forall ikm salt info n, exists key, evp_hkdf_sha512 ikm salt info n = Some key /\ length key = n;
  encrypt_total : forall key nonce aad plain, is_Some (evp_encrypt key nonce aad plain)
}.

(** The other side of Pair-Verify, from the HomeKit Accessory Protocol: what an
    accessory answers to the controller's ephemeral key, what it accepts as the
    third message, and its keys of the control channel. *)
Module Accessory.
Section Accessory.
Context `{EVP}.

Record State := mkState {
  identifier : Bytes;
  long_term : Bytes * Bytes;
  ephemeral : Bytes * Bytes
}.

Definition exchange_key (shared : Bytes) : Bytes :=
  hkdf_sha512 shared (bs "Pair-Verify-Encrypt-Salt") (bs "Pair-Verify-Encrypt-Info") 32.

Definition answer (acc : State) (controller_ephemeral : Bytes) : option (list (Z * Bytes)) :=
  shared ← x25519_shared (ephemeral acc).1 controller_ephemeral;
  signature ← ed25519_sign (long_term acc).1 ((ephemeral acc).2 ++ identifier acc ++ controller_ephemeral);
  sealed ← seal (exchange_key shared) (bs "PV-Msg02") (encode_tlv8 [(1, identifier acc); (10, signature)]);
  Some [(6, [2]); (3, (ephemeral acc).2); (5, sealed)].

(** [message]: the body of the third message; [controller]: the identifier and
    the public key it has on record. *)
Definition accepts (acc : State) (controller_ephemeral : Bytes) (controller : Bytes * Bytes) (message : Bytes) : Prop :=
  exists shared sealed plain signature,
    x25519_shared (ephemeral acc).1 controller_ephemeral = Some shared /\
    decode_tlv8 message !! 6 = Some [3] /\ decode_tlv8 message !! 5 = Some sealed /\
    open (exchange_key shared) (bs "PV-Msg03") sealed = Some plain /\
    decode_tlv8 plain !! 1 = Some controller.1 /\ decode_tlv8 plain !! 10 = Some signature /\
    ed25519_verify controller.2 (controller_ephemeral ++ controller.1 ++ (ephemeral acc).2) signature = true.
End Accessory.
End Accessory.

(** A response with status 200 and a body. *)
Definition response_of (body : Bytes) : Bytes :=
  crlf_lines [bs "RTSP/1.0 200 OK"; bs "Content-Length: " ++ dec (size_of body)] ++ CRLF ++ body.

(** The turns bring [bytes] in pieces of any sizes. *)
Inductive delivers : list RecvTurn -> Bytes -> Prop :=
| delivers_all turns : delivers turns []
| delivers_idle turns bytes : delivers turns bytes -> delivers (Idle :: turns) bytes
| delivers_data turns data bytes : delivers turns bytes -> delivers (Received data :: turns) (data ++ bytes).

Lemma collect_delivers total turns rest : forall pre,
  complete_response_size total = Some (length total) -> size_of total <= kMaxResponseBytes ->
  delivers turns rest -> pre ++ rest = total -> collect_response turns pre = Some total.
Proof.
  intros pre Hc Hl Hd. revert pre. induction Hd as [turns|turns b Hd IH|turns d b Hd IH]; intros pre Ht.
  - rewrite app_nil_r in Ht. subst pre. destruct turns; cbn [collect_response]; by rewrite Hc.
  - cbn [collect_response]. destruct (complete_response_size pre) as [n|] eqn:E; [|by apply IH].
    apply (complete_size_extend _ b) in E as [Hle E]. rewrite Ht, Hc in E. injection E as <-.
    rewrite <- Ht, length_app in Hle. destruct b; [|simpl in Hle; lia]. by rewrite app_nil_r in Ht; subst.
  - cbn [collect_response]. destruct (complete_response_size pre) as [n|] eqn:E.
    { apply (complete_size_extend _ (d ++ b)) in E as [Hle E]. rewrite Ht, Hc in E. injection E as <-.
      rewrite <- Ht, length_app in Hle. destruct (d ++ b); [|simpl in Hle; lia].
      by rewrite app_nil_r in Ht; subst. }
    unfold append_limited. rewrite <- Ht in Hl. rewrite !size_app in Hl.
    pose proof (size_nonneg pre). pose proof (size_nonneg b). pose proof (size_nonneg d).
    rewrite (proj2 (Z.ltb_ge _ _)), (proj2 (Z.ltb_ge _ _)) by lia. cbn [orb]. apply IH.
    by rewrite <- app_assoc.
Qed.

Lemma response_of_parses body :
  size_of (response_of body) <= kMaxResponseBytes ->
  complete_response_size (response_of body) = Some (length (response_of body)) /\
  exists h, parse_response (response_of body) = Some (mkResponse 200 h body).
Proof.
  unfold response_of. set (lines := [_; _]). intros Hl. pose proof (size_nonneg body).
  assert (size_of body <= kMaxContentLength) as Hb.
  { rewrite !size_app in Hl. pose proof (size_nonneg (crlf_lines lines)). unfold kMaxContentLength, kMaxResponseBytes in *.
    unfold size_of in Hl at 2. simpl in Hl. lia. }
  assert (Forall line_ok [bs "Content-Length: " ++ dec (size_of body)]) as Hlen.
  { apply Forall_singleton. split; [|done]. apply Forall_app_2; [by apply bs_line|by apply dec_line]. }
  assert (Forall line_ok lines) as Hok.
  { apply Forall_cons_2; [|exact Hlen]. split; [by apply bs_line|done]. }
  assert (scan_lines lines kContentLengthNotSet = Some (size_of body)) as Hscan.
  { unfold lines. cbn [scan_lines]. change (scan_line (bs "RTSP/1.0 200 OK") kContentLengthNotSet)
      with (Some kContentLengthNotSet). cbn [mbind option_bind].
    rewrite scan_line_content_length by (unfold kMaxContentLength in *; lia). done. }
  split.
  - rewrite (complete_size_lines lines body (size_of body)) by (done || lia).
    f_equal. rewrite !length_app. unfold size_of. simpl. lia.
  - eexists. rewrite <- (app_nil_r body) at 1.
    apply (parse_lines_response 200 (bs "OK") [bs "Content-Length: " ++ dec (size_of body)] body []); try done.
    by apply bs_line.
Qed.

Lemma post_honest path cseq fields headers answer turns rest s :
  exchanges s = (true, turns) :: rest -> delivers turns (response_of (encode_tlv8 answer)) ->
  size_of (response_of (encode_tlv8 answer)) <= kMaxResponseBytes ->
  post path cseq fields headers s =
    (Some (decode_tlv8 (encode_tlv8 answer)),
     mkSurroundings rest (requests s ++ [encode_request (bs "POST") path cseq (encode_tlv8 fields)
                                            (bs "application/pairing+tlv8") headers]) (files s)).
Proof.
  intros He Hd Hl. destruct (response_of_parses _ Hl) as [Hc (h & Hp)].
  unfold post, mbind, fallible_bind, exchange. rewrite He. cbn [negb].
  rewrite (collect_delivers _ _ _ [] Hc Hl Hd) by done. rewrite Hp. reflexivity.
Qed.

#[local] Transparent check from_option.

(** Membership in a literal list of fields. *)
Ltac in_fields := repeat first [apply list_elem_of_here | apply list_elem_of_further].

Section Honest.
Context `{Hop : EVP} {Hevp : EVPLaws} {Hkeys : KeyLaws}.
Context (pairing : PairingRecord) (acc : Accessory.State) (eph : Bytes * Bytes) (i j k l : nat).
Context (Hctl : evp_keygen_ed25519 i = Some (private_key pairing, PairingStore.public_key pairing))
  (Hacc : evp_keygen_ed25519 j = Some (Accessory.long_term acc))
  (Hknown : accessory_public_key pairing = (Accessory.long_term acc).2)
  (Hpeer : evp_keygen_x25519 k = Some (Accessory.ephemeral acc))
  (Heph : evp_keygen_x25519 l = Some eph)
  (Hid : Accessory.identifier acc <> []) (Hcid : controller_id pairing <> []).

Lemma hkdf_size ikm salt info n : size_of (hkdf_sha512 ikm salt info n) = Z.of_nat n.
Proof using Hkeys.
  unfold hkdf_sha512. destruct (hkdf_total ikm salt info n) as (key & -> & <-). done.
Qed.

Lemma seal_total key label plain : size_of key = 32 -> exists sealed, seal key label plain = Some sealed /\ sealed <> [].
Proof using Hkeys Hevp.
  intros Hk. unfold seal.
  assert (size_of (nonce_for_label label) = 12) as Hn.
  { unfold nonce_for_label, size_of. rewrite !length_app, repeat_length, !length_take. change (length [0; 0; 0; 0]) with 4%nat. lia. }
  destruct (seal_with_nonce key (nonce_for_label label) plain []) as [sealed|] eqn:E.
  - exists sealed. split; [done|]. apply seal_with_nonce_length in E. by destruct sealed; [simpl in E; lia|].
  - unfold seal_with_nonce in E. rewrite Hk, Hn in E. cbn [negb orb Z.eqb Pos.eqb] in E.
    destruct (encrypt_total key (nonce_for_label label) [] plain) as [[c t] Hc]. by rewrite Hc in E.
Qed.

Lemma public_not_nil n a : evp_keygen_x25519 n = Some a -> a.2 <> [].
Proof using Hkeys.
  intros Ha%x25519_public_size He. by rewrite He in Ha.
Qed.

(** The answer of the accessory passes every check of the second message. *)
Lemma answer_verified fields s :
  Accessory.answer acc eph.2 = Some fields ->
  exists shared, x25519_shared (Accessory.ephemeral acc).1 eph.2 = Some shared /\
    verify_m2 pairing eph (decode_tlv8 (encode_tlv8 fields)) s
    = (Some ((Accessory.ephemeral acc).2, shared, Accessory.exchange_key shared), s).
Proof using Hkeys Hevp Hacc Hknown Hpeer Heph Hid.
  unfold Accessory.answer. destruct (x25519_shared _ _) as [shared|] eqn:Es; [|done].
  cbn [mbind option_bind]. unfold ed25519_sign.
  destruct (sign_total j _ ((Accessory.ephemeral acc).2 ++ Accessory.identifier acc ++ eph.2) Hacc)
    as (signature & Hsig & Hne). rewrite Hsig. cbn [mbind option_bind].
  set (key := Accessory.exchange_key shared). assert (size_of key = 32) as Hkey by apply hkdf_size.
  set (inner := encode_tlv8 _). destruct (seal_total key (bs "PV-Msg02") inner Hkey) as (sealed & Hseal & Hsne).
  rewrite Hseal. cbn [mbind option_bind]. intros [= <-]. exists shared. split; [done|].
  assert (x25519_shared eph.1 (Accessory.ephemeral acc).2 = Some shared) as Hsh.
  { unfold x25519_shared in *. by rewrite (dh_agree l k eph _ Heph Hpeer). }
  assert (NoDup [6; 3; 5] /\ NoDup [1; 10]) as [Hd1 Hd2].
  { split; apply (bool_decide_unpack _); vm_compute; exact I. }
  assert (forall t v, (t, v) ∈ [(6, [2]); (3, (Accessory.ephemeral acc).2); (5, sealed)] -> v <> [] ->
    decode_tlv8 (encode_tlv8 [(6, [2]); (3, (Accessory.ephemeral acc).2); (5, sealed)]) !! t = Some v) as Hout
    by (intros t v; by apply decode_field).
  assert (forall t v, (t, v) ∈ [(1, Accessory.identifier acc); (10, signature)] -> v <> [] ->
    decode_tlv8 inner !! t = Some v) as Hin by (intros t v; by apply decode_field).
  unfold verify_m2, mbind, fallible_bind, from_option.
  rewrite (Hout 3 (Accessory.ephemeral acc).2); [|in_fields|by eapply public_not_nil].
  rewrite Hsh. rewrite (Hout 5 sealed); [|in_fields|exact Hsne]. rewrite (Hout 6 [2]); [|in_fields|discriminate].
  fold (Accessory.exchange_key shared). fold key. rewrite (open_seal _ _ _ _ Hseal).
  unfold check. rewrite bool_decide_eq_true_2, Hkey by done. cbn [andb Z.eqb Pos.eqb].
  rewrite (Hin 1 (Accessory.identifier acc)); [|in_fields|exact Hid]. rewrite (Hin 10 signature); [|in_fields|exact Hne].
  unfold ed25519_verify. rewrite Hknown, (sign_verifies _ _ _ _ Hacc Hsig). reflexivity.
Qed.

(** The third message is one the accessory accepts. *)
Lemma third_message_accepted shared s :
  x25519_shared (Accessory.ephemeral acc).1 eph.2 = Some shared ->
  exists encrypted,
    verify_m3 pairing eph (Accessory.ephemeral acc).2 (Accessory.exchange_key shared) s = (Some encrypted, s) /\
    Accessory.accepts acc eph.2 (controller_id pairing, PairingStore.public_key pairing)
      (encode_tlv8 [(6, [3]); (5, encrypted)]).
Proof using Hkeys Hevp Hctl Hcid.
  intros Hsh. unfold verify_m3, mbind, fallible_bind, from_option, ed25519_sign.
  destruct (sign_total i _ (eph.2 ++ controller_id pairing ++ (Accessory.ephemeral acc).2) Hctl)
    as (signature & Hsig & Hne). cbn [fst] in Hsig. rewrite Hsig.
  set (inner := encode_tlv8 _).
  destruct (seal_total (Accessory.exchange_key shared) (bs "PV-Msg03") inner (hkdf_size _ _ _ _))
    as (sealed & Hseal & Hsne). rewrite Hseal. exists sealed. split; [done|].
  assert (NoDup [6; 5] /\ NoDup [1; 10]) as [Hd1 Hd2].
  { split; apply (bool_decide_unpack _); vm_compute; exact I. }
  exists shared, sealed, inner, signature.
  split_and!.
  - exact Hsh.
  - apply decode_field; [exact Hd1|in_fields|discriminate].
  - apply decode_field; [exact Hd1|in_fields|exact Hsne].
  - by apply open_seal.
  - apply decode_field; [exact Hd2|in_fields|exact Hcid].
  - apply decode_field; [exact Hd2|in_fields|exact Hne].
  - exact (sign_verifies _ _ _ _ Hctl Hsig).
Qed.
End Honest.

(** ** Theorems *)

(** C2. What Pair-Setup gives away, and what it accepts. However the run ends, at
    most three requests were sent, and they are the greeting, the client's half of
    SRP for the challenge in the first answer, and the identity drawn for this run,
    sealed. The third is sent only after the second answer brought the proof of SRP
    for this run's key, which is SHA-512 of the client's public key, its proof and the
    session key; and a record is produced only when the third answer holds, sealed with a
    key derived from that session key, a long-term key and a signature with it over
    itself and a value derived from the session key. *)
Theorem pair_setup_authenticated `{Digest} `{EVP} headers draws s :
  let '(r, s') := pair_setup headers draws s in
  exists n srp controller id identity, (n <= 3)%nat /\ files s' = files s /\
    requests s' = requests s ++ take n (setup_requests headers srp identity) /\
    ((2 <= n)%nat -> challenged s draws srp) /\
    ((3 <= n)%nat -> server_proven s srp /\ holds_identity draws srp controller id identity) /\
    forall record, r = Some record -> n = 3%nat /\
      (private_key record, PairingStore.public_key record) = controller /\ controller_id record = id /\
      accessory_signed s srp (accessory_public_key record).
Proof. destruct (pair_setup headers draws s) as [r s'] eqn:E. by apply pair_setup_outcome in E. Qed.

(** C3. The control channel belongs to the paired accessory. When the pairing
    phase succeeds, the identity came from the store with nothing sent for it, or
    from a Pair-Setup that the accessory passed, after which the store loads as
    exactly this identity; the accessory with the recorded long-term key signed
    both ephemeral keys of this run; and the two keys of the control channel are
    derived from the secret shared with it and have 32 octets. *)
Theorem control_channel_authenticated `{Digest} `{EVP} store now draws s d results pairing v s' :
  files s = start_world d results ->
  authenticate store now draws s = (Some (pairing, v), s') ->
  exists s1 ephemeral,
    identity_source store draws pairing s s1 /\
    x25519_generate (ephemeral_keys draws) = Some ephemeral /\
    accessory_verified pairing ephemeral (shared v) /\
    control_read v = control_key (shared v) "Control-Read-Encryption-Key" /\
    control_write v = control_key (shared v) "Control-Write-Encryption-Key" /\
    size_of (control_read v) = 32 /\ size_of (control_write v) = 32 /\ sends 2 s1 s'.
Proof.
  intros Hw Hr. unfold authenticate in Hr. apply bind_ok in Hr as (p & s1 & Hp & Hr).
  apply bind_ok in Hr as (v1 & s2 & Hv & Hr). apply ret_run in Hr as [[= -> ->] ->].
  apply (establish_pairing_run _ _ _ _ _ _ d results Hw) in Hp.
  apply pair_verify_run in Hv as (Hs & ephemeral & Hv). exists s1, ephemeral. tauto.
Qed.

(** An accessory and a controller for the examples. *)
Lemma toy_key_laws : @KeyLaws Toy.toy_evp.
Proof.
  assert (forall x y n, zip_with Z.add (repeat x n) (repeat y n) = zip_with Z.add (repeat y n) (repeat x n)) as Hz.
  { intros x y n. induction n as [|n IH]; [done|]. cbn. rewrite IH. f_equal. lia. }
  split; cbn -[repeat].
  - intros m n a b Ha Hb. apply (inj Some) in Ha as <-. apply (inj Some) in Hb as <-. f_equal. apply Hz.
  - by intros n a [= <-].
  - intros n k data signature [= <-] [= <-]. apply bytes_eqb_refl.
  - intros n k data [= <-]. eexists. by split.
  - intros ikm salt info n. eexists. split; [done|]. rewrite length_take, length_app, repeat_length. lia.
  - by eexists.
Qed.

Definition demo_accessory : Accessory.State :=
  Accessory.mkState (bs "acc") (repeat 3 32, repeat 3 32) (repeat 4 32, repeat 4 32).
Definition demo_record : PairingRecord := mkRecord (bs "ctl") (repeat 5 32) (repeat 5 32) (repeat 3 32).
Definition demo_draws : Draws := mkDraws None 0 None 6 (bs "x").
Definition demo_answer : list (Z * Bytes) :=
  default [] (@Accessory.answer Toy.toy_evp demo_accessory (repeat 6 32)).
Definition demo_surroundings : Surroundings :=
  mkSurroundings [(true, [Idle; Received (take 20 (response_of (encode_tlv8 demo_answer)));
                          Received (drop 20 (response_of (encode_tlv8 demo_answer)))]);
                  (true, [Received (response_of (encode_tlv8 [(6, [4])]))])] []
    (start_world {[ bs "store" := record_content demo_record ]} []).

Lemma control_channel_authenticated_witness :
  exists v s', @authenticate toy_digest Toy.toy_evp (bs "store") 0 demo_draws demo_surroundings
    = (Some (demo_record, v), s') /\ size_of (control_read v) = 32.
Proof.
  destruct (authenticate (bs "store") 0 demo_draws demo_surroundings) as [r s'] eqn:E.
  assert (fmap fst r = Some demo_record) as Hr.
  { rewrite <- (f_equal fst E : _ = r). vm_compute. reflexivity. }
  destruct r as [[record v]|]; [|done]. cbn in Hr. injection Hr as ->. exists v, s'. split; [done|].
  destruct (@control_channel_authenticated toy_digest Toy.toy_evp (bs "store") 0 demo_draws demo_surroundings
    {[ bs "store" := record_content demo_record ]} [] demo_record v s' eq_refl E)
    as (s1 & ephemeral & _ & _ & _ & _ & _ & Hk & _). exact Hk.
Defined.

(** Pair-Verify succeeds with an honest accessory. For key agreement,
    signatures and a cipher that meet their documentation, whenever the accessory
    the controller is paired with answers as its protocol says, in pieces of any
    sizes and with any pauses, the run succeeds: both sides share one secret, the
    two requests are the documented ones, and the accessory accepts the second. *)
Theorem honest_accessory_verifies `{EVPLaws} `{!KeyLaws} headers draws pairing acc eph i j k fields
    turns1 turns2 rest s :
  evp_keygen_ed25519 i = Some (private_key pairing, PairingStore.public_key pairing) ->
  evp_keygen_ed25519 j = Some (Accessory.long_term acc) ->
  accessory_public_key pairing = (Accessory.long_term acc).2 ->
  evp_keygen_x25519 k = Some (Accessory.ephemeral acc) ->
  evp_keygen_x25519 (ephemeral_keys draws) = Some eph ->
  Accessory.identifier acc <> [] -> controller_id pairing <> [] ->
  Accessory.answer acc eph.2 = Some fields ->
  exchanges s = (true, turns1) :: (true, turns2) :: rest ->
  delivers turns1 (response_of (encode_tlv8 fields)) ->
  size_of (response_of (encode_tlv8 fields)) <= kMaxResponseBytes ->
  delivers turns2 (response_of (encode_tlv8 [(6, [4])])) ->
  exists shared m3,
    x25519_shared (Accessory.ephemeral acc).1 eph.2 = Some shared /\
    pair_verify headers draws pairing s =
      (Some (mkVerified shared (control_key shared "Control-Read-Encryption-Key")
               (control_key shared "Control-Write-Encryption-Key")),
       mkSurroundings rest
         (requests s ++ [encode_request (bs "POST") (bs "/pair-verify") 4
                           (encode_tlv8 [(6, [1]); (3, eph.2)]) (bs "application/pairing+tlv8") headers]
                     ++ [encode_request (bs "POST") (bs "/pair-verify") 5 m3
                           (bs "application/pairing+tlv8") headers]) (files s)) /\
    Accessory.accepts acc eph.2 (controller_id pairing, PairingStore.public_key pairing) m3.
Proof.
  intros Hctl Hacc Hknown Hpeer Heph Hid Hcid Hans He Hd1 Hl1 Hd2.
  assert (size_of (response_of (encode_tlv8 [(6, [4])])) <= kMaxResponseBytes) as Hl2
    by (vm_compute; discriminate).
  set (s1 := mkSurroundings ((true, turns2) :: rest) (requests s ++ [encode_request (bs "POST")
    (bs "/pair-verify") 4 (encode_tlv8 [(6, [1]); (3, eph.2)]) (bs "application/pairing+tlv8") headers]) (files s)).
  destruct (answer_verified pairing acc eph j k (ephemeral_keys draws) Hacc Hknown Hpeer Heph Hid fields s1 Hans)
    as (shared & Hsh & Hm2).
  destruct (third_message_accepted pairing acc eph i Hctl Hcid shared s1 Hsh) as (encrypted & Hm3 & Hacc3).
  exists shared, (encode_tlv8 [(6, [3]); (5, encrypted)]). split_and!; [exact Hsh| |exact Hacc3].
  unfold pair_verify, mbind, fallible_bind, from_option at 1, x25519_generate. rewrite Heph.
  rewrite (post_honest _ _ _ _ fields turns1 ((true, turns2) :: rest)) by done. fold s1. rewrite Hm2, Hm3.
  rewrite (post_honest _ _ _ _ [(6, [4])] turns2 rest) by done. unfold check at 1.
  rewrite bool_decide_eq_true_2 by (vm_compute; reflexivity). unfold control_keys, mbind, fallible_bind, check.
  rewrite !hkdf_size. cbn [Z.of_nat Z.eqb Pos.eqb Pos.of_succ_nat Pos.succ andb]. unfold s1. cbn [requests files]. rewrite <- app_assoc. reflexivity.
Qed.

Lemma honest_accessory_verifies_witness :
  exists shared, (@pair_verify Toy.toy_evp (pairing_headers 0 2) demo_draws demo_record demo_surroundings).1
  = Some (mkVerified shared (@control_key Toy.toy_evp shared "Control-Read-Encryption-Key")
            (@control_key Toy.toy_evp shared "Control-Write-Encryption-Key")).
Proof.
  pose proof Toy.toy_laws as Hl. pose proof toy_key_laws as Hk.
  destruct (@honest_accessory_verifies Toy.toy_evp Hl Hk (pairing_headers 0 2) demo_draws demo_record
    demo_accessory (repeat 6 32, repeat 6 32) 5 3 4 demo_answer
    [Idle; Received (take 20 (response_of (encode_tlv8 demo_answer)));
     Received (drop 20 (response_of (encode_tlv8 demo_answer)))]
    [Received (response_of (encode_tlv8 [(6, [4])]))] [] demo_surroundings) as (shared & m3 & _ & -> & _);
    try reflexivity; try (vm_compute; discriminate).
  - apply delivers_idle. rewrite <- (take_drop 20 (response_of (encode_tlv8 demo_answer))) at 3.
    apply delivers_data. rewrite <- (app_nil_r (drop 20 _)). apply delivers_data, delivers_all.
  - rewrite <- (app_nil_r (response_of _)). apply delivers_data, delivers_all.
  - by exists shared.
Defined.
