(* ===== verification/SessionChannel.v ===== *)
(** * The encrypted channels of the AirPlay session

    [src/src/airplay/session.cpp]: a request on the control channel and the wait
    for its response ([send_encrypted]), the event channel on which the head unit
    sends requests of its own, the clock, and the socket loops under them.  What
    [poll], [recv], [send] and the clock answer at every turn is an argument. *)

From S2P Require Import Prelude Text Crypto ControlCipher Rtsp CarplayIpc.
#[local] Open Scope Z_scope.

(** ** Sockets *)

(** The loop has the same turns as the one of the frame sockets. *)
(* src/src/airplay/session.cpp:237-274 send_all *)
Definition send_all (turns : list Turn) (bytes : Bytes) : bool * Bytes * list Turn :=
  CarplayIpc.send_all turns bytes.

(** A datagram goes out whole or not at all. *)
(* src/src/airplay/session.cpp:200-235 send_udp_packet *)
Fixpoint send_udp_packet (turns : list Turn) (bytes : Bytes) : bool :=
  match turns with
  | [] => false
  | turn :: turns =>
      match turn with
      | StopRequested | DeadlinePassed | PollFailed | Unusable | TransferFailed => false
      | PollInterrupted | PollTimeout | TryAgain => send_udp_packet turns bytes
      | Transfer n => Nat.eqb n (length bytes)
      end
  end.

(** What the system answers to the attempt to connect to one address: whether
    time is left, the results of [socket] and [fcntl], whether [connect] succeeded
    or is in progress, what [poll] and [getsockopt] report ([None]: not ready in
    time), and [fcntl] again. *)
Record Attempt := mkAttempt {
  time_left : bool;
  socket_ok : bool;
  nonblocking_ok : bool;
  connect_ok : bool;
  socket_error : option Z;
  restore_ok : bool
}.

Inductive FdEvent := Opened (n : nat) | ClosedFd (n : nat).

(** The address that is connected, and the descriptors opened and closed on the
    way; the descriptor of attempt [n] is [n]. *)
(* src/src/airplay/session.cpp:106-154 connect_tcp_with_timeout *)
Fixpoint connect_tcp_with_timeout (n : nat) (attempts : list Attempt) : option nat * list FdEvent :=
  match attempts with
  | [] => (None, [])
  | a :: attempts =>
      if negb (time_left a) then (None, [])
      else if negb (socket_ok a) then connect_tcp_with_timeout (S n) attempts
      else
        let retry := let '(r, events) := connect_tcp_with_timeout (S n) attempts in
                     (r, Opened n :: ClosedFd n :: events) in
        if negb (nonblocking_ok a) then retry
        else if negb (connect_ok a) then retry
        else match socket_error a with
             | Some error => if (error =? 0) && restore_ok a then (Some n, [Opened n]) else retry
             | None => retry
             end
  end.

(** ** The clock *)

(** [nanoseconds]: the system clock since the Unix epoch. *)
(* src/src/airplay/session.cpp:405-415 ntp_timestamp *)
Definition ntp_timestamp (nanoseconds : Z) : Z :=
  let seconds := nanoseconds / 1000000000 in
  let fraction := nanoseconds mod 1000000000 in
  Z.lor (u64 (Z.shiftl (u64 (seconds + 2208988800)) 32)) (u64 (Z.shiftl fraction 32) / 1000000000).

(* src/src/airplay/session.cpp:417-420 write_ntp_timestamp *)
Definition write_ntp_timestamp (value : Z) : Bytes := be_bytes 8 value.

(** The answer to a datagram of [count] octets received into [request]; the
    clock is read twice. *)
(* src/src/airplay/session.cpp:453-464 service_timing_channel *)
Definition timing_response (request : Bytes) (now1 now2 : Z) : option Bytes :=
  let request := take 64 request in
  if (size_of request <? 32) || negb (byte_at request 1 =? 210) then None
  else Some ([128; 211; 0; 7; 0; 0; 0; 0] ++ subspan 24 8 request
             ++ write_ntp_timestamp (ntp_timestamp now1) ++ write_ntp_timestamp (ntp_timestamp now2)).

Section Channels.
Context `{EVP}.

(** ** A request on the control channel *)

(* src/src/airplay/session.cpp:314-314 send_encrypted (kMaxResponseBytes) *)
Definition kMaxResponseBytes : Z := 1024 * 1024.

(** What the inner loop ends with: an answer for the caller, or nothing until
    more data arrives. *)
Inductive Scan :=
| Finished (response : option Response) (encrypted_buffer : Bytes) (cipher : ControlCipher)
| Waiting (encrypted_buffer response_plaintext : Bytes) (cipher : ControlCipher).

(** The response answers another request, or names none. *)
(* src/src/airplay/session.cpp:345-358 send_encrypted (expected_cseq) *)
Definition wrong_cseq (expected_cseq : option Z) (parsed : Response) : bool :=
  match expected_cseq with
  | None => false
  | Some expected =>
      match headers parsed !! bs "cseq" with
      | None => true
      | Some value => negb (bytes_eqb value (dec expected))
      end
  end.

(** The frames in the buffer, one after another; a frame that is taken shortens
    the buffer, so its length is fuel enough ([scan_frames_fuel]). *)
(* src/src/airplay/session.cpp:302-361 send_encrypted (frames) *)
Fixpoint scan_frames (fuel : nat) (expected_cseq : option Z) (encrypted_buffer response_plaintext : Bytes)
    (cipher : ControlCipher) : Scan :=
  match fuel with
  | O => Waiting encrypted_buffer response_plaintext cipher
  | S fuel =>
      match decrypt_one encrypted_buffer cipher with
      | (None, buffer, c) => Finished None buffer c
      | (Some [], buffer, c) => Waiting buffer response_plaintext c
      | (Some frame, buffer, c) =>
          let plaintext := response_plaintext ++ frame in
          if kMaxResponseBytes <? size_of plaintext then Finished None buffer c
          else match complete_response_size plaintext with
          | None =>
              if (64 * 1024 <? size_of plaintext) && bool_decide (search CRLFCRLF plaintext = None)
              then Finished None buffer c
              else scan_frames fuel expected_cseq buffer plaintext c
          | Some complete =>
              match parse_response plaintext with
              | None => Finished None buffer c
              | Some parsed =>
                  if wrong_cseq expected_cseq parsed
                  then Waiting buffer (drop complete plaintext) c
                  else Finished (Some parsed) buffer c
              end
          end
      end
  end.

(** A turn of the waiting loop: the deadline or a stop request at its top, a
    [poll] or [recv] to be tried again, a failure, data, or the end of the
    stream. *)
Inductive ChannelTurn :=
| Expired
| Again
| Broken
| Data (bytes : Bytes)
| EndOfStream.

(** The result with what is left of the encrypted buffer and the cipher; the
    plaintext is local and lost. *)
(* src/src/airplay/session.cpp:296-402 send_encrypted (wait) *)
Fixpoint await_response (turns : list ChannelTurn) (expected_cseq : option Z)
    (encrypted_buffer response_plaintext : Bytes) (cipher : ControlCipher)
    : option Response * Bytes * ControlCipher :=
  match turns with
  | [] | Expired :: _ => (None, encrypted_buffer, cipher)
  | turn :: turns =>
      match scan_frames (S (length encrypted_buffer)) expected_cseq encrypted_buffer response_plaintext cipher with
      | Finished response buffer c => (response, buffer, c)
      | Waiting buffer plaintext c =>
          match turn with
          | Again => await_response turns expected_cseq buffer plaintext c
          | Data bytes => await_response turns expected_cseq (buffer ++ bytes) plaintext c
          | _ => (None, buffer, c)
          end
      end
  end.

(** With the octets the socket took. *)
(* src/src/airplay/session.cpp:276-403 send_encrypted *)
Definition send_encrypted (send_turns : list Turn) (turns : list ChannelTurn) (plaintext : Bytes)
    (expected_cseq : option Z) (encrypted_buffer : Bytes) (cipher : ControlCipher)
    : (option Response * Bytes * ControlCipher) * Bytes :=
  match encrypt plaintext cipher with
  | (None, c) => ((None, encrypted_buffer, c), [])
  | (Some encrypted, c) =>
      let '(ok, sent, _) := send_all send_turns encrypted in
      if negb ok then ((None, encrypted_buffer, c), sent)
      else (await_response turns expected_cseq encrypted_buffer [] c, sent)
  end.

(** ** The event channel *)

(* src/src/airplay/session.cpp:524-524 service_event_channel (kMaximumEncryptedEventBuffer) *)
Definition kMaximumEncryptedEventBuffer : Z := 2 * 1024 * 1024.
(* src/src/airplay/session.cpp:555-555 service_event_channel (kMaximumEventBytes) *)
Definition kMaximumEventBytes : Z := 1024 * 1024.
(* src/src/airplay/session.cpp:556-556 service_event_channel (kMaximumEventHeaders) *)
Definition kMaximumEventHeaders : Z := 64 * 1024.

(** The header lines of a request: the CSeq, the length of the body and whether it
    was given; [None] when the request is malformed. *)
(* src/src/airplay/session.cpp:595-625 service_event_channel (headers) *)
Fixpoint event_headers (lines : list Bytes) (cseq : Bytes) (body_size : Z) (content_length_seen : bool)
    : option (Bytes * Z * bool) :=
  match lines with
  | [] => Some (cseq, body_size, content_length_seen)
  | line :: lines =>
      let line := if bool_decide (last line = Some 13) then take (length line - 1) line else line in
      match find_char 58 line with
      | None => event_headers lines cseq body_size content_length_seen
      | Some separator =>
          let name := lower (take separator line) in
          let value := trim (drop (separator + 1) line) in
          if bytes_eqb name (bs "cseq") then event_headers lines value body_size content_length_seen
          else if bytes_eqb name (bs "content-length") then
            if content_length_seen then None
            else match parse_unsigned (2 ^ 64 - 1) value with
                 | None => None
                 | Some parsed =>
                     if kMaximumEventBytes <? parsed then None else event_headers lines cseq parsed true
                 end
          else event_headers lines cseq body_size content_length_seen
      end
  end.

(** The size of the request at the front of the plaintext and its CSeq. *)
Inductive EventScan :=
| NotYet
| Malformed
| Request (request_size : nat) (cseq : Bytes).

(* src/src/airplay/session.cpp:565-636 service_event_channel (framing) *)
Definition scan_event (plaintext : Bytes) : EventScan :=
  match search CRLFCRLF plaintext with
  | None => if kMaximumEventHeaders <? size_of plaintext then Malformed else NotYet
  | Some header_end =>
      if kMaximumEventHeaders <? Z.of_nat header_end then Malformed
      else
        let body_start := Z.of_nat header_end + 4 in
        match event_headers (getlines (take header_end plaintext)) [] 0 false with
        | Some (cseq, body_size, true) =>
            if (kMaximumEventBytes <? body_size) || (kMaximumEventBytes - body_size <? body_start) then Malformed
            else if size_of plaintext <? body_start + body_size then NotYet
            else Request (Z.to_nat (body_start + body_size)) cseq
        | _ => Malformed
        end
  end.

(* src/src/airplay/session.cpp:646-650 service_event_channel (response) *)
Definition event_response (cseq : Bytes) : Bytes :=
  bs "HTTP/1.1 200 OK" ++ CRLF ++ bs "Content-Length: 0" ++ CRLF ++ bs "Audio-Latency: 0" ++ CRLF
  ++ (if bytes_eqb cseq [] then [] else bs "CSeq:" ++ cseq ++ CRLF) ++ CRLF.

(** [events] and [answered] are ghosts: the requests the callback got and the
    CSeqs answered, in order.
    [writes] are the outcomes of the [send_all] calls to come. *)
(* src/src/airplay/session.cpp:511-515 service_event_channel (state) *)
Record EventChannel := mkEvents {
  cipher : ControlCipher;
  encrypted_buffer : Bytes;
  plaintext : Bytes;
  writes : list bool;
  events : list Bytes;
  answered : list Bytes
}.

(* src/src/airplay/session.cpp:506-516 service_event_channel (start) *)
Definition new_channel (read_key write_key : Bytes) (writes : list bool) : EventChannel :=
  mkEvents (new_cipher read_key write_key) [] [] writes [] [].

(** One frame's plaintext; [true] while the channel stays open. *)
(* src/src/airplay/session.cpp:557-662 service_event_channel (frame) *)
Definition handle_frame (frame : Bytes) (s : EventChannel) : bool * EventChannel :=
  if kMaximumEventBytes - Z.min (size_of (plaintext s)) kMaximumEventBytes <? size_of frame
  then (false, s)
  else
    let text := plaintext s ++ frame in
    let s := mkEvents (cipher s) (encrypted_buffer s) text (writes s) (events s) (answered s) in
    match scan_event text with
    | NotYet => (true, s)
    | Malformed => (false, s)
    | Request request_size cseq =>
        let s := mkEvents (cipher s) (encrypted_buffer s) text (writes s)
                   (events s ++ [take request_size text]) (answered s) in
        match encrypt (event_response cseq) (cipher s) with
        | (None, c) => (false, mkEvents c (encrypted_buffer s) text (writes s) (events s) (answered s))
        | (Some _, c) =>
            match writes s with
            | true :: writes =>
                (true, mkEvents c (encrypted_buffer s) (drop request_size text) writes (events s)
                         (answered s ++ [cseq]))
            | _ => (false, mkEvents c (encrypted_buffer s) text [] (events s) (answered s))
            end
        end
    end.

(* src/src/airplay/session.cpp:541-663 service_event_channel (frames) *)
Fixpoint drain_events (fuel : nat) (s : EventChannel) : bool * EventChannel :=
  match fuel with
  | O => (true, s)
  | S fuel =>
      match decrypt_one (encrypted_buffer s) (cipher s) with
      | (None, buffer, c) =>
          (false, mkEvents c buffer (plaintext s) (writes s) (events s) (answered s))
      | (Some [], buffer, c) =>
          (true, mkEvents c buffer (plaintext s) (writes s) (events s) (answered s))
      | (Some frame, buffer, c) =>
          let '(alive, s) :=
            handle_frame frame (mkEvents c buffer (plaintext s) (writes s) (events s) (answered s)) in
          if negb alive then (false, s) else drain_events fuel s
      end
  end.

(* src/src/airplay/session.cpp:524-663 service_event_channel (received) *)
Definition receive_events (data : Bytes) (s : EventChannel) : bool * EventChannel :=
  if kMaximumEncryptedEventBuffer - Z.min (size_of (encrypted_buffer s)) kMaximumEncryptedEventBuffer <? size_of data
  then (false, s)
  else
    let buffer := encrypted_buffer s ++ data in
    let s := mkEvents (cipher s) buffer (plaintext s) (writes s) (events s) (answered s) in
    if kMaximumEncryptedEventBuffer <? size_of buffer then (false, s)
    else drain_events (S (length buffer)) s.

(** The data of successive [recv] calls until the channel closes or the script
    ends. *)
(* src/src/airplay/session.cpp:516-665 service_event_channel *)
Fixpoint service_event_channel (received : list Bytes) (s : EventChannel) : bool * EventChannel :=
  match received with
  | [] => (true, s)
  | data :: received =>
      let '(alive, s) := receive_events data s in
      if negb alive then (false, s) else service_event_channel received s
  end.
End Channels.

(** ** Facts: frames that are taken *)

Section ChannelFacts.
Context `{EVP}.

Lemma decrypt_one_taken buffer c p b c' :
  decrypt_one buffer c = (Some p, b, c') ->
  (p = [] /\ b = buffer /\ c' = c) \/
  exists frame, buffer = frame ++ b /\ (18 <= length frame)%nat /\ decrypt frame c = (Some p, c').
Proof.
  unfold decrypt_one. destruct (size_of buffer <? 2) eqn:E2; [naive_solver|].
  set (n := frame_length (byte_at buffer 0) (byte_at buffer 1)).
  destruct (size_of buffer <? n + 18) eqn:E; [naive_solver|]. bool_hyps.
  destruct (decrypt (take (Z.to_nat (n + 18)) buffer) c) as [[q|] c1] eqn:Ed; [|done].
  intros Hq. injection Hq as -> <- ->. right.
  exists (take (Z.to_nat (n + 18)) buffer). split_and!; [by rewrite take_drop| |done].
  unfold decrypt in Ed. destruct (size_of _ <? 18) eqn:E18; [done|]. bool_hyps. unfold size_of in *. lia.
Qed.

(** The plaintexts [ps] of consecutive frames at the front of a stream, which open
    under the key at the counters from [n] up to [n'], and the rest of the stream. *)
Inductive opens (key : Bytes) (n : Z) : Bytes -> list Bytes -> Z -> Bytes -> Prop :=
| opens_nil stream : opens key n stream [] n stream
| opens_cons frame stream p ps n' rest :
    open_with_nonce key (nonce_for_counter n) (drop 2 frame) (take 2 frame) = Some p ->
    opens key (u64 (n + 1)) stream ps n' rest ->
    opens key n (frame ++ stream) (p :: ps) n' rest.

Lemma opens_app key n stream ps n1 rest qs n2 rest2 :
  opens key n stream ps n1 rest -> opens key n1 rest qs n2 rest2 -> opens key n stream (ps ++ qs) n2 rest2.
Proof. induction 1; [done|]. intros Hq. cbn. econstructor; eauto. Qed.

Lemma opens_extend key n stream ps n' rest t :
  opens key n stream ps n' rest -> opens key n (stream ++ t) ps n' (rest ++ t).
Proof. induction 1; [constructor|]. rewrite <- app_assoc. by econstructor. Qed.

Lemma decrypt_opens frame c p c' :
  decrypt frame c = (Some p, c') ->
  open_with_nonce (read_key c) (nonce_for_counter (read_counter c)) (drop 2 frame) (take 2 frame) = Some p /\
  c' = mkCipher (read_key c) (write_key c) (u64 (read_counter c + 1)) (write_counter c).
Proof.
  unfold decrypt. destruct (_ <? 18); [done|]. destruct (negb _); [done|].
  destruct (open_with_nonce _ _ _ _) as [q|] eqn:E; [|done]. intros Hq. apply pair_eq in Hq as [[= ->] <-]. done.
Qed.

(** Whatever [decrypt_one] returns without failing. *)
Lemma decrypt_one_opens buffer c p b c' :
  decrypt_one buffer c = (Some p, b, c') ->
  read_key c' = read_key c /\
  exists ps, concat ps = p /\ opens (read_key c) (read_counter c) buffer ps (read_counter c') b.
Proof.
  intros [(-> & -> & ->)|(frame & -> & _ & Hd)]%decrypt_one_taken.
  - split; [done|]. exists []. split; [done|constructor].
  - apply decrypt_opens in Hd as [Ho ->]. split; [done|]. exists [p]. split; [apply app_nil_r|].
    econstructor; [done|constructor].
Qed.

Lemma decrypt_one_shorter buffer c p b c' :
  decrypt_one buffer c = (Some p, b, c') -> p <> [] -> (18 + length b <= length buffer)%nat.
Proof. intros [(-> & _)|(f & -> & H18 & _)]%decrypt_one_taken; [done|]. rewrite length_app. lia. Qed.

Lemma encrypt_reads p c o c' :
  encrypt p c = (o, c') -> read_key c' = read_key c /\ read_counter c' = read_counter c.
Proof.
  unfold encrypt. destruct (_ <? _); [by intros [= <- <-]|].
  destruct (seal_with_nonce _ _ _ _); by intros [= <- <-].
Qed.

(** The length of the buffer is fuel enough: more makes no difference. *)
Lemma scan_frames_fuel fuel : forall fuel' e buffer p c,
  (length buffer < fuel)%nat -> (fuel <= fuel')%nat ->
  scan_frames fuel' e buffer p c = scan_frames fuel e buffer p c.
Proof.
  induction fuel as [|fuel IH]; intros [|fuel'] e buffer p c Hl Hf; try lia.
  cbn [scan_frames]. destruct (decrypt_one buffer c) as [[[[|x frame]|] b] c1] eqn:Ed; [done| |done].
  apply decrypt_one_shorter in Ed; [|done]. by rewrite IH by lia.
Qed.

(** The first response in a text that is not [wrong_cseq]; the ones before it are
    dropped. *)
Inductive answers (e : option Z) : Bytes -> Response -> Prop :=
| answers_here text r :
    parse_response text = Some r -> wrong_cseq e r = false -> answers e text r
| answers_later text more n old r :
    complete_response_size text = Some n -> parse_response text = Some old -> wrong_cseq e old = true ->
    answers e (drop n text ++ more) r -> answers e (text ++ more) r.

(** What the inner loop took off the stream. *)
Definition scan_origin (e : option Z) (buffer p : Bytes) (c : ControlCipher) (s : Scan) : Prop :=
  match s with
  | Finished (Some r) b c' => read_key c' = read_key c /\ exists ps,
      opens (read_key c) (read_counter c) buffer ps (read_counter c') b /\ answers e (p ++ concat ps) r
  | Finished None _ _ => True
  | Waiting b q c' => read_key c' = read_key c /\ exists ps,
      opens (read_key c) (read_counter c) buffer ps (read_counter c') b /\
      forall more r, answers e (q ++ more) r -> answers e (p ++ concat ps ++ more) r
  end.

Lemma scan_frames_origin fuel : forall e buffer p c, scan_origin e buffer p c (scan_frames fuel e buffer p c).
Proof.
  induction fuel as [|fuel IH]; intros e buffer p c; cbn [scan_frames].
  { split; [done|]. exists []. split; [constructor|done]. }
  destruct (decrypt_one buffer c) as [[[frame|] b] c1] eqn:Ed; [|done].
  apply decrypt_one_opens in Ed as (Hk & ps & Hps & Ho). destruct frame as [|x frame].
  { split; [done|]. exists ps. split; [done|]. by rewrite Hps. }
  destruct (kMaxResponseBytes <? _); [done|].
  destruct (complete_response_size _) as [n|] eqn:En.
  - destruct (parse_response _) as [r|] eqn:Er; [|done].
    destruct (wrong_cseq e r) eqn:Ew; (split; [done|]); exists ps; (split; [done|]); rewrite Hps.
    + intros more r' Ha. rewrite app_assoc. by eapply answers_later.
    + by apply answers_here.
  - destruct (_ && _); [done|]. specialize (IH e b (p ++ x :: frame) c1).
    destruct (scan_frames _ _ _ _ _) as [[r|] b2 c2|b2 q c2]; [|done|];
      destruct IH as (Hk2 & qs & Hqs & Ha); (split; [congruence|]); exists (ps ++ qs);
      (split; [rewrite Hk in Hqs; by eapply opens_app|]); rewrite concat_app, Hps.
    + by rewrite app_assoc.
    + intros more r Hr. specialize (Ha more r Hr). by rewrite <- !app_assoc in *.
Qed.

(** The data of the turns. *)
Definition received (turns : list ChannelTurn) : Bytes :=
  concat (map (fun t => match t with Data bytes => bytes | _ => [] end) turns).

Lemma await_response_origin turns : forall e buffer p c r b c',
  await_response turns e buffer p c = (Some r, b, c') ->
  exists read unread ps, received turns = read ++ unread /\ opens (read_key c) (read_counter c) (buffer ++ read) ps (read_counter c') b /\
    answers e (p ++ concat ps) r.
Proof.
  induction turns as [|turn turns IH]; intros e buffer p c r b c'; [done|].
  cbn [await_response]. pose proof (scan_frames_origin (S (length buffer)) e buffer p c) as Ho.
  destruct (scan_frames _ _ _ _ _) as [res b1 c1|b1 q c1].
  - assert (res = Some r -> b1 = b -> c1 = c' -> exists read unread ps,
      received (turn :: turns) = read ++ unread /\ 
      opens (read_key c) (read_counter c) (buffer ++ read) ps (read_counter c') b /\
      answers e (p ++ concat ps) r) as Hd.
    { intros -> -> ->. destruct Ho as (_ & ps & Ho & Ha). exists [], (received (turn :: turns)), ps.
      by rewrite app_nil_r. }
    destruct turn; intros [= ? ? ?]; auto.
  - destruct Ho as (Hk & ps & Ho & Ha).
    assert (forall t, await_response turns e (b1 ++ t) q c1 = (Some r, b, c') ->
      exists read unread ps, t ++ received turns = read ++ unread /\ 
      opens (read_key c) (read_counter c) (buffer ++ read) ps (read_counter c') b /\
      answers e (p ++ concat ps) r) as Hn.
    { intros t Hr. apply IH in Hr as (read & unread & qs & Hr & Hq & Haq).
      exists (t ++ read), unread, (ps ++ qs). rewrite Hr, app_assoc, concat_app. split_and!; [done| |by apply Ha].
      eapply opens_app; [|rewrite <- app_assoc, Hk in Hq; exact Hq]. by apply opens_extend. }
    destruct turn; try done; [|by apply Hn]. intros Hr. apply (Hn []). by rewrite app_nil_r.
Qed.
End ChannelFacts.

(** ** Facts: an honest receiver *)

Section Exchange.
Context `{EVPLaws}.
Variables (e : option Z) (text : Bytes) (resp : Response).

(** One complete response to the request that was sent, within the limits. *)
Record response_text : Prop := {
  text_complete : complete_response_size text = Some (length text);
  text_parsed : parse_response text = Some resp;
  text_expected : wrong_cseq e resp = false;
  text_bounded : size_of text <= kMaxResponseBytes;
  text_head : exists n, search CRLFCRLF text = Some n /\ Z.of_nat n + 4 <= 64 * 1024
}.

(** Behind the plaintext [p] there are frames under way whose messages complete
    the text; [t] of their octets has not been received. *)
Definition under_way (buffer t p : Bytes) (r : ControlCipher) (last : Z) : Prop :=
  exists ms w frames w',
    encrypt_all ms w = (Some frames, w') /\ Forall (fun m => m <> []) ms /\ ms <> [] /\
    read_key r = write_key w /\ read_counter r = write_counter w /\ last = write_counter w' /\
    buffer ++ t = concat frames /\ p ++ concat ms = text.

Lemma prefix_incomplete p q :
  response_text -> text = p ++ q -> q <> [] ->
  complete_response_size p = None /\ (kMaxResponseBytes <? size_of p) = false /\
  (64 * 1024 <? size_of p) && bool_decide (search CRLFCRLF p = None) = false.
Proof.
  intros [Hc _ _ Hb (n & Hn & Hh)] -> Hq. rewrite size_app in Hb. pose proof (size_nonneg q). split_and!.
  - destruct (complete_response_size p) as [m|] eqn:E; [|done].
    apply (complete_size_extend p q) in E as [Hl E]. rewrite E, length_app in Hc. injection Hc as Hc.
    destruct q; [done|]. simpl in Hc. lia.
  - apply Z.ltb_ge. lia.
  - apply andb_false_iff. destruct (64 * 1024 <? size_of p) eqn:E; [right|by left]. bool_hyps.
    apply bool_decide_eq_false. apply search_prefix in Hn; [congruence|].
    unfold size_of in *. simpl. lia.
Qed.

(** A frame that is on its way is completed by what has not been received. *)
Lemma split_frame (buffer t frame rest : Bytes) :
  buffer ++ t = frame ++ rest ->
  (exists missing, frame = buffer ++ missing /\ missing <> [] /\ t = missing ++ rest) \/
  exists more, buffer = frame ++ more /\ more ++ t = rest.
Proof.
  intros [(l & -> & ->)|(l & -> & ->)]%app_eq_inv; [by right; eauto|].
  destruct l as [|x l]; [right; exists []; by rewrite !app_nil_r|]. left. by exists (x :: l).
Qed.

Lemma scan_delivery fuel : forall buffer t p r last,
  response_text -> under_way buffer t p r last -> (length buffer < fuel)%nat ->
  match scan_frames fuel e buffer p r with
  | Finished res b r' =>
      res = Some resp /\ b = [] /\ t = [] /\ r' = mkCipher (read_key r) (write_key r) last (write_counter r)
  | Waiting b q r' => under_way b t q r' last /\ t <> [] /\ read_key r' = read_key r /\
      write_key r' = write_key r /\ write_counter r' = write_counter r
  end.
Proof.
  induction fuel as [|fuel IH]; intros buffer t p r last Ht Hu Hf; [lia|].
  pose proof Hu as (ms & w & frames & w' & He & Hne & Hms & Hk & Hc & -> & Hb & Hp).
  destruct ms as [|m ms]; [done|]. cbn [encrypt_all] in He.
  destruct (encrypt m w) as [[frame|] w1] eqn:E1; [|done].
  destruct (encrypt_all ms w1) as [[frames'|] w2] eqn:E2; [|done].
  apply pair_eq in He as [[= <-] <-]. cbn [concat] in Hb, Hp. cbn [scan_frames].
  apply Forall_cons in Hne as [Hm Hne].
  apply split_frame in Hb as [(missing & Hf' & Hmiss & Htm)|(more & -> & Hmore)].
  { rewrite (decrypt_one_partial _ _ _ _ _ _ r E1 Hf' Hmiss). split_and!; try done.
    rewrite Htm. by destruct missing. }
  destruct (encrypt_frame _ _ _ _ E1) as (_ & Hl & _ & -> & _).
  rewrite (decrypt_one_frame _ _ _ _ _ _ E1 Hk Hc). destruct m as [|x m]; [done|].
  assert (decrypts_next : read_counter r + 1 = write_counter w + 1) by lia.
  destruct ms as [|m2 ms].
  - cbn in E2. apply pair_eq in E2 as [[= <-] <-]. cbn in Hmore, Hp. rewrite app_nil_r in Hp.
    apply app_eq_nil in Hmore as [-> ->]. rewrite Hp. destruct Ht as [Htc Htp Hte Htb _].
    rewrite (proj2 (Z.ltb_ge _ _) Htb), Htc, Htp, Hte. cbn. by rewrite Hc.
  - rewrite app_assoc in Hp.
    destruct (prefix_incomplete (p ++ x :: m) (concat (m2 :: ms))) as (H1 & H2 & H3); try done.
    { apply Forall_cons in Hne as [Hm2 _]. by destruct m2. }
    rewrite H2, H1, H3. rewrite length_app in Hf.
    specialize (IH more t (p ++ x :: m) (mkCipher (read_key r) (write_key r) (u64 (read_counter r + 1))
      (write_counter r)) (write_counter w2) Ht).
    destruct (scan_frames _ _ _ _ _); apply IH; try lia; by eexists (m2 :: ms), _, frames', w2;
      split_and!; try exact E2; try done; cbn; rewrite Hc.
Qed.

(** A turn that lasts: the socket is polled again, or delivers. *)
Definition lasting (turn : ChannelTurn) : Prop :=
  match turn with Again | Data _ => True | _ => False end.

Lemma await_delivery turns : forall next later buffer p r last,
  response_text -> under_way buffer (received turns) p r last -> Forall lasting turns -> next <> Expired ->
  await_response (turns ++ next :: later) e buffer p r
  = (Some resp, [], mkCipher (read_key r) (write_key r) last (write_counter r)).
Proof.
  induction turns as [|turn turns IH]; intros next later buffer p r last Ht Hu Hl Hn; cbn [app await_response].
  - pose proof (scan_delivery (S (length buffer)) _ _ _ _ _ Ht Hu ltac:(lia)) as Hs.
    destruct (scan_frames _ _ _ _ _) as [res b r'|b q r'].
    + destruct Hs as (-> & -> & _ & ->). by destruct next.
    + by destruct Hs as (_ & ? & _).
  - apply Forall_cons in Hl as [Hl0 Hl].
    pose proof (scan_delivery (S (length buffer)) _ _ _ _ _ Ht Hu ltac:(lia)) as Hs.
    destruct (scan_frames _ _ _ _ _) as [res b r'|b q r'].
    + destruct Hs as (-> & -> & Hr & ->). by destruct turn.
    + destruct Hs as (Hu' & _ & <- & <- & <-). destruct turn; try done; apply IH; try done.
      destruct Hu' as (ms & w & frames & w' & H1 & H2 & H3 & H4 & H5 & H6 & H7 & H8).
      exists ms, w, frames, w'. split_and!; try done. by rewrite <- app_assoc.
Qed.
End Exchange.

Lemma answers_expected e text r : answers e text r -> wrong_cseq e r = false.
Proof. by induction 1. Qed.

Lemma right_cseq n r : wrong_cseq (Some n) r = false -> headers r !! bs "cseq" = Some (dec n).
Proof.
  unfold wrong_cseq. destruct (headers r !! bs "cseq"); [|done].
  intros E%negb_false_iff%bytes_eqb_eq. congruence.
Qed.

(** *** The writing side *)

(** Reading leaves the key and the counter of the writer alone. *)
Definition same_writer (c c' : ControlCipher) : Prop :=
  write_key c' = write_key c /\ write_counter c' = write_counter c.

Lemma decrypt_one_writer `{EVP} buffer c : same_writer c (decrypt_one buffer c).2.
Proof.
  unfold decrypt_one, decrypt. destruct (_ <? 2); [done|]. destruct (size_of buffer <? _); [done|].
  destruct (_ <? 18); [done|]. destruct (negb _); [done|]. by destruct (open_with_nonce _ _ _ _).
Qed.

Definition scan_cipher (r : Scan) : ControlCipher :=
  match r with Finished _ _ c => c | Waiting _ _ c => c end.

Lemma scan_frames_writer `{EVP} fuel : forall e buffer p c, same_writer c (scan_cipher (scan_frames fuel e buffer p c)).
Proof.
  induction fuel as [|fuel IH]; intros e buffer p c; [done|]. cbn [scan_frames].
  pose proof (decrypt_one_writer buffer c) as Hw. destruct (decrypt_one buffer c) as [[r b] c1]. cbn [snd] in Hw.
  destruct r as [[|x frame]|]; [done| |done]. destruct (_ <? _); [done|].
  destruct (complete_response_size _).
  - destruct (parse_response _); [|done]. by destruct (wrong_cseq _ _).
  - destruct (_ && _); [done|]. destruct Hw as [Hk Hc]. destruct (IH e b (p ++ x :: frame) c1) as [Hk' Hc'].
    split; congruence.
Qed.

Lemma await_response_writer `{EVP} turns : forall e buffer p c, same_writer c (await_response turns e buffer p c).2.
Proof.
  induction turns as [|turn turns IH]; intros e buffer p c; [done|]. cbn [await_response].
  destruct turn; try done; pose proof (scan_frames_writer (S (length buffer)) e buffer p c) as Hw;
    destruct (scan_frames _ _ _ _ _) as [r b c1|b q c1]; try done; cbn [scan_cipher] in Hw.
  all: match goal with |- same_writer _ (await_response _ _ ?b ?q _).2 => destruct (IH e b q c1) as [Hk Hc] end;
    destruct Hw; split; congruence.
Qed.

(** What the socket took of a request: nothing and the counter stays, or a part of
    the frame in which it is sealed under the counter, which is used up. *)
Definition sealed_on `{EVP} (key : Bytes) (counter : Z) (request sent : Bytes) (counter' : Z) : Prop :=
  (sent = [] /\ counter' = counter) \/
  exists frame, (encrypt request (mkCipher [] key 0 counter)).1 = Some frame /\ sent `prefix_of` frame /\
    counter' = u64 (counter + 1).

Lemma send_encrypted_sealed `{EVP} send_turns turns request e buffer c r b c' sent :
  send_encrypted send_turns turns request e buffer c = ((r, b, c'), sent) ->
  write_key c' = write_key c /\ sealed_on (write_key c) (write_counter c) request sent (write_counter c').
Proof.
  unfold send_encrypted, sealed_on, encrypt. cbn [write_key write_counter].
  destruct (65535 <? _); [intros [= <- <- <- <-]; auto|].
  destruct (seal_with_nonce _ _ _ _) as [sealed|]; [|intros [= <- <- <- <-]; auto].
  destruct (send_all _ _) as [[ok s] rest] eqn:Es. apply send_all_prefix in Es as (missing & Hm & _).
  set (c1 := mkCipher (read_key c) _ _ _). intros E.
  assert (same_writer c1 c' /\ sent = s) as [[Hk Hc] ->].
  { destruct ok; cbn [negb] in E; [|by simplify_eq]. apply pair_eq in E as [Ea <-]. split; [|done].
    pose proof (await_response_writer turns e buffer [] c1) as Hw. by rewrite Ea in Hw. }
  split; [done|]. right. eexists. split; [done|]. rewrite Hc. split; [|done]. rewrite Hm. by eexists.
Qed.

(** ** Theorems: a request and its response *)

(** C22. A response is authentic and answers its request. When [send_encrypted]
    returns a response, the request has gone out whole, as one frame; the octets
    that were read are frames that the read key opens one after another, followed
    by the new content of the buffer; and the response is the first in their
    plaintexts that carries the expected CSeq: each one before it is a complete
    response that carries another or none. *)
Theorem response_is_authentic `{EVP} send_turns turns plaintext e buffer c r b c' sent :
  send_encrypted send_turns turns plaintext e buffer c = ((Some r, b, c'), sent) ->
  exists c1 read unread ps,
    encrypt plaintext c = (Some sent, c1) /\
    received turns = read ++ unread /\
    opens (read_key c) (read_counter c) (buffer ++ read) ps (read_counter c') b /\ answers e (concat ps) r /\
    forall n, e = Some n -> headers r !! bs "cseq" = Some (dec n).
Proof.
  unfold send_encrypted, send_all. destruct (encrypt plaintext c) as [[out|] c1] eqn:Ee; [|done].
  destruct (CarplayIpc.send_all send_turns out) as [[ok s] rest] eqn:Es.
  destruct (send_all_prefix _ _ _ _ _ Es) as (missing & Hm & Hok).
  destruct ok; cbn [negb]; [|done]. rewrite (proj1 Hok eq_refl), app_nil_r in Hm. subst s.
  intros E. apply pair_eq in E as [Ea <-]. apply await_response_origin in Ea as (rd & un & ps & Hr & Ho & Ha).
  destruct (encrypt_reads _ _ _ _ Ee) as [Hk Hc]. rewrite Hk, Hc in Ho.
  exists c1, rd, un, ps. split_and!; try done.
  intros n ->. by apply right_cseq, (answers_expected _ _ _ Ha).
Qed.

(** A key, the answer to the request with CSeq 7 and its frames for the examples. *)
Definition example_key : Bytes := repeat 9 32.
Definition example_answer (cseq : string) : Bytes :=
  bs "RTSP/1.0 200 OK" ++ CRLF ++ bs "CSeq: " ++ bs cseq ++ CRLF ++ bs "Content-Length: 2" ++ CRLF ++ CRLF ++ [7; 8].
Definition example_frames (messages : list Bytes) : Bytes :=
  concat (default [] (@encrypt_all Toy.toy_evp messages (new_cipher [] example_key)).1).
Definition example_response (cseq : string) : Response :=
  mkResponse 200 {[ bs "cseq" := bs cseq; bs "content-length" := bs "2" ]} [7; 8].
Definition example_exchange (turns : list ChannelTurn) : (option Response * Bytes * ControlCipher) * Bytes :=
  @send_encrypted Toy.toy_evp [Transfer 40] turns [1; 2] (Some 7) [] (new_cipher example_key example_key).

(** An old response in one frame, the answer in two, cut anywhere. *)
Lemma response_is_authentic_witness :
  let stream := example_frames [example_answer "6"; take 30 (example_answer "7"); drop 30 (example_answer "7")] in
  exists c1 read unread ps,
    @encrypt Toy.toy_evp [1; 2] (new_cipher example_key example_key) = (Some (example_exchange [Data stream; Again; Again]).2, c1) /\
    received [Data stream; Again; Again] = read ++ unread /\
    @opens Toy.toy_evp example_key 0 read ps 3 [] /\
    answers (Some 7) (concat ps) (example_response "7") /\
    forall n, Some 7 = Some n -> headers (example_response "7") !! bs "cseq" = Some (dec n).
Proof.
  cbv zeta. apply (@response_is_authentic Toy.toy_evp [Transfer 40] _ [1; 2] (Some 7) []
    (new_cipher example_key example_key) _ [] (mkCipher example_key example_key 3 1)).
  vm_compute. reflexivity.
Defined.

(** An honest receiver is understood, however its answer is cut. When the
    socket takes the request and the peer, holding the same key and counter, puts
    one complete response with the expected CSeq into frames of its choice, which
    arrive in any pieces between turns that bring nothing, then [send_encrypted]
    returns exactly that response at the first turn after the last piece that is
    not past the deadline, leaves an empty buffer, and both counters are those of
    the peer: the channel is ready for the next request. *)
Theorem encrypted_exchange_completes `{EVPLaws} send_turns turns next later plaintext e c out c1
    ms w frames w' resp :
  encrypt plaintext c = (Some out, c1) -> (send_all send_turns out).1.1 = true ->
  response_text e (concat ms) resp -> Forall (fun m => m <> []) ms ->
  encrypt_all ms w = (Some frames, w') -> read_key c = write_key w -> read_counter c = write_counter w ->
  received turns = concat frames -> Forall lasting turns -> next <> Expired ->
  send_encrypted send_turns (turns ++ next :: later) plaintext e [] c
  = ((Some resp, [], mkCipher (read_key c) (write_key c) (write_counter w') (write_counter c1)), out).
Proof.
  intros He Hs Ht Hne Hf Hk Hc Hr Hl Hn. unfold send_encrypted. rewrite He.
  destruct (send_all send_turns out) as [[ok s] rest] eqn:Es. cbn in Hs. subst ok. cbn [negb].
  destruct (send_all_prefix _ _ _ _ _ Es) as (missing & Hm & Hok).
  rewrite (proj1 Hok eq_refl), app_nil_r in Hm. subst s.
  destruct (encrypt_frame _ _ _ _ He) as (_ & _ & _ & -> & _). f_equal.
  apply (await_delivery e (concat ms) resp turns next later [] []
    (mkCipher (read_key c) (write_key c) (read_counter c) (u64 (write_counter c + 1)))); [done| |done..].
  exists ms, w, frames, w'. split_and!; try done.
  destruct Ht as [Htc _ _ _ _]. intros ->. cbv in Htc. done.
Qed.

Lemma encrypted_exchange_completes_witness :
  let ms := [take 30 (example_answer "7"); drop 30 (example_answer "7")] in
  let stream := example_frames ms in
  example_exchange ([Data (take 50 stream); Again; Data (drop 50 stream)] ++ [Again])
  = ((Some (example_response "7"), [], mkCipher example_key example_key 2 1),
     (example_exchange []).2).
Proof.
  cbv zeta. pose proof Toy.toy_laws as Hl.
  set (ms := [take 30 (example_answer "7"); drop 30 (example_answer "7")]).
  apply (@encrypted_exchange_completes Toy.toy_evp Hl [Transfer 40]
    [Data (take 50 (example_frames ms)); Again; Data (drop 50 (example_frames ms))] Again [] [1; 2] (Some 7)
    (new_cipher example_key example_key) (example_exchange []).2 (mkCipher example_key example_key 0 1)
    ms (new_cipher [] example_key) (default [] (@encrypt_all Toy.toy_evp ms (new_cipher [] example_key)).1)
    (mkCipher [] example_key 0 2) (example_response "7")); try (vm_compute; reflexivity).
  - split; try (vm_compute; reflexivity || discriminate).
    exists 43%nat. split; [vm_compute; reflexivity|vm_compute; discriminate].
  - repeat constructor; vm_compute; discriminate.
  - repeat constructor.
  - discriminate.
Defined.

(** After a response to another request the loop waits for the socket although
    the answer is in the plaintext: it is returned only when another frame
    arrives. *)
Example answer_behind_stale_response :
  let stream := example_frames [example_answer "6" ++ example_answer "7"] in
  (example_exchange [Data stream; Again; Again; Again]).1.1.1 = None.
Proof. vm_compute. reflexivity. Qed.

(** What follows the answer in the same frame is lost: the next request does not
    see it. *)
Example rest_of_frame_lost :
  let stream := example_frames [example_answer "7" ++ example_answer "8"] in
  example_exchange [Data stream; Again]
  = ((Some (example_response "7"), [], mkCipher example_key example_key 1 1), (example_exchange []).2).
Proof. vm_compute. reflexivity. Qed.

(** ** The sockets and the clock *)

Definition opened_fds (events : list FdEvent) : list nat :=
  omap (fun e => match e with Opened n => Some n | _ => None end) events.
Definition closed_fds (events : list FdEvent) : list nat :=
  omap (fun e => match e with ClosedFd n => Some n | _ => None end) events.

(** No attempt leaks its socket: every descriptor that is opened is closed, except
    the connected one that is returned. *)
Lemma connect_closes_the_others attempts : forall n r events,
  connect_tcp_with_timeout n attempts = (r, events) ->
  opened_fds events = closed_fds events ++ option_list r.
Proof.
  induction attempts as [|a attempts IH]; intros n r events; cbn [connect_tcp_with_timeout].
  { by intros [= <- <-]. }
  destruct (connect_tcp_with_timeout (S n) attempts) as [r' events'] eqn:E. specialize (IH _ _ _ E).
  destruct (negb (time_left a)); [by intros [= <- <-]|]. destruct (negb (socket_ok a)); [by intros [= <- <-]|].
  assert (opened_fds (Opened n :: ClosedFd n :: events') = closed_fds (Opened n :: ClosedFd n :: events') ++ option_list r')
    as Hretry by (unfold opened_fds, closed_fds in *; cbn; f_equal; exact IH).
  destruct (negb _); [by intros [= <- <-]|]. destruct (negb _); [by intros [= <- <-]|].
  destruct (socket_error a) as [err|]; [|by intros [= <- <-]].
  by destruct ((err =? 0) && restore_ok a); intros [= <- <-].
Qed.

(** A time stamp has the seconds since 1900 in its upper half and the fraction in
    units of 2^-32 seconds in its lower half. *)
Lemma ntp_timestamp_halves nanoseconds :
  0 <= nanoseconds -> nanoseconds / 1000000000 + 2208988800 < 2 ^ 32 ->
  let t := ntp_timestamp nanoseconds in
  Z.shiftr t 32 = nanoseconds / 1000000000 + 2208988800 /\
  t mod 2 ^ 32 = nanoseconds mod 1000000000 * 2 ^ 32 / 1000000000 /\ is_u64 t.
Proof.
  intros Hn Hs. unfold ntp_timestamp. cbv zeta. set (s := _ / _ + _) in *. set (f := _ mod 1000000000).
  assert (0 <= f < 1000000000) as Hf by (apply Z.mod_pos_bound; lia).
  assert (0 <= nanoseconds / 1000000000) by (apply Z.div_pos; lia).
  rewrite !Z.shiftl_mul_pow2 by lia.
  rewrite (wrap_id 64 s) by (split; lia). rewrite (wrap_id 64 (s * 2 ^ 32)) by (split; lia).
  rewrite (wrap_id 64 (f * 2 ^ 32)) by (split; lia).
  assert (0 <= f * 2 ^ 32 / 1000000000 < 2 ^ 32) as Hq
    by (split; [apply Z.div_pos; lia|apply Z.div_lt_upper_bound; lia]).
  set (q := f * 2 ^ 32 / 1000000000) in *.
  assert (Z.lor (s * 2 ^ 32) q = s * 2 ^ 32 + q) as ->.
  { rewrite <- (Z.shiftl_mul_pow2 s 32) by lia. apply Z.bits_inj'. intros n Hn0.
    rewrite Z.lor_spec. destruct (Z.ltb_spec n 32) as [Hlt|Hge].
    - rewrite Z.shiftl_spec_low by lia. rewrite Z.shiftl_mul_pow2 by lia.
      rewrite <- (Z.mod_pow2_bits_low (s * 2 ^ 32 + q) 32 n) by lia.
      rewrite Z.add_comm, Z.mod_add, Z.mod_small by lia. done.
    - rewrite Z.shiftl_mul_pow2 by lia. rewrite <- (Z.sub_add 32 n), <- !Z.div_pow2_bits by lia.
      rewrite Z.div_add_l, Z.div_mul, Z.div_small by lia. by rewrite Z.add_0_r, Z.testbit_0_l, orb_false_r. }
  split_and!.
  - rewrite Z.shiftr_div_pow2, Z.div_add_l, (Z.div_small q) by lia. lia.
  - rewrite Z.add_comm, Z.mod_add, Z.mod_small by lia. done.
  - split; lia.
Qed.
