(* ===== verification/SessionEvents.v ===== *)
(** * The event channel: facts and theorems

    About [SessionChannel.service_event_channel]: the head unit's requests are
    handed over and answered in order, whole and once, and the buffers keep to
    their limits. *)

From S2P Require Import Prelude Text Crypto ControlCipher Rtsp CarplayIpc SessionChannel.
#[local] Open Scope Z_scope.

Lemma event_limits : 65535 <= kMaximumEventBytes /\ 65553 + 4096 <= kMaximumEncryptedEventBuffer.
Proof. vm_compute. split; discriminate. Qed.
#[local] Opaque kMaximumEventBytes kMaximumEncryptedEventBuffer kMaximumEventHeaders.

(** ** Framing *)

(** The CSeq of a complete request, and what a complete request is. *)
Definition cseq_of (request : Bytes) : Bytes :=
  match scan_event request with Request _ cseq => cseq | _ => [] end.
Definition complete_event (request : Bytes) : Prop :=
  scan_event request = Request (length request) (cseq_of request).

Lemma event_headers_size lines : forall cseq body seen cseq' body' seen',
  0 <= body -> event_headers lines cseq body seen = Some (cseq', body', seen') -> 0 <= body'.
Proof.
  induction lines as [|line lines IH]; intros cseq body seen cseq' body' seen' Hb; cbn [event_headers].
  { by intros [= <- <- <-]. }
  set (l := if bool_decide _ then _ else _). destruct (find_char 58 l) as [sep|]; [|by apply IH].
  destruct (bytes_eqb _ _); [by apply IH|]. destruct (bytes_eqb _ _); [|by apply IH].
  destruct seen; [done|]. destruct (parse_unsigned _ _) as [n|] eqn:E; [|done].
  destruct (_ <? _); [done|]. apply IH. by eapply parse_unsigned_nonneg.
Qed.

Lemma scan_event_take text n cseq :
  scan_event text = Request n cseq ->
  (n <= length text)%nat /\ (4 <= n)%nat /\ complete_event (take n text) /\ cseq_of (take n text) = cseq.
Proof.
  unfold scan_event at 1. destruct (search CRLFCRLF text) as [he|] eqn:Es; [|by destruct (_ <? _)].
  destruct (kMaximumEventHeaders <? Z.of_nat he) eqn:Eh; [done|].
  destruct (event_headers _ _ _ _) as [[[cs body] []]|] eqn:Ee; try done.
  destruct (_ || _) eqn:Em; [done|]. destruct (size_of text <? _) eqn:El; [done|].
  intros [= <- <-]. apply event_headers_size in Ee as Hb; [|lia]. bool_hyps.
  set (n := Z.to_nat (Z.of_nat he + 4 + body)).
  assert (n <= length text)%nat as Hn by (unfold n, size_of in *; lia).
  assert (scan_event (take n text) = Request n cs) as Hs.
  { rewrite <- (take_drop n text) in Es. apply search_prefix in Es; [|rewrite length_take; simpl; lia].
    unfold scan_event. rewrite Es, (proj2 (Z.ltb_ge _ _) Eh), take_take, Nat.min_l, Ee by lia.
    rewrite (proj2 (orb_false_iff _ _)) by (split; apply Z.ltb_ge; lia).
    rewrite (proj2 (Z.ltb_ge (size_of (take n text)) _)) by (unfold size_of; rewrite length_take; lia). done. }
  split_and!; [done|lia| |by unfold cseq_of; rewrite Hs].
  unfold complete_event, cseq_of. by rewrite Hs, length_take, Nat.min_l.
Qed.

(** ** The channel as a whole *)

Section Events.
Context `{EVP}.

(** What holds while the channel is open, after frames with the plaintexts [ps]. *)
Definition in_order (ps : list Bytes) (s : EventChannel) : Prop :=
  concat (events s) ++ plaintext s = concat ps /\ Forall complete_event (events s) /\
  answered s = map cseq_of (events s) /\ size_of (plaintext s) <= kMaximumEventBytes.

(** And after it has closed. *)
Definition cut_short (ps : list Bytes) (s : EventChannel) : Prop :=
  concat (events s) `prefix_of` concat ps /\ Forall complete_event (events s) /\
  answered s `prefix_of` map cseq_of (events s).

Lemma in_order_cut ps s : in_order ps s -> cut_short ps s.
Proof. intros (H1 & H2 & H3 & _). unfold cut_short. rewrite <- H1, H3. split_and!; [by eexists|done..]. Qed.

(** The part of the state the reading side moves. *)
Definition same_reading (s s' : EventChannel) : Prop :=
  encrypted_buffer s' = encrypted_buffer s /\ read_key (cipher s') = read_key (cipher s) /\
  read_counter (cipher s') = read_counter (cipher s).

Lemma handle_frame_outcome frame s ps alive s' :
  in_order ps s -> handle_frame frame s = (alive, s') ->
  same_reading s s' /\ if alive then in_order (ps ++ [frame]) s' else cut_short (ps ++ [frame]) s'.
Proof.
  intros Hi. pose proof Hi as (Ht & Hf & Ha & Hs). unfold handle_frame, same_reading, in_order, cut_short.
  assert (Hcut : concat (events s) `prefix_of` concat (ps ++ [frame])).
  { rewrite concat_app, <- Ht, <- app_assoc. by eexists. }
  destruct (kMaximumEventBytes - _ <? size_of frame) eqn:El.
  { intros [= <- <-]; cbv iota; split_and!; try done. by rewrite Ha. }
  bool_hyps. rewrite Z.min_l in El by done.
  assert (concat (events s) ++ plaintext s ++ frame = concat (ps ++ [frame])) as Ht'.
  { rewrite app_assoc, Ht, concat_app. cbn. by rewrite app_nil_r. }
  assert (size_of (plaintext s ++ frame) <= kMaximumEventBytes) as Hs' by (rewrite size_app; lia).
  destruct (scan_event (plaintext s ++ frame)) as [| |n cseq] eqn:Es.
  - intros [= <- <-]; cbv iota; by split_and!.
  - intros [= <- <-]; cbv iota; split_and!; try done. cbn. by rewrite Ha.
  - apply scan_event_take in Es as (Hn & _ & Hc & Hcs). cbn [cipher encrypted_buffer writes events answered].
    assert (concat (events s ++ [take n (plaintext s ++ frame)]) ++ drop n (plaintext s ++ frame)
            = concat (ps ++ [frame])) as Hev.
    { rewrite concat_app, <- app_assoc. cbn. by rewrite app_nil_r, take_drop. }
    assert (Forall complete_event (events s ++ [take n (plaintext s ++ frame)])) as Hfe
      by (apply Forall_app_2; [done|by apply Forall_singleton]).
    assert (map cseq_of (events s ++ [take n (plaintext s ++ frame)]) = answered s ++ [cseq]) as Hm
      by (rewrite map_app, Ha; cbn; by rewrite Hcs).
    destruct (encrypt (event_response cseq) (cipher s)) as [[out|] c1] eqn:Ec;
      apply encrypt_reads in Ec as [Hk Hr]; [destruct (writes s) as [|[] ws]|];
      intros [= <- <-]; cbv iota; split_and!; cbn; try done; rewrite ?Hm; try (by eexists); rewrite <- ?Hev; try (by eexists).
    unfold size_of in *. rewrite length_drop. lia.
Qed.
Lemma in_order_concat ps qs s : concat ps = concat qs -> in_order ps s -> in_order qs s.
Proof. unfold in_order. by intros ->. Qed.

Lemma cut_short_concat ps qs s : concat ps = concat qs -> cut_short ps s -> cut_short qs s.
Proof. unfold cut_short. by intros ->. Qed.

(** The octets [read] are the frames taken so far and the buffer. *)
Definition open_channel (key read : Bytes) (s : EventChannel) : Prop :=
  exists ps, opens key 0 read ps (read_counter (cipher s)) (encrypted_buffer s) /\
    read_key (cipher s) = key /\ in_order ps s.

Definition closed_channel (key read : Bytes) (s : EventChannel) : Prop :=
  exists ps n rest, opens key 0 read ps n rest /\ cut_short ps s.

Lemma open_closed key read s : open_channel key read s -> closed_channel key read s.
Proof. intros (ps & Ho & _ & Hi). exists ps, (read_counter (cipher s)), (encrypted_buffer s). auto using in_order_cut. Qed.

Lemma drain_events_outcome fuel : forall key read s alive s',
  open_channel key read s -> drain_events fuel s = (alive, s') ->
  if alive then open_channel key read s' /\ (length (encrypted_buffer s') <= length (encrypted_buffer s))%nat
  else closed_channel key read s'.
Proof.
  induction fuel as [|fuel IH]; intros key read s alive s' Hs; cbn [drain_events].
  { by intros [= <- <-]. }
  pose proof Hs as (ps & Ho & Hk & Hi).
  destruct (decrypt_one _ _) as [[[p|] b] c] eqn:Ed.
  2: { intros [= <- <-]. by apply open_closed in Hs. }
  assert (length b <= length (encrypted_buffer s))%nat as Hlen.
  { apply decrypt_one_taken in Ed as [(_ & -> & _)|(f & -> & _ & _)]; [done|rewrite length_app; lia]. }
  apply decrypt_one_opens in Ed as (Hk1 & qs & Hq & Hoq). rewrite Hk in *.
  assert (opens key 0 read (ps ++ qs) (read_counter c) b) as Ho' by by eapply opens_app.
  destruct p as [|x p].
  { intros [= <- <-]. split; [|done]. exists (ps ++ qs). split_and!; [done|done|].
    eapply in_order_concat, Hi. by rewrite concat_app, Hq, app_nil_r. }
  set (s1 := mkEvents _ _ _ _ _ _). destruct (handle_frame (x :: p) s1) as [alive1 s2] eqn:Eh.
  apply (handle_frame_outcome _ _ ps) in Eh as [(Hb & Hk2 & Hr2) Hout]; [|exact Hi].
  assert (concat (ps ++ [x :: p]) = concat (ps ++ qs)) as Hc.
  { rewrite !concat_app, Hq. cbn. by rewrite app_nil_r. }
  destruct alive1; cbn [negb].
  - intros Ed. apply IH with (key := key) (read := read) in Ed.
    + destruct alive; [|done]. destruct Ed as [Ho2 Hl2]. split; [done|]. rewrite Hb in Hl2. cbn in Hl2. lia.
    + exists (ps ++ qs). rewrite Hb, Hr2, Hk2. split_and!; [done|done|]. by eapply in_order_concat.
  - intros [= <- <-]. exists (ps ++ qs), (read_counter c), b. split; [done|]. by eapply cut_short_concat.
Qed.

Lemma receive_events_outcome data key read s alive s' :
  open_channel key read s -> receive_events data s = (alive, s') ->
  if alive then open_channel key (read ++ data) s' /\ size_of (encrypted_buffer s') <= kMaximumEncryptedEventBuffer
  else closed_channel key read s' \/ closed_channel key (read ++ data) s'.
Proof.
  intros Hs. unfold receive_events. destruct (_ <? size_of data).
  { intros [= <- <-]. left. by apply open_closed. }
  set (s1 := mkEvents _ _ _ _ _ _).
  assert (open_channel key (read ++ data) s1) as Hs1.
  { destruct Hs as (ps & Ho & Hk & Hi). exists ps. split_and!; [by apply opens_extend|done|done]. }
  destruct (_ <? size_of (_ ++ _)) eqn:El.
  { intros [= <- <-]. right. by apply open_closed. }
  bool_hyps. intros Ed. apply (drain_events_outcome _ _ _ _ _ _ Hs1) in Ed.
  destruct alive; [|by right]. destruct Ed as [Ho Hl]. split; [done|]. cbn [s1 encrypted_buffer] in Hl.
  unfold size_of in *. lia.
Qed.

Lemma service_outcome key datas : forall read s alive s',
  open_channel key read s -> size_of (encrypted_buffer s) <= kMaximumEncryptedEventBuffer ->
  service_event_channel datas s = (alive, s') ->
  if alive then open_channel key (read ++ concat datas) s' /\
                size_of (encrypted_buffer s') <= kMaximumEncryptedEventBuffer
  else exists taken unread, concat datas = taken ++ unread /\ closed_channel key (read ++ taken) s'.
Proof.
  induction datas as [|data datas IH]; intros read s alive s' Hs Hb; cbn [service_event_channel concat].
  { intros [= <- <-]. by rewrite app_nil_r. }
  destruct (receive_events data s) as [alive1 s1] eqn:Er.
  apply (receive_events_outcome _ _ _ _ _ _ Hs) in Er as Hr. destruct alive1; cbn [negb].
  - destruct Hr as [Ho Hb1]. intros Es. specialize (IH _ _ _ _ Ho Hb1 Es). destruct alive.
    + by rewrite <- app_assoc in IH.
    + destruct IH as (t & u & Ht & Hc). exists (data ++ t), u. rewrite Ht, !app_assoc in *. done.
  - intros [= <- <-]. destruct Hr as [Hc|Hc].
    + exists [], (data ++ concat datas). by rewrite app_nil_r.
    + by exists data, (concat datas).
Qed.
End Events.

(** ** An honest head unit *)

Section Delivery.
Context `{EVPLaws}.
Variables (rk wk : Bytes).

(** The answer to a request is encrypted at any counters. *)
Definition answerable (m : Bytes) : Prop :=
  forall n k, exists out,
    encrypt (event_response (cseq_of m)) (mkCipher rk wk n k) = (Some out, mkCipher rk wk n (u64 (k + 1))).

(** Requests [ms] under way, of whose frames [t] has not arrived. *)
Definition coming (ms : list Bytes) (n : Z) (buffer t : Bytes) : Prop :=
  exists w frames w', encrypt_all ms w = (Some frames, w') /\ write_key w = rk /\ write_counter w = n /\
    buffer ++ t = concat frames.

Lemma handle_complete m s n k ws :
  complete_event m -> answerable m -> size_of m <= 65535 ->
  cipher s = mkCipher rk wk n k -> plaintext s = [] -> writes s = true :: ws ->
  handle_frame m s = (true, mkEvents (mkCipher rk wk n (u64 (k + 1))) (encrypted_buffer s) [] ws
                              (events s ++ [m]) (answered s ++ [cseq_of m])).
Proof.
  intros Hm Ha Hs Hc Hp Hw. unfold handle_frame. rewrite Hp, Hc, Hw. cbn [cipher encrypted_buffer writes events answered app].
  pose proof event_limits. change (size_of []) with 0. rewrite Z.min_l, (proj2 (Z.ltb_ge _ _)) by lia.
  rewrite Hm. destruct (Ha n k) as [out ->]. by rewrite take_ge, drop_ge by lia.
Qed.

(** The state after [ms] has been answered. *)
Definition progress (n k : Z) (buffer : Bytes) (ws : list bool) (evs ans ms : list Bytes) : EventChannel :=
  mkEvents (mkCipher rk wk n k) buffer [] ws (evs ++ ms) (ans ++ map cseq_of ms).

Lemma complete_nonempty m : complete_event m -> m <> [].
Proof. intros Hm ->. unfold complete_event in Hm. apply scan_event_take in Hm. simpl in Hm. lia. Qed.

Lemma drain_delivery fuel : forall ms n k buffer t ws evs ans,
  coming ms n buffer t -> Forall complete_event ms -> Forall answerable ms ->
  (length buffer < fuel)%nat ->
  exists now later n' k' buffer',
    ms = now ++ later /\ coming later n' buffer' t /\ (t = [] -> later = [] /\ buffer' = []) /\
    size_of buffer' <= 65553 /\
    drain_events fuel (progress n k buffer (repeat true (length ms) ++ ws) evs ans [])
    = (true, progress n' k' buffer' (repeat true (length later) ++ ws) evs ans now).
Proof.
  induction fuel as [|fuel IH]; intros ms n k buffer t ws evs ans Hc Hms Has Hf; [lia|].
  pose proof Hc as (w & frames & w' & He & Hk & Hn & Hb). cbn [drain_events].
  destruct ms as [|m ms].
  { cbn in He. apply pair_eq in He as [[= <-] <-]. apply app_eq_nil in Hb as [-> ->].
    exists [], [], n, k, []. by split_and!. }
  apply Forall_cons in Hms as [Hm Hms]. apply Forall_cons in Has as [Ha Has]. cbn [encrypt_all] in He.
  destruct (encrypt m w) as [[frame|] w1] eqn:E1; [|done].
  destruct (encrypt_all ms w1) as [[frames'|] w2] eqn:E2; [|done].
  apply pair_eq in He as [[= <-] <-]. cbn [concat] in Hb.
  destruct (encrypt_frame _ _ _ _ E1) as (Hs & Hl & _ & -> & _).
  apply split_frame in Hb as [(missing & Hf' & Hmiss & Htm)|(more & -> & Hmore)].
  { exists [], (m :: ms), n, k, buffer. split_and!; try done.
    - rewrite Htm. by destruct missing.
    - apply (f_equal length) in Hf'. rewrite length_app in Hf'. unfold size_of in *. lia.
    - unfold progress at 1. cbn [cipher encrypted_buffer].
      rewrite (decrypt_one_partial _ _ _ _ _ _ _ E1 Hf' Hmiss). done. }
  unfold progress at 1 2 3 4. cbn [cipher encrypted_buffer writes plaintext events answered].
  rewrite (decrypt_one_frame m w frame _ more (mkCipher rk wk n k) E1) by done.
  destruct m as [|x m]; [by apply complete_nonempty in Hm|]. cbn [read_key write_key read_counter write_counter].
  erewrite handle_complete by done. cbn [negb]. cbv iota. rewrite length_app in Hf.
  destruct (IH ms (u64 (n + 1)) (u64 (k + 1)) more t ws (evs ++ [x :: m]) (ans ++ [cseq_of (x :: m)]))
    as (now & later & n' & k' & buffer' & -> & Hc' & Ht & Hs' & Hd); [|done|done|lia|].
  { eexists _, frames', w2. split_and!; [exact E2|done| |done]. cbn. by rewrite Hn. }
  exists ((x :: m) :: now), later, n', k', buffer'. split_and!; try done.
  etransitivity; [|etransitivity; [exact Hd|]].
  - unfold progress. cbn. by rewrite !app_nil_r.
  - unfold progress. cbn. by rewrite <- !app_assoc.
Qed.
Lemma receive_progress data n k buffer ws evs ans ms :
  size_of buffer <= 65553 -> size_of data <= 4096 ->
  receive_events data (progress n k buffer ws evs ans ms)
  = drain_events (S (length (buffer ++ data))) (progress n k (buffer ++ data) ws evs ans ms).
Proof.
  intros Hb Hd. unfold receive_events, progress.
  cbn [cipher encrypted_buffer writes plaintext events answered]. pose proof event_limits as [_ Hl].
  rewrite Z.min_l, (proj2 (Z.ltb_ge _ (size_of data))) by lia.
  by rewrite (proj2 (Z.ltb_ge _ (size_of (buffer ++ data)))) by (rewrite size_app; lia).
Qed.

Lemma service_delivery datas : forall ms n k buffer ws evs ans,
  coming ms n buffer (concat datas) -> Forall complete_event ms -> Forall answerable ms ->
  size_of buffer <= 65553 -> Forall (fun d => size_of d <= 4096) datas -> (datas = [] -> ms = [] /\ buffer = []) ->
  exists n' k',
    service_event_channel datas (progress n k buffer (repeat true (length ms) ++ ws) evs ans [])
    = (true, progress n' k' [] ws evs ans ms).
Proof.
  induction datas as [|data datas IH]; intros ms n k buffer ws evs ans Hc Hms Has Hb Hd Hnil.
  { destruct (Hnil eq_refl) as [-> ->]. by exists n, k. }
  apply Forall_cons in Hd as [Hd0 Hd]. cbn [service_event_channel]. rewrite receive_progress by done.
  assert (coming ms n (buffer ++ data) (concat datas)) as Hc'.
  { destruct Hc as (w & frames & w' & H1 & H2 & H3 & H4). exists w, frames, w'. by rewrite <- app_assoc. }
  destruct (drain_delivery (S (length (buffer ++ data))) ms n k (buffer ++ data) (concat datas) ws evs ans)
    as (now & later & n' & k' & buffer' & -> & Hcl & Ht & Hs' & Hdr); [done..|lia|].
  rewrite Hdr. cbn [negb]. cbv iota.
  apply Forall_app in Hms as [_ Hms], Has as [_ Has].
  destruct (IH later n' k' buffer' ws (evs ++ now) (ans ++ map cseq_of now)) as (n2 & k2 & Hs2);
    [done..|by intros ->; apply Ht|].
  exists n2, k2. etransitivity; [|etransitivity; [exact Hs2|]].
  - unfold progress. cbn. by rewrite !app_nil_r.
  - unfold progress. by rewrite map_app, <- !app_assoc.
Qed.
End Delivery.

(** ** Theorems *)

(** What is handed over is what was decrypted, cut into requests. *)
Lemma service_in_order `{EVP} read_key write_key writes datas alive s :
  service_event_channel datas (new_channel read_key write_key writes) = (alive, s) ->
  exists taken unread ps n rest,
    concat datas = taken ++ unread /\ opens read_key 0 taken ps n rest /\
    concat (events s) `prefix_of` concat ps /\ Forall complete_event (events s) /\
    answered s `prefix_of` map cseq_of (events s) /\
    (alive = true -> unread = [] /\ rest = encrypted_buffer s /\
       concat (events s) ++ plaintext s = concat ps /\ answered s = map cseq_of (events s) /\
       size_of (plaintext s) <= kMaximumEventBytes /\
       size_of (encrypted_buffer s) <= kMaximumEncryptedEventBuffer).
Proof.
  intros Hs. apply (service_outcome read_key datas []) in Hs.
  - destruct alive.
    + destruct Hs as [(ps & Ho & Hk & Hi) Hb]. apply in_order_cut in Hi as Hc.
      destruct Hc as (? & ? & ?). destruct Hi as (? & ? & ? & ?).
      exists (concat datas), [], ps, (read_counter (cipher s)), (encrypted_buffer s). by rewrite app_nil_r.
    + destruct Hs as (taken & unread & Ht & ps & n & rest & Ho & ? & ? & ?).
      exists taken, unread, ps, n, rest. by split_and!.
  - exists []. split_and!; [constructor|done|]. split_and!; try done.
  - done.
Qed.

(** C23. Whatever the peer sends, the event channel hands over requests in order,
    whole and once. The octets it has taken are frames that open under the session
    key at the counters 0, 1, 2, ..., and the requests given to the callback, one
    after another, are a prefix of their plaintexts; each of them is one complete
    request. Answers carry the CSeqs of these requests in the same order. While the
    channel is open nothing is missing: every octet received is in a frame or in
    the buffer, every octet of plaintext in a request or kept, every request is
    answered, and both buffers are within their limits. *)
Theorem events_in_order `{EVP} read_key write_key writes datas alive s :
  service_event_channel datas (new_channel read_key write_key writes) = (alive, s) ->
  exists taken unread ps n rest,
    concat datas = taken ++ unread /\ opens read_key 0 taken ps n rest /\
    concat (events s) `prefix_of` concat ps /\ Forall complete_event (events s) /\
    answered s `prefix_of` map cseq_of (events s) /\
    (alive = true -> unread = [] /\ rest = encrypted_buffer s /\
       concat (events s) ++ plaintext s = concat ps /\ answered s = map cseq_of (events s) /\
       size_of (plaintext s) <= kMaximumEventBytes /\
       size_of (encrypted_buffer s) <= kMaximumEncryptedEventBuffer).
Proof. apply service_in_order. Qed.

(** Two requests for the examples, and the frames of a head unit that sends them. *)
Definition example_event (cseq : string) : Bytes :=
  bs "POST /command RTSP/1.0" ++ CRLF ++ bs "CSeq: " ++ bs cseq ++ CRLF ++ bs "Content-Length: 2" ++ CRLF ++ CRLF ++ [7; 8].
Definition example_events (datas : list Bytes) : bool * EventChannel :=
  @service_event_channel Toy.toy_evp datas (new_channel example_key example_key [true; true; true]).

(** The second request is cut in two frames and its second frame has not arrived. *)
Lemma events_in_order_witness :
  let stream := example_frames [example_event "1"; take 20 (example_event "2"); drop 20 (example_event "2")] in
  exists taken unread ps n rest,
    take 130 stream = taken ++ unread /\ @opens Toy.toy_evp example_key 0 taken ps n rest /\
    concat [example_event "1"] `prefix_of` concat ps /\ Forall complete_event [example_event "1"] /\
    [bs "1"] `prefix_of` map cseq_of [example_event "1"] /\
    (true = true -> unread = [] /\ rest = drop 112 (take 130 stream) /\
       concat [example_event "1"] ++ take 20 (example_event "2") = concat ps /\
       [bs "1"] = map cseq_of [example_event "1"] /\
       size_of (take 20 (example_event "2")) <= kMaximumEventBytes /\
       size_of (drop 112 (take 130 stream)) <= kMaximumEncryptedEventBuffer).
Proof.
  cbv zeta. set (stream := example_frames _).
  assert (take 130 stream = concat [take 7 stream; drop 7 (take 130 stream)]) as ->
    by (vm_compute; reflexivity).
  apply (@events_in_order Toy.toy_evp example_key example_key [true; true; true] _ true
    (mkEvents (mkCipher example_key example_key 2 1) (drop 112 (take 130 stream)) (take 20 (example_event "2"))
       [true; true] [example_event "1"] [bs "1"])).
  vm_compute. reflexivity.
Defined.

(** An honest head unit gets every request handled. When it holds the session
    key and sends complete requests, one to a frame, and the socket delivers the
    frames in any pieces of at most the size of the receive buffer, the channel
    stays open, the callback gets exactly these requests in order, each is answered
    with its CSeq, and nothing is left over. *)
Theorem event_channel_answers_all `{EVPLaws} rk wk ms w frames w' datas :
  encrypt_all ms w = (Some frames, w') -> write_key w = rk -> write_counter w = 0 ->
  Forall complete_event ms -> Forall (answerable rk wk) ms ->
  concat datas = concat frames -> Forall (fun d => size_of d <= 4096) datas ->
  exists n k, service_event_channel datas (new_channel rk wk (repeat true (length ms)))
              = (true, mkEvents (mkCipher rk wk n k) [] [] [] ms (map cseq_of ms)).
Proof.
  intros He Hk Hn Hms Has Hd Hs.
  destruct (service_delivery rk wk datas ms 0 0 [] [] [] []) as (n & k & Hr); try done.
  - by exists w, frames, w'.
  - intros ->. destruct ms as [|m ms]; [done|]. cbn [encrypt_all] in He.
    destruct (encrypt m w) as [[frame|] w1] eqn:E1; [|done].
    destruct (encrypt_all ms w1) as [[frames'|] w2]; [|done]. apply pair_eq in He as [[= <-] _].
    apply encrypt_frame in E1 as (_ & Hl & _). apply (f_equal length) in Hd. cbn in Hd.
    rewrite length_app in Hd. lia.
  - exists n, k. rewrite app_nil_r in Hr. exact Hr.
Qed.

Lemma event_channel_answers_all_witness :
  let ms := [example_event "1"; example_event "2"] in
  let stream := example_frames ms in
  exists n k, @service_event_channel Toy.toy_evp [take 80 stream; drop 80 stream]
                (new_channel example_key example_key (repeat true (length ms)))
              = (true, mkEvents (mkCipher example_key example_key n k) [] [] [] ms (map cseq_of ms)).
Proof.
  cbv zeta. pose proof Toy.toy_laws as Hl.
  apply (@event_channel_answers_all Toy.toy_evp Hl example_key example_key _ (new_cipher [] example_key)
    (default [] (@encrypt_all Toy.toy_evp [example_event "1"; example_event "2"] (new_cipher [] example_key)).1)
    (mkCipher [] example_key 0 2)).
  1-3, 6: vm_compute; reflexivity.
  - repeat constructor; vm_compute; reflexivity.
  - repeat constructor; intros n k; eexists; reflexivity.
  - repeat constructor; vm_compute; discriminate.
Defined.

(** A second request in the same frame is not looked at until another frame
    arrives. *)
Example second_request_waits :
  let s := (example_events [example_frames [example_event "1" ++ example_event "2"]]).2 in
  events s = [example_event "1"] /\ plaintext s = example_event "2" /\ answered s = [bs "1"].
Proof. vm_compute. done. Qed.
