(* ===== verification/SessionSetup.v ===== *)
(** * Setting up the streams of the AirPlay session

    [src/src/airplay/session.cpp], the second half of [run_session]: the requests
    on the control channel after Pair-Verify, the event channel, the audio and
    screen streams, RECORD, the senders and the teardown.  [None] is the early
    [return 1].  What the operating system, the random number generator and the
    receiver answer is an argument; the ghost [trace] is what happened. *)

From S2P Require Import Prelude Text Crypto ControlCipher Rtsp Bplist CarplayIpc FileStore HeadUnitCapabilities SessionAudio SessionVideo SessionChannel Fallible.
#[local] Open Scope Z_scope.

(** ** State *)

Inductive Sender := Microphone | MediaAudio | GuidanceAudio | SystemAudio | Screen.

(** A stream that was set up: the port of the receiver and the key. *)
(* src/src/airplay/session.cpp:1748-1751 run_session (AuxiliaryAudioStream) *)
Record Stream := mkStream { port : Z; stream_key : Bytes }.

(** A request on the control channel, the status of its answer (none: no response),
    the event channel connected, and a sender or receiver started. *)
Inductive SessionEvent :=
| Asked (method : Bytes) (cseq : Z)
| Answered (cseq : Z) (status : option Z)
| EventsConnected
| Launched (who : Sender) (stream : Stream).

(** [script]: for every request to come, what the socket meets while sending and
    while waiting. The ghost [wire] has the octets of each request and what the
    socket took of the frame they were sealed in. *)
(* src/src/airplay/session.cpp:1512-1513 run_session (next_cseq, teardown_attempted) *)
Record Control := mkControl {
  script : list (list Turn * list ChannelTurn);
  control : ControlCipher;
  encrypted_read_buffer : Bytes;
  socket_open : bool;
  next_cseq : Z;
  teardown_attempted : bool;
  files : World;
  trace : list SessionEvent;
  wire : list (Bytes * Bytes)
}.

Abbreviation Setup := (Fallible Control).

Definition note (e : SessionEvent) : Setup unit := fun s =>
  (Some tt, mkControl (script s) (control s) (encrypted_read_buffer s) (socket_open s) (next_cseq s)
              (teardown_attempted s) (files s) (trace s ++ [e]) (wire s)).

(* src/src/airplay/session.cpp:917-922 run_session (close) *)
Definition close_control : Setup unit := fun s =>
  (Some tt, mkControl (script s) (control s) (encrypted_read_buffer s) false (next_cseq s)
              (teardown_attempted s) (files s) (trace s) (wire s)).

(** [close(socket_fd); return 1;] *)
Definition close_and_fail {A} : Setup A := close_control ;; from_option None.

(* src/src/airplay/session.cpp:1518-1518 run_session (next_cseq++) *)
Definition take_cseq : Setup Z := fun s =>
  (Some (next_cseq s),
   mkControl (script s) (control s) (encrypted_read_buffer s) (socket_open s) (u32 (next_cseq s + 1))
     (teardown_attempted s) (files s) (trace s) (wire s)).

(** What the session was given, apart from its callbacks' data: which callbacks
    there are, and where the capabilities are cached. *)
(* src/include/aa2acp/airplay/session.hpp:16-42 SessionOptions *)
Record SessionOptions := mkOptions {
  microphone_received : bool;
  next_media_audio : bool;
  next_guidance_audio : bool;
  next_system_audio : bool;
  head_unit_capabilities_store : Bytes;
  options_mac : Bytes
}.

(** What is drawn and what the system answers outside the control channel: the
    port a UDP socket was bound to ([None]: failure), the attempts to connect the
    event channel, whether the microphone's peer address could be set, the random
    octets of the stream identifiers. *)
Record Outcomes := mkOutcomes {
  cache_suffix : Bytes;
  timing_port : option Z;
  event_attempts : list Attempt;
  microphone_port : option Z;
  microphone_connects : bool;
  microphone_random : option Bytes;
  media_random : option Bytes;
  guidance_random : option Bytes;
  system_random : option Bytes;
  screen_random : option Bytes
}.

(* src/src/airplay/session.cpp:62-71 random_stream_connection_id *)
Definition random_stream_connection_id (random : option Bytes) : option Z :=
  match random with
  | None => None
  | Some bytes =>
      let id := fold_left (fun id byte => u64 (Z.lor (Z.shiftl id 8) byte)) bytes 0 in
      if id =? 0 then None else Some id
  end.

(** ** Property lists *)

(** The initializer of a [PlistValue::Dictionary]. *)
Definition dictionary (entries : list (Bytes * PlistValue)) : PlistValue :=
  PDict (fold_left (fun d kv => emplace kv.1 kv.2 d) entries []).

(* src/src/airplay/session.cpp:668-673 dictionary_of *)
Definition dictionary_of (value : option PlistValue) : option Dictionary :=
  match value with Some (PDict d) => Some d | _ => None end.

(** The property list in a response. *)
Definition plist_of (response : option Response) : option PlistValue :=
  r ← response; decode_bplist (body r).

(** The first entry of [streams]. *)
(* src/src/airplay/session.cpp:1850-1859 run_session (stream_array, first_stream) *)
Definition first_stream (info : option Dictionary) : option Dictionary :=
  d ← info; streams ← dict_find d (bs "streams");
  match streams with
  | PArray (PDict stream :: _) => Some stream
  | _ => None
  end.

Definition data_port (response : option Response) : option Z :=
  d ← first_stream (dictionary_of (plist_of response)); integer_at d (bs "dataPort").

Definition accepted (response : option Response) : bool :=
  match response with Some r => status r =? 200 | None => false end.

(** A port is an unsigned integer here. *)
(* src/src/airplay/session.cpp:1862-1864 run_session (screen_port_value) *)
Definition port_ok (port : Z) : bool := (0 <? port) && (port <=? 65535).

Definition stream_path : Bytes := bs "rtsp://127.0.0.1/stream".
Definition plist_type : Bytes := bs "application/x-apple-binary-plist".

Section Setup.
Context `{EVP}.

(** ** Requests *)

(** The request is sent on the encrypted channel and its answer awaited. *)
(* src/src/airplay/session.cpp:1388-1392 run_session (send_encrypted) *)
Definition call (method path : Bytes) (cseq : Z) (body content_type : Bytes) : Setup (option Response) :=
  fun s =>
    let '(send_turns, turns) := default ([], []) (head (script s)) in
    let request := encode_request method path cseq body content_type [] in
    let '((response, buffer, c), sent) :=
      send_encrypted send_turns turns request (Some cseq) (encrypted_read_buffer s) (control s) in
    (Some response,
     mkControl (tail (script s)) c buffer (socket_open s) (next_cseq s) (teardown_attempted s) (files s)
       (trace s ++ [Asked method cseq; Answered cseq (status <$> response)]) (wire s ++ [(request, sent)])).

(** A request with the next number: [SETUP] of one stream. *)
(* src/src/airplay/session.cpp:1839-1845 run_session (screen SETUP) *)
Definition setup_request (entries : list (Bytes * PlistValue)) : Setup (option Response) :=
  cseq ← take_cseq;
  call (bs "SETUP") stream_path cseq
    (encode_bplist (dictionary [(bs "streams", PArray [dictionary entries])])) plist_type.

(** Sends once. *)
(* src/src/airplay/session.cpp:1514-1527 run_session (send_teardown) *)
Definition send_teardown : Setup unit := fun s =>
  if teardown_attempted s || negb (socket_open s) then (Some tt, s)
  else
    (cseq ← take_cseq;
     _ ← call (bs "TEARDOWN") stream_path cseq [] (bs "application/octet-stream");
     mret tt)
    (mkControl (script s) (control s) (encrypted_read_buffer s) (socket_open s) (next_cseq s) true
       (files s) (trace s) (wire s)).

(** ** The session *)

(** A failure to cache the capabilities is only logged. *)
(* src/src/airplay/session.cpp:1417-1439 run_session (capabilities) *)
Definition cache_capabilities (options : SessionOptions) (suffix : Bytes) (capabilities : option HeadUnitCapabilities)
    : Setup unit := fun s =>
  if bytes_eqb (head_unit_capabilities_store options) [] || bytes_eqb (options_mac options) [] then (Some tt, s)
  else match capabilities with
  | None => (Some tt, s)
  | Some profile =>
      let '(_, w) := save_head_unit_capabilities (head_unit_capabilities_store options) profile suffix (files s) in
      (Some tt, mkControl (script s) (control s) (encrypted_read_buffer s) (socket_open s) (next_cseq s)
                  (teardown_attempted s) w (trace s) (wire s))
  end.

(* src/src/airplay/session.cpp:1380-1439 run_session (/info) *)
Definition request_info (options : SessionOptions) (controller_id suffix : Bytes)
    : Setup (option HeadUnitCapabilities) :=
  let info_body := encode_bplist (dictionary
    [(bs "name", PString (bs "AA2ACP")); (bs "deviceID", PString controller_id);
     (bs "manufacturer", PString (bs "AA2ACP")); (bs "model", PString (bs "RaspberryPi"));
     (bs "osVersion", PString (bs "0.1"))]) in
  response ← call (bs "POST") (bs "/info") 6 info_body plist_type;
  match accepted response, dictionary_of (plist_of response) with
  | true, Some info =>
      let capabilities := head_unit_capabilities info (options_mac options) in
      cache_capabilities options suffix capabilities ;;
      mret capabilities
  | _, _ => close_and_fail
  end.

(** The event port of the answer to the session SETUP. *)
(* src/src/airplay/session.cpp:1467-1485 run_session (session SETUP) *)
Definition event_port (response : option Response) : option Z :=
  match accepted response, dictionary_of (plist_of response) with
  | true, Some info =>
      match integer_at info (bs "timingPort"), integer_at info (bs "eventPort") with
      | Some _, Some port => if port_ok port then Some port else None
      | _, _ => None
      end
  | _, _ => None
  end.

(** The timing socket is bound and the event channel connected; the keys of the
    event channel. *)
(* src/src/airplay/session.cpp:1441-1505 run_session (session SETUP) *)
Definition open_event_channel (shared controller_id : Bytes) (outcomes : Outcomes) : Setup (Bytes * Bytes) :=
  match timing_port outcomes with
  | None => close_and_fail
  | Some local_timing_port =>
      let session_body := encode_bplist (dictionary
        [(bs "timingPort", PInt local_timing_port); (bs "name", PString (bs "AA2ACP"));
         (bs "deviceID", PString controller_id); (bs "model", PString (bs "RaspberryPi"))]) in
      response ← call (bs "SETUP") stream_path 7 session_body plist_type;
      match event_port response with
      | None => close_and_fail
      | Some _ =>
          let read_key := hkdf_sha512 shared (bs "Events-Salt") (bs "Events-Write-Encryption-Key") 32 in
          let write_key := hkdf_sha512 shared (bs "Events-Salt") (bs "Events-Read-Encryption-Key") 32 in
          match (connect_tcp_with_timeout 0 (event_attempts outcomes)).1 with
          | None => close_and_fail
          | Some _ =>
              if negb (size_of read_key =? 32) || negb (size_of write_key =? 32) then close_and_fail
              else note EventsConnected ;; mret (read_key, write_key)
          end
      end
  end.

(** The key of the data stream with an identifier. *)
(* src/src/airplay/session.cpp:1731-1734 run_session (audio_key) *)
Definition stream_key_of (shared : Bytes) (stream_id : Z) (info : string) : Bytes :=
  hkdf_sha512 shared (bs "DataStream-Salt" ++ dec stream_id) (bs info) 32.

(** Every failure leaves the session without microphone. *)
(* src/src/airplay/session.cpp:1542-1685 run_session (microphone) *)
Definition setup_microphone (options : SessionOptions) (shared : Bytes) (outcomes : Outcomes) : Setup unit :=
  if negb (microphone_received options) then mret tt
  else match microphone_port outcomes, random_stream_connection_id (microphone_random outcomes) with
  | Some local_port, Some stream_id =>
      response ← setup_request
        [(bs "type", PInt 100); (bs "audioType", PString (bs "default")); (bs "audioFormat", PInt 16);
         (bs "input", PBool true); (bs "dataPort", PInt local_port); (bs "streamConnectionID", PInt stream_id)];
      let key := stream_key_of shared stream_id "DataStream-Input-Encryption-Key" in
      match data_port response with
      | Some port =>
          if port_ok port && microphone_connects outcomes && accepted response && (size_of key =? 32)
          then note (Launched Microphone (mkStream port key))
          else mret tt
      | None => mret tt
      end
  | _, _ => mret tt
  end.

(** [None]: no media audio in this session. *)
(* src/src/airplay/session.cpp:1687-1746 run_session (media audio) *)
Definition setup_media_audio (options : SessionOptions) (shared : Bytes)
    (capabilities : option HeadUnitCapabilities) (outcomes : Outcomes) : Setup (option Stream) :=
  match next_media_audio options, capabilities, random_stream_connection_id (media_random outcomes) with
  | true, Some profile, Some stream_id =>
      if negb (media_pcm_48k_stereo profile) then mret None
      else
        response ← setup_request
          [(bs "type", PInt 100); (bs "audioType", PString (bs "media")); (bs "audioFormat", PInt 32768);
           (bs "streamConnectionID", PInt stream_id)];
        let key := stream_key_of shared stream_id "DataStream-Output-Encryption-Key" in
        match data_port response with
        | Some port =>
            if accepted response && port_ok port && (size_of key =? 32) then mret (Some (mkStream port key))
            else from_option None
        | None => from_option None
        end
  | _, _, _ => mret None
  end.

(** A failure leaves the session without the stream. *)
(* src/src/airplay/session.cpp:1752-1809 run_session (setup_auxiliary_audio) *)
Definition setup_auxiliary_audio (shared : Bytes) (next supported : bool) (random : option Bytes)
    (audio_type : string) : Setup (option Stream) :=
  if negb next || negb supported then mret None
  else match random_stream_connection_id random with
  | None => mret None
  | Some stream_id =>
      response ← setup_request
        [(bs "type", PInt 100); (bs "audioType", PString (bs audio_type)); (bs "audioFormat", PInt 16);
         (bs "streamConnectionID", PInt stream_id)];
      let key := stream_key_of shared stream_id "DataStream-Output-Encryption-Key" in
      let port := default 0 (data_port response) in
      if accepted response && port_ok port && (size_of key =? 32) then mret (Some (mkStream port key))
      else mret None
  end.

(** The identifier and the port of the screen stream; its key is derived when the
    data stream is opened. *)
(* src/src/airplay/session.cpp:1819-1895 run_session (screen) *)
Definition setup_screen (outcomes : Outcomes) : Setup (Z * Z) :=
  stream_id ← from_option (random_stream_connection_id (screen_random outcomes));
  response ← setup_request [(bs "type", PInt 110); (bs "streamConnectionID", PInt stream_id)];
  let port := default 0 (data_port response) in
  check (accepted response && port_ok port) ;;
  mret (stream_id, port).

(* src/src/airplay/session.cpp:1897-1908 run_session (RECORD) *)
Definition record : Setup unit :=
  cseq ← take_cseq;
  response ← call (bs "RECORD") stream_path cseq [] (bs "application/octet-stream");
  check (accepted response).

(** A thread for each stream that was set up. *)
(* src/src/airplay/session.cpp:1912-1915 run_session (audio_sender) *)
Definition launch (who : Sender) (stream : option Stream) : Setup unit :=
  match stream with Some stream => note (Launched who stream) | None => mret tt end.

(** ** Video *)

Inductive Video :=
| NoVideo
| Recording (content : Bytes) (turns : list (bool * (bool * bool)))
| Live (startup_turns : list StartupTurn) (turns : list VideoTurn).

(** What the data socket does: the attempts to connect, whether the two parts of
    the configuration go out, and the units kept from the start. *)
Record VideoOutcomes := mkVideo {
  video : Video;
  data_attempts : list Attempt;
  config_io : bool * bool;
  initial_io : list (bool * bool)
}.

(** The configuration, the units of a recording and the units kept from the start
    of a live stream, or the exit code. *)
(* src/src/airplay/session.cpp:2051-2125 run_session (video configuration) *)
Definition prepare_video (v : Video) : (Bytes * list (list Bytes) * list Bytes) + Z :=
  match v with
  | NoVideo => inr 0
  | Recording content _ =>
      let nalus := h264_nalus content in
      match avcc_config nalus with
      | Some config => inl (config, h264_access_units nalus, [])
      | None => inr 1
      end
  | Live turns _ =>
      match startup turns None new_startup with
      | Started config st => inl (config, [], initial_access_units st)
      | Ended exit_code => inr exit_code
      end
  end.

Definition recording_turns (v : Video) : list (bool * (bool * bool)) :=
  match v with Recording _ turns => turns | _ => [] end.
Definition live_turns (v : Video) : list VideoTurn :=
  match v with Live _ turns => turns | _ => [] end.

(** From the parameter sets to the end of the stream; the exit code. *)
(* src/src/airplay/session.cpp:2051-2243 run_session (video) *)
Definition stream_video (shared : Bytes) (screen : Z * Z) (v : VideoOutcomes) : Setup Z :=
  match prepare_video (video v) with
  | inr exit_code => mret exit_code
  | inl (config, recording, units) =>
      let key := stream_key_of shared screen.1 "DataStream-Output-Encryption-Key" in
      check (size_of key =? 32) ;;
      match (connect_tcp_with_timeout 0 (data_attempts v)).1 with
      | None => from_option None
      | Some _ =>
          note (Launched Screen (mkStream screen.2 key)) ;;
          mret (data_stream key config (config_io v)
                  (zip_with (fun unit turn => (unit, turn.1, turn.2)) recording (recording_turns (video v)))
                  (zip units (initial_io v)) (live_turns (video v))).1
      end
  end.

(** The media, guidance and system audio streams, and the screen. *)
(* src/src/airplay/session.cpp:1810-1817 run_session (stream setups) *)
Definition setup_streams (options : SessionOptions) (shared : Bytes) (capabilities : option HeadUnitCapabilities)
    (outcomes : Outcomes) : Setup (option Stream * option Stream * option Stream * (Z * Z)) :=
  setup_microphone options shared outcomes ;;
  media ← setup_media_audio options shared capabilities outcomes;
  guidance ← setup_auxiliary_audio shared (next_guidance_audio options)
               (match capabilities with Some p => guidance_pcm_16k_mono p | None => false end)
               (guidance_random outcomes) "default";
  system ← setup_auxiliary_audio shared (next_system_audio options)
             (match capabilities with Some p => system_pcm_16k_mono p | None => false end)
             (system_random outcomes) "alert";
  screen ← setup_screen outcomes;
  mret (media, guidance, system, screen).

(** The senders are threads; a session without video ends at once. *)
(* src/src/airplay/session.cpp:2035-2049 run_session (senders) *)
Definition run_senders (shared : Bytes) (streams : option Stream * option Stream * option Stream * (Z * Z))
    (v : VideoOutcomes) : Setup Z :=
  let '(media, guidance, system, screen) := streams in
  launch MediaAudio media ;;
  launch GuidanceAudio guidance ;;
  launch SystemAudio system ;;
  match video v with
  | NoVideo => send_teardown ;; mret 0
  | _ => stream_video shared screen v
  end.

(** The part of the session that ends with a teardown, whatever happens. *)
(* src/src/airplay/session.cpp:1541-2243 run_session (streams) *)
Definition run_streams (options : SessionOptions) (shared : Bytes) (capabilities : option HeadUnitCapabilities)
    (outcomes : Outcomes) (v : VideoOutcomes) : Setup Z :=
  streams ← setup_streams options shared capabilities outcomes;
  record ;;
  run_senders shared streams v.

(** After Pair-Verify: the exit code of the session. The guard runs [send_teardown]
    at every return from the streams; closing the socket comes last. *)
(* src/src/airplay/session.cpp:1378-2243 run_session (control channel) *)
Definition run_control (options : SessionOptions) (shared controller_id : Bytes) (outcomes : Outcomes)
    (v : VideoOutcomes) (s : Control) : Z * Control :=
  let connected :=
    (capabilities ← request_info options controller_id (cache_suffix outcomes);
     _ ← open_event_channel shared controller_id outcomes;
     mret capabilities) in
  match connected s with
  | (None, s) => (1, (close_control s).2)
  | (Some capabilities, s) =>
      let '(exit_code, s) := run_streams options shared capabilities outcomes v s in
      (default 1 exit_code, (close_control (send_teardown s).2).2)
  end.

(* src/src/airplay/session.cpp:1378-1379 run_session (control) *)
Definition start_control (script : list (list Turn * list ChannelTurn)) (read_key write_key : Bytes) (files : World)
    : Control :=
  mkControl script (new_cipher read_key write_key) [] true 8 false files [] [].
End Setup.

(** ** Facts: what a computation adds to the trace *)

Definition asked (t : list SessionEvent) : list (Bytes * Z) :=
  omap (fun e => match e with Asked method cseq => Some (method, cseq) | _ => None end) t.

Lemma asked_app t u : asked (t ++ u) = asked t ++ asked u.
Proof. apply omap_app. Qed.

(** The computation adds [t], whose requests are numbered from the counter on. *)
Definition adds (t : list SessionEvent) (s s' : Control) : Prop :=
  trace s' = trace s ++ t /\ (asked t).*2 = seqZ (next_cseq s) (size_of (asked t)) /\
  next_cseq s' = next_cseq s + size_of (asked t) /\
  socket_open s' = socket_open s /\ teardown_attempted s' = teardown_attempted s.

Lemma adds_nothing s : adds [] s s.
Proof. unfold adds. rewrite app_nil_r. split_and!; try done. unfold size_of. cbn. lia. Qed.

Lemma adds_trans t u s s1 s2 : adds t s s1 -> adds u s1 s2 -> adds (t ++ u) s s2.
Proof.
  intros (T1 & N1 & C1 & O1 & D1) (T2 & N2 & C2 & O2 & D2). unfold adds.
  rewrite asked_app, fmap_app, size_app, N1, N2, T2, T1, <- app_assoc, C2, C1. split_and!; try congruence; [|lia].
  symmetry. apply seqZ_app; apply size_nonneg.
Qed.

(** At most [k] requests, and only events with [P]. *)
Definition phase (k : Z) (P : SessionEvent -> Prop) (s s' : Control) : Prop :=
  next_cseq s + k < 2 ^ 32 -> 0 <= next_cseq s ->
  exists t, adds t s s' /\ Forall P t /\ size_of (asked t) <= k.

Lemma phase_trans j k P s s1 s2 : 0 <= k -> phase j P s s1 -> phase k P s1 s2 -> phase (j + k) P s s2.
Proof.
  intros Hk H1 H2 Hn H0. destruct H1 as (t & Ht & Hpt & Hjt); [lia|done|].
  pose proof Ht as (_ & _ & Hc & _). pose proof (size_nonneg (asked t)).
  destruct H2 as (u & Hu & Hpu & Hku); [lia|lia|].
  exists (t ++ u). split_and!; [by eapply adds_trans|by apply Forall_app_2|].
  rewrite asked_app, size_app. lia.
Qed.

Lemma phase_nothing k P s : 0 <= k -> phase k P s s.
Proof. intros Hk _ _. exists []. split_and!; [apply adds_nothing|constructor|done]. Qed.

Lemma phase_more j k P s s' : j <= k -> phase j P s s' -> phase k P s s'.
Proof. intros Hk H Hn H0. destruct H as (t & ? & ? & ?); [lia|done|]. exists t. split_and!; try done. lia. Qed.

(** The same of a computation, at every start and however it ends. *)
Definition phased {A} (k : Z) (P : SessionEvent -> Prop) (m : Setup A) : Prop :=
  forall s r s', m s = (r, s') -> phase k P s s'.

Lemma phased_bind {A B} j k P (m : Setup A) (f : A -> Setup B) :
  0 <= k -> phased j P m -> (forall a, phased k P (f a)) -> phased (j + k) P (m ≫= f).
Proof.
  intros Hk Hm Hf s r s' Hr. apply bind_run in Hr as [[E _]|(a & s1 & E & Hr)].
  - apply phase_more with j; [lia|]. by eapply Hm.
  - eapply phase_trans; [done|by eapply Hm|by eapply Hf].
Qed.

(** Behind a computation that may ask, one that does not. *)
Lemma phased_then {A B} k P (m : Setup A) (f : A -> Setup B) :
  phased k P m -> (forall a, phased 0 P (f a)) -> phased k P (m ≫= f).
Proof. intros Hm Hf. rewrite <- (Z.add_0_r k). by apply phased_bind. Qed.

Lemma phased_more {A} j k P (m : Setup A) : j <= k -> phased j P m -> phased k P m.
Proof. intros Hk Hm s r s' Hr. eapply phase_more; [done|]. by eapply Hm. Qed.

Lemma phased_quiet {A} P (m : Setup A) : quiet m -> phased 0 P m.
Proof. intros Hq s r s' Hr. apply quiet_run in Hr as ->; [|done]. by apply phase_nothing. Qed.

Lemma phased_note P e : (forall m c, e <> Asked m c) -> P e -> phased 0 P (note e).
Proof.
  intros Ha He s r s' Hr _ _. apply pair_eq in Hr as [_ <-]. exists [e].
  assert (asked [e] = []) as Hn by (destruct e; [exfalso; by eapply Ha|done..]).
  split_and!; [|by constructor|by rewrite Hn].
  unfold adds. rewrite Hn. split_and!; try done. unfold size_of. cbn. lia.
Qed.

Definition stream_ok (stream : Stream) : Prop :=
  0 < port stream <= 65535 /\ size_of (stream_key stream) = 32.

(** While the streams are being set up. *)
Definition setup_event (e : SessionEvent) : Prop :=
  match e with
  | Asked method _ => method = bs "SETUP"
  | Answered _ _ => True
  | Launched who stream => who = Microphone /\ stream_ok stream
  | EventsConnected => False
  end.

(** And after RECORD. *)
Definition media_event (e : SessionEvent) : Prop :=
  match e with Launched _ stream => stream_ok stream | _ => False end.

Section SetupFacts.
Context `{EVP}.

Lemma take_cseq_call method path body content_type s r s' :
  (cseq ← take_cseq; call method path cseq body content_type) s = (r, s') ->
  exists response, r = Some response /\
    (next_cseq s + 1 < 2 ^ 32 -> 0 <= next_cseq s ->
     adds [Asked method (next_cseq s); Answered (next_cseq s) (status <$> response)] s s').
Proof.
  unfold mbind, fallible_bind, take_cseq, call. cbn [script encrypted_read_buffer control trace next_cseq
    socket_open teardown_attempted files wire].
  destruct (default ([], []) (head (script s))) as [st tu].
  destruct (send_encrypted _ _ _ _ _ _) as [[[response buffer] c] out].
  intros E. apply pair_eq in E as [<- <-]. exists response. split; [done|]. intros Hn H0.
  unfold adds. cbn. rewrite (wrap_id 32) by (split; lia). split_and!; try done.
Qed.

Lemma setup_request_phased entries : phased 1 setup_event (setup_request entries).
Proof.
  intros s r s' Hr Hn H0. unfold setup_request in Hr. apply take_cseq_call in Hr as (response & -> & Ha).
  eexists. split_and!; [by apply Ha|repeat constructor|done].
Qed.

Lemma port_ok_range p : port_ok p = true -> 0 < p <= 65535.
Proof. unfold port_ok. intros. bool_hyps. lia. Qed.

Ltac phased_tac :=
  repeat first
    [ apply setup_request_phased
    | apply phased_then; [|intros ?]
    | apply phased_more with 0; [lia|]; apply phased_quiet; solve [quiet_solve]
    | apply phased_quiet; solve [quiet_solve] ].

Lemma setup_microphone_phased options shared outcomes :
  phased 1 setup_event (setup_microphone options shared outcomes).
Proof.
  unfold setup_microphone. destruct (negb _); [phased_tac|].
  destruct (microphone_port outcomes); [|phased_tac]. destruct (random_stream_connection_id _) as [id|]; [|phased_tac].
  phased_tac. set (key := stream_key_of _ _ _). clearbody key.
  destruct (data_port _) as [p|]; [|phased_tac].
  destruct (port_ok p && _ && _ && _) eqn:E; [|phased_tac]. bool_hyps.
  apply phased_note; [done|]. split; [done|]. split; [by apply port_ok_range|done].
Qed.

Lemma setup_media_audio_phased options shared capabilities outcomes :
  phased 1 setup_event (setup_media_audio options shared capabilities outcomes).
Proof.
  unfold setup_media_audio. destruct (next_media_audio options); [|phased_tac].
  destruct capabilities as [p|]; [|phased_tac]. destruct (random_stream_connection_id _); [|phased_tac].
  destruct (negb _); phased_tac. destruct (data_port _); [|phased_tac]. destruct (_ && _); phased_tac.
Qed.

Lemma setup_auxiliary_audio_phased shared next supported random audio_type :
  phased 1 setup_event (setup_auxiliary_audio shared next supported random audio_type).
Proof.
  unfold setup_auxiliary_audio. destruct (_ || _); [phased_tac|].
  destruct (random_stream_connection_id _); phased_tac. destruct (_ && _); phased_tac.
Qed.

Lemma setup_screen_phased outcomes : phased 1 setup_event (setup_screen outcomes).
Proof.
  unfold setup_screen. rewrite <- (Z.add_0_l 1). apply phased_bind; [done|phased_tac|intros id]. phased_tac.
Qed.

Lemma setup_media_audio_ok options shared capabilities outcomes s stream s' :
  setup_media_audio options shared capabilities outcomes s = (Some (Some stream), s') -> stream_ok stream.
Proof.
  unfold setup_media_audio. intros Hr. destruct (next_media_audio options); [|by apply ret_run in Hr as [[=] _]].
  destruct capabilities as [p|]; [|by apply ret_run in Hr as [[=] _]].
  destruct (random_stream_connection_id _); [|by apply ret_run in Hr as [[=] _]].
  destruct (negb _); [by apply ret_run in Hr as [[=] _]|]. apply bind_ok in Hr as (response & s1 & _ & Hr).
  cbv zeta in Hr. destruct (data_port response) as [q|]; [|done].
  destruct (_ && _) eqn:E; [|done]. apply ret_run in Hr as [[= ->] _]. bool_hyps.
  split; [by apply port_ok_range|done].
Qed.

Lemma setup_auxiliary_audio_ok shared next supported random audio_type s stream s' :
  setup_auxiliary_audio shared next supported random audio_type s = (Some (Some stream), s') -> stream_ok stream.
Proof.
  unfold setup_auxiliary_audio. intros Hr. destruct (_ || _); [by apply ret_run in Hr as [[=] _]|].
  destruct (random_stream_connection_id _); [|by apply ret_run in Hr as [[=] _]].
  apply bind_ok in Hr as (response & s1 & _ & Hr). cbv zeta in Hr.
  destruct (_ && _) eqn:E; [|by apply ret_run in Hr as [[=] _]]. apply ret_run in Hr as [[= ->] _]. bool_hyps.
  split; [by apply port_ok_range|done].
Qed.

Lemma setup_screen_ok outcomes s screen s' :
  setup_screen outcomes s = (Some screen, s') -> 0 < screen.2 <= 65535.
Proof.
  unfold setup_screen. intros Hr. run_ok Hr. apply bind_ok in Hr as (response & s2 & _ & Hr). cbv zeta in Hr.
  apply bind_ok in Hr as ([] & s3 & Hc & Hr). apply check_ok in Hc as [_ Hc].
  apply ret_run in Hr as [[= ->] _]. bool_hyps. by apply port_ok_range.
Qed.

Lemma record_run s r s' :
  record s = (r, s') -> exists c status,
    (next_cseq s + 1 < 2 ^ 32 -> 0 <= next_cseq s -> adds [Asked (bs "RECORD") c; Answered c status] s s') /\
    (r <> None -> status = Some 200).
Proof.
  unfold record. rewrite bind_assoc. intros Hr. apply bind_run in Hr as [[E ->]|(a & s1 & E & Hr)].
  { by apply take_cseq_call in E as (response & ? & _). }
  apply take_cseq_call in E as (response & [= ->] & Ha). apply check_run in Hr as [-> Hr].
  exists (next_cseq s), (status <$> response). split; [done|].
  destruct Hr as [[_ Hacc]|[-> _]]; [|done]. intros _. unfold accepted in Hacc.
  destruct response as [resp|]; [|done]. bool_hyps. cbn. congruence.
Qed.

(** *** Teardown *)

Lemma teardown_once s :
  teardown_attempted s = false -> socket_open s = true -> next_cseq s + 1 < 2 ^ 32 -> 0 <= next_cseq s ->
  exists status,
    trace (send_teardown s).2 = trace s ++ [Asked (bs "TEARDOWN") (next_cseq s); Answered (next_cseq s) status] /\
    teardown_attempted (send_teardown s).2 = true.
Proof.
  intros Ht Ho Hn H0. unfold send_teardown. rewrite Ht, Ho. cbn [orb negb].
  set (s1 := mkControl _ _ _ _ _ true _ _ _). rewrite bind_assoc.
  match goal with |- context [(?m s1).2] => destruct (m s1) as [r s'] eqn:E end.
  apply bind_run in E as [[E ->]|(a & s2 & E & Hr)].
  { by apply take_cseq_call in E as (response & ? & _). }
  apply take_cseq_call in E as (response & _ & Ha). apply ret_run in Hr as [_ ->].
  destruct (Ha Hn H0) as (Htr & _ & _ & _ & Hat). eexists. cbn [snd]. by rewrite Htr, Hat.
Qed.

Lemma teardown_twice s :
  teardown_attempted s = true -> (send_teardown s).2 = s.
Proof. intros Ht. unfold send_teardown. by rewrite Ht. Qed.

(** *** After RECORD *)

Lemma launch_phased who stream : (forall st, stream = Some st -> stream_ok st) -> phased 0 media_event (launch who stream).
Proof.
  intros Hs. destruct stream as [st|]; cbn; [|by apply phased_quiet]. apply phased_note; [done|]. by apply Hs.
Qed.

Lemma stream_video_phased shared screen v :
  0 < screen.2 <= 65535 -> phased 0 media_event (stream_video shared screen v).
Proof.
  intros Hp. unfold stream_video. destruct (prepare_video _) as [[[config recording] units]|code]; [|by apply phased_quiet].
  set (key := stream_key_of _ _ _). clearbody key. intros s r s' Hr.
  apply bind_run in Hr as [[E _]|([] & s1 & E & Hr)]; apply check_run in E as [-> E].
  { by apply phase_nothing. }
  destruct E as [[_ Hk]|[? _]]; [|done]. destruct (_.1); [|apply from_option_run in Hr as [-> _]; by apply phase_nothing].
  eapply phased_then in Hr; [exact Hr|apply phased_note; [done|]|intros []; by apply phased_quiet].
  bool_hyps. done.
Qed.

(** *** The streams as a whole *)

Definition streams_ok (streams : option Stream * option Stream * option Stream * (Z * Z)) : Prop :=
  let '(media, guidance, system, screen) := streams in
  Forall stream_ok (option_list media ++ option_list guidance ++ option_list system) /\ 0 < screen.2 <= 65535.

Lemma setup_streams_phased options shared capabilities outcomes :
  phased 5 setup_event (setup_streams options shared capabilities outcomes).
Proof.
  unfold setup_streams. change 5 with (1 + (1 + (1 + (1 + 1)))).
  apply phased_bind; [done|apply setup_microphone_phased|intros _].
  apply phased_bind; [done|apply setup_media_audio_phased|intros media].
  apply phased_bind; [done|apply setup_auxiliary_audio_phased|intros guidance].
  apply phased_bind; [done|apply setup_auxiliary_audio_phased|intros system].
  apply phased_then; [apply setup_screen_phased|intros screen]. by apply phased_quiet.
Qed.

Lemma setup_streams_ok options shared capabilities outcomes s streams s' :
  setup_streams options shared capabilities outcomes s = (Some streams, s') -> streams_ok streams.
Proof.
  unfold setup_streams. intros Hr.
  apply bind_ok in Hr as ([] & s1 & _ & Hr). apply bind_ok in Hr as (media & s2 & Em & Hr).
  apply bind_ok in Hr as (guidance & s3 & Eg & Hr). apply bind_ok in Hr as (system & s4 & Es & Hr).
  apply bind_ok in Hr as (screen & s5 & Ec & Hr). apply ret_run in Hr as [[= ->] _].
  split; [|by eapply setup_screen_ok]. repeat apply Forall_app_2.
  - destruct media; constructor; [by eapply setup_media_audio_ok|constructor].
  - destruct guidance; constructor; [by eapply setup_auxiliary_audio_ok|constructor].
  - destruct system; constructor; [by eapply setup_auxiliary_audio_ok|constructor].
Qed.

(** Senders only, and at the end perhaps the teardown. *)
Lemma run_senders_outcome shared streams v s r s' :
  streams_ok streams -> run_senders shared streams v s = (r, s') ->
  exists s1, phase 0 media_event s s1 /\ (s' = s1 \/ s' = (send_teardown s1).2).
Proof.
  destruct streams as [[[media guidance] system] screen]. intros [Hs Hp]. unfold run_senders. intros Hr.
  rewrite !Forall_app in Hs. destruct Hs as (Hm & Hg & Hy).
  assert (Hl : forall who o, Forall stream_ok (option_list o) -> phased 0 media_event (launch who o)).
  { intros who o Ho. apply launch_phased. intros st ->. by apply Forall_cons in Ho as [? _]. }
  apply bind_run in Hr as [[E _]|([] & s1 & E1 & Hr)].
  { exists s'. split; [exact (Hl _ _ Hm _ _ _ E)|by left]. }
  pose proof (Hl _ _ Hm _ _ _ E1) as H1. apply bind_run in Hr as [[E _]|([] & s2 & E2 & Hr)].
  { exists s'. split; [|by left]. exact (phase_trans 0 0 _ _ _ _ ltac:(done) H1 (Hl _ _ Hg _ _ _ E)). }
  pose proof (phase_trans 0 0 _ _ _ _ ltac:(done) H1 (Hl _ _ Hg _ _ _ E2)) as H2.
  apply bind_run in Hr as [[E _]|([] & s3 & E3 & Hr)].
  { exists s'. split; [|by left]. exact (phase_trans 0 0 _ _ _ _ ltac:(done) H2 (Hl _ _ Hy _ _ _ E)). }
  pose proof (phase_trans 0 0 _ _ _ _ ltac:(done) H2 (Hl _ _ Hy _ _ _ E3)) as H3.
  destruct (video v).
  1: { exists s3. split; [done|]. right. unfold mbind, fallible_bind in Hr.
       destruct (send_teardown s3) as [[[]|] s4]; injection Hr as _ <-; done. }
  all: exists s'; (split; [|by left]); exact (phase_trans 0 0 _ _ _ _ ltac:(done) H3 (stream_video_phased _ _ _ Hp _ _ _ Hr)).
Qed.

(** RECORD comes after the set-up, and senders only after it was accepted. *)
Definition stream_trace (t : list SessionEvent) (finished : bool) : Prop :=
  (Forall setup_event t /\ finished = false) \/
  exists t1 c status t2, t = t1 ++ [Asked (bs "RECORD") c; Answered c status] ++ t2 /\
    Forall setup_event t1 /\ Forall media_event t2 /\ (t2 <> [] \/ finished = true -> status = Some 200).

Lemma run_streams_outcome options shared capabilities outcomes v s r s' :
  run_streams options shared capabilities outcomes v s = (r, s') ->
  next_cseq s + 7 < 2 ^ 32 -> 0 <= next_cseq s ->
  exists s1 t, adds t s s1 /\ size_of (asked t) <= 6 /\ stream_trace t (bool_decide (r <> None)) /\
    (s' = s1 \/ s' = (send_teardown s1).2).
Proof.
  unfold run_streams. intros Hr Hn H0.
  apply bind_run in Hr as [[E ->]|(streams & s1 & E & Hr)]; apply setup_streams_phased in E as Hph;
    destruct Hph as (t1 & Ha1 & Hf1 & Hk1); try lia.
  { exists s', t1. split_and!; [done|lia|by left|by left]. }
  apply setup_streams_ok in E. pose proof Ha1 as (_ & _ & Hc1 & _). pose proof (size_nonneg (asked t1)).
  apply bind_run in Hr as [[E2 ->]|([] & s2 & E2 & Hr)]; apply record_run in E2 as (c & status & Ha2 & Hst).
  { exists s', (t1 ++ [Asked (bs "RECORD") c; Answered c status]). split_and!; [|rewrite asked_app, size_app; unfold size_of at 2; cbn; lia| |by left].
    - eapply adds_trans; [done|]. apply Ha2; lia.
    - right. exists t1, c, status, []. split_and!; [by rewrite app_nil_r|done|constructor|]. by intros [?|?]. }
  assert (adds (t1 ++ [Asked (bs "RECORD") c; Answered c status]) s s2) as Ha by (eapply adds_trans; [done|apply Ha2; lia]).
  pose proof Ha as (_ & _ & Hc2 & _). rewrite asked_app, size_app in Hc2. unfold size_of at 2 in Hc2. cbn in Hc2.
  apply run_senders_outcome in Hr as (s3 & Hp3 & Hs3); [|done]. destruct Hp3 as (t2 & Ha3 & Hf3 & Hk3); [lia..|].
  exists s3, ((t1 ++ [Asked (bs "RECORD") c; Answered c status]) ++ t2). split_and!; [|rewrite !asked_app, !size_app; unfold size_of at 2; cbn; lia| |done].
  - by eapply adds_trans.
  - right. exists t1, c, status, t2. split_and!; [by rewrite <- app_assoc|done|done|]. intros _. by apply Hst.
Qed.

(** *** The connection before them *)

Lemma call_run method path cseq body content_type s r s' :
  call method path cseq body content_type s = (r, s') ->
  exists response, r = Some response /\
    trace s' = trace s ++ [Asked method cseq; Answered cseq (status <$> response)] /\
    next_cseq s' = next_cseq s /\ socket_open s' = socket_open s /\ teardown_attempted s' = teardown_attempted s.
Proof.
  unfold call. destruct (default ([], []) (head (script s))) as [st tu].
  destruct (send_encrypted _ _ _ _ _ _) as [[[response buffer] c] out].
  intros E. apply pair_eq in E as [<- <-]. by exists response.
Qed.

Lemma accepted_status response : accepted response = true -> status <$> response = Some 200.
Proof. unfold accepted. destruct response as [r|]; [|done]. intros. bool_hyps. cbn. congruence. Qed.

Lemma request_info_run options controller_id suffix s r s' :
  request_info options controller_id suffix s = (r, s') ->
  exists status, trace s' = trace s ++ [Asked (bs "POST") 6; Answered 6 status] /\
    (r <> None -> status = Some 200 /\ next_cseq s' = next_cseq s /\ socket_open s' = socket_open s /\
                  teardown_attempted s' = teardown_attempted s).
Proof.
  unfold request_info. intros Hr. apply bind_run in Hr as [[E ->]|(a & s1 & E & Hr)].
  { by apply call_run in E as (response & ? & _). }
  apply call_run in E as (response & [= ->] & Ht & Hc & Ho & Hd). exists (Rtsp.status <$> response).
  destruct (accepted response) eqn:Ea; [|apply pair_eq in Hr as [<- <-]; by split].
  destruct (dictionary_of _) as [info|]; [|apply pair_eq in Hr as [<- <-]; by split].
  cbv zeta in Hr. apply bind_run in Hr as [[E ->]|([] & s2 & E & Hr)]; unfold cache_capabilities in E;
    (destruct (_ || _); [|destruct (head_unit_capabilities _ _) as [p|]; [destruct (save_head_unit_capabilities _ _ _ _) as [b w]|]]);
    apply pair_eq in E as [? <-]; try done; apply ret_run in Hr as [-> ->]; (split; [done|]; intros _; by rewrite accepted_status).
Qed.

Lemma event_port_status response p : event_port response = Some p -> status <$> response = Some 200.
Proof. unfold event_port. destruct (accepted response) eqn:E; [|done]. intros _. by apply accepted_status. Qed.

Lemma open_event_channel_run shared controller_id outcomes s r s' :
  open_event_channel shared controller_id outcomes s = (r, s') ->
  exists t, trace s' = trace s ++ t /\
    if bool_decide (r <> None)
    then t = [Asked (bs "SETUP") 7; Answered 7 (Some 200); EventsConnected] /\ next_cseq s' = next_cseq s /\
         socket_open s' = socket_open s /\ teardown_attempted s' = teardown_attempted s
    else t = [] \/ exists status, t = [Asked (bs "SETUP") 7; Answered 7 status].
Proof.
  unfold open_event_channel. intros Hr. destruct (timing_port outcomes) as [p|].
  2: { apply pair_eq in Hr as [<- <-]. exists []. rewrite app_nil_r. split; [done|by left]. }
  cbv zeta in Hr. apply bind_run in Hr as [[E ->]|(a & s1 & E & Hr)].
  { by apply call_run in E as (response & ? & _). }
  apply call_run in E as (response & [= ->] & Ht & Hc & Ho & Hd).
  assert (Hfail : close_and_fail s1 = (r, s') -> exists t, trace s' = trace s ++ t /\
    if bool_decide (r <> None) then t = [Asked (bs "SETUP") 7; Answered 7 (Some 200); EventsConnected] /\ next_cseq s' = next_cseq s /\
         socket_open s' = socket_open s /\ teardown_attempted s' = teardown_attempted s
    else t = [] \/ exists status, t = [Asked (bs "SETUP") 7; Answered 7 status]).
  { intros E. apply pair_eq in E as [<- <-]. eexists. split; [exact Ht|]. right. by eexists. }
  destruct (event_port response) as [port|] eqn:Ep; [|by apply Hfail].
  destruct (_.1); [|by apply Hfail]. destruct (_ || _); [by apply Hfail|].
  apply event_port_status in Ep. apply pair_eq in Hr as [<- <-].
  eexists. split; [cbn [trace snd]; rewrite Ht, <- app_assoc; reflexivity|]. by rewrite Ep.
Qed.

(** The whole of it: either no event channel and no teardown, or both. *)
Definition session_trace (t : list SessionEvent) (exit_code : Z) : Prop :=
  (exists u, t = [Asked (bs "POST") 6] ++ u /\ exit_code = 1 /\
     ((exists status, u = [Answered 6 status]) \/
      exists st1 st2, u = [Answered 6 st1; Asked (bs "SETUP") 7; Answered 7 st2])) \/
  exists u c status finished,
    t = [Asked (bs "POST") 6; Answered 6 (Some 200); Asked (bs "SETUP") 7; Answered 7 (Some 200); EventsConnected]
        ++ u ++ [Asked (bs "TEARDOWN") c; Answered c status] /\
    stream_trace u finished /\ (exit_code = 0 -> finished = true) /\
    (asked u).*2 = seqZ 8 (size_of (asked u)) /\ c = 8 + size_of (asked u) /\ size_of (asked u) <= 6.

Lemma run_control_trace options shared controller_id outcomes v turns read_key write_key files :
  let '(exit_code, s) := run_control options shared controller_id outcomes v
                           (start_control turns read_key write_key files) in
  session_trace (trace s) exit_code /\ socket_open s = false.
Proof.
  unfold run_control. set (s0 := start_control _ _ _ _). cbv zeta.
  match goal with |- context [match ?m s0 with _ => _ end] => destruct (m s0) as [r s] eqn:E end.
  apply bind_run in E as [[E ->]|(caps & s1 & E & Hr)];
    apply request_info_run in E as (st & Ht & Hs).
  { split; [|done]. left. eexists. cbn [trace]. split; [exact Ht|]. split; [done|]. left. by eexists. }
  destruct Hs as (-> & Hc1 & Ho1 & Hd1); [done|].
  apply bind_run in Hr as [[E ->]|(keys & s2 & E & Hr)];
    apply open_event_channel_run in E as (t & Ht2 & Hs2).
  { split; [|done]. left. cbn [trace close_control snd]. rewrite Ht2, Ht. destruct Hs2 as [->|(st & ->)].
    - eexists. split; [reflexivity|]. split; [done|]. left. by eexists.
    - eexists. split; [reflexivity|]. split; [done|]. right. by eexists _, _. }
  apply ret_run in Hr as [-> ->]. destruct Hs2 as (-> & Hc2 & Ho2 & Hd2).
  destruct (run_streams _ _ _ _ _ _) as [code s3] eqn:Er.
  apply run_streams_outcome in Er as (s4 & u & Ha & Hk & Hst & Hs3); [|rewrite Hc2, Hc1; done..].
  destruct Ha as (Htr & Hn & Hcs & Ho & Hd). rewrite Hc2, Hc1 in Hn, Hcs. cbn [s0 start_control next_cseq] in Hn, Hcs.
  destruct (teardown_once s4) as (status & Hfin & Hat); [by rewrite Hd, Hd2, Hd1|by rewrite Ho, Ho2, Ho1|lia|pose proof (size_nonneg (asked u)); lia|].
  assert ((send_teardown s3).2 = (send_teardown s4).2) as Heq
    by (destruct Hs3 as [->| ->]; [done|by apply teardown_twice]).
  split; [|done]. right. cbn [trace close_control snd]. rewrite Heq, Hfin, Htr, Ht2, Ht.
  exists u, (8 + size_of (asked u)), status, (bool_decide (code <> None)).
  split_and!; [by rewrite Hcs, <- !app_assoc|done| |done..].
  intros Hz. apply bool_decide_eq_true. intros ->. done.
Qed.
End SetupFacts.

(** ** The octets of the requests *)

(** The octets begin with the request line and the CSeq line of a request with
    this method and this number. *)
Definition carries (method : Bytes) (cseq : Z) (request : Bytes) : Prop :=
  method ∈ [bs "POST"; bs "SETUP"; bs "RECORD"; bs "TEARDOWN"] /\
  exists path rest, path ∈ [bs "/info"; stream_path] /\
    request = method ++ bs " " ++ path ++ bs " RTSP/1.0" ++ CRLF ++ bs "CSeq: " ++ dec cseq ++ CRLF ++ rest.

(** The requests with these methods and numbers went out one after another, each
    in a frame of its own under the next counter, as far as the socket took it;
    with the counter that is next. *)
Inductive on_wire `{EVP} (key : Bytes) : list (Bytes * Z) -> list (Bytes * Bytes) -> Z -> Prop :=
| wire_start : on_wire key [] [] 0
| wire_sent labels wire counter method cseq request sent counter' :
    on_wire key labels wire counter -> carries method cseq request ->
    sealed_on key counter request sent counter' ->
    on_wire key (labels ++ [(method, cseq)]) (wire ++ [(request, sent)]) counter'.

Section Octets.
Context `{EVP}.
Variable key : Bytes.

Definition wired_state (s : Control) : Prop :=
  write_key (control s) = key /\ on_wire key (asked (trace s)) (wire s) (write_counter (control s)).

(** The computation keeps that, however it ends. *)
Definition wired {A} (m : Setup A) : Prop := forall s, wired_state s -> wired_state (m s).2.

Lemma wired_bind {A B} (m : Setup A) (f : A -> Setup B) : wired m -> (forall a, wired (f a)) -> wired (m ≫= f).
Proof.
  intros Hm Hf s Hs. apply Hm in Hs. unfold mbind, fallible_bind.
  destruct (m s) as [[a|] s1]; [by apply Hf|done].
Qed.

Lemma wired_quiet {A} (m : Setup A) : quiet m -> wired m.
Proof. intros Hq s Hs. by rewrite Hq. Qed.

Lemma wired_note e : (forall m c, e <> Asked m c) -> wired (note e).
Proof.
  intros Ha s [Hk Hw]. split; [done|]. cbn. rewrite asked_app.
  replace (asked [e]) with (@nil (Bytes * Z)) by (destruct e; [exfalso; by eapply Ha|done..]). by rewrite app_nil_r.
Qed.

Lemma wired_take_cseq : wired take_cseq.
Proof. by intros s. Qed.

Lemma wired_close {A} : wired (@close_and_fail A).
Proof. by intros s. Qed.

Lemma encode_request_carries method path cseq body content_type :
  method ∈ [bs "POST"; bs "SETUP"; bs "RECORD"; bs "TEARDOWN"] -> path ∈ [bs "/info"; stream_path] ->
  carries method cseq (encode_request method path cseq body content_type []).
Proof.
  intros Hm Hp. split; [done|]. unfold encode_request, request_lines. eexists path, _. split; [done|].
  cbn [app]. rewrite !crlf_lines_cons, <- !app_assoc. reflexivity.
Qed.

Lemma wired_call method path cseq body content_type :
  method ∈ [bs "POST"; bs "SETUP"; bs "RECORD"; bs "TEARDOWN"] -> path ∈ [bs "/info"; stream_path] ->
  wired (call method path cseq body content_type).
Proof.
  intros Hm Hp s [Hk Hw]. unfold call. destruct (default ([], []) (head (script s))) as [st tu]. cbv zeta.
  destruct (send_encrypted _ _ _ _ _ _) as [[[response buffer] c] sent] eqn:E.
  apply send_encrypted_sealed in E as [Hk' Hs]. split; cbn [snd control trace wire]; [congruence|].
  rewrite asked_app. change (asked [Asked method cseq; _]) with [(method, cseq)].
  econstructor; [done|by apply encode_request_carries|]. by rewrite <- Hk.
Qed.

Ltac listed := rewrite !elem_of_cons; by auto.

Ltac wired_tac :=
  repeat first
    [ lazymatch goal with |- wired close_and_fail => apply wired_close | |- wired take_cseq => apply wired_take_cseq end
    | lazymatch goal with
      | |- wired (call _ _ _ _ _) => apply wired_call; listed
      | |- wired (note _) => apply wired_note; done
      | |- wired (mret _) => by apply wired_quiet
      | |- wired (from_option _) => by apply wired_quiet
      | |- wired (check _) => by apply wired_quiet
      | |- wired (_ ≫= _) => apply wired_bind; [|intros ?]
      end
    | match goal with |- wired (match ?x with _ => _ end) => destruct x end ].

Lemma wired_setup_request entries : wired (setup_request entries).
Proof. unfold setup_request. wired_tac. Qed.

Lemma wired_teardown : wired send_teardown.
Proof.
  intros s Hs. unfold send_teardown. destruct (_ || _); [done|].
  match goal with |- wired_state (?m ?s1).2 => assert (wired m) as Hm by wired_tac; apply Hm end. done.
Qed.

Lemma wired_request_info options controller_id suffix : wired (request_info options controller_id suffix).
Proof.
  unfold request_info. cbv zeta. wired_tac. unfold cache_capabilities. intros s Hs.
  destruct (_ || _); [done|]. destruct (head_unit_capabilities _ _); [|done]. by destruct (save_head_unit_capabilities _ _ _ _).
Qed.

Lemma wired_open_event_channel shared controller_id outcomes : wired (open_event_channel shared controller_id outcomes).
Proof. unfold open_event_channel. cbv zeta. wired_tac. Qed.

Lemma wired_run_streams options shared capabilities outcomes v :
  wired (run_streams options shared capabilities outcomes v).
Proof.
  unfold run_streams, setup_streams, run_senders, setup_microphone, setup_media_audio, setup_auxiliary_audio,
    setup_screen, record, stream_video, launch. cbv zeta.
  repeat first [apply wired_setup_request | apply wired_teardown | progress wired_tac].
Qed.

Lemma run_control_wired options shared controller_id outcomes v s :
  wired_state s -> wired_state (run_control options shared controller_id outcomes v s).2.
Proof.
  intros Hs. unfold run_control. cbv zeta.
  match goal with |- context [match ?m s with _ => _ end] => assert (wired m) as Hm end.
  { wired_tac; [apply wired_request_info|apply wired_open_event_channel]. }
  apply Hm in Hs. match goal with |- context [match ?m s with _ => _ end] => destruct (m s) as [[caps|] s1] end; [|done].
  cbn [snd] in Hs.
  apply (wired_run_streams options shared caps outcomes v) in Hs. destruct (run_streams _ _ _ _ _ _) as [code s2].
  exact (wired_teardown _ Hs).
Qed.
End Octets.

(** ** Theorems *)

Lemma stream_trace_methods u finished :
  stream_trace u finished -> (bs "TEARDOWN" ∉ (asked u).*1) /\ EventsConnected ∉ u.
Proof.
  assert (Hf : forall P t, Forall P t -> ~ P EventsConnected -> (forall c, ~ P (Asked (bs "TEARDOWN") c)) ->
    (bs "TEARDOWN" ∉ (asked t).*1) /\ EventsConnected ∉ t).
  { intros P t Hp Hne Hnt. rewrite Forall_forall in Hp. split; [|by intros He%Hp].
    intros ((m & c) & Hm & Hin)%list_elem_of_fmap. cbn in Hm. subst m.
    apply list_elem_of_omap in Hin as (e & He & Hin). apply Hp in He. destruct e; try done.
    injection Hin as -> ->. by eapply Hnt. }
  intros [[Hs _]|(t1 & c & status & t2 & -> & H1 & H2 & _)].
  - apply (Hf _ _ Hs); [by intros []|]. by intros c [=].
  - destruct (Hf _ _ H1) as [A1 B1]; [by intros []|by intros c' [=]|]. destruct (Hf _ _ H2) as [A2 B2]; [by intros []|by intros c' []|].
    rewrite !asked_app, !fmap_app, !elem_of_app. split.
    + intros [?|[Hr|?]]; [done| |done]. cbn in Hr. set_unfold in Hr. destruct Hr as [Hr|Hr]; done.
    + intros [?|[Hr|?]]; [done| |done]. set_unfold in Hr. naive_solver.
Qed.

(** C30. Requests are numbered without gaps and the session is torn down once. In
    every run after Pair-Verify, whatever the receiver, the sockets and the random
    numbers do: the octets of the requests begin with the request line of their
    method and the CSeq line of their number, and go out one after another, each
    sealed with the write key under the next counter, as far as the socket takes
    the frame; the numbers are 6, 7, 8, ... in order and at most nine; when the
    event channel was connected, TEARDOWN is the last request and is sent exactly
    once, however the session ends, and otherwise it is not sent; and the control
    socket is closed. *)
Theorem session_requests `{EVP} options shared controller_id outcomes v turns read_key write_key files :
  let s := (run_control options shared controller_id outcomes v (start_control turns read_key write_key files)).2 in
  on_wire write_key (asked (trace s)) (wire s) (write_counter (control s)) /\
  (asked (trace s)).*2 = seqZ 6 (size_of (asked (trace s))) /\ size_of (asked (trace s)) <= 9 /\
  (EventsConnected ∈ trace s ->
     exists before c, asked (trace s) = before ++ [(bs "TEARDOWN", c)] /\ bs "TEARDOWN" ∉ before.*1) /\
  (EventsConnected ∉ trace s -> bs "TEARDOWN" ∉ (asked (trace s)).*1) /\
  socket_open s = false.
Proof.
  pose proof (run_control_trace options shared controller_id outcomes v turns read_key write_key files) as Hr.
  destruct (run_control_wired write_key options shared controller_id outcomes v
    (start_control turns read_key write_key files)) as [_ Hw]; [split; [done|constructor]|].
  destruct (run_control _ _ _ _ _ _) as [code s]. cbv zeta. cbn [snd] in *. destruct Hr as [Ht Hopen].
  split; [done|]. clear Hw.
  destruct Ht as [(u & -> & _ & [(st & ->)|(st & st2 & ->)])|(u & c & status & finished & -> & Hu & _ & Hn & -> & Hk)].
  1-2: split_and!; [reflexivity|cbv; discriminate| | |done]; [set_solver|intros _; cbn; set_unfold; naive_solver].
  destruct (stream_trace_methods _ _ Hu) as [Hm _].
  set (pre := [Asked _ 6; _; _; _; _]). set (post := [Asked _ _; _]).
  assert (asked (pre ++ u ++ post) = ([(bs "POST", 6); (bs "SETUP", 7)] ++ asked u) ++
    [(bs "TEARDOWN", 8 + size_of (asked u))]) as -> by (rewrite !asked_app, <- app_assoc; done).
  split_and!; [| | |intros []; set_solver|done].
  - rewrite !fmap_app, Hn, !size_app. change (size_of [(bs "POST", 6); (bs "SETUP", 7)]) with 2.
    change (size_of [(bs "TEARDOWN", 8 + size_of (asked u))]) with 1.
    pose proof (size_nonneg (asked u)). rewrite (seqZ_app 6 (2 + size_of (asked u)) 1), (seqZ_app 6 2) by lia.
    replace (6 + (2 + size_of (asked u))) with (8 + size_of (asked u)) by lia. done.
  - rewrite !size_app. change (size_of [(bs "POST", 6); (bs "SETUP", 7)]) with 2.
    change (size_of [(bs "TEARDOWN", 8 + size_of (asked u))]) with 1. lia.
  - intros _. eexists _, _. split; [reflexivity|]. rewrite fmap_app, elem_of_app.
    intros [Hin|?]; [|done]. cbn in Hin. set_unfold in Hin. naive_solver.
Qed.

(** RECORD was sent, and accepted. *)
Definition record_accepted (t : list SessionEvent) : Prop :=
  exists t1 c t2, t = t1 ++ [Asked (bs "RECORD") c; Answered c (Some 200)] ++ t2.

Lemma record_accepted_app a t b : record_accepted t -> record_accepted (a ++ t ++ b).
Proof.
  intros (t1 & c & t2 & ->). exists (a ++ t1), c, (t2 ++ b). by rewrite <- !app_assoc.
Qed.

(** Where an element of a concatenation lies. *)
Lemma split_at {A} (pre post a b : list A) x :
  pre ++ x :: post = a ++ b ->
  (exists post', a = pre ++ x :: post') \/ exists pre', pre = a ++ pre' /\ b = pre' ++ x :: post.
Proof.
  intros [(k & -> & ->)|(k & -> & Hk)]%app_eq_inv; [right; by exists k|].
  destruct k as [|y k]; cbn in Hk; [right; exists []; by rewrite !app_nil_r|].
  injection Hk as -> ->. left. by exists k.
Qed.

Lemma stream_trace_launch u finished pre who stream post :
  stream_trace u finished -> u = pre ++ Launched who stream :: post ->
  stream_ok stream /\ (who <> Microphone -> record_accepted pre).
Proof.
  intros [[Hs _]|(t1 & c & status & t2 & -> & H1 & H2 & Hst)] Hu.
  - subst u. apply Forall_app in Hs as [_ Hs]. apply Forall_cons in Hs as [[-> Hs] _]. done.
  - symmetry in Hu. apply split_at in Hu as [(post' & ->)|(pre' & -> & Hu)].
    { apply Forall_app in H1 as [_ H1]. apply Forall_cons in H1 as [[-> Hs] _]. done. }
    symmetry in Hu. apply split_at in Hu as [(post' & Hu)|(pre2 & -> & ->)].
    { destruct pre' as [|? [|? [|? pre']]]; simplify_eq/=. }
    rewrite Hst by (left; by destruct pre2).
    apply Forall_app in H2 as [_ H2]. apply Forall_cons in H2 as [Hs _]. split; [done|].
    intros _. exists t1, c, pre2. done.
Qed.

(** Media flows only after RECORD was accepted. In every run, each sender of
    audio or video starts after a RECORD request that was answered with 200; each
    stream, the microphone's included, has a port between 1 and 65535 and a key of
    32 octets; and the exit code is 0 only if RECORD was accepted. *)
Theorem media_after_record `{EVP} options shared controller_id outcomes v turns read_key write_key files :
  let '(exit_code, s) := run_control options shared controller_id outcomes v
                           (start_control turns read_key write_key files) in
  (forall pre who stream post, trace s = pre ++ Launched who stream :: post ->
     stream_ok stream /\ (who <> Microphone -> record_accepted pre)) /\
  (exit_code = 0 -> record_accepted (trace s)).
Proof.
  pose proof (run_control_trace options shared controller_id outcomes v turns read_key write_key files) as Hr.
  destruct (run_control _ _ _ _ _ _) as [code s]. destruct Hr as [Ht _].
  destruct Ht as [(u & -> & -> & Hu)|(u & c & status & finished & -> & Hu & Hz & _)]; split.
  - intros pre who stream post Hl. exfalso.
    assert (Launched who stream ∈ [Asked (bs "POST") 6] ++ u) as Hin by (rewrite Hl; set_solver).
    destruct Hu as [(st & ->)|(st & st2 & ->)]; set_unfold in Hin; naive_solver.
  - done.
  - intros pre who stream post Hl. symmetry in Hl. apply split_at in Hl as [(post' & Hl)|(pre' & -> & Hl)].
    { do 6 (destruct pre as [|? pre]; simplify_eq/=). }
    symmetry in Hl. apply split_at in Hl as [(post' & Hl)|(pre2 & -> & Hl)].
    + destruct (stream_trace_launch _ _ _ _ _ _ Hu Hl) as [Hs Hm]. split; [done|]. intros Hw%Hm.
      rewrite <- (app_nil_r pre'). by apply record_accepted_app.
    + do 3 (destruct pre2 as [|? pre2]; simplify_eq/=).
  - intros Hc%Hz. subst finished. destruct Hu as [[_ ?]|(t1 & c' & st & t2 & -> & _ & _ & Hst)]; [done|].
    rewrite Hst by by right. apply record_accepted_app. by exists t1, c', t2.
Qed.

(** ** A session *)

(** A receiver that accepts everything; each answer in a frame of its own. *)
Definition ok_answer (cseq : Z) (plist : PlistValue) : Bytes :=
  let body := encode_bplist plist in
  bs "RTSP/1.0 200 OK" ++ CRLF ++ bs "CSeq: " ++ dec cseq ++ CRLF ++ bs "Content-Length: " ++ dec (size_of body)
  ++ CRLF ++ CRLF ++ body.
Definition streams_answer (port : Z) : PlistValue :=
  dictionary [(bs "streams", PArray [dictionary [(bs "dataPort", PInt port)]])].
Definition session_answers : list Bytes :=
  [ok_answer 6 (dictionary [(bs "name", PString (bs "car"))]);
   ok_answer 7 (dictionary [(bs "timingPort", PInt 5000); (bs "eventPort", PInt 5001)]);
   ok_answer 8 (streams_answer 5002); ok_answer 9 (dictionary []); ok_answer 10 (dictionary [])].
Definition session_script : list (list Turn * list ChannelTurn) :=
  map (fun frame => ([Transfer 4096], [Data frame; Again]))
    (default [] (@encrypt_all Toy.toy_evp session_answers (new_cipher [] example_key)).1).
Definition example_outcomes : Outcomes :=
  mkOutcomes [] (Some 4000) [mkAttempt true true true true (Some 0) true] None false None None None None (Some [0; 7]).

(** Without audio and video: the streams are set up, recorded and torn down. *)
Example screen_session :
  let '(exit_code, s) := @run_control Toy.toy_evp (mkOptions false false false false [] []) example_key (bs "id")
    example_outcomes (mkVideo NoVideo [] (true, true) [])
    (start_control session_script example_key example_key (mkWorld ∅ [] [])) in
  exit_code = 0 /\
  asked (trace s) = [(bs "POST", 6); (bs "SETUP", 7); (bs "SETUP", 8); (bs "RECORD", 9); (bs "TEARDOWN", 10)].
Proof. vm_compute. done. Qed.

(** A live session that is stopped before its first key frame ends with 0 although
    no video was sent. *)
Example stopped_before_video : prepare_video (Live [mkStartupTurn true None false] []) = inr 0.
Proof. reflexivity. Qed.
