(* ===== verification/NetworkManager.v ===== *)
(** * Wi-Fi through nmcli

    [src/src/iap2/network_manager.cpp]: waiting for the nmcli process, the fields
    of its terse output, the commands that join the accessory's network and run
    the management hotspot, and the address of the accessory.  What the processes
    do is a script of outcomes; the ghost list of commands is what was run. *)

From S2P Require Import Prelude Text CarPlayProbe.
#[local] Open Scope Z_scope.

(* src/src/iap2/network_manager.cpp:34-34 kManagementProfile *)
Definition kManagementProfile : Bytes := bs "aa2acp-management".

(** The words of a command line. *)
Definition words (l : list string) : list Bytes := map bs l.

(** ** The process *)

(** A turn of the waiting loop: what [waitpid] says, and while the process runs,
    whether the deadline has passed and [poll] failed for good. *)
Inductive WaitTurn :=
| WaitInterrupted
| WaitFailed
| Exited (status : Z)          (* [WIFEXITED], with [WEXITSTATUS] *)
| Signaled                     (* reaped, but not [WIFEXITED] *)
| Running (late poll_failed : bool).

Inductive Signal := SIGTERM | SIGKILL.

(** What is known of the process at the end: its status when it was reaped. *)
Inductive Reaped := Status (status : Z) | Abnormal | NotReaped.

(** After [SIGTERM] the process is polled for two seconds ([grace] are these
    turns), then killed and waited for; [final] is what the last wait says. *)
(* src/src/iap2/network_manager.cpp:174-196 run_nmcli (terminate_and_reap) *)
Fixpoint terminate_and_reap (grace : list WaitTurn) (final : Reaped) : Reaped * list Signal :=
  match grace with
  | Exited status :: _ => (Status status, [])
  | Signaled :: _ => (Abnormal, [])
  | WaitFailed :: _ | [] => (final, [SIGKILL])
  | (WaitInterrupted | Running _ _) :: grace => terminate_and_reap grace final
  end.

(** The status and whether the time was up; a script that ends is a deadline. *)
(* src/src/iap2/network_manager.cpp:197-230 run_nmcli (wait) *)
Fixpoint wait_nmcli (turns grace : list WaitTurn) (final : Reaped) : Reaped * bool * list Signal :=
  let terminate timed_out :=
    let '(r, signals) := terminate_and_reap grace final in (r, timed_out, SIGTERM :: signals) in
  match turns with
  | [] => terminate true
  | turn :: turns =>
      match turn with
      | WaitInterrupted => wait_nmcli turns grace final
      | WaitFailed => terminate false
      | Exited status => (Status status, false, [])
      | Signaled => (Abnormal, false, [])
      | Running late poll_failed =>
          if late : bool then terminate true
          else if poll_failed : bool then terminate false
          else wait_nmcli turns grace final
      end
  end.

(* src/src/iap2/network_manager.cpp:238-240 run_nmcli (success) *)
Definition nmcli_success (allow_inactive : bool) (r : Reaped) : bool :=
  match r with
  | Status status => (status =? 0) || (allow_inactive && (status =? 6))
  | _ => false
  end.

(** What one nmcli process does: whether it could be started (the pipe, the secret
    and [posix_spawnp]), how it ends and what it prints. *)
Record Process := mkProcess {
  spawned : bool;
  waits : list WaitTurn;
  grace : list WaitTurn;
  final : Reaped;
  output : Bytes
}.

(** A command: its arguments, and the secret it reads from its standard input. *)
Record Command := mkCommand { arguments : list Bytes; stdin_data : Bytes }.

Record Nmcli := mkNmcli { processes : list Process; commands : list Command }.

(** The command is run; success and what was captured. *)
(* src/src/iap2/network_manager.cpp:86-262 run_nmcli *)
Definition run_nmcli (args : list Bytes) (allow_inactive : bool) (stdin_data : Bytes) (n : Nmcli)
    : bool * Bytes * Nmcli :=
  let p := default (mkProcess false [] [] NotReaped []) (head (processes n)) in
  let n := mkNmcli (tail (processes n)) (commands n ++ [mkCommand args stdin_data]) in
  if negb (spawned p) then (false, [], n)
  else
    let '(r, _, _) := wait_nmcli (waits p) (grace p) (final p) in
    (nmcli_success allow_inactive r, output p, n).

(** ** Fields *)

(* src/src/iap2/network_manager.cpp:264-281 unescape_nmcli_field *)
Fixpoint unescape_from (escaped : bool) (value : Bytes) : Bytes :=
  match value with
  | [] => if escaped then [92] else []
  | character :: value =>
      if escaped then character :: unescape_from false value
      else if character =? 92 then unescape_from true value
      else character :: unescape_from false value
  end.

Definition unescape_nmcli_field (value : Bytes) : Bytes := unescape_from false value.

(* src/src/iap2/network_manager.cpp:283-300 split_nmcli_fields *)
Fixpoint split_from (field : Bytes) (escaped : bool) (line : Bytes) : list Bytes :=
  match line with
  | [] => [field]
  | character :: line =>
      if (character =? 58) && negb escaped then field :: split_from [] escaped line
      else split_from (field ++ [character]) ((character =? 92) && negb escaped) line
  end.

Definition split_nmcli_fields (line : Bytes) : list Bytes := split_from [] false line.

(** The line of a saved profile that can be used: its UUID. *)
(* src/src/iap2/network_manager.cpp:314-325 saved_connection_uuid (line) *)
Definition usable_line (ssid interface_name line : Bytes) : option Bytes :=
  let line := if bool_decide (last line = Some 13) then take (length line - 1) line else line in
  match split_nmcli_fields line with
  | uuid :: type :: name :: rest =>
      if negb (bytes_eqb type (bs "802-11-wireless")) || negb (bytes_eqb (unescape_nmcli_field name) ssid)
      then None
      else
        let profile_interface := match rest with f :: _ => unescape_nmcli_field f | [] => [] end in
        if bytes_eqb profile_interface [] || bytes_eqb profile_interface (bs "--")
           || bytes_eqb profile_interface interface_name
        then Some uuid else None
  | _ => None
  end.

Fixpoint first_usable (ssid interface_name : Bytes) (lines : list Bytes) : option Bytes :=
  match lines with
  | [] => None
  | line :: lines =>
      match usable_line ssid interface_name line with
      | Some uuid => Some uuid
      | None => first_usable ssid interface_name lines
      end
  end.

(* src/src/iap2/network_manager.cpp:302-327 saved_connection_uuid *)
Definition saved_connection_uuid (ssid interface_name : Bytes) (n : Nmcli) : option Bytes * Nmcli :=
  let '(ok, output, n) := run_nmcli
    (words ["nmcli"; "-t"; "-f"; "UUID,TYPE,802-11-wireless.ssid,connection.interface-name"; "connection"; "show"]%string)
    false [] n in
  if negb ok then (None, n) else (first_usable ssid interface_name (getlines output), n).

(** ** Joining *)

(** [None]: the security type is not supported. *)
(* src/src/iap2/network_manager.cpp:365-385 join_with_networkmanager (key_management) *)
Definition key_management (security_type : Z) : option Bytes :=
  if security_type =? 0 then Some (bs "none")
  else if security_type =? 1 then Some (bs "wep")
  else if (security_type =? 2) || (security_type =? 3) then Some (bs "wpa-psk")
  else if security_type =? 4 then Some (bs "sae")
  else None.

Definition rsn (security_type : Z) : list Bytes :=
  if (security_type =? 2) || (security_type =? 3) then [bs "802-11-wireless-security.proto"; bs "rsn"] else [].

(* src/src/iap2/network_manager.cpp:386-398 join_with_networkmanager (modify) *)
Definition modify_command (saved_uuid : option Bytes) (ssid key_management : Bytes) (security_type : Z) : list Bytes :=
  words ["nmcli"; "connection"; "modify"]%string
  ++ match saved_uuid with Some uuid => [bs "uuid"; uuid] | None => [ssid] end
  ++ [bs "802-11-wireless-security.key-mgmt"; key_management] ++ rsn security_type.

(* src/src/iap2/network_manager.cpp:400-416 join_with_networkmanager (add) *)
Definition add_command (interface_name ssid key_management : Bytes) (security_type : Z) : list Bytes :=
  words ["nmcli"; "connection"; "add"; "type"; "wifi"; "ifname"]%string ++ [interface_name]
  ++ [bs "con-name"; ssid; bs "ssid"; ssid; bs "wifi-sec.key-mgmt"; key_management] ++ rsn security_type.

(* src/src/iap2/network_manager.cpp:420-433 join_with_networkmanager (up) *)
Definition up_command (saved_uuid : option Bytes) (interface_name ssid passphrase : Bytes) : list Bytes :=
  words ["nmcli"; "--wait"; "30"; "connection"; "up"]%string
  ++ match saved_uuid with Some uuid => [bs "uuid"; uuid] | None => [bs "id"; ssid] end
  ++ [bs "ifname"; interface_name]
  ++ (if bytes_eqb passphrase [] then [] else [bs "passwd-file"; bs "/proc/self/fd/0"]).

(* src/src/iap2/network_manager.cpp:430-436 join_with_networkmanager (password_file) *)
Definition password_file (passphrase : Bytes) : Bytes :=
  if bytes_eqb passphrase [] then []
  else bs "802-11-wireless-security.psk:" ++ passphrase ++ [10].

(** After a scan the profile is changed, or added, and activated. *)
(* src/src/iap2/network_manager.cpp:354-438 join_with_networkmanager (fresh profile) *)
Definition join_fresh (configuration : AccessoryWifiConfiguration) (interface_name : Bytes) (saved_uuid : option Bytes)
    (n : Nmcli) : bool * Nmcli :=
  let '(_, _, n) := run_nmcli (words ["nmcli"; "--wait"; "10"; "device"; "wifi"; "rescan"; "ifname"]%string
                      ++ [interface_name]) false [] n in
  match key_management (security_type configuration) with
  | None => (false, n)
  | Some key =>
      let '(modified, _, n) := run_nmcli (modify_command saved_uuid (ssid configuration) key
                                 (security_type configuration)) false [] n in
      let '(ready, n) :=
        if modified : bool then (true, n)
        else let '(added, _, n) := run_nmcli (add_command interface_name (ssid configuration) key
                                     (security_type configuration)) false [] n in (added, n) in
      if negb ready then (false, n)
      else
        let '(ok, _, n) := run_nmcli (up_command saved_uuid interface_name (ssid configuration)
                             (passphrase configuration)) false (password_file (passphrase configuration)) n in
        (ok, n)
  end.

(* src/src/iap2/network_manager.cpp:331-438 join_with_networkmanager *)
Definition join_with_networkmanager (configuration : AccessoryWifiConfiguration) (interface_name : Bytes) (n : Nmcli)
    : bool * Nmcli :=
  if bytes_eqb (ssid configuration) [] then (false, n)
  else
    match saved_connection_uuid (ssid configuration) interface_name n with
    | (None, n) => join_fresh configuration interface_name None n
    | (Some uuid, n) =>
        let '(ok, _, n) := run_nmcli (words ["nmcli"; "--wait"; "30"; "connection"; "up"; "uuid"]%string
                             ++ [uuid; bs "ifname"; interface_name]) false [] n in
        if ok : bool then (true, n) else join_fresh configuration interface_name (Some uuid) n
    end.

(* src/src/iap2/network_manager.cpp:495-502 leave_with_networkmanager *)
Definition leave_with_networkmanager (interface_name : Bytes) (n : Nmcli) : bool * Nmcli :=
  let '(ok, _, n) := run_nmcli (words ["nmcli"; "device"; "disconnect"]%string ++ [interface_name]) true [] n in (ok, n).

(** ** The hotspot *)

(* src/src/iap2/network_manager.cpp:516-535 start_management_hotspot (modify) *)
Definition hotspot_modify (interface_name ssid : Bytes) : list Bytes :=
  words ["nmcli"; "connection"; "modify"]%string ++ [kManagementProfile; bs "connection.interface-name"; interface_name]
  ++ words ["connection.autoconnect"; "yes"; "connection.autoconnect-priority"; "100"; "802-11-wireless.mode"; "ap";
            "802-11-wireless.ssid"]%string
  ++ [ssid] ++ words ["ipv4.method"; "shared"; "ipv6.method"; "disabled"; "802-11-wireless-security.key-mgmt"; "wpa-psk"]%string.

(* src/src/iap2/network_manager.cpp:537-541 start_management_hotspot (add) *)
Definition hotspot_add (interface_name ssid : Bytes) : list Bytes :=
  words ["nmcli"; "connection"; "add"; "type"; "wifi"; "ifname"]%string ++ [interface_name; bs "con-name"; kManagementProfile;
    bs "ssid"; ssid]
  ++ words ["802-11-wireless.mode"; "ap"; "ipv4.method"; "shared"; "ipv6.method"; "disabled"; "wifi-sec.key-mgmt"; "wpa-psk"]%string.

(* src/src/iap2/network_manager.cpp:546-548 start_management_hotspot (up) *)
Definition hotspot_up (interface_name : Bytes) : list Bytes :=
  words ["nmcli"; "--wait"; "30"; "connection"; "up"; "id"]%string
  ++ [kManagementProfile; bs "ifname"; interface_name; bs "passwd-file"; bs "/proc/self/fd/0"].

Definition hotspot_secret (passphrase : Bytes) : Bytes := bs "802-11-wireless-security.psk:" ++ passphrase ++ [10].

(* src/src/iap2/network_manager.cpp:504-555 start_management_hotspot *)
Definition start_management_hotspot (interface_name ssid passphrase : Bytes) (n : Nmcli) : bool * Nmcli :=
  if bytes_eqb interface_name [] || bytes_eqb ssid [] || (size_of passphrase <? 8) then (false, n)
  else
    let '(modified, _, n) := run_nmcli (hotspot_modify interface_name ssid) false [] n in
    let '(ready, n) :=
      if modified : bool then (true, n)
      else let '(added, _, n) := run_nmcli (hotspot_add interface_name ssid) false [] n in (added, n) in
    if negb ready then (false, n)
    else
      let '(ok, _, n) := run_nmcli (hotspot_up interface_name) false (hotspot_secret passphrase) n in (ok, n).

(* src/src/iap2/network_manager.cpp:557-564 stop_management_hotspot *)
Definition stop_management_hotspot (interface_name : Bytes) (n : Nmcli) : bool * Nmcli :=
  let '(ok, _, n) := run_nmcli (words ["nmcli"; "connection"; "down"; "id"]%string
                       ++ [kManagementProfile; bs "ifname"; interface_name]) true [] n in (ok, n).

(** ** The accessory's address *)

(** [std::stoul] in base sixteen; [None] when it throws. *)
Definition xdigit_value (c : Z) : Z :=
  if c <=? 57 then c - 48 else if c <=? 70 then c - 55 else c - 87.

Fixpoint xdigits_prefix (l : Bytes) : Bytes :=
  match l with
  | c :: t => if is_xdigit c then c :: xdigits_prefix t else []
  | [] => []
  end.

Definition xdigits_value (l : Bytes) : Z := fold_left (fun acc c => acc * 16 + xdigit_value c) l 0.

Definition stoul16 (l : Bytes) : option Z :=
  let l := drop_while is_space l in
  let '(negative, l) := match l with 45 :: t => (true, t) | 43 :: t => (false, t) | _ => (false, l) end in
  let l := match l with
           | 48 :: x :: c :: t => if ((x =? 120) || (x =? 88)) && is_xdigit c then c :: t else l
           | _ => l
           end in
  match xdigits_prefix l with
  | [] => None
  | ds => let v := xdigits_value ds in
          if 2 ^ 64 - 1 <? v then None else Some (if negative : bool then u64 (- v) else v)
  end.

(** The words of a line, as [operator>>] reads them. *)
Fixpoint words_from (cur : Bytes) (l : Bytes) : list Bytes :=
  match l with
  | [] => if bytes_eqb cur [] then [] else [cur]
  | c :: l => if is_space c then (if bytes_eqb cur [] then [] else [cur]) ++ words_from [] l
              else words_from (cur ++ [c]) l
  end.

(** [inet_ntop] of an address given by its four octets. *)
Definition dotted (octets : Bytes) : Bytes :=
  match octets with
  | [a; b; c; d] => dec a ++ [46] ++ dec b ++ [46] ++ dec c ++ [46] ++ dec d
  | _ => []
  end.

(** A route line: the interface's default gateway, no such line, or an exception. *)
Inductive RouteLine := Gateway (address : Bytes) | OtherRoute | RouteThrew.

(** The kernel prints the address as a number in the byte order of the machine,
    which is little-endian. *)
(* src/src/iap2/network_manager.cpp:445-465 accessory_ipv4_endpoint_for_interface (route) *)
Definition route_line (interface_name line : Bytes) : RouteLine :=
  match words_from [] line with
  | interface :: destination :: gateway :: flags :: _ =>
      if negb (bytes_eqb interface interface_name) || negb (bytes_eqb destination (bs "00000000")) then OtherRoute
      else match stoul16 flags with
      | None => RouteThrew
      | Some route_flags =>
          if Z.land route_flags 2 =? 0 then OtherRoute
          else match stoul16 gateway with
          | None => RouteThrew
          | Some address => Gateway (dotted (le_bytes 4 (u32 address)))
          end
      end
  | _ => OtherRoute
  end.

Fixpoint gateway_of (interface_name : Bytes) (lines : list Bytes) : RouteLine :=
  match lines with
  | [] => OtherRoute
  | line :: lines =>
      match route_line interface_name line with
      | OtherRoute => gateway_of interface_name lines
      | found => found
      end
  end.

(** An entry of [getifaddrs] with an IPv4 address and a netmask, as octets; the
    other entries are skipped. *)
Record InterfaceAddress := mkAddress { interface : Bytes; address : Bytes; netmask : Bytes }.

(* src/src/iap2/network_manager.cpp:482-484 accessory_ipv4_endpoint_for_interface (first_host) *)
Definition first_host (a : InterfaceAddress) : Bytes :=
  zip_with Z.lor (zip_with Z.land (address a) (netmask a)) [0; 0; 0; 1].

(** [None]: an exception. *)
(* src/src/iap2/network_manager.cpp:440-493 accessory_ipv4_endpoint_for_interface *)
Definition accessory_ipv4_endpoint_for_interface (interface_name routes : Bytes)
    (addresses : option (list InterfaceAddress)) : option (option Bytes) :=
  match gateway_of interface_name (tail (getlines routes)) with
  | Gateway text => Some (Some text)
  | RouteThrew => None
  | OtherRoute =>
      match addresses with
      | None => Some None
      | Some addresses =>
          Some (dotted ∘ first_host <$> head (List.filter (fun a => bytes_eqb (interface a) interface_name) addresses))
      end
  end.

(** ** Theorems: fields *)

(** How nmcli writes a field in terse mode. *)
Fixpoint escape_field (value : Bytes) : Bytes :=
  match value with
  | [] => []
  | c :: value => (if (c =? 58) || (c =? 92) then [92; c] else [c]) ++ escape_field value
  end.

Fixpoint terse_line (fields : list Bytes) : Bytes :=
  match fields with
  | [] => []
  | [f] => escape_field f
  | f :: fields => escape_field f ++ 58 :: terse_line fields
  end.

Lemma unescape_field f : unescape_nmcli_field (escape_field f) = f.
Proof.
  unfold unescape_nmcli_field. induction f as [|c f IH]; [done|]. cbn [escape_field].
  destruct ((c =? 58) || (c =? 92)) eqn:E; cbn [app unescape_from]; [by rewrite IH|].
  apply orb_false_iff in E as [_ ->]. by rewrite IH.
Qed.

Lemma split_escaped f : forall cur rest,
  split_from cur false (escape_field f ++ rest) = split_from (cur ++ escape_field f) false rest.
Proof.
  induction f as [|c f IH]; intros cur rest; [by rewrite app_nil_r|]. cbn [escape_field].
  destruct ((c =? 58) || (c =? 92)) eqn:E; cbn [app split_from].
  - change (92 =? 58) with false. change (92 =? 92) with true. cbn [andb negb].
    rewrite !andb_false_r, IH. by rewrite <- !app_assoc.
  - apply orb_false_iff in E as [-> ->]. cbn [andb]. rewrite IH. by rewrite <- !app_assoc.
Qed.

(** The fields of a line as nmcli writes it. *)
Lemma split_terse fields : fields <> [] -> split_nmcli_fields (terse_line fields) = map escape_field fields.
Proof.
  unfold split_nmcli_fields. induction fields as [|f fields IH]; [done|]. intros _. cbn [terse_line map].
  destruct fields as [|g fields].
  - rewrite <- (app_nil_r (escape_field f)), split_escaped. cbn. by rewrite app_nil_r.
  - rewrite split_escaped. cbn [split_from app]. change (58 =? 58) with true. cbn [andb negb]. f_equal. by apply IH.
Qed.

(** A saved profile, as nmcli lists it. *)
Record Profile := mkProfile { uuid : Bytes; type : Bytes; profile_ssid : Bytes; profile_interface : Bytes }.

Definition profile_line (p : Profile) : Bytes := terse_line [uuid p; type p; profile_ssid p; profile_interface p].

(** What makes a profile usable. *)
Definition usable (ssid interface_name : Bytes) (p : Profile) : bool :=
  bytes_eqb (type p) (bs "802-11-wireless") && bytes_eqb (profile_ssid p) ssid
  && (bytes_eqb (profile_interface p) [] || bytes_eqb (profile_interface p) (bs "--")
      || bytes_eqb (profile_interface p) interface_name).

(** A UUID has no character that nmcli escapes, and no field a line break. *)
Definition profile_ok (p : Profile) : Prop :=
  escape_field (uuid p) = uuid p /\
  Forall (fun c => c <> 10 /\ c <> 13) (uuid p ++ type p ++ profile_ssid p ++ profile_interface p).

Lemma escape_field_chars (P : Z -> Prop) f : P 92 -> Forall P f -> Forall P (escape_field f).
Proof.
  intros HP. induction 1 as [|c f Hc Hf IH]; [constructor|]. cbn [escape_field].
  destruct (_ || _); repeat constructor; done.
Qed.

Lemma profile_line_chars p : profile_ok p -> Forall (fun c => c <> 10 /\ c <> 13) (profile_line p).
Proof.
  intros [_ H]. rewrite !Forall_app in H. destruct H as (? & ? & ? & ?). unfold profile_line. cbn [terse_line].
  repeat first [apply Forall_app_2|apply Forall_cons_2|by apply escape_field_chars|done].
Qed.

Lemma usable_profile_line ssid interface_name p :
  profile_ok p -> usable_line ssid interface_name (profile_line p) = if usable ssid interface_name p then Some (uuid p) else None.
Proof.
  intros Hp. unfold usable_line. rewrite bool_decide_eq_false_2.
  2: { intros Hl%last_Some_elem_of. pose proof (profile_line_chars p Hp) as Hc. rewrite Forall_forall in Hc.
       by apply Hc in Hl as [_ ?]. }
  unfold profile_line. rewrite split_terse by done. cbn [map]. destruct Hp as [-> _]. rewrite !unescape_field.
  assert (bytes_eqb (escape_field (type p)) (bs "802-11-wireless") = bytes_eqb (type p) (bs "802-11-wireless")) as ->.
  { unfold bytes_eqb. apply bool_decide_ext. split; [|intros ->; reflexivity].
    intros E. rewrite <- (unescape_field (type p)), E. reflexivity. }
  unfold usable. by destruct (bytes_eqb (type p) _), (bytes_eqb (profile_ssid p) _).
Qed.

Lemma first_usable_profiles ssid interface_name profiles :
  Forall profile_ok profiles ->
  first_usable ssid interface_name (getlines (concat (map (fun q => profile_line q ++ [10]) profiles)))
  = uuid <$> List.find (usable ssid interface_name) profiles.
Proof.
  induction 1 as [|p ps Hp Hps IH]; [done|]. cbn [map concat List.find]. rewrite <- app_assoc. cbn [app].
  rewrite getlines_line by (eapply Forall_impl; [by apply profile_line_chars|]; by intros c [? _]).
  cbn [first_usable]. rewrite usable_profile_line by done. by destruct (usable _ _ p).
Qed.

(** The process ended well. *)
Definition succeeds (allow_inactive : bool) (p : Process) : Prop :=
  spawned p = true /\ nmcli_success allow_inactive (wait_nmcli (waits p) (grace p) (final p)).1.1 = true.

Lemma run_nmcli_succeeds args allow_inactive stdin_data p rest cs :
  succeeds allow_inactive p ->
  run_nmcli args allow_inactive stdin_data (mkNmcli (p :: rest) cs)
  = (true, output p, mkNmcli rest (cs ++ [mkCommand args stdin_data])).
Proof.
  intros [Hs Hw]. unfold run_nmcli. cbn [head processes tail commands default]. cbn. rewrite Hs. cbn [negb].
  destruct (wait_nmcli _ _ _) as [[r t] sig]. cbn in Hw. by rewrite Hw.
Qed.

(** The saved profile that is reused is the first usable one. When nmcli
    succeeds and prints its profiles, one terse line each, the lookup returns the
    UUID of the first Wi-Fi profile for the SSID that is not bound to another
    interface, whatever separators and escapes its fields contain, and none if
    there is none. *)
Theorem saved_profile_found ssid interface_name profiles p rest cs :
  Forall profile_ok profiles -> succeeds false p ->
  output p = concat (map (fun q => profile_line q ++ [10]) profiles) ->
  (saved_connection_uuid ssid interface_name (mkNmcli (p :: rest) cs)).1
  = uuid <$> List.find (usable ssid interface_name) profiles.
Proof.
  intros Hps Hs Ho. unfold saved_connection_uuid. rewrite run_nmcli_succeeds, Ho by done. cbn [negb fst].
  by apply first_usable_profiles.
Qed.

Definition example_process (output : Bytes) : Process := mkProcess true [Running false false; Exited 0] [] NotReaped output.

Lemma saved_profile_found_witness :
  let profiles := [mkProfile (bs "u1") (bs "802-3-ethernet") [] (bs "eth0");
                   mkProfile (bs "u2") (bs "802-11-wireless") (bs "My:Car\") (bs "wlan1");
                   mkProfile (bs "u3") (bs "802-11-wireless") (bs "My:Car\") (bs "--")] in
  (saved_connection_uuid (bs "My:Car\") (bs "wlan0")
     (mkNmcli [example_process (concat (map (fun q => profile_line q ++ [10]) profiles))] [])).1 = Some (bs "u3").
Proof.
  cbv zeta. etransitivity; [apply (saved_profile_found (bs "My:Car\") (bs "wlan0")
    [mkProfile (bs "u1") (bs "802-3-ethernet") [] (bs "eth0");
     mkProfile (bs "u2") (bs "802-11-wireless") (bs "My:Car\") (bs "wlan1");
     mkProfile (bs "u3") (bs "802-11-wireless") (bs "My:Car\") (bs "--")])|reflexivity].
  - repeat constructor; vm_compute; discriminate.
  - done.
  - reflexivity.
Defined.

(** ** Theorems: commands *)

Lemma run_nmcli_commands args allow_inactive stdin_data n :
  commands (run_nmcli args allow_inactive stdin_data n).2 = commands n ++ [mkCommand args stdin_data] /\
  processes (run_nmcli args allow_inactive stdin_data n).2 = tail (processes n).
Proof.
  unfold run_nmcli. destruct (negb _); [done|]. by destruct (wait_nmcli _ _ _) as [[r t] sig].
Qed.

(** Two runs that differ in the secrets on the standard input only. *)
Definition same_arguments (n1 n2 : Nmcli) : Prop :=
  processes n1 = processes n2 /\ map arguments (commands n1) = map arguments (commands n2).

Lemma run_nmcli_secret args allow_inactive s1 s2 n1 n2 :
  same_arguments n1 n2 ->
  (run_nmcli args allow_inactive s1 n1).1 = (run_nmcli args allow_inactive s2 n2).1 /\
  same_arguments (run_nmcli args allow_inactive s1 n1).2 (run_nmcli args allow_inactive s2 n2).2.
Proof.
  intros [Hp Hc]. split.
  - unfold run_nmcli. rewrite Hp. destruct (negb _); [done|]. by destruct (wait_nmcli _ _ _) as [[r t] sig].
  - unfold same_arguments. destruct (run_nmcli_commands args allow_inactive s1 n1) as [-> ->].
    destruct (run_nmcli_commands args allow_inactive s2 n2) as [-> ->]. by rewrite !map_app, Hc, Hp.
Qed.

(** The passphrase never appears on a command line. Two joins, or two starts of
    the hotspot, that differ in the passphrase only run commands with the same
    arguments and end alike: the passphrase reaches nmcli on its standard input. *)
Theorem passphrase_not_on_command_line c1 c2 interface_name hotspot_ssid n :
  ssid c1 = ssid c2 -> security_type c1 = security_type c2 ->
  8 <= size_of (passphrase c1) -> 8 <= size_of (passphrase c2) ->
  let same (r1 r2 : bool * Nmcli) := r1.1 = r2.1 /\ same_arguments r1.2 r2.2 in
  same (join_with_networkmanager c1 interface_name n) (join_with_networkmanager c2 interface_name n) /\
  same (start_management_hotspot interface_name hotspot_ssid (passphrase c1) n)
       (start_management_hotspot interface_name hotspot_ssid (passphrase c2) n).
Proof.
  intros Hs Ht H1 H2 same.
  assert (Hp : forall p, 8 <= size_of p -> bytes_eqb p [] = false).
  { intros p Hp. unfold bytes_eqb. apply bool_decide_eq_false. intros ->. unfold size_of in Hp. simpl in Hp. lia. }
  assert (Hlast : forall args s1 s2 m, same (let '(ok, _, n) := run_nmcli args false s1 m in (ok, n))
                                            (let '(ok, _, n) := run_nmcli args false s2 m in (ok, n))).
  { intros args s1 s2 m. destruct (run_nmcli_secret args false s1 s2 m m) as [Ha Hb]; [done|].
    unfold same. destruct (run_nmcli args false s1 m) as [[o1 p1] m1], (run_nmcli args false s2 m) as [[o2 p2] m2].
    by simplify_eq/=. }
  split.
  - assert (Hf : forall saved m, same (join_fresh c1 interface_name saved m) (join_fresh c2 interface_name saved m)).
    { intros saved m. unfold join_fresh. rewrite Hs, Ht. destruct (run_nmcli _ _ _ m) as [[o p] n3].
      destruct (key_management _) as [key|]; [|done].
      destruct (run_nmcli (modify_command _ _ _ _) _ _ n3) as [[o4 p4] n4].
      match goal with |- same (let '(_, _) := ?u in _) _ => destruct u as [ready n5] end. destruct (negb ready); [done|].
      unfold up_command. rewrite (Hp _ H1), (Hp _ H2). apply Hlast. }
    unfold join_with_networkmanager. rewrite Hs. destruct (bytes_eqb (ssid c2) []); [done|].
    destruct (saved_connection_uuid _ _ n) as [[uuid|] n1]; [|apply Hf].
    destruct (run_nmcli _ _ _ n1) as [[[] p] n2]; [done|apply Hf].
  - unfold start_management_hotspot. rewrite (proj2 (Z.ltb_ge (size_of (passphrase c1)) 8)) by done.
    rewrite (proj2 (Z.ltb_ge (size_of (passphrase c2)) 8)) by done. destruct (_ || _ || _); [done|].
    destruct (run_nmcli _ _ _ n) as [[o1 p1] n1].
    match goal with |- same (let '(_, _) := ?u in _) _ => destruct u as [ready n5] end. destruct (negb ready); [done|].
    apply Hlast.
Qed.

Lemma passphrase_not_on_command_line_witness :
  let c1 := mkWifi (bs "car") (bs "password1") 3 36 in
  let c2 := mkWifi (bs "car") (bs "hunter22222") 3 36 in
  let n := mkNmcli [example_process []; example_process []; example_process []; example_process []] [] in
  let same (r1 r2 : bool * Nmcli) := r1.1 = r2.1 /\ same_arguments r1.2 r2.2 in
  same (join_with_networkmanager c1 (bs "wlan0") n) (join_with_networkmanager c2 (bs "wlan0") n) /\
  same (start_management_hotspot (bs "wlan0") (bs "bridge") (passphrase c1) n)
       (start_management_hotspot (bs "wlan0") (bs "bridge") (passphrase c2) n).
Proof.
  cbv zeta. apply (passphrase_not_on_command_line (mkWifi (bs "car") (bs "password1") 3 36)
    (mkWifi (bs "car") (bs "hunter22222") 3 36)); [done|done|vm_compute; discriminate..].
Defined.

Lemma run_nmcli_true args allow_inactive stdin_data n out n' :
  run_nmcli args allow_inactive stdin_data n = (true, out, n') ->
  exists p, processes n = p :: processes n' /\ succeeds allow_inactive p /\
    commands n' = commands n ++ [mkCommand args stdin_data].
Proof.
  intros Hr. pose proof (run_nmcli_commands args allow_inactive stdin_data n) as [Hc Hp]. rewrite Hr in Hc, Hp.
  unfold run_nmcli in Hr. destruct (processes n) as [|p rest]; [done|]. exists p.
  cbn [head default] in Hr. cbn in Hr. destruct (spawned p) eqn:Es; [|done]. cbn [negb] in Hr.
  destruct (wait_nmcli (waits p) _ _) as [[r t] sig] eqn:Ew. injection Hr as Hok _ _.
  cbn in Hc, Hp. rewrite Hp. split_and!; [done| |done]. split; [done|]. by rewrite Ew.
Qed.

(** The processes that were used up and the commands they ran. *)
Definition ran (n n' : Nmcli) : Prop :=
  exists used cmds, processes n = used ++ processes n' /\ commands n' = commands n ++ cmds.

Lemma run_nmcli_ran args allow_inactive stdin_data n r n' :
  run_nmcli args allow_inactive stdin_data n = (r, n') -> ran n n'.
Proof.
  intros Hr. pose proof (run_nmcli_commands args allow_inactive stdin_data n) as [Hc Hp]. rewrite Hr in Hc, Hp.
  exists (take 1 (processes n)), [mkCommand args stdin_data]. cbn in Hc, Hp. rewrite Hp. split; [|done].
  by destruct (processes n).
Qed.

Lemma ran_trans n n1 n2 : ran n n1 -> ran n1 n2 -> ran n n2.
Proof.
  intros (u & c & Hu & Hc) (u2 & c2 & Hu2 & Hc2). exists (u ++ u2), (c ++ c2). by rewrite Hu, Hu2, Hc2, Hc, !app_assoc.
Qed.

Lemma ran_refl n : ran n n.
Proof. exists [], []. by rewrite app_nil_r. Qed.

(** The last process ran these arguments and ended well. *)
Definition connected_by (args : list Bytes) (n n' : Nmcli) : Prop :=
  exists used p before secret, processes n = used ++ p :: processes n' /\ succeeds false p /\
    commands n' = commands n ++ before ++ [mkCommand args secret].

Lemma connected_last args stdin_data n n1 out n' :
  ran n n1 -> run_nmcli args false stdin_data n1 = (true, out, n') -> connected_by args n n'.
Proof.
  intros (used & cmds & Hp & Hc) (p & Hp1 & Hs & Hc1)%run_nmcli_true.
  exists used, p, cmds, stdin_data. by rewrite Hp, Hp1, Hc1, Hc, app_assoc.
Qed.

(** The activation of a profile, given by its UUID or name, on an interface. *)
Definition activation (key value interface_name : Bytes) (extra : list Bytes) : list Bytes :=
  words ["nmcli"; "--wait"; "30"; "connection"; "up"]%string ++ [key; value; bs "ifname"; interface_name] ++ extra.

Lemma join_fresh_activates configuration interface_name saved n n1 n' :
  ran n n1 -> join_fresh configuration interface_name saved n1 = (true, n') ->
  exists key value extra, connected_by (activation key value interface_name extra) n n'.
Proof.
  intros Hr. unfold join_fresh. intros Hj.
  destruct (run_nmcli _ false [] n1) as [[o3 p3] n3] eqn:E3. apply run_nmcli_ran in E3.
  destruct (key_management _) as [key|]; [|done].
  destruct (run_nmcli (modify_command _ _ _ _) _ _ n3) as [[o4 p4] n4] eqn:E4. apply run_nmcli_ran in E4.
  set (prepared := if o4 then _ else _) in Hj.
  assert (ran n4 prepared.2) as Hp.
  { unfold prepared. destruct o4; [apply ran_refl|].
    destruct (run_nmcli _ _ _ n4) as [[o5 p5] n5] eqn:E5. by apply run_nmcli_ran in E5. }
  destruct prepared as [ready n5]. destruct ready; [|done]. cbn [negb] in Hj.
  destruct (run_nmcli _ false _ n5) as [[o6 p6] n6] eqn:E6. injection Hj as -> <-.
  destruct saved as [uuid|]; [eexists (bs "uuid"), uuid, _|eexists (bs "id"), (ssid configuration), _];
    (eapply connected_last; [|exact E6]); eauto 10 using ran_trans.
Qed.

(** A join that succeeds has activated a profile on the interface it was given:
    the last command was [nmcli connection up] for that interface and its process
    ended with status 0; whatever went wrong before made no difference. *)
Theorem join_activates configuration interface_name n n' :
  join_with_networkmanager configuration interface_name n = (true, n') ->
  ssid configuration <> [] /\
  exists key value extra, connected_by (activation key value interface_name extra) n n'.
Proof.
  unfold join_with_networkmanager. destruct (bytes_eqb (ssid configuration) []) eqn:Es; [done|]. intros Hr.
  split; [by intros E; rewrite E in Es|].
  destruct (saved_connection_uuid _ _ n) as [found n1] eqn:E1.
  assert (ran n n1) as Hn.
  { unfold saved_connection_uuid in E1. destruct (run_nmcli _ _ _ n) as [[ok out] n2] eqn:E2.
    apply run_nmcli_ran in E2. by destruct (negb ok); injection E1 as _ <-. }
  destruct found as [uuid|]; [|by eapply join_fresh_activates].
  destruct (run_nmcli _ false [] n1) as [[[] out] n2] eqn:E2.
  - injection Hr as <-. exists (bs "uuid"), uuid, []. by eapply connected_last; [|exact E2].
  - apply run_nmcli_ran in E2. eapply join_fresh_activates; [|exact Hr]. by eapply ran_trans.
Qed.

(** The saved profile does not come up; a new one is added and does. *)
Lemma join_activates_witness :
  let failing := mkProcess true [Exited 4] [] NotReaped [] in
  let n := mkNmcli [example_process (bs "u:802-11-wireless:car:--"); failing; example_process []; failing;
                    example_process []; example_process []] [] in
  ssid (mkWifi (bs "car") (bs "password1") 3 36) <> [] /\
  exists key value extra, connected_by (activation key value (bs "wlan0") extra) n
    (join_with_networkmanager (mkWifi (bs "car") (bs "password1") 3 36) (bs "wlan0") n).2.
Proof. cbv zeta. apply join_activates. vm_compute. reflexivity. Defined.

(** ** Theorems: the process *)

(** A process that is reaped nowhere in the script is terminated, then killed. *)
Lemma stuck_process_killed turns grace final :
  Forall (fun t => match t with WaitInterrupted | Running _ _ => True | _ => False end) (turns ++ grace) ->
  wait_nmcli turns grace final = (final, (wait_nmcli turns grace final).1.2, [SIGTERM; SIGKILL]).
Proof.
  rewrite Forall_app. intros [Ht Hg].
  assert (Hterm : terminate_and_reap grace final = (final, [SIGKILL])).
  { induction Hg as [|t g Hgt Hg IH]; [done|]. by destruct t. }
  induction Ht as [|t turns Ht _ IH]; cbn [wait_nmcli]; [by rewrite Hterm|].
  destruct t as [| | | |late poll_failed]; try done. destruct late; [by rewrite Hterm|].
  destruct poll_failed; [by rewrite Hterm|exact IH].
Qed.

(** Success means that the process was reaped with status 0, or 6 where an inactive
    interface is no error. *)
Lemma nmcli_success_status allow_inactive r :
  nmcli_success allow_inactive r = true <-> r = Status 0 \/ (allow_inactive = true /\ r = Status 6).
Proof.
  destruct r as [status| |]; cbn; [|naive_solver..].
  rewrite orb_true_iff, andb_true_iff, !Z.eqb_eq. naive_solver.
Qed.

(** ** The endpoint *)

Example endpoint_from_route :
  accessory_ipv4_endpoint_for_interface (bs "wlan0")
    (bs "Iface	Destination	Gateway" ++ [10] ++ bs "eth0	00000000	0101A8C0	0003" ++ [10]
     ++ bs "wlan0	00000000	01000A0A	0003	0	0" ++ [10]) None
  = Some (Some (bs "10.10.0.1")).
Proof. vm_compute. reflexivity. Qed.

(** Without a default route it is the first address of the interface's network. *)
Example endpoint_from_network :
  accessory_ipv4_endpoint_for_interface (bs "wlan0") (bs "Iface") (Some [mkAddress (bs "wlan0") [172; 20; 10; 5] [255; 255; 255; 240]])
  = Some (Some (bs "172.20.10.1")).
Proof. vm_compute. reflexivity. Qed.

(** The profile of the hotspot was given this interface and name, by changing it or by
    adding it, and was then activated with this password; nothing ran after it. *)
Definition activated_last (interface_name ssid passphrase : Bytes) (cs : list Command) : Prop :=
  exists before profile, cs = before ++ profile ++ [mkCommand (hotspot_up interface_name) (hotspot_secret passphrase)] /\
    (profile = [mkCommand (hotspot_modify interface_name ssid) []] \/
     profile = [mkCommand (hotspot_modify interface_name ssid) []; mkCommand (hotspot_add interface_name ssid) []]).

Lemma hotspot_started_last interface_name ssid passphrase n n' :
  start_management_hotspot interface_name ssid passphrase n = (true, n') ->
  activated_last interface_name ssid passphrase (commands n').
Proof.
  unfold start_management_hotspot. destruct (_ || _); [done|].
  pose proof (run_nmcli_commands (hotspot_modify interface_name ssid) false [] n) as [H1 _].
  destruct (run_nmcli (hotspot_modify _ _) _ _ _) as [[modified o1] n1]. cbn [snd] in H1.
  assert (Hup : forall n2 profile, commands n2 = commands n ++ profile ->
    (profile = [mkCommand (hotspot_modify interface_name ssid) []] \/
     profile = [mkCommand (hotspot_modify interface_name ssid) []; mkCommand (hotspot_add interface_name ssid) []]) ->
    (let '(ok, _, n3) := run_nmcli (hotspot_up interface_name) false (hotspot_secret passphrase) n2 in (ok, n3)) = (true, n') ->
    activated_last interface_name ssid passphrase (commands n')).
  { intros n2 profile H2 Hp. pose proof (run_nmcli_commands (hotspot_up interface_name) false (hotspot_secret passphrase) n2) as [Hc _].
    destruct (run_nmcli (hotspot_up _) _ _ _) as [[ok o3] n3]. intros [= -> <-]. cbn [snd] in Hc.
    exists (commands n), profile. by rewrite Hc, H2, <- (assoc_L (++)). }
  destruct modified; cbn [negb]; [apply (Hup n1 _ H1); by left|].
  pose proof (run_nmcli_commands (hotspot_add interface_name ssid) false [] n1) as [H2 _].
  destruct (run_nmcli (hotspot_add _ _) _ _ _) as [[[] o2] n2]; cbn [negb snd] in *; [|done].
  eapply Hup; [by rewrite H2, H1, <- (assoc_L (++))|by right].
Qed.
