(* ===== verification/BluezInventory.v ===== *)
(** * The Bluetooth devices that BlueZ knows

    [src/src/bridge/bluez_inventory.cpp]: reading the devices out of BlueZ's object
    list, their order on the page, forgetting a device and the bounded scan.  The
    D-Bus replies are arguments; the ghost list of calls is what was sent. *)

From S2P Require Import Prelude Text Bplist BplistFacts.
From Stdlib Require Import Sorting.Sorted Sorting.Permutation.
#[local] Open Scope Z_scope.

(* src/include/aa2acp/bridge/bluez_inventory.hpp:10-15 BluetoothDevice *)
Record BluetoothDevice := mkDevice {
  address : Bytes;
  name : Bytes;
  paired : bool;
  connected : bool
}.

(** A value of a property; the types that are not read are one. *)
Inductive Variant := VString (text : Bytes) | VBool (b : bool) | VOther.

Abbreviation Properties := (list (Bytes * Variant)).

(** An iterator over the properties is the list of those ahead of it; it is passed
    by pointer, so a lookup leaves it where it stopped. *)
(* src/src/bridge/bluez_inventory.cpp:67-85 property_string *)
Fixpoint property_string (properties : Properties) (wanted : Bytes) : Bytes * Properties :=
  match properties with
  | [] => ([], [])
  | (name, value) :: rest =>
      match value with
      | VString text => if bytes_eqb name wanted then (text, properties) else property_string rest wanted
      | _ => property_string rest wanted
      end
  end.

(* src/src/bridge/bluez_inventory.cpp:87-105 property_bool *)
Fixpoint property_bool (properties : Properties) (wanted : Bytes) : bool * Properties :=
  match properties with
  | [] => (false, [])
  | (name, value) :: rest =>
      match value with
      | VBool b => if bytes_eqb name wanted then (b, properties) else property_bool rest wanted
      | _ => property_bool rest wanted
      end
  end.

(* src/src/bridge/bluez_inventory.cpp:145-152 valid_address (characters) *)
Fixpoint valid_characters (index : nat) (address : Bytes) : bool :=
  match address with
  | [] => true
  | c :: rest =>
      (if Nat.eqb (index mod 3) 2 then c =? 58 else is_xdigit c) && valid_characters (S index) rest
  end.

(* src/src/bridge/bluez_inventory.cpp:142-154 valid_address *)
Definition valid_address (address : Bytes) : bool :=
  (size_of address =? 17) && valid_characters 0 address.

(* src/src/bridge/bluez_inventory.cpp:156-161 device_path *)
Definition device_path (address : Bytes) : Bytes :=
  bs "/org/bluez/hci0/dev_" ++ map (fun c => if c =? 58 then 95 else c) address.

(** ** The list *)

(* src/src/bridge/bluez_inventory.cpp:206-215 list_bluez_devices (device) *)
Definition read_device (properties : Properties) : BluetoothDevice :=
  let '(address, properties) := property_string properties (bs "Address") in
  let '(alias, properties) := property_string properties (bs "Alias") in
  let '(name, properties) := if bytes_eqb alias [] then property_string properties (bs "Name") else (alias, properties) in
  let '(paired, properties) := property_bool properties (bs "Paired") in
  let '(connected, _) := property_bool properties (bs "Connected") in
  mkDevice address name paired connected.

(** The comparison of the sort. *)
(* src/src/bridge/bluez_inventory.cpp:222-227 list_bluez_devices (order) *)
Definition before (left right : BluetoothDevice) : bool :=
  if eqb (paired left) (paired right) then bytes_ltb (address left) (address right) else paired left.

(** [std::sort]. *)
Fixpoint insert_device (d : BluetoothDevice) (l : list BluetoothDevice) : list BluetoothDevice :=
  match l with
  | [] => [d]
  | e :: l' => if before e d then e :: insert_device d l' else d :: l
  end.
Definition sort_devices (l : list BluetoothDevice) : list BluetoothDevice := fold_right insert_device [] l.

(** The interfaces of an object, each with its properties. *)
Abbreviation Object := (list (Bytes * Properties)).

(* src/src/bridge/bluez_inventory.cpp:191-220 list_bluez_devices (objects) *)
Definition devices_of (objects : list Object) : list BluetoothDevice :=
  concat (map (fun interfaces =>
    concat (map (fun i => let device := read_device i.2 in
                          if bytes_eqb i.1 (bs "org.bluez.Device1") && negb (bytes_eqb (address device) [])
                          then [device] else []) interfaces)) objects).

(** The reply of GetManagedObjects; none without a connection or after a failed or
    malformed call. *)
(* src/src/bridge/bluez_inventory.cpp:171-229 list_bluez_devices *)
Definition list_bluez_devices (reply : option (list Object)) : list BluetoothDevice :=
  match reply with Some objects => sort_devices (devices_of objects) | None => [] end.

(* src/src/bridge/bluez_inventory.cpp:231-237 bluez_device_is_paired *)
Definition bluez_device_is_paired (wanted : Bytes) (reply : option (list Object)) : bool :=
  existsb (fun device => bytes_eqb (address device) wanted && paired device) (list_bluez_devices reply).

(** ** Calls *)

Inductive Call := RemoveDevice (path : Bytes) | SetDiscoveryFilter (transport : Bytes) | StartDiscovery | StopDiscovery.

(** Whether the bus was reached, and whether the call was answered. *)
(* src/src/bridge/bluez_inventory.cpp:239-274 forget_bluez_device *)
Definition forget_bluez_device (address : Bytes) (connection answered : bool) : bool * list Call :=
  if negb (valid_address address) then (false, [])
  else if negb connection then (false, [])
  else (answered, [RemoveDevice (device_path address)]).

(** Whether the three calls are answered. *)
(* src/src/bridge/bluez_inventory.cpp:276-311 discover_bluez_devices *)
Definition discover_bluez_devices (transport : Bytes) (connection filter start stop : bool) : bool * list Call :=
  if negb connection then (false, [])
  else if negb filter then (false, [SetDiscoveryFilter transport])
  else if negb start then (false, [SetDiscoveryFilter transport; StartDiscovery])
  else (stop, [SetDiscoveryFilter transport; StartDiscovery; StopDiscovery]).

(** ** Theorems *)

Lemma bytes_ltb_trans a : forall b c, bytes_ltb a b = true -> bytes_ltb b c = true -> bytes_ltb a c = true.
Proof.
  induction a as [|x a IH]; intros [|y b] [|z c]; cbn; try done.
  rewrite !orb_true_iff, !andb_true_iff, !Z.ltb_lt, !Z.eqb_eq.
  intros [?|[-> ?]] [?|[-> ?]]; [left; lia|by left|by left|right; eauto].
Qed.

Lemma bytes_ltb_total a : forall b, bytes_ltb a b = false -> bytes_ltb b a = false -> a = b.
Proof.
  induction a as [|x a IH]; intros [|y b]; cbn; try done.
  rewrite !orb_false_iff, !andb_false_iff, !Z.ltb_ge, !Z.eqb_neq. intros [? Ha] [? Hb].
  assert (x = y) as -> by lia. f_equal. apply IH; naive_solver.
Qed.

(** [right] does not come before [left]. *)
Definition not_after (left right : BluetoothDevice) : Prop := before right left = false.

Lemma before_asym d e : before d e = true -> before e d = false.
Proof.
  unfold before. destruct (paired d), (paired e); cbn; try done;
    intros H; destruct (bytes_ltb (address e) (address d)) eqn:E; try done;
    pose proof (bytes_ltb_trans _ _ _ H E); pose proof (bytes_ltb_irrefl (address d)); congruence.
Qed.

Lemma not_after_trans d e f : not_after d e -> not_after e f -> not_after d f.
Proof.
  unfold not_after, before. destruct (paired d), (paired e), (paired f); cbn; try done; intros H1 H2;
    destruct (bytes_ltb (address f) (address d)) eqn:E; try done;
    destruct (bytes_ltb (address e) (address f)) eqn:E2;
    try (pose proof (bytes_ltb_trans _ _ _ E2 E); congruence);
    pose proof (bytes_ltb_total _ _ H2 E2); congruence.
Qed.

Lemma insert_device_perm d l : insert_device d l ≡ₚ d :: l.
Proof.
  induction l as [|e l IH]; cbn; [done|]. destruct (before e d); [|done]. rewrite IH. apply Permutation_swap.
Qed.

Lemma sort_devices_perm l : sort_devices l ≡ₚ l.
Proof. induction l as [|d l IH]; cbn; [done|]. by rewrite insert_device_perm, IH. Qed.

Lemma insert_device_sorted d l : StronglySorted not_after l -> StronglySorted not_after (insert_device d l).
Proof.
  induction 1 as [|e l Hl IH He]; cbn; [by repeat constructor|]. destruct (before e d) eqn:E.
  - constructor; [done|]. rewrite insert_device_perm. constructor; [by apply before_asym|done].
  - constructor; [by constructor|]. constructor; [done|]. eapply Forall_impl; [exact He|].
    intros f Hf. by eapply not_after_trans.
Qed.

Lemma sort_devices_sorted l : StronglySorted not_after (sort_devices l).
Proof. induction l as [|d l IH]; [constructor|]. by apply insert_device_sorted. Qed.

(** The list is complete and in order. It has exactly the devices that BlueZ's
    reply describes, each as often as there, with the paired ones first and by
    address within each group; and a device counts as paired exactly if the reply
    has it so. *)
Theorem devices_listed_in_order reply wanted :
  let devices := list_bluez_devices reply in
  devices ≡ₚ match reply with Some objects => devices_of objects | None => [] end /\
  StronglySorted not_after devices /\
  (exists first second, devices = first ++ second /\ Forall (fun d => paired d = true) first /\
     Forall (fun d => paired d = false) second) /\
  (bluez_device_is_paired wanted reply = true <->
     exists d, d ∈ devices /\ address d = wanted /\ paired d = true).
Proof.
  cbv zeta. split_and!.
  - destruct reply; [apply sort_devices_perm|done].
  - destruct reply; [apply sort_devices_sorted|constructor].
  - assert (StronglySorted not_after (list_bluez_devices reply)) as Hs
      by (destruct reply; [apply sort_devices_sorted|constructor]).
    induction Hs as [|d l Hs (first & second & -> & H1 & H2) Hd]; [by exists [], []|].
    destruct (paired d) eqn:Ep; [exists (d :: first), second; by repeat constructor|].
    exists [], (d :: first ++ second). split_and!; [done|constructor|]. constructor; [done|].
    rewrite Forall_forall in Hd |- *. intros e He. specialize (Hd e He).
    unfold not_after, before in Hd. rewrite Ep in Hd. by destruct (paired e).
  - unfold bluez_device_is_paired. rewrite existsb_exists. setoid_rewrite andb_true_iff.
    setoid_rewrite bytes_eqb_eq. setoid_rewrite list_elem_of_In. naive_solver.
Qed.

(** A property of the wanted name and type does not occur. *)
Definition no_string (wanted : Bytes) (p : Properties) : Prop :=
  Forall (fun kv => match kv.2 with VString _ => kv.1 <> wanted | _ => True end) p.
Definition no_bool (wanted : Bytes) (p : Properties) : Prop :=
  Forall (fun kv => match kv.2 with VBool _ => kv.1 <> wanted | _ => True end) p.

Lemma property_string_found p wanted text rest :
  no_string wanted p ->
  property_string (p ++ (wanted, VString text) :: rest) wanted = (text, (wanted, VString text) :: rest).
Proof.
  induction 1 as [|[k v] p Hk Hp IH]; cbn [property_string app]; [by rewrite bytes_eqb_refl|].
  destruct v as [t|b|]; cbn in Hk; [|exact IH..].
  destruct (bytes_eqb k wanted) eqn:E; [by apply bytes_eqb_eq in E|exact IH].
Qed.

Lemma property_bool_found p wanted b rest :
  no_bool wanted p ->
  property_bool (p ++ (wanted, VBool b) :: rest) wanted = (b, (wanted, VBool b) :: rest).
Proof.
  induction 1 as [|[k v] p Hk Hp IH]; cbn [property_bool app]; [by rewrite bytes_eqb_refl|].
  destruct v as [t|c|]; cbn in Hk; [exact IH| |exact IH].
  destruct (bytes_eqb k wanted) eqn:E; [by apply bytes_eqb_eq in E|exact IH].
Qed.

(** A device whose properties come in BlueZ's own order is read completely. *)
Lemma read_device_in_order p0 a p1 n p2 paired p3 connected p4 :
  n <> [] -> no_string (bs "Address") p0 -> no_string (bs "Alias") p1 ->
  no_bool (bs "Paired") p2 -> no_bool (bs "Connected") p3 ->
  read_device (p0 ++ (bs "Address", VString a) :: p1 ++ (bs "Alias", VString n) :: p2
               ++ (bs "Paired", VBool paired) :: p3 ++ (bs "Connected", VBool connected) :: p4)
  = mkDevice a n paired connected.
Proof.
  intros Hn H0 H1 H2 H3. unfold read_device. rewrite property_string_found by done.
  rewrite (app_comm_cons p1), property_string_found by (constructor; [vm_compute; congruence|done]).
  destruct (bytes_eqb n []) eqn:E; [by apply bytes_eqb_eq in E|].
  rewrite (app_comm_cons p2), property_bool_found by (constructor; [done|done]).
  by rewrite (app_comm_cons p3), property_bool_found by (constructor; [vm_compute; congruence|done]).
Qed.

(** In another order a property is missed: here the device is connected and paired,
    and listed as neither. *)
Example properties_out_of_order :
  read_device [(bs "Connected", VBool true); (bs "Paired", VBool true); (bs "Address", VString (bs "A"));
               (bs "Alias", VString (bs "car"))] = mkDevice (bs "A") (bs "car") false false.
Proof. vm_compute. reflexivity. Qed.

(** Without an alias the search for it has used up the properties, the name among
    them. *)
Example name_behind_missing_alias :
  read_device [(bs "Address", VString (bs "A")); (bs "Name", VString (bs "car")); (bs "Paired", VBool true)]
  = mkDevice (bs "A") [] false false.
Proof. vm_compute. reflexivity. Qed.

Lemma path_injective a : forall b i,
  valid_characters i a = true -> valid_characters i b = true ->
  map (fun c => if c =? 58 then 95 else c) a = map (fun c => if c =? 58 then 95 else c) b -> a = b.
Proof.
  induction a as [|x a IH]; intros [|y b] i; cbn [map valid_characters]; try done.
  rewrite !andb_true_iff. intros [Hx Ha] [Hy Hb] [= E1 E2]. f_equal; [|by eapply IH].
  destruct (Nat.eqb (i mod 3) 2); [apply Z.eqb_eq in Hx, Hy; congruence|].
  assert (forall c, is_xdigit c = true -> c <> 58 /\ c <> 95) as Hd.
  { intros c. unfold is_xdigit, is_digit. intros Hc. repeat first [apply orb_true_iff in Hc as [Hc|Hc]|progress bool_hyps]; lia. }
  apply Hd in Hx as [Hx _], Hy as [Hy _]. by rewrite (proj2 (Z.eqb_neq _ _) Hx), (proj2 (Z.eqb_neq _ _) Hy) in E1.
Qed.

(** Forgetting removes one device. A request with an invalid address makes no
    call; a valid one makes exactly one RemoveDevice call, and the object paths of
    two different valid addresses differ. *)
Theorem forget_removes_one address connection answered :
  let '(ok, calls) := forget_bluez_device address connection answered in
  (ok = true <-> valid_address address = true /\ connection = true /\ answered = true) /\
  calls = (if valid_address address && connection then [RemoveDevice (device_path address)] else []) /\
  forall other, valid_address address = true -> valid_address other = true ->
    device_path other = device_path address -> other = address.
Proof.
  unfold forget_bluez_device.
  assert (Hinj : forall other, valid_address address = true -> valid_address other = true ->
    device_path other = device_path address -> other = address).
  { unfold valid_address, device_path. intros other [_ Ha]%andb_true_iff [_ Ho]%andb_true_iff E.
    apply app_inv_head in E. by eapply path_injective. }
  destruct (valid_address address) eqn:E; cbn [negb andb]; [|split_and!; [naive_solver|done|exact Hinj]].
  destruct connection; cbn [negb]; (split_and!; [naive_solver|done|exact Hinj]).
Qed.

(** The scan is stopped whenever it was started. *)
Lemma discovery_stopped transport connection filter start stop :
  let '(ok, calls) := discover_bluez_devices transport connection filter start stop in
  (StopDiscovery ∈ calls <-> connection && filter && start = true) /\ (ok = true -> last calls = Some StopDiscovery).
Proof.
  unfold discover_bluez_devices. destruct connection, filter, start; cbn; split; try done; set_solver.
Qed.
