(* ===== verification/ManagementUi.v ===== *)
(** * The management page's HTTP and HTML helpers

    src/include/aa2acp/bridge/management_ui.hpp and
    src/src/bridge/management_ui.cpp: framing of a request, form and query
    fields, escaping, the response head, the interface list and the log page.
    The configuration page itself ([render_page]) is in ManagementPage.v. *)

From S2P Require Import Prelude Text Config DaemonLog.
#[local] Open Scope Z_scope.

(* src/include/aa2acp/bridge/management_ui.hpp:19-26 PreflightState *)
Inductive PreflightState := idle | discovering | pairing_prompt | connecting | succeeded | failed.

(* src/include/aa2acp/bridge/management_ui.hpp:28-32 preflight_active *)
Definition preflight_active (state : PreflightState) : bool :=
  match state with discovering | pairing_prompt | connecting => true | _ => false end.

(** ** Names and passwords *)

(* src/src/bridge/management_ui.cpp:31-38 normalized_bluetooth_address *)
Definition normalized_bluetooth_address (value : Bytes) : Bytes :=
  map to_upper (List.filter is_xdigit value).

(* src/src/bridge/management_ui.cpp:40-47 is_unnamed *)
Definition is_unnamed (address name : Bytes) : bool :=
  is_empty name
  || bytes_eqb (normalized_bluetooth_address name) (normalized_bluetooth_address address).

(* src/include/aa2acp/bridge/management_ui.hpp:53-53 kDefaultHotspotPassphrase *)
Definition kDefaultHotspotPassphrase : Bytes := bs "changeme".

(* src/src/bridge/management_ui.cpp:51-54 valid_hotspot_passphrase *)
Definition valid_hotspot_passphrase (passphrase : Bytes) : bool :=
  negb (bytes_eqb passphrase kDefaultHotspotPassphrase) && (8 <=? size_of passphrase)
  && find_none_of [13; 10; 61] passphrase.

(** [random n]: the n-th value of the random device. *)
(* src/src/bridge/management_ui.cpp:83-91 random_token *)
Definition random_token (random : nat -> Z) : Bytes :=
  map (fun index => hex_digit (Z.land (random index) 15)) (seq 0 48).

(** ** Escaping *)

(* src/src/bridge/management_ui.cpp:56-81 html_escape *)
Definition escape_character (c : Z) : Bytes :=
  if c =? 38 then bs "&amp;"
  else if c =? 60 then bs "&lt;"
  else if c =? 62 then bs "&gt;"
  else if c =? 34 then bs "&quot;"
  else if c =? 39 then bs "&#39;"
  else [c].
Definition html_escape (value : Bytes) : Bytes := concat (map escape_character value).

Definition hex_value (c : Z) : Z :=
  if is_digit c then c - 48 else if c <? 97 then c - 55 else c - 87.

(** [char] conversion of the value keeps its octet. *)
(* src/src/bridge/management_ui.cpp:93-109 url_decode *)
Fixpoint url_decode (value : Bytes) : Bytes :=
  match value with
  | [] => []
  | c :: rest =>
      if c =? 43 then 32 :: url_decode rest
      else if c =? 37 then
        match rest with
        | h :: l :: rest' =>
            if is_xdigit h && is_xdigit l then hex_value h * 16 + hex_value l :: url_decode rest'
            else c :: url_decode rest
        | _ => c :: url_decode rest
        end
      else c :: url_decode rest
  end.

(** ** Form and query fields *)

(** One turn per '&'; [fuel] bounds them by the length of the body. *)
(* src/src/bridge/management_ui.cpp:111-127 form_field *)
Fixpoint form_field_from (fuel : nat) (body wanted : Bytes) : option Bytes :=
  match fuel with
  | O => None
  | S fuel =>
      let field := match find_char 38 body with None => body | Some e => take e body end in
      let name := match find_char 61 field with None => field | Some s => take s field end in
      if bytes_eqb (url_decode name) wanted then
        Some (match find_char 61 field with None => [] | Some s => url_decode (drop (s + 1) field) end)
      else match find_char 38 body with
           | None => None
           | Some e => form_field_from fuel (drop (e + 1) body) wanted
           end
  end.
Definition form_field (body wanted : Bytes) : option Bytes :=
  form_field_from (S (length body)) body wanted.

(* src/src/bridge/management_ui.cpp:129-141 query_field *)
Definition query_field (request wanted : Bytes) : option Bytes :=
  match find_char 32 request with
  | None => None
  | Some method_end =>
      match find_from [32] request (method_end + 1), find_char 63 request with
      | Some path_end, Some query_start =>
          if Nat.leb path_end query_start then None
          else form_field (subspan (query_start + 1) (path_end - query_start - 1) request) wanted
      | _, _ => None
      end
  end.

(** ** Request framing *)

(* src/include/aa2acp/bridge/management_ui.hpp:67-71 HttpRequestFraming *)
Inductive HttpRequestFraming :=
| incomplete
| invalid
| complete (body : Bytes).

(** The value of a [Content-Length] header line, after its colon. *)
(* src/src/bridge/management_ui.cpp:171-179 frame_http_request *)
Definition header_value (after_colon : Bytes) : Bytes :=
  rev (drop_while is_space (rev (drop_while is_blank after_colon))).

(** What a header line makes of the body size found so far; [None] is invalid. *)
(* src/src/bridge/management_ui.cpp:164-189 frame_http_request *)
Definition scan_header (line : Bytes) (body_size : option Z) : option (option Z) :=
  match find_char 58 line with
  | None => Some body_size
  | Some separator =>
      if bytes_eqb (lower (take separator line)) (bs "content-length") then
        match parse_unsigned (2 ^ 64 - 1) (header_value (drop (separator + 1) line)) with
        | None => None
        | Some parsed =>
            match body_size with
            | Some known => if known =? parsed then Some (Some parsed) else None
            | None => Some (Some parsed)
            end
        end
      else Some body_size
  end.

(** The loop over the lines of [head], the request up to the blank line. *)
(* src/src/bridge/management_ui.cpp:155-193 frame_http_request *)
Fixpoint scan_head (fuel : nat) (head : Bytes) (body_size : option Z) : option (option Z) :=
  match fuel, head with
  | O, _ | _, [] => Some body_size
  | S fuel, _ =>
      match search CRLF head with
      | None => scan_header head body_size
      | Some line_end =>
          match scan_header (take line_end head) body_size with
          | None => None
          | Some body_size => scan_head fuel (drop (line_end + 2) head) body_size
          end
      end
  end.

(** [max_size]: [std::string_view::max_size()]. *)
(* src/src/bridge/management_ui.cpp:143-205 frame_http_request *)
Definition frame_http_request (max_size : Z) (request : Bytes) (maximum_headers maximum_body : Z)
    : HttpRequestFraming :=
  match search CRLFCRLF request with
  | None => if maximum_headers <? size_of request then invalid else incomplete
  | Some header_end =>
      if maximum_headers <? Z.of_nat header_end then invalid
      else match scan_head (S header_end) (take header_end request) None with
           | None => invalid
           | Some body_size =>
               let body_start := Z.of_nat header_end + 4 in
               let length := default 0 body_size in
               if (maximum_body <? length) || (u64 (max_size - length) <? body_start) then invalid
               else
                 let request_size := body_start + length in
                 if size_of request <? request_size then incomplete
                 else if request_size <? size_of request then invalid
                 else complete (subspan (Z.to_nat body_start) (Z.to_nat length) request)
           end
  end.

(** ** Responses *)

(* src/src/bridge/management_ui.cpp:209-218 send_response *)
Definition response (status : Z) (type body extra : Bytes) : Bytes :=
  bs "HTTP/1.1 " ++ dec status
  ++ (if status =? 200 then bs " OK" ++ CRLF
      else if status =? 204 then bs " No Content" ++ CRLF
      else if status =? 205 then bs " Reset Content" ++ CRLF
      else if status =? 303 then bs " See Other" ++ CRLF
      else bs " Bad Request" ++ CRLF)
  ++ bs "Content-Type: " ++ type ++ CRLF ++ extra ++ bs "Content-Length: " ++ dec (size_of body)
  ++ CRLF ++ bs "Connection: close" ++ CRLFCRLF ++ body.

(** A turn of the sending loop: the deadline passed or [poll] failed, or [send]
    took octets, was interrupted, or failed. *)
Inductive SendTurn := GiveUp | Wrote (n : nat) | Again.

(* src/src/bridge/management_ui.cpp:219-244 send_response *)
Fixpoint send_loop (turns : list SendTurn) (data : Bytes) : bool * Bytes :=
  match data, turns with
  | [], _ => (true, [])
  | _, [] | _, GiveUp :: _ => (false, [])
  | _, Again :: turns => send_loop turns data
  | _, Wrote n :: turns =>
      match Nat.min n (length data) with
      | O => (false, [])
      | S k => let '(ok, sent) := send_loop turns (drop (S k) data) in (ok, take (S k) data ++ sent)
      end
  end.
Definition send_response (turns : list SendTurn) (status : Z) (type body extra : Bytes) : bool * Bytes :=
  send_loop turns (response status type body extra).

(** ** Wi-Fi interfaces *)

Definition is_newline (c : Z) : bool := (c =? 10) || (c =? 13).

(** [output]: what [nmcli] printed, [None] when it failed. *)
(* src/src/bridge/management_ui.cpp:330-348 wifi_interfaces *)
Definition wifi_interfaces (output : option Bytes) : list Bytes :=
  match output with
  | None => []
  | Some text =>
      omap (fun line =>
        let value := rev (drop_while is_newline (rev line)) in
        match find_char 58 value with
        | Some separator =>
            if bytes_eqb (drop (separator + 1) value) (bs "wifi") then Some (take separator value) else None
        | None => None
        end) (getlines text)
  end.

(** ** The log page *)

(* src/src/bridge/management_ui.cpp:576-584 render_logs_page *)
Definition css_class (line : Bytes) : Bytes :=
  match find (fun level => match search (bs "[" ++ log_level_name level) line with Some _ => true | None => false end)
             [debug; info; warning; error] with
  | Some level => bs "log-" ++ log_level_name level
  | None => []
  end.

(** A double quote is [34]. *)
(* src/src/bridge/management_ui.cpp:585-599 render_logs_page *)
Definition render_line (line : Bytes) : Bytes :=
  let css := css_class line in
  (if is_empty css then [] else bs "<span class=" ++ [34] ++ css ++ [34] ++ bs ">")
  ++ html_escape line
  ++ (if is_empty css then [] else bs "</span>") ++ [10].
(* src/src/bridge/management_ui.cpp:574-599 render_logs_page *)
Definition rendered_logs (logs : Bytes) : Bytes := concat (map render_line (getlines logs)).

(** ** Reference definitions *)

(** What a browser makes of the entities. *)
Definition entities : list (Bytes * Z) :=
  [(bs "&amp;", 38); (bs "&lt;", 60); (bs "&gt;", 62); (bs "&quot;", 34); (bs "&#39;", 39)].
Fixpoint html_unescape (fuel : nat) (text : Bytes) : Bytes :=
  match fuel, text with
  | S fuel, c :: rest =>
      match find (fun e => starts_with e.1 text) entities with
      | Some (entity, character) => character :: html_unescape fuel (drop (length entity) text)
      | None => c :: html_unescape fuel rest
      end
  | _, _ => []
  end.

(** The text with everything between angle brackets removed. *)
Fixpoint strip_tags (inside : bool) (text : Bytes) : Bytes :=
  match text with
  | [] => []
  | c :: rest =>
      if c =? 60 then strip_tags true rest
      else if c =? 62 then strip_tags false rest
      else if inside then strip_tags inside rest else c :: strip_tags inside rest
  end.

(** [application/x-www-form-urlencoded], as a browser writes a form. *)
Definition unreserved (c : Z) : bool :=
  is_digit c || ((65 <=? c) && (c <=? 90)) || ((97 <=? c) && (c <=? 122))
  || (c =? 42) || (c =? 45) || (c =? 46) || (c =? 95).
Definition upper_hex (n : Z) : Z := if n <? 10 then 48 + n else 55 + n.
Definition url_encode_character (c : Z) : Bytes :=
  if unreserved c then [c] else if c =? 32 then [43] else [37; upper_hex (c / 16); upper_hex (c mod 16)].
Definition url_encode (value : Bytes) : Bytes := concat (map url_encode_character value).
Definition form_pair (field : Bytes * Bytes) : Bytes := url_encode field.1 ++ 61 :: url_encode field.2.
Fixpoint form_encode (fields : list (Bytes * Bytes)) : Bytes :=
  match fields with
  | [] => []
  | [field] => form_pair field
  | field :: fields => form_pair field ++ 38 :: form_encode fields
  end.
Fixpoint field_value (fields : list (Bytes * Bytes)) (wanted : Bytes) : option Bytes :=
  match fields with
  | [] => None
  | (name, value) :: fields => if bytes_eqb name wanted then Some value else field_value fields wanted
  end.

(** The header scan over the lines of the head. *)
Fixpoint scan_headers (lines : list Bytes) (body_size : option Z) : option (option Z) :=
  match lines with
  | [] => Some body_size
  | line :: lines =>
      match scan_header line body_size with
      | None => None
      | Some body_size => scan_headers lines body_size
      end
  end.

(** ** Lemmas *)

Definition not_markup (c : Z) : Prop := c <> 60 /\ c <> 62 /\ c <> 34 /\ c <> 39.

Lemma escape_character_cases c :
  (exists e, e ∈ entities /\ e.2 = c /\ escape_character c = e.1) \/
  (escape_character c = [c] /\ c <> 38 /\ not_markup c).
Proof.
  unfold escape_character, not_markup, entities.
  repeat match goal with |- context [c =? ?n] => destruct (Z.eqb_spec c n) as [->|] end.
  all: first [ right; by split_and!
             | match goal with |- (exists e, _ /\ _ = ?n /\ ?s = _) \/ _ => left; exists (s, n) end;
               split_and!; [|done|done]; repeat first [apply elem_of_cons; by left | apply elem_of_cons; right] ].
Qed.

Lemma escape_safe value : Forall not_markup (html_escape value).
Proof.
  unfold html_escape. induction value as [|c value IH]; cbn [map concat]; [constructor|].
  apply Forall_app. split; [|done].
  destruct (escape_character_cases c) as [(e & He & _ & ->)|(-> & _ & Hc)]; [|by constructor].
  unfold entities in He. repeat (apply elem_of_cons in He as [->|He];
    [vm_compute; repeat (constructor; [split_and!; discriminate|]); constructor|]).
  by apply not_elem_of_nil in He.
Qed.

Lemma unescape_escape fuel value :
  (length value <= fuel)%nat -> html_unescape fuel (html_escape value) = value.
Proof.
  revert value. induction fuel as [|fuel IH]; intros [|c value] Hf; try (simpl in Hf; lia); try done.
  unfold html_escape. cbn [map concat]. fold (html_escape value).
  assert (html_unescape fuel (html_escape value) = value) as Hv by (apply IH; simpl in Hf; lia).
  destruct (escape_character_cases c) as [(e & He & <- & ->)|(-> & Hc & _)].
  - unfold entities in He. repeat (apply elem_of_cons in He as [->|He];
      [rewrite <- Hv at 2; reflexivity|]). by apply not_elem_of_nil in He.
  - cbn [app html_unescape]. assert (find (fun e => starts_with e.1 (c :: html_escape value)) entities = None) as ->.
    { assert (forall s t, starts_with (38 :: s) (c :: t) = false) as Hs.
      { intros. cbn [starts_with]. by rewrite (proj2 (Z.eqb_neq 38 c)) by congruence. }
      unfold entities. cbn [find fst]. change (bs "&amp;") with (38 :: bs "amp;").
      change (bs "&lt;") with (38 :: bs "lt;"). change (bs "&gt;") with (38 :: bs "gt;").
      change (bs "&quot;") with (38 :: bs "quot;"). change (bs "&#39;") with (38 :: bs "#39;").
      by rewrite !Hs. }
    by rewrite Hv.
Qed.

Lemma strip_text text rest :
  Forall not_markup text -> strip_tags false (text ++ rest) = text ++ strip_tags false rest.
Proof.
  induction 1 as [|c text (H1 & H2 & _) Ht IH]; [done|]. cbn [app strip_tags].
  rewrite (proj2 (Z.eqb_neq c 60)), (proj2 (Z.eqb_neq c 62)), IH by done. done.
Qed.

Lemma strip_line line rest :
  strip_tags false (render_line line ++ rest) = html_escape line ++ 10 :: strip_tags false rest.
Proof.
  unfold render_line.
  assert (exists opening closing, render_line line = opening ++ html_escape line ++ closing ++ [10] /\
    (forall t, strip_tags false (opening ++ t) = strip_tags false t) /\
    (forall t, strip_tags false (closing ++ t) = strip_tags false t)) as (o & c & Ho & H1 & H2).
  { unfold render_line, css_class. destruct (find _ _) as [[]|];
      eexists; eexists; (split; [reflexivity|split; reflexivity]). }
  unfold render_line in Ho. rewrite Ho, <- !app_assoc, H1, strip_text by apply escape_safe. by rewrite H2.
Qed.

(** *** Forms *)

Lemma hex_roundtrip n : 0 <= n < 16 -> is_xdigit (upper_hex n) = true /\ hex_value (upper_hex n) = n.
Proof.
  intros H. unfold hex_value, is_xdigit, is_digit, upper_hex.
  repeat match goal with
  | |- context [?a <? ?b] => destruct (Z.ltb_spec a b)
  | |- context [?a <=? ?b] => destruct (Z.leb_spec a b)
  end; cbn [andb orb]; split; (done || lia).
Qed.

Lemma unreserved_range c : unreserved c = true -> c <> 37 /\ c <> 38 /\ c <> 43 /\ c <> 61.
Proof. unfold unreserved, is_digit. rewrite !orb_true_iff, !andb_true_iff, !Z.leb_le, !Z.eqb_eq. lia. Qed.

Lemma url_decode_encode value : bytes_ok value -> url_decode (url_encode value) = value.
Proof.
  unfold url_encode. induction 1 as [|c value Hc Hv IH]; [done|]. cbn [map concat].
  unfold url_encode_character at 1. destruct (unreserved c) eqn:Eu.
  - apply unreserved_range in Eu as (H1 & _ & H2 & _). cbn [app url_decode].
    by rewrite (proj2 (Z.eqb_neq c 43)), (proj2 (Z.eqb_neq c 37)), IH by done.
  - destruct (Z.eqb_spec c 32) as [->|Hs]; cbn [app url_decode]; [by rewrite IH|].
    destruct (hex_roundtrip (c / 16)) as [-> ->].
    { destruct Hc. split; [apply Z.div_pos; lia|apply Z.div_lt_upper_bound; lia]. }
    destruct (hex_roundtrip (c mod 16)) as [-> ->]; [apply Z.mod_pos_bound; lia|].
    cbn [andb]. rewrite IH. simpl. f_equal. pose proof (Z.div_mod c 16). lia.
Qed.

Lemma url_encode_chars value : bytes_ok value -> Forall (fun c => c <> 38 /\ c <> 61) (url_encode value).
Proof.
  unfold url_encode. induction 1 as [|c value Hc Hv IH]; [constructor|]. cbn [map concat].
  apply Forall_app. split; [|done]. unfold url_encode_character.
  destruct (unreserved c) eqn:Eu; [|destruct (c =? 32)].
  - apply unreserved_range in Eu as (_ & ? & _ & ?). by constructor.
  - by repeat constructor.
  - assert (forall n, 0 <= n < 16 -> upper_hex n <> 38 /\ upper_hex n <> 61) as Hh
      by (intros n Hn; unfold upper_hex; destruct (n <? 10) eqn:E; bool_hyps; lia).
    constructor; [done|]. destruct Hc. constructor; [|constructor; [|constructor]]; apply Hh.
    + split; [apply Z.div_pos; lia|apply Z.div_lt_upper_bound; lia].
    + apply Z.mod_pos_bound. lia.
Qed.

Definition field_ok (field : Bytes * Bytes) : Prop := bytes_ok field.1 /\ bytes_ok field.2.

(** The turn that reads one encoded field. *)
Lemma form_field_pair fuel name value rest wanted :
  field_ok (name, value) ->
  (rest = [] \/ exists t, rest = 38 :: t) ->
  form_field_from (S fuel) (form_pair (name, value) ++ rest) wanted =
  if bytes_eqb name wanted then Some value
  else match rest with [] => None | _ :: t => form_field_from fuel t wanted end.
Proof.
  intros [Hn Hv] Hr. cbn [form_field_from]. unfold form_pair. cbn [fst snd].
  pose proof (url_encode_chars name Hn) as Hcn. pose proof (url_encode_chars value Hv) as Hcv.
  set (pair := url_encode name ++ 61 :: url_encode value).
  assert (Forall (fun c => c <> 38) pair) as Hp.
  { apply Forall_app. split; [eapply Forall_impl; [exact Hcn|by intros ? [? ?]]|]. constructor; [done|].
    eapply Forall_impl; [exact Hcv|by intros ? [? ?]]. }
  assert (find_char 61 pair = Some (length (url_encode name))) as Heq.
  { apply find_char_app. eapply Forall_impl; [exact Hcn|by intros ? [? ?]]. }
  assert (take (length (url_encode name)) pair = url_encode name) as Ht by apply take_app_length.
  assert (drop (length (url_encode name) + 1) pair = url_encode value) as Hd.
  { unfold pair. replace (url_encode name ++ 61 :: url_encode value)
      with ((url_encode name ++ [61]) ++ url_encode value) by (by rewrite <- app_assoc).
    apply drop_app_length'. rewrite length_app. simpl. lia. }
  destruct Hr as [->|[t ->]].
  - rewrite app_nil_r, (find_char_none 38 pair Hp). rewrite Heq, Ht, Hd, !url_decode_encode by done. done.
  - rewrite (find_char_app 38 pair t Hp), take_app_length. rewrite Heq, Ht, Hd, !url_decode_encode by done.
    replace (pair ++ 38 :: t) with ((pair ++ [38]) ++ t) by (by rewrite <- app_assoc).
    rewrite drop_app_length' by (rewrite length_app; simpl; lia). done.
Qed.

Lemma form_field_encoded fuel fields wanted :
  Forall field_ok fields -> (length fields <= fuel)%nat -> fields <> [] ->
  form_field_from fuel (form_encode fields) wanted = field_value fields wanted.
Proof.
  intros Hf. revert fuel. induction Hf as [|[name value] fields Hok Hf IH]; intros fuel Hl Hne; [done|].
  destruct fuel as [|fuel]; [simpl in Hl; lia|]. cbn [field_value].
  destruct fields as [|f2 fields].
  - cbn [form_encode]. rewrite <- (app_nil_r (form_pair _)), form_field_pair by auto. done.
  - change (form_encode ((name, value) :: f2 :: fields))
      with (form_pair (name, value) ++ 38 :: form_encode (f2 :: fields)).
    rewrite form_field_pair by eauto. rewrite IH; [done|simpl in *; lia|done].
Qed.

(** *** Framing *)

(** The head of a request: its lines without the last line's end. *)
Lemma scan_head_lines ls fuel t body_size :
  Forall line_ok ls -> ls <> [] -> (length ls <= fuel)%nat ->
  scan_head fuel (take (length (crlf_lines ls) - 2) (crlf_lines ls ++ t)) body_size = scan_headers ls body_size.
Proof.
  intros Hls. revert fuel body_size. induction Hls as [|l ls [Hl Hne] Hls IH]; intros fuel body_size Hn Hf; [done|].
  destruct fuel as [|fuel]; [simpl in Hf; lia|]. rewrite crlf_lines_cons, !length_app, <- !app_assoc.
  change (length CRLF) with 2%nat. cbn [scan_headers].
  destruct ls as [|l2 ls].
  - simpl (length (crlf_lines [])). replace (length l + (2 + 0) - 2)%nat with (length l) by lia.
    rewrite take_app_length. cbn [scan_head]. destruct l as [|c l]; [done|].
    unfold CRLF. rewrite <- (app_nil_r (c :: l)) at 1. rewrite (search_skip 13 [10]) by done.
    cbn [search starts_with fmap option_fmap option_map]. by destruct (scan_header (c :: l) body_size).
  - assert (2 <= length (crlf_lines (l2 :: ls)))%nat by (rewrite crlf_lines_cons, !length_app; simpl; lia).
    replace (length l + (2 + length (crlf_lines (l2 :: ls))) - 2)%nat
      with (length l + (2 + (length (crlf_lines (l2 :: ls)) - 2)))%nat by lia.
    rewrite take_app_add, (take_app_add' CRLF) by done. set (rest := take _ (crlf_lines (l2 :: ls) ++ t)).
    cbn [scan_head]. destruct l as [|c l]; [done|].
    rewrite search_crlf by done. cbn [app]. rewrite app_comm_cons, take_app_length.
    destruct (scan_header (c :: l) body_size) as [b|]; [|done].
    replace ((c :: l) ++ CRLF ++ rest) with (((c :: l) ++ CRLF) ++ rest) by (by rewrite <- app_assoc).
    rewrite drop_app_length' by (rewrite length_app; simpl; lia).
    apply IH; [done|simpl in *; lia].
Qed.

Lemma crlf_lines_size ls : Forall line_ok ls -> ls <> [] -> 3 <= size_of (crlf_lines ls).
Proof.
  intros Hls Hne. pose proof (crlf_lines_length ls Hls). destruct ls; [done|].
  unfold size_of. simpl length in *. lia.
Qed.

Section Framing.
Context (max_size : Z) (ls : list Bytes) (maximum_headers maximum_body len : Z) (body_size : option Z).
Hypothesis Hls : Forall line_ok ls.
Hypothesis Hne : ls <> [].
Hypothesis Hscan : scan_headers ls None = Some body_size.
Hypothesis Hlen : default 0 body_size = len.
Hypothesis Hlen0 : 0 <= len <= maximum_body.
Hypothesis Hheaders : size_of (crlf_lines ls) + 1 <= maximum_headers.
Hypothesis Hmax : size_of (crlf_lines ls) + 2 + len <= max_size < 2 ^ 64.

Lemma frame_tail t :
  frame_http_request max_size (crlf_lines ls ++ CRLF ++ t) maximum_headers maximum_body =
  if size_of t <? len then incomplete else if len <? size_of t then invalid else complete t.
Proof using Hls Hne Hscan Hlen Hlen0 Hheaders Hmax.
  pose proof (crlf_lines_size ls Hls Hne) as Hs. pose proof (size_nonneg t). unfold frame_http_request.
  rewrite search_crlfcrlf_lines by done.
  set (he := (length (crlf_lines ls) - 2)%nat).
  assert (Z.of_nat he = size_of (crlf_lines ls) - 2) as Hhe by (unfold he, size_of in *; lia).
  rewrite Hhe, (proj2 (Z.ltb_ge maximum_headers _)) by lia.
  unfold he at 2. rewrite scan_head_lines; [|done|done|].
  2:{ pose proof (crlf_lines_length ls Hls). unfold he. lia. }
  rewrite Hscan, Hlen. unfold wrap.
  rewrite (proj2 (Z.ltb_ge maximum_body _)), (Z.mod_small (max_size - len)) by lia.
  rewrite (proj2 (Z.ltb_ge (max_size - len) _)) by lia. cbn [orb].
  rewrite !size_app. change (size_of CRLF) with 2.
  replace (size_of (crlf_lines ls) + (2 + size_of t) <? size_of (crlf_lines ls) - 2 + 4 + len)
    with (size_of t <? len) by (destruct (Z.ltb_spec (size_of t) len); symmetry; [apply Z.ltb_lt|apply Z.ltb_ge]; lia).
  replace (size_of (crlf_lines ls) - 2 + 4 + len <? size_of (crlf_lines ls) + (2 + size_of t))
    with (len <? size_of t) by (destruct (Z.ltb_spec len (size_of t)); symmetry; [apply Z.ltb_lt|apply Z.ltb_ge]; lia).
  destruct (size_of t <? len) eqn:E1; [done|]. destruct (len <? size_of t) eqn:E2; [done|]. bool_hyps.
  f_equal. unfold subspan. rewrite app_assoc, drop_app_length'.
  - apply take_ge. unfold size_of in *. lia.
  - rewrite length_app. unfold size_of in *. simpl. lia.
Qed.

(** Nothing before the end of the head can be framed. *)
Lemma frame_partial_head n t :
  (n < length (crlf_lines ls) + 2)%nat ->
  frame_http_request max_size (take n (crlf_lines ls ++ CRLF ++ t)) maximum_headers maximum_body = incomplete.
Proof using Hls Hne Hheaders.
  clear Hscan Hlen Hlen0 Hmax. intros Hn. pose proof (crlf_lines_size ls Hls Hne) as Hs. unfold frame_http_request.
  set (r := crlf_lines ls ++ CRLF ++ t).
  destruct (search CRLFCRLF (take n r)) as [k|] eqn:E.
  - pose proof (search_extend _ _ (drop n r) _ E) as Hx. rewrite take_drop in Hx. unfold r in Hx.
    rewrite search_crlfcrlf_lines in Hx by done. injection Hx as Hk.
    apply search_Some in E as ((u & Hu) & _ & _). apply (f_equal length) in Hu.
    rewrite length_drop, length_take, length_app in Hu. simpl in Hu. unfold size_of in *. lia.
  - rewrite (proj2 (Z.ltb_ge maximum_headers _)); [done|]. unfold size_of in *. rewrite length_take. lia.
Qed.
End Framing.

(** ** Theorems *)

(** A request is framed the same however the network cuts it: for header
    lines whose [Content-Length] is the size of the body, within the limits,
    every proper beginning of the request is incomplete, the whole is complete
    with exactly its body, and one with anything after it is invalid. *)
Theorem request_framing_exact max_size ls body body_size maximum_headers maximum_body :
  Forall line_ok ls -> ls <> [] -> scan_headers ls None = Some body_size ->
  default 0 body_size = size_of body -> size_of body <= maximum_body ->
  size_of (crlf_lines ls) + 1 <= maximum_headers ->
  size_of (crlf_lines ls) + 2 + size_of body <= max_size < 2 ^ 64 ->
  let request := crlf_lines ls ++ CRLF ++ body in
  frame_http_request max_size request maximum_headers maximum_body = complete body /\
  (forall n, (n < length request)%nat ->
     frame_http_request max_size (take n request) maximum_headers maximum_body = incomplete) /\
  (forall extra, extra <> [] ->
     frame_http_request max_size (request ++ extra) maximum_headers maximum_body = invalid).
Proof.
  intros Hls Hne Hscan Hlen Hb Hh Hm. cbv zeta. pose proof (size_nonneg body) as H0.
  pose proof (fun t => frame_tail max_size ls maximum_headers maximum_body (size_of body) body_size
    Hls Hne Hscan Hlen (conj H0 Hb) Hh Hm t) as Hf.
  split_and!.
  - rewrite Hf, Z.ltb_irrefl. done.
  - intros n Hn. destruct (Nat.lt_ge_cases n (length (crlf_lines ls) + 2)) as [Hl|Hl];
      [by eapply frame_partial_head|].
    rewrite app_assoc, take_app_ge by (rewrite length_app; simpl; lia). rewrite <- app_assoc, Hf.
    rewrite (proj2 (Z.ltb_lt _ _)); [done|]. unfold size_of. rewrite !length_app in *.
    rewrite length_take. simpl in *. lia.
  - intros extra Hx. rewrite <- !app_assoc, Hf, size_app.
    assert (0 < size_of extra) by (destruct extra; [done|rewrite size_cons; pose proof (size_nonneg extra); lia]).
    rewrite (proj2 (Z.ltb_ge _ _)), (proj2 (Z.ltb_lt _ _)) by lia. done.
Qed.

Lemma request_framing_exact_witness :
  frame_http_request (2 ^ 62) (crlf_lines [bs "POST /config HTTP/1.1"; bs "Content-Length: 3"] ++ CRLF ++ bs "a=1")
    8192 8192 = complete (bs "a=1").
Proof.
  apply (request_framing_exact (2 ^ 62) _ (bs "a=1") (Some 3)); try (vm_compute; intuition congruence).
  repeat constructor; vm_compute; congruence.
Defined.

(** A request that is accepted is within the limits and entirely accounted
    for: it is the head, the blank line and the body handed to the server. *)
Theorem complete_is_exact max_size request maximum_headers maximum_body body :
  frame_http_request max_size request maximum_headers maximum_body = complete body ->
  exists head, request = head ++ CRLFCRLF ++ body /\ search CRLFCRLF request = Some (length head) /\
  size_of head <= maximum_headers /\ size_of body <= maximum_body.
Proof.
  unfold frame_http_request. destruct (search CRLFCRLF request) as [he|] eqn:E; [|by case_match].
  destruct (maximum_headers <? Z.of_nat he) eqn:E1; [done|].
  destruct (scan_head _ _ _) as [bsz|]; [|done]. set (len := default 0 bsz).
  destruct (_ || _) eqn:E2; [done|]. destruct (_ <? _ + len) eqn:E3; [done|].
  destruct (_ <? size_of request) eqn:E4; [done|]. bool_hyps. intros [= <-].
  pose proof (search_Some _ _ _ E) as ((u & Hu) & Hle & _).
  assert (request = take he request ++ CRLFCRLF ++ u) as Hr by (rewrite <- Hu; by rewrite take_drop).
  assert (length (take he request) = he) as Hl by (rewrite length_take; lia).
  assert (subspan (Z.to_nat (Z.of_nat he + 4)) (Z.to_nat len) request = u) as ->.
  { unfold subspan. rewrite Hr, app_assoc, drop_app_length' by (rewrite length_app, Hl; simpl; lia).
    apply take_ge. rewrite Hr in E3, E4. rewrite !size_app in E3, E4. change (size_of CRLFCRLF) with 4 in *.
    unfold size_of in *. lia. }
  exists (take he request). split_and!; [done|by rewrite Hl|unfold size_of; lia|].
  assert (size_of request = Z.of_nat he + 4 + size_of u) as Hs.
  { rewrite Hr, !size_app. unfold size_of at 1. rewrite Hl. change (size_of CRLFCRLF) with 4. lia. }
  lia.
Qed.

Lemma complete_is_exact_witness :
  exists head, bs "A" ++ CRLFCRLF = head ++ CRLFCRLF ++ [] /\ size_of head <= 10.
Proof.
  destruct (complete_is_exact (2 ^ 62) (bs "A" ++ CRLFCRLF) 10 10 []) as (h & H1 & _ & H2 & _);
    [vm_compute; reflexivity|]. exists h. split; [exact H1|exact H2].
Defined.

(** A form field is read as the browser meant it: for any fields of octets,
    looking a name up in the encoded form gives the value of the first field with
    that name, or nothing when there is none. *)
Theorem form_field_roundtrip fields wanted :
  Forall field_ok fields -> fields <> [] -> form_field (form_encode fields) wanted = field_value fields wanted.
Proof.
  intros Hf Hne. unfold form_field. apply form_field_encoded; [done| |done].
  apply Nat.le_le_succ_r. clear Hne. induction Hf as [|f fields _ Hf IH]; [simpl; lia|].
  assert (1 <= length (form_pair f))%nat by (unfold form_pair; rewrite length_app; simpl; lia).
  destruct fields as [|f2 fields]; [simpl; lia|].
  change (form_encode (f :: f2 :: fields)) with (form_pair f ++ 38 :: form_encode (f2 :: fields)).
  rewrite length_app. simpl in *. lia.
Qed.

Lemma form_field_roundtrip_witness :
  form_field (form_encode [(bs "ssid", bs "My & car"); (bs "pass", bs "100% +=")]) (bs "pass") = Some (bs "100% +=").
Proof.
  apply (form_field_roundtrip [(bs "ssid", bs "My & car"); (bs "pass", bs "100% +=")]); [|discriminate].
  repeat (apply Forall_cons_2; [split; apply bs_ok|]). apply Forall_nil_2.
Defined.

(** Escaped text is inert and unchanged: it contains no angle bracket and no
    quote, so it can neither open a tag nor leave an attribute, and a browser
    shows exactly the original. *)
Theorem html_escape_safe value :
  Forall (fun c => c <> 60 /\ c <> 62 /\ c <> 34 /\ c <> 39) (html_escape value) /\
  html_unescape (length value) (html_escape value) = value.
Proof. split; [apply escape_safe|by apply unescape_escape]. Qed.

(** Log text cannot inject markup into the log page: without the tags, the
    rendered log is the escaped log, line by line. *)
Theorem logs_render_inert logs :
  strip_tags false (rendered_logs logs) = concat (map (fun line => html_escape line ++ [10]) (getlines logs)).
Proof.
  unfold rendered_logs. induction (getlines logs) as [|line lines IH]; [done|].
  cbn [map concat]. by rewrite strip_line, IH, <- app_assoc.
Qed.

(** The limit on the headers is applied three octets early while the request is
    still arriving: the same request is accepted whole and refused in pieces. *)
Example header_limit_depends_on_segments :
  let request := crlf_lines [bs "GET / HTTP/1.1"] ++ CRLF in
  frame_http_request (2 ^ 62) request 14 100 = complete [] /\
  frame_http_request (2 ^ 62) (take 16 request) 14 100 = invalid.
Proof. vm_compute. done. Qed.
