(* ===== verification/BluetoothWorker.v ===== *)
(** * The Bluetooth worker

    [src/src/iap2_bt_main.cpp]: the mailbox of the pairing confirmation, the
    readers of the media sockets, the command line, the loop that drives the link
    and its two clients, the AirPlay attempts and the clean-up of the Wi-Fi.  The
    BlueZ calls, the clock, the sockets and the AirPlay session are outcomes that
    are arguments. *)

From S2P Require Import Prelude Text LinkCodec PhoneLink LinkFacts Csm Bootstrap CarPlayProbe TcpClient NetworkManager.
#[local] Open Scope Z_scope.

(** ** The pairing confirmation *)

(* src/include/aa2acp/iap2/bluetooth_worker.hpp:15-19 PairingConfirmationMessage *)
Record PairingConfirmationMessage := mkConfirmation {
  id : Z;
  passkey : Z;
  address : Bytes  (* 18 characters *)
}.

(** The object as it is copied into a message; [padding] fills it to eight. *)
Definition object_bytes (padding : Bytes) (m : PairingConfirmationMessage) : Bytes :=
  le_bytes 8 (id m) ++ le_bytes 4 (passkey m) ++ address m ++ padding.

(** [memcpy] from the object representation. *)
Definition object_of (bytes : Bytes) : PairingConfirmationMessage :=
  mkConfirmation (le_value (take 8 bytes)) (le_value (subspan 8 4 bytes)) (subspan 12 18 bytes).

(** [sizeof(PairingConfirmationMessage)] *)
Definition kConfirmationSize : Z := 32.

(** A result below zero: not answered yet; [0] for [pending_id]: nothing asked. *)
(* src/src/iap2_bt_main.cpp:34-38 pairing_confirmation (variables) *)
Record Mailbox := mkMailbox {
  control_fd : bool;
  next_id : Z;
  pending_id : Z;
  pending_result : Z
}.

Definition new_mailbox : Mailbox := mkMailbox false 1 0 (-1).

(* src/src/iap2_bt_main.cpp:596-599 set_pairing_confirmation_control_fd *)
Definition set_pairing_confirmation_control_fd (fd : Z) (m : Mailbox) : Mailbox :=
  mkMailbox (0 <=? fd) (next_id m) (pending_id m) (pending_result m).

(** The address only if it fits the field. *)
(* src/src/iap2_bt_main.cpp:609-613 request_pairing_confirmation (address) *)
Definition address_field (address : Bytes) : Bytes :=
  if size_of address <? 18 then address ++ repeat 0 (18 - length address) else repeat 0 18.

(** [sent]: whether the packet could be sent. *)
(* src/src/iap2_bt_main.cpp:601-625 request_pairing_confirmation *)
Definition request_pairing_confirmation (padding address : Bytes) (passkey : Z) (sent : bool) (m : Mailbox)
    : option Z * option Bytes * Mailbox :=
  if negb (control_fd m) || negb (pending_id m =? 0) then (None, None, m)
  else
    let message := mkConfirmation (next_id m) passkey (address_field address) in
    let packet := 3 :: object_bytes padding message in
    let m := mkMailbox (control_fd m) (u64 (next_id m + 1)) (pending_id m) (pending_result m) in
    if negb sent then (None, Some packet, m)
    else (Some (id message), Some packet, mkMailbox (control_fd m) (next_id m) (id message) (-1)).

(* src/src/iap2_bt_main.cpp:627-638 pairing_confirmation_result *)
Definition pairing_confirmation_result (id : Z) (m : Mailbox) : option bool * Mailbox :=
  if negb (pending_id m =? id) || (pending_result m <? 0) then (None, m)
  else (Some (pending_result m =? 1), mkMailbox (control_fd m) (next_id m) 0 (-1)).

(* src/src/iap2_bt_main.cpp:640-645 answer_pairing_confirmation *)
Definition answer_pairing_confirmation (id : Z) (confirmed : bool) (m : Mailbox) : Mailbox :=
  if pending_id m =? id then mkMailbox (control_fd m) (next_id m) (pending_id m) (if confirmed then 1 else 0) else m.

(* src/src/iap2_bt_main.cpp:647-653 cancel_pairing_confirmation *)
Definition cancel_pairing_confirmation (id : Z) (m : Mailbox) : Mailbox :=
  if pending_id m =? id then mkMailbox (control_fd m) (next_id m) 0 (-1) else m.

(** What may happen to the mailbox while a question is open. *)
Inductive MailboxStep :=
| AnswerStep (id : Z) (confirmed : bool)
| CancelStep (id : Z)
| ResultStep (id : Z)
| RequestStep (padding address : Bytes) (passkey : Z) (sent : bool).

Definition mailbox_step (m : Mailbox) (s : MailboxStep) : Mailbox :=
  match s with
  | AnswerStep id confirmed => answer_pairing_confirmation id confirmed m
  | CancelStep id => cancel_pairing_confirmation id m
  | ResultStep id => (pairing_confirmation_result id m).2
  | RequestStep padding address passkey sent => (request_pairing_confirmation padding address passkey sent m).2
  end.

(** ** The media sockets *)

(** A turn of the reading loop: a stop that is seen, nothing to read, octets, or
    the end of the stream. *)
Inductive ReadTurn := StopSeen | Nothing | Received (n : nat) | StreamEnds.

(* src/src/iap2_bt_main.cpp:93-108 receive_all *)
Fixpoint receive_all (turns : list ReadTurn) (size : nat) (stream : Bytes) : option Bytes * Bytes * list ReadTurn :=
  match size, turns with
  | O, _ => (Some [], stream, turns)
  | S _, [] => (None, stream, [])
  | S _, turn :: turns =>
      match turn with
      | StopSeen => (None, stream, turns)
      | Nothing => receive_all turns size stream
      | StreamEnds => (None, stream, turns)
      | Received n =>
          match Nat.min n (Nat.min size (length stream)) with
          | O => (None, stream, turns)
          | S k => let '(rest, stream', turns') := receive_all turns (size - S k) (drop (S k) stream) in
                   (app (take (S k) stream) <$> rest, stream', turns')
          end
      end
  end.

(** The two readers differ in the limit and in the flag that stops them. *)
(* src/src/iap2_bt_main.cpp:164-177 VideoSocketReader::next *)
Definition next_frame (limit : Z) (turns : list ReadTurn) (stream : Bytes) : option Bytes * Bytes * list ReadTurn :=
  match receive_all turns 4 stream with
  | (None, stream, turns) => (None, stream, turns)
  | (Some header, stream, turns) =>
      let size := be_value header in
      if (size =? 0) || (limit <? size) then (None, stream, turns)
      else receive_all turns (Z.to_nat size) stream
  end.

Definition kVideoLimit : Z := 4 * 1024 * 1024.
(* src/src/iap2_bt_main.cpp:207-221 AudioSocketReader::next *)
Definition next_audio_frame : list ReadTurn -> Bytes -> option Bytes * Bytes * list ReadTurn := next_frame (64 * 1024).

(** ** The command line *)

(* src/src/iap2_bt_main.cpp:236-255 run_bluetooth_worker (strings) *)
Inductive TextOption :=
| MacAddress | VideoPath | CapabilitiesStore | VideoSocket | AudioSocket | GuidanceAudioSocket | SystemAudioSocket
| EventSocket | MicrophoneSocket | PairingStorePath | WifiInterface | ManagementSsid | ManagementPassphrase.

#[export] Instance text_option_eq_dec : EqDecision TextOption.
Proof. solve_decision. Defined.

(* src/src/iap2_bt_main.cpp:236-255 run_bluetooth_worker (variables) *)
Record WorkerOptions := mkWorkerOptions {
  texts : TextOption -> Bytes;
  timeout_seconds : Z;
  bootstrap : bool;
  carplay : bool;
  wifi_config : bool;
  join_wifi : bool;
  leave_wifi : bool;
  bridge : bool
}.

Definition default_worker_options : WorkerOptions := mkWorkerOptions (fun _ => []) 15 false false false false false false.

(* src/src/iap2_bt_main.cpp:257-322 run_bluetooth_worker (options with a value) *)
Definition option_names : list (string * TextOption) :=
  [("--mac", MacAddress); ("--video", VideoPath); ("--head-unit-capabilities-store", CapabilitiesStore);
   ("--video-socket", VideoSocket); ("--audio-socket", AudioSocket); ("--guidance-audio-socket", GuidanceAudioSocket);
   ("--system-audio-socket", SystemAudioSocket); ("--event-socket", EventSocket);
   ("--microphone-socket", MicrophoneSocket); ("--pairing-store", PairingStorePath);
   ("--wifi-interface", WifiInterface); ("--management-hotspot-ssid", ManagementSsid);
   ("--management-hotspot-passphrase", ManagementPassphrase)]%string.

Definition text_option (argument : Bytes) : option TextOption :=
  snd <$> find (fun entry => bytes_eqb argument (bs entry.1)) option_names.

Definition set_text (t : TextOption) (value : Bytes) (o : WorkerOptions) : WorkerOptions :=
  mkWorkerOptions (fun u => if decide (u = t) then value else texts o u) (timeout_seconds o) (bootstrap o) (carplay o)
    (wifi_config o) (join_wifi o) (leave_wifi o) (bridge o).

(* src/src/iap2_bt_main.cpp:260-267 run_bluetooth_worker (timeout) *)
Definition set_timeout (value : Bytes) (o : WorkerOptions) : WorkerOptions :=
  let t := default 15 (stoi value) in
  mkWorkerOptions (texts o) (if t <=? 0 then 15 else t) (bootstrap o) (carplay o) (wifi_config o) (join_wifi o)
    (leave_wifi o) (bridge o).

(* src/src/iap2_bt_main.cpp:268-295 run_bluetooth_worker (flags) *)
Definition set_flag (argument : Bytes) (o : WorkerOptions) : option WorkerOptions :=
  let set := mkWorkerOptions (texts o) (timeout_seconds o) in
  let flag name := bytes_eqb argument (bs name) in
  if flag "--bootstrap"%string then Some (set true (carplay o) (wifi_config o) (join_wifi o) (leave_wifi o) (bridge o))
  else if flag "--carplay"%string then Some (set true true (wifi_config o) (join_wifi o) (leave_wifi o) (bridge o))
  else if flag "--wifi-config"%string then Some (set true true true (join_wifi o) (leave_wifi o) (bridge o))
  else if flag "--join-wifi"%string then Some (set true true true true (leave_wifi o) (bridge o))
  else if flag "--leave-wifi"%string then
    Some (set (bootstrap o) (carplay o) (wifi_config o) (join_wifi o) true (bridge o))
  else if flag "--bridge"%string || flag "--preflight"%string then Some (set true true true true (leave_wifi o) true)
  else None.

(** [None]: the usage is printed. *)
(* src/src/iap2_bt_main.cpp:256-334 run_bluetooth_worker (arguments) *)
Fixpoint parse_arguments (arguments : list Bytes) (o : WorkerOptions) : option WorkerOptions :=
  match arguments with
  | [] => Some o
  | argument :: rest =>
      let continue_with_flag :=
        match set_flag argument o with Some o => parse_arguments rest o | None => None end in
      match rest with
      | value :: rest' =>
          match text_option argument with
          | Some t => parse_arguments rest' (set_text t value o)
          | None => if bytes_eqb argument (bs "--timeout") then parse_arguments rest' (set_timeout value o)
                    else continue_with_flag
          end
      | [] => continue_with_flag
      end
  end.

(** ** The run *)

(** What the run meets outside the program.  A shutdown is a stop request of the
    daemon or a signal; it is looked at in every turn and at the points named. *)
Record Surroundings := mkSurroundings {
  left : bool;                              (* [leave_with_networkmanager] *)
  paired : bool;                            (* [ensure_bluez_pairing] *)
  connected : bool;                         (* [connect_bluez_iap2] *)
  adapter_address : option Bytes;           (* [local_bluez_adapter_address] *)
  clock_deadline : Z;
  clock_start : Z;
  turns : list (bool * Turn);               (* whether a shutdown is requested, and the round *)
  shutdown_after_loop : bool;
  first_session : Z;                        (* what the AirPlay session returns *)
  shutdown_after_first : bool;
  shutdown_after_wait : bool;
  second_session : Z;
  shutdown_at_end : bool
}.

(** [join_with_networkmanager] succeeds, and the endpoint is found. *)
(* src/src/iap2_bt_main.cpp:410-433 run_bluetooth_worker (join handler) *)
Definition worker_join (interface_name : Bytes) (n : Nmcli)
    (endpoint : option Bytes) (configuration : AccessoryWifiConfiguration)
    : bool * option (Bytes * Z) * bool :=
  let '(joined, _) := join_with_networkmanager configuration interface_name n in
  if negb joined then (false, None, false)
  else match endpoint with
       | None => (false, None, true)
       | Some host => (true, Some (host, 7000), true)
       end.

(** The handler as the probe calls it: each call meets the same network; the third
    part of [worker_join], whether the Wi-Fi must be cleaned up, is left out. *)
Definition worker_wifi_join (interface_name : Bytes) (n : Nmcli) (endpoint : option Bytes) : WifiJoin :=
  {| CarPlayProbe.join_wifi c := (worker_join interface_name n endpoint c).1.1;
     join_endpoint c := (worker_join interface_name n endpoint c).1.2 |}.

(** What the destructor does once the network was joined. *)
(* src/src/iap2_bt_main.cpp:118-131 WifiCleanup::~WifiCleanup *)
Definition wifi_cleanup (joined : bool) (interface_name management_ssid management_passphrase : Bytes) (n : Nmcli) : Nmcli :=
  if negb joined then n
  else
    let '(_, n) := leave_with_networkmanager interface_name n in
    if bytes_eqb management_ssid [] then n
    else (start_management_hotspot interface_name management_ssid management_passphrase n).2.

Section Run.
Context `{Transport, Clock, Random, OpenSSL, WifiJoin}.

(** The statements that the TCP client has too are taken from there. *)
Definition client_options (o : WorkerOptions) : TcpClient.Options :=
  TcpClient.mkOptions [] [] (timeout_seconds o) (bootstrap o) (carplay o) (wifi_config o).

(* src/src/iap2_bt_main.cpp:388-409 run_bluetooth_worker (objects) *)
Definition worker_initial (o : WorkerOptions) (adapter : Bytes) (now : Z) : PhoneLink * Clients :=
  let probe := request_wifi_configuration (wifi_config o) (CarPlayProbe.attach (new_probe adapter)) in
  (start now new_link,
   (Bootstrap.attach new_bootstrap, if join_wifi o then set_wifi_join_handler true probe else probe)).

(* src/src/iap2_bt_main.cpp:439-444 run_bluetooth_worker (loop condition) *)
Definition worker_keeps_running (o : WorkerOptions) (deadline : Z) (shutdown : bool) (clock : Z)
    (w : PhoneLink * Clients) : bool :=
  negb shutdown && keep_running (client_options o) deadline clock w.

(** [None]: the rounds given are used up and the loop still runs. *)
(* src/src/iap2_bt_main.cpp:439-466 run_bluetooth_worker (loop) *)
Fixpoint worker_loop (o : WorkerOptions) (deadline : Z) (turns : list (bool * Turn)) (w : PhoneLink * Clients)
    : option (PhoneLink * Clients) :=
  match turns with
  | [] => None
  | (shutdown, t) :: turns =>
      if negb (worker_keeps_running o deadline shutdown (turn_start t) w) then Some w
      else match turn_poll t with
           | Readable [] => Some w
           | Readable bytes =>
               worker_loop o deadline turns
                 (after_poll (client_options o) (turn_now t)
                    (PhoneLink.receive (dispatch (carplay o)) bytes (turn_now t) w))
           | NotReadable => worker_loop o deadline turns (after_poll (client_options o) (turn_now t) w)
           end
  end.

(** The second attempt is made only after the first failed. *)
(* src/src/iap2_bt_main.cpp:562-579 run_bluetooth_worker (AirPlay) *)
Definition airplay_attempts (s : Surroundings) : Z :=
  let result := first_session s in
  let result := if negb (result =? 0) && negb (shutdown_after_first s) && negb (shutdown_after_wait s)
                then second_session s else result in
  if shutdown_at_end s then 128 + 15 else if result =? 0 then 0 else 1.

(* src/src/iap2_bt_main.cpp:468-479 run_bluetooth_worker (after the loop) *)
Definition after_loop (o : WorkerOptions) (s : Surroundings) (w : PhoneLink * Clients) : Z :=
  let '(l, (session, probe)) := w in
  if shutdown_after_loop s then 128 + 15
  else if bridge o && pr_done probe then
    if bytes_eqb (airplay_host probe) [] || (airplay_port probe =? 0) then 1 else airplay_attempts s
  else exit_code (client_options o) w.

(** The exit code, with the link and the clients at the end of the loop. *)
(* src/src/iap2_bt_main.cpp:336-438 run_bluetooth_worker (body) *)
Definition run_with_options (o : WorkerOptions) (s : Surroundings) : option (Z * option (PhoneLink * Clients)) :=
  if leave_wifi o then
    if bytes_eqb (texts o WifiInterface) [] then Some (2, None) else Some (if left s then 0 else 1, None)
  else if bytes_eqb (texts o MacAddress) [] then Some (2, None)
  else if (wifi_config o || join_wifi o || bridge o) && bytes_eqb (texts o WifiInterface) [] then Some (2, None)
  else if negb (paired s) then Some (1, None)
  else if negb (connected s) then Some (1, None)
  else match adapter_address s with
  | None => Some (1, None)
  | Some adapter =>
      match worker_loop o (clock_deadline s + seconds (timeout_seconds o)) (turns s)
              (worker_initial o adapter (clock_start s)) with
      | None => None
      | Some w => Some (after_loop o s w, Some w)
      end
  end.

(* src/src/iap2_bt_main.cpp:231-334 run_bluetooth_worker *)
Definition run_bluetooth_worker (arguments : list Bytes) (s : Surroundings) : option (Z * option (PhoneLink * Clients)) :=
  match parse_arguments arguments default_worker_options with
  | None => Some (2, None)
  | Some o => run_with_options o s
  end.

(** ** Facts *)

Lemma worker_loop_ok o deadline turns : forall w w',
  clients_ok (client_options o) w.2 -> worker_loop o deadline turns w = Some w' -> clients_ok (client_options o) w'.2.
Proof.
  induction turns as [|[shutdown t] turns IH]; intros w w' Hc; [done|]. cbn [worker_loop].
  destruct (negb _); [by intros [= <-]|].
  destruct (turn_poll t) as [|[|b bytes]]; [by apply IH, after_poll_ok|by intros [= <-]|].
  apply IH, after_poll_ok. destruct w as [l c].
  apply receive_client; [apply (dispatch_ok (client_options o))|exact Hc].
Qed.

Lemma worker_initial_ok o adapter now : clients_ok (client_options o) (worker_initial o adapter now).2.
Proof. split; [intros E; discriminate E|]. cbn. by destruct (join_wifi o). Qed.

Lemma set_flag_bridge argument o o' :
  set_flag argument o = Some o' -> (bridge o = true -> carplay o = true) -> bridge o' = true -> carplay o' = true.
Proof. unfold set_flag. intros E Hb. repeat case_match; simplify_eq/=; auto. Qed.

(** The bridge is only asked for together with CarPlay. *)
Lemma parse_arguments_bridge arguments : forall o o',
  parse_arguments arguments o = Some o' -> (bridge o = true -> carplay o = true) -> bridge o' = true -> carplay o' = true.
Proof.
  assert (Hlen : forall n arguments o o', (length arguments <= n)%nat ->
    parse_arguments arguments o = Some o' -> (bridge o = true -> carplay o = true) -> bridge o' = true -> carplay o' = true).
  2:{ intros. by eapply Hlen. }
  induction n as [|n IH]; intros [|a [|v rest]] o o' Hn; cbn [parse_arguments length] in *; try lia;
    try (by intros [= <-]).
  - destruct (set_flag a o) as [o1|] eqn:E; [|done]. intros [= <-] Hb. by eapply set_flag_bridge.
  - destruct (text_option a); [intros Hp Hb; eapply IH; [|exact Hp|done]; simpl in *; lia|].
    destruct (bytes_eqb a _); [intros Hp Hb; eapply IH; [|exact Hp|done]; simpl in *; lia|].
    destruct (set_flag a o) as [o1|] eqn:E; [|done]. intros Hp Hb.
    apply (IH (v :: rest) o1 o'); [simpl in *; lia|exact Hp|by eapply set_flag_bridge].
Qed.
End Run.

(** ** Theorems *)

(** The decision that stands for a question after some steps: the last answer. *)
Fixpoint decision (id : Z) (standing : option bool) (steps : list MailboxStep) : option bool :=
  match steps with
  | [] => standing
  | AnswerStep i confirmed :: steps => decision id (if i =? id then Some confirmed else standing) steps
  | _ :: steps => decision id standing steps
  end.

Definition result_of (standing : option bool) : Z :=
  match standing with None => -1 | Some true => 1 | Some false => 0 end.

Definition leaves_open (id : Z) (s : MailboxStep) : Prop := s <> CancelStep id /\ s <> ResultStep id.

Lemma mailbox_steps id standing steps : forall m,
  id <> 0 -> Forall (leaves_open id) steps -> pending_id m = id -> pending_result m = result_of standing ->
  let m' := fold_left mailbox_step steps m in
  pending_id m' = id /\ pending_result m' = result_of (decision id standing steps).
Proof.
  revert standing. induction steps as [|s steps IH]; intros standing m Hid Hs Hp Hr; [done|].
  apply Forall_cons in Hs as [[Hc Hq] Hs]. cbn [fold_left]. cbv zeta.
  destruct s as [i b|i|i|padding a k sent]; cbn [decision mailbox_step].
  - unfold answer_pairing_confirmation. rewrite Hp, (Z.eqb_sym i id).
    destruct (id =? i); apply IH; done.
  - unfold cancel_pairing_confirmation. rewrite (proj2 (Z.eqb_neq (pending_id m) i)) by congruence. by apply IH.
  - unfold pairing_confirmation_result. rewrite (proj2 (Z.eqb_neq (pending_id m) i)) by congruence. by apply IH.
  - unfold request_pairing_confirmation. rewrite (proj2 (Z.eqb_neq (pending_id m) 0)) by congruence.
    cbn [negb]. rewrite orb_true_r. by apply IH.
Qed.

(** A pairing question gets its own answer. After a question was sent, with
    any answers, cancellations, polls and further questions for other numbers in
    between, the question is answered exactly if someone answered its number, by
    the last such answer; the mailbox is empty after the answer was fetched, and
    no second question is sent before. *)
Theorem question_gets_its_answer padding a k sent m id packet m1 steps :
  is_u64 (next_id m) -> next_id m <> 0 ->
  request_pairing_confirmation padding a k sent m = (Some id, packet, m1) ->
  Forall (leaves_open id) steps ->
  let m2 := fold_left mailbox_step steps m1 in
  let '(answer, m3) := pairing_confirmation_result id m2 in
  answer = decision id None steps /\
  packet = Some (3 :: object_bytes padding (mkConfirmation id k (address_field a))) /\
  (answer <> None -> pending_id m3 = 0 /\ (pairing_confirmation_result id m3).1 = None) /\
  (forall padding a k sent, request_pairing_confirmation padding a k sent m2 = (None, None, m2)).
Proof.
  intros Hu Hn Hr Hs. cbv zeta.
  assert (id = next_id m /\ packet = Some (3 :: object_bytes padding (mkConfirmation id k (address_field a))) /\
          pending_id m1 = id /\ pending_result m1 = -1) as (-> & -> & Hp & Hq).
  { unfold request_pairing_confirmation in Hr. repeat case_match; simplify_eq/=. done. }
  pose proof (mailbox_steps _ None steps m1 Hn Hs Hp Hq) as [Hp2 Hr2].
  set (m2 := fold_left mailbox_step steps m1) in *. unfold pairing_confirmation_result at 1.
  rewrite Hp2, Z.eqb_refl, Hr2. cbn [negb orb].
  assert (Hno : forall padding a k sent, request_pairing_confirmation padding a k sent m2 = (None, None, m2)).
  { intros. unfold request_pairing_confirmation. rewrite Hp2, (proj2 (Z.eqb_neq _ _) Hn). cbn [negb]. by rewrite orb_true_r. }
  destruct (decision (next_id m) None steps) as [[]|]; cbn [result_of]; (split_and!; [done|done| |exact Hno]); try done;
    intros _; cbn; split; [done| |done|]; unfold pairing_confirmation_result; cbn [pending_id];
    by rewrite (proj2 (Z.eqb_neq 0 _)) by congruence.
Qed.

Lemma question_gets_its_answer_witness :
  let m := set_pairing_confirmation_control_fd 3 new_mailbox in
  let r := request_pairing_confirmation [0; 0] (bs "AA:BB") 123456 true m in
  let steps := [AnswerStep 7 true; AnswerStep 1 true; CancelStep 5; AnswerStep 1 false] in
  r.1.1 = Some 1 /\
  (pairing_confirmation_result 1 (fold_left mailbox_step steps r.2)).1 = Some false.
Proof.
  cbv zeta. split; [vm_compute; reflexivity|].
  pose proof (question_gets_its_answer [0; 0] (bs "AA:BB") 123456 true (set_pairing_confirmation_control_fd 3 new_mailbox)
    1 (Some (3 :: object_bytes [0; 0] (mkConfirmation 1 123456 (address_field (bs "AA:BB")))))
    (request_pairing_confirmation [0; 0] (bs "AA:BB") 123456 true (set_pairing_confirmation_control_fd 3 new_mailbox)).2
    [AnswerStep 7 true; AnswerStep 1 true; CancelStep 5; AnswerStep 1 false]) as H.
  cbv zeta in H. destruct (pairing_confirmation_result 1 _) as [answer m3]. cbn [fst].
  destruct H as [-> _]; [vm_compute; split; congruence|vm_compute; congruence|vm_compute; reflexivity| |reflexivity].
  repeat constructor; discriminate.
Defined.

(** C4. Success of the bridge means an authenticated accessory and a session that
    was completed. When the worker exits with zero after being started for the
    bridge, the device was paired and connected, the accessory proved possession of its
    certificate's key, the probe has finished with an endpoint, and the first AirPlay
    session returned zero, or it failed, no shutdown was seen then nor after the wait,
    and the second returned zero; a shutdown was seen neither after the loop nor at the end. *)
Theorem bridge_exit_0 `{Transport, Clock, Random, OpenSSL, WifiJoin} arguments s o w :
  parse_arguments arguments default_worker_options = Some o -> bridge o = true -> leave_wifi o = false ->
  run_bluetooth_worker arguments s = Some (0, w) ->
  exists l session probe signature, w = Some (l, (session, probe)) /\
    paired s = true /\ connected s = true /\
    verify_mfi_v2_signature (challenge session) signature (certificate session) = true /\
    pr_done probe = true /\ airplay_host probe <> [] /\ airplay_port probe <> 0 /\
    (first_session s = 0 \/ first_session s <> 0 /\ shutdown_after_first s = false /\
       shutdown_after_wait s = false /\ second_session s = 0) /\
    shutdown_after_loop s = false /\ shutdown_at_end s = false.
Proof.
  intros Hp Hb Hl. pose proof (parse_arguments_bridge _ _ _ Hp ltac:(done) Hb) as Hc.
  unfold run_bluetooth_worker. rewrite Hp. unfold run_with_options. rewrite Hl.
  destruct (bytes_eqb (texts o MacAddress) []); [done|].
  destruct ((wifi_config o || _ || _) && _); [done|].
  destruct (paired s) eqn:Epaired; [|done]. destruct (connected s) eqn:Econnected; [|done].
  destruct (adapter_address s) as [adapter|]; [|done].
  destruct (worker_loop _ _ _ _) as [[l [session probe]]|] eqn:El; [|done]. intros [= He <-].
  apply worker_loop_ok in El as [Ha Hd]; [|apply worker_initial_ok].
  unfold after_loop in He. destruct (shutdown_after_loop s); [done|]. rewrite Hb in He. cbn [fst snd] in *.
  destruct (pr_done probe) eqn:Ed; cbn [andb] in He;
    [|unfold exit_code in He; cbn in He; rewrite Hc, ?Ed in He; done].
  destruct (bytes_eqb (airplay_host probe) [] || _) eqn:Eh; [done|]. apply orb_false_iff in Eh as [Eh Ep].
  destruct (Ha (Hd Hc eq_refl)) as [signature Hs].
  exists l, session, probe, signature. split_and!; [done|done|done|done|done| |lia| |done|].
  - intros E. rewrite E in Eh. done.
  - unfold airplay_attempts in He. destruct (shutdown_at_end s); [done|].
    destruct (first_session s =? 0) eqn:E1; [left; lia|right]. cbn [negb andb] in He.
    destruct (shutdown_after_first s), (shutdown_after_wait s); cbn [negb andb] in He; rewrite ?E1 in He; try done.
    destruct (second_session s =? 0) eqn:E2; [|done]. split_and!; lia || done.
  - unfold airplay_attempts in He. by destruct (shutdown_at_end s).
Qed.

Module Demo.
Import Bootstrap.Demo TcpClient.Demo.
#[local] Existing Instances demo_openssl demo_clock demo_random demo_transport.

(** The saved network of the accessory is activated. *)
Definition demo_join : WifiJoin :=
  worker_wifi_join (bs "wlan0") (mkNmcli (repeat (example_process []) 6) []) (Some (bs "192.168.1.1")).

Definition wifi_message : Bytes :=
  Csm.encode kAccessoryWifiConfiguration
    (append_parameter (append_parameter (append_parameter (append_parameter [] 1 (bs "car")) 2 (bs "secret123")) 3 [2]) 4 [36]).

Definition turns : list (bool * Turn) :=
  map (fun b => (false, mkTurn 0 (Readable b) 0)) (reads ++ [frame kControlAck 7 105 1 wifi_message])
  ++ [(false, mkTurn 0 NotReadable 0)].

Definition surroundings : Surroundings :=
  mkSurroundings true true true (Some (bs "00:11:22:33:44:55")) 0 0 turns false 1 false false 0 false.

Definition arguments : list Bytes := [bs "--bridge"; bs "--mac"; bs "AA:BB:CC:DD:EE:FF"; bs "--wifi-interface"; bs "wlan0"].

Abbreviation run := (@run_bluetooth_worker demo_transport demo_clock demo_random demo_openssl demo_join arguments surroundings).
End Demo.

Lemma bridge_exit_0_witness :
  exists w, Demo.run = Some (0, w) /\
  exists l session probe signature, w = Some (l, (session, probe)) /\
    paired Demo.surroundings = true /\ connected Demo.surroundings = true /\
    @verify_mfi_v2_signature Bootstrap.Demo.demo_openssl (challenge session) signature (certificate session) = true /\
    pr_done probe = true /\ airplay_host probe <> [] /\ airplay_port probe <> 0 /\
    (first_session Demo.surroundings = 0 \/ first_session Demo.surroundings <> 0 /\
       shutdown_after_first Demo.surroundings = false /\ shutdown_after_wait Demo.surroundings = false /\
       second_session Demo.surroundings = 0) /\
    shutdown_after_loop Demo.surroundings = false /\ shutdown_at_end Demo.surroundings = false.
Proof.
  assert (option_map fst Demo.run = Some 0) as Hr by (vm_compute; reflexivity).
  destruct Demo.run as [[code w]|] eqn:E; [|discriminate]. injection Hr as ->.
  exists w. split; [reflexivity|].
  apply (@bridge_exit_0 Bootstrap.Demo.demo_transport Bootstrap.Demo.demo_clock
    Bootstrap.Demo.demo_random Bootstrap.Demo.demo_openssl Demo.demo_join Demo.arguments Demo.surroundings
    (default default_worker_options (parse_arguments Demo.arguments default_worker_options)));
    [reflexivity|vm_compute; reflexivity|vm_compute; reflexivity|exact E].
Defined.

(** ** Theorems: media frames *)

Lemma media_read_exact turns : forall size stream bytes rest turns',
  receive_all turns size stream = (Some bytes, rest, turns') -> length bytes = size /\ stream = bytes ++ rest.
Proof.
  induction turns as [|turn turns IH]; intros [|size] stream bytes rest turns'; cbn [receive_all]; try (by intros [= <- <- <-]);
    try done.
  destruct turn as [| |n|]; [done|by apply IH| |done].
  destruct (Nat.min n _) as [|k] eqn:En; [done|].
  destruct (receive_all turns (S size - S k) _) as [[o s'] t'] eqn:E.
  destruct o as [o|]; cbn; [|done]. intros [= <- <- <-]. apply IH in E as [Hl Hs].
  change (length (take (S k) stream ++ o) = S size /\ stream = (take (S k) stream ++ o) ++ s').
  rewrite <- app_assoc, <- Hs, take_drop, length_app, length_take. split; [lia|done].
Qed.

Definition brings (turn : ReadTurn) : Prop := match turn with Received (S _) => True | _ => False end.

Lemma receive_all_arrives size : forall turns stream,
  Forall brings turns -> (size <= length turns)%nat -> (size <= length stream)%nat ->
  exists rest turns', receive_all turns size stream = (Some (take size stream), rest, turns') /\
    Forall brings turns' /\ (length turns <= length turns' + size)%nat.
Proof.
  induction size as [size IH] using (well_founded_induction lt_wf). intros turns stream Ht Hl Hs.
  destruct size as [|size]; [by exists stream, turns; destruct turns; rewrite Nat.add_0_r|].
  destruct Ht as [|turn turns Hn Ht]; [simpl in Hl; lia|]. destruct turn as [| |n|]; try done.
  destruct n as [|n]; [done|]. cbn [receive_all].
  destruct (Nat.min (S n) _) as [|k] eqn:En; [lia|]. cbn [length] in Hl.
  destruct (IH (S size - S k)%nat ltac:(lia) turns (drop (S k) stream)) as (rest & turns' & -> & Ht' & Hl');
    [done|lia|rewrite length_drop; lia|].
  eexists _, _. split; [|split; [exact Ht'|cbn [length]; lia]]. f_equal. f_equal. cbn [fmap option_fmap option_map].
  f_equal. rewrite <- (take_drop (S k) stream) at 3. rewrite take_app, length_take, take_take.
  f_equal; [f_equal; lia|f_equal; lia].
Qed.

(** A media frame comes back. Reading a socket on which a frame was written
    behind its length either gives nothing or exactly this frame, with what follows
    it left for the next call; and with enough turns that bring octets it gives the
    frame. *)
Theorem media_frame_read limit turns frame rest :
  frame <> [] -> size_of frame <= limit -> size_of frame < 2 ^ 32 ->
  let stream := be_bytes 4 (size_of frame) ++ frame ++ rest in
  (forall f stream' turns', next_frame limit turns stream = (Some f, stream', turns') -> f = frame /\ stream' = rest) /\
  (Forall brings turns -> (4 + length frame <= length turns)%nat ->
   exists stream' turns', next_frame limit turns stream = (Some frame, stream', turns')).
Proof.
  intros Hf Hl Hu stream. assert (H0 : 0 < size_of frame) by (unfold size_of; destruct frame; [done|simpl; lia]).
  assert (Hv : be_value (be_bytes 4 (size_of frame)) = size_of frame) by (apply be_value_bytes_id; lia).
  assert (Hok : (size_of frame =? 0) || (limit <? size_of frame) = false) by (apply orb_false_iff; split; lia).
  unfold next_frame, stream. split.
  - intros f stream' turns'. destruct (receive_all turns 4 _) as [[[header|] s1] t1] eqn:E1; [|done].
    apply media_read_exact in E1 as [Hlen Hs]. apply app_inj_1 in Hs as [<- <-]; [|by rewrite length_be_bytes].
    rewrite Hv, Hok. intros E2. apply media_read_exact in E2 as [Hlen2 Hs].
    apply app_inj_1 in Hs as [<- <-]; [done|]. rewrite Hlen2. unfold size_of. lia.
  - intros Ht Hn. destruct (receive_all_arrives 4 turns (be_bytes 4 (size_of frame) ++ frame ++ rest))
      as (s1 & t1 & E1 & Ht1 & Hn1); [done|lia|rewrite length_app, length_be_bytes; lia|].
    rewrite E1. apply media_read_exact in E1 as [_ Hs].
    rewrite take_app_length' in Hs |- * by (by rewrite length_be_bytes). apply app_inv_head in Hs. subst s1.
    rewrite Hv, Hok. replace (Z.to_nat (size_of frame)) with (length frame) by (unfold size_of; lia).
    destruct (receive_all_arrives (length frame) t1 (frame ++ rest)) as (s2 & t2 & -> & _);
      [done|lia|rewrite length_app; lia|]. rewrite take_app_length. by eexists _, _.
Qed.

Lemma media_frame_read_witness :
  exists stream' turns', next_frame kVideoLimit (repeat (Received 2) 9) (be_bytes 4 (size_of (bs "frame")) ++ bs "frame" ++ [7])
    = (Some (bs "frame"), stream', turns').
Proof.
  apply (media_frame_read kVideoLimit (repeat (Received 2) 9) (bs "frame") [7]);
    [discriminate|vm_compute; congruence|vm_compute; reflexivity|repeat constructor|vm_compute; lia].
Defined.
