(* ===== verification/CarplayWorker.v ===== *)
(** * The CarPlay worker process

    [src/src/bridge/carplay_worker.cpp]: the messages between the daemon and the
    forked child, what the child does with a message, and the loop that follows a
    session from its start to its end.  What [poll] and [recv] return and whether
    a stop is requested is a script; the ghost trace is what the daemon did. *)

From S2P Require Import Prelude Text TcpClient BluetoothWorker.
#[local] Open Scope Z_scope.

(** ** Messages *)

(* src/src/bridge/carplay_worker.cpp:147-150 CarPlayWorker::run (request) *)
Definition request_message (arguments : list Bytes) : Bytes := 1 :: concat (map (fun a => a ++ [0]) arguments).

Definition stop_message : Bytes := [2].

(* src/src/bridge/carplay_worker.cpp:228-235 CarPlayWorker::answer_pairing_confirmation (message) *)
Definition answer_message (padding : Bytes) (m : PairingConfirmationMessage) (confirmed : bool) : Bytes :=
  4 :: object_bytes padding m ++ [if confirmed then 1 else 0].

(* src/src/bridge/carplay_worker.cpp:93-96 CarPlayWorker::CarPlayWorker (response) *)
Definition result_message (result : Z) : Bytes := 2 :: le_bytes 4 (u32 result).

(** A C string and what is behind its terminator; without one the reads leave the
    buffer, and the whole of it is taken. *)
Fixpoint c_string (buffer : Bytes) : Bytes * Bytes :=
  match buffer with
  | [] => ([], [])
  | c :: buffer => if c =? 0 then ([], buffer) else let '(s, rest) := c_string buffer in (c :: s, rest)
  end.

(** [left]: how far the received octets reach. *)
(* src/src/bridge/carplay_worker.cpp:76-85 CarPlayWorker::CarPlayWorker (arguments) *)
Fixpoint request_arguments (fuel : nat) (buffer : Bytes) (left : Z) : list Bytes :=
  match fuel with
  | O => []
  | S fuel =>
      if left <=? 0 then []
      else let '(argument, rest) := c_string buffer in
           argument :: request_arguments fuel rest (left - (size_of argument + 1))
  end.

(** What the child does with a message. *)
Inductive ChildCommand :=
| Leave
| StopSession
| AnswerConfirmation (id : Z) (confirmed : bool)
| StartSession (arguments : list Bytes)
| Ignored.

(** [buffer] is the whole array, with what earlier messages left behind the [count]
    octets received. *)
(* src/src/bridge/carplay_worker.cpp:56-98 CarPlayWorker::CarPlayWorker (child) *)
Definition child_command (buffer : Bytes) (count : Z) : ChildCommand :=
  if count <=? 0 then Leave
  else if byte_at buffer 0 =? 2 then StopSession
  else if (byte_at buffer 0 =? 4) && (count =? 1 + kConfirmationSize + 1) then
    AnswerConfirmation (id (object_of (subspan 1 32 buffer))) (negb (byte_at buffer 33 =? 0))
  else if negb (byte_at buffer 0 =? 1) then Ignored
  else StartSession (request_arguments (Z.to_nat count) (drop 1 buffer) (count - 1)).

(** ** A session *)

(** A round of the loop: whether the deadline has passed, what [poll] reports, and
    whether a stop is requested or the phone gone. *)
Record Round := mkRound {
  late : bool;
  hangup : bool;
  printed : option Bytes;
  message : option Bytes;   (* none: the control socket is not readable *)
  stop : bool
}.

Inductive WorkerEvent :=
| SentRequest (request : Bytes)
| SentStop
| KilledGroup
| Printed (output : Bytes)
| ConnectionLost
| Reaped
| Asked (m : PairingConfirmationMessage)
| PairingReset.

(** [stopping] and whether [stop_deadline] is set. *)
Record Stopping := mkStopping { stopping : bool; deadline_set : bool }.

(** An [int] of four octets. *)
Definition int_of (bytes : Bytes) : Z := let v := le_value bytes in if v <? 2 ^ 31 then v else v - 2 ^ 32.

(** What a message from the child does: the session goes on, or ends with a result. *)
(* src/src/bridge/carplay_worker.cpp:192-213 CarPlayWorker::run (message) *)
Definition on_message (bytes : Bytes) : list WorkerEvent * option Z :=
  if (byte_at bytes 0 =? 3) && (size_of bytes =? 1 + kConfirmationSize) then ([Asked (object_of (drop 1 bytes))], None)
  else if (size_of bytes =? 1 + 4) && (byte_at bytes 0 =? 2) then ([PairingReset], Some (int_of (drop 1 bytes)))
  else ([], Some 1).

(* src/src/bridge/carplay_worker.cpp:160-170 CarPlayWorker::run (escalation) *)
Definition escalate (r : Round) (s : Stopping) : list WorkerEvent * Stopping :=
  if stopping s && deadline_set s && late r then ([KilledGroup], mkStopping true false) else ([], s).

(* src/src/bridge/carplay_worker.cpp:216-222 CarPlayWorker::run (stop) *)
Definition stop_session (r : Round) (s : Stopping) : list WorkerEvent * Stopping :=
  if negb (stopping s) && stop r then ([SentStop], mkStopping true true) else ([], s).

(** [None]: the rounds are used up and the session still runs.  A confirmation
    starts the next round at once; every other message ends the session. *)
(* src/src/bridge/carplay_worker.cpp:159-224 CarPlayWorker::run (loop) *)
Fixpoint run_loop (rounds : list Round) (s : Stopping) : list WorkerEvent * option Z :=
  match rounds with
  | [] => ([], None)
  | r :: rounds =>
      let '(killed, s) := escalate r s in
      if hangup r then (killed ++ [ConnectionLost; Reaped], Some 1)
      else
        let output := match printed r with Some o => [Printed o] | None => [] end in
        match message r with
        | Some bytes =>
            match on_message bytes with
            | (events, Some result) => (killed ++ output ++ events, Some result)
            | (events, None) =>
                let '(rest, result) := run_loop rounds s in (killed ++ output ++ events ++ rest, result)
            end
        | None =>
            let '(sent, s) := stop_session r s in
            let '(rest, result) := run_loop rounds s in (killed ++ output ++ sent ++ rest, result)
        end
  end.

(** [available]: the child was forked; [sent]: the request could be sent. *)
(* src/src/bridge/carplay_worker.cpp:139-225 CarPlayWorker::run *)
Definition run_worker (available sent : bool) (arguments : list Bytes) (rounds : list Round)
    : list WorkerEvent * option Z :=
  if negb available then ([], Some 1)
  else if 8192 <? size_of (request_message arguments) then ([], Some 1)
  else if negb sent then ([SentRequest (request_message arguments)], Some 1)
  else let '(events, result) := run_loop rounds (mkStopping false false) in
       (SentRequest (request_message arguments) :: events, result).

(** ** Theorems: messages *)

Lemma c_string_terminated a rest : Forall (fun c => c <> 0) a -> c_string (a ++ 0 :: rest) = (a, rest).
Proof.
  induction 1 as [|c a Hc Ha IH]; [done|]. cbn [app c_string]. by rewrite (proj2 (Z.eqb_neq c 0) Hc), IH.
Qed.

Lemma request_arguments_read args : forall fuel stale,
  Forall (Forall (fun c => c <> 0)) args -> (length args < fuel)%nat ->
  request_arguments fuel (concat (map (fun a => a ++ [0]) args) ++ stale)
    (size_of (concat (map (fun a => a ++ [0]) args))) = args.
Proof.
  induction args as [|a args IH]; intros [|fuel] stale Ha Hf; cbn [length] in Hf; try lia; [done|].
  apply Forall_cons in Ha as [Ha Hargs]. cbn [map concat request_arguments].
  rewrite !size_app, size_cons. change (size_of (@nil Z)) with 0.
  pose proof (size_nonneg a). pose proof (size_nonneg (concat (map (fun a => a ++ [0]) args))).
  rewrite (proj2 (Z.leb_gt _ 0)) by lia.
  rewrite <- !app_assoc. cbn [app]. rewrite c_string_terminated by done. f_equal.
  replace (_ - _) with (size_of (concat (map (fun a => a ++ [0]) args))) by lia. apply IH; [done|lia].
Qed.

Lemma request_length args : (length args <= length (concat (map (fun a => a ++ [0%Z]) args)))%nat.
Proof. induction args as [|a args IH]; cbn [map concat length]; [lia|]. rewrite !length_app. cbn. lia. Qed.

(** The child starts what the daemon asked for. Arguments without a zero octet,
    empty ones included, arrive as they are, whatever an earlier message left in the
    buffer. *)
Theorem request_reaches_child args stale :
  Forall (Forall (fun c => c <> 0)) args ->
  child_command (request_message args ++ stale) (size_of (request_message args)) = StartSession args.
Proof.
  intros Ha. unfold child_command, request_message.
  set (body := concat (map (fun a => a ++ [0]) args)). rewrite size_cons. pose proof (size_nonneg body).
  rewrite (proj2 (Z.leb_gt _ 0)) by lia. cbn [app byte_at nth]. cbn [Z.eqb Pos.eqb andb negb drop].
  f_equal. replace (1 + size_of body - 1) with (size_of body) by lia. apply request_arguments_read; [done|].
  pose proof (request_length args) as Hl. unfold size_of, body. lia.
Qed.

Lemma request_reaches_child_witness :
  child_command (request_message [bs "--mac"; []; bs "x"] ++ [7; 0; 7]) (size_of (request_message [bs "--mac"; []; bs "x"]))
  = StartSession [bs "--mac"; []; bs "x"].
Proof. apply request_reaches_child. repeat constructor; discriminate. Defined.

Definition confirmation_ok (padding : Bytes) (m : PairingConfirmationMessage) : Prop :=
  is_u64 (id m) /\ is_u 32 (passkey m) /\ length (address m) = 18%nat /\ length padding = 2%nat.

Lemma object_of_bytes padding m rest : confirmation_ok padding m -> object_of (object_bytes padding m ++ rest) = m.
Proof.
  intros (Hi & Hp & Ha & Hpad). unfold object_of, object_bytes.
  assert (H8 : length (le_bytes 8 (id m)) = 8%nat) by apply length_le_bytes.
  assert (H4 : length (le_bytes 4 (passkey m)) = 4%nat) by apply length_le_bytes.
  rewrite <- !app_assoc. rewrite (take_app_length' _ _ 8) by done.
  rewrite (subspan_app' (le_bytes 8 (id m)) (le_bytes 4 (passkey m))) by done.
  rewrite (app_assoc (le_bytes 8 _)), (subspan_app' (le_bytes 8 (id m) ++ le_bytes 4 (passkey m)) (address m)).
  2:{ rewrite length_app. lia. } 2:{ done. }
  rewrite !le_value_bytes by (apply Hi || apply Hp). by destruct m.
Qed.

Lemma length_object padding m : confirmation_ok padding m -> length (object_bytes padding m) = 32%nat.
Proof. intros (_ & _ & Ha & Hp). unfold object_bytes. rewrite !length_app, !length_le_bytes. lia. Qed.

(** Question and answer cross the socket. The daemon sees the question that the
    child sent, and its answer reaches the child's mailbox with the question's
    number and the decision. *)
Theorem confirmation_crosses padding m confirmed stale :
  confirmation_ok padding m ->
  on_message (3 :: object_bytes padding m) = ([Asked m], None) /\
  child_command (answer_message padding m confirmed ++ stale) (size_of (answer_message padding m confirmed))
    = AnswerConfirmation (id m) confirmed.
Proof.
  intros Hm. pose proof (length_object _ _ Hm) as Hl. split.
  - unfold on_message. rewrite size_cons. unfold size_of. rewrite Hl. cbn -[object_of object_bytes].
    change (1 + Z.of_nat 32 =? 1 + kConfirmationSize) with true. rewrite drop_0.
    rewrite <- (app_nil_r (object_bytes padding m)). by rewrite object_of_bytes.
  - unfold answer_message. set (P := object_bytes padding m) in *. set (f := if confirmed then 1 else 0).
    assert (Hb : (4 :: P ++ [f]) ++ stale = [4] ++ P ++ f :: stale) by (cbn [app]; by rewrite <- app_assoc).
    rewrite Hb. assert (Hn : size_of (4 :: P ++ [f]) = 34).
    { rewrite size_cons, size_app. unfold size_of at 1. rewrite Hl. done. }
    unfold child_command. rewrite Hn. cbn -[object_of subspan byte_at]. change (byte_at (4 :: _) 0) with 4.
    change (AnswerConfirmation (id (object_of (subspan 1 32 ([4] ++ P ++ f :: stale))))
      (negb (byte_at ([4] ++ P ++ f :: stale) 33 =? 0)) = AnswerConfirmation (id m) confirmed).
    rewrite (subspan_app' ([4%Z] : Bytes) P) by done. rewrite <- (app_nil_r P) at 1. unfold P at 1.
    rewrite object_of_bytes by done. f_equal. rewrite app_assoc.
    replace 33%nat with (Nat.add (length ([4%Z] ++ P)) 0) by (rewrite length_app, Hl; done).
    rewrite byte_at_app_r. unfold f. by destruct confirmed.
Qed.

Lemma confirmation_crosses_witness :
  let m := mkConfirmation 1 123456 (address_field (bs "AA:BB")) in
  on_message (3 :: object_bytes [0; 0] m) = ([Asked m], None) /\
  child_command (answer_message [0; 0] m true ++ [5]) (size_of (answer_message [0; 0] m true)) = AnswerConfirmation 1 true.
Proof. cbv zeta. apply confirmation_crosses. repeat split; vm_compute; congruence. Defined.

(** ** Theorems: the session *)

Definition is_stop (e : WorkerEvent) : bool := match e with SentStop => true | _ => false end.
Definition is_kill (e : WorkerEvent) : bool := match e with KilledGroup => true | _ => false end.
Definition count (f : WorkerEvent -> bool) (events : list WorkerEvent) : nat := length (List.filter f events).

Lemma count_app f a b : count f (a ++ b) = (count f a + count f b)%nat.
Proof. unfold count. by rewrite List.filter_app, length_app. Qed.

(** The state of the loop behind some rounds that do not end the session. *)
Fixpoint state_after (rounds : list Round) (s : Stopping) : Stopping :=
  match rounds with
  | [] => s
  | r :: rounds =>
      let s := (escalate r s).2 in
      state_after rounds (match message r with Some _ => s | None => (stop_session r s).2 end)
  end.

Lemma run_loop_app a : forall b s,
  run_loop (a ++ b) s =
  match run_loop a s with
  | (events, Some result) => (events, Some result)
  | (events, None) => let '(rest, result) := run_loop b (state_after a s) in (events ++ rest, result)
  end.
Proof.
  induction a as [|r a IH]; intros b s; cbn [app run_loop state_after]; [by destruct (run_loop b s)|].
  destruct (escalate r s) as [killed s1]. cbn [snd]. destruct (hangup r); [done|].
  destruct (message r) as [bytes|].
  - destruct (on_message bytes) as [events [result|]]; [done|]. rewrite IH.
    destruct (run_loop a s1) as [e1 [r1|]]; [done|]. destruct (run_loop b _) as [e2 r2]. by rewrite <- !app_assoc.
  - destruct (stop_session r s1) as [sent s2]. cbn [snd]. rewrite IH.
    destruct (run_loop a s2) as [e1 [r1|]]; [done|]. destruct (run_loop b _) as [e2 r2]. by rewrite <- !app_assoc.
Qed.

(** How often the child may still be told to stop, and be killed. *)
Definition stops_left (s : Stopping) : nat := if stopping s then 0 else 1.
Definition kills_left (s : Stopping) : nat := if stopping s && negb (deadline_set s) then 0 else 1.
Definition state_ok (s : Stopping) : Prop := deadline_set s = true -> stopping s = true.

(** A sequence of events in which every kill comes behind a stop, neither of them
    twice; [s]: what has happened before it. *)
Definition in_protocol (s : Stopping) (events : list WorkerEvent) : Prop :=
  (count is_stop events <= stops_left s)%nat /\ (count is_kill events <= kills_left s)%nat /\
  forall before after, events = before ++ KilledGroup :: after -> stopping s = true \/ SentStop ∈ before.

Lemma in_protocol_quiet s events rest :
  Forall (fun e => is_stop e = false /\ is_kill e = false) events -> in_protocol s rest -> in_protocol s (events ++ rest).
Proof.
  induction 1 as [|e events [Hs Hk] He IH]; intros Hr; [done|]. destruct (IH Hr) as (H1 & H2 & H3).
  unfold in_protocol, count in *. cbn [app List.filter]. rewrite Hs, Hk. split_and!; [done|done|].
  intros [|e' before] after [= -> E]; [discriminate Hk|]. destruct (H3 _ _ E) as [|]; [by left|right; by apply elem_of_cons; right].
Qed.

Lemma in_protocol_stop rest : in_protocol (mkStopping true true) rest -> in_protocol (mkStopping false false) (SentStop :: rest).
Proof.
  intros (H1 & H2 & H3). unfold in_protocol, count, stops_left, kills_left in *. cbn in *. split_and!; [lia|lia|].
  intros [|e before] after [= <- E]. right. apply elem_of_cons. by left.
Qed.

Lemma in_protocol_kill rest : in_protocol (mkStopping true false) rest -> in_protocol (mkStopping true true) (KilledGroup :: rest).
Proof. intros (H1 & H2 & _). unfold in_protocol, count, stops_left, kills_left in *. cbn in *. split_and!; [lia|lia|by left]. Qed.

Lemma message_quiet bytes : Forall (fun e => is_stop e = false /\ is_kill e = false) (on_message bytes).1.
Proof. unfold on_message. repeat case_match; repeat constructor. Qed.

Lemma escalate_ok r s rest :
  state_ok s -> state_ok (escalate r s).2 /\ (in_protocol (escalate r s).2 rest -> in_protocol s ((escalate r s).1 ++ rest)).
Proof.
  unfold escalate. destruct s as [[] []]; cbn; destruct (late r); cbn; intros Hs; (split; [try done|]); try done; try (by intros).
  apply in_protocol_kill.
Qed.

Lemma stop_ok r s rest :
  state_ok s -> state_ok (stop_session r s).2 /\ (in_protocol (stop_session r s).2 rest -> in_protocol s ((stop_session r s).1 ++ rest)).
Proof.
  unfold stop_session. destruct s as [[] []]; cbn; destruct (stop r); cbn; intros Hs; (split; [try done|]); try done; try (by intros);
    try (specialize (Hs eq_refl); discriminate). apply in_protocol_stop.
Qed.

Lemma run_loop_protocol rounds : forall s, state_ok s -> in_protocol s (run_loop rounds s).1.
Proof.
  induction rounds as [|r rounds IH]; intros s Hs.
  { repeat split; try (unfold count; cbn; lia). by intros [|? ?] ? [=]. }
  cbn [run_loop]. destruct (escalate_ok r s [] Hs) as [Hs1 _].
  pose proof (fun rest => proj2 (escalate_ok r s rest Hs)) as Hk.
  destruct (escalate r s) as [killed s1]. cbn [fst snd] in *.
  assert (in_protocol s1 []) as Hnil by (repeat split; [unfold count; cbn; lia..|by intros [|? ?] ? [=]]).
  destruct (hangup r).
  { apply Hk. rewrite <- (app_nil_r [ConnectionLost; Reaped]). apply in_protocol_quiet; [by repeat constructor|done]. }
  assert (Forall (fun e => is_stop e = false /\ is_kill e = false) (match printed r with Some o => [Printed o] | None => [] end)) as Ho
    by (destruct (printed r); repeat constructor).
  destruct (message r) as [bytes|].
  - pose proof (message_quiet bytes) as Hm. destruct (on_message bytes) as [events [result|]]; cbn [fst] in *.
    + apply Hk, in_protocol_quiet; [done|]. rewrite <- (app_nil_r events). by apply in_protocol_quiet.
    + pose proof (IH s1 Hs1) as Hr. destruct (run_loop rounds s1) as [rest result].
      apply Hk, in_protocol_quiet; [done|]. by apply in_protocol_quiet.
  - destruct (stop_ok r s1 [] Hs1) as [Hs2 _]. pose proof (fun rest => proj2 (stop_ok r s1 rest Hs1)) as Ht.
    destruct (stop_session r s1) as [sent s2]. cbn [fst snd] in *. pose proof (IH s2 Hs2) as Hr.
    destruct (run_loop rounds s2) as [rest result]. apply Hk, in_protocol_quiet; [done|]. by apply Ht.
Qed.

(** C26. The child is killed only after it was asked to stop. In every session the
    stop command is sent at most once, the process group is killed at most once,
    and only after the stop command was sent. *)
Theorem kill_follows_stop available sent arguments rounds :
  let events := (run_worker available sent arguments rounds).1 in
  (count is_stop events <= 1)%nat /\ (count is_kill events <= 1)%nat /\
  forall before after, events = before ++ KilledGroup :: after -> SentStop ∈ before.
Proof.
  assert (Hnone : forall events, Forall (fun e => is_stop e = false /\ is_kill e = false) events ->
    in_protocol (mkStopping false false) events).
  { intros events He. rewrite <- (app_nil_r events). apply in_protocol_quiet; [done|].
    repeat split; try (unfold count; cbn; lia). by intros [|? ?] ? [=]. }
  assert (in_protocol (mkStopping false false) (run_worker available sent arguments rounds).1) as (H1 & H2 & H3).
  { unfold run_worker. destruct (negb available); [by apply Hnone|]. destruct (8192 <? _); [by apply Hnone|].
    destruct (negb sent); [apply Hnone; by repeat constructor|].
    pose proof (run_loop_protocol rounds (mkStopping false false) ltac:(done)) as Hp.
    destruct (run_loop rounds _) as [events result]. apply (in_protocol_quiet _ [_]); [by repeat constructor|done]. }
  cbv zeta. split_and!; [exact H1|exact H2|]. intros before after E. by destruct (H3 _ _ E).
Qed.

(** A stop was sent, and the deadline stands or the child was killed. *)
Definition doomed (s : Stopping) (events : list WorkerEvent) : Prop :=
  stopping s = true /\ (deadline_set s = true \/ KilledGroup ∈ events).

Lemma doomed_round r s past events :
  run_loop [r] s = (events, None) -> doomed s past ->
  doomed (state_after [r] s) (past ++ events) /\ (late r = true -> KilledGroup ∈ past ++ events).
Proof.
  intros Hr [Hs Hd]. destruct s as [st d]; cbn in Hs; subst st. cbn [state_after run_loop] in *.
  unfold doomed. rewrite !elem_of_app. unfold escalate, stop_session in *. cbn [stopping deadline_set andb] in *.
  destruct d; cbn [andb] in *; [destruct (late r)|destruct (late r)]; cbn [fst snd stopping deadline_set negb andb] in *;
    (destruct (hangup r); [done|]); (destruct (message r) as [bytes|]; [destruct (on_message bytes) as [ev [|]]; [done|]|]);
    injection Hr as <-; cbn [stopping deadline_set app]; rewrite ?elem_of_cons; destruct Hd as [Hd|Hd]; try discriminate Hd; intuition congruence.
Qed.

Lemma doomed_rounds rounds : forall s past events,
  run_loop rounds s = (events, None) -> doomed s past -> doomed (state_after rounds s) (past ++ events).
Proof.
  induction rounds as [|r rounds IH]; intros s past events; [intros [= <-]; by rewrite app_nil_r|].
  change (r :: rounds) with ([r] ++ rounds). rewrite run_loop_app.
  destruct (run_loop [r] s) as [e1 [|]] eqn:E1; [done|]. destruct (run_loop rounds _) as [e2 o] eqn:E2. intros [= <- ->] Hd.
  apply (doomed_round r s past e1 E1) in Hd as [Hd _]. rewrite app_assoc. exact (IH _ _ _ E2 Hd).
Qed.

Lemma stop_seen r s past events :
  state_ok s -> run_loop [r] s = (events, None) -> stop r = true -> message r = None -> (stopping s = true -> doomed s past) ->
  doomed (state_after [r] s) (past ++ events).
Proof.
  intros Hok Hr Hstop Hm Hd. destruct (stopping s) eqn:Es; [exact (proj1 (doomed_round r s past events Hr (Hd eq_refl)))|].
  destruct s as [st d]; cbn in Es; subst st. destruct d; [specialize (Hok eq_refl); discriminate|].
  cbn [state_after run_loop] in *. unfold escalate, stop_session in *. cbn [stopping deadline_set andb negb fst snd] in *.
  rewrite Hm, Hstop in *. cbn. split; [done|by left].
Qed.

Lemma state_after_ok rounds : forall s events,
  run_loop rounds s = (events, None) -> state_ok s ->
  state_ok (state_after rounds s) /\ (stopping s = false -> stopping (state_after rounds s) = true -> doomed (state_after rounds s) events).
Proof.
  induction rounds as [|r rounds IH]; intros s events; [intros [= <-] Hs; split; [done|cbn; congruence]|].
  change (r :: rounds) with ([r] ++ rounds). rewrite run_loop_app.
  destruct (run_loop [r] s) as [e1 [|]] eqn:E1; [done|]. destruct (run_loop rounds _) as [e2 o] eqn:E2. intros [= <- ->] Hs.
  assert (state_ok (state_after [r] s)) as Hs1.
  { cbn [state_after]. pose proof (proj1 (escalate_ok r s [] Hs)) as H1. destruct (message r); [done|]. by apply stop_ok. }
  destruct (IH _ _ E2 Hs1) as [Hok Hd]. split; [exact Hok|]. intros Hf Ht.
  change (state_after ([r] ++ rounds) s) with (state_after rounds (state_after [r] s)) in *.
  destruct (stopping (state_after [r] s)) eqn:Es.
  - apply (doomed_rounds rounds _ e1 e2 E2).
    destruct s as [st d]; cbn in Hf; subst st. cbn [state_after run_loop] in *.
    unfold escalate, stop_session in *. cbn [stopping deadline_set andb negb fst snd] in *.
    destruct (message r); [discriminate Es|]. destruct (stop r); [|discriminate Es]. split; [done|by left].
  - destruct (Hd eq_refl Ht) as [H1 [H2|H2]]; (split; [done|]); [by left|right; apply elem_of_app; by right].
Qed.

(** C27. A session that is told to stop ends. If a stop is seen in some round, the
    deadline has passed in a later one, and the death of a killed child shows in
    the round after it, then the session has ended with a result, whatever the
    child sends or leaves out. *)
Theorem stopped_session_ends before r middle k next after :
  stop r = true -> message r = None -> late k = true ->
  (KilledGroup ∈ (run_loop (before ++ [r] ++ middle ++ [k]) (mkStopping false false)).1 -> hangup next = true) ->
  exists result, (run_loop ((before ++ [r] ++ middle ++ [k]) ++ next :: after) (mkStopping false false)).2 = Some result.
Proof.
  intros Hstop Hm Hl Hdies. rewrite run_loop_app.
  destruct (run_loop (before ++ [r] ++ middle ++ [k]) _) as [events [result|]] eqn:E; [by exists result|].
  assert (KilledGroup ∈ events) as Hk.
  { rewrite run_loop_app in E. destruct (run_loop before _) as [e1 [|]] eqn:E1; [done|].
    destruct (run_loop ([r] ++ _) _) as [e2 o] eqn:E2. injection E as <- ->.
    rewrite run_loop_app in E2. destruct (run_loop [r] _) as [e3 [|]] eqn:E3; [done|].
    destruct (run_loop (middle ++ [k]) _) as [e4 o] eqn:E4. injection E2 as <- ->.
    rewrite run_loop_app in E4. destruct (run_loop middle _) as [e5 [|]] eqn:E5; [done|].
    destruct (run_loop [k] _) as [e6 o] eqn:E6. injection E4 as <- ->.
    destruct (state_after_ok before _ _ E1 ltac:(done)) as [Hok Hd].
    pose proof (stop_seen r _ e1 e3 Hok E3 Hstop Hm (Hd eq_refl)) as Hd1.
    pose proof (doomed_rounds _ _ _ _ E5 Hd1) as Hd2.
    pose proof (proj2 (doomed_round k _ _ _ E6 Hd2) Hl) as Hk. rewrite <- !app_assoc in Hk. exact Hk. }
  cbn [run_loop]. destruct (escalate next _) as [killed s1]. rewrite (Hdies Hk). by exists 1.
Qed.

Lemma stopped_session_ends_witness :
  let r := mkRound false false None None true in
  let k := mkRound true false None None true in
  let next := mkRound true true None None true in
  exists result, (run_loop (([] ++ [r] ++ [r] ++ [k]) ++ [next]) (mkStopping false false)).2 = Some result.
Proof. cbv zeta. apply stopped_session_ends; reflexivity. Defined.

(** After the child was killed it is not started again: every later request fails
    to be sent, and the session ends with 1 at once. *)
Example no_new_child arguments rounds :
  run_worker true false arguments rounds
  = (if 8192 <? size_of (request_message arguments) then [] else [SentRequest (request_message arguments)], Some 1).
Proof. unfold run_worker. cbn [negb]. by destruct (8192 <? _). Qed.
