(* ===== verification/WorkerSessions.v ===== *)
(** * The sessions of the worker's child

    The two processes of [src/src/bridge/carplay_worker.cpp] together: the daemon runs one
    session after the other and asks to stop the one that runs, the child starts a
    thread for each request and raises the flag that the session looks at
    ([src/src/iap2_bt_main.cpp]).  The messages are on their way in both directions,
    each in order, while both go on. *)

From stdpp Require Import option relations.
From S2P Require Import Prelude Text BluetoothWorker CarplayWorker.
#[local] Open Scope Z_scope.

(** ** The messages *)

Inductive Down := Request (arguments : list Bytes) | Stop | Answer (padding : Bytes) (m : PairingConfirmationMessage) (confirmed : bool).
Inductive Up := Question (padding : Bytes) (m : PairingConfirmationMessage) | Result (r : Z).

Definition down_bytes (m : Down) : Bytes :=
  match m with
  | Request arguments => request_message arguments
  | Stop => stop_message
  | Answer padding m confirmed => answer_message padding m confirmed
  end.

Definition up_bytes (m : Up) : Bytes :=
  match m with
  | Question padding m => 3 :: object_bytes padding m
  | Result r => result_message r
  end.

(** ** The child *)

(** The flag of the signal handler, the flag of the worker, and the sessions that run,
    by the number of their request. *)
(* src/src/iap2_bt_main.cpp:32-33 signal_shutdown_requested, worker_stop_requested *)
Record Child := mkChild { signalled : bool; stop_requested : bool; sessions : list nat }.

(* src/src/iap2_bt_main.cpp:39-39 request_shutdown *)
Definition request_shutdown (c : Child) : Child := mkChild true (stop_requested c) (sessions c).

(* src/src/iap2_bt_main.cpp:41-43 shutdown_requested *)
Definition shutdown_requested (c : Child) : bool := signalled c || stop_requested c.

(* src/src/iap2_bt_main.cpp:588-590 request_bluetooth_worker_stop *)
Definition request_bluetooth_worker_stop (c : Child) : Child := mkChild (signalled c) true (sessions c).

(* src/src/iap2_bt_main.cpp:592-594 reset_bluetooth_worker_stop *)
Definition reset_bluetooth_worker_stop (c : Child) : Child := mkChild (signalled c) false (sessions c).

(** A message in the buffer, with what earlier ones left behind it. *)
(* src/src/bridge/carplay_worker.cpp:57-98 CarPlayWorker::CarPlayWorker (child loop) *)
Definition child_receives (n : nat) (buffer : Bytes) (count : Z) (c : Child) : Child :=
  match child_command buffer count with
  | StopSession => request_bluetooth_worker_stop c
  | StartSession _ => let c := reset_bluetooth_worker_stop c in mkChild (signalled c) (stop_requested c) (sessions c ++ [n])
  | _ => c
  end.

(** ** Both processes *)

(** The session that the daemon runs, with whether it asked to stop it; the number of
    the next one; what is on the way, each message with the number of the session of
    then; and as ghosts how sessions ended, which results the daemon has, and whether the
    child has had a signal. *)
Record System := mkSystem {
  running : option (nat * bool);
  next : nat;
  down : list (nat * Down);
  child : Child;
  up : list (nat * Up);
  ended : list (nat * Z);
  results : list (nat * Z);
  interrupted : bool
}.

Definition start : System := mkSystem None 0 [] (mkChild false false []) [] [] [] false.

Definition is_int (r : Z) : Prop := - 2 ^ 31 <= r < 2 ^ 31.

(** What the daemon does with a message of the child. *)
Definition hear (n : nat) (bytes : Bytes) (s : System) : option (nat * bool) * list (nat * Z) :=
  match (on_message bytes).2 with
  | Some r => (None, results s ++ [(n, r)])
  | None => (running s, results s)
  end.

Inductive system_step : System -> System -> Prop :=
| daemon_starts arguments n d c u e r i :
    size_of (request_message arguments) <= 8192 ->
    system_step (mkSystem None n d c u e r i) (mkSystem (Some (n, false)) (S n) (d ++ [(n, Request arguments)]) c u e r i)
| daemon_stops k n d c u e r i :
    system_step (mkSystem (Some (k, false)) n d c u e r i) (mkSystem (Some (k, true)) n (d ++ [(k, Stop)]) c u e r i)
| daemon_answers k padding m confirmed run n d c u e r i :
    confirmation_ok padding m ->
    system_step (mkSystem run n d c u e r i) (mkSystem run n (d ++ [(k, Answer padding m confirmed)]) c u e r i)
| daemon_hears k b m j n d c u e r i run r' :
    hear k (up_bytes m) (mkSystem (Some (k, b)) n d c ((j, m) :: u) e r i) = (run, r') ->
    system_step (mkSystem (Some (k, b)) n d c ((j, m) :: u) e r i) (mkSystem run n d c u e r' i)
| child_takes k m stale run n d c u e r i :
    system_step (mkSystem run n ((k, m) :: d) c u e r i)
      (mkSystem run n d (child_receives k (down_bytes m ++ stale) (size_of (down_bytes m)) c) u e r i)
| child_signalled run n d c u e r i :
    system_step (mkSystem run n d c u e r i) (mkSystem run n d (request_shutdown c) u e r true)
| session_asks k padding m run n d c u e r i :
    k ∈ sessions c -> confirmation_ok padding m ->
    system_step (mkSystem run n d c u e r i) (mkSystem run n d c (u ++ [(k, Question padding m)]) e r i)
| session_ends k result run n d c u e r i :
    k ∈ sessions c -> is_int result ->
    system_step (mkSystem run n d c u e r i)
      (mkSystem run n d (mkChild (signalled c) (stop_requested c) (filter (fun j => j <> k) (sessions c)))
        (u ++ [(k, Result result)]) (e ++ [(k, result)]) r i).

Inductive system_reachable : System -> Prop :=
| system_start : system_reachable start
| system_next s s' : system_reachable s -> system_step s s' -> system_reachable s'.

(** ** Facts: the messages *)

Lemma takes_request n arguments stale c :
  child_receives n (down_bytes (Request arguments) ++ stale) (size_of (down_bytes (Request arguments))) c
  = mkChild (signalled c) false (sessions c ++ [n]).
Proof.
  unfold child_receives, child_command. cbn [down_bytes]. unfold request_message. rewrite size_cons.
  set (body := concat _). pose proof (size_nonneg body). rewrite (proj2 (Z.leb_gt _ 0)) by lia.
  by change (byte_at ((1 :: body) ++ stale) 0) with 1.
Qed.

Lemma takes_stop n stale c :
  child_receives n (down_bytes Stop ++ stale) (size_of (down_bytes Stop)) c = request_bluetooth_worker_stop c.
Proof. done. Qed.

Lemma takes_answer n padding m confirmed stale c :
  child_receives n (down_bytes (Answer padding m confirmed) ++ stale) (size_of (down_bytes (Answer padding m confirmed))) c = c.
Proof.
  unfold child_receives, child_command. cbn [down_bytes]. unfold answer_message. rewrite size_cons.
  set (body := _ ++ _). pose proof (size_nonneg body). rewrite (proj2 (Z.leb_gt _ 0)) by lia.
  change (byte_at ((4 :: body) ++ stale) 0) with 4. cbn [Z.eqb Pos.eqb negb andb].
  by destruct (_ =? 1 + kConfirmationSize + 1).
Qed.

Lemma hears_question padding m : confirmation_ok padding m -> (on_message (up_bytes (Question padding m))).2 = None.
Proof. intros Hm. cbn [up_bytes]. by rewrite (proj1 (confirmation_crosses padding m true [] Hm)). Qed.

Lemma hears_result r : is_int r -> (on_message (up_bytes (Result r))).2 = Some r.
Proof.
  intros Hr. cbn [up_bytes]. unfold on_message, result_message. rewrite size_cons.
  assert (Hl : size_of (le_bytes 4 (u32 r)) = 4) by (unfold size_of; by rewrite length_le_bytes). rewrite Hl.
  cbn -[le_bytes int_of Z.pow]. f_equal. unfold int_of. rewrite drop_0, le_value_bytes by (apply Z.mod_pos_bound; lia).
  unfold wrap, is_int in *. destruct (Z.leb_spec 0 r) as [H|H].
  - rewrite Z.mod_small by lia. by rewrite (proj2 (Z.ltb_lt _ _)) by lia.
  - replace (r mod 2 ^ 32) with (r + 2 ^ 32) by (apply (Z.mod_unique_pos _ _ (-1)); lia).
    rewrite (proj2 (Z.ltb_ge (r + 2 ^ 32) (2 ^ 31))) by lia.
    by replace (r + 2 ^ 32 - 2 ^ 32) with r by lia.
Qed.

(** ** What holds in every run *)

Definition is_request (m : nat * Down) : option nat := match m.2 with Request _ => Some m.1 | _ => None end.
Definition is_result (m : nat * Up) : option (nat * Z) := match m.2 with Result r => Some (m.1, r) | _ => None end.
Definition up_ok (m : nat * Up) : Prop := match m.2 with Question padding q => confirmation_ok padding q | Result r => is_int r end.

(** The flag of the worker when everything on the way has arrived. *)
Definition arrives (flag : bool) (m : nat * Down) : bool :=
  match m.2 with Request _ => false | Stop => true | Answer _ _ _ => flag end.
Definition later_flag (s : System) : bool := fold_left arrives (down s) (stop_requested (child s)).

(** The session of the daemon is in one place: its request is on the way, it runs, or its
    result is on the way; and until it has ended the flag is what the daemon asked. *)
Definition system_ok (s : System) : Prop :=
  omap is_request (down s) ++ sessions (child s) ++ map fst (omap is_result (up s))
    = (match running s with Some (k, _) => [k] | None => [] end) /\
  (forall k asked, running s = Some (k, asked) -> omap is_result (up s) = [] -> later_flag s = asked) /\
  ended s = results s ++ omap is_result (up s) /\ Forall up_ok (up s) /\ signalled (child s) = interrupted s.

Lemma arrives_taken k m stale c d :
  fold_left arrives d (stop_requested (child_receives k (down_bytes m ++ stale) (size_of (down_bytes m)) c))
  = fold_left arrives ((k, m) :: d) (stop_requested c).
Proof. cbn [fold_left]. destruct m; [by rewrite takes_request|by rewrite takes_stop|by rewrite takes_answer]. Qed.

Lemma only_session k (l : list nat) rest before run :
  before ++ l ++ rest = (match run with Some (j, _) => [j] | None => [] end) -> k ∈ l ->
  before = [] /\ l = [k] /\ rest = [] /\ exists b : bool, run = Some (k, b).
Proof.
  intros E Hin. destruct run as [[j b]|]; [|by destruct before, l; cbn in E; try done; apply not_elem_of_nil in Hin].
  destruct before as [|x before]; [|by destruct before, l; try done; apply not_elem_of_nil in Hin].
  destruct l as [|x l]; [by apply not_elem_of_nil in Hin|]. destruct l, rest; try done. injection E as ->.
  apply list_elem_of_singleton in Hin as ->. split_and!; [done..|]. by exists b.
Qed.

Lemma system_step_ok s s' : system_ok s -> system_step s s' -> system_ok s'.
Proof.
  intros (Hone & Hflag & Hended & Hup & Hint) Hstep.
  destruct Hstep as [arguments n d c u e r i Hsize|k n d c u e r i|k padding m confirmed run n d c u e r i Hm
    |k b m j n d c u e r i run r' Hhear|k m stale run n d c u e r i|run n d c u e r i|k padding m run n d c u e r i Hin Hm
    |k result run n d c u e r i Hin Hr]; unfold system_ok, later_flag in *;
    cbn [running down child up ended results next interrupted] in *.
  - destruct (omap is_request d) eqn:Ed; [|done]. destruct (sessions c) eqn:Es; [|done]. destruct (omap is_result u) eqn:Eu; [|done].
    rewrite omap_app, Ed. split_and!; [done| |done|done|done]. intros k asked [= <- <-] _. by rewrite fold_left_app.
  - rewrite omap_app. cbn. rewrite app_nil_r. split_and!; [done| |done|done|done].
    intros k' asked [= <- <-] _. by rewrite fold_left_app.
  - rewrite omap_app. cbn. rewrite app_nil_r. split_and!; [done| |done|done|done].
    intros k' asked Hk Hu. rewrite fold_left_app. by eapply Hflag.
  - apply Forall_cons in Hup as [Hm Hup]. unfold hear in Hhear. cbn [results running] in Hhear.
    destruct m as [padding q|x]; cbn [omap list_omap is_result snd fst map] in *.
    + rewrite hears_question in Hhear by exact Hm. injection Hhear as <- <-. by split_and!.
    + rewrite hears_result in Hhear by exact Hm. injection Hhear as <- <-.
      destruct (omap is_request d) as [|? l]; [|by injection Hone as _ Hone; destruct l, (sessions c)].
      destruct (sessions c) as [|? l]; [|by injection Hone as _ Hone; destruct l].
      injection Hone as -> Hu. apply map_eq_nil in Hu. change (list_omap _ _ is_result u) with (omap is_result u) in *.
      rewrite Hu in *. split_and!; [done|by intros|by rewrite app_nil_r|done|done].
  - split_and!; [|intros k' asked Hk Hu; rewrite arrives_taken; by eapply Hflag|done|done
      |destruct m; by rewrite ?takes_request, ?takes_stop, ?takes_answer].
    rewrite <- Hone. destruct m as [arguments| |padding q confirmed]; cbn [omap list_omap is_request snd fst];
      rewrite ?takes_request, ?takes_stop, ?takes_answer; [|done..].
    change (list_omap _ _ is_request d) with (omap is_request d) in *. cbn [sessions app omap list_omap is_request fst snd] in *.
    destruct run as [[j b]|]; [|done]. injection Hone as -> Hone.
    change (list_omap _ _ is_request d) with (omap is_request d) in *.
    apply app_nil in Hone as [-> Hone]. by apply app_nil in Hone as [-> ->].
  - by split_and!.
  - rewrite omap_app. cbn [omap list_omap is_result snd]. rewrite app_nil_r. split_and!; [done..| |done].
    apply Forall_app. split; [done|]. by apply Forall_singleton.
  - edestruct only_session as (Hd & Hs & Hu & b & ->); [exact Hone|exact Hin|]. apply map_eq_nil in Hu.
    rewrite omap_app, Hd, Hs, Hu. split_and!.
    + cbn. by rewrite decide_False by tauto.
    + by intros.
    + rewrite Hended, Hu, app_nil_r. done.
    + apply Forall_app. split; [done|]. by apply Forall_singleton.
    + done.
Qed.

Lemma system_reachable_ok s : system_reachable s -> system_ok s.
Proof. induction 1 as [|s s' _ IH Hs]; [|by eapply system_step_ok]. split_and!; [done|by intros|done|constructor|done]. Qed.

Lemma flag_stays d flag : (forall m, m ∈ d -> is_request m = None) -> fold_left arrives d flag = flag \/ Stop ∈ map snd d.
Proof.
  revert flag. induction d as [|[k m] d IH]; intros flag Hd; [by left|]. cbn [fold_left map].
  destruct m as [arguments| |padding q confirmed].
  - specialize (Hd (k, Request arguments) ltac:(by left)). done.
  - right. by left.
  - destruct (IH flag) as [H|H]; [intros m Hm; apply Hd; by right|by left|right; by right].
Qed.

Lemma flag_raised d : (forall m, m ∈ d -> is_request m = None) -> fold_left arrives d true = true.
Proof.
  induction d as [|[k m] d IH]; intros Hd; [done|]. cbn [fold_left].
  destruct m; [by specialize (Hd (k, Request arguments) ltac:(by left))|..]; apply IH; intros m' Hm; apply Hd; by right.
Qed.

Lemma no_requests d : omap is_request d = [] -> forall m, m ∈ d -> is_request m = None.
Proof.
  intros Hd m Hm. destruct (is_request m) as [k|] eqn:E; [|done].
  assert (k ∈ omap is_request d) as Hk by (apply list_elem_of_omap; by exists m). rewrite Hd in Hk. by apply not_elem_of_nil in Hk.
Qed.

(** ** Theorems *)

(** A signal is remembered for good. *)
Lemma step_interrupted s s' : system_step s s' -> interrupted s = true -> interrupted s' = true.
Proof. by destruct 1. Qed.

Lemma steps_reachable s s' : rtc system_step s s' -> system_reachable s -> system_reachable s' /\ (interrupted s = true -> interrupted s' = true).
Proof.
  induction 1 as [|s s1 s2 Hs _ IH]; [done|]. intros Hr. destruct IH as [H1 H2]; [by eapply system_next|].
  split; [done|]. intros Hi. by eapply H2, step_interrupted.
Qed.

(** C25. A session is stopped by its own stop, or by a signal to the child. In every
    interleaving of the daemon, the child, its sessions, the messages on the way and signals: at
    most one session runs, and it is the one that the daemon waits for; while it runs, the
    session is told to stop only when the daemon asked to stop this very session or the child
    has had a signal, and when the daemon asked, it is told so or the message is on its
    way; from a signal on, every session is told to stop, this one and all later ones; and
    the results that the daemon gets are those with which the sessions ended, each for its
    own session, in order. *)
Theorem sessions_do_not_mix s :
  system_reachable s ->
  (forall k, k ∈ sessions (child s) -> sessions (child s) = [k] /\ exists asked, running s = Some (k, asked)) /\
  (forall k asked, k ∈ sessions (child s) -> running s = Some (k, asked) ->
    (shutdown_requested (child s) = true -> asked = true \/ interrupted s = true) /\
    (asked = true -> shutdown_requested (child s) = true \/ Stop ∈ map snd (down s))) /\
  (interrupted s = true -> forall s', rtc system_step s s' -> shutdown_requested (child s') = true) /\
  results s `prefix_of` ended s.
Proof.
  intros Hreach. pose proof Hreach as (Hone & Hflag & Hended & _ & Hint)%system_reachable_ok. split_and!.
  - intros k Hk. edestruct only_session as (_ & Hs & _ & b & Hr); [exact Hone|exact Hk|]. split; [done|by exists b].
  - intros k asked Hk Hr. edestruct only_session as (Hd & _ & Hu & _); [exact Hone|exact Hk|]. apply map_eq_nil in Hu.
    specialize (Hflag k asked Hr Hu). unfold later_flag in Hflag. pose proof (no_requests _ Hd) as Hno. unfold shutdown_requested. split.
    + rewrite Hint. intros [Hs|Hs]%orb_true_iff; [by right|left]. rewrite Hs in Hflag. by rewrite flag_raised in Hflag.
    + intros ->. destruct (flag_stays _ (stop_requested (child s)) Hno) as [H|H]; [left|by right].
      apply orb_true_iff. right. by rewrite <- H.
  - intros Hi s' Hs'. destruct (steps_reachable _ _ Hs' Hreach) as [Hr' Hi']. apply system_reachable_ok in Hr' as (_ & _ & _ & _ & E).
    unfold shutdown_requested. by rewrite E, Hi'.
  - rewrite Hended. by eexists.
Qed.

(** ** Evaluated *)

(** A session that was stopped, and the next one, which is not. *)
Definition second_session : System :=
  mkSystem (Some (1%nat, false)) 2 [] (mkChild false false [1%nat]) [] [(0%nat, 143)] [(0%nat, 143)] false.

Lemma second_session_reachable : system_reachable second_session.
Proof.
  eapply system_next; [|exact (child_takes 1 (Request [bs "--mac"]) [2; 7] _ 2 [] (mkChild false true []) [] _ _ _)].
  eapply system_next; [|apply (daemon_starts [bs "--mac"] 1 [] (mkChild false true []) [] [(0%nat, 143)] [(0%nat, 143)]); vm_compute; discriminate].
  eapply system_next; [|apply (daemon_hears 0 true (Result 143) 0 1 [] (mkChild false true []) [] [(0%nat, 143)] []); reflexivity].
  eapply system_next; [|apply (session_ends 0 143 _ 1 [] (mkChild false true [0%nat]) [] [] []); [by left|by vm_compute]].
  eapply system_next; [|exact (child_takes 0 Stop [0] _ 1 [] (mkChild false false [0%nat]) [] [] [] _)].
  eapply system_next; [|exact (daemon_stops 0 1 [] (mkChild false false [0%nat]) [] [] [] _)].
  eapply system_next; [|exact (child_takes 0 (Request [bs "--bridge"]) [] _ 1 [] (mkChild false false []) [] [] [] _)].
  eapply system_next; [|apply (daemon_starts [bs "--bridge"] 0 [] (mkChild false false []) [] [] []); vm_compute; discriminate].
  apply system_start.
Qed.

(** The second session is not told to stop; a signal tells it. *)
Lemma sessions_do_not_mix_witness :
  system_reachable second_session /\ sessions (child second_session) = [1%nat] /\ results second_session = [(0%nat, 143)] /\
  shutdown_requested (child second_session) = false /\
  exists s, system_step second_session s /\ sessions (child s) = [1%nat] /\ shutdown_requested (child s) = true.
Proof.
  split; [exact second_session_reachable|]. split; [reflexivity|]. split; [reflexivity|].
  destruct (sessions_do_not_mix second_session second_session_reachable) as (_ & H & _ & _).
  destruct (H 1%nat false) as [Hs _]; [by left|reflexivity|]. split.
  - destruct (shutdown_requested (child second_session)); [by destruct (Hs eq_refl)|reflexivity].
  - eexists. split; [apply child_signalled|]. split; [reflexivity|].
    eapply (sessions_do_not_mix (mkSystem _ _ _ (request_shutdown _) _ _ _ true)); [|reflexivity|apply rtc_refl].
    eapply system_next; [exact second_session_reachable|apply child_signalled].
Defined.
