(* ===== verification/ManagementPage.v ===== *)
(** * The configuration page

    src/src/bridge/management_ui.cpp: [render_page], the page as the concatenation
    the code makes, and that nothing shown on it can bring markup of its own. In
    the literals here a backquote stands for the double quote. *)

From S2P Require Import Prelude Text Config ManagementUi BluezInventory BluetoothWorker.
#[local] Open Scope Z_scope.

(** ** State *)

(* src/include/aa2acp/bridge/management_ui.hpp:35-51 Snapshot *)
Record Snapshot := mkSnapshot {
  bluetooth_devices : list BluetoothDevice;
  wifi_interfaces : list Bytes;
  show_unnamed_bluetooth_devices : bool;
  bluetooth_scan_running : bool;
  bluetooth_scan_phase_id : Z;
  bluetooth_scan_phase : Bytes;
  bluetooth_error : Bytes;
  preflight_state : PreflightState;
  preflight_revision : Z;
  preflight_detail : Bytes;
  pairing_confirmation : option PairingConfirmationMessage;
  management_hotspot_password_pending : bool;
  pending_management_hotspot_ssid : Bytes
}.

Definition new_snapshot : Snapshot := mkSnapshot [] [] false false 0 (bs "idle") [] idle 0 [] None false [].

(* src/include/aa2acp/bridge/management_ui.hpp:19-26 PreflightState (values) *)
Definition state_number (s : PreflightState) : Z :=
  match s with idle => 0 | discovering => 1 | pairing_prompt => 2 | connecting => 3 | succeeded => 4 | failed => 5 end.

(** ** Literals *)

Definition quoted (c : Z) : Z := if c =? 96 then 34 else c.
Definition lit (l : list string) : Bytes := concat (map (fun s => map quoted (bs s)) l).

(** ** The page *)

Section Page.
Context (version : option Bytes) (csrf_token : Bytes).

(* src/src/bridge/management_ui.cpp:355-387 render_page (head) *)
Definition page_head (snapshot : Snapshot) : Bytes :=
  lit ["<!doctype html><html><head><meta name=`viewport` ";
    "content=`width=device-width,initial-scale=1`><title>AA2ACP</title><style>body{font:16px ";
    "sans-serif;max-width:38rem;margin:3rem auto;padding:0 ";
    "1rem}label,select,input:not([type=checkbox]){display:block;width:100%;box-sizing:border-box;margin:.";
    "5rem 0}button{padding:.6rem 1rem;margin:.25rem 0}input[type=checkbox]{width:auto;margin:0 .4rem 0 ";
    "0}.hint{color:#555}.status{padding:.6rem;background:#eef7ee}.status.error{background:#fdecec;color:#";
    "8a1f1f}</style></head><body data-scan-running=`"]%string
  ++ (if bluetooth_scan_running snapshot then lit ["1"]%string else lit ["0"]%string)
  ++ lit ["` data-scan-phase=`"]%string
  ++ dec (bluetooth_scan_phase_id snapshot) ++ lit ["` data-preflight-state=`"]%string
  ++ dec (state_number (preflight_state snapshot)) ++ lit ["` data-preflight-rev=`"]%string
  ++ dec (preflight_revision snapshot) ++ lit ["` data-preflight-active=`"]%string
  ++ (if preflight_active (preflight_state snapshot) then lit ["1"]%string else lit ["0"]%string)
  ++ lit ["`><script>document.addEventListener('submit',event=>{const ";
    "form=event.target;if(form.method.toLowerCase()!=='post'||form.querySelector('input[name=csrf]'))retu";
    "rn;const input=document.createElement('input');input.type='hidden';input.name='csrf';input.value='"]%string
  ++ csrf_token ++ lit ["';form.append(input);},true);</script><h1>AA2ACP</h1><p>Configure the pinned CarPlay head unit.</p>"]%string.

(* src/src/bridge/management_ui.cpp:388-389 render_page (csrf_input) *)
Definition csrf_input : Bytes := lit ["<input type=hidden name=csrf value=`"]%string ++ csrf_token
  ++ lit ["`>"]%string.

(* src/src/bridge/management_ui.cpp:390-420 render_page (setup) *)
Definition setup_page (config : Config) (snapshot : Snapshot) : Bytes :=
  lit ["<p class=`status error`>Change the default management hotspot password before using ";
    "AA2ACP.</p><p>Connect to Wi-Fi network <b>"]%string
  ++ html_escape (management_hotspot_ssid config) ++ lit ["</b>.</p>"]%string
  ++ (if management_hotspot_password_pending snapshot then
        lit ["<p>Your new password is ready. Applying it will disconnect this device from the hotspot. Its new name ";
    "will be <b>"]%string
        ++ html_escape (pending_management_hotspot_ssid snapshot)
        ++ lit ["</b>.</p><form method=post action=`/management-hotspot/apply`>"]%string ++ csrf_input
        ++ lit ["<button type=submit>Apply new password</button></form>"]%string
      else
        lit ["<form method=post action=`/management-hotspot`>"]%string ++ csrf_input
        ++ lit ["<label>New management hotspot password<input required minlength=8 type=password ";
    "name=`management_hotspot_passphrase`></label><label>Confirm new password<input required minlength=8 ";
    "type=password name=`management_hotspot_passphrase_confirm`></label><label><input checked type=checkbox ";
    "name=`management_hotspot_change_ssid` value=`1`>Use a new hotspot name (recommended)</label><button ";
    "type=submit>Continue</button></form>"]%string)
  ++ lit ["<p><a href=`/logs`>View recent logs</a></p></body></html>"]%string.

(* src/src/bridge/management_ui.cpp:421-443 render_page (notices) *)
Definition page_notices (config : Config) (snapshot : Snapshot) (saved carplay_error : bool) : Bytes :=
  (if saved || carplay_error then
     (if saved then lit ["<p class=status>Configuration saved.</p>"]%string else [])
     ++ (if carplay_error then lit ["<p class=`status error`>CarPlay preparation requires both a Bluetooth device and Wi-Fi interface ";
    "configuration.</p>"]%string else [])
     ++ lit ["<script>history.replaceState(null,'',location.pathname);</script>"]%string
   else [])
  ++ (if is_empty (head_unit_mac config) || is_empty (wifi_interface config) then
        lit ["<p class=status>Android Auto is disabled until both settings are saved.</p>"]%string else [])
  ++ (if negb (is_empty (preflight_detail snapshot)) then
        lit ["<p class=status>CarPlay preparation: "]%string ++ html_escape (preflight_detail snapshot)
        ++ lit ["</p>"]%string
      else if negb (state_number (preflight_state snapshot) =? 0) then
        lit ["<p class=status>CarPlay preparation: "]%string ++ dec (state_number (preflight_state snapshot))
        ++ lit ["</p>"]%string
      else []).

(* src/src/bridge/management_ui.cpp:445-446 render_page (code) *)
Definition pairing_code (m : PairingConfirmationMessage) : Bytes :=
  let code := dec (passkey m) in repeat 48 (6 - Nat.min 6 (length code)) ++ code.

(* src/src/bridge/management_ui.cpp:444-463 render_page (confirmation) *)
Definition page_confirmation (snapshot : Snapshot) : Bytes :=
  match pairing_confirmation snapshot with
  | Some m =>
      lit ["<div class=status><p>Compare this Bluetooth pairing code with the code shown by the car:</p><p ";
    "style=`font-size:2rem;letter-spacing:.15em`><b>"]%string
      ++ html_escape (pairing_code m) ++ lit ["</b></p><form method=post action=`/bluetooth-confirm`>"]%string
      ++ csrf_input ++ lit ["<input type=hidden name=`id` value=`"]%string ++ dec (id m)
      ++ lit ["`><button name=`decision` value=`confirm` type=submit>Codes match — Confirm</button><button ";
    "name=`decision` value=`reject` type=submit>Reject</button></form></div>"]%string
  | None => []
  end
  ++ (if negb (is_empty (bluetooth_error snapshot)) then
        lit ["<p class=hint>Bluetooth refresh failed: "]%string ++ html_escape (bluetooth_error snapshot)
        ++ lit ["</p>"]%string else []).

Definition unnamed (device : BluetoothDevice) : bool := is_unnamed (BluezInventory.address device) (name device).

(* src/src/bridge/management_ui.cpp:478-486 render_page (device) *)
Definition device_option (show_unnamed : bool) (device : BluetoothDevice) : Bytes :=
  if unnamed device && negb show_unnamed then []
  else
    lit ["<option value=`"]%string ++ html_escape (BluezInventory.address device) ++ lit ["`>"]%string
    ++ html_escape (if unnamed device then bs "Unnamed device" else name device) ++ lit [" — "]%string
    ++ html_escape (BluezInventory.address device)
    ++ (if BluezInventory.paired device then lit [" (paired)"]%string else [])
    ++ (if BluezInventory.connected device then lit [" (connected)"]%string else []) ++ lit ["</option>"]%string.

(* src/src/bridge/management_ui.cpp:464-494 render_page (devices) *)
Definition page_devices (snapshot : Snapshot) : Bytes :=
  lit ["<form id=`scan-form` method=post action=`/scan`>"]%string ++ csrf_input
  ++ lit ["</form><form id=`display-form` method=post action=`/display`>"]%string ++ csrf_input
  ++ lit ["</form><form method=post action=`/config`>"]%string ++ csrf_input
  ++ lit ["<div id=`bluetooth-picker`>"]%string
  ++ (if bluetooth_scan_running snapshot then
        lit ["<input type=hidden name=`head_unit_mac` value=``><p class=status>Bluetooth "]%string
        ++ html_escape (bluetooth_scan_phase snapshot) ++ lit ["…</p>"]%string
      else
        lit ["<label>Known or discovered Bluetooth device<select name=`head_unit_mac`><option value=``>Keep the ";
    "configured device (use manual field below)</option>"]%string
        ++ concat (map (device_option (show_unnamed_bluetooth_devices snapshot)) (bluetooth_devices snapshot))
        ++ lit ["</select></label><label><input id=`show-unnamed` form=`display-form` type=checkbox name=`show_unnamed` ";
    "value=`1`"]%string
        ++ (if show_unnamed_bluetooth_devices snapshot then lit [" checked"]%string else [])
        ++ lit [">Show unnamed Bluetooth devices</label><button form=`scan-form` type=submit>Rescan Bluetooth ";
    "devices</button>"]%string).

(* src/src/bridge/management_ui.cpp:504-510 render_page (interface) *)
Definition interface_option (configured interface : Bytes) : Bytes :=
  lit ["<option value=`"]%string ++ html_escape interface ++ lit ["`"]%string
  ++ (if bytes_eqb interface configured then lit [" selected"]%string else []) ++ lit [">"]%string
  ++ html_escape interface ++ lit ["</option>"]%string.

(* src/src/bridge/management_ui.cpp:495-523 render_page (settings) *)
Definition page_settings (config : Config) (snapshot : Snapshot) : Bytes :=
  lit ["</div><label>Manual Bluetooth MAC<input name=`manual_mac` value=`"]%string
  ++ html_escape (head_unit_mac config)
  ++ lit ["` placeholder=`Bluetooth address`></label><label>Wi-Fi interface<select name=`wifi_interface`>"]%string
  ++ (if is_empty (wifi_interface config) then lit ["<option selected disabled value=``>Select a Wi-Fi interface</option>"]%string else [])
  ++ concat (map (interface_option (wifi_interface config)) (wifi_interfaces snapshot))
  ++ (if negb (is_empty (wifi_interface config))
         && negb (existsb (fun i => bytes_eqb i (wifi_interface config)) (wifi_interfaces snapshot)) then
        lit ["<option selected value=`"]%string ++ html_escape (wifi_interface config) ++ lit ["`>"]%string
        ++ html_escape (wifi_interface config) ++ lit [" (configured)</option>"]%string
      else [])
  ++ lit ["</select></label><label>Management hotspot SSID<input name=`management_hotspot_ssid` value=`"]%string
  ++ html_escape (management_hotspot_ssid config)
  ++ lit ["`></label><label>New management hotspot password (leave empty to keep)<input type=password ";
    "name=`management_hotspot_passphrase`></label><label>Confirm new hotspot password<input type=password ";
    "name=`management_hotspot_passphrase_confirm`></label><button type=submit>Save ";
    "configuration</button></form>"]%string.

(* src/src/bridge/management_ui.cpp:524-571 render_page (actions) *)
Definition page_actions (config : Config) (snapshot : Snapshot) : Bytes :=
  let busy := preflight_active (preflight_state snapshot) || bluetooth_scan_running snapshot in
  lit ["<p><a href=`/logs`>View recent logs</a></p>"]%string
  ++ match version with Some v => lit ["<p class=hint>AA2ACP v"]%string ++ v ++ lit ["</p>"]%string | None => [] end
  ++ (if negb (is_empty (head_unit_mac config)) && negb (is_empty (wifi_interface config)) then
        lit ["<form method=post action=`/carplay-prepare`>"]%string ++ csrf_input
        ++ lit ["<button type=submit "]%string
        ++ (if busy then lit ["disabled"]%string else []) ++ lit [">Prepare/Test CarPlay</button></form>"]%string
      else [])
  ++ (if negb (is_empty (head_unit_mac config)) then
        lit ["<form method=post action=`/head-unit-forget` onsubmit=`return confirm('Clear all local state for this ";
    "head unit? You will need to start CarPlay pairing again on the head unit.');`>"]%string
        ++ csrf_input ++ lit ["<button type=submit "]%string
        ++ (if busy then lit ["disabled"]%string else [])
        ++ lit [">Forget head unit</button></form><p class=hint>This keeps the configured head unit but clears its local ";
    "Bluetooth bond, AirPlay pairing, and cached capabilities.</p>"]%string
      else [])
  ++ lit ["<script>(()=>{const ";
    "filter=document.querySelector('#show-unnamed');if(filter)filter.addEventListener('change',()=>filter";
    ".form.requestSubmit());if(document.body.dataset.scanRunning!=='1')return;const ";
    "phase=encodeURIComponent(document.body.dataset.scanPhase);const poll=async()=>{try{const response=await ";
    "fetch('/scan-status?phase='+phase);if(response.status===205){location.reload();return;}setTimeout(po";
    "ll,1000);}catch{setTimeout(poll,2000);}};poll();})();</script><script>(()=>{if(document.body.dataset";
    ".preflightActive!=='1')return;const ";
    "state=encodeURIComponent(document.body.dataset.preflightState||'0');const ";
    "rev=encodeURIComponent(document.body.dataset.preflightRev||'0');const poll=async()=>{try{const ";
    "response=await ";
    "fetch('/carplay-prepare-status?state='+state+'&rev='+rev);if(response.status===205){location.reload(";
    ");return;}setTimeout(poll,1000);}catch{setTimeout(poll,2000);}};poll();})();</script></body></html>"]%string.

(* src/src/bridge/management_ui.cpp:350-572 render_page *)
Definition render_page (config : Config) (snapshot : Snapshot) (hotspot_needs_setup saved carplay_error : bool) : Bytes :=
  page_head snapshot
  ++ if hotspot_needs_setup then setup_page config snapshot
     else page_notices config snapshot saved carplay_error ++ page_confirmation snapshot ++ page_devices snapshot
          ++ page_settings config snapshot ++ page_actions config snapshot.
End Page.

(** The log page around the lines of [rendered_logs]. *)
(* src/src/bridge/management_ui.cpp:600-611 render_logs_page (page) *)
Definition render_logs_page (logs : Bytes) (retained_kib : Z) : Bytes :=
  lit ["<!doctype html><html><head><meta name=`viewport` ";
    "content=`width=device-width,initial-scale=1`><title>AA2ACP logs</title><style>body{font:16px ";
    "sans-serif;max-width:60rem;margin:3rem auto;padding:0 ";
    "1rem}pre{white-space:pre-wrap;word-break:break-word;background:#f5f5f5;padding:1rem}.log-debug{color";
    ":#666}.log-info{color:#174ea6}.log-warning{color:#8a5a00;background:#fff5cf}.log-error{color:#a61b1b";
    ";background:#ffe2e2}</style></head><body><p><a href=`/`>Back to management</a></p><h1>Recent ";
    "logs</h1><p>Current service run; newest "]%string
  ++ dec retained_kib ++ lit [" KiB retained.</p><pre>"]%string ++ rendered_logs logs ++ lit ["</pre></body></html>"]%string.

(** ** Theorems *)

#[local] Opaque lit html_escape.

Definition is_markup (c : Z) : bool := (c =? 60) || (c =? 62) || (c =? 34) || (c =? 39).

(** The characters that make markup, in order: what a browser takes tags, attributes
    and script strings from. *)
Definition skeleton (text : Bytes) : Bytes := List.filter is_markup text.

Lemma skeleton_app a b : skeleton (a ++ b) = skeleton a ++ skeleton b.
Proof. apply List.filter_app. Qed.

Lemma skeleton_plain text : Forall not_markup text -> skeleton text = [].
Proof.
  induction 1 as [|c text (H1 & H2 & H3 & H4) Ht IH]; [done|]. unfold skeleton in *. cbn. unfold is_markup.
  by rewrite !(proj2 (Z.eqb_neq c _)) by done.
Qed.

Lemma skeleton_escape value : skeleton (html_escape value) = [].
Proof. apply skeleton_plain, escape_safe. Qed.

Lemma skeleton_dec n : skeleton (dec n) = [].
Proof.
  assert (Hd : forall m, 0 <= m -> Forall not_markup (dec_nonneg m)).
  { intros m Hm. rewrite <- dec_of_nonneg by done. eapply Forall_impl; [by apply dec_digits|].
    unfold is_digit, not_markup. intros c Hc. bool_hyps. lia. }
  apply skeleton_plain. unfold dec. destruct (n <? 0) eqn:En; [constructor; [unfold not_markup; lia|]|]; apply Hd; lia.
Qed.

Lemma skeleton_if (b : bool) x y : skeleton (if b then x else y) = if b then skeleton x else skeleton y.
Proof. by destruct b. Qed.

Lemma skeleton_concat {A B} (f : A -> Bytes) (g : B -> Bytes) l k :
  Forall2 (fun a b => skeleton (f a) = skeleton (g b)) l k -> skeleton (concat (map f l)) = skeleton (concat (map g k)).
Proof. induction 1 as [|a b l k Hab Hl IH]; [done|]. cbn [map concat]. by rewrite !skeleton_app, Hab, IH. Qed.

(** What may decide which parts of the page are there; the texts shown are free. *)
Record same_shape (c1 : Config) (s1 : Snapshot) (c2 : Config) (s2 : Snapshot) : Prop := {
  shape_mac : is_empty (head_unit_mac c1) = is_empty (head_unit_mac c2);
  shape_wifi : is_empty (wifi_interface c1) = is_empty (wifi_interface c2);
  shape_devices : Forall2 (fun d e => unnamed d = unnamed e /\ BluezInventory.paired d = BluezInventory.paired e
                             /\ BluezInventory.connected d = BluezInventory.connected e)
                    (bluetooth_devices s1) (bluetooth_devices s2);
  shape_interfaces : Forall2 (fun i j => bytes_eqb i (wifi_interface c1) = bytes_eqb j (wifi_interface c2))
                       (wifi_interfaces s1) (wifi_interfaces s2);
  shape_show : show_unnamed_bluetooth_devices s1 = show_unnamed_bluetooth_devices s2;
  shape_scan : bluetooth_scan_running s1 = bluetooth_scan_running s2;
  shape_error : is_empty (bluetooth_error s1) = is_empty (bluetooth_error s2);
  shape_active : preflight_active (preflight_state s1) = preflight_active (preflight_state s2);
  shape_idle : (state_number (preflight_state s1) =? 0) = (state_number (preflight_state s2) =? 0);
  shape_detail : is_empty (preflight_detail s1) = is_empty (preflight_detail s2);
  shape_confirmation : bool_decide (is_Some (pairing_confirmation s1)) = bool_decide (is_Some (pairing_confirmation s2));
  shape_pending : management_hotspot_password_pending s1 = management_hotspot_password_pending s2
}.

Ltac skel := rewrite ?skeleton_app, ?skeleton_if, ?skeleton_app, ?skeleton_escape, ?skeleton_dec.

Section Skeleton.
Context (version : option Bytes) (csrf1 csrf2 : Bytes) (Hcsrf : skeleton csrf1 = skeleton csrf2).
Context (c1 c2 : Config) (s1 s2 : Snapshot) (Hshape : same_shape c1 s1 c2 s2).

Lemma csrf_skeleton : skeleton (csrf_input csrf1) = skeleton (csrf_input csrf2).
Proof. unfold csrf_input. skel. by rewrite Hcsrf. Qed.

Lemma head_skeleton : skeleton (page_head csrf1 s1) = skeleton (page_head csrf2 s2).
Proof. unfold page_head. skel. by rewrite Hcsrf, (shape_scan _ _ _ _ Hshape), (shape_active _ _ _ _ Hshape). Qed.

Lemma setup_skeleton : skeleton (setup_page csrf1 c1 s1) = skeleton (setup_page csrf2 c2 s2).
Proof. unfold setup_page. skel. by rewrite csrf_skeleton, (shape_pending _ _ _ _ Hshape). Qed.

Lemma notices_skeleton saved carplay_error :
  skeleton (page_notices c1 s1 saved carplay_error) = skeleton (page_notices c2 s2 saved carplay_error).
Proof.
  unfold page_notices. skel. by rewrite (shape_mac _ _ _ _ Hshape), (shape_wifi _ _ _ _ Hshape),
    (shape_detail _ _ _ _ Hshape), (shape_idle _ _ _ _ Hshape).
Qed.

Lemma confirmation_skeleton : skeleton (page_confirmation csrf1 s1) = skeleton (page_confirmation csrf2 s2).
Proof.
  unfold page_confirmation. rewrite !skeleton_app. f_equal.
  - pose proof (shape_confirmation _ _ _ _ Hshape) as H.
    destruct (pairing_confirmation s1), (pairing_confirmation s2).
    + skel. by rewrite csrf_skeleton.
    + exfalso. clear -H. by vm_compute in H.
    + exfalso. clear -H. by vm_compute in H.
    + reflexivity.
  - skel. by rewrite (shape_error _ _ _ _ Hshape).
Qed.

Lemma devices_skeleton : skeleton (page_devices csrf1 s1) = skeleton (page_devices csrf2 s2).
Proof.
  unfold page_devices. skel.
  rewrite csrf_skeleton, (shape_scan _ _ _ _ Hshape), (shape_show _ _ _ _ Hshape).
  rewrite (skeleton_concat (device_option (show_unnamed_bluetooth_devices s2))
    (device_option (show_unnamed_bluetooth_devices s2)) _ (bluetooth_devices s2)); [done|].
  eapply Forall2_impl; [exact (shape_devices _ _ _ _ Hshape)|]. intros d e (Hu & Hp & Hc).
  unfold device_option. rewrite Hu. destruct (unnamed e && _); [done|]. skel. by rewrite Hp, Hc.
Qed.

Lemma existsb_shape i1 i2 w1 w2 :
  Forall2 (fun i j => bytes_eqb i w1 = bytes_eqb j w2) i1 i2 ->
  existsb (fun i => bytes_eqb i w1) i1 = existsb (fun i => bytes_eqb i w2) i2.
Proof. induction 1 as [|i j l k Hij Hl IH]; [done|]. cbn. by rewrite Hij, IH. Qed.

Lemma settings_skeleton : skeleton (page_settings c1 s1) = skeleton (page_settings c2 s2).
Proof.
  unfold page_settings. skel. pose proof (shape_interfaces _ _ _ _ Hshape) as Hi.
  rewrite (shape_wifi _ _ _ _ Hshape), (existsb_shape _ _ _ _ Hi).
  rewrite (skeleton_concat (interface_option (wifi_interface c1)) (interface_option (wifi_interface c2)) _ (wifi_interfaces s2));
    [done|].
  eapply Forall2_impl; [exact Hi|]. intros i j Hij. unfold interface_option. skel. by rewrite Hij.
Qed.

Lemma actions_skeleton : skeleton (page_actions version csrf1 c1 s1) = skeleton (page_actions version csrf2 c2 s2).
Proof.
  unfold page_actions. skel. by rewrite csrf_skeleton, (shape_mac _ _ _ _ Hshape), (shape_wifi _ _ _ _ Hshape),
    (shape_active _ _ _ _ Hshape), (shape_scan _ _ _ _ Hshape).
Qed.
End Skeleton.

(** C28. What the page shows brings no markup. Two configurations and states that
    have the same parts on the page, with whatever names, addresses, messages and
    numbers in them, give pages with the same markup characters in the same order:
    no device name, SSID, interface or error text opens a tag, an attribute or a
    string. *)
Theorem page_values_inert version csrf1 csrf2 c1 s1 c2 s2 setup saved carplay_error :
  Forall not_markup csrf1 -> Forall not_markup csrf2 -> same_shape c1 s1 c2 s2 ->
  skeleton (render_page version csrf1 c1 s1 setup saved carplay_error)
  = skeleton (render_page version csrf2 c2 s2 setup saved carplay_error).
Proof.
  intros H1 H2 Hs. assert (Hc : skeleton csrf1 = skeleton csrf2) by (by rewrite !skeleton_plain).
  unfold render_page. rewrite !skeleton_app, !skeleton_if, !skeleton_app.
  by rewrite (head_skeleton csrf1 csrf2 Hc c1 c2 s1 s2 Hs), (setup_skeleton csrf1 csrf2 Hc c1 c2 s1 s2 Hs),
    (notices_skeleton c1 c2 s1 s2 Hs), (confirmation_skeleton csrf1 csrf2 Hc c1 c2 s1 s2 Hs),
    (devices_skeleton csrf1 csrf2 Hc c1 c2 s1 s2 Hs), (settings_skeleton c1 c2 s1 s2 Hs),
    (actions_skeleton version csrf1 csrf2 Hc c1 c2 s1 s2 Hs).
Qed.

(** A device that calls itself a script, and one with a plain name. *)
Lemma page_values_inert_witness :
  let config ssid := mkConfig (bs "AA:BB") (bs "wlan0") ssid (bs "secret123") [] in
  let snapshot name := mkSnapshot [mkDevice (bs "AA:BB") name true false] [bs "wlan0"] false false 0 [] [] failed 1 name
                         (Some (mkConfirmation 1 42 [])) false [] in
  skeleton (render_page None (bs "0af") (config (bs "<b>")) (snapshot (bs "<script>'x'</script>")) false true false)
  = skeleton (render_page None (bs "12") (config (bs "home")) (snapshot (bs "car")) false true false).
Proof.
  cbv zeta. apply page_values_inert.
  - vm_compute. repeat constructor; congruence.
  - vm_compute. repeat constructor; congruence.
  - split; try reflexivity; repeat constructor.
Defined.
