(* ===== verification/ReceiverTypes.v ===== *)
(** * What the Android Auto receiver reports

    The types of [src/include/aa2acp/aa/wired_receiver.hpp] that the receiver and the
    bridge daemon share. *)

From S2P Require Import Prelude.
#[local] Open Scope Z_scope.

(* src/include/aa2acp/aa/wired_receiver.hpp:16-25 WiredReceiverEventType *)
Inductive ReceiverEvent :=
| WaitingForPhone | AoapTransportReady | ControlSessionReady | VideoStreamConfigured | VideoStreamStarted
| TransportTeardown | Disconnected | ReceiverError.

(* src/include/aa2acp/aa/wired_receiver.hpp:32-39 HeadUnitCapabilities *)
Record Capabilities := mkCapabilities {
  width_pixels : Z;
  height_pixels : Z;
  max_fps : Z;
  media_audio : bool;
  guidance_audio : bool;
  system_audio : bool
}.

(* src/include/aa2acp/aa/wired_receiver.hpp:41-41 AudioStream *)
Inductive AudioStream := MediaStream | GuidanceStream | SystemStream.

#[export] Instance audio_stream_eq_dec : EqDecision AudioStream.
Proof. solve_decision. Defined.
