(* ===== verification/DaemonParts.v ===== *)
(** * Parts of the bridge daemon

    [src/src/bridge_daemon_main.cpp], the first half: the diagnostic dump, the key
    events that come back from CarPlay, the names of the hotspot, the command line
    of a session and the retries. *)

From S2P Require Import Prelude Text Bplist Config HeadUnitCapabilities ReceiverTypes ManagementUi BluetoothWorker CarplayWorker.
#[local] Open Scope Z_scope.

(** ** The diagnostic dump *)

(** [contents] is what is in the file since it was opened. *)
(* src/src/bridge_daemon_main.cpp:162-163 SecureDiagnosticDump (members) *)
Record Dump := mkDump { open_file : bool; bytes_written : Z; contents : Bytes }.

(* src/src/bridge_daemon_main.cpp:104-118 SecureDiagnosticDump::open *)
Definition open_dump (opened stat_done regular one_link owned chmod_done truncated : bool) : bool * Dump :=
  if negb opened then (false, mkDump false 0 [])
  else if negb stat_done || negb regular || negb one_link || negb owned || negb chmod_done || negb truncated
  then (false, mkDump false 0 [])
  else (true, mkDump true 0 []).

(** The dump of the CarPlay events is made when the environment names a file, with the
    outcomes of opening it; the other parts know only whether there is one. *)
(* src/src/bridge_daemon_main.cpp:689-706 run_wired_android_auto_receiver (event_dump) *)
Definition start_event_dump (environment : option Bytes) (opened stat_done regular one_link owned chmod_done truncated : bool)
    : Dump :=
  match environment with
  | None | Some [] => mkDump false 0 []
  | Some _ => (open_dump opened stat_done regular one_link owned chmod_done truncated).2
  end.

(** What one [write] does: some octets, none or an error, or an interruption. *)
Inductive WriteTurn := WroteSome (n : nat) | WriteFailed | WriteInterrupted.

(** What reached the file, and the turns that are left. *)
(* src/src/bridge_daemon_main.cpp:147-160 SecureDiagnosticDump::write_all *)
Fixpoint dump_write_all (turns : list WriteTurn) (bytes : Bytes) : bool * Bytes * list WriteTurn :=
  match bytes, turns with
  | [], _ => (true, [], turns)
  | _ :: _, [] => (false, [], [])
  | _ :: _, turn :: turns =>
      match turn with
      | WriteInterrupted => dump_write_all turns bytes
      | WriteFailed => (false, [], turns)
      | WroteSome n =>
          match Nat.min n (length bytes) with
          | O => (false, [], turns)
          | S k => let '(ok, written, turns) := dump_write_all turns (drop (S k) bytes) in
                   (ok, take (S k) bytes ++ written, turns)
          end
      end
  end.

(* src/src/bridge_daemon_main.cpp:123-123 SecureDiagnosticDump::write_frame (limit) *)
Definition kMaximumBytes : Z := 8 * 1024 * 1024.

(* src/src/bridge_daemon_main.cpp:140-144 SecureDiagnosticDump::disable *)
Definition disable (d : Dump) : Dump := mkDump false (bytes_written d) (contents d).

(* src/src/bridge_daemon_main.cpp:122-138 SecureDiagnosticDump::write_frame *)
Definition write_frame (turns : list WriteTurn) (bytes : Bytes) (d : Dump) : bool * Dump :=
  if negb (open_file d) || (kMaximumBytes - 4 <=? bytes_written d)
     || (kMaximumBytes - bytes_written d - 4 <? size_of bytes) then (false, d)
  else
    let header := be_bytes 4 (u32 (size_of bytes)) in
    let '(ok, written, turns) := dump_write_all turns header in
    let d1 := mkDump (open_file d) (bytes_written d) (contents d ++ written) in
    if negb ok then (false, disable d1)
    else
      let '(ok, written, _) := dump_write_all turns bytes in
      let d2 := mkDump (open_file d) (bytes_written d) (contents d1 ++ written) in
      if negb ok then (false, disable d2)
      else (true, mkDump (open_file d) (bytes_written d + size_of header + size_of bytes) (contents d2)).

(** What the event handler does with the dump. *)
(* src/src/bridge_daemon_main.cpp:709-717 run_wired_android_auto_receiver (event dump) *)
Definition dump_event (turns : list WriteTurn) (bytes : Bytes) (d : Dump) : Dump :=
  if open_file d then let '(ok, d) := write_frame turns bytes d in if ok : bool then d else disable d else d.

(** ** Key events *)

Abbreviation Dictionary := (list (Bytes * PlistValue)).

(* src/src/bridge_daemon_main.cpp:166-177 plist_integer *)
Fixpoint plist_integer (dictionary : Dictionary) (keys : list Bytes) : option Z :=
  match keys with
  | [] => None
  | key :: keys =>
      match dict_find dictionary key with
      | Some (PInt value) => Some value
      | _ => plist_integer dictionary keys
      end
  end.

(* src/src/bridge_daemon_main.cpp:179-192 plist_boolean *)
Fixpoint plist_boolean (dictionary : Dictionary) (keys : list Bytes) : option bool :=
  match keys with
  | [] => None
  | key :: keys =>
      match dict_find dictionary key with
      | Some (PBool value) => Some value
      | Some (PInt value) => Some (negb (value =? 0))
      | _ => plist_boolean dictionary keys
      end
  end.

(** [find_first_not_of(" \t")] *)
Definition value_of (after_colon : Bytes) : Bytes := drop_while is_blank after_colon.

(** The loop over the header lines; [None] refuses the event. *)
(* src/src/bridge_daemon_main.cpp:200-231 carplay_input_report (headers) *)
Fixpoint event_headers (lines : list Bytes) (seen : option Z) : option (option Z) :=
  match lines with
  | [] => Some seen
  | line :: lines =>
      let line := if bool_decide (last line = Some 13) then take (length line - 1) line else line in
      match find_char 58 line with
      | None => event_headers lines seen
      | Some separator =>
          if negb (bytes_eqb (lower (take separator line)) (bs "content-length")) then event_headers lines seen
          else match seen with
          | Some _ => None
          | None =>
              match parse_unsigned (2 ^ 64 - 1) (value_of (drop (separator + 1) line)) with
              | Some parsed => if 1024 * 1024 <? parsed then None else event_headers lines (Some parsed)
              | None => None
              end
          end
      end
  end.

(** The key of the report and whether it is down; the report itself is a message of
    Android Auto's protocol library with a time stamp. *)
(* src/src/bridge_daemon_main.cpp:194-261 carplay_input_report *)
Definition carplay_input_report (request : Bytes) : option (Z * bool) :=
  header_end ← search CRLFCRLF request;
  seen ← event_headers (getlines (take header_end request)) None;
  let body_start := (header_end + 4)%nat in
  body_size ← seen;
  if size_of request - Z.of_nat body_start <? body_size then None
  else
    plist ← decode_bplist (subspan body_start (Z.to_nat body_size) request);
    match plist with
    | PDict dictionary =>
        keycode ← plist_integer dictionary [bs "androidKeyCode"; bs "android_key_code"; bs "keyCode"];
        if 2 ^ 32 - 1 <? keycode then None
        else Some (keycode, default true (plist_boolean dictionary [bs "down"; bs "keyDown"; bs "pressed"]))
    | _ => None
    end.

(** ** Names of the hotspot *)

(** [address]: the first line of the interface's address file. *)
(* src/src/bridge_daemon_main.cpp:270-282 management_hotspot_ssid *)
Definition management_hotspot_ssid (address : Bytes) : Bytes :=
  let suffix := map to_upper (List.filter is_xdigit address) in
  if size_of suffix <? 6 then bs "AA2ACP-SETUP-1"
  else bs "AA2ACP-" ++ drop (length suffix - 6) suffix ++ bs "-1".

(** The last position of a character. *)
Fixpoint rfind (c : Z) (l : Bytes) : option nat :=
  match l with
  | [] => None
  | x :: l => match rfind c l with
              | Some i => Some (S i)
              | None => if x =? c then Some O else None
              end
  end.

(* src/src/bridge_daemon_main.cpp:288-295 next_management_hotspot_ssid (counter) *)
Fixpoint ssid_counter (digits : Bytes) (counter : Z) : option Z :=
  match digits with
  | [] => Some counter
  | character :: digits =>
      if negb (is_digit character) || (99999999 <? counter) then None
      else ssid_counter digits (u32 (u32 (counter * 10) + (character - 48)))
  end.

(* src/src/bridge_daemon_main.cpp:284-297 next_management_hotspot_ssid *)
Definition next_management_hotspot_ssid (ssid : Bytes) : Bytes :=
  match rfind 45 ssid with
  | None => ssid ++ bs "-2"
  | Some separator =>
      if Nat.eqb (separator + 1) (length ssid) then ssid ++ bs "-2"
      else match ssid_counter (drop (separator + 1) ssid) 0 with
           | None => ssid ++ bs "-2"
           | Some counter => take (separator + 1) ssid ++ dec (u32 (counter + 1))
           end
  end.

(* src/src/bridge_daemon_main.cpp:299-305 ensure_management_hotspot_settings *)
Definition ensure_management_hotspot_settings (address : Bytes) (config : Config) : Config :=
  let config :=
    if is_empty (Config.management_hotspot_ssid config) && negb (is_empty (wifi_interface config))
    then mkConfig (Config.head_unit_mac config) (wifi_interface config) (management_hotspot_ssid address)
           (management_hotspot_passphrase config) (airplay_pairing_store config)
    else config in
  if size_of (management_hotspot_passphrase config) <? 8
  then mkConfig (Config.head_unit_mac config) (wifi_interface config) (Config.management_hotspot_ssid config)
         kDefaultHotspotPassphrase (airplay_pairing_store config)
  else config.

(* src/src/bridge_daemon_main.cpp:307-309 management_hotspot_needs_setup *)
Definition management_hotspot_needs_setup (config : Config) : bool :=
  bytes_eqb (management_hotspot_passphrase config) kDefaultHotspotPassphrase.

(** ** The command line of a session *)

(** The sockets between the daemon and the worker; an empty name is left out. *)
Record Sockets := mkSockets {
  video_socket : Bytes;
  media_audio_socket : Bytes;
  guidance_audio_socket : Bytes;
  system_audio_socket : Bytes;
  event_socket : Bytes;
  microphone_socket : Bytes
}.

Definition no_sockets : Sockets := mkSockets [] [] [] [] [] [].

Definition optional_argument (name : string) (value : Bytes) : list Bytes :=
  if is_empty value then [] else [bs name; value].

(* src/src/bridge_daemon_main.cpp:392-438 run_carplay_session (arguments) *)
Definition session_arguments (config : Config) (capabilities_store : Bytes) (sockets : Sockets) (preflight : bool)
    (video_path : Bytes) : list Bytes :=
  [bs "aa2acp-iap2-bt"; bs "--bridge"; bs "--mac"; Config.head_unit_mac config; bs "--wifi-interface"; wifi_interface config;
   bs "--management-hotspot-ssid"; Config.management_hotspot_ssid config;
   bs "--management-hotspot-passphrase"; management_hotspot_passphrase config;
   bs "--pairing-store"; airplay_pairing_store config; bs "--head-unit-capabilities-store"; capabilities_store;
   bs "--timeout"; bs "60"]
  ++ (if preflight then [bs "--preflight"] else [])
  ++ optional_argument "--video" video_path
  ++ optional_argument "--video-socket" (video_socket sockets)
  ++ optional_argument "--audio-socket" (media_audio_socket sockets)
  ++ optional_argument "--guidance-audio-socket" (guidance_audio_socket sockets)
  ++ optional_argument "--system-audio-socket" (system_audio_socket sockets)
  ++ optional_argument "--event-socket" (event_socket sockets)
  ++ optional_argument "--microphone-socket" (microphone_socket sockets).

(** [worker]: whether the worker exists. *)
(* src/src/bridge_daemon_main.cpp:375-466 run_carplay_session *)
Definition run_carplay_session (worker available sent : bool) (config : Config) (capabilities_store : Bytes)
    (sockets : Sockets) (preflight : bool) (video_path : Bytes) (rounds : list Round) : list WorkerEvent * option Z :=
  if is_empty (Config.head_unit_mac config) then ([], Some 2)
  else if negb worker then ([], Some 1)
  else run_worker available sent (session_arguments config capabilities_store sockets preflight video_path) rounds.

(** ** Retries *)

(** [retry_delay] is in seconds. *)
(* src/src/bridge_daemon_main.cpp:564-565 run_wired_android_auto_receiver (flags) *)
Record Wired := mkWired {
  start_requested : bool;
  phone_disconnected : bool;
  preparation_failed : bool;
  retry_delay : Z
}.

Definition new_wired : Wired := mkWired false false false 0.

(* src/src/bridge_daemon_main.cpp:569-629 run_wired_android_auto_receiver (events) *)
Definition on_event (w : Wired) (e : ReceiverEvent) : Wired :=
  match e with
  | AoapTransportReady => mkWired true false false (retry_delay w)
  | Disconnected => mkWired (start_requested w) true (preparation_failed w) (retry_delay w)
  | _ => w
  end.

Definition request_start (b : bool) (w : Wired) : Wired := mkWired b (phone_disconnected w) (preparation_failed w) (retry_delay w).

(* src/src/bridge_daemon_main.cpp:792-795 run_wired_android_auto_receiver (delay) *)
Definition next_delay (delay : Z) : Z := if delay =? 0 then 1 else Z.min (delay * 2) 30.

(** The seconds of the wait: a stop at its end, and what the receiver reports in it;
    nothing happens in seconds that are not listed. *)
(* src/src/bridge_daemon_main.cpp:799-803 run_wired_android_auto_receiver (wait) *)
Fixpoint wait_seconds (remaining : nat) (seconds : list (bool * list ReceiverEvent)) (stopped : bool) (w : Wired) : bool * Wired :=
  match remaining, seconds with
  | O, _ | _, [] => (stopped, w)
  | S remaining, (stop, events) :: seconds =>
      if stopped || phone_disconnected w then (stopped, w)
      else wait_seconds remaining seconds stop (fold_left on_event events w)
  end.

(** What a turn of the loop meets: what is reported before it, the configuration,
    what is reported during the session, its result, whether a stop is requested by
    then, and the seconds of the wait. *)
Record PrepareTurn := mkPrepareTurn {
  reported : list ReceiverEvent;
  turn_config : Config;
  during : list ReceiverEvent;
  result : Z;
  stop_after : bool;
  waited : list (bool * list ReceiverEvent)
}.

(** Whether a session was run, and whether the loop ends. *)
(* src/src/bridge_daemon_main.cpp:755-807 run_wired_android_auto_receiver (loop) *)
Definition prepare_turn (t : PrepareTurn) (w : Wired) : bool * bool * Wired :=
  let w := fold_left on_event (reported t) w in
  if negb (start_requested w) then (false, false, w)
  else
    let w := request_start false w in
    if is_empty (Config.head_unit_mac (turn_config t)) || is_empty (wifi_interface (turn_config t)) then (false, false, w)
    else
      let w := fold_left on_event (during t) w in
      if stop_after t then (true, true, w)
      else if phone_disconnected w then (true, false, w)
      else if result t =? 0 then
        (true, false, mkWired (start_requested w) (phone_disconnected w) (preparation_failed w) 0)
      else
        let w := mkWired (start_requested w) (phone_disconnected w) true (next_delay (retry_delay w)) in
        let '(stopped, w) := wait_seconds (Z.to_nat (retry_delay w)) (waited t) (stop_after t) w in
        (true, stopped, if negb (phone_disconnected w) && negb stopped then request_start true w else w).

(** ** Theorems: the dump *)

Definition dump_frame (bytes : Bytes) : Bytes := be_bytes 4 (size_of bytes) ++ bytes.

Lemma dump_write_all_prefix turns : forall bytes ok written turns',
  dump_write_all turns bytes = (ok, written, turns') ->
  (exists rest, bytes = written ++ rest) /\ (ok = true -> written = bytes).
Proof.
  induction turns as [|turn turns IH]; intros [|b bytes] ok written turns'; cbn [dump_write_all];
    try (intros [= <- <- <-]; split; [by eexists|done]).
  destruct turn as [n| |].
  - destruct (Nat.min n _) as [|k] eqn:En; [intros [= <- <- <-]; split; [by eexists|done]|].
    destruct (dump_write_all turns (drop (S k) (b :: bytes))) as [[ok' w'] t'] eqn:E.
    intros H. injection H as <- <- <-. apply IH in E as [[rest Hr] Hok]. split.
    + exists rest. change (b :: bytes = (take (S k) (b :: bytes) ++ w') ++ rest).
      by rewrite <- app_assoc, <- Hr, take_drop.
    + intros Ht. change (take (S k) (b :: bytes) ++ w' = b :: bytes). by rewrite (Hok Ht), take_drop.
  - intros [= <- <- <-]. split; [by eexists|done].
  - apply IH.
Qed.

(** The dump holds the given events, all of them while it is open. *)
Definition dump_ok (events : list Bytes) (d : Dump) : Prop :=
  size_of (contents d) <= kMaximumBytes /\
  (open_file d = true -> bytes_written d = size_of (contents d) /\ contents d = concat (map dump_frame events)).

Lemma dump_event_ok turns bytes events d :
  dump_ok events d -> dump_ok (events ++ [bytes]) (dump_event turns bytes d).
Proof.
  intros [Hsize Hopen]. unfold dump_event. destruct (open_file d) eqn:Eo; [|split; [done|congruence]].
  destruct (Hopen eq_refl) as [Hw Hc]. unfold write_frame. rewrite Eo. cbn [negb orb].
  destruct (_ || _) eqn:El; [split; [exact Hsize|done]|]. apply orb_false_iff in El as [E1 E2]. bool_hyps.
  pose proof (size_nonneg bytes). pose proof (size_nonneg (contents d)).
  assert (Hu : u32 (size_of bytes) = size_of bytes) by (apply wrap_id; split; unfold kMaximumBytes in *; lia).
  rewrite Hu. assert (Hh : size_of (be_bytes 4 (size_of bytes)) = 4) by (unfold size_of; by rewrite length_be_bytes).
  destruct (dump_write_all turns _) as [[ok1 w1] t1] eqn:W1. apply dump_write_all_prefix in W1 as [[r1 Hr1] Hok1].
  assert (Hs1 : size_of w1 + size_of r1 = 4) by (rewrite <- size_app, <- Hr1; exact Hh). pose proof (size_nonneg r1).
  destruct ok1; cbn [negb]; [|split; [cbn [contents disable]; rewrite size_app; lia|done]].
  rewrite (Hok1 eq_refl) in *.
  destruct (dump_write_all t1 bytes) as [[ok2 w2] t2] eqn:W2. apply dump_write_all_prefix in W2 as [[r2 Hr2] Hok2].
  assert (Hs2 : size_of w2 + size_of r2 = size_of bytes) by (rewrite <- size_app; congruence). pose proof (size_nonneg r2).
  destruct ok2; cbn [negb contents]; [|split; [cbn [contents disable]; rewrite !size_app; lia|done]].
  rewrite (Hok2 eq_refl) in *. split; cbn [contents bytes_written open_file]; rewrite !size_app; [lia|]. intros _. split; [lia|].
  rewrite map_app, concat_app, Hc. cbn [map concat]. unfold dump_frame at 2. by rewrite app_nil_r, <- app_assoc.
Qed.

(** The dump of CarPlay's events is bounded and complete. Whatever the writes do,
    the file never exceeds 8 MiB; and as long as the dump is open, the file is
    exactly the sequence of all events so far, each behind its length. *)
Theorem dump_bounded_complete (events : list (list WriteTurn * Bytes)) :
  let d := fold_left (fun d e => dump_event e.1 e.2 d) events (mkDump true 0 []) in
  size_of (contents d) <= 8 * 1024 * 1024 /\
  (open_file d = true -> contents d = concat (map dump_frame (map snd events))).
Proof.
  cbv zeta. assert (dump_ok (map snd events) (fold_left (fun d e => dump_event e.1 e.2 d) events (mkDump true 0 []))) as [H1 H2].
  { induction events as [|e events IH] using rev_ind; [split; [done|by intros]|].
    rewrite fold_left_app, map_app. by apply dump_event_ok. }
  split; [exact H1|]. intros Ho. by apply H2.
Qed.

(** ** Theorems: the hotspot's name *)

Lemma rfind_none l : Forall (fun c => c <> 45) l -> rfind 45 l = None.
Proof. induction 1 as [|c l Hc Hl IH]; [done|]. cbn. by rewrite IH, (proj2 (Z.eqb_neq c 45) Hc). Qed.

Lemma rfind_last base l : Forall (fun c => c <> 45) l -> rfind 45 (base ++ 45 :: l) = Some (length base).
Proof.
  intros Hl. induction base as [|c base IH]; cbn [app rfind length]; [|by rewrite IH]. by rewrite (rfind_none l Hl).
Qed.

Lemma ssid_counter_digits l : forall counter,
  Forall (fun c => is_digit c = true) l -> 0 <= counter ->
  counter * 10 ^ size_of l + digits_value l < 10 ^ 9 ->
  ssid_counter l counter = Some (counter * 10 ^ size_of l + digits_value l).
Proof.
  induction l as [|c l IH]; intros counter Hl Hc Hb; cbn [ssid_counter]; [unfold digits_value, size_of in *; cbn in *; f_equal; lia|].
  apply Forall_cons in Hl as [Hd Hl]. rewrite Hd. cbn [negb orb].
  assert (Hv : digits_value (c :: l) = (c - 48) * 10 ^ size_of l + digits_value l).
  { clear -Hl. induction l as [|x l IH] using rev_ind; [unfold digits_value, size_of; cbn; lia|].
    rewrite Forall_app in Hl. destruct Hl as [Hl _].
    rewrite app_comm_cons, !digits_value_snoc, IH by done. rewrite size_app. change (size_of [x]) with 1.
    rewrite Z.pow_add_r by (done || apply size_nonneg). lia. }
  pose proof (digits_value_nonneg l Hl). pose proof (size_nonneg l). rewrite size_cons, Z.pow_add_r in Hb |- * by lia.
  rewrite Hv in Hb |- *. assert (0 < 10 ^ size_of l) by (apply Z.pow_pos_nonneg; lia).
  assert (48 <= c <= 57) as Hc48 by (unfold is_digit in Hd; bool_hyps; lia).
  assert (counter * 10 + (c - 48) < 10 ^ 9) by nia.
  rewrite (proj2 (Z.ltb_ge 99999999 counter)) by lia.
  rewrite (wrap_id 32 (counter * 10)), (wrap_id 32 (counter * 10 + (c - 48))) by (split; lia).
  rewrite IH by (done || lia || nia). f_equal. nia.
Qed.

(** A new name for the hotspot counts up. A name that ends in a dash and a
    number below a thousand millions gets the next number, which has not wrapped
    around, and so a different name. *)
Theorem next_ssid_counts base n :
  0 <= n < 10 ^ 9 ->
  next_management_hotspot_ssid (base ++ 45 :: dec n) = base ++ 45 :: dec (n + 1) /\
  next_management_hotspot_ssid (base ++ 45 :: dec n) <> base ++ 45 :: dec n.
Proof.
  intros Hn. assert (Hd : Forall (fun c => is_digit c = true) (dec n)) by (apply dec_digits; lia).
  assert (E : next_management_hotspot_ssid (base ++ 45 :: dec n) = base ++ 45 :: dec (n + 1)).
  { unfold next_management_hotspot_ssid. rewrite rfind_last.
    2:{ eapply Forall_impl; [exact Hd|]. intros c Hc ->. done. }
    replace (Nat.eqb (length base + 1) _) with false.
    2:{ symmetry. apply Nat.eqb_neq. rewrite length_app. cbn [length]. pose proof (dec_not_nil n ltac:(lia)).
        destruct (dec n); [done|cbn; lia]. }
    replace (base ++ 45 :: dec n) with ((base ++ [45]) ++ dec n) by (by rewrite <- app_assoc).
    rewrite (drop_app_length' (base ++ [45])) by (rewrite length_app; done).
    rewrite (take_app_length' (base ++ [45])) by (rewrite length_app; done).
    assert (Hv : digits_value (dec n) = n) by (rewrite dec_of_nonneg by lia; apply dec_nonneg_spec; lia).
    rewrite ssid_counter_digits by (done || (rewrite ?Hv; lia)).
    rewrite Hv, Z.mul_0_l, Z.add_0_l, (wrap_id 32) by (split; lia). by rewrite <- app_assoc. }
  split; [exact E|]. rewrite E. intros Heq. apply app_inv_head in Heq. injection Heq as Heq.
  assert (digits_value (dec (n + 1)) = digits_value (dec n)) as Hv by (by rewrite Heq).
  pose proof (proj1 (proj2 (dec_nonneg_spec n ltac:(lia)))).
  pose proof (proj1 (proj2 (dec_nonneg_spec (n + 1) ltac:(lia)))). rewrite !dec_of_nonneg in Hv by lia. lia.
Qed.

Lemma next_ssid_counts_witness :
  next_management_hotspot_ssid (bs "AA2ACP-12AB34" ++ 45 :: dec 9) = bs "AA2ACP-12AB34" ++ 45 :: dec 10 /\
  next_management_hotspot_ssid (bs "AA2ACP-12AB34" ++ 45 :: dec 9) <> bs "AA2ACP-12AB34" ++ 45 :: dec 9.
Proof. apply (next_ssid_counts (bs "AA2ACP-12AB34") 9). lia. Defined.

(** A name that does not end in a number keeps growing. *)
Example name_without_number : next_management_hotspot_ssid (bs "my-car") = bs "my-car-2".
Proof. vm_compute. reflexivity. Qed.

(** ** Theorems: the command line *)

Definition opt_text (t : TextOption) (value : Bytes) (o : WorkerOptions) : WorkerOptions :=
  if is_empty value then o else set_text t value o.

Lemma parse_text name t value rest o :
  text_option (bs name) = Some t -> parse_arguments (bs name :: value :: rest) o = parse_arguments rest (set_text t value o).
Proof. intros Ht. cbn [parse_arguments]. by rewrite Ht. Qed.

Lemma parse_optional name t value rest o :
  text_option (bs name) = Some t ->
  parse_arguments (optional_argument name value ++ rest) o = parse_arguments rest (opt_text t value o).
Proof.
  intros Ht. unfold optional_argument, opt_text. destruct (is_empty value); [done|]. by apply parse_text.
Qed.

Lemma parse_flag name o o' rest :
  text_option (bs name) = None -> bytes_eqb (bs name) (bs "--timeout") = false -> set_flag (bs name) o = Some o' ->
  parse_arguments (bs name :: rest) o = parse_arguments rest o'.
Proof. intros Ht Hn Hf. destruct rest; cbn [parse_arguments]; by rewrite ?Ht, ?Hn, Hf. Qed.

Lemma texts_set t value o u : texts (set_text t value o) u = if decide (u = t) then value else texts o u.
Proof. done. Qed.

Lemma texts_opt t value o u :
  texts (opt_text t value o) u = if decide (u = t) then (if is_empty value then texts o u else value) else texts o u.
Proof. unfold opt_text. destruct (is_empty value); [by destruct (decide (u = t))|done]. Qed.

Lemma flags_opt t value o :
  timeout_seconds (opt_text t value o) = timeout_seconds o /\ bridge (opt_text t value o) = bridge o
  /\ leave_wifi (opt_text t value o) = leave_wifi o.
Proof. unfold opt_text. by destruct (is_empty value). Qed.

Lemma empty_value (value : Bytes) : (if is_empty value then [] else value) = value.
Proof. by destruct value. Qed.

(** The text of an option that the daemon passes. *)
Definition passed (config : Config) (capabilities_store : Bytes) (sockets : Sockets) (video_path : Bytes) (t : TextOption) : Bytes :=
  match t with
  | MacAddress => Config.head_unit_mac config
  | WifiInterface => wifi_interface config
  | ManagementSsid => Config.management_hotspot_ssid config
  | ManagementPassphrase => management_hotspot_passphrase config
  | PairingStorePath => airplay_pairing_store config
  | CapabilitiesStore => capabilities_store
  | VideoPath => video_path
  | VideoSocket => video_socket sockets
  | AudioSocket => media_audio_socket sockets
  | GuidanceAudioSocket => guidance_audio_socket sockets
  | SystemAudioSocket => system_audio_socket sockets
  | EventSocket => event_socket sockets
  | MicrophoneSocket => microphone_socket sockets
  end.

Lemma parse_session config capabilities_store sockets preflight video_path :
  exists o, parse_arguments (tail (session_arguments config capabilities_store sockets preflight video_path)) default_worker_options
      = Some o /\
    bridge o = true /\ leave_wifi o = false /\ timeout_seconds o = 60 /\
    forall t, texts o t = passed config capabilities_store sockets video_path t.
Proof.
  unfold session_arguments. cbn [tail app]. erewrite parse_flag by reflexivity.
  do 6 (erewrite parse_text by reflexivity).
  match goal with |- context [parse_arguments (bs "--timeout" :: ?v :: ?r) ?o] =>
    change (parse_arguments (bs "--timeout" :: v :: r) o) with (parse_arguments r (set_timeout v o)) end.
  set (o1 := set_timeout _ _). set (rest := optional_argument "--video" video_path ++ _).
  assert (E : exists o2, parse_arguments ((if preflight then [bs "--preflight"] else []) ++ rest) o1 = parse_arguments rest o2
    /\ texts o2 = texts o1 /\ bridge o2 = true /\ leave_wifi o2 = false /\ timeout_seconds o2 = 60).
  { destruct preflight; [|by exists o1].
    eexists. split; [cbn [app]; eapply parse_flag; reflexivity|]. by repeat split. }
  destruct E as (o2 & -> & Ht & Hb & Hl & Hs). unfold rest.
  do 6 (erewrite parse_optional by reflexivity).
  rewrite <- (app_nil_r (optional_argument "--microphone-socket" _)). erewrite parse_optional by reflexivity.
  eexists. split; [reflexivity|]. repeat (split; [repeat (rewrite (proj1 (flags_opt _ _ _)) ||
    rewrite (proj1 (proj2 (flags_opt _ _ _))) || rewrite (proj2 (proj2 (flags_opt _ _ _)))); done|]).
  intros t. rewrite !texts_opt, Ht. unfold o1. cbn [texts set_timeout]. rewrite !texts_set.
  destruct t; cbn -[is_empty]; by rewrite ?empty_value.
Qed.

Definition no_zero (text : Bytes) : Prop := Forall (fun c => c <> 0) text.

(** C20. The configuration reaches the worker. The child process reads the message of
    the daemon as a command line that its parser accepts, with every setting of the
    configuration and every socket as the daemon has it, empty ones included; it
    starts the bridge and not the clean-up. *)
Theorem configuration_reaches_worker config capabilities_store sockets preflight video_path stale :
  (forall t, no_zero (passed config capabilities_store sockets video_path t)) ->
  let message := request_message (session_arguments config capabilities_store sockets preflight video_path) in
  exists arguments o,
    child_command (message ++ stale) (size_of message) = StartSession arguments /\
    parse_arguments (tail arguments) default_worker_options = Some o /\
    bridge o = true /\ leave_wifi o = false /\ timeout_seconds o = 60 /\
    forall t, texts o t = passed config capabilities_store sockets video_path t.
Proof.
  intros Hz. cbv zeta. eexists. destruct (parse_session config capabilities_store sockets preflight video_path) as (o & Ho).
  exists o. split; [|exact Ho]. apply request_reaches_child.
  assert (Hopt : forall name value, no_zero (bs name) -> no_zero value -> Forall no_zero (optional_argument name value))
    by (intros; unfold optional_argument; case_match; by repeat constructor).
  unfold session_arguments.
  repeat first [apply Forall_app; split | apply Hopt | apply Forall_cons; split | apply Forall_nil_2
    | by vm_compute; repeat constructor; discriminate | destruct preflight].
  all: first [ exact (Hz MacAddress) | exact (Hz WifiInterface) | exact (Hz ManagementSsid) | exact (Hz ManagementPassphrase)
    | exact (Hz PairingStorePath) | exact (Hz CapabilitiesStore) | exact (Hz VideoPath) | exact (Hz VideoSocket)
    | exact (Hz AudioSocket) | exact (Hz GuidanceAudioSocket) | exact (Hz SystemAudioSocket) | exact (Hz EventSocket)
    | exact (Hz MicrophoneSocket) ].
Qed.

Lemma configuration_reaches_worker_witness :
  let config := mkConfig (bs "AA:BB") (bs "wlan0") [] (bs "secret123") (bs "/p") in
  let message := request_message (session_arguments config (bs "/c") no_sockets true (bs "/v")) in
  exists arguments o,
    child_command (message ++ [9]) (size_of message) = StartSession arguments /\
    parse_arguments (tail arguments) default_worker_options = Some o /\
    bridge o = true /\ leave_wifi o = false /\ timeout_seconds o = 60 /\
    forall t, texts o t = passed config (bs "/c") no_sockets (bs "/v") t.
Proof.
  apply configuration_reaches_worker. intros []; vm_compute; repeat constructor; discriminate.
Defined.

(** ** Theorems: retries *)

Lemma on_events_delay events w : retry_delay (fold_left on_event events w) = retry_delay w.
Proof. revert w. induction events as [|e events IH]; intros w; [done|]. cbn [fold_left]. rewrite IH. by destruct e. Qed.

Lemma wait_delay n : forall seconds stopped w, retry_delay (wait_seconds n seconds stopped w).2 = retry_delay w.
Proof.
  induction n as [|n IH]; intros [|[s e] seconds] stopped w; cbn [wait_seconds]; try done.
  destruct (_ || _); [done|]. by rewrite IH, on_events_delay.
Qed.

Lemma prepare_turn_delay t w : 0 <= retry_delay w <= 30 -> 0 <= retry_delay (prepare_turn t w).2 <= 30.
Proof.
  intros Hw. unfold prepare_turn. set (w1 := fold_left on_event (reported t) w).
  assert (H1 : retry_delay w1 = retry_delay w) by apply on_events_delay.
  destruct (negb _); [cbn; lia|]. destruct (_ || _); [cbn; lia|].
  set (w2 := fold_left on_event (during t) _). assert (H2 : retry_delay w2 = retry_delay w) by (unfold w2; by rewrite on_events_delay).
  destruct (stop_after t); [cbn; lia|]. destruct (phone_disconnected w2); [cbn; lia|].
  destruct (result t =? 0); [cbn; lia|]. cbn [retry_delay].
  destruct (wait_seconds _ _ _ _) as [stopped w3] eqn:E.
  assert (H3 : retry_delay w3 = next_delay (retry_delay w2)) by (change w3 with (stopped, w3).2; rewrite <- E; apply wait_delay).
  assert (0 <= next_delay (retry_delay w2) <= 30) by (unfold next_delay; case_match; lia).
  cbn [snd]. destruct (_ && _); unfold request_start; cbn [retry_delay]; lia.
Qed.

(** A turn in which a configured session fails while the phone stays. *)
Definition failing_turn (t : PrepareTurn) : Prop :=
  reported t = [] /\ during t = [] /\ stop_after t = false /\ waited t = [] /\ result t <> 0 /\
  Config.head_unit_mac (turn_config t) <> [] /\ wifi_interface (turn_config t) <> [].

Lemma failing_step t w :
  failing_turn t -> start_requested w = true -> phone_disconnected w = false ->
  prepare_turn t w = (true, false, mkWired true false true (next_delay (retry_delay w))).
Proof.
  intros (Hr & Hd & Hs & Hw & Hn & Hm & Hi) H1 H2. unfold prepare_turn. rewrite Hr, Hd, Hs, Hw. cbn [fold_left].
  rewrite H1. cbn [negb]. assert (is_empty (Config.head_unit_mac (turn_config t)) = false) as -> by by destruct (Config.head_unit_mac _).
  assert (is_empty (wifi_interface (turn_config t)) = false) as -> by by destruct (wifi_interface _).
  cbn [orb]. unfold request_start at 1. cbn [phone_disconnected]. rewrite H2, (proj2 (Z.eqb_neq _ 0) Hn).
  cbn [request_start retry_delay start_requested phone_disconnected preparation_failed]. 
  destruct (Z.to_nat _); cbn [wait_seconds]; rewrite H2; reflexivity.
Qed.

(** Failed sessions are retried, less and less often. The delay is never more
    than thirty seconds, whatever the phone, the sessions and the stops do; and while
    the phone stays connected, every failure is followed by another session, after
    one second first and then twice as long each time up to the limit. *)
Theorem retries_back_off w turns :
  0 <= retry_delay w <= 30 ->
  0 <= retry_delay (fold_left (fun w t => (prepare_turn t w).2) turns w) <= 30 /\
  (forall k, length turns = S k -> Forall failing_turn turns -> retry_delay w = 0 ->
     start_requested w = true -> phone_disconnected w = false ->
     fold_left (fun w t => (prepare_turn t w).2) turns w = mkWired true false true (Z.min (2 ^ Z.of_nat k) 30)).
Proof.
  intros Hw. split.
  - revert w Hw. induction turns as [|t turns IH]; intros w Hw; [done|]. cbn [fold_left]. by apply IH, prepare_turn_delay.
  - clear Hw. intros k. revert k. induction turns as [|t turns IH] using rev_ind; intros k; [done|].
    rewrite length_app, Nat.add_1_r. intros [= Hk] [Ht Hl]%Forall_app H0 H1 H2. apply Forall_cons in Hl as [Hl _].
    rewrite fold_left_app. cbn [fold_left]. destruct k as [|k].
    + destruct turns; [|done]. cbn [fold_left]. rewrite failing_step by done. cbn [snd]. by rewrite H0.
    + rewrite (IH k) by done. rewrite failing_step by done. cbn [snd retry_delay]. f_equal.
      rewrite Nat2Z.inj_succ, Z.pow_succ_r by lia. unfold next_delay.
      assert (0 < 2 ^ Z.of_nat k) by (apply Z.pow_pos_nonneg; lia). case_match; lia.
Qed.

Lemma retries_back_off_witness :
  let t := mkPrepareTurn [] sample_config [] 1 false [] in
  fold_left (fun w t => (prepare_turn t w).2) [t; t; t; t; t; t; t] (mkWired true false false 0) = mkWired true false true 30.
Proof.
  cbv zeta. apply (retries_back_off (mkWired true false false 0)) with (k := 6%nat); try reflexivity; [cbn; lia|].
  repeat constructor; discriminate.
Defined.

Definition sample_event (length_line body : Bytes) : Bytes :=
  bs "POST /event RTSP/1.0" ++ CRLF ++ length_line ++ CRLFCRLF ++ body.

(** A key event is decoded, the key counting as pressed when nothing is said; an
    event with two lengths is refused. *)
Example key_events :
  let body := encode_bplist (PDict [(bs "keyCode", PInt 23)]) in
  let line := bs "Content-Length: " ++ dec (size_of body) in
  carplay_input_report (sample_event line body) = Some (23, true) /\
  carplay_input_report (sample_event (line ++ CRLF ++ line) body) = None.
Proof. vm_compute. done. Qed.
