(* ===== verification/DaemonRequests.v ===== *)
(** * The bridge daemon's management requests

    [src/src/bridge_daemon_main.cpp], [handle_client] and the background work that
    shares its state: one definition per route, each taking the state of the daemon
    and what the outside answers.  A request and a step of a background thread is
    one step of the state here; the transitions that the source makes under
    separate locks are cut apart in [DaemonTransactions], for the settings, and in
    [DaemonWorkflow], for scans and preflights, where the threads interleave. *)

From stdpp Require Import relations.
From S2P Require Import Prelude Text Bplist FileStore Config HeadUnitCapabilities NetworkManager BluezInventory ManagementUi BluetoothWorker CarplayWorker ManagementPage DaemonParts.
#[local] Open Scope Z_scope.

(** ** State *)

(** How far the preflight thread is. *)
Inductive Worker := Queued | Running.

(** [disk] are the files; [worker_answers] and [bluez_calls] are what was sent. *)
(* src/src/bridge_daemon_main.cpp:84-95 ManagementState, PendingManagementHotspotUpdate *)
Record Daemon := mkDaemon {
  config : Config;
  snapshot : Snapshot;
  pending_update : option (Bytes * Bytes);   (* the password and the name *)
  rebind_requested : bool;
  preflight_worker : option (Config * Worker);
  scan_worker : option Worker;
  disk : Disk;
  hotspot_commands : list Command;
  bluez_calls : list Call;
  worker_answers : list (PairingConfirmationMessage * bool)
}.

(** What the outside does during a request: the nmcli processes, the system calls of
    a save and the number of its temporary file, the two removals, BlueZ, and
    whether the answer to the worker could be sent. *)
Record Answers := mkAnswers {
  nmcli_processes : list Process;
  save_results : list SysResult;
  save_counter : Z;
  pairing_removed : bool;
  capabilities_removed : bool;
  bluez_connection : bool;
  bluez_answered : bool;
  bluez_devices : Bytes + list BluetoothDevice;   (* the error, or the list *)
  answer_sent : bool;
  recent_log : Bytes
}.

Record Response := mkResponse { status : Z; content_type : Bytes; body : Bytes; extra : Bytes }.

Definition text (status : Z) (body : string) : Response := mkResponse status (bs "text/plain") (bs body) [].
(** A line of text. *)
Definition line (status : Z) (body : string) : Response := mkResponse status (bs "text/plain") (bs body ++ [10]) [].
Definition redirect (location : string) : Response :=
  mkResponse 303 (bs "text/plain") [] (bs "Location: " ++ bs location ++ CRLF).

(** ** Changes of the state *)

Definition set_config (c : Config) (d : Daemon) : Daemon :=
  mkDaemon c (snapshot d) (pending_update d) (rebind_requested d) (preflight_worker d) (scan_worker d) (disk d)
    (hotspot_commands d) (bluez_calls d) (worker_answers d).
Definition set_snapshot (s : Snapshot) (d : Daemon) : Daemon :=
  mkDaemon (config d) s (pending_update d) (rebind_requested d) (preflight_worker d) (scan_worker d) (disk d)
    (hotspot_commands d) (bluez_calls d) (worker_answers d).
Definition set_update (u : option (Bytes * Bytes)) (d : Daemon) : Daemon :=
  mkDaemon (config d) (snapshot d) u (rebind_requested d) (preflight_worker d) (scan_worker d) (disk d)
    (hotspot_commands d) (bluez_calls d) (worker_answers d).
Definition set_rebind (d : Daemon) : Daemon :=
  mkDaemon (config d) (snapshot d) (pending_update d) true (preflight_worker d) (scan_worker d) (disk d)
    (hotspot_commands d) (bluez_calls d) (worker_answers d).
Definition set_preflight_worker (w : option (Config * Worker)) (d : Daemon) : Daemon :=
  mkDaemon (config d) (snapshot d) (pending_update d) (rebind_requested d) w (scan_worker d) (disk d)
    (hotspot_commands d) (bluez_calls d) (worker_answers d).
Definition set_scan_worker (w : option Worker) (d : Daemon) : Daemon :=
  mkDaemon (config d) (snapshot d) (pending_update d) (rebind_requested d) (preflight_worker d) w (disk d)
    (hotspot_commands d) (bluez_calls d) (worker_answers d).
Definition set_disk (files : Disk) (d : Daemon) : Daemon :=
  mkDaemon (config d) (snapshot d) (pending_update d) (rebind_requested d) (preflight_worker d) (scan_worker d) files
    (hotspot_commands d) (bluez_calls d) (worker_answers d).
Definition set_commands (cs : list Command) (d : Daemon) : Daemon :=
  mkDaemon (config d) (snapshot d) (pending_update d) (rebind_requested d) (preflight_worker d) (scan_worker d) (disk d)
    cs (bluez_calls d) (worker_answers d).
Definition add_calls (calls : list Call) (d : Daemon) : Daemon :=
  mkDaemon (config d) (snapshot d) (pending_update d) (rebind_requested d) (preflight_worker d) (scan_worker d) (disk d)
    (hotspot_commands d) (bluez_calls d ++ calls) (worker_answers d).
Definition add_answer (m : PairingConfirmationMessage) (confirmed : bool) (d : Daemon) : Daemon :=
  mkDaemon (config d) (snapshot d) (pending_update d) (rebind_requested d) (preflight_worker d) (scan_worker d) (disk d)
    (hotspot_commands d) (bluez_calls d) (worker_answers d ++ [(m, confirmed)]).

(** A change of the snapshot under its lock. *)
Definition on_snapshot (f : Snapshot -> Snapshot) (d : Daemon) : Daemon := set_snapshot (f (snapshot d)) d.

Definition set_devices (devices : list BluetoothDevice) (error : Bytes) (s : Snapshot) : Snapshot :=
  mkSnapshot devices (wifi_interfaces s) (show_unnamed_bluetooth_devices s) (bluetooth_scan_running s)
    (bluetooth_scan_phase_id s) (bluetooth_scan_phase s) error (preflight_state s) (preflight_revision s)
    (preflight_detail s) (pairing_confirmation s) (management_hotspot_password_pending s)
    (pending_management_hotspot_ssid s).
Definition set_interfaces (l : list Bytes) (s : Snapshot) : Snapshot :=
  mkSnapshot (bluetooth_devices s) l (show_unnamed_bluetooth_devices s) (bluetooth_scan_running s)
    (bluetooth_scan_phase_id s) (bluetooth_scan_phase s) (bluetooth_error s) (preflight_state s) (preflight_revision s)
    (preflight_detail s) (pairing_confirmation s) (management_hotspot_password_pending s)
    (pending_management_hotspot_ssid s).
Definition set_show_unnamed (b : bool) (s : Snapshot) : Snapshot :=
  mkSnapshot (bluetooth_devices s) (wifi_interfaces s) b (bluetooth_scan_running s)
    (bluetooth_scan_phase_id s) (bluetooth_scan_phase s) (bluetooth_error s) (preflight_state s) (preflight_revision s)
    (preflight_detail s) (pairing_confirmation s) (management_hotspot_password_pending s)
    (pending_management_hotspot_ssid s).
Definition set_scan (running : bool) (phase_id : Z) (phase : Bytes) (s : Snapshot) : Snapshot :=
  mkSnapshot (bluetooth_devices s) (wifi_interfaces s) (show_unnamed_bluetooth_devices s) running
    phase_id phase (bluetooth_error s) (preflight_state s) (preflight_revision s)
    (preflight_detail s) (pairing_confirmation s) (management_hotspot_password_pending s)
    (pending_management_hotspot_ssid s).
Definition set_pending (pending : bool) (ssid : Bytes) (s : Snapshot) : Snapshot :=
  mkSnapshot (bluetooth_devices s) (wifi_interfaces s) (show_unnamed_bluetooth_devices s) (bluetooth_scan_running s)
    (bluetooth_scan_phase_id s) (bluetooth_scan_phase s) (bluetooth_error s) (preflight_state s) (preflight_revision s)
    (preflight_detail s) (pairing_confirmation s) pending ssid.
Definition set_confirmation (m : option PairingConfirmationMessage) (s : Snapshot) : Snapshot :=
  mkSnapshot (bluetooth_devices s) (wifi_interfaces s) (show_unnamed_bluetooth_devices s) (bluetooth_scan_running s)
    (bluetooth_scan_phase_id s) (bluetooth_scan_phase s) (bluetooth_error s) (preflight_state s) (preflight_revision s)
    (preflight_detail s) m (management_hotspot_password_pending s) (pending_management_hotspot_ssid s).

(** Every change of the preflight bumps the revision. *)
(* src/src/bridge_daemon_main.cpp:473-480 run_carplay_preflight (set_preflight) *)
Definition set_preflight (state : PreflightState) (detail : Bytes) (s : Snapshot) : Snapshot :=
  mkSnapshot (bluetooth_devices s) (wifi_interfaces s) (show_unnamed_bluetooth_devices s) (bluetooth_scan_running s)
    (bluetooth_scan_phase_id s) (bluetooth_scan_phase s) (bluetooth_error s) state (u64 (preflight_revision s + 1))
    detail (pairing_confirmation s) (management_hotspot_password_pending s) (pending_management_hotspot_ssid s).
Definition set_detail (detail : Bytes) (s : Snapshot) : Snapshot := set_preflight (preflight_state s) detail s.

(** ** The device list and the scan *)

(** [std::map] by address: the devices that were known, with the new ones put in or
    over them. *)
Fixpoint put_device (overwrite : bool) (device : BluetoothDevice) (l : list BluetoothDevice) : list BluetoothDevice :=
  match l with
  | [] => [device]
  | e :: l =>
      if bytes_eqb (BluezInventory.address e) (BluezInventory.address device) then (if overwrite then device else e) :: l
      else if bytes_ltb (BluezInventory.address device) (BluezInventory.address e) then device :: e :: l
      else e :: put_device overwrite device l
  end.

(* src/src/bridge_daemon_main.cpp:319-327 refresh_bluetooth_inventory (merge) *)
Definition merge_devices (known devices : list BluetoothDevice) : list BluetoothDevice :=
  fold_left (fun l d => put_device true d l) devices (fold_left (fun l d => put_device false d l) known []).

(* src/src/bridge_daemon_main.cpp:311-335 refresh_bluetooth_inventory *)
Definition refresh_bluetooth_inventory (listed : Bytes + list BluetoothDevice) (s : Snapshot) : Snapshot :=
  match listed with
  | inl error => if is_empty error then set_devices (sort_devices (merge_devices (bluetooth_devices s) [])) [] s
                 else set_devices (bluetooth_devices s) error s
  | inr devices => set_devices (sort_devices (merge_devices (bluetooth_devices s) devices)) [] s
  end.

(* src/src/bridge_daemon_main.cpp:337-343 refresh_wifi_inventory *)
Definition refresh_wifi_inventory (interfaces : list Bytes) (s : Snapshot) : Snapshot :=
  match interfaces with [] => s | _ => set_interfaces interfaces s end.

(** ** The pages and the polls *)

Section Requests.
Context (version : option Bytes) (csrf_token config_path capabilities_store : Bytes) (pid : Z).

Definition is_request (request : Bytes) (prefix : string) : bool := starts_with (bs prefix) request.
Definition contains (request : Bytes) (pattern : string) : bool :=
  match search (bs pattern) request with Some _ => true | None => false end.

(* src/src/bridge_daemon_main.cpp:1042-1054 main (page) *)
Definition get_page (request : Bytes) (d : Daemon) : Response :=
  mkResponse 200 (bs "text/html; charset=utf-8")
    (render_page version csrf_token (config d) (snapshot d) (management_hotspot_needs_setup (config d))
       (contains request "saved=1") (contains request "carplay_error=1")) [].

(* src/src/bridge_daemon_main.cpp:1055-1059 main (logs) *)
Definition get_logs (a : Answers) : Response :=
  mkResponse 200 (bs "text/html; charset=utf-8") (render_logs_page (recent_log a) 200)
    (bs "Cache-Control: no-store" ++ CRLF).

(* src/src/bridge_daemon_main.cpp:1063-1071 main (scan status) *)
Definition get_scan_status (request : Bytes) (d : Daemon) : Response :=
  let current := match query_field request (bs "phase") with
                 | Some phase => bytes_eqb phase (dec (bluetooth_scan_phase_id (snapshot d)))
                 | None => false
                 end in
  text (if bluetooth_scan_running (snapshot d) && current then 204 else 205) "".

Definition field_is (field : option Bytes) (value : Bytes) : bool :=
  match field with Some v => bytes_eqb v value | None => false end.

(* src/src/bridge_daemon_main.cpp:1072-1089 main (preflight status) *)
Definition get_prepare_status (request : Bytes) (d : Daemon) : Response :=
  let s := snapshot d in
  let page_is_current := field_is (query_field request (bs "state")) (dec (state_number (preflight_state s)))
                         && field_is (query_field request (bs "rev")) (dec (preflight_revision s)) in
  mkResponse (if preflight_active (preflight_state s) && page_is_current then 204 else 205)
    (bs "text/plain") (preflight_detail s) [].

(** ** Settings *)

(** The hotspot with the settings of a configuration. *)
Definition start_hotspot (c : Config) (processes : list Process) (d : Daemon) : bool * list Process * Daemon :=
  let '(ok, n) := start_management_hotspot (wifi_interface c) (Config.management_hotspot_ssid c)
                    (management_hotspot_passphrase c) (mkNmcli processes (hotspot_commands d)) in
  (ok, NetworkManager.processes n, set_commands (commands n) d).

(** Two attempts. *)
(* src/src/bridge_daemon_main.cpp:1422-1430 main (restore_previous_hotspot) *)
Definition restore_previous_hotspot (previous : Config) (processes : list Process) (d : Daemon) : bool * Daemon :=
  let '(ok, processes, d) := start_hotspot previous processes d in
  if ok then (true, d) else let '(ok, _, d) := start_hotspot previous processes d in (ok, d).

Record Outcome := mkOutcome { saved : bool; apply_failed : bool; rollback_failed : bool }.

(** The hotspot is changed first, then the file, then the configuration in use. *)
(* src/src/bridge_daemon_main.cpp:1431-1451 main (transaction) *)
Definition transaction (hotspot_changed : bool) (updated : Config) (a : Answers) (d : Daemon) : Outcome * Daemon :=
  let previous := config d in
  let '(hotspot_applied, processes, d) :=
    if hotspot_changed then start_hotspot updated (nmcli_processes a) d else (true, nmcli_processes a, d) in
  if negb hotspot_applied then
    let '(restored, d) := restore_previous_hotspot previous processes d in
    (mkOutcome false true (negb restored), d)
  else
    let '(config_saved, w) := save_config config_path updated pid (save_counter a) (start_world (disk d) (save_results a)) in
    let d := set_disk (FileStore.disk w) d in
    if config_saved then (mkOutcome true false false, set_config updated d)
    else if hotspot_changed then
      let '(restored, d) := restore_previous_hotspot previous processes d in
      (mkOutcome false false (negb restored), d)
    else (mkOutcome false false false, d).

(* src/src/bridge_daemon_main.cpp:1090-1119 main (management hotspot) *)
Definition post_hotspot (form : Bytes) (d : Daemon) : Daemon * Response :=
  let passphrase := form_field form (bs "management_hotspot_passphrase") in
  let confirmation := form_field form (bs "management_hotspot_passphrase_confirm") in
  let change_ssid := match form_field form (bs "management_hotspot_change_ssid") with Some _ => true | None => false end in
  match passphrase, confirmation with
  | Some passphrase, Some confirmation =>
      if negb (bytes_eqb passphrase confirmation) then (d, line 400 "Passwords do not match")
      else if negb (valid_hotspot_passphrase passphrase) then (d, line 400 "Choose a different valid password")
      else
        let current := Config.management_hotspot_ssid (config d) in
        let ssid := if change_ssid then next_management_hotspot_ssid current else current in
        (on_snapshot (set_pending true ssid) (set_update (Some (passphrase, ssid)) d), redirect "/")
  | _, _ => (d, line 400 "Passwords do not match")
  end.

(* src/src/bridge_daemon_main.cpp:1120-1197 main (apply) *)
Definition post_apply (a : Answers) (d : Daemon) : Daemon * Response :=
  match pending_update d with
  | None => (set_update None d, line 400 "No password update is pending")
  | Some (passphrase, ssid) =>
      let d := set_update None d in
      let updated := mkConfig (Config.head_unit_mac (config d)) (wifi_interface (config d)) ssid passphrase
                       (airplay_pairing_store (config d)) in
      let '(outcome, d) := transaction true updated a d in
      if negb (saved outcome) then
        (set_update (Some (passphrase, ssid)) d,
         line (if apply_failed outcome || rollback_failed outcome then 503 else 400)
           (if rollback_failed outcome then "Hotspot update failed; runtime state needs recovery"
            else if apply_failed outcome then "Unable to apply hotspot settings; configuration unchanged"
            else "Invalid hotspot password"))
      else
        (on_snapshot (set_pending false []) d,
         mkResponse 200 (bs "text/html")
           (lit ["<!doctype html><title>AA2ACP</title><p>Password updated. This device will now disconnect from the ";
                 "hotspot.</p><p>Reconnect to Wi-Fi network <b>"]%string
            ++ html_escape ssid
            ++ lit ["</b>, reconnect using the new password, then <a href=`/`>continue</a>.</p>"]%string) [])
  end.

Definition valid_new_password (passphrase confirm : option Bytes) : bool :=
  match passphrase with
  | Some (c :: rest) =>
      match confirm with
      | Some confirm => bytes_eqb confirm (c :: rest) && valid_hotspot_passphrase (c :: rest)
      | None => false
      end
  | _ => true
  end.

Definition first_filled (selected manual : option Bytes) (otherwise : Bytes) : Bytes :=
  match selected, manual with
  | Some (c :: rest), _ => c :: rest
  | _, Some (c :: rest) => c :: rest
  | _, _ => otherwise
  end.

(* src/src/bridge_daemon_main.cpp:1377-1421 main (config fields) *)
Definition updated_config (form : Bytes) (previous : Config) : option Config :=
  let passphrase := form_field form (bs "management_hotspot_passphrase") in
  match form_field form (bs "wifi_interface"), form_field form (bs "management_hotspot_ssid") with
  | Some wifi, Some hotspot_ssid =>
      if valid_new_password passphrase (form_field form (bs "management_hotspot_passphrase_confirm")) then
        Some (mkConfig (first_filled (form_field form (bs "head_unit_mac")) (form_field form (bs "manual_mac"))
                          (Config.head_unit_mac previous))
                wifi hotspot_ssid
                (first_filled passphrase None (management_hotspot_passphrase previous))
                (airplay_pairing_store previous))
      else None
  | _, _ => None
  end.

Definition hotspot_differs (previous updated : Config) : bool :=
  negb (bytes_eqb (wifi_interface previous) (wifi_interface updated))
  || negb (bytes_eqb (Config.management_hotspot_ssid previous) (Config.management_hotspot_ssid updated))
  || negb (bytes_eqb (management_hotspot_passphrase previous) (management_hotspot_passphrase updated)).

(** [std::filesystem::remove] with an error code: whether there was no error. *)
Definition remove_file (path : Bytes) (ok : bool) (d : Daemon) : Daemon :=
  if ok then set_disk (delete path (disk d)) d else d.

(* src/src/bridge_daemon_main.cpp:1377-1488 main (config) *)
Definition post_config (form : Bytes) (a : Answers) (d : Daemon) : Daemon * Response :=
  let previous := config d in
  match updated_config form previous with
  | None => (d, line 400 "Invalid configuration")
  | Some updated =>
      let '(outcome, d) := transaction (hotspot_differs previous updated) updated a d in
      if saved outcome then
        let d := if bytes_eqb (Config.head_unit_mac updated) (Config.head_unit_mac previous) then d
                 else remove_file capabilities_store (capabilities_removed a) d in
        (if bytes_eqb (wifi_interface previous) (wifi_interface updated) then d else set_rebind d, redirect "/?saved=1")
      else if rollback_failed outcome then (d, line 503 "Hotspot update failed; runtime state needs recovery")
      else if apply_failed outcome then (d, line 503 "Unable to apply Wi-Fi settings; configuration unchanged")
      else (d, line 400 "Invalid configuration")
  end.

(** ** Work for the head unit *)

Definition configured (c : Config) : bool := negb (is_empty (Config.head_unit_mac c)) && negb (is_empty (wifi_interface c)).

(** A thread that has ended is joined before the new one is started. *)
(* src/src/bridge_daemon_main.cpp:1204-1250 main (prepare) *)
Definition post_prepare (d : Daemon) : Daemon * Response :=
  let selected_config := config d in
  let start_preflight := negb (preflight_active (preflight_state (snapshot d))) && negb (bluetooth_scan_running (snapshot d)) in
  let d := if start_preflight then on_snapshot (set_preflight discovering (bs "queued")) d else d in
  if start_preflight && configured selected_config then
    (set_preflight_worker (Some (selected_config, Queued)) d, redirect "/")
  else
    (on_snapshot (fun s => set_detail (if bluetooth_scan_running s then bs "wait for Bluetooth scanning to finish first"
                                       else bs "configure a head-unit MAC and Wi-Fi interface first") s) d,
     redirect (if configured selected_config then "/" else "/?carplay_error=1")).

(** The pending question that the form answers, and the decision. *)
(* src/src/bridge_daemon_main.cpp:1251-1264 main (confirm) *)
Definition confirmed_question (form : Bytes) (d : Daemon) : option (PairingConfirmationMessage * bool) :=
  match form_field form (bs "id"), form_field form (bs "decision"), pairing_confirmation (snapshot d) with
  | Some question, Some decision, Some m =>
      if (bytes_eqb decision (bs "confirm") || bytes_eqb decision (bs "reject")) && bytes_eqb question (dec (id m))
      then Some (m, bytes_eqb decision (bs "confirm")) else None
  | _, _, _ => None
  end.

Definition bump_revision (s : Snapshot) : Snapshot := set_detail (preflight_detail s) s.

(* src/src/bridge_daemon_main.cpp:1251-1286 main (bluetooth confirm) *)
Definition post_confirm (form : Bytes) (a : Answers) (d : Daemon) : Daemon * Response :=
  let refused := line 409 "No matching Bluetooth confirmation is pending" in
  match confirmed_question form d with
  | None => (on_snapshot bump_revision d, refused)
  | Some (m, confirmed) =>
      let d := on_snapshot (set_confirmation None) d in
      if answer_sent a then (add_answer m confirmed d, redirect "/")
      else (on_snapshot bump_revision (on_snapshot (set_confirmation (Some m)) d), refused)
  end.

(* src/src/bridge_daemon_main.cpp:1287-1344 main (forget) *)
Definition post_forget (a : Answers) (d : Daemon) : Daemon * Response :=
  let selected_config := config d in
  let d :=
    if is_empty (Config.head_unit_mac selected_config) then
      on_snapshot (set_detail (bs "configure a head unit before clearing its local state")) d
    else if preflight_active (preflight_state (snapshot d)) then
      on_snapshot (set_detail (bs "cannot clear head-unit state while CarPlay preparation is running")) d
    else
      let '(_, calls) := forget_bluez_device (Config.head_unit_mac selected_config) (bluez_connection a) (bluez_answered a) in
      let d := add_calls calls d in
      let d := remove_file (airplay_pairing_store selected_config) (pairing_removed a) d in
      let d := remove_file capabilities_store (capabilities_removed a) d in
      let d := on_snapshot (refresh_bluetooth_inventory (bluez_devices a)) d in
      on_snapshot (set_detail (if pairing_removed a && capabilities_removed a
        then bs "local Bluetooth, AirPlay, and capability state cleared; start fresh pairing on the head unit"
        else bs "some local head-unit state could not be cleared; see daemon log")) d in
  (d, redirect "/").

(* src/src/bridge_daemon_main.cpp:1345-1366 main (scan) *)
Definition post_scan (d : Daemon) : Daemon * Response :=
  (if bluetooth_scan_running (snapshot d) then d
   else set_scan_worker (Some Queued) (on_snapshot (set_scan true 1 (bs "queued")) d), redirect "/").

(* src/src/bridge_daemon_main.cpp:1367-1376 main (display) *)
Definition post_display (form : Bytes) (d : Daemon) : Daemon * Response :=
  let show_unnamed := match form_field form (bs "show_unnamed") with Some _ => true | None => false end in
  (on_snapshot (set_show_unnamed show_unnamed) d, redirect "/").

(** ** The routes, in the order in which they are tried *)

(** [form]: the body of the request. *)
(* src/src/bridge_daemon_main.cpp:1042-1493 main (handle_client) *)
Definition handle_request (request form : Bytes) (a : Answers) (d : Daemon) : Daemon * Response :=
  if is_request request "GET / " || is_request request "GET /?" then (d, get_page request d)
  else if is_request request "GET /logs" then (d, get_logs a)
  else if is_request request "POST " && negb (field_is (form_field form (bs "csrf")) csrf_token)
  then (d, line 403 "Invalid CSRF token")
  else if is_request request "GET /scan-status" then (d, get_scan_status request d)
  else if is_request request "GET /carplay-prepare-status" then (d, get_prepare_status request d)
  else if is_request request "POST /management-hotspot " then post_hotspot form d
  else if is_request request "POST /management-hotspot/apply " then post_apply a d
  else if management_hotspot_needs_setup (config d)
  then (d, line 403 "Change the default management hotspot password first")
  else if is_request request "POST /carplay-prepare " then post_prepare d
  else if is_request request "POST /bluetooth-confirm " then post_confirm form a d
  else if is_request request "POST /head-unit-forget " then post_forget a d
  else if is_request request "POST /scan " then post_scan d
  else if is_request request "POST /display " then post_display form d
  else if is_request request "POST /config " then post_config form a d
  else (d, line 400 "Unknown endpoint").

(** What a client is answered: nothing unless its request is complete. *)
(* src/src/bridge_daemon_main.cpp:1015-1033 main (framing) *)
Definition handle_client (max_size : Z) (request : Bytes) (a : Answers) (d : Daemon) : Daemon * option Response :=
  match frame_http_request max_size request (16 * 1024) (16 * 1024) with
  | complete form => let '(d, r) := handle_request request form a d in (d, Some r)
  | _ => (d, None)
  end.
End Requests.

(** ** The background threads *)

(* src/src/bridge_daemon_main.cpp:481-482 run_carplay_preflight (start) *)
Definition preflight_begins (c : Config) (d : Daemon) : Daemon :=
  set_preflight_worker (Some (c, Running))
    (on_snapshot (set_preflight discovering (bs "searching for the head unit over Bluetooth")) d).

(** [result]: what the session returned. *)
(* src/src/bridge_daemon_main.cpp:488-499 run_carplay_preflight (end) *)
Definition preflight_ends (result : Z) (d : Daemon) : Daemon :=
  set_preflight_worker None
    (on_snapshot (set_preflight (if result =? 0 then succeeded else failed)
                    (if result =? 0 then bs "display test completed" else bs "failed (see daemon log for details)")) d).

(** What a session reports, one of a preflight or one for Android Auto. *)
Inductive Hook := OnConnectionLost | OnPairingConfirmation (m : PairingConfirmationMessage) | OnPairingReset.

(* src/src/bridge_daemon_main.cpp:444-465 run_carplay_session (hooks) *)
Definition on_hook (h : Hook) (s : Snapshot) : Snapshot :=
  match h with
  | OnConnectionLost | OnPairingReset => set_confirmation None s
  | OnPairingConfirmation m =>
      set_preflight pairing_prompt (bs "compare the Bluetooth pairing code in the management UI") (set_confirmation (Some m) s)
  end.

(* src/src/bridge_daemon_main.cpp:350-361 run_bluetooth_scan (start) *)
Definition scan_begins (d : Daemon) : Daemon :=
  set_scan_worker (Some Running)
    (on_snapshot (fun s => set_scan (bluetooth_scan_running s) 3 (bs "classic discovery in progress") s) d).

(* src/src/bridge_daemon_main.cpp:362-372 run_bluetooth_scan (end) *)
Definition scan_ends (listed : Bytes + list BluetoothDevice) (d : Daemon) : Daemon :=
  set_scan_worker None
    (on_snapshot (fun s => set_scan false 4 (bs "last discovery completed") (refresh_bluetooth_inventory listed s)) d).

(** ** Start *)

(** [state_directory] and [default_store] are the default paths; [interfaces] and
    [address] what nmcli and the interface's address file show; the two [Answers] are
    for the two saves. *)
(* src/src/bridge_daemon_main.cpp:869-915 main (start) *)
Definition start_daemon (config_path : Bytes) (pid : Z) (state_directory default_store address : Bytes)
    (loaded : option Config) (listed : Bytes + list BluetoothDevice) (interfaces : list Bytes)
    (a1 a2 : Answers) (files : Disk) : Daemon :=
  let c := default (mkConfig [] [] [] [] default_store) loaded in
  let migrate := is_empty (airplay_pairing_store c)
                 || negb (starts_with (state_directory ++ [47]) (airplay_pairing_store c)) in
  let c := if migrate then mkConfig (Config.head_unit_mac c) (wifi_interface c) (Config.management_hotspot_ssid c)
                             (management_hotspot_passphrase c) default_store else c in
  let files := if migrate then
                 FileStore.disk (save_config config_path c pid (save_counter a1) (start_world files (save_results a1))).2
               else files in
  let s := refresh_wifi_inventory interfaces (refresh_bluetooth_inventory listed new_snapshot) in
  let c := if is_empty (wifi_interface c) then
             match wifi_interfaces s with
             | first :: _ => mkConfig (Config.head_unit_mac c) first (Config.management_hotspot_ssid c)
                               (management_hotspot_passphrase c) (airplay_pairing_store c)
             | [] => c
             end else c in
  let c := ensure_management_hotspot_settings address c in
  let d := mkDaemon c s None false None None files [] [] [] in
  if is_empty (wifi_interface c) then d
  else
    let d := set_disk (FileStore.disk (save_config config_path c pid (save_counter a2)
                                         (start_world (disk d) (save_results a2))).2) d in
    (start_hotspot c (nmcli_processes a2) d).2.

(** ** Steps *)

Section Steps.
Context (version : option Bytes) (csrf_token config_path capabilities_store : Bytes) (pid : Z).

Inductive daemon_step : Daemon -> Daemon -> Prop :=
| step_request request form a d :
    daemon_step d (handle_request version csrf_token config_path capabilities_store pid request form a d).1
| step_preflight_begins c d : preflight_worker d = Some (c, Queued) -> daemon_step d (preflight_begins c d)
| step_preflight_ends c result d : preflight_worker d = Some (c, Running) -> daemon_step d (preflight_ends result d)
| step_hook h d : daemon_step d (on_snapshot (on_hook h) d)
| step_scan_begins d : scan_worker d = Some Queued -> daemon_step d (scan_begins d)
| step_scan_ends listed d : scan_worker d = Some Running -> daemon_step d (scan_ends listed d)
| step_wifi interfaces d : daemon_step d (on_snapshot (refresh_wifi_inventory interfaces) d).

Definition daemon_run := rtc daemon_step.
End Steps.
