(* ===== verification/DaemonInvariants.v ===== *)
(** * What holds of the management requests

    The theorems on the definitions of DaemonRequests.v: who may change something,
    settings that change together with the file and the hotspot, and what holds in
    every run of requests and background work. *)

From stdpp Require Import relations.
From S2P Require Import Prelude Text Bplist FileStore Config HeadUnitCapabilities NetworkManager BluezInventory ManagementUi BluetoothWorker CarplayWorker ManagementPage DaemonParts DaemonRequests.
#[local] Open Scope Z_scope.

(** ** Facts *)

Lemma starts_with_weaken a b l : starts_with (a ++ b) l = true -> starts_with a l = true.
Proof.
  revert l. induction a as [|x a IH]; intros [|y l]; cbn; try done.
  intros [-> H]%andb_prop. cbn. by apply IH.
Qed.

Lemma bs_app s t : bs (s ++ t)%string = bs s ++ bs t.
Proof. induction s as [|c s IH]; [done|].
  change (Z.of_N (N_of_ascii c) :: bs (s ++ t) = Z.of_N (N_of_ascii c) :: (bs s ++ bs t)). by rewrite IH. Qed.

Lemma post_prefix rest request : is_request request ("POST " ++ rest)%string = true -> is_request request "POST " = true.
Proof.
  unfold is_request. intros H. apply (starts_with_weaken _ (bs rest)). rewrite <- bs_app. exact H.
Qed.

Lemma field_is_true field value : field_is field value = true <-> field = Some value.
Proof.
  unfold field_is. destruct field as [v|]; [|done]. rewrite bytes_eqb_eq. split; [by intros ->|by intros [= ->]].
Qed.

(** A request that changes nothing of the daemon. *)
Definition unchanged (d : Daemon) (r : Daemon * Response) : Prop := r.1 = d.

Section Routes.
Context (version : option Bytes) (csrf_token config_path capabilities_store : Bytes) (pid : Z).

Abbreviation handle := (handle_request version csrf_token config_path capabilities_store pid).

(** What is left when no earlier route matched. *)
Lemma not_a_post request form a d : is_request request "POST " = false -> unchanged d (handle request form a d).
Proof.
  intros Hp. unfold unchanged, handle_request. rewrite Hp. cbn [andb].
  assert (Hn : forall rest : string, is_request request ("POST " ++ rest)%string = false).
  { intros rest. apply not_true_is_false. intros H%post_prefix. congruence. }
  rewrite (Hn "/management-hotspot "%string : is_request request "POST /management-hotspot " = false).
  rewrite (Hn "/management-hotspot/apply "%string : is_request request "POST /management-hotspot/apply " = false).
  rewrite (Hn "/carplay-prepare "%string : is_request request "POST /carplay-prepare " = false).
  rewrite (Hn "/bluetooth-confirm "%string : is_request request "POST /bluetooth-confirm " = false).
  rewrite (Hn "/head-unit-forget "%string : is_request request "POST /head-unit-forget " = false).
  rewrite (Hn "/scan "%string : is_request request "POST /scan " = false).
  rewrite (Hn "/display "%string : is_request request "POST /display " = false).
  rewrite (Hn "/config "%string : is_request request "POST /config " = false).
  repeat (case_match; try done).
Qed.

Lemma post_is_not_get request (prefix : string) : is_request request "POST " = true -> is_request request ("G" ++ prefix)%string = false.
Proof.
  unfold is_request. destruct request as [|c request]; [done|]. intros H. apply andb_prop in H as [H _].
  apply Z.eqb_eq in H. subst c. reflexivity.
Qed.

(** The routes of a POST request that carries the token. *)
Lemma post_routes request form a d :
  is_request request "POST " = true ->
  handle request form a d =
  if negb (field_is (form_field form (bs "csrf")) csrf_token) then (d, line 403 "Invalid CSRF token")
  else if is_request request "POST /management-hotspot " then post_hotspot form d
  else if is_request request "POST /management-hotspot/apply " then post_apply config_path pid a d
  else if management_hotspot_needs_setup (config d)
  then (d, line 403 "Change the default management hotspot password first")
  else if is_request request "POST /carplay-prepare " then post_prepare d
  else if is_request request "POST /bluetooth-confirm " then post_confirm form a d
  else if is_request request "POST /head-unit-forget " then post_forget capabilities_store a d
  else if is_request request "POST /scan " then post_scan d
  else if is_request request "POST /display " then post_display form d
  else if is_request request "POST /config " then post_config config_path capabilities_store pid form a d
  else (d, line 400 "Unknown endpoint").
Proof.
  intros Hp. unfold handle_request.
  rewrite (post_is_not_get request "ET / "%string Hp : is_request request "GET / " = false).
  rewrite (post_is_not_get request "ET /?"%string Hp : is_request request "GET /?" = false).
  rewrite (post_is_not_get request "ET /logs"%string Hp : is_request request "GET /logs" = false).
  rewrite (post_is_not_get request "ET /scan-status"%string Hp : is_request request "GET /scan-status" = false).
  rewrite (post_is_not_get request "ET /carplay-prepare-status"%string Hp : is_request request "GET /carplay-prepare-status" = false).
  by rewrite Hp.
Qed.
End Routes.

(** ** Theorems: who may change something *)

(** C16. Only a request with the token changes anything. A request that is not a POST,
    or whose form does not carry the secret token, leaves the daemon as it is - its
    configuration, files, hotspot, Bluetooth and workers -, and such a POST is
    answered with 403. *)
Theorem token_protects version csrf_token config_path capabilities_store pid request form a d :
  let '(d', response) := handle_request version csrf_token config_path capabilities_store pid request form a d in
  (is_request request "POST " = true /\ form_field form (bs "csrf") = Some csrf_token) \/
  (d' = d /\ (is_request request "POST " = true -> status response = 403)).
Proof.
  destruct (is_request request "POST ") eqn:Hp.
  - rewrite post_routes by done. destruct (field_is (form_field form (bs "csrf")) csrf_token) eqn:Hf.
    + apply field_is_true in Hf. cbn [negb]. destruct (if is_request request "POST /management-hotspot " then _ else _) as [d' r].
      by left.
    + right. by cbn.
  - pose proof (not_a_post version csrf_token config_path capabilities_store pid request form a d Hp) as H.
    destruct (handle_request _ _ _ _ _ _ _ _ _) as [d' r]. right. split; [exact H|done].
Qed.

(** Nothing works before the default password was changed. While the hotspot has
    the password it was delivered with, every request but the two that change it
    leaves the daemon as it is, and a POST with the token is answered with 403. *)
Theorem default_password_gate version csrf_token config_path capabilities_store pid request form a d :
  management_hotspot_needs_setup (config d) = true ->
  is_request request "POST /management-hotspot " = false -> is_request request "POST /management-hotspot/apply " = false ->
  let '(d', response) := handle_request version csrf_token config_path capabilities_store pid request form a d in
  d' = d /\ (is_request request "POST " = true -> status response = 403).
Proof.
  intros Hs H1 H2. destruct (is_request request "POST ") eqn:Hp.
  - rewrite post_routes by done. rewrite H1, H2, Hs. by destruct (negb _).
  - pose proof (not_a_post version csrf_token config_path capabilities_store pid request form a d Hp) as H.
    destruct (handle_request _ _ _ _ _ _ _ _ _) as [d' r]. split; [exact H|done].
Qed.

Definition new_config : Config := mkConfig (bs "AA:BB") (bs "wlan0") (bs "AA2ACP-1") kDefaultHotspotPassphrase (bs "/s/p").
Definition new_daemon (c : Config) : Daemon := mkDaemon c new_snapshot None false None None ∅ [] [] [].
Definition no_answers : Answers := mkAnswers [] [] 0 false false false false (inr []) false [].

Lemma default_password_gate_witness :
  let '(d', response) := handle_request None (bs "t") (bs "/s/config") (bs "/s/c") 1 (bs "POST /scan HTTP/1.1") (bs "csrf=t")
                           no_answers (new_daemon new_config) in
  d' = new_daemon new_config /\ (is_request (bs "POST /scan HTTP/1.1") "POST " = true -> status response = 403).
Proof. apply default_password_gate; reflexivity. Defined.

(** ** Facts: the transaction *)

(** The hotspot that was activated last has the interface, the name and the password of
    this configuration. *)
Definition hotspot_has (c : Config) (cs : list Command) : Prop :=
  activated_last (wifi_interface c) (Config.management_hotspot_ssid c) (management_hotspot_passphrase c) cs.

(** A change of the commands only. *)
Definition only_commands (d d' : Daemon) : Prop := exists cs, d' = set_commands cs d.

Lemma start_hotspot_spec c ps d ok ps' d' :
  start_hotspot c ps d = (ok, ps', d') ->
  only_commands d d' /\ (ok = true -> hotspot_has c (hotspot_commands d')).
Proof.
  unfold start_hotspot. destruct (start_management_hotspot _ _ _ _) as [b n] eqn:E. intros [= <- <- <-].
  split; [by eexists|]. intros ->. apply hotspot_started_last in E. exact E.
Qed.

Lemma only_commands_trans d d1 d2 : only_commands d d1 -> only_commands d1 d2 -> only_commands d d2.
Proof. intros [c1 ->] [c2 ->]. by exists c2. Qed.

Lemma restore_spec previous ps d ok d' :
  restore_previous_hotspot previous ps d = (ok, d') ->
  only_commands d d' /\ (ok = true -> hotspot_has previous (hotspot_commands d')).
Proof.
  unfold restore_previous_hotspot. destruct (start_hotspot previous ps d) as [[ok1 ps1] d1] eqn:E1.
  apply start_hotspot_spec in E1 as [H1 L1]. destruct ok1; [intros [= <- <-]; auto|].
  destruct (start_hotspot previous ps1 d1) as [[ok2 ps2] d2] eqn:E2. apply start_hotspot_spec in E2 as [H2 L2].
  intros [= <- <-]. split; [by eapply only_commands_trans|exact L2].
Qed.

Section Transactions.
Context (config_path : Bytes) (pid : Z).

(** What a change of the settings leaves alone, and what it did when it was saved
    and when it was not. *)
Definition transaction_result (hotspot_changed : bool) (updated : Config) (counter : Z) (d : Daemon) (o : Outcome) (d' : Daemon) : Prop :=
  exists cs files, d' = set_commands cs (set_disk files (if saved o then set_config updated d else d)) /\
  (forall name, name <> config_path -> name <> temporary_name config_path pid counter -> files !! name = disk d !! name) /\
  if saved o then
    validate_config updated false = true /\ files !! config_path = Some (config_content updated) /\
    if hotspot_changed then hotspot_has updated cs else cs = hotspot_commands d
  else
    files !! config_path = disk d !! config_path /\
    if hotspot_changed then rollback_failed o = false -> hotspot_has (config d) cs
    else cs = hotspot_commands d.

Lemma save_spec c counter files results ok w :
  save_config config_path c pid counter (start_world files results) = (ok, w) ->
  (forall name, name <> config_path -> name <> temporary_name config_path pid counter -> FileStore.disk w !! name = files !! name) /\
  if ok then validate_config c false = true /\ FileStore.disk w !! config_path = Some (config_content c)
  else FileStore.disk w !! config_path = files !! config_path.
Proof.
  intros E. pose proof (save_config_outcome _ _ _ _ _ _ _ _ E) as [_ Ho]. destruct ok.
  - destruct Ho as (H1 & _ & H3). split; [by intros name ? ?; apply H3|]. split; [|done].
    unfold save_config in E. by destruct (validate_config c false).
  - split; [by intros name _ Hn; apply Ho|]. apply Ho. intros Heq. exact (temporary_name_ne config_path pid counter (eq_sym Heq)).
Qed.

Lemma transaction_spec hotspot_changed updated a d o d' :
  transaction config_path pid hotspot_changed updated a d = (o, d') -> transaction_result hotspot_changed updated (save_counter a) d o d'.
Proof.
  unfold transaction, transaction_result.
  destruct (if hotspot_changed then _ else _) as [[applied ps] d1] eqn:E1.
  assert (only_commands d d1 /\ (applied = true -> if hotspot_changed then hotspot_has updated (hotspot_commands d1)
    else hotspot_commands d1 = hotspot_commands d) /\ (applied = false -> hotspot_changed = true)) as ([cs1 ->] & L1 & Hc).
  { destruct hotspot_changed; [apply start_hotspot_spec in E1 as [? ?]; auto|].
    injection E1 as <- <- <-. split; [|done]. exists (hotspot_commands d). by destruct d. }
  clear E1. destruct applied; cbn [negb].
  - destruct (save_config _ _ _ _ _) as [ok w] eqn:Es. apply save_spec in Es as [Hf Es]. cbn [disk set_commands] in Es, Hf.
    specialize (L1 eq_refl). cbn [hotspot_commands set_commands] in L1.
    destruct ok; [intros [= <- <-]; exists cs1, (FileStore.disk w); cbn [saved]; split; [done|]; by destruct Es|].
    destruct hotspot_changed.
    + destruct (restore_previous_hotspot _ _ _) as [restored d2] eqn:E2. apply restore_spec in E2 as [[cs2 ->] L2].
      intros [= <- <-]. exists cs2, (FileStore.disk w). cbn [saved rollback_failed]. split; [done|]. split; [done|]. split; [done|].
      intros Hr. apply negb_false_iff in Hr. by apply L2.
    + intros [= <- <-]. exists cs1, (FileStore.disk w). by cbn [saved].
  - rewrite (Hc eq_refl). destruct (restore_previous_hotspot _ _ _) as [restored d2] eqn:E2.
    apply restore_spec in E2 as [[cs2 ->] L2]. intros [= <- <-]. exists cs2, (disk d). cbn [saved rollback_failed].
    split; [by destruct d|]. split; [done|]. split; [done|]. intros Hr. apply negb_false_iff in Hr. by apply L2.
Qed.
End Transactions.

(** C17. Settings change together or not at all. When a change is saved, the
    configuration in use, the configuration file and - if it was concerned - the
    hotspot that was activated last, with its interface, its name and its password, are the
    new ones; otherwise the configuration in use and the file are the old ones, and the
    hotspot activated last is the old one, by interface, name and password, unless the failure of
    that is reported. Nothing else of the daemon changes, and no other file but the
    temporary one of the save. *)
Theorem settings_change_together config_path pid hotspot_changed updated a d :
  let '(o, d') := transaction config_path pid hotspot_changed updated a d in
  (saved o = true -> config d' = updated /\ validate_config updated false = true /\
     disk d' !! config_path = Some (config_content updated) /\
     (hotspot_changed = true -> hotspot_has updated (hotspot_commands d'))) /\
  (saved o = false -> config d' = config d /\ disk d' !! config_path = disk d !! config_path /\
     (hotspot_changed = true -> rollback_failed o = false -> hotspot_has (config d) (hotspot_commands d'))) /\
  (hotspot_changed = false -> hotspot_commands d' = hotspot_commands d) /\
  (forall name, name <> config_path -> name <> temporary_name config_path pid (save_counter a) -> disk d' !! name = disk d !! name) /\
  snapshot d' = snapshot d /\ pending_update d' = pending_update d /\ rebind_requested d' = rebind_requested d /\
  preflight_worker d' = preflight_worker d /\ scan_worker d' = scan_worker d /\
  worker_answers d' = worker_answers d /\ bluez_calls d' = bluez_calls d.
Proof.
  destruct (transaction _ _ _ _ _ _) as [o d'] eqn:E. apply transaction_spec in E as (cs & files & -> & Hf & H).
  destruct (saved o); destruct hotspot_changed; cbn; naive_solver.
Qed.

(** ** Facts: the steps *)

Section Invariants.
Context (version : option Bytes) (csrf_token config_path capabilities_store : Bytes) (pid : Z).

Abbreviation step := (daemon_step version csrf_token config_path capabilities_store pid).
Abbreviation run := (daemon_run version csrf_token config_path capabilities_store pid).

(** The threads and what the page shows of them; the update that waits. *)
Definition workflow_ok (d : Daemon) : Prop :=
  (bluetooth_scan_running (snapshot d) = true <-> scan_worker d <> None) /\
  (forall c w, preflight_worker d = Some (c, w) -> configured c = true /\ preflight_active (preflight_state (snapshot d)) = true) /\
  (management_hotspot_password_pending (snapshot d) = true <-> pending_update d <> None) /\
  (forall passphrase ssid, pending_update d = Some (passphrase, ssid) -> pending_management_hotspot_ssid (snapshot d) = ssid).

(** The parts of the state that the invariant speaks of. *)
Definition workflow_view (d : Daemon) : bool * option Worker * option (Config * Worker) * bool * bool * option (Bytes * Bytes) * Bytes :=
  (bluetooth_scan_running (snapshot d), scan_worker d, preflight_worker d, preflight_active (preflight_state (snapshot d)),
   management_hotspot_password_pending (snapshot d), pending_update d, pending_management_hotspot_ssid (snapshot d)).

Lemma workflow_same d d' : workflow_view d' = workflow_view d -> workflow_ok d -> workflow_ok d'.
Proof. unfold workflow_view, workflow_ok. intros [= -> -> -> -> -> -> ->]. done. Qed.

Lemma transaction_view hotspot_changed updated a d :
  workflow_view (transaction config_path pid hotspot_changed updated a d).2 = workflow_view d.
Proof.
  destruct (transaction _ _ _ _ _ _) as [o d'] eqn:E. apply transaction_spec in E as (cs & files & -> & _ & _).
  by destruct (saved o).
Qed.

Lemma remove_file_view path ok d : workflow_view (remove_file path ok d) = workflow_view d.
Proof. by destruct ok. Qed.

Lemma refresh_view listed d : workflow_view (on_snapshot (refresh_bluetooth_inventory listed) d) = workflow_view d.
Proof. unfold on_snapshot, refresh_bluetooth_inventory. by repeat case_match. Qed.

Lemma post_hotspot_workflow form d : workflow_ok d -> workflow_ok (post_hotspot form d).1.
Proof. intros (H1 & H2 & H3 & H4). unfold post_hotspot. repeat case_match; split_and!; cbn; naive_solver. Qed.

Lemma post_apply_workflow a d : workflow_ok d -> workflow_ok (post_apply config_path pid a d).1.
Proof.
  intros Hd. unfold post_apply. destruct (pending_update d) as [[passphrase ssid]|] eqn:Ep.
  2:{ eapply workflow_same; [|exact Hd]. unfold workflow_view. cbn. by rewrite Ep. }
  pose proof (transaction_view true (mkConfig (Config.head_unit_mac (config d)) (wifi_interface (config d)) ssid passphrase
    (airplay_pairing_store (config d))) a (set_update None d)) as Hv. cbn [config set_update] in Hv |- *.
  destruct (transaction _ _ _ _ _ _) as [o d1]. unfold workflow_view in Hv. cbn in Hv. injection Hv as V1 V2 V3 V4 V5 V6 V7.
  destruct Hd as (H1 & H2 & H3 & H4). rewrite Ep in H3, H4.
  destruct (negb (saved o)); unfold workflow_ok; cbn; rewrite ?V1, ?V2, ?V3, ?V4, ?V5, ?V6, ?V7; naive_solver.
Qed.

Lemma post_config_workflow form a d : workflow_ok d -> workflow_ok (post_config config_path capabilities_store pid form a d).1.
Proof.
  intros Hd. unfold post_config. destruct (updated_config form (config d)) as [updated|]; [|done].
  pose proof (transaction_view (hotspot_differs (config d) updated) updated a d) as Hv.
  destruct (transaction _ _ _ _ _ _) as [o d1]. cbn [snd] in Hv.
  destruct (saved o); [|by repeat case_match; eapply workflow_same].
  eapply workflow_same; [|exact Hd]. rewrite <- Hv. cbn [fst]. repeat case_match; unfold set_rebind; cbn; try done;
    by rewrite <- (remove_file_view capabilities_store (capabilities_removed a) d1).
Qed.

Lemma post_prepare_workflow d : workflow_ok d -> workflow_ok (post_prepare d).1.
Proof.
  intros (H1 & H2 & H3 & H4). unfold post_prepare, workflow_ok.
  destruct (preflight_active (preflight_state (snapshot d))) eqn:Ea; [cbn; rewrite Ea; by split_and!|].
  destruct (bluetooth_scan_running (snapshot d)) eqn:Er; [cbn; rewrite Ea; rewrite ?Er; by split_and!|].
  destruct (configured (config d)) eqn:Ec; cbn; (split_and!; [by rewrite ?Er| |done|done]); naive_solver.
Qed.

Lemma post_forget_workflow a d : workflow_ok d -> workflow_ok (post_forget capabilities_store a d).1.
Proof.
  intros Hd. unfold post_forget. destruct (is_empty _); [by eapply workflow_same|].
  destruct (preflight_active _); [by eapply workflow_same|]. destruct (forget_bluez_device _ _ _) as [ok calls].
  eapply workflow_same; [|exact Hd]. cbn [fst].
  transitivity (workflow_view (on_snapshot (refresh_bluetooth_inventory (bluez_devices a))
    (remove_file capabilities_store (capabilities_removed a) (remove_file (airplay_pairing_store (config d)) (pairing_removed a)
       (add_calls calls d))))); [done|]. by rewrite refresh_view, !remove_file_view.
Qed.

Lemma post_confirm_workflow form a d : workflow_ok d -> workflow_ok (post_confirm form a d).1.
Proof. intros Hd. unfold post_confirm. repeat case_match; by eapply workflow_same. Qed.

Lemma post_scan_workflow d : workflow_ok d -> workflow_ok (post_scan d).1.
Proof.
  intros Hd. unfold post_scan. destruct (bluetooth_scan_running (snapshot d)); [done|].
  destruct Hd as (H1 & H2 & H3 & H4). unfold workflow_ok. cbn. split_and!; done.
Qed.

Lemma request_workflow request form a d :
  workflow_ok d -> workflow_ok (handle_request version csrf_token config_path capabilities_store pid request form a d).1.
Proof.
  intros Hd. destruct (is_request request "POST ") eqn:Hp; [|by rewrite (not_a_post version csrf_token config_path)].
  rewrite post_routes by done.
  repeat (case_match; [auto using post_hotspot_workflow, post_apply_workflow, post_prepare_workflow, post_confirm_workflow,
    post_forget_workflow, post_scan_workflow, post_config_workflow|]); try done.
Qed.

Lemma step_workflow d d' : step d d' -> workflow_ok d -> workflow_ok d'.
Proof.
  intros Hstep Hd. destruct Hstep as [request form a d|c d Hw|c result d Hw|h d|d Hw|listed d Hw|interfaces d].
  - by apply request_workflow.
  - destruct Hd as (H1 & H2 & H3 & H4). specialize (H2 _ _ Hw) as [Hc _].
    unfold workflow_ok. cbn. split_and!; try done. intros c' w [= <- <-]. done.
  - destruct Hd as (H1 & H2 & H3 & H4). unfold workflow_ok. cbn. by split_and!.
  - destruct Hd as (H1 & H2 & H3 & H4). unfold workflow_ok. destruct h; cbn; split_and!; try done.
    intros c w Hc. by destruct (H2 c w Hc).
  - destruct Hd as (H1 & H2 & H3 & H4). unfold workflow_ok. cbn. split_and!; try done. split; [done|]. intros _. apply H1. congruence.
  - destruct Hd as (H1 & H2 & H3 & H4). pose proof (refresh_view listed d) as Hv. unfold workflow_view in Hv. cbn in Hv.
    injection Hv as V1 V2 V3 V4. unfold workflow_ok. cbn. rewrite ?V2, ?V3, ?V4. by split_and!.
  - eapply workflow_same; [|exact Hd]. by destruct interfaces.
Qed.

(** The file holds the configuration in use, and is none of those that are removed. *)
Definition file_ok (d : Daemon) : Prop :=
  disk d !! config_path = Some (config_content (config d)) /\ airplay_pairing_store (config d) <> config_path.

Lemma transaction_file hotspot_changed updated a d :
  airplay_pairing_store updated = airplay_pairing_store (config d) ->
  file_ok d -> file_ok (transaction config_path pid hotspot_changed updated a d).2.
Proof.
  intros Hp [Hf Hs]. destruct (transaction _ _ _ _ _ _) as [o d'] eqn:E. apply transaction_spec in E as (cs & files & -> & _ & H).
  unfold file_ok. destruct (saved o); cbn; [destruct H as (_ & -> & _); by rewrite Hp|destruct H as [-> _]; done].
Qed.

Lemma remove_file_ok path ok d : path <> config_path -> file_ok d -> file_ok (remove_file path ok d).
Proof. intros Hp [Hf Hs]. unfold remove_file, file_ok. destruct ok; cbn; [|done]. by rewrite lookup_delete_ne. Qed.

Lemma file_same d d' : disk d' = disk d -> config d' = config d -> file_ok d -> file_ok d'.
Proof. unfold file_ok. by intros -> ->. Qed.

Lemma request_file request form a d :
  capabilities_store <> config_path -> file_ok d ->
  file_ok (handle_request version csrf_token config_path capabilities_store pid request form a d).1.
Proof.
  intros Hc Hd. destruct (is_request request "POST ") eqn:Hp; [|by rewrite (not_a_post version csrf_token config_path)].
  rewrite post_routes by done. destruct (negb (field_is _ _)); [done|].
  destruct (is_request request "POST /management-hotspot "); [unfold post_hotspot; by repeat case_match|].
  destruct (is_request request "POST /management-hotspot/apply ").
  { unfold post_apply. destruct (pending_update d) as [[passphrase ssid]|]; [|done].
    set (updated := mkConfig _ _ _ _ _).
    pose proof (transaction_file true updated a (set_update None d) ltac:(done) Hd) as Ht.
    destruct (transaction _ _ _ _ _ _) as [o d1]. destruct (negb (saved o)); exact Ht. }
  destruct (management_hotspot_needs_setup (config d)); [done|].
  destruct (is_request request "POST /carplay-prepare ").
  { unfold post_prepare. destruct (negb _ && negb _); cbn [andb]; [destruct (configured _)|]; exact Hd. }
  destruct (is_request request "POST /bluetooth-confirm "); [unfold post_confirm; by repeat case_match|].
  destruct (is_request request "POST /head-unit-forget ").
  { unfold post_forget. destruct (is_empty _); [exact Hd|]. destruct (preflight_active _); [exact Hd|].
    destruct (forget_bluez_device _ _ _) as [ok calls]. cbn [fst].
    apply (file_same (remove_file capabilities_store (capabilities_removed a)
      (remove_file (airplay_pairing_store (config d)) (pairing_removed a) (add_calls calls d)))); [done|done|].
    apply remove_file_ok; [done|]. apply remove_file_ok; [apply Hd|exact Hd]. }
  destruct (is_request request "POST /scan "); [unfold post_scan; by case_match|].
  destruct (is_request request "POST /display "); [exact Hd|].
  destruct (is_request request "POST /config "); [|exact Hd].
  unfold post_config. destruct (updated_config form (config d)) as [updated|] eqn:Eu; [|exact Hd].
  assert (Hstore : airplay_pairing_store updated = airplay_pairing_store (config d))
    by (unfold updated_config in Eu; repeat case_match; by simplify_eq/=).
  pose proof (transaction_file (hotspot_differs (config d) updated) updated a d Hstore Hd) as Ht.
  destruct (transaction _ _ _ _ _ _) as [o d1]. cbn [snd] in Ht.
  destruct (saved o); [|by repeat case_match].
  cbn [fst]. destruct (bytes_eqb (wifi_interface _) _); (destruct (bytes_eqb (Config.head_unit_mac _) _); [exact Ht|]);
    by apply remove_file_ok.
Qed.

Lemma step_file d d' : capabilities_store <> config_path -> step d d' -> file_ok d -> file_ok d'.
Proof.
  intros Hc Hstep Hd. destruct Hstep; [by apply request_file|exact Hd..].
Qed.
End Invariants.

(** ** Theorems: all runs *)

(** The page shows what the daemon does, while one request is handled at a time. In every
    state that such requests and background threads lead to, the scan is shown as running
    exactly while its thread exists, a preflight thread exists only for a complete
    configuration and while the preflight is shown as active, and a password change
    is announced exactly while one waits, under the name it will have. How much of it remains
    when the requests of several threads interleave: [DaemonWorkflow], and, for the
    password, the examples at the end of [DaemonTransactions]. *)
Theorem workflow_invariant version csrf_token config_path capabilities_store pid d d' :
  workflow_ok d -> daemon_run version csrf_token config_path capabilities_store pid d d' -> workflow_ok d'.
Proof. intros Hd Hr. induction Hr as [|d d1 d2 Hs Hr IH]; [done|]. by apply IH, (step_workflow _ _ _ _ _ _ _ Hs). Qed.

(** C19. The file follows the configuration. If the configuration file holds the
    configuration in use, and is neither the pairing store nor the store of the
    capabilities, which are removed, then it does so after any sequence of requests - failed
    saves and failed hotspots, a cleared head unit - and background work. *)
Theorem file_follows_config version csrf_token config_path capabilities_store pid d d' :
  capabilities_store <> config_path -> airplay_pairing_store (config d) <> config_path ->
  disk d !! config_path = Some (config_content (config d)) ->
  daemon_run version csrf_token config_path capabilities_store pid d d' ->
  disk d' !! config_path = Some (config_content (config d')).
Proof.
  intros Hc Hs Hf Hr. assert (Hd : file_ok config_path d) by (by split). clear Hs Hf.
  induction Hr as [d|d d1 d2 Hstep Hr IH]; [apply Hd|]. by apply IH, (step_file _ _ _ _ _ _ _ Hc Hstep).
Qed.

(** A preflight that is shown as active without a thread. *)
Definition orphaned (d : Daemon) : Prop :=
  preflight_active (preflight_state (snapshot d)) = true /\ preflight_worker d = None.

Lemma orphaned_view d d' : workflow_view d' = workflow_view d -> orphaned d -> orphaned d'.
Proof. unfold workflow_view, orphaned. intros [= _ _ -> -> _ _ _]. done. Qed.

Lemma request_orphaned version csrf_token config_path capabilities_store pid request form a d :
  orphaned d -> orphaned (handle_request version csrf_token config_path capabilities_store pid request form a d).1.
Proof.
  intros Hd. destruct (is_request request "POST ") eqn:Hp; [|by rewrite (not_a_post version csrf_token config_path)].
  rewrite post_routes by done. destruct Hd as [Ha Hw]. assert (Hd : orphaned d) by (by split).
  destruct (negb (field_is _ _)); [done|].
  destruct (is_request request "POST /management-hotspot "); [unfold post_hotspot; by repeat case_match|].
  destruct (is_request request "POST /management-hotspot/apply ").
  { unfold post_apply. destruct (pending_update d) as [[passphrase ssid]|]; [|done]. set (updated := mkConfig _ _ _ _ _).
    pose proof (transaction_view config_path pid true updated a (set_update None d)) as Hv.
    destruct (transaction _ _ _ _ _ _) as [o d1]. unfold workflow_view in Hv. cbn in Hv. injection Hv as _ _ V3 V4 _.
    unfold orphaned. destruct (negb (saved o)); cbn; by rewrite V3, V4. }
  destruct (management_hotspot_needs_setup (config d)); [done|].
  destruct (is_request request "POST /carplay-prepare ").
  { unfold post_prepare. by rewrite Ha. }
  destruct (is_request request "POST /bluetooth-confirm "); [unfold post_confirm; by repeat case_match|].
  destruct (is_request request "POST /head-unit-forget ").
  { unfold post_forget. rewrite Ha. by destruct (is_empty _). }
  destruct (is_request request "POST /scan "); [unfold post_scan; by case_match|].
  destruct (is_request request "POST /display "); [exact Hd|].
  destruct (is_request request "POST /config "); [|exact Hd].
  unfold post_config. destruct (updated_config form (config d)) as [updated|]; [|exact Hd].
  pose proof (transaction_view config_path pid (hotspot_differs (config d) updated) updated a d) as Hv.
  destruct (transaction _ _ _ _ _ _) as [o d1]. cbn [snd] in Hv. pose proof (orphaned_view _ _ Hv Hd) as Hd1.
  destruct (saved o); [|by repeat case_match].
  cbn [fst]. destruct (bytes_eqb (wifi_interface _) _); (destruct (bytes_eqb (Config.head_unit_mac _) _); [exact Hd1|]);
    exact (orphaned_view _ _ (remove_file_view capabilities_store (capabilities_removed a) d1) Hd1).
Qed.

(** A preflight without a thread is never over. Once the preflight is shown as
    active while no thread works on it, no request and no background work of any
    kind ends this: every later run leaves it active, and starts no preflight. The
    request to prepare CarPlay with an incomplete configuration brings this state
    about. *)
Theorem orphaned_preflight_stays version csrf_token config_path capabilities_store pid d d' :
  configured (config d) = false -> preflight_active (preflight_state (snapshot d)) = false ->
  bluetooth_scan_running (snapshot d) = false -> preflight_worker d = None ->
  daemon_run version csrf_token config_path capabilities_store pid (post_prepare d).1 d' ->
  preflight_active (preflight_state (snapshot d')) = true /\ preflight_worker d' = None.
Proof.
  intros Hc Ha Hr Hw Hrun. assert (Ho : orphaned (post_prepare d).1).
  { unfold post_prepare, orphaned. rewrite Ha, Hr, Hc. by cbn. }
  clear Hc Ha Hr Hw. induction Hrun as [d1|d1 d2 d3 Hstep Hrun IH]; [exact Ho|]. apply IH. clear IH Hrun.
  destruct Hstep as [request form a d0|c d0 Hw|c result d0 Hw|h d0|d0 Hw|listed d0 Hw|interfaces d0];
    [by apply request_orphaned|destruct Ho as [_ Ho]; congruence|destruct Ho as [_ Ho]; congruence|..].
  - destruct Ho as [Ha Hw]. destruct h; by split.
  - exact Ho.
  - pose proof (orphaned_view _ _ (refresh_view listed d0) Ho) as Ho1. exact Ho1.
  - by destruct interfaces.
Qed.

(** ** Theorems: pairing questions and devices *)

(** The worker is told what the user decided, about the question that was shown.
    A request sends the worker nothing, or the decision of its form on the question
    that was pending, whose number the form carries; the question is then no longer
    pending, and a question whose answer could not be sent still is. *)
Theorem answers_are_the_users version csrf_token config_path capabilities_store pid request form a d :
  let d' := (handle_request version csrf_token config_path capabilities_store pid request form a d).1 in
  (worker_answers d' = worker_answers d /\ pairing_confirmation (snapshot d') = pairing_confirmation (snapshot d)) \/
  exists m decision, pairing_confirmation (snapshot d) = Some m /\
    form_field form (bs "csrf") = Some csrf_token /\ form_field form (bs "id") = Some (dec (id m)) /\
    form_field form (bs "decision") = Some decision /\ (decision = bs "confirm" \/ decision = bs "reject") /\
    worker_answers d' = worker_answers d ++ [(m, bytes_eqb decision (bs "confirm"))] /\
    pairing_confirmation (snapshot d') = None.
Proof.
  cbv zeta. destruct (is_request request "POST ") eqn:Hp; [|left; by rewrite (not_a_post version csrf_token config_path)].
  rewrite post_routes by done. destruct (field_is _ _) eqn:Hf; cbn [negb]; [|by left]. apply field_is_true in Hf.
  assert (Ht : forall hc updated d0, worker_answers (transaction config_path pid hc updated a d0).2 = worker_answers d0 /\
    snapshot (transaction config_path pid hc updated a d0).2 = snapshot d0).
  { intros hc updated d0. destruct (transaction _ _ _ _ _ _) as [o d1] eqn:E.
    apply transaction_spec in E as (cs & files & -> & _ & _). by destruct (saved o). }
  destruct (is_request request "POST /management-hotspot "); [left; unfold post_hotspot; by repeat case_match|].
  destruct (is_request request "POST /management-hotspot/apply ").
  { left. unfold post_apply. destruct (pending_update d) as [[passphrase ssid]|]; [|done]. set (updated := mkConfig _ _ _ _ _).
    destruct (Ht true updated (set_update None d)) as [H1 H2]. destruct (transaction _ _ _ _ _ _) as [o d1]. cbn [snd] in *.
    destruct (negb (saved o)); cbn; by rewrite H1, H2. }
  destruct (management_hotspot_needs_setup (config d)); [by left|].
  destruct (is_request request "POST /carplay-prepare ").
  { left. unfold post_prepare. destruct (negb _ && negb _); cbn [andb]; [destruct (configured _)|]; done. }
  destruct (is_request request "POST /bluetooth-confirm ").
  { unfold post_confirm, confirmed_question.
    destruct (form_field form (bs "id")) as [question|] eqn:Ei; [|by left].
    destruct (form_field form (bs "decision")) as [decision|] eqn:Ed; [|by left].
    destruct (pairing_confirmation (snapshot d)) as [m|] eqn:Em; [|by left].
    destruct ((_ || _) && _) eqn:Eq; [|by left]. destruct (answer_sent a); [|by left].
    apply andb_prop in Eq as [Eq ->%bytes_eqb_eq]. apply orb_prop in Eq. rewrite !bytes_eqb_eq in Eq.
    right. by exists m, decision. }
  destruct (is_request request "POST /head-unit-forget ").
  { left. unfold post_forget. destruct (is_empty _); [done|]. destruct (preflight_active _); [done|].
    destruct (forget_bluez_device _ _ _) as [ok calls]. cbn [fst]. unfold remove_file, refresh_bluetooth_inventory.
    destruct (pairing_removed a), (capabilities_removed a), (bluez_devices a) as [error|devices]; try done;
      cbn; by destruct (is_empty error). }
  destruct (is_request request "POST /scan "); [left; unfold post_scan; by case_match|].
  destruct (is_request request "POST /display "); [by left|].
  destruct (is_request request "POST /config "); [|by left]. left.
  unfold post_config. destruct (updated_config form (config d)) as [updated|]; [|done].
  destruct (Ht (hotspot_differs (config d) updated) updated d) as [H1 H2]. destruct (transaction _ _ _ _ _ _) as [o d1].
  cbn [snd] in *. unfold remove_file. destruct (saved o); [|repeat case_match; cbn; by rewrite H1, H2].
  cbn [fst]. destruct (bytes_eqb (wifi_interface _) _), (bytes_eqb (Config.head_unit_mac _) _), (capabilities_removed a);
    cbn; by rewrite H1, H2.
Qed.

(** A device that BlueZ no longer lists stays on the page, here still as paired. *)
Example forgotten_device_stays :
  let known := mkDevice (bs "AA:BB") (bs "car") true false in
  bluetooth_devices (refresh_bluetooth_inventory (inr []) (set_devices [known] [] new_snapshot)) = [known].
Proof. vm_compute. reflexivity. Qed.

(** A session for Android Auto that pairs leaves the preflight shown as active. *)
Example pairing_without_preflight m : orphaned (on_snapshot (on_hook OnPairingReset)
  (on_snapshot (on_hook (OnPairingConfirmation m)) (new_daemon new_config))).
Proof. by split. Qed.

(** A complete configuration is reported as missing when a preflight already runs. *)
Example wrong_reason :
  let d := set_preflight_worker (Some (new_config, Running)) (on_snapshot (set_preflight discovering []) (new_daemon new_config)) in
  configured (config d) = true /\
  preflight_detail (snapshot (post_prepare d).1) = bs "configure a head-unit MAC and Wi-Fi interface first".
Proof. vm_compute. done. Qed.

(** ** Witnesses *)

Definition changed_config : Config := mkConfig (bs "AA:BB") (bs "wlan0") (bs "AA2ACP-1") (bs "secret123") (bs "/s/p").

Lemma new_daemon_workflow c : workflow_ok (new_daemon c).
Proof. unfold workflow_ok. cbn. by split_and!. Qed.

Lemma workflow_invariant_witness :
  let d := new_daemon changed_config in
  workflow_ok (handle_request None (bs "t") (bs "/s/config") (bs "/s/c") 1 (bs "POST /scan HTTP/1.1") (bs "csrf=t") no_answers d).1.
Proof.
  cbv zeta. apply (workflow_invariant None (bs "t") (bs "/s/config") (bs "/s/c") 1 (new_daemon changed_config)).
  - apply new_daemon_workflow.
  - apply rtc_once, step_request.
Defined.

Definition saved_daemon : Daemon := set_disk {[bs "/s/config" := config_content changed_config]} (new_daemon changed_config).

(** A new head unit is saved; the system calls all succeed. *)
Definition save_answers : Answers :=
  mkAnswers [] [Done 0; Done 0; Done 1000; Done 0; Done 0; Done 0] 3 true true false false (inr []) false [].

Definition save_form : Bytes := bs "csrf=t&wifi_interface=wlan0&management_hotspot_ssid=AA2ACP-1&manual_mac=CC%3ADD".

Lemma file_follows_config_witness :
  let d := (handle_request None (bs "t") (bs "/s/config") (bs "/s/c") 1 (bs "POST /config HTTP/1.1") save_form save_answers
              saved_daemon).1 in
  Config.head_unit_mac (config d) = bs "CC:DD" /\
  disk d !! bs "/s/config" = Some (config_content (config d)).
Proof.
  cbv zeta. split; [vm_compute; reflexivity|].
  apply (file_follows_config None (bs "t") (bs "/s/config") (bs "/s/c") 1 saved_daemon).
  - vm_compute. discriminate.
  - vm_compute. discriminate.
  - vm_compute. reflexivity.
  - apply rtc_once, step_request.
Defined.

Lemma orphaned_preflight_stays_witness :
  let d := new_daemon (mkConfig [] (bs "wlan0") (bs "AA2ACP-1") (bs "secret123") (bs "/s/p")) in
  let d' := on_snapshot (on_hook OnPairingReset) (post_prepare d).1 in
  preflight_active (preflight_state (snapshot d')) = true /\ preflight_worker d' = None.
Proof.
  cbv zeta. apply (orphaned_preflight_stays None (bs "t") (bs "/s/config") (bs "/s/c") 1
    (new_daemon (mkConfig [] (bs "wlan0") (bs "AA2ACP-1") (bs "secret123") (bs "/s/p"))));
    try reflexivity.
Defined.
