(* ===== verification/DaemonTransactions.v ===== *)
(** * The settings under their locks

    The requests of [src/src/bridge_daemon_main.cpp] are handled by four threads.  Two of
    them change the settings, with [config_transaction_mutex] around the whole change
    and [config_mutex] around each look at the configuration; everything else goes on
    in between.  Here a change is cut into the steps that others can see, and the
    steps of all threads are put in any order. *)

From S2P Require Import Prelude Text FileStore Config NetworkManager ManagementUi ManagementPage DaemonParts DaemonRequests DaemonInvariants.
#[local] Open Scope Z_scope.

(** ** A change of the settings *)

(** What the request makes of the configuration it finds, whether that is another
    hotspot, and what the outside does. *)
Record Change := mkChange { update_of : Config -> Config; changes_hotspot : Config -> bool; change_answers : Answers }.

(** How far a thread is: the configuration it found and the nmcli processes that are
    left. *)
Inductive Phase :=
| Waits                                                   (* for the lock *)
| Holds                                                   (* it has the lock *)
| HasRead (previous : Config)
| Applied (previous : Config) (processes : list Process)  (* the hotspot is the new one *)
| NotApplied (previous : Config) (processes : list Process)
| IsSaved (previous : Config)                             (* the file is the new one *)
| NotSaved (previous : Config) (processes : list Process)
| Ends (o : Outcome)                                      (* nothing is left but the lock *)
| Returned (o : Outcome).

Section Transactions.
Context (config_path : Bytes) (pid : Z).

(** One step of a thread that has the lock. *)
(* src/src/bridge_daemon_main.cpp:1401-1451 main (config transaction) *)
Definition work (c : Change) (ph : Phase) (d : Daemon) : option (Phase * Daemon) :=
  match ph with
  | Holds => Some (HasRead (config d), d)
  | HasRead previous =>
      if changes_hotspot c previous then
        let '(ok, processes, d) := start_hotspot (update_of c previous) (nmcli_processes (change_answers c)) d in
        Some (if ok then Applied previous processes else NotApplied previous processes, d)
      else Some (Applied previous (nmcli_processes (change_answers c)), d)
  | NotApplied previous processes =>
      let '(restored, d) := restore_previous_hotspot previous processes d in
      Some (Ends (mkOutcome false true (negb restored)), d)
  | Applied previous processes =>
      let '(config_saved, w) := save_config config_path (update_of c previous) pid (save_counter (change_answers c))
                                  (start_world (disk d) (save_results (change_answers c))) in
      let d := set_disk (FileStore.disk w) d in
      Some (if config_saved then IsSaved previous
            else if changes_hotspot c previous then NotSaved previous processes
            else Ends (mkOutcome false false false), d)
  | IsSaved previous => Some (Ends (mkOutcome true false false), set_config (update_of c previous) d)
  | NotSaved previous processes =>
      let '(restored, d) := restore_previous_hotspot previous processes d in
      Some (Ends (mkOutcome false false (negb restored)), d)
  | Waits | Ends _ | Returned _ => None
  end.

(** The change in one step. *)
Definition at_once (c : Change) (d : Daemon) : Outcome * Daemon :=
  transaction config_path pid (changes_hotspot c (config d)) (update_of c (config d)) (change_answers c) d.

(** What is left of a change comes to this when nothing is between its steps. *)
Inductive finishes (c : Change) : Phase -> Daemon -> Outcome -> Daemon -> Prop :=
| finishes_now o d : finishes c (Ends o) d o d
| finishes_later ph d ph' d' o d1 :
    work c ph d = Some (ph', d') -> finishes c ph' d' o d1 -> finishes c ph d o d1.

(** ** All threads *)

(** The files of a change: the configuration file and the temporary files of its saves. *)
Definition settings_file (name : Bytes) : Prop :=
  name = config_path \/ exists counter, name = temporary_name config_path pid counter.

(** The settings: what a change reads and writes. *)
Definition same_settings (d d' : Daemon) : Prop :=
  config d = config d' /\ agree settings_file (disk d) (disk d') /\ hotspot_commands d = hotspot_commands d'.

(** The state of the daemon, who has the lock, how far each thread is, and as a ghost
    the changes that were made, in the order in which they gave the lock back. *)
Record Threads := mkThreads {
  daemon : Daemon;
  lock : option nat;
  threads : gmap nat (Change * Phase);
  order : list (Change * Outcome)
}.

(** [others_work] is every other request, the rest of these two, and every background thread:
    they read the configuration at any moment, and change everything but the settings -
    also other files, without the lock: a request to forget the head unit removes the pairing
    and the capabilities, and a change of the head unit the capabilities once it is
    saved ([removal_is_others]). *)
Inductive threads_step : Threads -> Threads -> Prop :=
| change_arrives t c d l ts order :
    ts !! t = None ->
    threads_step (mkThreads d l ts order) (mkThreads d l (<[t := (c, Waits)]> ts) order)
| lock_taken t c d ts order :
    ts !! t = Some (c, Waits) ->
    threads_step (mkThreads d None ts order) (mkThreads d (Some t) (<[t := (c, Holds)]> ts) order)
| thread_works t c ph ph' d d' ts order :
    ts !! t = Some (c, ph) -> work c ph d = Some (ph', d') ->
    threads_step (mkThreads d (Some t) ts order) (mkThreads d' (Some t) (<[t := (c, ph')]> ts) order)
| lock_released t c o d ts order :
    ts !! t = Some (c, Ends o) ->
    threads_step (mkThreads d (Some t) ts order) (mkThreads d None (<[t := (c, Returned o)]> ts) (order ++ [(c, o)]))
| others_work d d' l ts order :
    same_settings d d' -> threads_step (mkThreads d l ts order) (mkThreads d' l ts order).

Inductive threads_reachable (first : Daemon) : Threads -> Prop :=
| threads_start : threads_reachable first (mkThreads first None ∅ [])
| threads_next s s' : threads_reachable first s -> threads_step s s' -> threads_reachable first s'.

(** The changes one after the other, each in one step: their outcomes and the state. *)
Definition then_at_once (r : list Outcome * Daemon) (c : Change) : list Outcome * Daemon :=
  let '(o, d) := at_once c r.2 in (r.1 ++ [o], d).
Definition in_turn (first : Daemon) (cs : list Change) : list Outcome * Daemon := fold_left then_at_once cs ([], first).

(** ** Facts: what a step depends on *)

#[local] Instance same_settings_equivalence : Equivalence same_settings.
Proof.
  split.
  - by intros d.
  - intros d d' (H1 & H2 & H3). split_and!; [done|by symmetry|done].
  - intros d1 d2 d3 (H1 & H2 & H3) (H4 & H5 & H6). split_and!; by etrans.
Qed.

Lemma start_hotspot_same c processes d d' :
  same_settings d d' ->
  let '(ok, rest, d1) := start_hotspot c processes d in
  exists d1', start_hotspot c processes d' = (ok, rest, d1') /\ same_settings d1 d1'.
Proof.
  intros (H1 & H2 & H3). unfold start_hotspot. rewrite <- H3. destruct (start_management_hotspot _ _ _ _) as [ok n].
  by eexists.
Qed.

Lemma restore_same c processes d d' :
  same_settings d d' ->
  let '(ok, d1) := restore_previous_hotspot c processes d in
  exists d1', restore_previous_hotspot c processes d' = (ok, d1') /\ same_settings d1 d1'.
Proof.
  intros Hd. unfold restore_previous_hotspot. pose proof (start_hotspot_same c processes d d' Hd) as H1.
  destruct (start_hotspot c processes d) as [[ok rest] d1]. destruct H1 as (d1' & -> & H1). destruct ok; [by eexists|].
  pose proof (start_hotspot_same c rest d1 d1' H1) as H2.
  destruct (start_hotspot c rest d1) as [[ok rest2] d2]. destruct H2 as (d2' & -> & H2). by eexists.
Qed.

Lemma work_same c ph d d' ph1 d1 :
  same_settings d d' -> work c ph d = Some (ph1, d1) -> exists d1', work c ph d' = Some (ph1, d1') /\ same_settings d1 d1'.
Proof.
  intros Hd. pose proof Hd as (H1 & H2 & H3). destruct ph as [| |p|p ps|p ps|p|p ps|o|o]; cbn [work]; try done.
  - intros [= <- <-]. rewrite H1. by eexists.
  - destruct (changes_hotspot c p); [|intros [= <- <-]; by eexists].
    pose proof (start_hotspot_same (update_of c p) (nmcli_processes (change_answers c)) d d' Hd) as Hs.
    destruct (start_hotspot _ _ d) as [[ok rest] d2]. destruct Hs as (d2' & -> & Hs). intros [= <- <-]. by eexists.
  - pose proof (save_config_alike settings_file config_path (update_of c p) pid (save_counter (change_answers c))
      (start_world (disk d) (save_results (change_answers c))) (start_world (disk d') (save_results (change_answers c)))) as Hs.
    destruct (save_config _ _ _ _ (start_world (disk d) _)) as [ok w], (save_config _ _ _ _ (start_world (disk d') _)) as [ok' w'].
    destruct Hs as [E [Hs _]]; [by right; eexists|by split|]. cbn [fst snd] in E, Hs. subst ok'.
    intros [= <- <-]. eexists. split; [done|by split_and!].
  - pose proof (restore_same p ps d d' Hd) as Hr. destruct (restore_previous_hotspot p ps d) as [ok d2].
    destruct Hr as (d2' & -> & Hr). intros [= <- <-]. by eexists.
  - intros [= <- <-]. eexists. split; [done|by split_and!].
  - pose proof (restore_same p ps d d' Hd) as Hr. destruct (restore_previous_hotspot p ps d) as [ok d2].
    destruct Hr as (d2' & -> & Hr). intros [= <- <-]. by eexists.
Qed.

Lemma finishes_same c ph d d' o d1 :
  finishes c ph d o d1 -> same_settings d d' -> exists d1', finishes c ph d' o d1' /\ same_settings d1 d1'.
Proof.
  intros Hf. revert d'. induction Hf as [o d|ph d ph' d2 o d1 Hw _ IH]; intros d' Hd.
  - exists d'. split; [constructor|done].
  - apply (work_same _ _ _ d') in Hw as (d2' & Hw & H2); [|done]. destruct (IH d2' H2) as (d1' & Hf & H1).
    exists d1'. split; [by eapply finishes_later|done].
Qed.

(** The steps of a change, one behind the other, are the change. *)
Lemma work_is_transaction c d : finishes c Holds d (at_once c d).1 (at_once c d).2.
Proof.
  eapply finishes_later; [done|]. unfold at_once, transaction. destruct (changes_hotspot c (config d)) eqn:Ec.
  - destruct (start_hotspot _ _ d) as [[ok rest] d1] eqn:Eh.
    eapply finishes_later; [cbn [work]; rewrite Ec, Eh; reflexivity|]. destruct ok; cbn [negb].
    + destruct (save_config _ _ _ _ _) as [saved w] eqn:Es.
      eapply finishes_later; [cbn [work]; rewrite Es, Ec; reflexivity|]. destruct saved.
      * eapply finishes_later; [done|constructor].
      * destruct (restore_previous_hotspot _ _ _) as [restored d2] eqn:Er.
        eapply finishes_later; [cbn [work]; rewrite Er; reflexivity|constructor].
    + destruct (restore_previous_hotspot _ _ _) as [restored d2] eqn:Er.
      eapply finishes_later; [cbn [work]; rewrite Er; reflexivity|constructor].
  - eapply finishes_later; [cbn [work]; rewrite Ec; reflexivity|].
    destruct (save_config _ _ _ _ _) as [saved w] eqn:Es.
    eapply finishes_later; [cbn [work]; rewrite Es, Ec; reflexivity|]. destruct saved.
    + eapply finishes_later; [done|constructor].
    + constructor.
Qed.

(** The configuration changes with the last step only. *)
Lemma work_config c ph d ph' d' : work c ph d = Some (ph', d') -> config d' = config d \/ exists o, ph' = Ends o.
Proof.
  destruct ph; cbn [work]; try done.
  - intros [= <- <-]. by left.
  - destruct (changes_hotspot c previous); [|intros [= <- <-]; by left]. unfold start_hotspot.
    destruct (start_management_hotspot _ _ _ _) as [ok n]. intros [= <- <-]. by left.
  - destruct (save_config _ _ _ _ _) as [ok w]. intros [= <- <-]. by left.
  - destruct (restore_previous_hotspot _ _ _). intros [= <- <-]. right. by eexists.
  - intros [= <- <-]. right. by eexists.
  - destruct (restore_previous_hotspot _ _ _). intros [= <- <-]. right. by eexists.
Qed.

(** ** What holds in every run *)

(** Who has the lock is in the middle of a change that began when the changes before
    were made, and will come to what it makes in one step. *)
Definition threads_ok (first : Daemon) (s : Threads) : Prop :=
  let '(outcomes, d0) := in_turn first (map fst (order s)) in
  map snd (order s) = outcomes /\
  match lock s with
  | None => same_settings (daemon s) d0
  | Some t => exists c ph d1, threads s !! t = Some (c, ph) /\
      finishes c ph (daemon s) (at_once c d0).1 d1 /\ same_settings d1 (at_once c d0).2 /\
      (config (daemon s) = config d0 \/ exists o, ph = Ends o)
  end /\
  forall t c o, threads s !! t = Some (c, Returned o) -> (c, o) ∈ order s.

Lemma in_turn_app first cs c : in_turn first (cs ++ [c]) = then_at_once (in_turn first cs) c.
Proof. unfold in_turn. by rewrite fold_left_app. Qed.

Lemma threads_step_ok first s s' : threads_ok first s -> threads_step s s' -> threads_ok first s'.
Proof.
  unfold threads_ok. intros Hok Hstep. destruct Hstep as [t c d l ts q Ht|t c d ts q Ht|t c ph ph' d d' ts q Ht Hw
    |t c o d ts q Ht|d d' l ts q Hd]; cbn [daemon lock threads order] in *;
    destruct (in_turn first (map fst q)) as [outcomes d0] eqn:Ei; destruct Hok as (Ho & Hl & Hr).
  - split_and!; [done| |].
    + destruct l as [t'|]; [|done]. destruct Hl as (c' & ph & d1 & Ht' & Hl). exists c', ph, d1. split; [|done].
      rewrite lookup_insert_ne; [done|]. intros ->. by rewrite Ht in Ht'.
    + intros t' c' o. rewrite lookup_insert_Some. intros [[_ [=]]|[_ ?]]. by eapply Hr.
  - split_and!; [done| |].
    + destruct (finishes_same _ _ _ d _ _ (work_is_transaction c d0)) as (d1 & Hf & Hs); [by symmetry|].
      exists c, Holds, d1. rewrite lookup_insert_eq. split_and!; [done|done|by symmetry|left; apply Hl].
    + intros t' c' o. rewrite lookup_insert_Some. intros [[_ [=]]|[_ ?]]. by eapply Hr.
  - destruct Hl as (c' & ph2 & d1 & Ht' & Hf & Hs & Hc). rewrite Ht in Ht'. injection Ht' as <- <-. split_and!; [done| |].
    + exists c, ph', d1. rewrite lookup_insert_eq. inversion Hf as [|? ? ph2 d2 ? ? Hw2 Hf2]; subst; [done|].
      rewrite Hw in Hw2. injection Hw2 as <- <-. split_and!; [done|done|done|].
      destruct Hc as [Hc|[o ->]]; [|done]. apply work_config in Hw as [->|?]; [by left|by right].
    + intros t' c' o. rewrite lookup_insert_Some. intros [[_ [= <- ->]]|[_ ?]]; [|by eapply Hr].
      exfalso. destruct ph; cbn [work] in Hw; repeat case_match; simplify_eq.
  - destruct Hl as (c' & ph & d1 & Ht' & Hf & Hs & _). rewrite Ht in Ht'. injection Ht' as <- <-.
    inversion Hf as [o' d' E1|? ? ? ? ? ? Hw _]; subst; [|done].
    rewrite !map_app. cbn [map fst snd]. rewrite in_turn_app, Ei. unfold then_at_once. cbn [snd fst].
    destruct (at_once c d0) as [o2 d2] eqn:Ea. cbn [fst snd] in *. subst. split_and!; [done|done|].
    intros t' c' o. rewrite lookup_insert_Some, elem_of_app.
    intros [[_ [= <- <-]]|[_ ?]]; [right; by left|left; by eapply Hr].
  - split_and!; [done| |done]. destruct l as [t|]; [|etrans; [by symmetry|done]].
    destruct Hl as (c & ph & d1 & Ht & Hf & Hs & Hc). destruct (finishes_same _ _ _ d' _ _ Hf Hd) as (d1' & Hf' & Hs').
    exists c, ph, d1'. split_and!; [done|done|etrans; [by symmetry|done]|].
    destruct Hd as (H1 & _). rewrite <- H1. done.
Qed.

Lemma threads_reachable_ok first s : threads_reachable first s -> threads_ok first s.
Proof. induction 1 as [|s s' _ IH Hs]; [|by eapply threads_step_ok]. cbn. by split_and!. Qed.

(** The removals of the requests, which do not take the lock. *)
Lemma removal_is_others path ok d : ~ settings_file path -> same_settings d (remove_file path ok d).
Proof.
  intros Hp. unfold remove_file, same_settings. destruct ok; [|done]. split_and!; try done.
  intros name Hn. cbn. rewrite lookup_delete_ne; [done|]. by intros ->.
Qed.

(** ** The two requests *)

(** [POST /config], once its fields are valid. *)
Definition config_change (form : Bytes) (a : Answers) : Change :=
  mkChange (fun previous => default previous (updated_config form previous))
    (fun previous => hotspot_differs previous (default previous (updated_config form previous))) a.

Lemma config_is_change form a d updated :
  updated_config form (config d) = Some updated ->
  transaction config_path pid (hotspot_differs (config d) updated) updated a d = at_once (config_change form a) d.
Proof. intros E. unfold at_once, config_change. cbn [changes_hotspot update_of change_answers]. by rewrite E. Qed.

(** [POST /management-hotspot/apply] with the update that was waiting: a password and a
    name. *)
Definition apply_change (update : Bytes * Bytes) (a : Answers) : Change :=
  mkChange (fun previous => mkConfig (Config.head_unit_mac previous) (wifi_interface previous) update.2 update.1
              (airplay_pairing_store previous)) (fun _ => true) a.

(** Around the change, the update is taken from the daemon, and put back or marked as
    done, each under another lock. *)
(* src/src/bridge_daemon_main.cpp:1121-1126 main (apply, update taken) *)
Definition apply_takes (d : Daemon) : option (Bytes * Bytes) * Daemon := (pending_update d, set_update None d).

(* src/src/bridge_daemon_main.cpp:1166-1188 main (apply, update put back) *)
Definition apply_ends (update : Bytes * Bytes) (o : Outcome) (d : Daemon) : Daemon :=
  if negb (saved o) then set_update (Some update) d else on_snapshot (set_pending false []) d.

Lemma apply_in_steps a d :
  (post_apply config_path pid a d).1 =
  match apply_takes d with
  | (None, d) => d
  | (Some update, d) => let '(o, d) := at_once (apply_change update a) d in apply_ends update o d
  end.
Proof.
  unfold post_apply, apply_takes. destruct (pending_update d) as [[passphrase ssid]|]; [|done].
  unfold at_once, apply_change. cbn [changes_hotspot update_of change_answers fst snd].
  destruct (transaction _ _ _ _ _ _) as [o d1]. unfold apply_ends. by destruct (negb (saved o)).
Qed.

(** ** Theorems *)

(** C18. Changes of the settings take turns. In every interleaving of the threads, whatever
    reads the configuration or changes other things and other files in between: the outcomes are those
    of the changes made one after the other, each at once, in the order in which they
    gave the lock back; while nobody has the lock, configuration, configuration file and hotspot
    commands are what that makes of them; and the configuration that a reader sees at
    any moment is the one before a change or the one behind it, never a mixture. *)
Theorem changes_take_turns first s :
  threads_reachable first s ->
  let '(outcomes, d0) := in_turn first (map fst (order s)) in
  map snd (order s) = outcomes /\
  (forall t c o, threads s !! t = Some (c, Returned o) -> (c, o) ∈ order s) /\
  (lock s = None -> config (daemon s) = config d0 /\ disk (daemon s) !! config_path = disk d0 !! config_path /\
     hotspot_commands (daemon s) = hotspot_commands d0) /\
  (config (daemon s) = config d0 \/
   exists t c o, lock s = Some t /\ threads s !! t = Some (c, Ends o) /\
     o = (at_once c d0).1 /\ same_settings (daemon s) (at_once c d0).2).
Proof.
  intros Hs%threads_reachable_ok. unfold threads_ok in Hs.
  destruct (in_turn first (map fst (order s))) as [outcomes d0]. destruct Hs as (Ho & Hl & Hr).
  split_and!; [done|done|intros E; rewrite E in Hl; destruct Hl as (A & B & C); split_and!; [done|by apply B; left|done]|].
  destruct (lock s) as [t|] eqn:El; [|left; apply Hl]. destruct Hl as (c & ph & d1 & Ht & Hf & Hsame & [Hc|[o ->]]); [by left|].
  right. inversion Hf as [o' d' E1|? ? ? ? ? ? Hw _]; subst; [|done]. by exists t, c, (at_once c d0).1.
Qed.
End Transactions.

(** ** Evaluated *)

(** The head unit is changed by one thread while another waits for the lock. *)
Definition demo_change : Change := config_change save_form save_answers.

Lemma other_file : ~ settings_file (bs "/s/config") 1 (bs "/s/c").
Proof. intros [E|[counter E]]; [by vm_compute in E|]. unfold temporary_name in E. by vm_compute in E. Qed.

Lemma demo_run :
  exists s, threads_reachable (bs "/s/config") 1 saved_daemon s /\ lock s = None /\
    order s = [(demo_change, mkOutcome true false false)] /\ Config.head_unit_mac (config (daemon s)) = bs "CC:DD" /\
    threads s !! 1%nat = Some (demo_change, Waits).
Proof.
  pose proof (threads_start (bs "/s/config") 1 saved_daemon) as H.
  eapply threads_next in H; [|apply (change_arrives _ _ 0 demo_change); reflexivity].
  eapply threads_next in H; [|apply (change_arrives _ _ 1 demo_change); reflexivity].
  eapply threads_next in H; [|apply (lock_taken _ _ 0); reflexivity].
  eapply threads_next in H; [|eapply thread_works; reflexivity].
  eapply threads_next in H; [|apply (others_work _ _ _ (remove_file (bs "/s/c") true saved_daemon)); apply removal_is_others, other_file].
  eapply threads_next in H; [|eapply thread_works; [reflexivity|vm_compute; reflexivity]].
  eapply threads_next in H; [|eapply thread_works; [reflexivity|vm_compute; reflexivity]].
  eapply threads_next in H; [|eapply thread_works; [reflexivity|vm_compute; reflexivity]].
  eapply threads_next in H; [|apply lock_released; reflexivity].
  eexists. split; [exact H|]. by split_and!.
Qed.

Lemma changes_take_turns_witness :
  exists s, threads_reachable (bs "/s/config") 1 saved_daemon s /\ config (daemon s) <> config saved_daemon /\
    let '(outcomes, d0) := in_turn (bs "/s/config") 1 saved_daemon (map fst (order s)) in
    map snd (order s) = outcomes /\ config (daemon s) = config d0 /\ disk (daemon s) !! bs "/s/config" = disk d0 !! bs "/s/config".
Proof.
  destruct demo_run as (s & Hs & Hl & Ho & Hc & _). exists s. split; [exact Hs|]. split.
  - intros E. rewrite E in Hc. by vm_compute in Hc.
  - pose proof (changes_take_turns (bs "/s/config") 1 saved_daemon s Hs) as Ht.
    destruct (in_turn _ _ _ _) as [outcomes d0]. destruct Ht as (H1 & _ & H2 & _). split; [exact H1|]. destruct (H2 Hl) as (A & B & _). split; [exact A|exact B].
Defined.

(** A new password that is entered while an older one is being applied. *)
Definition older : Bytes * Bytes := (bs "password-1", bs "AA2ACP-1").
Definition newer_form : Bytes :=
  bs "management_hotspot_passphrase=password-2&management_hotspot_passphrase_confirm=password-2".

(** It is lost when the older one cannot be applied: that one is put back in its place. *)
Example newer_password_lost :
  let '(taken, d) := apply_takes (set_update (Some older) saved_daemon) in
  let d := (post_hotspot newer_form d).1 in
  pending_update d = Some (bs "password-2", bs "AA2ACP-1") /\
  let '(o, d) := at_once (bs "/s/config") 1 (apply_change older save_answers) d in
  pending_update (apply_ends older o d) = Some older.
Proof. vm_compute. done. Qed.

(** When the older one is applied, the newer one still waits, but the page says that
    none does. *)
Example newer_password_hidden :
  let d := (post_hotspot newer_form (apply_takes (set_update (Some older) saved_daemon)).2).1 in
  let d := apply_ends older (mkOutcome true false false) d in
  pending_update d = Some (bs "password-2", bs "AA2ACP-1") /\ management_hotspot_password_pending (snapshot d) = false.
Proof. vm_compute. done. Qed.
