(* ===== verification/DaemonWorkflow.v ===== *)
(** * Scans and preflights under their locks

    The requests of [src/src/bridge_daemon_main.cpp] that start a Bluetooth scan or a CarPlay
    preflight are handled by four threads, and what they start are threads of their own.
    All of them share the page's snapshot under one lock and the two thread objects
    under none.  Here each is cut into its sections under the lock, the wait for an older
    thread, the start of the new one and the assignment of its object, and the sections of
    all threads, with those of the other requests and of the sessions, come in any order. *)

From stdpp Require Import relations.
From S2P Require Import Prelude Text Config BluezInventory ManagementUi BluetoothWorker CarplayWorker ManagementPage DaemonParts DaemonRequests DaemonInvariants.
#[local] Open Scope Z_scope.

(** ** Threads *)

(** Where a thread is: a request to scan, a scan, a request to prepare CarPlay, a
    preflight; [Over]: the request is answered, or the function of the thread has returned. *)
Inductive Work :=
| ScanDecides
| ScanStarts                       (* it has set the flag, and joins the older thread *)
| ScanJoined
| ScanCreated (thread : nat)       (* the thread runs, its object is not yet assigned *)
| ScanBegins
| ScanDiscovers
| ScanRefreshed
| PrepareReads
| PrepareDecides (c : Config)
| PrepareRefuses
| PrepareStarts (c : Config)
| PrepareJoined (c : Config)
| PrepareCreated (thread : nat)
| PreflightBegins (c : Config)
| PreflightRuns (c : Config)
| Over.

(** [scan_worker], [preflight_worker]: the threads of the two objects. *)
(* src/src/bridge_daemon_main.cpp:84-90 ManagementState *)
Record Flow := mkFlow {
  shown : Snapshot;
  used : Config;
  scan_worker : option nat;
  preflight_worker : option nat;
  works : list Work
}.

Definition show (s : Snapshot) (f : Flow) : Flow := mkFlow s (used f) (scan_worker f) (preflight_worker f) (works f).
Definition become (t : nat) (w : Work) (f : Flow) : Flow :=
  mkFlow (shown f) (used f) (scan_worker f) (preflight_worker f) (<[t := w]> (works f)).
Definition spawn (w : Work) (f : Flow) : Flow :=
  mkFlow (shown f) (used f) (scan_worker f) (preflight_worker f) (works f ++ [w]).
Definition set_scan_object (o : option nat) (f : Flow) : Flow := mkFlow (shown f) (used f) o (preflight_worker f) (works f).
Definition set_preflight_object (o : option nat) (f : Flow) : Flow := mkFlow (shown f) (used f) (scan_worker f) o (works f).

(** Whether a join returns: there is no thread, or it has ended. *)
Definition joins (o : option nat) (f : Flow) : bool :=
  match o with
  | None => true
  | Some t => match works f !! t with Some Over => true | _ => false end
  end.

(* src/src/bridge_daemon_main.cpp:1348-1356 main (scan, decision) *)
Definition scan_decides (s : Snapshot) : Work * Snapshot :=
  if bluetooth_scan_running s then (Over, s) else (ScanStarts, set_scan true 1 (bs "queued") s).

(* src/src/bridge_daemon_main.cpp:1209-1222 main (prepare, decision) *)
Definition prepare_decides (c : Config) (s : Snapshot) : Work * Snapshot :=
  if negb (preflight_active (preflight_state s)) && negb (bluetooth_scan_running s) then
    (if DaemonRequests.configured c then PrepareStarts c else PrepareRefuses, set_preflight discovering (bs "queued") s)
  else (PrepareRefuses, s).

(* src/src/bridge_daemon_main.cpp:1236-1243 main (prepare, refusal) *)
Definition prepare_refuses (s : Snapshot) : Snapshot :=
  set_detail (if bluetooth_scan_running s then bs "wait for Bluetooth scanning to finish first"
              else bs "configure a head-unit MAC and Wi-Fi interface first") s.

(** The next section of a thread; [None]: it waits. [listed] is what BlueZ lists for a
    scan, [result] what the session of a preflight returns. An assignment joins the older thread
    of the object, if there is one, like the call before it. *)
(* src/src/bridge_daemon_main.cpp:1204-1243 main (prepare); src/src/bridge_daemon_main.cpp:1345-1366 main (scan) *)
Definition advance (listed : Bytes + list BluetoothDevice) (result : Z) (t : nat) (f : Flow) : option Flow :=
  match works f !! t with
  | None | Some Over => None
  | Some ScanDecides => let '(w, s) := scan_decides (shown f) in Some (become t w (show s f))
  | Some ScanStarts => if joins (scan_worker f) f then Some (become t ScanJoined (set_scan_object None f)) else None
  | Some ScanJoined => Some (spawn ScanBegins (become t (ScanCreated (length (works f))) f))
  | Some (ScanCreated thread) => if joins (scan_worker f) f then Some (become t Over (set_scan_object (Some thread) f)) else None
  | Some ScanBegins =>
      Some (become t ScanDiscovers (show (set_scan (bluetooth_scan_running (shown f)) 3 (bs "classic discovery in progress") (shown f)) f))
  | Some ScanDiscovers => Some (become t ScanRefreshed (show (refresh_bluetooth_inventory listed (shown f)) f))
  | Some ScanRefreshed => Some (become t Over (show (set_scan false 4 (bs "last discovery completed") (shown f)) f))
  | Some PrepareReads => Some (become t (PrepareDecides (used f)) f)
  | Some (PrepareDecides c) => let '(w, s) := prepare_decides c (shown f) in Some (become t w (show s f))
  | Some PrepareRefuses => Some (become t Over (show (prepare_refuses (shown f)) f))
  | Some (PrepareStarts c) =>
      if joins (preflight_worker f) f then Some (become t (PrepareJoined c) (set_preflight_object None f)) else None
  | Some (PrepareJoined c) => Some (spawn (PreflightBegins c) (become t (PrepareCreated (length (works f))) f))
  | Some (PrepareCreated thread) =>
      if joins (preflight_worker f) f then Some (become t Over (set_preflight_object (Some thread) f)) else None
  | Some (PreflightBegins c) =>
      Some (become t (PreflightRuns c)
              (show (set_preflight discovering (bs "searching for the head unit over Bluetooth") (shown f)) f))
  | Some (PreflightRuns c) =>
      Some (become t Over
              (show (set_preflight (if result =? 0 then succeeded else failed)
                       (if result =? 0 then bs "display test completed" else bs "failed (see daemon log for details)") (shown f)) f))
  end.




Definition new_flow (s : Snapshot) (c : Config) : Flow := mkFlow s c None None [].

(** ** Facts *)






























(** ** Theorems *)


(** A request that nothing interrupts does what it does in one step. *)
Lemma scan_at_once d :
  (post_scan d).1 = let '(w, s) := scan_decides (snapshot d) in
    match w with ScanStarts => set_scan_worker (Some Queued) (set_snapshot s d) | _ => set_snapshot s d end.
Proof. unfold post_scan, scan_decides. destruct d as [? s ? ? ? ? ? ? ? ?]. cbn. by destruct (bluetooth_scan_running s). Qed.

Lemma prepare_at_once d :
  (post_prepare d).1 = let '(w, s) := prepare_decides (config d) (snapshot d) in
    match w with
    | PrepareStarts c => set_preflight_worker (Some (c, Queued)) (set_snapshot s d)
    | _ => set_snapshot (prepare_refuses s) d
    end.
Proof.
  unfold post_prepare, prepare_decides. destruct d as [c s ? ? ? ? ? ? ? ?]. cbn.
  destruct (negb (preflight_active _)), (negb (bluetooth_scan_running s)); cbn; try done. by destruct (DaemonRequests.configured c).
Qed.

(** ** Evaluated *)

(** Threads that advance, by their numbers, with nothing listed and a session that fails. *)
Fixpoint advances (ts : list nat) (f : Flow) : option Flow :=
  match ts with
  | [] => Some f
  | t :: ts => match advance (inr []) 1 t f with Some f => advances ts f | None => None end
  end.


Definition three_requests : Flow :=
  spawn PrepareReads (spawn ScanDecides (spawn ScanDecides (new_flow new_snapshot (mkConfig (bs "AA:BB") (bs "wlan0") [] [] [])))).



(** The object of the scan is shared by the requests without a lock: when a scan ends before
    the request that started it has assigned the object, the next request looks at
    the object while the first one still has to write it. *)
Example object_raced :
  exists f, advances [0; 0; 0; 3; 3; 3; 1]%nat three_requests = Some f /\ works f = [ScanCreated 3; ScanStarts; PrepareReads; Over].
Proof. eexists. by split; vm_compute. Qed.
