(* ===== verification/ManagementListener.v ===== *)
(** * The management page's socket and its clients

    [src/src/bridge/management_listener.cpp], the socket that is bound to the
    configured interface and moved to another one, and the queue of clients between
    the accepting loop and the four request workers of
    [src/src/bridge_daemon_main.cpp]. *)

From S2P Require Import Prelude Text.
From stdpp Require Import gmap relations.
From Stdlib Require Import Sorting.Permutation.
#[local] Open Scope Z_scope.

(** ** The socket *)

(** A socket of the process: the device it is bound to (none is empty) and its
    address. *)
Record Socket := mkSocket { device : Bytes; bound : Z }.

(** The open sockets and the next descriptor. *)
Record Kernel := mkKernel { sockets : gmap Z Socket; next_fd : Z }.

(** What an attempt to open the listener meets. *)
Record Attempt := mkAttempt {
  socket_made : bool;
  device_bound : bool;
  interface_address : option Z;
  listening : bool       (* [bind] and [listen] *)
}.

Definition kLoopback : Z := 2130706433.
Definition kAny : Z := 0.

Definition close_socket (fd : Z) (k : Kernel) : Kernel := mkKernel (delete fd (sockets k)) (next_fd k).

(** An entry of [getifaddrs]: the interface, and its address if it is one of IPv4. *)
(* src/src/bridge/management_listener.cpp:13-29 ipv4_address_for_interface *)
Definition ipv4_address_for_interface (interface_name : Bytes) (entries : option (list (Bytes * option Z))) : option Z :=
  match entries with
  | None => None
  | Some entries => head (omap (fun e => if bytes_eqb interface_name e.1 then e.2 else None) entries)
  end.

(** The descriptor, or -1, and the address. *)
(* src/src/bridge/management_listener.cpp:56-84 ManagementListener::open_listener *)
Definition open_listener (interface_name : Bytes) (a : Attempt) (k : Kernel) : Z * Z * Kernel :=
  if negb (socket_made a) then (-1, 0, k)
  else
    let fd := next_fd k in
    let k := mkKernel (<[fd := mkSocket [] kAny]> (sockets k)) (fd + 1) in
    if negb (bytes_eqb interface_name []) && negb (device_bound a) then (-1, 0, close_socket fd k)
    else
      let address := default (if bytes_eqb interface_name [] then kLoopback else kAny) (interface_address a) in
      if negb (listening a) then (-1, 0, close_socket fd k)
      else (fd, address, mkKernel (<[fd := mkSocket interface_name address]> (sockets k)) (next_fd k)).

(* src/include/aa2acp/bridge/management_listener.hpp:36-39 ManagementListener (members) *)
Record Listener := mkListener { fd : Z; address : Z; interface_name : Bytes }.

(* src/src/bridge/management_listener.cpp:33-40 ManagementListener::ManagementListener *)
Definition new_listener (name : Bytes) (a : Attempt) (k : Kernel) : Listener * Kernel :=
  let '(fd, address, k) := open_listener name a k in
  (mkListener fd (if 0 <=? fd then address else kLoopback) name, k).

(* src/src/bridge/management_listener.cpp:42-45 ManagementListener::~ManagementListener *)
Definition destroy_listener (l : Listener) (k : Kernel) : Kernel := if 0 <=? fd l then close_socket (fd l) k else k.

(* src/src/bridge/management_listener.cpp:47-54 ManagementListener::address_changed *)
Definition address_changed (current : option Z) (l : Listener) : bool :=
  if bytes_eqb (interface_name l) [] then false
  else if fd l <? 0 then true
  else match current with Some c => negb (c =? address l) | None => negb (address l =? kAny) end.

(** The attempts: beside the old socket, after closing it, and to restore it. *)
(* src/src/bridge/management_listener.cpp:86-123 ManagementListener::rebind *)
Definition rebind (name : Bytes) (a1 a2 a3 : Attempt) (l : Listener) (k : Kernel) : bool * Listener * Kernel :=
  let '(replacement, replacement_address, k) := open_listener name a1 k in
  let retry := (replacement <? 0) && (0 <=? fd l) in
  let k := if retry then close_socket (fd l) k else k in
  let '(replacement, replacement_address, k) :=
    if retry then open_listener name a2 k else (replacement, replacement_address, k) in
  if replacement <? 0 then
    if retry then
      let '(restored, restored_address, k) := open_listener (interface_name l) a3 k in
      (false, mkListener restored (if 0 <=? restored then restored_address else address l) (interface_name l), k)
    else (false, l, k)
  else
    let k := if (0 <=? fd l) && negb retry && negb (fd l =? replacement) then close_socket (fd l) k else k in
    (true, mkListener replacement replacement_address name, k).

(** ** The loop around it *)

(** A rebind is asked for when the configuration or the address changed; one that
    failed is asked for again. *)
(* src/src/bridge_daemon_main.cpp:1525-1554 main (rebind) *)
Definition rebind_management_listener (configured : Bytes) (current : option Z) (a1 a2 a3 : Attempt)
    (requested : bool) (l : Listener) (k : Kernel) : bool * bool * Listener * Kernel :=
  let requested := requested || negb (bytes_eqb configured (interface_name l)) || address_changed current l in
  if negb requested then (false, false, l, k)
  else let '(ok, l, k) := rebind configured a1 a2 a3 l k in (ok, negb ok, l, k).

(** ** Clients *)

(* src/src/bridge_daemon_main.cpp:1497-1503 main (request queue) *)
Record Clients := mkClients {
  request_queue : list Z;
  active_clients : list (option Z);   (* one for each worker *)
  request_queue_stopping : bool;
  closed : list Z
}.

Definition kManagementWorkerCount : nat := 4.
(* src/src/bridge_daemon_main.cpp:1497-1497 main (kManagementQueueLimit) *)
Definition kManagementQueueLimit : nat := 16.

Definition no_clients : Clients := mkClients [] (repeat None kManagementWorkerCount) false [].

(* src/src/bridge_daemon_main.cpp:1578-1590 main (accept) *)
Definition accept_client (client : Z) (c : Clients) : Clients :=
  if Nat.leb kManagementQueueLimit (length (request_queue c)) then
    mkClients (request_queue c) (active_clients c) (request_queue_stopping c) (closed c ++ [client])
  else mkClients (request_queue c ++ [client]) (active_clients c) (request_queue_stopping c) (closed c).

(** Worker [index] is idle and takes the first client; [None] while it waits or when
    it ends. *)
(* src/src/bridge_daemon_main.cpp:1505-1522 main (request worker) *)
Definition take_client (index : nat) (c : Clients) : option Clients :=
  match active_clients c !! index, request_queue c with
  | Some None, client :: queue =>
      if request_queue_stopping c then None
      else Some (mkClients queue (<[index := Some client]> (active_clients c)) false (closed c))
  | _, _ => None
  end.

(** The first worker that has this client is cleared, and the client is closed. *)
(* src/src/bridge_daemon_main.cpp:982-990 main (finish_client) *)
Definition finish_client (client : Z) (c : Clients) : Clients :=
  let clear := fix clear (active : list (option Z)) : list (option Z) :=
    match active with
    | [] => []
    | slot :: active => if bool_decide (slot = Some client) then None :: active else slot :: clear active
    end in
  mkClients (request_queue c) (clear (active_clients c)) (request_queue_stopping c) (closed c ++ [client]).

(* src/src/bridge_daemon_main.cpp:1591-1597 main (stop) *)
Definition stop_clients (c : Clients) : Clients :=
  mkClients [] (active_clients c) true (closed c ++ request_queue c).

(** ** Theorems: the socket *)

(** The one open socket is the listener's, bound to its interface and address. *)
Definition listener_ok (l : Listener) (k : Kernel) : Prop :=
  0 <= next_fd k /\
  (0 <= fd l -> fd l < next_fd k /\ sockets k = {[fd l := mkSocket (interface_name l) (address l)]}) /\
  (fd l < 0 -> sockets k = ∅).

Lemma open_listener_spec name a k fd address k' :
  open_listener name a k = (fd, address, k') -> 0 <= next_fd k -> sockets k !! next_fd k = None ->
  next_fd k <= next_fd k' /\
  ((fd = next_fd k /\ fd < next_fd k' /\ sockets k' = <[fd := mkSocket name address]> (sockets k)) \/
   (fd = -1 /\ sockets k' = sockets k)).
Proof.
  unfold open_listener. intros E Hn Hfree.
  destruct (negb (socket_made a)); [injection E as <- <- <-; split; [lia|by right]|].
  destruct (_ && negb (device_bound a)).
  { injection E as <- <- <-. cbn. split; [lia|]. right. split; [done|]. by rewrite delete_insert_id. }
  destruct (negb (listening a)); injection E as <- <- <-; cbn; (split; [lia|]).
  - right. split; [done|]. by rewrite delete_insert_id.
  - left. split_and!; [done|lia|]. by rewrite insert_insert_eq.
Qed.

Lemma new_listener_ok name a k : sockets k = ∅ -> 0 <= next_fd k ->
  let '(l, k') := new_listener name a k in listener_ok l k' /\ interface_name l = name.
Proof.
  intros Hk Hn. unfold new_listener. destruct (open_listener name a k) as [[fd address] k'] eqn:E.
  apply open_listener_spec in E as [Hle [(-> & Hlt & Hs)|[-> Hs]]]; try done; [..|by rewrite Hk]; (split; [|done]);
    rewrite Hk in Hs; unfold listener_ok; cbn.
  - rewrite (proj2 (Z.leb_le 0 _)) by done. split_and!; [lia|by intros _|lia].
  - split_and!; [lia|lia|done].
Qed.

Lemma listener_free l k : listener_ok l k -> sockets k !! next_fd k = None.
Proof.
  intros (Hn & Hopen & Hclosed). destruct (Z_lt_le_dec (fd l) 0) as [Hf|Hf]; [by rewrite (Hclosed Hf)|].
  destruct (Hopen Hf) as [Hlt ->]. apply lookup_singleton_ne. lia.
Qed.

Lemma rebind_ok name a1 a2 a3 l k :
  listener_ok l k ->
  let '(ok, l', k') := rebind name a1 a2 a3 l k in
  listener_ok l' k' /\ if ok : bool then interface_name l' = name /\ 0 <= fd l' else interface_name l' = interface_name l.
Proof.
  intros Hl. pose proof (listener_free l k Hl) as Hfree. destruct Hl as (Hn & Hopen & Hclosed). unfold rebind.
  destruct (open_listener name a1 k) as [[fd1 ad1] k1] eqn:E1.
  apply open_listener_spec in E1 as [Hle [(-> & Hlt & Hs)|[-> Hs]]]; try done.
  - rewrite (proj2 (Z.ltb_ge (next_fd k) 0)) by done. cbn [andb]. rewrite (proj2 (Z.ltb_ge (next_fd k) 0)) by done.
    destruct (0 <=? fd l) eqn:Ef; cbn [andb negb].
    + apply Z.leb_le in Ef. destruct (Hopen Ef) as [Hltf Hks]. rewrite (proj2 (Z.eqb_neq (fd l) (next_fd k))) by lia. cbn [negb].
      split; [|done]. unfold listener_ok. cbn. split_and!; [lia| |lia]. intros _. split; [done|].
      rewrite Hs, Hks, delete_insert_ne by lia. by rewrite delete_singleton_eq.
    + apply Z.leb_gt in Ef. split; [|done]. unfold listener_ok. cbn. split_and!; [lia| |lia]. intros _. split; [done|].
      by rewrite Hs, (Hclosed Ef).
  - change (-1 <? 0) with true. cbn [andb]. destruct (0 <=? fd l) eqn:Ef.
    2:{ apply Z.leb_gt in Ef. change (-1 <? 0) with true. cbv iota. split; [|done]. unfold listener_ok. split_and!; [lia|lia|].
        intros _. by rewrite Hs, (Hclosed Ef). }
    apply Z.leb_le in Ef. destruct (Hopen Ef) as [Hltf Hks].
    assert (Hempty : sockets (close_socket (fd l) k1) = ∅) by (cbn; by rewrite Hs, Hks, delete_singleton_eq).
    set (k2 := close_socket (fd l) k1) in *. assert (Hn2 : 0 <= next_fd k2) by (cbn; lia).
    destruct (open_listener name a2 k2) as [[fd2 ad2] k3] eqn:E2.
    apply open_listener_spec in E2 as [Hle2 [(-> & Hlt2 & Hs2)|[-> Hs2]]]; try done; [..|by rewrite Hempty].
    + rewrite (proj2 (Z.ltb_ge (next_fd k2) 0)) by done. rewrite andb_false_r. cbn [andb].
      split; [|done]. unfold listener_ok. cbn -[k2]. split_and!; [lia| |lia]. intros _. split; [done|]. by rewrite Hs2, Hempty.
    + change (-1 <? 0) with true. cbv iota. rewrite Hempty in Hs2.
      destruct (open_listener (interface_name l) a3 k3) as [[fd3 ad3] k4] eqn:E3.
      apply open_listener_spec in E3 as [Hle3 [(-> & Hlt3 & Hs3)|[-> Hs3]]]; [..|lia|by rewrite Hs2]; (split; [|done]);
        unfold listener_ok; cbn.
      * rewrite (proj2 (Z.leb_le 0 _)) by lia. split_and!; [lia| |lia]. intros _. split; [lia|]. by rewrite Hs3, Hs2.
      * split_and!; [lia|lia|]. intros _. by rewrite Hs3.
Qed.

Definition do_rebind (s : Listener * Kernel) (e : Bytes * (Attempt * Attempt * Attempt)) : Listener * Kernel :=
  let '(name, (a1, a2, a3)) := e in
  let '(_, l, k) := rebind name a1 a2 a3 s.1 s.2 in (l, k).

(** The page is served on the configured interface only. Whatever the attempts to
    open a socket do, after any sequence of rebinds the process has at most the one
    socket of the listener, none is leaked, and it is bound to the interface and the
    address that the listener reports; and a rebind that succeeds has moved it to the
    requested interface. *)
Theorem listener_on_interface name a rebinds wanted a1 a2 a3 :
  let '(l, k) := fold_left do_rebind rebinds (new_listener name a (mkKernel ∅ 3)) in
  (forall fd s, sockets k !! fd = Some s -> fd = ManagementListener.fd l /\ s = mkSocket (interface_name l) (address l)) /\
  (0 <= fd l -> sockets k !! fd l = Some (mkSocket (interface_name l) (address l))) /\
  let '(ok, l', k') := rebind wanted a1 a2 a3 l k in
  ok = true -> sockets k' = {[fd l' := mkSocket wanted (address l')]}.
Proof.
  assert (H : listener_ok (fold_left do_rebind rebinds (new_listener name a (mkKernel ∅ 3))).1
                (fold_left do_rebind rebinds (new_listener name a (mkKernel ∅ 3))).2).
  { induction rebinds as [|[n [[b1 b2] b3]] rebinds IH] using rev_ind.
    - pose proof (new_listener_ok name a (mkKernel ∅ 3) eq_refl ltac:(cbn; lia)) as H.
      cbn [fold_left]. destruct (new_listener _ _ _) as [l k]. apply H.
    - rewrite fold_left_app. cbn [fold_left]. destruct (fold_left _ _ _) as [l k]. cbn [fst snd] in IH.
      unfold do_rebind. cbn [fst snd]. pose proof (rebind_ok n b1 b2 b3 l k IH) as Hr.
      destruct (rebind n b1 b2 b3 l k) as [[ok l'] k']. apply Hr. }
  destruct (fold_left _ _ _) as [l k]. cbn [fst snd] in H. pose proof (rebind_ok wanted a1 a2 a3 l k H) as Hr.
  destruct H as (Hn & Hopen & Hclosed). split_and!.
  - intros f s Hs. destruct (Z_lt_le_dec (fd l) 0) as [Hf|Hf]; [by rewrite (Hclosed Hf) in Hs|].
    destruct (Hopen Hf) as [_ Hk]. rewrite Hk in Hs. by apply lookup_singleton_Some in Hs as [<- <-].
  - intros Hf. destruct (Hopen Hf) as [_ ->]. by rewrite lookup_singleton_eq.
  - destruct (rebind wanted a1 a2 a3 l k) as [[ok l'] k']. intros ->. destruct Hr as [(_ & Ho & _) [Hi Hf]].
    destruct (Ho Hf) as [_ ->]. by rewrite Hi.
Qed.

(** The old listener can be lost, although the new address is a different one. *)
Example listener_lost :
  let good := mkAttempt true true (Some 7) true in
  let bad := mkAttempt true false None true in
  let '(l, k) := new_listener (bs "wlan0") good (mkKernel ∅ 3) in
  let '(ok, l, k) := rebind (bs "wlan1") bad bad bad l k in
  ok = false /\ fd l = -1 /\ sockets k = ∅ /\ interface_name l = bs "wlan0".
Proof. vm_compute. done. Qed.

(** ** Theorems: clients *)

Inductive client_step : list Z * Clients -> list Z * Clients -> Prop :=
| client_accepted client accepted c :
    client ∉ request_queue c -> Some client ∉ active_clients c ->
    client_step (accepted, c) (accepted ++ [client], accept_client client c)
| client_taken index accepted c c' : take_client index c = Some c' -> client_step (accepted, c) (accepted, c')
| client_finished client accepted c :
    Some client ∈ active_clients c -> client_step (accepted, c) (accepted, finish_client client c)
| clients_stopped accepted c : client_step (accepted, c) (accepted, stop_clients c).

Definition active (c : Clients) : list Z := omap (fun slot => slot) (active_clients c).

Definition clients_ok (s : list Z * Clients) : Prop :=
  s.1 ≡ₚ closed s.2 ++ active s.2 ++ request_queue s.2 /\
  (length (request_queue s.2) <= kManagementQueueLimit)%nat /\ length (active_clients s.2) = kManagementWorkerCount.

Lemma omap_taken slots : forall index client,
  slots !! index = Some None -> omap (fun slot : option Z => slot) (<[index := Some client]> slots) ≡ₚ client :: omap (fun slot => slot) slots.
Proof.
  induction slots as [|slot slots IH]; intros [|index] client; cbn; try done.
  - by intros [= ->].
  - intros H. destruct slot; cbn; rewrite (IH index client H); [by rewrite Permutation_swap|done].
Qed.

Lemma finish_spec client c :
  Some client ∈ active_clients c ->
  active c ≡ₚ client :: active (finish_client client c) /\ length (active_clients (finish_client client c)) = length (active_clients c).
Proof.
  unfold active, finish_client. cbn [active_clients]. induction (active_clients c) as [|slot slots IH]; [by intros ?%not_elem_of_nil|].
  intros H. case_bool_decide as Hs; [by subst slot|].
  apply elem_of_cons in H as [H|H]; [congruence|]. destruct (IH H) as [IH1 IH2]. cbn. split; [|by rewrite IH2].
  destruct slot; cbn; rewrite IH1; [by rewrite Permutation_swap|done].
Qed.

Lemma client_step_ok s s' : client_step s s' -> clients_ok s -> clients_ok s'.
Proof.
  intros Hstep (Hp & Hq & Ha). destruct Hstep as [client accepted c H1 H2|index accepted c c' H|client accepted c H|accepted c];
    unfold clients_ok in *; cbn [fst snd] in *.
  - unfold accept_client. destruct (Nat.leb_spec kManagementQueueLimit (length (request_queue c))) as [Hl|Hl]; cbn; split_and!; try done.
    + rewrite Hp. unfold active. cbn. solve_Permutation.
    + rewrite Hp. unfold active. cbn. solve_Permutation.
    + rewrite length_app. cbn [length]. lia.
  - unfold take_client in H. destruct (active_clients c !! index) as [[|]|] eqn:Ei; [done| |done].
    destruct (request_queue c) as [|client queue] eqn:Eq; [done|]. destruct (request_queue_stopping c); [done|].
    injection H as <-. cbn in *. split_and!; [|lia|by rewrite length_insert].
    unfold active in *. cbn [active_clients]. rewrite Hp, (omap_taken _ _ client Ei). solve_Permutation.
  - destruct (finish_spec client c H) as [Hf Hl]. split_and!; [|done|by rewrite Hl].
    cbn [closed finish_client request_queue]. rewrite Hp, Hf. fold (finish_client client c). solve_Permutation.
  - cbn. split_and!; [|lia|done]. rewrite Hp. unfold active. cbn [active_clients]. solve_Permutation.
Qed.

(** No client is lost and none is kept. In every order of accepting, taking,
    finishing and stopping, each accepted client is exactly once in the queue, with
    one of the four workers, or closed; the queue never holds more than sixteen, and
    after a stop it is empty. *)
Theorem clients_accounted_for s :
  rtc client_step ([], no_clients) s ->
  s.1 ≡ₚ closed s.2 ++ active s.2 ++ request_queue s.2 /\
  (length (request_queue s.2) <= 16)%nat /\ (length (active s.2) <= 4)%nat /\
  request_queue (stop_clients s.2) = [] /\ (active s.2 = [] -> closed (stop_clients s.2) ≡ₚ s.1).
Proof.
  intros Hr. assert (H0 : clients_ok ([], no_clients)) by (unfold clients_ok; cbn; split_and!; [done|lia|done]).
  assert (Hs : clients_ok s) by (induction Hr as [|s1 s2 s3 H1 Hr IH]; [done|by apply IH, (client_step_ok s1)]).
  destruct Hs as (Hp & Hq & Ha). split_and!; [done|done| |done|].
  - unfold active. rewrite <- (Ha : length (active_clients s.2) = 4%nat). clear.
    induction (active_clients s.2) as [|[x|] l IH]; cbn; lia.
  - intros He. rewrite Hp, He. done.
Qed.

Lemma clients_accounted_for_witness :
  let s := ([5; 6], finish_client 5 (default no_clients (take_client 2 (accept_client 6 (accept_client 5 no_clients))))) in
  s.1 ≡ₚ closed s.2 ++ active s.2 ++ request_queue s.2 /\ (length (request_queue s.2) <= 16)%nat /\
  (length (active s.2) <= 4)%nat /\ request_queue (stop_clients s.2) = [] /\
  (active s.2 = [] -> closed (stop_clients s.2) ≡ₚ s.1).
Proof.
  cbv zeta. apply clients_accounted_for.
  eapply rtc_l; [apply (client_accepted 5); vm_compute; set_solver|].
  eapply rtc_l; [apply (client_accepted 6); vm_compute; set_solver|].
  eapply rtc_l; [apply (client_taken 2); vm_compute; reflexivity|].
  apply rtc_once. apply (client_finished 5). vm_compute. set_solver.
Defined.
