(* ===== verification/IngressQueue.v ===== *)
(** * Bounded queues in front of an I/O thread

    Three queues of [src/src/aa/wired_receiver.cpp] work alike: a producer on any
    thread adds under a lock, drops the oldest entry of a full queue, and posts a
    drain to the I/O thread unless one is on its way; a drain takes one entry under
    the lock, hands it on, and looks again under the lock whether to post another.
    Between the two locks the producers go on. *)

From S2P Require Import Prelude.
From stdpp Require Import relations.

Section Queue.
Context {A : Type} (limit : nat).

(** The queue and the flag that a drain is on its way. *)
Record Ingress := mkIngress { items : list A; posted : bool }.

Definition new_ingress : Ingress := mkIngress [] false.

(** Whether a drain has to be posted. *)
(* src/src/aa/wired_receiver.cpp:1031-1037 WiredReceiver::Impl::send_input_report (queue) *)
Definition push (x : A) (q : Ingress) : bool * Ingress :=
  let kept := if (limit <=? length (items q))%nat then tail (items q) else items q in
  (negb (posted q), mkIngress (kept ++ [x]) true).

(** The first lock of a drain: the entry, unless there is none. *)
(* src/src/aa/wired_receiver.cpp:1096-1101 WiredReceiver::Impl::drain_input_reports (first lock) *)
Definition take_one (q : Ingress) : option A * Ingress :=
  match items q with
  | [] => (None, mkIngress [] false)
  | x :: rest => (Some x, mkIngress rest (posted q))
  end.

(** The second lock: whether another drain has to be posted. *)
(* src/src/aa/wired_receiver.cpp:1107-1112 WiredReceiver::Impl::drain_input_reports (second lock) *)
Definition look_again (q : Ingress) : bool * Ingress :=
  match items q with
  | [] => (false, mkIngress [] false)
  | _ => (true, q)
  end.

(** ** Runs *)

(** The drains posted and not yet begun, whether one is between its locks, and, as
    a ghost, every entry that left the queue, in order, with whether it was handed
    on. *)
Record Run := mkRun {
  queue : Ingress;
  jobs : nat;
  between : bool;
  left : list (bool * A)
}.

Definition new_run : Run := mkRun new_ingress 0 false [].

Definition do_push (x : A) (r : Run) : Run :=
  let dropped := if (limit <=? length (items (queue r)))%nat then map (pair false) (take 1 (items (queue r))) else [] in
  let '(schedule, q) := push x (queue r) in
  mkRun q (if schedule then S (jobs r) else jobs r) (between r) (left r ++ dropped).

Definition do_take (r : Run) : Run :=
  match take_one (queue r) with
  | (Some x, q) => mkRun q (pred (jobs r)) true (left r ++ [(true, x)])
  | (None, q) => mkRun q (pred (jobs r)) false (left r)
  end.

Definition do_look (r : Run) : Run :=
  let '(schedule, q) := look_again (queue r) in
  mkRun q (if schedule then S (jobs r) else jobs r) false (left r).

(** The runs, with what was pushed in order: producers at any moment, and the I/O
    thread begins a drain that was posted, or goes on with the one it is in. *)
Inductive reachable : Run -> list A -> Prop :=
| reach_start : reachable new_run []
| reach_push r xs x : reachable r xs -> reachable (do_push x r) (xs ++ [x])
| reach_take r xs : reachable r xs -> jobs r <> O -> between r = false -> reachable (do_take r) xs
| reach_look r xs : reachable r xs -> between r = true -> reachable (do_look r) xs.

(** The I/O thread alone. *)
Definition io_step (r : Run) : Run :=
  if between r then do_look r else if Nat.eqb (jobs r) 0 then r else do_take r.

(** ** Theorems *)

(** One drain is on its way exactly while the flag is set, and the flag is set
    while anything waits. *)
Definition consistent (r : Run) : Prop :=
  (jobs r + (if between r then 1 else 0) = if posted (queue r) then 1 else 0)%nat /\
  (items (queue r) <> [] -> posted (queue r) = true).

Lemma consistent_reachable r xs : reachable r xs -> consistent r.
Proof.
  unfold consistent. induction 1 as [|r xs x _ [Hj Hp]|r xs _ [Hj Hp] Hn Hb|r xs _ [Hj Hp] Hb]; [done|..].
  - cbn. destruct (posted (queue r)); cbn; (split; [lia|done]).
  - unfold do_take, take_one. rewrite Hb in Hj. destruct (items (queue r)) as [|y rest]; cbn.
    + destruct (posted (queue r)); (split; [lia|done]).
    + rewrite Hp in Hj |- * by done. split; [lia|done].
  - unfold do_look, look_again. rewrite Hb in Hj. destruct (items (queue r)) as [|y rest] eqn:E; cbn.
    + destruct (posted (queue r)); (split; [lia|done]).
    + rewrite E in *. rewrite Hp in Hj |- * by done. split; [lia|done].
Qed.

(** Entries leave at the front, handed on or dropped, and none is lost or moved. *)
Lemma accounted r xs : reachable r xs -> map snd (left r) ++ items (queue r) = xs.
Proof.
  induction 1 as [|r xs x _ <-|r xs _ <- Hn Hb|r xs _ <- Hb]; [done|..].
  - unfold do_push, push. cbn. rewrite map_app, <- (assoc_L (++)), <- (assoc_L (++)). f_equal.
    destruct (limit <=? length (items (queue r)))%nat; [|done]. by destruct (items (queue r)).
  - unfold do_take, take_one. destruct (items (queue r)) as [|y rest]; cbn; [done|].
    by rewrite map_app, <- (assoc_L (++)).
  - unfold do_look, look_again. by destruct (items (queue r)) as [|y rest] eqn:E; cbn; rewrite ?E.
Qed.

Lemma bounded r xs : (0 < limit)%nat -> reachable r xs -> (length (items (queue r)) <= limit)%nat.
Proof.
  intros Hl. induction 1 as [|r xs x _ IH|r xs _ IH Hn Hb|r xs _ IH Hb]; [cbn; lia|..].
  - unfold do_push, push. cbn. rewrite length_app. cbn. destruct (limit <=? length (items (queue r)))%nat eqn:E.
    + destruct (items (queue r)); cbn in *; lia.
    + apply Nat.leb_gt in E. lia.
  - unfold do_take, take_one. destruct (items (queue r)) as [|y rest]; cbn in *; lia.
  - unfold do_look, look_again. destruct (items (queue r)) as [|y rest] eqn:E; cbn in *; [lia|by rewrite E].
Qed.

Lemma io_step_next q x rest n l :
  items q = x :: rest -> posted q = true ->
  io_step (io_step (mkRun q (S n) false l)) =
  match rest with
  | [] => mkRun new_ingress n false (l ++ [(true, x)])
  | _ => mkRun (mkIngress rest true) (S n) false (l ++ [(true, x)])
  end.
Proof.
  intros Hi Hp. unfold io_step at 2. cbn [between jobs Nat.eqb]. unfold do_take, take_one. cbn [queue jobs pred left].
  rewrite Hi, Hp. unfold io_step. cbn [between]. unfold do_look, look_again. cbn [queue items jobs left]. by destruct rest.
Qed.

Lemma io_drains l : forall q h, items q = l -> posted q = true -> l <> [] ->
  Nat.iter (2 * length l) io_step (mkRun q 1 false h) = mkRun new_ingress 0 false (h ++ map (pair true) l).
Proof.
  induction l as [|x rest IH]; intros q h Hi Hp Hn; [done|].
  cbn [length]. replace (2 * S (length rest))%nat with (2 * length rest + 2)%nat by lia.
  rewrite Nat.iter_add. change (Nat.iter 2 io_step ?r) with (io_step (io_step r)).
  rewrite (io_step_next q x rest 0 h Hi Hp). destruct rest as [|y rest]; [done|].
  rewrite IH by done. by rewrite <- (assoc_L (++)).
Qed.

(** Nothing waits for good. When the producers pause in any state they can
    reach, at most two steps of the I/O thread for each entry, and one more, hand on
    every entry that waits, in order, and leave no drain behind. *)
Lemma drains_all r xs : reachable r xs ->
  exists n, (n <= 2 * length (items (queue r)) + 2)%nat /\
    Nat.iter n io_step r = mkRun new_ingress 0 false (left r ++ map (pair true) (items (queue r))).
Proof.
  intros Hr. apply consistent_reachable in Hr as [Hj Hp]. destruct r as [[l p] j b h]. cbn in *.
  destruct l as [|x l].
  - rewrite app_nil_r. destruct b.
    + exists 1%nat. split; [lia|]. cbn. unfold io_step. cbn. destruct p; [|lia]. by replace j with O by lia.
    + destruct p; [exists 1%nat|exists O]; (split; [lia|]); [replace j with 1%nat by lia|replace j with O by lia]; done.
  - rewrite Hp in * by done. destruct b.
    + replace j with O in * by lia. exists (2 * S (length l) + 1)%nat. split; [cbn [length]; lia|].
      rewrite Nat.iter_add. apply (io_drains (x :: l) (mkIngress (x :: l) true) h); done.
    + replace j with 1%nat in * by lia. exists (2 * S (length l))%nat. split; [cbn [length]; lia|].
      by apply (io_drains (x :: l) (mkIngress (x :: l) true) h).
Qed.
End Queue.

Arguments mkIngress {A}.
Arguments new_ingress {A}.
Arguments items {A}.
Arguments posted {A}.
