(* ===== verification/Sockets.v ===== *)
(** * Sockets and their descriptors

    How the bridge opens, shares and closes its sockets: the listeners of
    [src/src/bridge/media_forwarders.cpp] and [src/src/bridge/carplay_ipc.cpp] with
    their client and the threads that end them, the connections to them, and the
    UDP sockets of [src/src/airplay/session.cpp].  A function is the descriptor it
    returns and the calls it made; what the calls return is an argument. *)

From S2P Require Import Prelude CarplayIpc.
From stdpp Require Import gmap.
#[local] Open Scope Z_scope.

(** ** Calls *)

Inductive Event :=
| Opened (fd : Z)
| Unlinked (path : Bytes)
| Bound (fd : Z) (path : Bytes)
| ModeSet (path : Bytes) (mode : Z)
| Listening (fd : Z)
| Used (fd : Z)
| ShutDown (fd : Z)
| Closed (fd : Z).

(** The descriptors that are open after the calls, or [None] when a call names one
    that is not open, or the kernel gives out one that is. *)
Fixpoint disciplined (live : gset Z) (calls : list Event) : option (gset Z) :=
  match calls with
  | [] => Some live
  | e :: calls =>
      match e with
      | Opened fd => if decide (fd ∈ live) then None else disciplined ({[fd]} ∪ live) calls
      | Closed fd => if decide (fd ∈ live) then disciplined (live ∖ {[fd]}) calls else None
      | Bound fd _ | Listening fd | Used fd | ShutDown fd =>
          if decide (fd ∈ live) then disciplined live calls else None
      | Unlinked _ | ModeSet _ _ => disciplined live calls
      end
  end.

(** The size of [sun_path]. *)
Definition kSunPath : Z := 108.
Definition S_IRUSR_S_IWUSR : Z := 384.

Definition opened (fd : Z) : list Event := if 0 <=? fd then [Opened fd] else [].

(* src/src/bridge/media_forwarders.cpp:183-188 MediaSocketForwarder::close_listener *)
Definition close_listener (listener : Z) : list Event := if 0 <=? listener then [Closed listener] else [].

(** ** Listening *)

Record ListenTurn := mkListenTurn {
  socket_result : Z;
  bind_ok : bool;
  chmod_ok : bool;
  listen_ok : bool
}.

(** [bind], [chmod] and [listen], as far as they succeed. *)
Definition prepare (path : Bytes) (t : ListenTurn) : bool * list Event :=
  let fd := socket_result t in
  if negb (bind_ok t) then (false, [])
  else if negb (chmod_ok t) then (false, [Bound fd path])
  else if negb (listen_ok t) then (false, [Bound fd path; ModeSet path S_IRUSR_S_IWUSR])
  else (true, [Bound fd path; ModeSet path S_IRUSR_S_IWUSR; Listening fd]).

(* src/src/bridge/media_forwarders.cpp:21-42 MediaSocketForwarder *)
Definition media_listen (path : Bytes) (t : ListenTurn) : Z * list Event :=
  let listener := socket_result t in
  if (listener <? 0) || (kSunPath <=? size_of path) then (-1, opened listener ++ close_listener listener)
  else
    let '(ok, calls) := prepare path t in
    if ok : bool then (listener, opened listener ++ Unlinked path :: calls)
    else (-1, opened listener ++ Unlinked path :: calls ++ close_listener listener ++ [Unlinked path]).

(* src/src/bridge/carplay_ipc.cpp:141-164 FrameSocketReceiver *)
Definition frame_listen (path : Bytes) (t : ListenTurn) : Z * list Event :=
  if kSunPath <=? size_of path then (-1, [])
  else
    let listener := socket_result t in
    if listener <? 0 then (-1, [])
    else
      let '(ok, calls) := prepare path t in
      if ok : bool then (listener, Opened listener :: Unlinked path :: calls)
      else (-1, Opened listener :: Unlinked path :: calls ++ [Closed listener; Unlinked path]).

(** ** Connecting *)

Inductive ConnectResult := ConnectDone | ConnectInProgress | ConnectFailed.

Record ConnectTurn := mkConnectTurn {
  connect_socket : Z;
  connect_result : ConnectResult;
  poll_ready : bool;
  poll_error : bool;
  option_read : bool;
  socket_error : Z
}.

(* src/src/bridge/carplay_ipc.cpp:104-138 connect_unix *)
Definition connect_unix (path : Bytes) (t : ConnectTurn) : Z * list Event :=
  if kSunPath <=? size_of path then (-1, [])
  else
    let fd := connect_socket t in
    if fd <? 0 then (-1, [])
    else
      let failed := (-1, [Opened fd; Used fd; Closed fd]) in
      match connect_result t with
      | ConnectFailed => failed
      | ConnectDone => (fd, [Opened fd; Used fd])
      | ConnectInProgress =>
          if negb (poll_ready t) || poll_error t then failed
          else if negb (option_read t) || negb (socket_error t =? 0) then failed
          else (fd, [Opened fd; Used fd])
      end.

(** The socket of the Bluetooth worker blocks, so a connection that is in progress is
    no result. *)
(* src/src/iap2_bt_main.cpp:76-91 connect_unix *)
Definition connect_unix_blocking (path : Bytes) (fd : Z) (connected : bool) : Z * list Event :=
  if kSunPath <=? size_of path then (-1, [])
  else if fd <? 0 then (-1, [])
  else if negb connected then (-1, [Opened fd; Used fd; Closed fd])
  else (fd, [Opened fd; Used fd]).

(** [addresses]: for each the socket and whether it connects; [None] when the name is
    not resolved. *)
(* src/src/airplay/session.cpp:184-197 connect_udp (addresses) *)
Fixpoint connect_addresses (addresses : list (Z * bool)) : Z * list Event :=
  match addresses with
  | [] => (-1, [])
  | (fd, connected) :: addresses =>
      if (0 <=? fd) && connected then (fd, [Opened fd; Used fd])
      else
        let '(result, calls) := connect_addresses addresses in
        (result, (if 0 <=? fd then [Opened fd; Used fd; Closed fd] else []) ++ calls)
  end.

(* src/src/airplay/session.cpp:178-198 connect_udp *)
Definition connect_udp (resolved : option (list (Z * bool))) : Z * list Event :=
  match resolved with
  | None => (-1, [])
  | Some addresses => connect_addresses addresses
  end.

(** A socket that is open already: the first address that connects. *)
(* src/src/airplay/session.cpp:166-173 connect_udp_peer (addresses) *)
Fixpoint connect_peer_addresses (fd : Z) (addresses : list bool) : bool * list Event :=
  match addresses with
  | [] => (false, [])
  | true :: _ => (true, [Used fd])
  | false :: addresses => let '(connected, calls) := connect_peer_addresses fd addresses in (connected, Used fd :: calls)
  end.

(* src/src/airplay/session.cpp:157-176 connect_udp_peer *)
Definition connect_udp_peer (fd : Z) (resolved : option (list bool)) : bool * list Event :=
  match resolved with
  | None => (false, [])
  | Some addresses => connect_peer_addresses fd addresses
  end.

(** The socket and its port. *)
(* src/src/airplay/session.cpp:422-442 bind_udp_socket *)
Definition bind_udp_socket (fd : Z) (bound : bool) (name : option Z) : Z * option Z * list Event :=
  if fd <? 0 then (-1, None, [])
  else if negb bound then (-1, None, [Opened fd; Used fd; Closed fd])
  else
    match name with
    | None => (-1, None, [Opened fd; Used fd; Used fd; Closed fd])
    | Some port => (fd, Some port, [Opened fd; Used fd; Used fd])
    end.

(** The file of the H.264 capture. *)
(* src/src/bridge/media_forwarders.cpp:197-221 VideoSocketForwarder *)
Definition open_capture (path_given : bool) (fd : Z) (safe chmod_done truncated : bool) : Z * list Event :=
  if negb path_given then (-1, [])
  else if fd <? 0 then (-1, [])
  else if negb safe then (-1, [Opened fd; Used fd; Closed fd])
  else if negb chmod_done then (-1, [Opened fd; Used fd; Used fd; Closed fd])
  else if negb truncated then (-1, [Opened fd; Used fd; Used fd; Used fd; Closed fd])
  else (fd, [Opened fd; Used fd; Used fd; Used fd]).

(** ** The client of a listener *)

(** Where the thread of a listener is: waiting for a client, before the frames of a
    new one, between two of them, behind the last, or at its end. *)
Inductive Phase := Waiting | Greeting (fd : Z) | Serving (fd : Z) | Leaving (fd : Z) | Ended.

(** [client]: the member that the other threads see; [live]: what the kernel has
    given to the process and not got back. *)
(* src/include/aa2acp/bridge/media_forwarders.hpp:72-77 MediaSocketForwarder (descriptors) *)
Record Loop := mkLoop {
  listener : Z;
  path : Bytes;
  client : Z;
  phase : Phase;
  stop : bool;
  destroyed : bool;
  live : gset Z
}.

(** A listener whose thread has just been started. *)
(* src/src/bridge/media_forwarders.cpp:44-48 MediaSocketForwarder::start_worker *)
Definition new_loop (fd : Z) (path : Bytes) : Loop := mkLoop fd path (-1) Waiting false false {[fd]}.

Definition set_client (fd : Z) (p : Phase) (open : gset Z) (s : Loop) : Loop :=
  mkLoop (listener s) (path s) fd p (stop s) (destroyed s) open.

(** The end of a client, under the lock. *)
(* src/src/bridge/media_forwarders.cpp:175-179 MediaSocketForwarder::forward (end of a client) *)
Definition release (fd : Z) (s : Loop) : Loop * list Event :=
  if client s =? fd then (set_client (-1) Waiting (live s ∖ {[fd]}) s, [Closed fd])
  else (set_client (-1) Waiting (live s) s, []).

(* src/src/bridge/media_forwarders.cpp:137-148 MediaSocketForwarder::forward (accept) *)
Definition accept_media (fd : Z) (s : Loop) : Loop * list Event :=
  if stop s then (set_client (-1) Waiting (live s) s, [Opened fd; Closed fd])
  else (set_client fd (Greeting fd) ({[fd]} ∪ live s) s, [Opened fd]).

(* src/src/bridge/carplay_ipc.cpp:192-204 FrameSocketReceiver::receive (accept) *)
Definition accept_frames (fd : Z) (s : Loop) : Loop * list Event :=
  (set_client fd (Serving fd) ({[fd]} ∪ live s) s,
   Opened fd :: (if 0 <=? client s then [ShutDown (client s)] else [])).

(* src/src/bridge/carplay_ipc.cpp:223-228 FrameSocketReceiver::receive (end of a client) *)
Definition release_frames (fd : Z) (s : Loop) : Loop * list Event :=
  if client s =? fd then (set_client (-1) Waiting (live s ∖ {[fd]}) s, [Closed fd])
  else (set_client (client s) Waiting (live s) s, []).

(* src/src/bridge/media_forwarders.cpp:190-195 MediaSocketForwarder::shutdown_client *)
Definition shutdown_client (s : Loop) : list Event := if 0 <=? client s then [ShutDown (client s)] else [].

(** A receiver of frames shuts its listener down too, so that its thread wakes up. *)
(* src/src/bridge/carplay_ipc.cpp:168-170 FrameSocketReceiver (destructor, shutting down) *)
Definition shut_down_frames (s : Loop) : list Event := shutdown_client s ++ [ShutDown (listener s)].

(** When the thread was joined. *)
(* src/src/bridge/media_forwarders.cpp:54-59 MediaSocketForwarder (destructor) *)
Definition destroy (s : Loop) : Loop * list Event :=
  (mkLoop (listener s) (path s) (client s) (phase s) (stop s) true (live s ∖ {[listener s]}),
   close_listener (listener s) ++ match path s with [] => [] | _ => [Unlinked (path s)] end).

Inductive LoopEvent :=
| Accepts (fd : Z)
| Greets (ok : bool)
| Serves (ok : bool)
| Leaves
| ThreadEnds
| RequestStop
| ShutsDown
| Joined.

(** [media]: a forwarder, else a receiver of frames. A step that cannot happen
    changes nothing; the kernel gives out no descriptor that is open. *)
Definition step (media : bool) (s : Loop) (e : LoopEvent) : Loop * list Event :=
  let end_client fd := if media then release fd s else release_frames fd s in
  match e, phase s with
  | Accepts fd, Waiting =>
      if (fd <? 0) || bool_decide (fd ∈ live s) then (s, [])
      else
        let '(s', calls) := if media then accept_media fd s else accept_frames fd s in
        (s', Used (listener s) :: calls)
  | Greets ok, Greeting fd =>
      if ok then (set_client (client s) (Serving fd) (live s) s, [Used fd])
      else let '(s', calls) := end_client fd in (s', Used fd :: calls)
  | Serves ok, Serving fd =>
      if ok then (s, [Used fd]) else (set_client (client s) (Leaving fd) (live s) s, [Used fd])
  | Leaves, Serving fd => if stop s then end_client fd else (s, [])
  | Leaves, Leaving fd => end_client fd
  | ThreadEnds, Waiting => if stop s then (set_client (client s) Ended (live s) s, []) else (s, [])
  | RequestStop, _ => (mkLoop (listener s) (path s) (client s) (phase s) true (destroyed s) (live s), [])
  | ShutsDown, _ => if negb (stop s) || destroyed s then (s, []) else (s, if media then shutdown_client s else shut_down_frames s)
  | Joined, Ended => if destroyed s then (s, []) else destroy s
  | _, _ => (s, [])
  end.

Fixpoint run (media : bool) (s : Loop) (events : list LoopEvent) : Loop * list Event :=
  match events with
  | [] => (s, [])
  | e :: events =>
      let '(s, calls) := step media s e in
      let '(s, more) := run media s events in
      (s, calls ++ more)
  end.

(** ** Sending with a deadline *)

Inductive PollResult := PollError (interrupted : bool) | NothingReady | Ready (error_flags : bool).
Inductive SendResult := SendCount (n : nat) | SendAgain | SendError.

(** A turn of the loop: the milliseconds since its deadline was set, and what [poll]
    and [send] return. *)
Record SendTurn := mkSendTurn { elapsed : Z; polled : PollResult; sent_result : SendResult }.

(* src/src/bridge/media_forwarders.cpp:84-84 MediaSocketForwarder::send_all (deadline) *)
Definition kWriteDeadline : Z := 2000.

(* src/src/bridge/media_forwarders.cpp:87-94 MediaSocketForwarder::send_all (timeout) *)
Definition poll_timeout (remaining : Z) : Z := Z.min 100 (Z.max 1 remaining).

(** Whether everything was sent, what was, and the timeouts that [poll] got, each with
    its time; without a turn left the loop is still running. *)
(* src/src/bridge/media_forwarders.cpp:82-117 MediaSocketForwarder::send_all *)
Fixpoint send_with_deadline (turns : list SendTurn) (bytes : Bytes) : option bool * Bytes * list (Z * Z) :=
  match bytes, turns with
  | [], _ => (Some true, [], [])
  | _, [] => (None, [], [])
  | _, t :: turns =>
      let remaining := kWriteDeadline - elapsed t in
      if remaining <=? 0 then (Some false, [], [])
      else
        let poll := (elapsed t, poll_timeout remaining) in
        let again := let '(ok, sent, polls) := send_with_deadline turns bytes in (ok, sent, poll :: polls) in
        match polled t with
        | PollError true | NothingReady => again
        | PollError false | Ready true => (Some false, [], [poll])
        | Ready false =>
            match sent_result t with
            | SendCount n =>
                match Nat.min n (length bytes) with
                | O => (Some false, [], [poll])
                | S k =>
                    let '(ok, sent, polls) := send_with_deadline turns (drop (S k) bytes) in
                    (ok, take (S k) bytes ++ sent, poll :: polls)
                end
            | SendAgain => again
            | SendError => (Some false, [], [poll])
            end
        end
  end.

(** The Bluetooth worker's sockets block. *)
(* src/src/iap2_bt_main.cpp:63-74 send_all *)
Fixpoint send_blocking (results : list (option nat)) (bytes : Bytes) : bool * Bytes :=
  match bytes, results with
  | [], _ => (true, [])
  | _, [] | _, None :: _ => (false, [])
  | _, Some n :: results =>
      match Nat.min n (length bytes) with
      | O => (false, [])
      | S k => let '(ok, sent) := send_blocking results (drop (S k) bytes) in (ok, take (S k) bytes ++ sent)
      end
  end.

(** ** Theorems: opening *)

(** Behind the calls exactly the descriptor that is returned is open. *)
Definition returns_what_is_open (r : Z * list Event) : Prop :=
  disciplined ∅ r.2 = Some (if 0 <=? r.1 then {[r.1]} else ∅).

Lemma disciplined_app live calls1 calls2 :
  disciplined live (calls1 ++ calls2) = live' ← disciplined live calls1; disciplined live' calls2.
Proof.
  revert live. induction calls1 as [|e calls1 IH]; intros live; [done|]. cbn. destruct e; try done; by case_decide.
Qed.

(** Deciding the membership of descriptors in sets that are written out. *)
Ltac check_calls :=
  cbn [disciplined app]; repeat first [rewrite decide_True by set_solver | rewrite decide_False by set_solver].

Lemma open_close fd live : fd ∉ live -> disciplined live [Opened fd; Used fd; Closed fd] = Some live.
Proof. intros H. check_calls. f_equal. set_solver. Qed.

Lemma connect_addresses_ok addresses : returns_what_is_open (connect_addresses addresses).
Proof.
  unfold returns_what_is_open. induction addresses as [|[fd connected] addresses IH]; [done|]. cbn [connect_addresses].
  destruct (0 <=? fd) eqn:E; cbn [andb].
  - destruct connected; cbn [fst snd].
    + rewrite E. check_calls. f_equal. set_solver.
    + destruct (connect_addresses addresses) as [r calls]. cbn [fst snd] in *.
      by rewrite disciplined_app, open_close by set_solver.
  - by destruct (connect_addresses addresses) as [r calls].
Qed.

(** Opening leaks no descriptor. Whatever the system calls return, after each way
    in which the program opens a socket or the capture file, the descriptors that
    are open are exactly the one that is returned, or none when -1 is; none is used
    before it is opened or after it is closed, and none is closed twice. *)
Theorem opening_leaks_nothing :
  (forall path t, returns_what_is_open (media_listen path t) /\ returns_what_is_open (frame_listen path t)) /\
  (forall path t, returns_what_is_open (connect_unix path t)) /\
  (forall path fd connected, returns_what_is_open (connect_unix_blocking path fd connected)) /\
  (forall resolved, returns_what_is_open (connect_udp resolved)) /\
  (forall fd bound name, let '(r, port, calls) := bind_udp_socket fd bound name in returns_what_is_open (r, calls)) /\
  (forall given fd safe mode empty, returns_what_is_open (open_capture given fd safe mode empty)).
Proof.
  unfold returns_what_is_open. split_and!.
  - intros path [fd b c l]. split; unfold media_listen, frame_listen, opened, close_listener, prepare; cbn.
    + destruct (0 <=? fd) eqn:E; [replace (fd <? 0) with false by lia|replace (fd <? 0) with true by lia; done]. cbn.
      by destruct (kSunPath <=? size_of path), b, c, l; cbn; rewrite ?E; check_calls; f_equal; set_solver.
    + destruct (kSunPath <=? size_of path); [done|].
      destruct (0 <=? fd) eqn:E; [replace (fd <? 0) with false by lia|replace (fd <? 0) with true by lia; done]. cbn.
      by destruct b, c, l; cbn; rewrite ?E; check_calls; f_equal; set_solver.
  - intros path [fd [] r f o e]; unfold connect_unix; cbn; (destruct (kSunPath <=? size_of path); [done|]);
      (destruct (Z.ltb_spec fd 0) as [H|H]; [done|]); (assert (E : (0 <=? fd) = true) by lia);
      destruct r, f, o, (e =? 0); cbn; rewrite ?E; check_calls; f_equal; set_solver.
  - intros path fd connected. unfold connect_unix_blocking. destruct (kSunPath <=? size_of path); [done|].
    destruct (Z.ltb_spec fd 0) as [H|H]; [done|]. assert (E : (0 <=? fd) = true) by lia.
    destruct connected; cbn; rewrite ?E; check_calls; f_equal; set_solver.
  - intros [addresses|]; [apply connect_addresses_ok|done].
  - intros fd bound name. unfold bind_udp_socket. destruct (Z.ltb_spec fd 0) as [H|H]; [done|]. assert (E : (0 <=? fd) = true) by lia.
    destruct bound, name; cbn; rewrite ?E; check_calls; f_equal; set_solver.
  - intros given fd safe mode empty. unfold open_capture. destruct given; [|done]. cbn.
    destruct (Z.ltb_spec fd 0) as [H|H]; [done|]. assert (E : (0 <=? fd) = true) by lia.
    destruct safe, mode, empty; cbn; rewrite ?E; check_calls; f_equal; set_solver.
Qed.

(** The path as the calls leave it: a socket that is there, with its permissions. *)
Fixpoint at_path (node : option Z) (calls : list Event) : option Z :=
  match calls with
  | [] => node
  | Unlinked _ :: calls => at_path None calls
  | Bound _ _ :: calls => at_path (Some 511) calls
  | ModeSet _ mode :: calls => at_path (option_map (fun _ => mode) node) calls
  | _ :: calls => at_path node calls
  end.

(** What a listener is at the path: nobody can connect before [Listening]. *)
Definition private (path : Bytes) (node : option Z) (r : Z * list Event) : Prop :=
  if 0 <=? r.1 then exists before, r.2 = before ++ [Listening r.1] /\ at_path node before = Some S_IRUSR_S_IWUSR
  else (forall fd, Listening fd ∉ r.2) /\ (at_path node r.2 = None \/ at_path node r.2 = node).

(** A listener is its owner's alone. Both kinds of listener accept connections only
    after the permissions of their path were set to the owner's, 0600; and when any
    call fails, nothing listens, and at the path is no socket or what was there. *)
Theorem listener_is_private path t node : private path node (media_listen path t) /\ private path node (frame_listen path t).
Proof.
  destruct t as [fd b c l]. unfold private, media_listen, frame_listen, opened, close_listener, prepare. cbn.
  destruct (Z.ltb_spec fd 0) as [H|H].
  - replace (0 <=? fd) with false by lia. cbn. split; [|destruct (kSunPath <=? size_of path); cbn].
    all: split; [intros; apply not_elem_of_nil|by right].
  - assert (E : (0 <=? fd) = true) by lia. rewrite E. cbn.
    destruct (kSunPath <=? size_of path); [split; (split; [intros x; set_solver|by right])|].
    destruct b, c, l; cbn; rewrite ?E.
    all: try (split; (split; [intros x; set_solver|by left])).
    split; by eexists [Opened fd; Unlinked path; Bound fd path; ModeSet path S_IRUSR_S_IWUSR].
Qed.

(** ** Theorems: the client of a listener *)

Definition loop_ok (s : Loop) : Prop :=
  0 <= listener s /\
  (if destroyed s then phase s = Ended /\ live s = ∅
   else match phase s with
        | Waiting | Ended => client s = -1 /\ live s = {[listener s]}
        | Greeting fd | Serving fd | Leaving fd => client s = fd /\ 0 <= fd /\ fd <> listener s /\ live s = {[fd; listener s]}
        end).

(** The states with no client, and with one. *)
Lemma loop_no_client l path st d (lv : gset Z) (p : Phase) :
  0 <= l -> d = false -> (p = Waiting \/ p = Ended) -> lv = {[l]} -> loop_ok (mkLoop l path (-1) p st d lv).
Proof. intros Hl -> [-> | ->] ->; by split. Qed.

Lemma loop_client l path fd st (lv : gset Z) p :
  0 <= l -> 0 <= fd -> fd <> l -> (p = Greeting fd \/ p = Serving fd \/ p = Leaving fd) -> lv = {[fd; l]} ->
  loop_ok (mkLoop l path fd p st false lv).
Proof. intros Hl Hf Hn [-> |[-> | ->]] ->; by split_and!. Qed.

Ltac loop_state :=
  solve [ apply loop_no_client; [done|done|(by left) || (by right)|set_solver]
        | apply loop_client; [done|done|done|(by left) || (by right; left) || (by right; right)|set_solver] ].

Lemma loop_step media s e : loop_ok s ->
  let '(s', calls) := step media s e in loop_ok s' /\ disciplined (live s) calls = Some (live s').
Proof.
  destruct s as [l path c p st d lv]. intros [Hl Hs]. cbn in Hl, Hs. destruct d.
  { destruct Hs as [-> ->]. destruct e; cbn; rewrite ?orb_true_r; by split. }
  unfold step, release, release_frames, accept_media, accept_frames, shut_down_frames, shutdown_client, destroy, close_listener.
  destruct p as [|fd|fd|fd|].
  2-4: destruct Hs as (-> & Hf & Hn & ->); assert (E : (0 <=? fd) = true) by lia;
    destruct e as [fd'|[]|[]| | | | |]; cbn; rewrite ?Z.eqb_refl, ?E; destruct st, media; cbn; rewrite ?Z.eqb_refl, ?E;
    (split; [loop_state|check_calls; f_equal; set_solver]).
  - destruct Hs as [-> ->]. destruct e as [fd|ok|ok| | | | |]; cbn; try (split; [loop_state|done]).
    + destruct (fd <? 0) eqn:Ef; cbn; [split; [loop_state|done]|]. case_bool_decide as Hin; cbn; [split; [loop_state|done]|].
      assert (fd <> l) by set_solver. apply Z.ltb_ge in Ef. destruct media, st; cbn; (split; [loop_state|check_calls; f_equal; set_solver]).
    + destruct st; (split; [loop_state|done]).
    + destruct st, media; cbn; (split; [loop_state|check_calls; f_equal; set_solver]).
  - destruct Hs as [-> ->]. destruct e as [fd|ok|ok| | | | |]; cbn; try (split; [loop_state|done]).
    + destruct st, media; cbn; (split; [loop_state|check_calls; f_equal; set_solver]).
    + assert (E : (0 <=? l) = true) by lia. rewrite E. split; [split; [done|split; [done|set_solver]]|].
      destruct path; check_calls; f_equal; set_solver.
Qed.

(** C13. No descriptor is touched after it was closed. Whatever clients come, fail and go,
    and wherever a listener's destruction begins, shuts the client down and waits
    for the thread: every call names a descriptor that is open, so that the shutdown
    never hits one that was given to somebody else; none is closed twice; and when
    the destruction is over, all of them are closed. *)
Theorem listener_closes_everything media fd path events :
  0 <= fd ->
  let '(s, calls) := run media (new_loop fd path) events in
  disciplined ∅ (Opened fd :: calls) = Some (live s) /\ (destroyed s = true -> live s = ∅).
Proof.
  intros Hfd. assert (H : forall s, loop_ok s ->
    let '(s', calls) := run media s events in loop_ok s' /\ disciplined (live s) calls = Some (live s')).
  { induction events as [|e events IH]; intros s Hs; cbn; [done|].
    pose proof (loop_step media s e Hs) as H. destruct (step media s e) as [s1 calls]. destruct H as [H1 Hc].
    specialize (IH s1 H1). destruct (run media s1 events) as [s2 more]. destruct IH as [H2 Hm]. split; [done|].
    by rewrite disciplined_app, Hc. }
  assert (Hn : loop_ok (new_loop fd path)) by (apply loop_no_client; [done|done|by left|done]).
  specialize (H _ Hn). destruct (run media (new_loop fd path) events) as [s calls]. destruct H as [[Hl Hs] Hc]. split.
  - cbn [disciplined]. rewrite decide_False by set_solver. rewrite (right_id_L ∅ (∪)). exact Hc.
  - intros Hd. rewrite Hd in Hs. by destruct Hs.
Qed.

(** A client is served and lost, and another is being served when the listener is
    destroyed. *)
Definition two_clients : list LoopEvent :=
  [Accepts 5; Greets true; Serves true; Serves false; Leaves; Accepts 5; Greets true; RequestStop; ShutsDown; Leaves;
   ThreadEnds; Joined].

Lemma listener_closes_everything_witness :
  disciplined ∅ (Opened 4 :: (run true (new_loop 4 [47]) two_clients).2) = Some (live (run true (new_loop 4 [47]) two_clients).1).
Proof.
  pose proof (listener_closes_everything true 4 [47] two_clients ltac:(lia)) as H.
  destruct (run true (new_loop 4 [47]) two_clients) as [s calls]. exact (proj1 H).
Defined.

(** ** Theorems: sending *)

(** A turn as the frame sockets see it. *)
Definition turn_of (t : SendTurn) : Turn :=
  if kWriteDeadline - elapsed t <=? 0 then DeadlinePassed
  else match polled t with
       | PollError true => PollInterrupted
       | PollError false => PollFailed
       | NothingReady => PollTimeout
       | Ready true => Unusable
       | Ready false => match sent_result t with
                        | SendCount n => Transfer n
                        | SendAgain => TryAgain
                        | SendError => TransferFailed
                        end
       end.

(** C14. A client cannot hold the forwarder up. In whatever way a client reads, every wait
    of a sending is between 1 and 100 ms and ends within the 2 s that it may take;
    what was sent is the beginning of the frame, and all of it exactly when the
    sending succeeds; and the loop is the one of the frame sockets. *)
Theorem sending_is_bounded turns bytes :
  let '(ok, sent, polls) := send_with_deadline turns bytes in
  Forall (fun '(at_, timeout) => 1 <= timeout <= 100 /\ at_ + timeout <= kWriteDeadline) polls /\
  (exists rest, bytes = sent ++ rest /\ (ok = Some true <-> rest = [])) /\
  (send_all (map turn_of turns) bytes).1 = (bool_decide (ok = Some true), sent).
Proof.
  revert bytes. induction turns as [|t turns IH]; intros [|b bytes]; cbn [send_with_deadline send_all map].
  - split_and!; [done|by exists []|done].
  - split_and!; [done|exists (b :: bytes); by split|done].
  - split_and!; [done|by exists []|done].
  - unfold turn_of at 1. destruct (kWriteDeadline - elapsed t <=? 0) eqn:E.
    { split_and!; [done|exists (b :: bytes); by split|done]. }
    assert (Hp : 1 <= poll_timeout (kWriteDeadline - elapsed t) <= 100 /\ elapsed t + poll_timeout (kWriteDeadline - elapsed t) <= kWriteDeadline)
      by (unfold poll_timeout; lia).
    assert (Hnone : exists rest, b :: bytes = [] ++ rest /\ (Some false = Some true <-> rest = [])) by (by exists (b :: bytes)).
    pose proof (IH (b :: bytes)) as Hagain.
    destruct (send_with_deadline turns (b :: bytes)) as [[ok sent] polls]. destruct Hagain as (H1 & H2 & H3).
    destruct (polled t) as [[]| |[]]; [by split_and!; [constructor|..]|by split_and!; [repeat constructor; lia|..]|
      by split_and!; [constructor|..]|by split_and!; [repeat constructor; lia|..]|].
    destruct (sent_result t) as [n| |]; [|by split_and!; [constructor|..]|by split_and!; [repeat constructor; lia|..]].
    destruct (Nat.min n (length (b :: bytes))) as [|k]; [by split_and!; [repeat constructor; lia|..]|].
    specialize (IH (drop (S k) (b :: bytes))). destruct (send_with_deadline turns (drop (S k) (b :: bytes))) as [[ok' sent'] polls'].
    destruct IH as (I1 & (rest & I2 & I3) & I4). destruct (send_all (map turn_of turns) (drop (S k) (b :: bytes))) as [[ok2 sent2] turns2].
    cbn [fst] in *. injection I4 as -> ->. split_and!; [by constructor| |done].
    exists rest. split; [|done]. by rewrite <- (assoc_L (++)), <- I2, take_drop.
Qed.
