(* ===== verification/VideoFile.v ===== *)
(** * Files of H.264 video, and what the session logs

    [src/src/airplay/session.cpp]: cutting a file into NAL units with the two loops over
    its octets, which is shown to be the cutting of the forwarders, and the summaries
    of property lists in the log. *)

From S2P Require Import Prelude Text Bplist HeadUnitCapabilities MediaForwarders.
From S2P Require SessionVideo.
#[local] Open Scope Z_scope.

(** ** NAL units *)

Section Input.
Context (input : Bytes).

(** [00 00 00 01] at the offset. *)
Definition long_code (offset : nat) : bool :=
  Nat.leb (offset + 4) (length input) && (byte_at input offset =? 0) && (byte_at input (offset + 1) =? 0)
  && (byte_at input (offset + 2) =? 0) && (byte_at input (offset + 3) =? 1).

(** [00 00 01] at an offset with three octets behind it. *)
Definition short_code (offset : nat) : bool :=
  (byte_at input offset =? 0) && (byte_at input (offset + 1) =? 0) && (byte_at input (offset + 2) =? 1).

(* src/src/airplay/session.cpp:717-725 h264_nalus (start code) *)
Definition code_at (offset : nat) : nat :=
  if long_code offset then 4 else if short_code offset then 3 else 0.

(* src/src/airplay/session.cpp:731-740 h264_nalus (end) *)
Fixpoint unit_end (fuel : nat) (stop : nat) : nat :=
  match fuel with
  | O => length input
  | S fuel =>
      if Nat.leb (stop + 3) (length input) then
        if long_code stop || short_code stop then stop else unit_end fuel (S stop)
      else length input
  end.

(* src/src/airplay/session.cpp:716-745 h264_nalus (loop) *)
Fixpoint units_from (fuel : nat) (offset : nat) : list Bytes :=
  match fuel with
  | O => []
  | S fuel =>
      if Nat.leb (offset + 3) (length input) then
        match code_at offset with
        | O => units_from fuel (S offset)
        | code =>
            let start := (offset + code)%nat in
            let stop := unit_end (length input) start in
            let rest := units_from fuel stop in
            if Nat.ltb start stop then take (stop - start) (drop start input) :: rest else rest
        end
      else []
  end.
End Input.

(** [None]: the file cannot be read. *)
(* src/src/airplay/session.cpp:709-747 h264_nalus *)
Definition h264_nalus (file : option Bytes) : list Bytes :=
  match file with
  | None => []
  | Some input => units_from input (length input) 0
  end.

(** ** Summaries *)

Definition number_in_brackets (name : string) (n : Z) : Bytes := bs name ++ bs "(" ++ dec n ++ bs ")".

(* src/src/airplay/session.cpp:675-697 plist_dictionary_summary *)
Fixpoint plist_dictionary_summary (d : Dictionary) : Bytes :=
  match d with
  | [] => []
  | (key, value) :: d =>
      bs " " ++ key ++ bs "="
      ++ match value with
         | PInt n => dec n
         | PString text => number_in_brackets "string" (size_of text)
         | PArray items => number_in_brackets "array" (Z.of_nat (length items))
         | PData bytes => number_in_brackets "bytes" (size_of bytes)
         | PDict _ => bs "dictionary"
         | PBool _ | PReal _ => bs "scalar"
         end
      ++ plist_dictionary_summary d
  end.

(* src/src/airplay/session.cpp:487-502 log_event_plist (entries) *)
Fixpoint event_summary (d : Dictionary) : Bytes :=
  match d with
  | [] => []
  | (key, value) :: d =>
      bs " " ++ key
      ++ match value with
         | PString text => number_in_brackets "=string" (size_of text)
         | PData bytes => number_in_brackets "=bytes" (size_of bytes)
         | PArray items => number_in_brackets "=array" (Z.of_nat (length items))
         | PDict _ => bs "=dictionary"
         | PInt _ | PBool _ | PReal _ => bs "=scalar"
         end
      ++ event_summary d
  end.

(* src/src/airplay/session.cpp:476-504 log_event_plist *)
Definition log_event_plist (body : Bytes) : option Bytes :=
  match decode_bplist body with
  | Some (PDict d) => Some (bs "AirPlay: event plist keys:" ++ event_summary d)
  | _ => None
  end.

(** ** Theorems: three ways to cut *)

(** The loops of a file are those of an access unit, written differently. *)
Lemma live_code input offset : SessionVideo.code_at input offset = code_at input offset.
Proof. unfold SessionVideo.code_at, code_at, long_code, short_code. done. Qed.

Lemma live_end input fuel : forall stop, (length input <= fuel + stop)%nat ->
  let stop' := SessionVideo.scan_end fuel input stop in
  (if Nat.ltb (length input) (stop' + 3) then length input else stop') = unit_end input fuel stop.
Proof.
  induction fuel as [|fuel IH]; intros stop H; cbn -[Nat.ltb Nat.leb]; [by rewrite (proj2 (Nat.ltb_lt _ _)) by lia|].
  destruct (Nat.leb_spec (stop + 3) (length input)) as [L|L]; [|by rewrite (proj2 (Nat.ltb_lt _ _)) by lia].
  rewrite live_code. unfold code_at. specialize (IH (S stop) ltac:(lia)). rewrite Nat.add_1_r.
  destruct (long_code input stop); cbn [orb]; [by rewrite (proj2 (Nat.ltb_ge _ _)) by lia|].
  destruct (short_code input stop); [by rewrite (proj2 (Nat.ltb_ge _ _)) by lia|exact IH].
Qed.

Lemma nalu_end_range input start :
  (start <= SessionVideo.nalu_end input start)%nat \/ (length input <= SessionVideo.nalu_end input start)%nat.
Proof.
  assert (H : forall fuel stop, (stop <= SessionVideo.scan_end fuel input stop)%nat).
  { induction fuel as [|fuel IH]; intros stop; cbn [SessionVideo.scan_end]; [lia|].
    repeat case_match; [|lia..]. specialize (IH (stop + 1)%nat). lia. }
  unfold SessionVideo.nalu_end. cbv zeta. case_match; [by right|left; apply H].
Qed.

Lemma live_units input fuel : forall fuel' offset,
  (length input - offset < fuel)%nat -> (length input - offset <= fuel')%nat ->
  SessionVideo.h264_nalus_from fuel input offset = units_from input fuel' offset.
Proof.
  induction fuel as [|fuel IH]; intros fuel' offset Hf Hf'; [lia|]. cbn [SessionVideo.h264_nalus_from].
  destruct (Nat.leb_spec (offset + 3) (length input)) as [L|L].
  2: { destruct fuel'; [done|]. cbn [units_from]. by rewrite (proj2 (Nat.leb_gt _ _)) by lia. }
  destruct fuel' as [|fuel']; [lia|]. cbn [units_from]. rewrite (proj2 (Nat.leb_le _ _)) by lia.
  rewrite live_code. destruct (code_at input offset) as [|code]; [rewrite Nat.add_1_r; apply IH; lia|].
  pose proof (live_end input (length input) (offset + S code) ltac:(lia)) as E. cbv zeta in E.
  assert (B : (offset + S code <= SessionVideo.nalu_end input (offset + S code))%nat \/
              (length input <= SessionVideo.nalu_end input (offset + S code))%nat) by apply nalu_end_range.
  unfold SessionVideo.nalu_end in *. cbv zeta in *. rewrite E in *.
  by rewrite (IH fuel') by lia.
Qed.

(** C15. The three readers of H.264 agree. For every input, the cutting of a file and that
    of an access unit in the session, which work with offsets and loops of their own,
    give the NAL units that the forwarder of the daemon gets from the same octets: a
    picture is the same units wherever it is looked at. *)
Theorem readers_agree input :
  h264_nalus (Some input) = nalus input /\ SessionVideo.h264_nalus input = nalus input.
Proof.
  assert (E : SessionVideo.h264_nalus input = nalus input) by (apply (SessionVideo.h264_nalus_from_eq _ _ input 0); lia).
  split; [|exact E]. rewrite <- E. symmetry. apply live_units; lia.
Qed.
