(* ===== verification/AndroidAuto.v ===== *)
(** * The Android Auto session

    [src/src/aa/wired_receiver.cpp], the handlers of one session: the audio sinks,
    the input and sensor channels, the microphone with its bounded queue, and the
    control channel with the video sink and the thread that answers service
    discovery.  The aasdk library is not part of the repository: its channels,
    messenger and cryptor are the events a handler gets and the actions it takes.
    A message is the fields that the code sets in it. *)

From S2P Require Import Prelude Text IngressQueue ReceiverTypes.
#[local] Open Scope Z_scope.

(** ** Events and actions *)

Inductive Channel := ControlChannel | VideoChannel | AudioChannel (stream : AudioStream)
| InputChannel | SensorChannel | MicrophoneChannel.

#[export] Instance channel_eq_dec : EqDecision Channel.
Proof. solve_decision. Defined.

(** A service of the discovery response. *)
Inductive Service :=
| VideoService (width height fps density : Z)
| AudioService (stream : AudioStream) (rate bits channels : Z)
| MicrophoneService (rate bits channels : Z)
| DrivingStatusSensor
| KeyInput (keycodes : list Z).

Definition channel_of (s : Service) : Channel :=
  match s with
  | VideoService _ _ _ _ => VideoChannel
  | AudioService stream _ _ _ => AudioChannel stream
  | MicrophoneService _ _ _ => MicrophoneChannel
  | DrivingStatusSensor => SensorChannel
  | KeyInput _ => InputChannel
  end.

Inductive Message :=
| VersionRequest
| HandshakeData
| AuthComplete
| ServiceDiscoveryResponse (services : list Service)
| AudioFocusResponse (gain unsolicited : bool)
| ChannelOpenResponse
| ChannelSetupResponse (max_unacked : Z) (indices : list Z)
| VideoFocus (unsolicited : bool)
| MediaAck (session_id ack : Z)
| KeyBindingResponse
| InputReport (report : Bytes)
| SensorStartResponse
| MicrophoneOpenResponse (session_id : Z)
| MicrophoneData (timestamp : Z) (data : Bytes).

Inductive Action :=
| Receive (c : Channel)
| Send (c : Channel) (m : Message)
| Emit (type : ReceiverEvent) (detail : Bytes)
| VideoFrame (data : Bytes)
| AudioFrame (stream : AudioStream) (data : Bytes)
| SessionEnded
| SessionStopped.

(** An error of the library. *)
Record Error := mkError {
  usb_transfer : bool;
  native_code : Z;
  what : Bytes
}.

(** What the channel of an audio stream may bring; [SendFailed] is the rejection of
    a promise of one of the sends. *)
Inductive AudioEvent :=
| AudioOpen
| AudioSetup (pcm : bool)
| AudioStart (session_id : Z)
| AudioStop
| AudioMedia (data : Bytes)
| AudioError (e : Error)
| AudioSendFailed (e : Error).

(** ** Audio sinks *)

(* src/src/aa/wired_receiver.cpp:142-145 AudioSinkSession::fail *)
Definition audio_fail (detail : Bytes) : list Action := [Emit ReceiverError (bs "Android Auto audio channel: " ++ detail)].

(** The session number, [0] at first. *)
(* src/src/aa/wired_receiver.cpp:60-145 AudioSinkSession *)
Definition audio_step (stream : AudioStream) (session_id : Z) (e : AudioEvent) : Z * list Action :=
  let c := AudioChannel stream in
  match e with
  | AudioOpen => (session_id, [Send c ChannelOpenResponse; Receive c])
  | AudioSetup false => (session_id, audio_fail (bs "phone requested an unsupported Android Auto audio codec"))
  | AudioSetup true => (session_id, [Send c (ChannelSetupResponse 1 [0]); Receive c])
  | AudioStart id => (id, [Receive c])
  | AudioStop => (0, [Receive c])
  | AudioMedia data => (session_id, [AudioFrame stream data; Send c (MediaAck session_id 1); Receive c])
  | AudioError e | AudioSendFailed e => (session_id, audio_fail (what e))
  end.

(** ** Input and sensors *)

Inductive InputEvent :=
| InputOpen
| KeyBindingRequest
| InputReportPosted (report : Bytes)
| InputError (e : Error)
| InputSendFailed (e : Error).

(* src/src/aa/wired_receiver.cpp:166-212 InputSession *)
Definition input_step (e : InputEvent) : list Action :=
  match e with
  | InputOpen => [Send InputChannel ChannelOpenResponse; Receive InputChannel]
  | KeyBindingRequest => [Send InputChannel KeyBindingResponse; Receive InputChannel]
  | InputReportPosted report => [Send InputChannel (InputReport report)]
  | InputError e | InputSendFailed e => [Emit ReceiverError (bs "Android Auto input channel: " ++ what e)]
  end.

Inductive SensorEvent := SensorOpen | SensorStartRequest | SensorError (e : Error) | SensorSendFailed (e : Error).

(* src/src/aa/wired_receiver.cpp:229-266 SensorSession *)
Definition sensor_step (e : SensorEvent) : list Action :=
  match e with
  | SensorOpen => [Send SensorChannel ChannelOpenResponse; Receive SensorChannel]
  | SensorStartRequest => [Send SensorChannel SensorStartResponse; Receive SensorChannel]
  | SensorError e | SensorSendFailed e => [Emit ReceiverError (bs "Android Auto sensor channel: " ++ what e)]
  end.

(** ** The microphone *)

(* src/src/aa/wired_receiver.cpp:419-427 MicrophoneSession (members) *)
Record Microphone := mkMicrophone {
  session_id : Z;
  send_in_flight : bool;
  pending_audio : Bytes;
  ingress : Ingress (A := Bytes)
}.

Definition new_microphone : Microphone := mkMicrophone 0 false [] new_ingress.

(* src/src/aa/wired_receiver.cpp:348-348 MicrophoneSession::send_audio (kMaximumIngressPackets) *)
Definition kMaximumIngressPackets : nat := 2.

Inductive MicrophoneEvent :=
| MicrophoneOpen
| MicrophoneSetup (pcm : bool)
| MicrophoneSource (open : bool)
| MicrophoneAck
| MicrophoneError (e : Error)
| MicrophoneSendFailed (e : Error).

(** [now]: the steady clock in nanoseconds. *)
(* src/src/aa/wired_receiver.cpp:397-414 MicrophoneSession::send_audio_on_strand *)
Definition send_audio_on_strand (now : Z) (audio : Bytes) (m : Microphone) : Microphone * list Action :=
  if (session_id m =? 0) || bytes_eqb audio [] then (m, [])
  else if send_in_flight m then (mkMicrophone (session_id m) true audio (ingress m), [])
  else (mkMicrophone (session_id m) true (pending_audio m) (ingress m),
        [Send MicrophoneChannel (MicrophoneData (u64 now) audio)]).

(* src/src/aa/wired_receiver.cpp:415-418 MicrophoneSession::fail *)
Definition microphone_fail (detail : Bytes) : list Action :=
  [Emit ReceiverError (bs "Android Auto microphone channel: " ++ detail)].

(* src/src/aa/wired_receiver.cpp:284-340 MicrophoneSession *)
Definition microphone_step (now : Z) (m : Microphone) (e : MicrophoneEvent) : Microphone * list Action :=
  let c := MicrophoneChannel in
  match e with
  | MicrophoneOpen => (m, [Send c ChannelOpenResponse; Receive c])
  | MicrophoneSetup false => (m, microphone_fail (bs "phone requested an unsupported Android Auto microphone codec"))
  | MicrophoneSetup true => (m, [Send c (ChannelSetupResponse 1 [0]); Receive c])
  | MicrophoneSource open =>
      let id := if open then 1 else 0 in
      (mkMicrophone id false [] (mkIngress [] (posted (ingress m))), [Send c (MicrophoneOpenResponse id); Receive c])
  | MicrophoneAck =>
      let m := mkMicrophone (session_id m) false (pending_audio m) (ingress m) in
      if bytes_eqb (pending_audio m) [] then (m, [Receive c])
      else
        let '(m, actions) := send_audio_on_strand now (pending_audio m) (mkMicrophone (session_id m) false [] (ingress m)) in
        (m, actions ++ [Receive c])
  | MicrophoneError e | MicrophoneSendFailed e => (m, microphone_fail (what e))
  end.

(** Whether a drain is posted to the strand. *)
(* src/src/aa/wired_receiver.cpp:342-360 MicrophoneSession::send_audio *)
Definition send_audio (audio : Bytes) (m : Microphone) : bool * Microphone :=
  if bytes_eqb audio [] then (false, m)
  else
    let '(schedule, q) := push kMaximumIngressPackets audio (ingress m) in
    (schedule, mkMicrophone (session_id m) (send_in_flight m) (pending_audio m) q).

(** The first lock of a drain and the packet that is passed on; whether it goes on. *)
(* src/src/aa/wired_receiver.cpp:361-372 MicrophoneSession::drain_audio (take) *)
Definition drain_audio_take (now : Z) (m : Microphone) : bool * Microphone * list Action :=
  let '(audio, q) := take_one (ingress m) in
  let m := mkMicrophone (session_id m) (send_in_flight m) (pending_audio m) q in
  match audio with
  | None => (false, m, [])
  | Some audio => let '(m, actions) := send_audio_on_strand now audio m in (true, m, actions)
  end.

(** The second lock; whether another drain is posted. *)
(* src/src/aa/wired_receiver.cpp:373-384 MicrophoneSession::drain_audio (look again) *)
Definition drain_audio_look (m : Microphone) : bool * Microphone :=
  let '(schedule, q) := look_again (ingress m) in
  (schedule, mkMicrophone (session_id m) (send_in_flight m) (pending_audio m) q).

(** ** Service discovery *)

(** The resolution that is announced, and how the log calls it. *)
(* src/src/aa/wired_receiver.cpp:607-622 send_service_discovery_response (resolution) *)
Definition resolution (profile : option Capabilities) : Z * Z * Bytes :=
  let caps := default (mkCapabilities 0 0 0 false false false) profile in
  if (width_pixels caps =? 800) && (height_pixels caps =? 480) then (800, 480, bs "800x480 cached profile")
  else if (width_pixels caps =? 1920) && (height_pixels caps =? 1080) then (1920, 1080, bs "1920x1080 cached profile")
  else (1280, 720, bs "1280x720 fallback").

(* src/src/aa/wired_receiver.cpp:691-692 send_service_discovery_response (keys) *)
Definition supported_keycodes : list Z := [3; 4; 19; 20; 21; 22; 23; 66; 84].

(* src/src/aa/wired_receiver.cpp:627-643 send_service_discovery_response (add_audio_service) *)
Definition add_audio_service (wanted : bool) (stream : AudioStream) (sample_rate channels : Z) : list Service :=
  if wanted then [AudioService stream sample_rate 16 channels] else [].

(** The names, the version and the ping times in the response are constants. *)
(* src/src/aa/wired_receiver.cpp:600-692 send_service_discovery_response (services) *)
Definition services (profile : option Capabilities) : list Service :=
  let '(width, height, _) := resolution profile in
  let flag (f : Capabilities -> bool) := match profile with Some p => f p | None => false end in
  [VideoService width height 30 180]
  ++ add_audio_service (flag media_audio) MediaStream 48000 2
  ++ add_audio_service (flag guidance_audio) GuidanceStream 16000 1
  ++ add_audio_service (flag system_audio) SystemStream 16000 1
  ++ [MicrophoneService 16000 16 1; DrivingStatusSensor; KeyInput supported_keycodes].

(** ** The control channel and the video sink *)

(** [providing]: the thread is asking for the capabilities. [responses]: the
    answers it has posted to the strand. *)
(* src/src/aa/wired_receiver.cpp:937-952 ControlSession (members) *)
Record Control := mkControl {
  video_session_id : Z;
  capability_request_pending : bool;
  capability_stopping : bool;
  providing : bool;
  responses : list (option Capabilities);
  failed : bool
}.

Definition new_control : Control := mkControl 0 false false false [] false.

Definition set_video (id : Z) (s : Control) : Control :=
  mkControl id (capability_request_pending s) (capability_stopping s) (providing s) (responses s) (failed s).
Definition set_pending (b : bool) (s : Control) : Control :=
  mkControl (video_session_id s) b (capability_stopping s) (providing s) (responses s) (failed s).
Definition set_providing (b : bool) (s : Control) : Control :=
  mkControl (video_session_id s) (capability_request_pending s) (capability_stopping s) b (responses s) (failed s).
Definition set_responses (l : list (option Capabilities)) (s : Control) : Control :=
  mkControl (video_session_id s) (capability_request_pending s) (capability_stopping s) (providing s) l (failed s).

(* src/src/aa/wired_receiver.cpp:919-926 ControlSession::fail *)
Definition control_fail (detail : Bytes) (expected_usb_unplug : bool) (s : Control) : Control * list Action :=
  if failed s then (s, [])
  else
    (mkControl (video_session_id s) (capability_request_pending s) (capability_stopping s) (providing s) (responses s) true,
     [Emit (if expected_usb_unplug then TransportTeardown else ReceiverError) (bs "Android Auto control session: " ++ detail);
      SessionEnded]).

(* src/src/aa/wired_receiver.cpp:913-918 ControlSession::fail (error) *)
Definition control_error (e : Error) : Control -> Control * list Action :=
  control_fail (what e) (usb_transfer e && (native_code e =? 1)).

(* src/src/aa/wired_receiver.cpp:506-516 ControlSession::stop *)
Definition control_stop (s : Control) : Control * list Action :=
  (mkControl (video_session_id s) (capability_request_pending s) true (providing s) (responses s) (failed s), [SessionStopped]).

(** [failure]: an error while the channels are set up. *)
(* src/src/aa/wired_receiver.cpp:457-504 ControlSession::start *)
Definition control_start (failure : option Error) (s : Control) : Control * list Action :=
  match failure with
  | Some e => control_error e s
  | None => (s, [Send ControlChannel VersionRequest; Receive ControlChannel; Receive VideoChannel;
                 Receive (AudioChannel MediaStream); Receive (AudioChannel GuidanceStream); Receive (AudioChannel SystemStream);
                 Receive InputChannel; Receive SensorChannel; Receive MicrophoneChannel])
  end.

(** A turn of the thread begins with a request, or when the wait of 100 ms is over:
    the result of the wait is not looked at. *)
(* src/src/aa/wired_receiver.cpp:853-863 ControlSession::capability_loop (wait) *)
Definition capability_begin (s : Control) : Control :=
  if capability_stopping s then s else set_providing true (set_pending false s).

(* src/src/aa/wired_receiver.cpp:864-875 ControlSession::capability_loop (provide) *)
Definition capability_provide (profile : option Capabilities) (s : Control) : Control :=
  let s := set_providing false s in
  if capability_stopping s then s else set_responses (responses s ++ [profile]) s.

(* src/src/aa/wired_receiver.cpp:576-706 ControlSession::send_service_discovery_response *)
Definition send_service_discovery_response (profile : option Capabilities) : list Action :=
  [Send ControlChannel (ServiceDiscoveryResponse (services profile)); Receive ControlChannel].

(** What the strand runs: the oldest answer that was posted. *)
(* src/src/aa/wired_receiver.cpp:870-873 ControlSession::capability_loop (post) *)
Definition run_response (s : Control) : Control * list Action :=
  match responses s with
  | [] => (s, [])
  | profile :: rest =>
      let s := set_responses rest s in
      if capability_stopping s then (s, []) else (s, send_service_discovery_response profile)
  end.

(** What happens to a session, in any order. A result of the cryptor is an error
    or whether the handshake is complete. *)
Inductive ControlEvent :=
| OnVersionResponse (success : bool) (handshake : option Error)
| OnHandshake (handshake : Error + bool)
| OnServiceDiscoveryRequest
| OnAudioFocusRequest (release : bool)
| OnByeByeRequest
| OnByeByeResponse
| OnOtherNotification
| OnChannelError (e : Error)
| OnSendFailed (e : Error)
| OnVideoOpen
| OnVideoSetup (h264 : bool)
| OnVideoStart (session_id : Z)
| OnVideoStop
| OnVideoMedia (data : Bytes)
| OnVideoFocusRequest
| DiscoverySent (profile : option Capabilities)
| CapabilityBegin
| CapabilityProvide (profile : option Capabilities)
| RunResponse.

(* src/src/aa/wired_receiver.cpp:527-574 ControlSession (handshake) *)
Definition handshake_step (s : Control) (e : ControlEvent) : Control * list Action :=
  match e with
  | OnVersionResponse false _ => control_fail (bs "Android Auto version negotiation was rejected") false s
  | OnVersionResponse true (Some e) | OnHandshake (inl e) => control_error e s
  | OnVersionResponse true None => (s, [Send ControlChannel HandshakeData; Receive ControlChannel])
  | OnHandshake (inr true) => (s, [Send ControlChannel AuthComplete; Receive ControlChannel])
  | OnHandshake (inr false) => (s, [Send ControlChannel HandshakeData; Receive ControlChannel])
  | OnServiceDiscoveryRequest =>
      if capability_stopping s || capability_request_pending s then (s, []) else (set_pending true s, [])
  | _ => (s, [])
  end.

(* src/src/aa/wired_receiver.cpp:763-849 ControlSession (video) *)
Definition video_step (s : Control) (e : ControlEvent) : Control * list Action :=
  let c := VideoChannel in
  match e with
  | OnVideoOpen =>
      (s, [Emit ControlSessionReady (bs "phone opened Android Auto video channel"); Send c ChannelOpenResponse; Receive c])
  | OnVideoSetup false => control_fail (bs "phone requested an unsupported Android Auto video codec") false s
  | OnVideoSetup true =>
      (s, [Emit VideoStreamConfigured (bs "phone selected H.264 video configuration");
           Send c (ChannelSetupResponse 1 [0]); Send c (VideoFocus true); Receive c])
  | OnVideoStart id => (set_video id s, [Emit VideoStreamStarted (bs "Android Auto video stream started"); Receive c])
  | OnVideoStop => (set_video 0 s, [Emit ControlSessionReady (bs "Android Auto video stream stopped"); Receive c])
  | OnVideoMedia data => (s, [VideoFrame data; Send c (MediaAck (video_session_id s) 1); Receive c])
  | OnVideoFocusRequest => (s, [Send c (VideoFocus false); Receive c])
  | _ => (s, [])
  end.

(* src/src/aa/wired_receiver.cpp:707-742 ControlSession (notifications) *)
Definition control_step (s : Control) (e : ControlEvent) : Control * list Action :=
  match e with
  | OnVersionResponse _ _ | OnHandshake _ | OnServiceDiscoveryRequest => handshake_step s e
  | OnAudioFocusRequest release => (s, [Send ControlChannel (AudioFocusResponse (negb release) false); Receive ControlChannel])
  | OnByeByeRequest =>
      let '(s, actions) := control_stop s in
      (s, Emit Disconnected (bs "phone ended the Android Auto control session") :: actions)
  | OnByeByeResponse =>
      let '(s, actions) := control_stop s in
      (s, Emit Disconnected (bs "phone acknowledged Android Auto control-session shutdown") :: actions)
  | OnOtherNotification => (s, [Receive ControlChannel])
  | OnChannelError e | OnSendFailed e => control_error e s
  | DiscoverySent profile =>
      (s, [Emit ControlSessionReady (bs "sent Android Auto service discovery (" ++ dec (size_of (services profile))
            ++ bs " channels; " ++ (resolution profile).2 ++ bs ")")])
  | CapabilityBegin => (capability_begin s, [])
  | CapabilityProvide profile => (capability_provide profile s, [])
  | RunResponse => run_response s
  | _ => video_step s e
  end.

Fixpoint control_run (s : Control) (events : list ControlEvent) : Control * list Action :=
  match events with
  | [] => (s, [])
  | e :: events =>
      let '(s, actions) := control_step s e in
      let '(s, more) := control_run s events in
      (s, actions ++ more)
  end.

Fixpoint audio_run (stream : AudioStream) (session_id : Z) (events : list AudioEvent) : Z * list Action :=
  match events with
  | [] => (session_id, [])
  | e :: events =>
      let '(session_id, actions) := audio_step stream session_id e in
      let '(session_id, more) := audio_run stream session_id events in
      (session_id, actions ++ more)
  end.

(** ** Theorems: the microphone *)

Inductive MicrophoneStep :=
| Happens (now : Z) (e : MicrophoneEvent)
| Arrives (audio : Bytes)
| DrainTakes (now : Z)
| DrainLooks.

Definition microphone_next (m : Microphone) (s : MicrophoneStep) : Microphone * list Action :=
  match s with
  | Happens now e => microphone_step now m e
  | Arrives audio => ((send_audio audio m).2, [])
  | DrainTakes now => let '(_, m, actions) := drain_audio_take now m in (m, actions)
  | DrainLooks => ((drain_audio_look m).2, [])
  end.

(** What matters of a run: the phone's answers, the packets the strand gets from the
    queue, and the packets it sends. *)
Inductive Entry := Opened (b : bool) | Acknowledged | Taken (audio : Bytes) | Sent (audio : Bytes).

Definition input_entry (m : Microphone) (s : MicrophoneStep) : list Entry :=
  match s with
  | Happens _ (MicrophoneSource b) => [Opened b]
  | Happens _ MicrophoneAck => [Acknowledged]
  | DrainTakes _ => match items (ingress m) with audio :: _ => [Taken audio] | [] => [] end
  | _ => []
  end.

Definition sent (a : Action) : option Entry :=
  match a with Send _ (MicrophoneData _ audio) => Some (Sent audio) | _ => None end.

Fixpoint microphone_trace (m : Microphone) (steps : list MicrophoneStep) : list Entry :=
  match steps with
  | [] => []
  | s :: steps =>
      let '(m', actions) := microphone_next m s in
      input_entry m s ++ omap sent actions ++ microphone_trace m' steps
  end.

(** What a reader of the trace knows: whether the source is open, whether nothing
    is unacknowledged since it was opened, and the newest packet. *)
Definition source_open (t : list Entry) : bool :=
  fold_left (fun b e => match e with Opened b => b | _ => b end) t false.
Definition all_acknowledged (t : list Entry) : bool :=
  fold_left (fun b e => match e with Opened _ | Acknowledged => true | Sent _ => false | _ => b end) t true.
Definition newest (t : list Entry) : option Bytes :=
  fold_left (fun n e => match e with Taken audio => Some audio | _ => n end) t None.

(** The microphone agrees with the reader. *)
Definition agrees_but (m : Microphone) (t : list Entry) : Prop :=
  negb (session_id m =? 0) = source_open t /\
  send_in_flight m = negb (all_acknowledged t) /\
  (session_id m = 0 -> send_in_flight m = false) /\
  (pending_audio m <> [] -> send_in_flight m = true) /\
  Forall (fun audio => audio <> []) (items (ingress m)).

Definition agrees (m : Microphone) (t : list Entry) : Prop :=
  agrees_but m t /\ (pending_audio m <> [] -> newest t = Some (pending_audio m)).

Definition sends_ok (t : list Entry) : Prop :=
  forall t1 audio t2, t = t1 ++ Sent audio :: t2 ->
  source_open t1 = true /\ all_acknowledged t1 = true /\ newest t1 = Some audio.

Lemma source_open_app t u : source_open (t ++ u) = fold_left (fun b e => match e with Opened b => b | _ => b end) u (source_open t).
Proof. apply fold_left_app. Qed.
Lemma all_acknowledged_app t u : all_acknowledged (t ++ u) =
  fold_left (fun b e => match e with Opened _ | Acknowledged => true | Sent _ => false | _ => b end) u (all_acknowledged t).
Proof. apply fold_left_app. Qed.
Lemma newest_app t u : newest (t ++ u) = fold_left (fun n e => match e with Taken audio => Some audio | _ => n end) u (newest t).
Proof. apply fold_left_app. Qed.

Lemma sends_ok_app t u : sends_ok t -> Forall (fun e => forall audio, e <> Sent audio) u -> sends_ok (t ++ u).
Proof.
  intros Ht Hu t1 audio t2 E. apply app_eq_app in E as (k & [[-> E]|[-> E]]).
  - destruct k as [|x k]; cbn in E; [subst u; apply Forall_cons in Hu as [Hx _]; by destruct (Hx audio)|].
    injection E as <- ->. by eapply Ht.
  - subst u. apply Forall_app in Hu as [_ [Hx _]%Forall_cons]. by destruct (Hx audio).
Qed.

Lemma sends_ok_sent t audio :
  sends_ok t -> source_open t = true -> all_acknowledged t = true -> newest t = Some audio -> sends_ok (t ++ [Sent audio]).
Proof.
  intros Ht H1 H2 H3 t1 a t2 E. destruct t2 as [|x t2 _] using rev_ind.
  - by apply app_inj_tail in E as [<- [= <-]].
  - rewrite app_comm_cons, (assoc_L (++)) in E. apply app_inj_tail in E as [-> _]. by eapply Ht.
Qed.

(** Passing the newest packet on. *)
Lemma strand_agrees now audio m t :
  agrees_but m t -> newest t = Some audio -> audio <> [] -> sends_ok t ->
  let '(m', actions) := send_audio_on_strand now audio m in
  agrees m' (t ++ omap sent actions) /\ sends_ok (t ++ omap sent actions).
Proof.
  intros (Ho & Ha & Hz & Hp & Hq) Hn Hne Ht. unfold send_audio_on_strand.
  assert (bytes_eqb audio [] = false) as -> by by apply bool_decide_eq_false.
  assert (Hpend : send_in_flight m = false -> pending_audio m = []).
  { intros Hf. destruct (pending_audio m) eqn:E; [done|]. by rewrite Hp in Hf. }
  destruct (session_id m =? 0) eqn:Es; cbn [orb omap list_omap].
  { rewrite app_nil_r. apply Z.eqb_eq in Es as Es'. split; [|done]. rewrite <- Es in Ho.
    split; [by split_and!|]. by rewrite Hpend by auto. }
  assert (Hz0 : forall b : bool, session_id m = 0 -> b = false) by (intros b Hz0; by rewrite Hz0 in Es).
  destruct (send_in_flight m) eqn:Ef; cbn [omap list_omap sent].
  - rewrite app_nil_r. split; [|done]. by split; [split_and!; cbn; rewrite ?Es; auto|].
  - split; [|apply sends_ok_sent; [done|by rewrite <- Ho|by destruct (all_acknowledged t)|done]].
    unfold agrees, agrees_but. rewrite source_open_app, all_acknowledged_app, newest_app. cbn. rewrite Es, Hpend by done.
    by split_and!; auto.
Qed.

Lemma microphone_next_agrees m s t : agrees m t -> sends_ok t ->
  let '(m', actions) := microphone_next m s in
  let u := t ++ input_entry m s ++ omap sent actions in
  agrees m' u /\ sends_ok u.
Proof.
  intros Hag Ht. pose proof Hag as [(Ho & Ha & Hz & Hp & Hq) Hn].
  assert (Hsame : forall m', session_id m' = session_id m -> send_in_flight m' = send_in_flight m ->
    pending_audio m' = pending_audio m -> Forall (fun audio => audio <> []) (items (ingress m')) ->
    agrees m' (t ++ []) /\ sends_ok (t ++ [])).
  { intros m' E1 E2 E3 E4. rewrite app_nil_r. split; [|done]. unfold agrees, agrees_but. rewrite E1, E2, E3. by split_and!. }
  destruct s as [now [|[]|b| |e|e]|audio|now|]; cbn [microphone_next microphone_step input_entry omap list_omap sent app]; try (by apply Hsame).
  - cbn. split; [|apply sends_ok_app; [done|by repeat constructor]]. unfold agrees, agrees_but.
    rewrite source_open_app, all_acknowledged_app, newest_app. cbn. by destruct b; split_and!.
  - assert (Hack : agrees_but (mkMicrophone (session_id m) false [] (ingress m)) (t ++ [Acknowledged])).
    { unfold agrees_but. rewrite source_open_app, all_acknowledged_app. cbn. by split_and!. }
    assert (Hok : sends_ok (t ++ [Acknowledged])) by (apply sends_ok_app; [done|by repeat constructor]).
    destruct (bytes_eqb (pending_audio m) []) eqn:Ee; cbn [pending_audio].
    + apply bytes_eqb_eq in Ee. rewrite Ee. cbn. split; [by split|done].
    + assert (Hne : pending_audio m <> []) by (intros E; rewrite E in Ee; done).
      pose proof (strand_agrees now (pending_audio m) (mkMicrophone (session_id m) false [] (ingress m)) (t ++ [Acknowledged])) as Hs.
      cbn [session_id ingress]. destruct (send_audio_on_strand _ _ _) as [m' actions]. rewrite Ee. rewrite omap_app. cbn [omap list_omap sent]. rewrite app_nil_r.
      rewrite !(cons_middle Acknowledged t), !(assoc_L (++)). apply Hs; [done| |done|done]. rewrite newest_app. cbn. auto.
  - unfold send_audio. destruct (bytes_eqb audio []) eqn:Ee; cbn [snd]; [by apply Hsame|].
    apply Hsame; [done..|]. cbn. apply Forall_app. split.
    + destruct (items (ingress m)) as [|x [|y l]]; [done..|]. by apply Forall_cons in Hq as [].
    + constructor; [|done]. intros ->. done.
  - unfold drain_audio_take, take_one. destruct (items (ingress m)) as [|audio rest] eqn:Ei; cbn.
    + by apply Hsame.
    + apply Forall_cons in Hq as [Hx Hq].
      pose proof (strand_agrees now audio (mkMicrophone (session_id m) (send_in_flight m) (pending_audio m) (mkIngress rest (posted (ingress m))))
                    (t ++ [Taken audio])) as Hs.
      destruct (send_audio_on_strand _ _ _) as [m' actions]. cbn [fst snd].
      rewrite <- (assoc_L (++)) in Hs. apply Hs; [|by rewrite newest_app|done|apply sends_ok_app; [done|by repeat constructor]].
      unfold agrees_but. rewrite source_open_app, all_acknowledged_app. by split_and!.
  - unfold drain_audio_look, look_again. destruct (items (ingress m)) eqn:Ei; cbn; apply Hsame; cbn; rewrite ?Ei; done.
Qed.

Lemma microphone_trace_ok steps : forall m t, agrees m t -> sends_ok t -> sends_ok (t ++ microphone_trace m steps).
Proof.
  induction steps as [|s steps IH]; intros m t Ha Ht; cbn; [by rewrite app_nil_r|].
  pose proof (microphone_next_agrees m s t Ha Ht) as Hs. destruct (microphone_next m s) as [m' actions].
  destruct Hs as [Ha' Ht']. specialize (IH _ _ Ha' Ht'). by rewrite <- !(assoc_L (++)) in IH.
Qed.

(** C10. One packet at a time, and always the newest. Whatever the phone asks for,
    whenever packets arrive and however the I/O thread's drains fall between, a
    microphone packet is sent only while the phone has the source open and has
    acknowledged every packet since it opened it, and it is the last packet that was
    taken from the queue. *)
Theorem microphone_sends_newest steps t1 audio t2 :
  microphone_trace new_microphone steps = t1 ++ Sent audio :: t2 ->
  source_open t1 = true /\ all_acknowledged t1 = true /\ newest t1 = Some audio.
Proof.
  assert (H : sends_ok ([] ++ microphone_trace new_microphone steps)); [|intros E; by eapply H].
  apply microphone_trace_ok; [by repeat split; try constructor|]. intros u x v E. by destruct u.
Qed.

(** The phone opens the source; three packets come at once, the first is dropped;
    the second is sent, and the third when the phone has acknowledged it. *)
Definition three_packets : list MicrophoneStep :=
  [Happens 0 (MicrophoneSource true); Arrives [1]; Arrives [2]; Arrives [3];
   DrainTakes 5; DrainLooks; DrainTakes 6; DrainLooks; Happens 7 MicrophoneAck].

Lemma microphone_sends_newest_witness :
  omap (fun e => match e with Sent audio => Some audio | _ => None end) (microphone_trace new_microphone three_packets) = [[2]; [3]] /\
  exists t1, microphone_trace new_microphone three_packets = t1 ++ [Sent [3]] /\
    source_open t1 = true /\ all_acknowledged t1 = true /\ newest t1 = Some [3].
Proof.
  split; [by vm_compute|]. exists (take 5 (microphone_trace new_microphone three_packets)). split; [by vm_compute|].
  apply (microphone_sends_newest three_packets _ [3] []). by vm_compute.
Defined.

(** ** Theorems: service discovery *)

Definition wanted (profile : option Capabilities) (stream : AudioStream) : bool :=
  match profile with
  | None => false
  | Some p => match stream with
              | MediaStream => media_audio p
              | GuidanceStream => guidance_audio p
              | SystemStream => system_audio p
              end
  end.

(** A stream of music is stereo at 48 kHz; speech is mono at 16 kHz. *)
Definition well_formed (s : Service) : bool :=
  match s with
  | VideoService width height fps density =>
      existsb (fun '(w, h) => (w =? width) && (h =? height)) [(800, 480); (1280, 720); (1920, 1080)]
  | AudioService MediaStream rate bits channels => (rate =? 48000) && (bits =? 16) && (channels =? 2)
  | AudioService _ rate bits channels => (rate =? 16000) && (bits =? 16) && (channels =? 1)
  | MicrophoneService rate bits channels => (rate =? 16000) && (bits =? 16) && (channels =? 1)
  | DrivingStatusSensor | KeyInput _ => true
  end.

Definition picture (profile : option Capabilities) : Z * Z :=
  match profile with
  | Some p => if decide ((width_pixels p, height_pixels p) ∈ [(800, 480); (1920, 1080)]) then (width_pixels p, height_pixels p) else (1280, 720)
  | None => (1280, 720)
  end.

Lemma resolution_picture profile : (resolution profile).1 = picture profile.
Proof.
  destruct profile as [p|]; [|done]. unfold resolution, picture. cbn [default]. change (id p) with p.
  destruct (Z.eqb_spec (width_pixels p) 800), (Z.eqb_spec (height_pixels p) 480),
    (Z.eqb_spec (width_pixels p) 1920), (Z.eqb_spec (height_pixels p) 1080);
    cbn [andb fst]; case_decide as Hd; rewrite !elem_of_cons in Hd; try congruence;
    solve [exfalso; apply Hd; left; congruence|exfalso; apply Hd; right; left; congruence|
           destruct Hd as [[= ? ?]|[[= ? ?]|[]%not_elem_of_nil]]; congruence].
Qed.

Lemma services_audio profile stream : AudioChannel stream ∈ map channel_of (services profile) <-> wanted profile stream = true.
Proof.
  unfold services. destruct (resolution profile) as [[w h] d].
  destruct profile as [[pw ph pf [] [] []]|]; cbn [add_audio_service app map channel_of media_audio guidance_audio system_audio];
    destruct stream; cbn; set_solver.
Qed.

(** The pictures of an answer, and the format of a stream. *)
Definition pictures_of (l : list Service) : list (Z * Z) :=
  omap (fun s => match s with VideoService width height _ _ => Some (width, height) | _ => None end) l.
Definition format (stream : AudioStream) : Z * Z * Z :=
  match stream with MediaStream => (48000, 16, 2) | _ => (16000, 16, 1) end.

Lemma services_pictures profile : pictures_of (services profile) = [picture profile].
Proof.
  rewrite <- resolution_picture. unfold services. destruct (resolution profile) as [[w h] d].
  by destruct profile as [[pw ph pf [] [] []]|].
Qed.

Lemma services_format profile stream rate bits channels :
  AudioService stream rate bits channels ∈ services profile -> (rate, bits, channels) = format stream.
Proof.
  unfold services. destruct (resolution profile) as [[w h] d].
  destruct profile as [[pw ph pf [] [] []]|]; cbn [add_audio_service app media_audio guidance_audio system_audio]; intros H;
    repeat (apply elem_of_cons in H as [H|H]; [try discriminate H; by injection H as -> -> -> ->|]); by apply not_elem_of_nil in H.
Qed.

(** What the phone is told is what the session serves. Whatever capabilities
    are known, the answer to a service discovery has no channel twice, every channel
    in it is one on which the session listens from its start, an audio stream is
    announced exactly when the head unit has it, each in its format, and the picture
    is the head unit's own size when that is 800x480 or 1920x1080 and 1280x720
    otherwise. *)
Theorem discovery_advertises profile :
  let channels := map channel_of (services profile) in
  NoDup channels /\
  (forall c, c ∈ channels -> Receive c ∈ (control_start None new_control).2) /\
  (forall stream, AudioChannel stream ∈ channels <-> wanted profile stream = true) /\
  Forall (fun c => c ∈ channels) [VideoChannel; MicrophoneChannel; SensorChannel; InputChannel] /\
  forallb well_formed (services profile) = true /\
  pictures_of (services profile) = [picture profile].
Proof.
  assert (Hs : exists w h d, resolution profile = (w, h, d) /\ existsb (fun '(w', h') => (w' =? w) && (h' =? h)) [(800, 480); (1280, 720); (1920, 1080)] = true).
  { unfold resolution. repeat case_match; repeat eexists. }
  destruct Hs as (w & h & d & E & Hw).
  assert (Hv : well_formed (VideoService w h 30 180) = true) by done.
  cbn zeta. split_and!; [| |apply services_audio| | |apply services_pictures];
    unfold services; rewrite E; destruct profile as [[pw ph pf [] [] []]|];
    cbn [add_audio_service app map channel_of forallb media_audio guidance_audio system_audio wanted]; rewrite ?Hv;
    try done; try (by (repeat constructor; set_solver)).
  all: cbn; intros c Hc; repeat (apply elem_of_cons in Hc as [->|Hc]; [by (repeat (apply elem_of_cons; (by left) || right))|]); by apply not_elem_of_nil in Hc.
Qed.

(** ** Theorems: the end of a session *)

Definition ends (a : Action) : bool := match a with SessionEnded => true | _ => false end.

Definition ended (actions : list Action) : list Action := filter (fun a => ends a = true) actions.

(** What makes a session fail: an error of any channel or send, a rejected version, a
    failed handshake, a codec that is not offered. *)
Definition failing (e : ControlEvent) : bool :=
  match e with
  | OnVersionResponse success handshake => negb success || bool_decide (is_Some handshake)
  | OnHandshake (inl _) | OnChannelError _ | OnSendFailed _ => true
  | OnVideoSetup h264 => negb h264
  | _ => false
  end.

Lemma fail_ends detail usb s :
  failed (control_fail detail usb s).1 = true /\
  ended (control_fail detail usb s).2 = if failed s then [] else [SessionEnded].
Proof. unfold control_fail. destruct (failed s) eqn:E; [done|]. by destruct usb. Qed.

Lemma step_ends s e :
  failed (control_step s e).1 = failed s || failing e /\
  ended (control_step s e).2 = if negb (failed s) && failing e then [SessionEnded] else [].
Proof.
  assert (Hf : forall detail usb, failed (control_fail detail usb s).1 = failed s || true /\
    ended (control_fail detail usb s).2 = if negb (failed s) && true then [SessionEnded] else []).
  { intros detail usb. destruct (fail_ends detail usb s) as [-> ->]. by destruct (failed s). }
  destruct e as [[] [e|]|[e|[]]| |[]| | | |e|e| |[]| | | | | | | |]; try apply Hf;
    cbn; rewrite ?orb_false_r, ?andb_false_r; try done.
  - by destruct (capability_stopping s || capability_request_pending s).
  - unfold capability_begin. by destruct (capability_stopping s).
  - unfold capability_provide. destruct s as [? ? [] ? ? ?]; done.
  - unfold run_response. destruct (responses s); [done|]. destruct s as [? ? [] ? ? ?]; done.
Qed.

(** The receiver is told once that a session is over. In every run of a session,
    whatever the phone, the library and the capability thread do and in any order,
    the end is reported exactly once when one of the events is a failure and not at all
    when none is; in particular the many failures that one unplugged cable causes, one
    for every channel and send, are one report. *)
Theorem session_ends_once events :
  ended (control_run new_control events).2 = if existsb failing events then [SessionEnded] else [].
Proof.
  assert (H : forall s, ended (control_run s events).2 = if negb (failed s) && existsb failing events then [SessionEnded] else []).
  { induction events as [|e events IH]; intros s; cbn; [by rewrite andb_false_r|].
    destruct (step_ends s e) as [Hf He]. destruct (control_step s e) as [s' actions]. cbn in Hf, He.
    specialize (IH s'). destruct (control_run s' events) as [s'' more]. cbn in *. unfold ended in *.
    rewrite filter_app, IH, He, Hf. by destruct (failed s), (failing e). }
  apply (H new_control).
Qed.

(** The thread that waits for service discovery requests takes the end of its wait
    for a request: when the phone has asked for nothing, the head unit's services are
    sent all the same, and the channel gets a second receive. *)
Example discovery_without_request :
  (control_run new_control [CapabilityBegin; CapabilityProvide None; RunResponse]).2 =
  [Send ControlChannel (ServiceDiscoveryResponse (services None)); Receive ControlChannel].
Proof. reflexivity. Qed.

(** A request that comes while the thread is at work is answered after it; two
    that come together are answered once. *)
Example requests_coalesced :
  omap (fun a => match a with Send _ (ServiceDiscoveryResponse l) => Some l | _ => None end)
    (control_run new_control
       [OnServiceDiscoveryRequest; OnServiceDiscoveryRequest; CapabilityBegin; CapabilityProvide None; RunResponse]).2 =
  [services None].
Proof. reflexivity. Qed.
