(* ===== verification/WiredReceiver.v ===== *)
(** * The Android Auto receiver

    [src/src/aa/wired_receiver.cpp], the class [WiredReceiver::Impl]: waiting for a
    phone on USB, starting a session and taking it down, the two queues in front of
    the I/O thread, and stopping.  libusb and aasdk are what happens to the receiver:
    a device comes or goes, the hub that waits for a phone settles its promise.  The
    jobs that are posted to the I/O thread are a queue.  What the I/O thread and the
    USB thread run is a program of instructions, each of them one section under the lock,
    one test of the flags, one call or one callback, so that whatever the other threads
    do can come between any two of them.  [start] and the two locked parts of [stop] are
    one step each. *)

From S2P Require Import Prelude Text IngressQueue ReceiverTypes AndroidAuto.
#[local] Open Scope Z_scope.

Section Receiver.
Context {Report : Type}.

(** The protobuf parser of an input report. *)
Context (ParseFromArray : Bytes -> option Report).

(** A USB device: whether its descriptor can be read, and whether it opens. *)
Record Device := mkDevice {
  device_bus : Z;
  device_address : Z;
  descriptor : option (Z * Z);
  opens : bool
}.

Inductive Job :=
| DrainInput
| DrainMicrophone
| SessionEnd
| DeviceLeft
| DeviceArrived (bus address : Z)
| HubReports (bus address : Z) (failure : option Error)
| HubFails (what : Bytes).

(** What a thread does next. The tests return from the function when they hold. *)
Inductive Instr :=
| StopTest                        (* stopping_ *)
| EndTest                         (* stopping_ || !active_ *)
| ArrivalTest                     (* stopping_ || active_ *)
| LeftTest (d : Device)           (* the device is not the one in use *)
| Examine (d : Device)
| PostLeft
| LetGo                           (* the session and the handle are reset *)
| Activate (bus address : Z)
| Emits (type : ReceiverEvent) (detail : Bytes)
| Arm
| StartSession (failure : option Error)
| TakeInput
| PassInput (report : Report)
| LookInput
| TakeMicrophone
| PassMicrophone (audio : Bytes)
| LookMicrophone
| Handle (n : nat) (e : ControlEvent).

(** A session, and whether its channels could be created. *)
Record Session := mkSession { control : Control; channels : bool }.

(** [waits]: the promises given to the hub and not settled. [control_session]: the
    one that is held of all the [sessions] that were started. [io], [usb]: what is left
    of the job of the I/O thread and of the callback of the USB thread. *)
(* src/src/aa/wired_receiver.cpp:1281-1307 WiredReceiver::Impl (members) *)
Record Receiver := mkReceiver {
  running : bool;
  stopping : bool;
  active : bool;
  active_bus : Z;
  active_address : Z;
  active_handle : bool;
  control_session : option nat;
  sessions : list Session;
  waits : nat;
  jobs : list Job;
  input_reports : Ingress (A := Report);
  microphone_audio : Ingress (A := Bytes);
  io : list Instr;
  usb : list Instr
}.

Definition new_receiver : Receiver :=
  mkReceiver false false false 0 0 false None [] 0 [] new_ingress new_ingress [] [].

(** What others see: events, results of calls, and what is passed to the session. A
    report or a packet that finds no session is dropped ([Unheard], [UnheardAudio]). *)
Inductive Output :=
| Emitted (type : ReceiverEvent) (detail : Bytes)
| Started (error : option Bytes)
| SentInput (ok : bool)
| SentMicrophone (ok : bool)
| PassedInput (session : nat) (report : Report)
| PassedMicrophone (session : nat) (audio : Bytes)
| Unheard (report : Report)
| UnheardAudio (audio : Bytes)
| Acted (session : nat) (action : Action)
| Crashed.

Definition post (j : Job) (r : Receiver) : Receiver :=
  mkReceiver (running r) (stopping r) (active r) (active_bus r) (active_address r) (active_handle r) (control_session r)
    (sessions r) (waits r) (jobs r ++ [j]) (input_reports r) (microphone_audio r) (io r) (usb r).

Definition set_jobs (l : list Job) (r : Receiver) : Receiver :=
  mkReceiver (running r) (stopping r) (active r) (active_bus r) (active_address r) (active_handle r) (control_session r)
    (sessions r) (waits r) l (input_reports r) (microphone_audio r) (io r) (usb r).

Definition set_input (q : Ingress) (r : Receiver) : Receiver :=
  mkReceiver (running r) (stopping r) (active r) (active_bus r) (active_address r) (active_handle r) (control_session r)
    (sessions r) (waits r) (jobs r) q (microphone_audio r) (io r) (usb r).

Definition set_microphone (q : Ingress) (r : Receiver) : Receiver :=
  mkReceiver (running r) (stopping r) (active r) (active_bus r) (active_address r) (active_handle r) (control_session r)
    (sessions r) (waits r) (jobs r) (input_reports r) q (io r) (usb r).

Definition set_io (l : list Instr) (r : Receiver) : Receiver :=
  mkReceiver (running r) (stopping r) (active r) (active_bus r) (active_address r) (active_handle r) (control_session r)
    (sessions r) (waits r) (jobs r) (input_reports r) (microphone_audio r) l (usb r).

Definition set_usb (l : list Instr) (r : Receiver) : Receiver :=
  mkReceiver (running r) (stopping r) (active r) (active_bus r) (active_address r) (active_handle r) (control_session r)
    (sessions r) (waits r) (jobs r) (input_reports r) (microphone_audio r) (io r) l.

Definition set_waits (n : nat) (r : Receiver) : Receiver :=
  mkReceiver (running r) (stopping r) (active r) (active_bus r) (active_address r) (active_handle r) (control_session r)
    (sessions r) n (jobs r) (input_reports r) (microphone_audio r) (io r) (usb r).

Definition set_active (bus address : Z) (r : Receiver) : Receiver :=
  mkReceiver (running r) (stopping r) true bus address true (control_session r)
    (sessions r) (waits r) (jobs r) (input_reports r) (microphone_audio r) (io r) (usb r).

(** The session and the handle are let go. *)
Definition drop_session (r : Receiver) : Receiver :=
  mkReceiver (running r) (stopping r) false (active_bus r) (active_address r) false None
    (sessions r) (waits r) (jobs r) (input_reports r) (microphone_audio r) (io r) (usb r).

Definition update_session (n : nat) (c : Control) (r : Receiver) : Receiver :=
  mkReceiver (running r) (stopping r) (active r) (active_bus r) (active_address r) (active_handle r) (control_session r)
    (alter (fun s => mkSession c (channels s)) n (sessions r)) (waits r) (jobs r) (input_reports r) (microphone_audio r) (io r) (usb r).

Definition stop_session (r : Receiver) : Receiver :=
  match control_session r with
  | None => r
  | Some n =>
      match sessions r !! n with
      | Some s => update_session n (control_stop (control s)).1 r
      | None => r
      end
  end.

(* src/src/aa/wired_receiver.cpp:1264-1279 WiredReceiver::Impl::reset_locked *)
Definition reset_locked (r : Receiver) : Receiver :=
  let r := stop_session r in
  mkReceiver false (stopping r) false (active_bus r) (active_address r) false None
    (sessions r) 0 (jobs r) (input_reports r) (microphone_audio r) (io r) (usb r).

(* src/src/aa/wired_receiver.cpp:1142-1165 WiredReceiver::Impl::arm_wait_for_phone *)
Definition arm_wait_for_phone (r : Receiver) : Receiver := set_waits (S (waits r)) r.

Definition waiting : Output := Emitted WaitingForPhone (bs "waiting for a wired Android Auto phone").

(** A device that is none of those in accessory mode is left alone. *)
(* src/src/aa/wired_receiver.cpp:1211-1235 WiredReceiver::Impl::handle_device_arrival (device) *)
Definition examine (d : Device) (r : Receiver) : Receiver * list Output :=
  match descriptor d with
  | Some (vendor, product) =>
      if negb (vendor =? 0x18D1) || (negb (product =? 0x2D00) && negb (product =? 0x2D01)) then (r, [])
      else if negb (opens d) then (r, [Emitted ReceiverError (bs "unable to open the Android Auto AOAP USB device")])
      else (post (DeviceArrived (device_bus d) (device_address d)) r, [])
  | None => (r, [])
  end.

(** For a device that was there at the start; [start] holds the lock meanwhile. *)
(* src/src/aa/wired_receiver.cpp:1208-1235 WiredReceiver::Impl::handle_device_arrival *)
Definition handle_device_arrival (d : Device) (r : Receiver) : Receiver * list Output :=
  if stopping r || active r then (r, []) else examine d r.

(** [None]: the list of devices cannot be read. *)
(* src/src/aa/wired_receiver.cpp:1198-1206 WiredReceiver::Impl::find_existing_aoap_device *)
Definition find_existing_aoap_device (devices : option (list Device)) (r : Receiver) : Receiver * list Output :=
  fold_left (fun s d => let '(r, out) := handle_device_arrival d s.1 in (r, s.2 ++ out)) (default [] devices) (r, []).

Record StartTurn := mkStartTurn {
  usb_init : bool;
  has_hotplug : bool;
  registered : bool;
  existing : option (list Device)
}.

(* src/src/aa/wired_receiver.cpp:968-1017 WiredReceiver::Impl::start *)
Definition start (t : StartTurn) (r : Receiver) : Receiver * list Output :=
  if running r then (r, [Started None])
  else if negb (usb_init t) then (r, [Started (Some (bs "unable to initialize libusb"))])
  else if negb (has_hotplug t) then (r, [Started (Some (bs "libusb hotplug support is unavailable"))])
  else if negb (registered t) then (reset_locked r, [Started (Some (bs "unable to register USB disconnect callback"))])
  else
    let r := mkReceiver true false (active r) (active_bus r) (active_address r) (active_handle r) (control_session r)
               (sessions r) (waits r) (jobs r) (input_reports r) (microphone_audio r) (io r) (usb r) in
    let r := arm_wait_for_phone r in
    let '(r, out) := find_existing_aoap_device (existing t) r in
    (r, out ++ [waiting; Started None]).

(* src/src/aa/wired_receiver.cpp:1030-1030 WiredReceiver::Impl::send_input_report (limit) *)
Definition kMaximumInputReports : nat := 32.
(* src/src/aa/wired_receiver.cpp:1052-1052 WiredReceiver::Impl::send_microphone_audio (limit) *)
Definition kMaximumMicrophonePackets : nat := 2.

Definition INT_MAX : Z := 2147483647.

(* src/src/aa/wired_receiver.cpp:1019-1042 WiredReceiver::Impl::send_input_report *)
Definition send_input_report (serialized_report : Bytes) (r : Receiver) : Receiver * list Output :=
  match (if INT_MAX <? size_of serialized_report then None else ParseFromArray serialized_report) with
  | None => (r, [SentInput false])
  | Some report =>
      if negb (running r) || stopping r then (r, [SentInput false])
      else
        let '(schedule, q) := push kMaximumInputReports report (input_reports r) in
        let r := set_input q r in
        (if schedule then post DrainInput r else r, [SentInput true])
  end.

(* src/src/aa/wired_receiver.cpp:1044-1064 WiredReceiver::Impl::send_microphone_audio *)
Definition send_microphone_audio (pcm : Bytes) (r : Receiver) : Receiver * list Output :=
  if bytes_eqb pcm [] then (r, [SentMicrophone false])
  else if negb (running r) || stopping r then (r, [SentMicrophone false])
  else
    let '(schedule, q) := push kMaximumMicrophonePackets pcm (microphone_audio r) in
    let r := set_microphone q r in
    (if schedule then post DrainMicrophone r else r, [SentMicrophone true]).

(** The part of a stop that is under the lock; the hub is cancelled, and the I/O
    thread begins no job after it. *)
(* src/src/aa/wired_receiver.cpp:1066-1082 WiredReceiver::Impl::stop (request) *)
Definition stop (r : Receiver) : Receiver :=
  if negb (running r) then r
  else mkReceiver (running r) true (active r) (active_bus r) (active_address r) (active_handle r) (control_session r)
         (sessions r) (waits r) (jobs r) new_ingress new_ingress (io r) (usb r).

(** When both threads have ended, which is after what they are doing. *)
(* src/src/aa/wired_receiver.cpp:1083-1089 WiredReceiver::Impl::stop (join) *)
Definition stop_joined (r : Receiver) : Receiver :=
  match io r, usb r with
  | [], [] => if running r && stopping r then reset_locked r else r
  | _, _ => r
  end.

(** What a session does: its events are the receiver's own, and its end is a job. *)
Fixpoint perform (n : nat) (actions : list Action) (r : Receiver) : Receiver * list Output :=
  match actions with
  | [] => (r, [])
  | action :: actions =>
      let '(r, first) := match action with
                         | Emit type detail => (r, [Emitted type detail])
                         | SessionEnded => (post SessionEnd r, [])
                         | _ => (r, [Acted n action])
                         end in
      let '(r, more) := perform n actions r in
      (r, first ++ more)
  end.

(** [failure]: an error while the channels are created. *)
(* src/src/aa/wired_receiver.cpp:1242-1249 WiredReceiver::Impl::start_control_session *)
Definition start_control_session (failure : option Error) (r : Receiver) : Receiver * list Output :=
  let '(c, actions) := control_start failure new_control in
  let n := length (sessions r) in
  perform n actions
    (mkReceiver (running r) (stopping r) (active r) (active_bus r) (active_address r) (active_handle r) (Some n)
       (sessions r ++ [mkSession c (negb (bool_decide (is_Some failure)))])
       (waits r) (jobs r) (input_reports r) (microphone_audio r) (io r) (usb r)).

(* src/src/aa/wired_receiver.cpp:1251-1262 WiredReceiver::Impl::handle_control_session_end *)
Definition handle_control_session_end : list Instr :=
  [EndTest; LetGo; Emits Disconnected (bs "wired Android Auto control transport ended"); Arm;
   Emits WaitingForPhone (bs "waiting for a wired Android Auto phone")].

(** What libusb says of a device, on the USB thread. *)
(* src/src/aa/wired_receiver.cpp:1174-1184 WiredReceiver::Impl::device_event *)
Definition device_event (arrived : bool) (d : Device) : list Instr :=
  if arrived then [ArrivalTest; Examine d] else [LeftTest d; PostLeft].

(** What the hub's promise does when a phone is found. *)
(* src/src/aa/wired_receiver.cpp:1145-1157 WiredReceiver::Impl::arm_wait_for_phone (found) *)
Definition phone_found (bus address : Z) (failure : option Error) : list Instr :=
  [StopTest; Activate bus address;
   Emits AoapTransportReady (bs "AOAP transport ready on USB " ++ dec bus ++ bs ":" ++ dec address);
   StartSession failure].

(* src/src/aa/wired_receiver.cpp:1158-1163 WiredReceiver::Impl::arm_wait_for_phone (failed) *)
Definition hub_failed (what : Bytes) : list Instr :=
  [StopTest; Emits ReceiverError (bs "Android Auto USB discovery failed: " ++ what)].

(** The job that is posted when the device has left looks at nothing. *)
(* src/src/aa/wired_receiver.cpp:1185-1194 WiredReceiver::Impl::device_event (job) *)
Definition device_left : list Instr :=
  [LetGo; Emits Disconnected (bs "wired Android Auto phone disconnected"); Arm;
   Emits WaitingForPhone (bs "waiting for a wired Android Auto phone")].

(* src/src/aa/wired_receiver.cpp:1227-1234 WiredReceiver::Impl::handle_device_arrival (job) *)
Definition device_arrived (bus address : Z) : list Instr := [ArrivalTest; Activate bus address].

(** The channel of a session whose set-up failed is a null pointer. *)
Definition no_channel (n : nat) (r : Receiver) : bool :=
  match sessions r !! n with Some s => negb (channels s) | None => false end.

(** The first lock of a drain, what is done without it, and the second. *)
(* src/src/aa/wired_receiver.cpp:1092-1101 WiredReceiver::Impl::drain_input_reports (first lock) *)
Definition drain_input_reports (rest : list Instr) (r : Receiver) : Receiver * list Output * list Instr :=
  match take_one (input_reports r) with
  | (None, q) => (set_input q r, [], [])
  | (Some report, q) => (set_input q r, [], PassInput report :: LookInput :: rest)
  end.

(* src/src/aa/wired_receiver.cpp:1102-1103 WiredReceiver::Impl::drain_input_reports (session) *)
Definition pass_input (report : Report) (r : Receiver) : list Output :=
  match control_session r with
  | None => [Unheard report]
  | Some n => if no_channel n r then [Crashed] else [PassedInput n report]
  end.

(* src/src/aa/wired_receiver.cpp:1104-1115 WiredReceiver::Impl::drain_input_reports (second lock) *)
Definition drain_input_again (r : Receiver) : Receiver :=
  let '(schedule, q) := look_again (input_reports r) in
  let r := set_input q r in
  if schedule then post DrainInput r else r.

(* src/src/aa/wired_receiver.cpp:1117-1126 WiredReceiver::Impl::drain_microphone_audio (first lock) *)
Definition drain_microphone_audio (rest : list Instr) (r : Receiver) : Receiver * list Output * list Instr :=
  match take_one (microphone_audio r) with
  | (None, q) => (set_microphone q r, [], [])
  | (Some audio, q) => (set_microphone q r, [], PassMicrophone audio :: LookMicrophone :: rest)
  end.

(* src/src/aa/wired_receiver.cpp:1127-1128 WiredReceiver::Impl::drain_microphone_audio (session) *)
Definition pass_microphone (audio : Bytes) (r : Receiver) : list Output :=
  match control_session r with
  | None => [UnheardAudio audio]
  | Some n => if no_channel n r then [Crashed] else [PassedMicrophone n audio]
  end.

(* src/src/aa/wired_receiver.cpp:1129-1140 WiredReceiver::Impl::drain_microphone_audio (second lock) *)
Definition drain_microphone_again (r : Receiver) : Receiver :=
  let '(schedule, q) := look_again (microphone_audio r) in
  let r := set_microphone q r in
  if schedule then post DrainMicrophone r else r.

Definition program (j : Job) : list Instr :=
  match j with
  | DrainInput => [TakeInput]
  | DrainMicrophone => [TakeMicrophone]
  | SessionEnd => handle_control_session_end
  | DeviceLeft => device_left
  | DeviceArrived bus address => device_arrived bus address
  | HubReports bus address failure => phone_found bus address failure
  | HubFails what => hub_failed what
  end.

(** A handler of a session. *)
Definition handle (n : nat) (e : ControlEvent) (r : Receiver) : Receiver * list Output :=
  match sessions r !! n with
  | Some s =>
      let '(c, actions) := control_step (control s) e in
      perform n actions (update_session n c r)
  | None => (r, [])
  end.

(** One instruction, and what is left after it of the program. *)
Definition exec (i : Instr) (rest : list Instr) (r : Receiver) : Receiver * list Output * list Instr :=
  match i with
  | StopTest => (r, [], if stopping r then [] else rest)
  | EndTest => (r, [], if stopping r || negb (active r) then [] else rest)
  | ArrivalTest => (r, [], if stopping r || active r then [] else rest)
  | LeftTest d =>
      (r, [], if negb (active r) || stopping r || negb (device_bus d =? active_bus r) || negb (device_address d =? active_address r)
              then [] else rest)
  | Examine d => (examine d r, rest)
  | PostLeft => (post DeviceLeft r, [], rest)
  | LetGo => (drop_session r, [], rest)
  | Activate bus address => (set_active bus address r, [], rest)
  | Emits type detail => (r, [Emitted type detail], rest)
  | Arm => (arm_wait_for_phone r, [], rest)
  | StartSession failure => (start_control_session failure r, rest)
  | TakeInput => drain_input_reports rest r
  | PassInput report => (r, pass_input report r, rest)
  | LookInput => (drain_input_again r, [], rest)
  | TakeMicrophone => drain_microphone_audio rest r
  | PassMicrophone audio => (r, pass_microphone audio r, rest)
  | LookMicrophone => (drain_microphone_again r, [], rest)
  | Handle n e => (handle n e r, rest)
  end.

Definition io_instruction (r : Receiver) : Receiver * list Output :=
  match io r with
  | [] => (r, [])
  | i :: rest => let '(r, out, rest) := exec i rest r in (set_io rest r, out)
  end.

Definition usb_instruction (r : Receiver) : Receiver * list Output :=
  match usb r with
  | [] => (r, [])
  | i :: rest => let '(r, out, rest) := exec i rest r in (set_usb rest r, out)
  end.

(** ** Runs *)

Inductive Input :=
| Start (t : StartTurn)
| SendInput (serialized_report : Bytes)
| SendMicrophone (pcm : Bytes)
| Stop
| StopJoined
| Device_ (arrived : bool) (d : Device)
| HubSettles (result : Bytes + Z * Z * option Error)
| SessionEvent (n : nat) (e : ControlEvent)
| RunJob
| IoStep
| UsbStep.

(** The events of a session that are not the I/O thread's. *)
Definition of_capability_thread (e : ControlEvent) : bool :=
  match e with CapabilityBegin | CapabilityProvide _ => true | _ => false end.

(** Whether the I/O thread takes a job or a handler: it exists, was not stopped, and
    is not in one. *)
Definition io_free (r : Receiver) : bool :=
  running r && negb (stopping r) && match io r with [] => true | _ => false end.

(** A step that cannot happen in the state changes nothing. *)
Definition step (r : Receiver) (i : Input) : Receiver * list Output :=
  match i with
  | Start t => start t r
  | SendInput serialized_report => send_input_report serialized_report r
  | SendMicrophone pcm => send_microphone_audio pcm r
  | Stop => (stop r, [])
  | StopJoined => (stop_joined r, [])
  | Device_ arrived d =>
      match usb r with
      | [] => (if running r then set_usb (device_event arrived d) r else r, [])
      | _ => (r, [])
      end
  | HubSettles result =>
      match waits r with
      | O => (r, [])
      | S n => (post (match result with
                      | inl what => HubFails what
                      | inr (bus, address, failure) => HubReports bus address failure
                      end) (set_waits n r), [])
      end
  | SessionEvent n e =>
      if of_capability_thread e then handle n e r
      else (if io_free r then set_io [Handle n e] r else r, [])
  | RunJob =>
      if io_free r then
        match jobs r with
        | [] => (r, [])
        | j :: rest => (set_io (program j) (set_jobs rest r), [])
        end
      else (r, [])
  | IoStep => io_instruction r
  | UsbStep => usb_instruction r
  end.

Fixpoint run (r : Receiver) (inputs : list Input) : Receiver * list Output :=
  match inputs with
  | [] => (r, [])
  | i :: inputs =>
      let '(r, out) := step r i in
      let '(r, more) := run r inputs in
      (r, out ++ more)
  end.

(** ** Facts: programs *)

Definition finds (i : Instr) : bool := match i with Arm | StartSession _ => true | _ => false end.

(** The instructions that stand only at the beginning. *)
Definition inner (i : Instr) : bool :=
  match i with
  | Emits _ _ | LetGo | Arm | StartSession _ | Activate _ _ | Examine _ | PostLeft => true
  | _ => false
  end.

Definition is_end (l : list Instr) : bool := match l with [] => true | _ => false end.

(** The shape of what is left of a job. [a]: whether a device is held. *)
Fixpoint safe (a : bool) (l : list Instr) : bool :=
  match l with
  | [] => true
  | i :: rest =>
      match i with
      | PassInput _ => match rest with [LookInput] => true | _ => false end
      | PassMicrophone _ => match rest with [LookMicrophone] => true | _ => false end
      | TakeInput | TakeMicrophone | LookInput | LookMicrophone | Handle _ _ => is_end rest
      | LetGo => forallb inner rest && existsb finds rest && safe false rest
      | Activate _ _ => forallb inner rest && safe true rest
      | StartSession _ => forallb inner rest && a && safe a rest
      | Examine _ | PostLeft | LeftTest _ => false
      | _ => forallb inner rest && safe a rest
      end
  end.

(** What is left ends with another search for a phone, or with a session. *)
Definition finding (l : list Instr) : bool :=
  match l with
  | EndTest :: _ | ArrivalTest :: _ => false
  | _ => existsb finds l
  end.

(** How many steps are left at most. *)
Definition cost (i : Instr) : nat := match i with TakeInput | TakeMicrophone => 3 | _ => 1 end.
Definition costs (l : list Instr) : nat := list_sum (map cost l).

Lemma safe_held l : safe false l = true -> safe true l = true.
Proof.
  induction l as [|i rest IH]; [done|]. destruct i; cbn [safe]; try done; rewrite !andb_true_iff; intuition.
Qed.

Lemma safe_weaken a l : safe false l = true -> safe a l = true.
Proof. destruct a; [apply safe_held|done]. Qed.

Lemma safe_program j : safe false (program j) = true /\ (costs (program j) <= 5)%nat.
Proof. destruct j; vm_compute; (split; [done|lia]). Qed.

Lemma perform_jobs n actions : forall r, exists k, (perform n actions r).1 = set_jobs (jobs r ++ replicate k SessionEnd) r.
Proof.
  induction actions as [|a actions IH]; intros r; cbn [perform].
  - exists O. cbn. rewrite app_nil_r. by destruct r.
  - assert (H : exists k, (let '(r', first) := match a with
        | Emit type detail => (r, [Emitted type detail]) | SessionEnded => (post SessionEnd r, []) | _ => (r, [Acted n a]) end in
        let '(r'', more) := perform n actions r' in (r'', first ++ more)).1 = set_jobs (jobs r ++ replicate k SessionEnd) r); [|done].
    destruct a; try (destruct (IH r) as [k E]; exists k; by destruct (perform n actions r)).
    destruct (IH (post SessionEnd r)) as [k E]. exists (S k). destruct (perform n actions (post SessionEnd r)). cbn in *.
    rewrite E. cbn. by rewrite <- (assoc_L (++)).
Qed.

Lemma handle_jobs n e r : exists k c, (handle n e r).1 = set_jobs (jobs r ++ replicate k SessionEnd) (update_session n c r).
Proof.
  unfold handle. destruct (sessions r !! n) as [s|] eqn:E.
  - destruct (control_step (control s) e) as [c actions]. destruct (perform_jobs n actions (update_session n c r)) as [k Ek].
    exists k, c. by rewrite Ek.
  - exists O, new_control. rewrite app_nil_r. unfold update_session, set_jobs. cbn.
    assert (Ha : forall f, alter f n (sessions r) = sessions r).
    { intros f. transitivity (alter id n (sessions r)); [|by apply list_alter_id]. apply list_alter_ext; [intros x Hx; congruence|done]. }
    rewrite Ha. by destruct r.
Qed.

Lemma start_session_run failure r : exists k c b, (start_control_session failure r).1 =
  mkReceiver (running r) (stopping r) (active r) (active_bus r) (active_address r) (active_handle r) (Some (length (sessions r)))
    (sessions r ++ [mkSession c b]) (waits r) (jobs r ++ replicate k SessionEnd) (input_reports r) (microphone_audio r) (io r) (usb r).
Proof.
  unfold start_control_session. destruct (control_start failure new_control) as [c actions].
  match goal with |- context [perform ?n actions ?s] => destruct (perform_jobs n actions s) as [k E] end.
  rewrite E. by eexists k, _, _.
Qed.

Definition arrivals (places : list (Z * Z)) : list Job := map (fun p => DeviceArrived p.1 p.2) places.

Lemma examine_jobs d r : exists places, (examine d r).1 = set_jobs (jobs r ++ arrivals places) r.
Proof.
  assert (H0 : exists places, r = set_jobs (jobs r ++ arrivals places) r) by (exists []; rewrite app_nil_r; by destruct r).
  unfold examine. destruct (descriptor d) as [[v q]|]; [|done].
  destruct (_ || _); [done|]. destruct (negb _); [done|]. by exists [(device_bus d, device_address d)].
Qed.

Lemma arrival_jobs d r : exists places, (handle_device_arrival d r).1 = set_jobs (jobs r ++ arrivals places) r.
Proof.
  unfold handle_device_arrival. destruct (_ || _); [|apply examine_jobs]. exists []. rewrite app_nil_r. by destruct r.
Qed.

Lemma existing_jobs devices : forall r, exists places, (find_existing_aoap_device devices r).1 = set_jobs (jobs r ++ arrivals places) r.
Proof.
  destruct devices as [devices|]; [|intros r; exists []; rewrite app_nil_r; by destruct r].
  unfold find_existing_aoap_device. change (default [] (Some devices)) with devices. generalize (@nil Output).
  induction devices as [|d devices IH]; intros out r; cbn; [exists []; rewrite app_nil_r; by destruct r|].
  destruct (arrival_jobs d r) as (l & E). destruct (handle_device_arrival d r) as [r' o]. cbn in E. subst r'.
  destruct (IH (out ++ o) (set_jobs (jobs r ++ arrivals l) r)) as (l' & E). exists (l ++ l').
  rewrite E. cbn. unfold arrivals. by rewrite map_app, <- (assoc_L (++)).
Qed.

(** A start that succeeds: the flags, one wait, and jobs for devices. *)
Lemma start_run t r : (start t r).1 = r \/ (running r = false /\ (start t r).1 = reset_locked r) \/
  (running r = false /\ exists places, (start t r).1 = mkReceiver true false (active r) (active_bus r) (active_address r) (active_handle r)
     (control_session r) (sessions r) (S (waits r)) (jobs r ++ arrivals places) (input_reports r) (microphone_audio r) (io r) (usb r)).
Proof.
  unfold start. destruct (running r) eqn:Er; [by left|]. destruct (usb_init t); [|by left]. destruct (has_hotplug t); [|by left].
  destruct (registered t); cbn [negb]; [right; right|by right; left]. split; [done|].
  match goal with |- context [find_existing_aoap_device ?l ?s] => destruct (existing_jobs l s) as (places & E); destruct (find_existing_aoap_device l s) as [r' out] end.
  cbn [fst] in *. exists places. by rewrite E.
Qed.

Lemma reset_same r : let r' := reset_locked r in
  running r' = false /\ stopping r' = stopping r /\ active r' = false /\ active_handle r' = false /\ control_session r' = None /\
  length (sessions r') = length (sessions r) /\ waits r' = O /\ jobs r' = jobs r /\ input_reports r' = input_reports r /\
  microphone_audio r' = microphone_audio r /\ io r' = io r /\ usb r' = usb r.
Proof. unfold reset_locked, stop_session. cbn. repeat case_match; cbn; rewrite ?length_alter; by split_and!. Qed.

(** ** Theorems: waiting for a phone *)

Definition hub_job (j : Job) : bool := match j with HubReports _ _ _ | HubFails _ => true | _ => false end.
Definition failed_job (j : Job) : bool := match j with HubFails _ => true | _ => false end.

(** A phone can be found: the hub has been asked, or has answered, or there is a
    session, whose end asks again, or the I/O thread is about to do one of these. *)
Definition searching (r : Receiver) : Prop :=
  waits r <> O \/ existsb hub_job (jobs r) = true \/ control_session r <> None \/ finding (io r) = true.

Definition attended (r : Receiver) : Prop :=
  (running r = true -> stopping r = false -> searching r) /\
  (forall n, control_session r = Some n -> active r = true /\ active_handle r = true /\ S n = length (sessions r)) /\
  existsb failed_job (jobs r) = false /\
  safe (active r && active_handle r) (io r) = true /\ (costs (io r) <= 5)%nat /\
  (running r = false -> io r = []).

(** More jobs, none of them the hub's. *)
Lemma attended_more r l : Forall (fun j => hub_job j = false) l -> attended r -> attended (set_jobs (jobs r ++ l) r).
Proof.
  intros Hl (H1 & H2 & H3 & H4). assert (Hf : existsb hub_job l = false /\ existsb failed_job l = false).
  { induction Hl as [|j l Hj _ [IH1 IH2]]; [done|]. cbn. rewrite Hj, IH1, IH2. by destruct j. }
  unfold attended, searching. cbn. rewrite !existsb_app, H3. destruct Hf as [-> ->]. rewrite orb_false_r. done.
Qed.

Lemma replicate_quiet k : Forall (fun j => hub_job j = false) (replicate k SessionEnd).
Proof. by apply Forall_replicate. Qed.

Lemma arrivals_all (f : Job -> bool) places : (forall bus address, f (DeviceArrived bus address) = false) ->
  Forall (fun j => f j = false) (arrivals places).
Proof. intros H. apply Forall_fmap, Forall_true. intros []. apply H. Qed.

(** The parts of the state that matter here are those of [r]. *)
Lemma attended_same r r' :
  attended r -> running r' = running r -> stopping r' = stopping r -> active r' = active r -> active_handle r' = active_handle r ->
  control_session r' = control_session r -> length (sessions r') = length (sessions r) -> waits r' = waits r ->
  jobs r' = jobs r -> io r' = io r -> attended r'.
Proof. unfold attended, searching. intros H E1 E2 E3 E4 E5 E6 E7 E8 E9. by rewrite E1, E2, E3, E4, E5, E6, E7, E8, E9. Qed.

Lemma attended_post j r : hub_job j = false -> attended r -> attended (post j r).
Proof. intros Hj H. apply (attended_more r [j]); [by constructor|done]. Qed.

Lemma inner_finding l : forallb inner l = true -> finding l = existsb finds l.
Proof. by destruct l as [|[] l]. Qed.

Lemma costs_cons i l : costs (i :: l) = (cost i + costs l)%nat.
Proof. done. Qed.

(** An instruction makes the rest of the program shorter. *)
Lemma exec_cost i rest r : (S (costs (exec i rest r).2) <= costs (i :: rest))%nat.
Proof.
  assert (Hnil : costs [] = O) by done. rewrite costs_cons. destruct i; cbn [exec snd cost];
    try (unfold drain_input_reports, drain_microphone_audio; destruct (take_one _) as [[x|] q]);
    cbn [snd]; rewrite ?costs_cons; cbn [cost]; try case_match; rewrite ?Hnil; lia.
Qed.

Lemma io_cost r : costs (io (io_instruction r).1) = O \/ (costs (io (io_instruction r).1) < costs (io r))%nat.
Proof.
  unfold io_instruction. destruct (io r) as [|i rest] eqn:E; [by left; cbn; rewrite E|]. right.
  pose proof (exec_cost i rest r) as H. destruct (exec i rest r) as [[r' out] rest']. cbn in *. lia.
Qed.

Lemma costs_nil l : costs l = O -> l = [].
Proof. destruct l as [|[] l]; done. Qed.

(** The I/O thread alone ends its job. *)
Lemma job_ends n : forall r, (costs (io r) <= n)%nat -> io (Nat.iter n (fun r => (io_instruction r).1) r) = [].
Proof.
  induction n as [|n IH]; intros r Hn; [by apply costs_nil; cbn; lia|]. rewrite Nat.iter_succ_r. apply IH.
  destruct (io_cost r) as [H|H]; lia.
Qed.

(** The parts of [attended] in a new state, from those in the old. *)
Ltac attend :=
  unfold attended, searching; cbn; split_and!; try done; try (intros ?; congruence); try (unfold costs in *; cbn in *; lia);
  try (let Hs := fresh in intros _ Hs; first [tauto | match goal with H : stopping _ = false -> _ |- _ => destruct (H Hs) as [?|[?|[?|?]]]; solve [done | tauto] end]).

Lemma attended_exec i rest r : io r = i :: rest -> attended r -> attended (io_instruction r).1.
Proof.
  intros E (H1 & H2 & H3 & H4 & H5 & H6). pose proof (exec_cost i rest r) as Hc.
  assert (Hrun : running r = true) by (destruct (running r); [done|by rewrite H6 in E]).
  unfold io_instruction. rewrite E in *. specialize (H1 Hrun). unfold searching in H1. rewrite E in H1.
  assert (Hkeep : forallb inner rest = true -> finding (i :: rest) = existsb finds rest -> safe (active r && active_handle r) rest = true ->
    attended (set_io rest r)).
  { intros Hi Hh Hs. rewrite Hh, <- (inner_finding rest Hi) in H1. attend. }
  assert (Hpass : finding (i :: rest) = false -> safe (active r && active_handle r) rest = true -> attended (set_io rest r)).
  { intros Hf Hs. rewrite Hf in H1. attend. }
  assert (Hdrop : finding (i :: rest) = false -> attended (set_io [] r)).
  { intros Hf. rewrite Hf in H1. attend. }
  assert (Hlook : finding (i :: rest) = false -> rest = [] -> attended (set_io rest r)) by (intros Hf ->; by apply Hdrop).
  destruct i; cbn [exec safe] in *; try done; rewrite ?andb_true_iff in H4.
  - destruct (stopping r) eqn:Es; [|destruct H4; by apply Hkeep]. attend.
  - destruct (_ || _); [by apply Hdrop|]. destruct H4. by apply Hpass.
  - destruct (_ || _); [by apply Hdrop|]. destruct H4. by apply Hpass.
  - destruct H4 as [[Hi Hf] Hs]. rewrite <- (inner_finding _ Hi) in Hf. attend.
  - destruct H4 as [Hi Hs]. cbn in H1. rewrite <- (inner_finding _ Hi) in H1. attend.
    intros n Hn. by destruct (H2 n Hn) as (_ & _ & ?).
  - destruct H4. by apply Hkeep.
  - destruct H4 as [Hi Hs]. attend.
  - destruct H4 as [[Hi [Ha Hh]] Hs]. destruct (start_session_run failure r) as (k & c & b & Er).
    destruct (start_control_session failure r) as [r' out]. cbn [fst snd exec] in *. subst r'.
    rewrite Ha, Hh in Hs.
    apply (attended_more (set_io rest (mkReceiver (running r) (stopping r) (active r) (active_bus r) (active_address r) (active_handle r)
      (Some (length (sessions r))) (sessions r ++ [mkSession c b]) (waits r) (jobs r) (input_reports r) (microphone_audio r) (io r) (usb r)))
      (replicate k SessionEnd) (replicate_quiet k)).
    unfold attended. cbn [active active_handle set_io]. rewrite Ha, Hh. attend.
    { intros _ _. by right; right; left. }
    intros n [= <-]. rewrite length_app. cbn. split_and!; [done..|lia].
  - destruct rest; [|done]. unfold drain_input_reports in *. destruct (take_one (input_reports r)) as [[x|] q]; cbn [fst snd] in *;
      [|eapply attended_same; [by apply Hdrop|done..]].
    cbn in H1. attend.
  - destruct rest as [|[] [|? ?]]; try done. cbn in H1. attend.
  - destruct rest; [|done]. unfold drain_input_again. destruct (look_again _) as [[] q]; [|eapply attended_same; [by apply Hlook|done..]].
    apply (attended_post DrainInput (set_io [] (set_input q r))); [done|]. eapply attended_same; [by apply Hlook|done..].
  - destruct rest; [|done]. unfold drain_microphone_audio in *. destruct (take_one (microphone_audio r)) as [[x|] q]; cbn [fst snd] in *;
      [|eapply attended_same; [by apply Hdrop|done..]].
    cbn in H1. attend.
  - destruct rest as [|[] [|? ?]]; try done. cbn in H1. attend.
  - destruct rest; [|done]. unfold drain_microphone_again. destruct (look_again _) as [[] q]; [|eapply attended_same; [by apply Hlook|done..]].
    apply (attended_post DrainMicrophone (set_io [] (set_microphone q r))); [done|]. eapply attended_same; [by apply Hlook|done..].
  - destruct rest; [|done]. destruct (handle_jobs n e r) as (k & c & Er). destruct (handle n e r) as [r' out]. cbn [fst] in *. subst r'.
    apply (attended_more (set_io [] (update_session n c r)) (replicate k SessionEnd) (replicate_quiet k)).
    eapply attended_same; [by apply Hlook|try done..]. cbn. by rewrite length_alter.
Qed.

(** The USB thread only posts jobs for devices. *)
Definition usb_inner (i : Instr) : bool := match i with ArrivalTest | LeftTest _ | Examine _ | PostLeft => true | _ => false end.

Lemma usb_run r : forallb usb_inner (usb r) = true ->
  exists l rest, (usb_instruction r).1 = set_usb rest (set_jobs (jobs r ++ l) r) /\ forallb usb_inner rest = true /\
    Forall (fun j => j = DeviceLeft \/ exists bus address, j = DeviceArrived bus address) l.
Proof.
  unfold usb_instruction. destruct (usb r) as [|i rest] eqn:E; intros Hu.
  - exists [], []. rewrite app_nil_r. split; [|done]. destruct r; cbn in *; by subst.
  - cbn in Hu. apply andb_true_iff in Hu as [Hi Hr].
    assert (Hnil : forall rest', forallb usb_inner rest' = true -> exists l rest0, set_usb rest' r = set_usb rest0 (set_jobs (jobs r ++ l) r) /\
      forallb usb_inner rest0 = true /\ Forall (fun j => j = DeviceLeft \/ exists bus address, j = DeviceArrived bus address) l).
    { intros rest' H. exists [], rest'. rewrite app_nil_r. by destruct r. }
    destruct i; try done; cbn [exec fst].
    + apply Hnil. by destruct (_ || _).
    + apply Hnil. by destruct (_ || _).
    + destruct (examine_jobs d r) as [l El]. destruct (examine d r) as [r' out]. cbn [fst] in *. subst r'.
      exists (arrivals l), rest. split; [done|]. split; [done|]. apply Forall_fmap, Forall_true. intros [bus address]. right. by exists bus, address.
    + exists [DeviceLeft], rest. split; [done|]. split; [done|]. constructor; [by left|done].
Qed.

Lemma attended_step r i : (forall what, i <> HubSettles (inl what)) -> forallb usb_inner (usb r) = true ->
  attended r -> attended (step r i).1 /\ forallb usb_inner (usb (step r i).1) = true.
Proof.
  intros Hi Hu Ha. pose proof Ha as (H1 & H2 & H3 & H4 & H5 & H6).
  assert (Hdone : forall r', usb r' = usb r -> attended r' -> attended r' /\ forallb usb_inner (usb r') = true) by (intros r' ->; done).
  destruct i as [t|b|b| | |arrived d|result|n e| | |]; cbn [step].
  - destruct (start_run t r) as [->|[[Er ->]|[Er (places & ->)]]]; [done| |].
    + destruct (reset_same r) as (E1 & E2 & E3 & E4 & E5 & E6 & E7 & E8 & E9 & E10 & E11 & E12). apply Hdone; [done|].
      unfold attended, searching. rewrite E1, E3, E4, E5, E8, E11, (H6 Er). attend.
    + apply Hdone; [done|]. rewrite (H6 Er) in *. apply (attended_more (mkReceiver true false (active r) (active_bus r) (active_address r)
        (active_handle r) (control_session r) (sessions r) (S (waits r)) (jobs r) (input_reports r) (microphone_audio r) [] (usb r)) (arrivals places));
        [by apply arrivals_all|]. attend; by left.
  - unfold send_input_report. destruct (if _ : bool then _ else _) as [report|]; [|done]. destruct (_ || _); [done|].
    unfold push. apply Hdone; [by destruct (negb _)|]. destruct (negb _); [apply attended_post; [done|]|]; (eapply attended_same; [exact Ha|done..]).
  - unfold send_microphone_audio. destruct (bytes_eqb b []); [done|]. destruct (_ || _); [done|].
    unfold push. apply Hdone; [by destruct (negb _)|]. destruct (negb _); [apply attended_post; [done|]|]; (eapply attended_same; [exact Ha|done..]).
  - unfold stop. destruct (negb _); [done|]. apply Hdone; [done|]. attend.
  - unfold stop_joined. destruct (io r) as [|] eqn:Ei; [|done]. destruct (usb r) eqn:Eu; [|by apply Hdone]. destruct (running r && stopping r); [|by apply Hdone].
    destruct (reset_same r) as (E1 & E2 & E3 & E4 & E5 & E6 & E7 & E8 & E9 & E10 & E11 & E12). cbn [fst].
    rewrite E12, Eu. split; [|done]. unfold attended, searching. rewrite E1, E3, E4, E5, E8, E11, Ei. attend.
  - destruct (usb r) eqn:Eu; [|by apply Hdone]. destruct (running r); [|by apply Hdone]. split; [eapply attended_same; [exact Ha|done..]|]. by destruct arrived.
  - destruct (waits r) as [|w] eqn:Ew; [done|]. destruct result as [what|[[bus address] failure]]; [by destruct (Hi what)|].
    apply Hdone; [done|]. unfold attended, searching. cbn. rewrite !existsb_app, H3. cbn. rewrite orb_true_r. attend.
  - destruct (of_capability_thread e).
    + destruct (handle_jobs n e r) as (k & c & Er). destruct (handle n e r) as [r' out]. cbn [fst] in *. subst r'. apply Hdone; [done|].
      apply (attended_more (update_session n c r) (replicate k SessionEnd) (replicate_quiet k)).
      eapply attended_same; [exact Ha|try done..]. cbn. by rewrite length_alter.
    + destruct (io_free r) eqn:Ef; [|done]. apply Hdone; [done|]. unfold io_free in Ef. destruct (io r) eqn:Eio; [|by rewrite andb_false_r in Ef].
      apply andb_true_iff in Ef as [Ef _]. apply andb_true_iff in Ef as [Ef _].
      unfold searching in H1. rewrite Eio in H1. attend.
  - destruct (io_free r) eqn:Ef; [|done]. destruct (jobs r) as [|j rest] eqn:Ej; [done|]. apply Hdone; [done|].
    unfold io_free in Ef. destruct (io r) eqn:Ei; [|by rewrite andb_false_r in Ef].
    apply andb_true_iff in Ef as [Ef _]. apply andb_true_iff in Ef as [Er Es]. apply negb_true_iff in Es.
    destruct (safe_program j) as [Hsafe Hcost]. cbn in H3. apply orb_false_iff in H3 as [Hj3 Hr3].
    unfold searching in H1. rewrite Ei, Ej in H1. attend; [|by apply safe_weaken].
    destruct (H1 Er Es) as [?|[Hj|[?|?]]]; [by left| |by right; right; left|done].
    cbn in Hj. apply orb_true_iff in Hj as [Hj|Hj]; [|by right; left]. right; right; right. by destruct j.
  - destruct (io r) as [|i rest] eqn:Ei; [unfold io_instruction; by rewrite Ei|].
    split; [by apply (attended_exec i rest)|]. unfold io_instruction. rewrite Ei.
    assert (Hus : usb (exec i rest r).1.1 = usb r).
    { destruct i as [| | |d|d| | |bus address|type detail| |failure| |report| | |audio| |n e]; cbn [exec fst]; try done.
      - destruct (start_session_run failure r) as (k & c & b & Er). destruct (start_control_session failure r). cbn in *. by subst.
      - unfold drain_input_reports. by destruct (take_one _) as [[x|] q].
      - unfold drain_input_again. by destruct (look_again _) as [[] q].
      - unfold drain_microphone_audio. by destruct (take_one _) as [[x|] q].
      - unfold drain_microphone_again. by destruct (look_again _) as [[] q].
      - destruct (handle_jobs n e r) as (k & c & Er). destruct (handle n e r). cbn in *. by subst. }
    destruct (exec i rest r) as [[r' out] rest']. cbn in *. by rewrite Hus.
  - destruct (usb_run r Hu) as (l & rest & -> & Hr & Hl). split; [|done].
    assert (Hq : Forall (fun j => hub_job j = false) l) by (eapply Forall_impl; [exact Hl|]; intros j [->|(? & ? & ->)]; done).
    eapply attended_same; [exact (attended_more r l Hq Ha)|done..].
Qed.

Lemma attended_run inputs : forall r, Forall (fun i => forall what, i <> HubSettles (inl what)) inputs ->
  forallb usb_inner (usb r) = true -> attended r -> attended (run r inputs).1.
Proof.
  induction inputs as [|i inputs IH]; intros r Hi Hu Ha; [done|]. apply Forall_cons in Hi as [Hi His]. cbn.
  destruct (attended_step r i Hi Hu Ha) as [Ha' Hu']. destruct (step r i) as [r' out]. specialize (IH r' His Hu' Ha').
  by destruct (run r' inputs).
Qed.

(** C8. The receiver always finds the next phone. Whatever devices come and go, whatever
    the sessions do, calls are made and jobs run, and in any order: as long as the
    hub's discovery itself has not failed, a receiver that runs has asked the hub for
    a phone, or has its answer in its queue, or holds a session, or is in a job that is
    about to ask the hub or to start a session; a job ends within five steps of the
    I/O thread; and the session that it holds is the last one that was started, with a
    device behind it. *)
Theorem phone_awaited inputs :
  Forall (fun i => forall what, i <> HubSettles (inl what)) inputs ->
  let r := (run new_receiver inputs).1 in
  (running r = true -> stopping r = false ->
     waits r <> O \/ existsb hub_job (jobs r) = true \/ control_session r <> None \/ finding (io r) = true) /\
  io (Nat.iter 5 (fun r => (step r IoStep).1) r) = [] /\
  (forall n, control_session r = Some n -> active r = true /\ active_handle r = true /\ S n = length (sessions r)).
Proof.
  intros Hi. assert (H0 : attended new_receiver) by (unfold attended, searching; cbn; split_and!; try done; lia).
  pose proof (attended_run inputs new_receiver Hi eq_refl H0) as (H1 & H2 & _ & _ & H5 & _). split; [done|]. split; [|done].
  by apply job_ends.
Qed.

End Receiver.

(** ** Examples *)

(** A parser that takes every report as it is. *)
#[local] Abbreviation runs := (run (Report := Bytes) Some).

Definition plain_start : StartTurn := mkStartTurn true true true (Some []).
Definition phone_at (address : Z) : Input := HubSettles (inr (1, address, None)).
Definition events (out : list (Output (Report := Bytes))) : list ReceiverEvent :=
  omap (fun o => match o with Emitted type _ => Some type | _ => None end) out.

(** The next job of the I/O thread, and a handler, from beginning to end. *)
Definition whole_job : list Input := RunJob :: replicate 5 IoStep.
Definition whole_event (n : nat) (e : ControlEvent) : list Input := [SessionEvent n e; IoStep].
Definition gone : ControlEvent := OnChannelError (mkError true 1 (bs "gone")).

(** A phone comes, its session starts, and it ends. *)
Definition one_phone : list Input :=
  [Start plain_start; phone_at 7] ++ whole_job ++ whole_event 0 gone ++ whole_job.

Example one_phone_events :
  events (runs new_receiver one_phone).2 = [WaitingForPhone; AoapTransportReady; TransportTeardown; Disconnected; WaitingForPhone].
Proof. by vm_compute. Qed.

(** Also in the middle of the job that takes the session down. *)
Definition before_arming : list Input := take 13 one_phone.

Lemma phone_awaited_witness :
  let r := (runs new_receiver before_arming).1 in
  control_session r = None /\ waits r = O /\
  (waits r <> O \/ existsb hub_job (jobs r) = true \/ control_session r <> None \/ finding (io r) = true).
Proof.
  cbv zeta. split; [by vm_compute|]. split; [by vm_compute|].
  apply (proj1 (phone_awaited Some before_arming ltac:(repeat constructor; discriminate))); by vm_compute.
Defined.

(** When the cable is pulled, the session's transport fails and libusb says that the
    device has left, while the first job is still queued: both jobs report the phone's
    disconnection and both ask the hub for the next phone. *)
Example unplugged_is_reported_twice :
  let '(r, out) := runs new_receiver
    ([Start plain_start; phone_at 7] ++ whole_job ++ whole_event 0 gone ++
     [Device_ false (mkDevice 1 7 None false); UsbStep; UsbStep] ++ whole_job ++ whole_job) in
  events out = [WaitingForPhone; AoapTransportReady; TransportTeardown; Disconnected; WaitingForPhone; Disconnected; WaitingForPhone] /\
  waits r = 2%nat.
Proof. vm_compute. by split. Qed.

(** When the hub's discovery fails once, the receiver goes on running and never
    asks it again. *)
Example discovery_error_is_final :
  let '(r, out) := runs new_receiver ([Start plain_start; HubSettles (inl (bs "busy"))] ++ whole_job) in
  events out = [WaitingForPhone; ReceiverError] /\ running r = true /\ waits r = O /\ jobs r = [] /\ io r = [] /\ control_session r = None.
Proof. vm_compute. by split_and!. Qed.

(** The end of a session does not say whose it is: an error that an old session reports
    late takes down the next phone's session. *)
Example late_error_ends_next_session :
  let '(r, out) := runs new_receiver
    ([Start plain_start; phone_at 7] ++ whole_job ++ [Device_ false (mkDevice 1 7 None false); UsbStep; UsbStep] ++ whole_job ++
     [phone_at 8] ++ whole_job ++ whole_event 0 gone ++ whole_job) in
  control_session r = None /\ map failed (map control (sessions r)) = [true; false].
Proof. vm_compute. by split. Qed.

(** A session whose channels cannot be created is still the one that reports are
    passed to, until the job that takes it down: a drain that was posted before it
    follows a null pointer. *)
Example report_to_broken_session :
  Crashed ∈ (runs new_receiver
    ([Start plain_start; HubSettles (inr (1, 7, Some (mkError true 5 (bs "claim")))); SendInput [1]] ++ whole_job ++ whole_job)).2.
Proof. vm_compute. by repeat (apply elem_of_cons; (by left) || right). Qed.

(** A phone that is in accessory mode when the receiver starts is held without a
    session; it is the hub that has to find it. *)
Example existing_phone_has_no_session :
  let '(r, out) := runs new_receiver
    (Start (mkStartTurn true true true (Some [mkDevice 1 7 (Some (0x18D1, 0x2D00)) true])) :: whole_job) in
  active r = true /\ control_session r = None /\ events out = [WaitingForPhone].
Proof. vm_compute. by split_and!. Qed.
