(* ===== verification/ReceiverReports.v ===== *)
(** * What becomes of the reports, and stopping

    The second half of the theorems on [WiredReceiver]: the reports and the packets that a
    drain takes, passes on and looks again for, with the other threads in between; what a
    stop leaves; and that the queue of reports is the bounded queue of [IngressQueue]. *)

From S2P Require Import Prelude Text IngressQueue ReceiverTypes AndroidAuto WiredReceiver.
#[local] Open Scope Z_scope.

Section Reports.
Context {Report : Type}.
Context (ParseFromArray : Bytes -> option Report).
#[local] Abbreviation Receiver := (WiredReceiver.Receiver (Report := Report)).
#[local] Abbreviation Output := (WiredReceiver.Output (Report := Report)).
#[local] Abbreviation Instr := (WiredReceiver.Instr (Report := Report)).
#[local] Abbreviation step := (WiredReceiver.step ParseFromArray).
#[local] Abbreviation run := (WiredReceiver.run ParseFromArray).
#[local] Abbreviation send_input_report := (WiredReceiver.send_input_report ParseFromArray).
Implicit Types (r : Receiver) (o : Output).

(** ** Theorems: reports *)

Definition is_pass (i : Instr) : bool := match i with PassInput _ | PassMicrophone _ => true | _ => false end.

(** Only the next instruction passes anything on. *)
Definition alone (l : list Instr) : Prop := Forall (fun i => is_pass i = false) (tail l).

(** The report, or the packet, that a drain has taken and not passed on. *)
Definition in_hand (l : list Instr) : list Report := omap (fun i => match i with PassInput report => Some report | _ => None end) l.
Definition packet_in_hand (l : list Instr) : list Bytes :=
  omap (fun i => match i with PassMicrophone audio => Some audio | _ => None end) l.

(** The reports that reached the session, and those that reached it or found none. *)
Definition passed (o : Output) : option Report := match o with PassedInput _ report => Some report | _ => None end.
Definition heard (o : Output) : option Report := match o with PassedInput _ report | Unheard report => Some report | _ => None end.
Definition heard_packet (o : Output) : option Bytes :=
  match o with PassedMicrophone _ audio | UnheardAudio audio => Some audio | _ => None end.

Lemma no_hand l : Forall (fun i => is_pass i = false) l -> in_hand l = [] /\ packet_in_hand l = [].
Proof. induction 1 as [|i l Hi _ [IH1 IH2]]; [done|]. by destruct i. Qed.

Lemma alone_hand i rest : alone (i :: rest) ->
  in_hand (i :: rest) = in_hand [i] /\ packet_in_hand (i :: rest) = packet_in_hand [i] /\ in_hand rest = [] /\ packet_in_hand rest = [].
Proof. intros [H1 H2]%no_hand. unfold in_hand, packet_in_hand in *. cbn in *. rewrite H1, H2. by destruct i. Qed.

Lemma alone_program j : alone (program j) /\ in_hand (program j) = [].
Proof. destruct j; (split; [by repeat constructor|done]). Qed.

Lemma perform_quiet n actions : forall r, Forall (fun o : Output => (exists type detail, o = Emitted type detail) \/ exists a, o = Acted n a) (perform n actions r).2.
Proof.
  induction actions as [|a actions IH]; intros r; cbn [perform]; [constructor|].
  assert (H : forall r first, Forall (fun o : Output => (exists type detail, o = Emitted type detail) \/ exists a, o = Acted n a) first ->
    Forall (fun o => (exists type detail, o = Emitted type detail) \/ exists a, o = Acted n a)
      (let '(r'', more) := perform n actions r in (r'', first ++ more)).2).
  { intros r0 first Hf. specialize (IH r0). destruct (perform n actions r0). cbn. by apply Forall_app. }
  destruct a; apply H; first [apply Forall_nil_2|apply Forall_singleton; first [left; by eexists _, _|right; by eexists]].
Qed.

(** What an instruction may say. *)
Definition says (i : Instr) (o : Output) : Prop :=
  match i with
  | Emits type detail => o = Emitted type detail
  | Examine _ => o = Emitted ReceiverError (bs "unable to open the Android Auto AOAP USB device")
  | PassInput report => o = Unheard report \/ o = Crashed \/ exists n, o = PassedInput n report
  | PassMicrophone audio => o = UnheardAudio audio \/ o = Crashed \/ exists n, o = PassedMicrophone n audio
  | StartSession _ | Handle _ _ => (exists type detail, o = Emitted type detail) \/ exists n a, o = Acted n a
  | _ => False
  end.

Lemma handle_says n e r : Forall (fun o : Output => (exists type detail, o = Emitted type detail) \/ exists a, o = Acted n a) (handle n e r).2.
Proof.
  unfold handle. destruct (sessions r !! n) as [s|]; [|constructor]. destruct (control_step (control s) e). apply perform_quiet.
Qed.

Lemma exec_says i rest r : Forall (says i) (exec i rest r).1.2.
Proof.
  destruct i; cbn [exec fst snd says]; try (by constructor).
  - unfold examine. repeat case_match; by repeat constructor.
  - unfold start_control_session. destruct (control_start failure new_control) as [c actions].
    eapply Forall_impl; [apply perform_quiet|]. intros o [H|[a H]]; [by left|right; by eexists _, _].
  - unfold drain_input_reports. destruct (take_one _) as [[x|] q]; constructor.
  - unfold pass_input. destruct (control_session r) as [n|]; [|by repeat constructor; left].
    destruct (no_channel n r); apply Forall_singleton; [by right; left|right; right; by eexists].
  - unfold drain_microphone_audio. destruct (take_one _) as [[x|] q]; constructor.
  - unfold pass_microphone. destruct (control_session r) as [n|]; [|by repeat constructor; left].
    destruct (no_channel n r); apply Forall_singleton; [by right; left|right; right; by eexists].
  - eapply Forall_impl; [apply handle_says|]. intros o [H|[a H]]; [by left|right; by eexists _, _].
Qed.

(** What an instruction leaves of its program: nothing, the rest, or what passes on
    the entry that it took. *)
Lemma exec_rest i rest r : let rest' := (exec i rest r).2 in
  rest' = [] \/ rest' = rest \/
  (exists report q, i = TakeInput /\ take_one (input_reports r) = (Some report, q) /\ rest' = PassInput report :: LookInput :: rest) \/
  (exists audio q, i = TakeMicrophone /\ take_one (microphone_audio r) = (Some audio, q) /\ rest' = PassMicrophone audio :: LookMicrophone :: rest).
Proof.
  cbv zeta. destruct i; cbn [exec snd]; try (case_match; by auto); auto.
  - unfold drain_input_reports. destruct (take_one _) as [[x|] q] eqn:E; [|by left]. right; right; left. by exists x, q.
  - unfold drain_microphone_audio. destruct (take_one _) as [[x|] q] eqn:E; [|by left]. right; right; right. by exists x, q.
Qed.

(** What an instruction does to the rest of the state. *)
Lemma exec_state i rest r : let r' := (exec i rest r).1.1 in
  running r' = running r /\ stopping r' = stopping r /\ io r' = io r /\ usb r' = usb r /\
  (input_reports r' = input_reports r \/ i = TakeInput /\ input_reports r' = (take_one (input_reports r)).2 \/
   i = LookInput /\ input_reports r' = (look_again (input_reports r)).2) /\
  (microphone_audio r' = microphone_audio r \/ i = TakeMicrophone /\ microphone_audio r' = (take_one (microphone_audio r)).2 \/
   i = LookMicrophone /\ microphone_audio r' = (look_again (microphone_audio r)).2).
Proof.
  cbv zeta. destruct i as [| | |d|d| | |bus address|type detail| |failure| |report| | |audio| |n e]; cbn [exec fst];
    try (split_and!; by auto).
  - destruct (examine_jobs d r) as [l El]. destruct (examine d r). cbn in *. subst. split_and!; auto.
  - destruct (start_session_run failure r) as (k & c & b & Er). destruct (start_control_session failure r). cbn in *. subst. split_and!; auto.
  - unfold drain_input_reports. destruct (take_one _) as [[x|] q]; cbn; split_and!; auto.
  - unfold drain_input_again. destruct (look_again _) as [[] q]; cbn; split_and!; auto.
  - unfold drain_microphone_audio. destruct (take_one _) as [[x|] q]; cbn; split_and!; auto.
  - unfold drain_microphone_again. destruct (look_again _) as [[] q]; cbn; split_and!; auto.
  - destruct (handle_jobs n e r) as (k & c & Er). destruct (handle n e r). cbn in *. subst. split_and!; auto.
Qed.

(** The reports that are taken in. *)
Definition accepted (r : Receiver) (i : Input) : list Report :=
  match i with
  | SendInput b =>
      if negb (running r) || stopping r || (INT_MAX <? size_of b) then []
      else match ParseFromArray b with Some report => [report] | None => [] end
  | _ => []
  end.

Fixpoint all_accepted (r : Receiver) (inputs : list Input) : list Report :=
  match inputs with
  | [] => []
  | i :: inputs => accepted r i ++ all_accepted (step r i).1 inputs
  end.

(** Outputs that say nothing of reports. *)
Lemma quiet_heard out : Forall (fun o : Output => heard o = None) out -> omap heard out = [].
Proof. induction 1 as [|o out Ho _ IH]; [done|]. cbn. by rewrite Ho. Qed.

Lemma says_heard i o : says i o -> is_pass i = false -> heard o = None.
Proof. destruct i; cbn; try done; try (by intros ->); intros [(? & ? & ->)|(? & ? & ->)]; done. Qed.

Lemma pass_heard report r : omap heard (pass_input report r) `sublist_of` [report].
Proof.
  unfold pass_input. destruct (control_session r) as [n|]; [|done]. destruct (no_channel n r); [apply sublist_nil_l|done].
Qed.

Lemma start_quiet t r : Forall (fun o => heard o = None) (start t r).2.
Proof.
  assert (Ha : forall d r, Forall (fun o : Output => heard o = None) (handle_device_arrival d r).2)
    by (intros d r0; unfold handle_device_arrival, examine; repeat case_match; by repeat constructor).
  assert (H : forall l r out, Forall (fun o : Output => heard o = None) out ->
    Forall (fun o => heard o = None) (fold_left (fun s d => let '(r, out) := handle_device_arrival d s.1 in (r, s.2 ++ out)) l (r, out)).2).
  { induction l as [|d l IH]; intros r0 out Ho; [done|]. cbn. specialize (Ha d r0).
    destruct (handle_device_arrival d r0) as [r' o]. apply IH. by apply Forall_app. }
  unfold start. repeat (destruct (_ : bool); [by repeat constructor|]).
  match goal with |- context [find_existing_aoap_device ?l ?s] => specialize (H (default [] l) s [] (Forall_nil_2 _)); unfold find_existing_aoap_device; destruct (fold_left _ _ _) as [r' o] end.
  cbn [snd] in *. apply Forall_app. split; [done|by repeat constructor].
Qed.

(** An instruction that has nothing to do with the reports. *)
Definition apart (i : Instr) : bool := match i with TakeInput | PassInput _ | LookInput => false | _ => true end.

Lemma exec_apart i rest r : apart i = true -> input_reports (exec i rest r).1.1 = input_reports r /\ omap heard (exec i rest r).1.2 = [].
Proof.
  intros Hi. split.
  - destruct (exec_state i rest r) as (_ & _ & _ & _ & [H|[[-> _]|[-> _]]] & _); done.
  - apply quiet_heard. eapply Forall_impl; [apply exec_says|]. intros o Ho.
    destruct i; try done; cbn in Ho; try (by subst o); try (by destruct Ho as [(? & ? & ->)|(? & ? & ->)]).
    by destruct Ho as [->|[->|[? ->]]].
Qed.

Lemma exec_alone i rest r : alone (i :: rest) -> alone (exec i rest r).2.
Proof.
  intros Ha. destruct (exec_rest i rest r) as [->|[->|[(x & q & _ & _ & ->)|(x & q & _ & _ & ->)]]]; cbn in *; [constructor| | |].
  - destruct rest; [constructor|]. by inversion Ha.
  - by constructor.
  - by constructor.
Qed.

(** One instruction of the I/O thread: what it passes on was in hand, and what it takes
    in hand was the first of the queue. *)
Lemma io_hand r : alone (io r) ->
  omap heard (io_instruction r).2 ++ in_hand (io (io_instruction r).1) ++ items (input_reports (io_instruction r).1)
    `sublist_of` in_hand (io r) ++ items (input_reports r).
Proof.
  unfold io_instruction. destruct (io r) as [|i rest] eqn:E; [by cbn [fst snd]; rewrite E|]. intros Ha.
  destruct (alone_hand i rest Ha) as (Hi & _ & Hrest & _). rewrite Hi.
  destruct (apart i) eqn:Eap.
  - destruct (exec_apart i rest r Eap) as [Hq Ho]. pose proof (exec_rest i rest r) as Hr.
    destruct (exec i rest r) as [[r' out] rest']. cbn [fst snd set_io io input_reports] in *. rewrite Hq, Ho.
    assert (in_hand rest' = []) as ->; [|apply sublist_inserts_l; done].
    destruct Hr as [->|[->|[(x & q & -> & _)|(x & q & _ & _ & ->)]]]; try done.
  - destruct i; try done; cbn [exec].
    + unfold drain_input_reports, take_one. destruct (items (input_reports r)) as [|x l]; cbn; [done|].
      unfold in_hand in Hrest. cbn in Hrest. by rewrite Hrest.
    + cbn [set_io io input_reports fst snd]. rewrite Hrest. cbn [app]. apply sublist_app; [apply pass_heard|done].
    + unfold drain_input_again, look_again. destruct (items (input_reports r)) eqn:El; cbn [set_io io input_reports fst snd post set_input items];
        rewrite Hrest; cbn; by rewrite ?El.
Qed.

Lemma usb_quiet r : forallb usb_inner (usb r) = true -> Forall (fun o => heard o = None) (usb_instruction r).2.
Proof.
  unfold usb_instruction. destruct (usb r) as [|i rest]; [constructor|]. cbn. intros [Hi _]%andb_true_iff.
  pose proof (exec_says i rest r) as Hs. destruct (exec i rest r) as [[r' out] rest']. cbn in *.
  eapply Forall_impl; [exact Hs|]. intros o Ho. destruct i; try done. cbn in Ho. by subst.
Qed.

Lemma rest_within {A} (x : A) rest l : x :: rest ⊆ l -> x ∈ l /\ rest ⊆ l.
Proof. intros H. split; [apply H; by left|intros y Hy; apply H; by right]. Qed.

(** The two threads are in programs of their own. *)
Definition orderly (r : Receiver) : Prop := alone (io r) /\ forallb usb_inner (usb r) = true.

Lemma step_state r i : orderly r ->
  let r' := (step r i).1 in
  orderly r' /\
  omap heard (step r i).2 ++ in_hand (io r') ++ items (input_reports r') `sublist_of`
    (in_hand (io r) ++ items (input_reports r)) ++ accepted r i.
Proof.
  intros [Ha Hu]. cbv zeta.
  assert (Hkeep : forall r' out, io r' = io r -> usb r' = usb r -> items (input_reports r') `sublist_of` items (input_reports r) ->
    Forall (fun o => heard o = None) out ->
    orderly (r', out).1 /\ omap heard (r', out).2 ++ in_hand (io (r', out).1) ++ items (input_reports (r', out).1) `sublist_of`
      (in_hand (io r) ++ items (input_reports r)) ++ accepted r i).
  { intros r' out E1 E2 E3 E4. cbn [fst snd]. rewrite (quiet_heard out E4). unfold orderly. rewrite E1, E2. split; [done|].
    cbn [app]. apply sublist_inserts_r. by apply sublist_app. }
  destruct i as [t|b|b| | |arrived d|result|n e| | |]; cbn [step].
  - pose proof (start_quiet t r) as Hq. destruct (start_run t r) as [E|[[_ E]|[_ (places & E)]]];
      destruct (start t r) as [r' out]; cbn [fst snd] in *; subst r'; apply Hkeep; try done.
    all: destruct (reset_same r) as (_ & _ & _ & _ & _ & _ & _ & _ & E9 & _ & E11 & E12); by rewrite ?E9, ?E11, ?E12.
  - unfold send_input_report, accepted. destruct (INT_MAX <? size_of b); [rewrite orb_true_r, app_nil_r; by repeat split|]. rewrite orb_false_r.
    destruct (ParseFromArray b) as [report|]; [|destruct (_ || _); rewrite app_nil_r; by repeat split].
    destruct (_ || _); [rewrite app_nil_r; by repeat split|]. unfold push.
    assert (Hs : in_hand (io r) ++ (if (kMaximumInputReports <=? length (items (input_reports r)))%nat then tail (items (input_reports r)) else items (input_reports r)) ++ [report]
      `sublist_of` (in_hand (io r) ++ items (input_reports r)) ++ [report]).
    { rewrite <- (assoc_L (++)). apply sublist_app; [done|]. apply sublist_app; [|done].
      destruct (_ <=? _)%nat; [|done]. destruct (items (input_reports r)); [done|by apply sublist_cons]. }
    destruct (negb (posted (input_reports r))); (split; [by split|exact Hs]).
  - unfold send_microphone_audio. destruct (bytes_eqb b []); [apply Hkeep; by repeat constructor|].
    destruct (_ || _); [apply Hkeep; by repeat constructor|]. unfold push. apply Hkeep; try (by destruct (negb _)); by repeat constructor.
  - unfold stop. destruct (negb _); apply Hkeep; try done. apply sublist_nil_l.
  - unfold stop_joined. destruct (io r) eqn:Ei; [|apply Hkeep; done]. destruct (usb r) eqn:Eu; [|apply Hkeep; done].
    destruct (running r && stopping r); apply Hkeep; try done.
    all: destruct (reset_same r) as (_ & _ & _ & _ & _ & _ & _ & _ & E9 & _ & E11 & E12); rewrite ?E9, ?E11, ?E12; done.
  - destruct (usb r) eqn:Eu; [|apply Hkeep; done]. destruct (running r); [|apply Hkeep; done].
    destruct (Hkeep r [] eq_refl Eu) as [_ Hs]; [done|constructor|]. split; [split; [done|by destruct arrived]|exact Hs].
  - destruct (waits r) as [|w]; apply Hkeep; done.
  - destruct (of_capability_thread e).
    + pose proof (handle_says n e r) as Hq. destruct (handle_jobs n e r) as (k & c & Er). destruct (handle n e r) as [r' out].
      cbn [fst snd] in *. subst r'. apply Hkeep; try done. eapply Forall_impl; [exact Hq|]. by intros o [(? & ? & ->)|(? & ->)].
    + destruct (io_free r) eqn:Ef; [|apply Hkeep; done]. unfold io_free in Ef. destruct (io r) eqn:Ei; [|by rewrite andb_false_r in Ef].
      cbn. rewrite app_nil_r. split; [split; [constructor|done]|done].
  - destruct (io_free r) eqn:Ef; [|apply Hkeep; done]. destruct (jobs r) as [|j rest]; [apply Hkeep; done|].
    unfold io_free in Ef. destruct (io r) eqn:Ei; [|by rewrite andb_false_r in Ef].
    destruct (alone_program j) as [Hj Hin]. cbn [fst snd set_io set_jobs io input_reports accepted]. rewrite Hin, app_nil_r. by repeat split.
  - rewrite app_nil_r. split; [|by apply io_hand]. unfold io_instruction. destruct (io r) as [|i rest] eqn:E; [split; cbn [fst]; [by rewrite E|done]|].
    pose proof (exec_alone i rest r Ha) as Hal. pose proof (exec_state i rest r) as (_ & _ & _ & Hus & _).
    destruct (exec i rest r) as [[r' out] rest']. cbn in *. split; [done|]. by rewrite <- Hus in Hu.
  - pose proof (usb_quiet r Hu) as Hq. destruct (usb_run r Hu) as (l & rest & E & Hr & _). destruct (usb_instruction r) as [r' out].
    cbn [fst snd] in *. subst r'. rewrite (quiet_heard out Hq), app_nil_r. by repeat split.
Qed.

Lemma orderly_new : orderly new_receiver.
Proof. by repeat constructor. Qed.

Lemma orderly_run inputs : forall r, orderly r -> orderly (run r inputs).1.
Proof.
  induction inputs as [|i inputs IH]; intros r Hr; [done|]. cbn. destruct (step_state r i Hr) as [H _].
  destruct (step r i) as [r' out]. specialize (IH r' H). by destruct (run r' inputs).
Qed.

Lemma heard_run inputs : forall r, orderly r ->
  omap heard (run r inputs).2 ++ in_hand (io (run r inputs).1) ++ items (input_reports (run r inputs).1) `sublist_of`
    (in_hand (io r) ++ items (input_reports r)) ++ all_accepted r inputs.
Proof.
  induction inputs as [|i inputs IH]; intros r Hr; cbn [run all_accepted]; [cbn; by rewrite app_nil_r|].
  destruct (step_state r i Hr) as [Ho Hs]. destruct (step r i) as [r' out]. cbn [fst snd] in *. specialize (IH r' Ho).
  destruct (run r' inputs) as [r'' more]. cbn [fst snd] in *. rewrite omap_app, <- (assoc_L (++)), (assoc_L (++) _ (accepted r i)).
  etrans; [apply sublist_app; [done|exact IH]|]. rewrite (assoc_L (++)). by apply sublist_app.
Qed.

(** What reaches a session is some of what was accepted, in order, also across stops and
    starts. *)
Lemma passed_accepted inputs :
  omap passed (run new_receiver inputs).2 `sublist_of` all_accepted new_receiver inputs.
Proof.
  pose proof (heard_run inputs new_receiver orderly_new) as H. cbn [app in_hand new_receiver io omap list_omap input_reports items new_ingress] in H.
  etrans; [|exact H]. apply sublist_inserts_r. generalize (run new_receiver inputs).2. intros out.
  induction out as [|o out IH]; [done|]. destruct o; cbn; try exact IH; [by apply sublist_skip|by apply sublist_cons].
Qed.

(** ** Theorems: stopping *)

Definition refused (o : Output) : Prop := o = SentInput false \/ o = SentMicrophone false.

Definition stopped_state (r : Receiver) : Prop :=
  stopping r = true /\ items (input_reports r) = [] /\ items (microphone_audio r) = [] /\
  (running r = false -> control_session r = None /\ active r = false /\ active_handle r = false /\ waits r = O /\
     io r = [] /\ usb r = []).

(** A callback that has not looked at the flags yet. *)
Definition guarded (l : list Instr) : bool :=
  match l with [] | ArrivalTest :: _ | LeftTest _ :: _ => true | _ => false end.

(** What is left of the programs of [r0]; a callback that began later is still before its
    test. *)
Definition winding_down (r0 r : Receiver) : Prop :=
  io r ⊆ io r0 /\ (guarded (usb r) = true \/ usb r ⊆ usb r0).

(** What may still be said: refusals, and what the programs of [r0] had left to say. *)
Definition may_say (r0 : Receiver) (o : Output) : Prop := refused o \/ exists i, i ∈ io r0 ++ usb r0 /\ says i o.

Definition quieter (r r' : Receiver) (out : list Output) : Prop :=
  omap heard out ++ in_hand (io r') `sublist_of` in_hand (io r) /\
  omap heard_packet out ++ packet_in_hand (io r') `sublist_of` packet_in_hand (io r).

Lemma quieter_same r r' out : io r' = io r -> Forall refused out -> quieter r r' out.
Proof.
  intros Hi Ho. unfold quieter. rewrite Hi.
  assert (omap heard out = [] /\ omap heard_packet out = []) as [-> ->]; [|done].
  induction Ho as [|o out Ho _ [IH1 IH2]]; [done|]. by destruct Ho as [->| ->].
Qed.

Lemma heard_says i out : Forall (says i) out -> is_pass i = false -> omap heard out = [] /\ omap heard_packet out = [].
Proof.
  intros Ho Hi. induction Ho as [|o out Ho _ [IH1 IH2]]; [done|].
  assert (heard o = None /\ heard_packet o = None) as [E1 E2]; [|cbn; by rewrite E1, E2].
  destruct i; try done; cbn in Ho; try (by subst o); by destruct Ho as [(? & ? & ->)|(? & ? & ->)].
Qed.

(** Instructions of the I/O thread after the stop. *)
Lemma stopped_exec i rest r : stopped_state r -> alone (i :: rest) ->
  let '(r', out, rest') := exec i rest r in
  (rest' = [] \/ rest' = rest) /\ Forall (says i) out /\
  omap heard out ++ in_hand rest' `sublist_of` in_hand (i :: rest) /\
  omap heard_packet out ++ packet_in_hand rest' `sublist_of` packet_in_hand (i :: rest).
Proof.
  intros (Hs & Hq & Hm & _) Ha. destruct (alone_hand i rest Ha) as (E1 & E2 & E3 & E4). rewrite E1, E2.
  pose proof (exec_says i rest r) as Ho. pose proof (exec_rest i rest r) as Hr.
  assert (Hrest : (exec i rest r).2 = [] \/ (exec i rest r).2 = rest).
  { destruct Hr as [?|[?|[(x & q & _ & Ht & _)|(x & q & _ & Ht & _)]]]; [by left|by right|..];
      unfold take_one in Ht; [by rewrite Hq in Ht|by rewrite Hm in Ht]. }
  assert (Hhand : in_hand (exec i rest r).2 = [] /\ packet_in_hand (exec i rest r).2 = []) by (by destruct Hrest as [->| ->]).
  destruct (is_pass i) eqn:Ep.
  - destruct i; try done; cbn [exec fst snd] in *; rewrite E3, E4, !app_nil_r; (split; [by right|]; split; [done|]).
    + split; [apply pass_heard|]. unfold pass_input. by repeat case_match.
    + unfold pass_microphone. repeat case_match; (split; [done|first [done|apply sublist_nil_l]]).
  - destruct (heard_says i _ Ho Ep) as [H1 H2]. destruct (exec i rest r) as [[r' out] rest']. cbn [fst snd] in *.
    destruct Hhand as [-> ->]. rewrite H1, H2. split_and!; try done; apply sublist_nil_l.
Qed.

Lemma stopped_state_exec i rest r : stopped_state r -> running r = true -> stopped_state (exec i rest r).1.1.
Proof.
  intros (Hs & Hq & Hm & _) Hr. pose proof (exec_state i rest r) as (E1 & E2 & _ & _ & E3 & E4). unfold stopped_state.
  rewrite E1, E2, Hr. split_and!; try done.
  - destruct E3 as [->|[[_ ->]|[_ ->]]]; unfold take_one, look_again; rewrite ?Hq; done.
  - destruct E4 as [->|[[_ ->]|[_ ->]]]; unfold take_one, look_again; rewrite ?Hm; done.
Qed.

Lemma stopped_step r0 r i : (forall t, i <> Start t) -> stopped_state r -> orderly r -> winding_down r0 r ->
  let r' := (step r i).1 in
  stopped_state r' /\ winding_down r0 r' /\ Forall (may_say r0) (step r i).2 /\ quieter r r' (step r i).2 /\
  (running r = false -> running r' = false /\ Forall refused (step r i).2).
Proof.
  intros Hi Hs [Ha Hu] [Hw1 Hw2]. cbv zeta. pose proof Hs as (Ht & Hq & Hm & Hr).
  assert (Hf : io_free r = false) by (unfold io_free; rewrite Ht; by destruct (running r)).
  assert (Hsame : forall r' out, stopped_state r' -> io r' = io r -> usb r' = usb r -> Forall refused out -> running r' = running r \/ running r' = false ->
    stopped_state (r', out).1 /\ winding_down r0 (r', out).1 /\ Forall (may_say r0) (r', out).2 /\ quieter r (r', out).1 (r', out).2 /\
    (running r = false -> running (r', out).1 = false /\ Forall refused (r', out).2)).
  { intros r' out H1 H2 H3 H4 H5. cbn [fst snd]. unfold winding_down. rewrite H2, H3. split_and!; try done.
    - eapply Forall_impl; [exact H4|]. intros o Ho. by left.
    - by apply quieter_same.
    - intros E. split; [|done]. destruct H5 as [->|?]; done. }
  destruct i as [t|b|b| | |arrived d|result|n e| | |]; cbn [step].
  - by destruct (Hi t).
  - unfold send_input_report. destruct (if _ : bool then _ else _); [rewrite Ht, orb_true_r|]; apply Hsame; auto; repeat constructor.
  - unfold send_microphone_audio. destruct (bytes_eqb b []); [apply Hsame; auto; by repeat constructor|].
    rewrite Ht, orb_true_r. apply Hsame; auto; by repeat constructor.
  - unfold stop. destruct (negb (running r)) eqn:E; apply Hsame; auto. apply negb_false_iff in E. split_and!; [done..|]. cbn. by rewrite E.
  - unfold stop_joined. destruct (io r) eqn:Ei; [|by apply Hsame; auto]. destruct (usb r) eqn:Eu; [|by apply Hsame; auto].
    destruct (running r && stopping r); [|by apply Hsame; auto].
    destruct (reset_same r) as (E1 & E2 & E3 & E4 & E5 & E6 & E7 & E8 & E9 & E10 & E11 & E12).
    apply Hsame; rewrite ?E11, ?E12, ?E1; auto. unfold stopped_state. rewrite E2, E3, E4, E5, E7, E9, E10, E11, E12. by split_and!.
  - destruct (usb r) eqn:Eu; [|by apply Hsame; auto]. destruct (running r) eqn:Er; [|by apply Hsame; auto].
    cbn [fst snd]. split; [unfold stopped_state; cbn; rewrite Er; by split_and!|]. split; [split; [done|left; by destruct arrived]|]. split; [constructor|]. split; [by apply quieter_same|done].
  - destruct (waits r) as [|w] eqn:Ew; [by apply Hsame; auto|]. apply Hsame; auto. split_and!; [done..|]. cbn. intros H. by destruct (Hr H) as (_ & _ & _ & ? & _).
  - destruct (of_capability_thread e) eqn:Ee; [|rewrite Hf; by apply Hsame; auto]. unfold handle.
    destruct (sessions r !! n) as [s|]; [|by apply Hsame; auto]. destruct e; try done; cbn; apply (Hsame (update_session n _ r) []); auto; by split_and!.
  - rewrite Hf. by apply Hsame; auto.
  - unfold io_instruction. destruct (io r) as [|i rest] eqn:Ei; [by apply Hsame; auto|].
    assert (Er : running r = true) by (destruct (running r); [done|]; by destruct (Hr eq_refl) as (_ & _ & _ & _ & ? & _)).
    pose proof (stopped_exec i rest r Hs Ha) as H. pose proof (stopped_state_exec i rest r Hs Er) as (S1 & S2 & S3 & _).
    pose proof (exec_state i rest r) as (Hrun & _ & _ & Hus & _). destruct (exec i rest r) as [[r' out] rest'].
    destruct H as (Hrest & Ho & Hh & Hp). cbn [fst snd] in *. rewrite Er in Hrun.
    split; [|split; [|split; [|split]]].
    + unfold stopped_state. cbn. rewrite Hrun. by split_and!.
    + unfold winding_down. cbn. rewrite Hus. split; [|done]. destruct (rest_within _ _ _ Hw1) as [_ ?]. destruct Hrest as [->| ->]; [apply list_subseteq_nil|done].
    + eapply Forall_impl; [exact Ho|]. intros o Hs'. right. exists i. split; [apply elem_of_app; left; by apply rest_within in Hw1 as [? _]|done].
    + unfold quieter. cbn. by rewrite Ei.
    + congruence.
  - unfold usb_instruction. destruct (usb r) as [|i rest] eqn:Eu; [by apply Hsame; auto|].
    assert (Er : running r = true) by (destruct (running r); [done|]; by destruct (Hr eq_refl) as (_ & _ & _ & _ & _ & ?)).
    cbn [forallb] in Hu. apply andb_true_iff in Hu as [Hin _].
    pose proof (stopped_state_exec i rest r Hs Er) as (S1 & S2 & S3 & _). pose proof (exec_says i rest r) as Ho.
    pose proof (exec_state i rest r) as (Hrun & _ & Hio & _). rewrite Er in Hrun.
    assert (Hrest : (exec i rest r).2 = [] /\ (exec i rest r).1.2 = [] \/ guarded (i :: rest) = false /\ (exec i rest r).2 = rest).
    { destruct i; try done; cbn [exec snd fst]; rewrite ?Ht, ?orb_true_r; auto. }
    assert (Hp : is_pass i = false) by by destruct i.
    destruct (heard_says i _ Ho Hp) as [H1 H2]. destruct (exec i rest r) as [[r' out] rest']. cbn [fst snd] in *.
    split; [|split; [|split; [|split]]].
    + unfold stopped_state. cbn. rewrite Hrun. by split_and!.
    + unfold winding_down. cbn. rewrite Hio. split; [done|]. destruct Hrest as [[-> _]|[Hg ->]]; [by left|].
      destruct Hw2 as [Hw2|Hw2]; [congruence|right; by apply rest_within in Hw2 as [_ ?]].
    + destruct Hrest as [[_ ->]|[Hg _]]; [constructor|]. destruct Hw2 as [Hw2|Hw2]; [congruence|].
      eapply Forall_impl; [exact Ho|]. intros o Hs'. right. exists i. split; [apply elem_of_app; right; by apply rest_within in Hw2 as [? _]|done].
    + unfold quieter. cbn. by rewrite Hio, H1, H2.
    + congruence.
Qed.

Lemma stopped_run r0 inputs : forall r, Forall (fun i => forall t, i <> Start t) inputs -> stopped_state r -> orderly r -> winding_down r0 r ->
  stopped_state (run r inputs).1 /\ Forall (may_say r0) (run r inputs).2 /\ quieter r (run r inputs).1 (run r inputs).2 /\
  (running r = false -> Forall refused (run r inputs).2).
Proof.
  induction inputs as [|i inputs IH]; intros r Hi Hs Ho Hw; [split_and!; try done; by apply quieter_same|].
  apply Forall_cons in Hi as [Hi His]. cbn [run]. destruct (stopped_step r0 r i Hi Hs Ho Hw) as (H1 & H2 & H3 & [H4 H5] & H6).
  destruct (step_state r i Ho) as [H7 _]. destruct (step r i) as [r' out]. cbn [fst snd] in *.
  destruct (IH r' His H1 H7 H2) as (I1 & I2 & [I3 I4] & I5). destruct (run r' inputs) as [r'' more]. cbn [fst snd] in *.
  split_and!; [done|by apply Forall_app| |].
  - unfold quieter. rewrite !omap_app, <- !(assoc_L (++)). split; (etrans; [apply sublist_app; [done|eassumption]|done]).
  - intros Hr. destruct (H6 Hr) as [? ?]. apply Forall_app. auto.
Qed.

Lemma stopped_stop r : running r = true -> stopped_state (stop r).
Proof. intros Hr. unfold stop. rewrite Hr. by split_and!. Qed.

Lemma stop_programs r : io (stop r) = io r /\ usb (stop r) = usb r.
Proof. unfold stop. by destruct (negb (running r)). Qed.

Lemma hand_small l : alone l -> (length (in_hand l) + length (packet_in_hand l) <= 1)%nat.
Proof.
  destruct l as [|i rest]; [cbn; lia|]. intros Ha. destruct (alone_hand i rest Ha) as (-> & -> & _). destruct i; cbn; lia.
Qed.

(** C33. A stopped receiver winds down and lets everything go. Whatever happened before, and
    whatever happens from the moment a stop is requested until the next start: every call
    is refused, and all else that is said was left in the job of the I/O thread and in the
    callback of the USB thread that were under way at that moment, no new job being begun;
    of reports and packets at most one is still passed on, which a drain had
    taken before the stop. From the moment when [stop] has joined the threads and returns,
    nothing is said but refusals, and the session, the device, the wait for a phone and
    both queues are gone. *)
Theorem nothing_after_stop before inputs :
  let r := (run new_receiver before).1 in
  running r = true -> Forall (fun i => forall t, i <> Start t) inputs ->
  let '(r', out) := run (stop r) inputs in
  Forall (fun o => refused o \/ exists i, i ∈ io r ++ usb r /\ says i o) out /\
  omap heard out `sublist_of` in_hand (io r) /\ omap heard_packet out `sublist_of` packet_in_hand (io r) /\
  (length (in_hand (io r)) + length (packet_in_hand (io r)) <= 1)%nat /\
  stopped_state r' /\
  (forall first rest, inputs = first ++ rest -> running (run (stop r) first).1 = false ->
     Forall refused (run (run (stop r) first).1 rest).2).
Proof.
  cbv zeta. set (r := (run new_receiver before).1). intros Hr Hi.
  assert (Ho : orderly r) by (apply orderly_run, orderly_new). destruct (stop_programs r) as [E1 E2].
  assert (Ho' : orderly (stop r)) by (unfold orderly; by rewrite E1, E2).
  assert (Hw : winding_down r (stop r)) by (unfold winding_down; rewrite E1, E2; split; [done|by right]).
  destruct (stopped_run r inputs (stop r) Hi (stopped_stop r Hr) Ho' Hw) as (H1 & H2 & [H3 H4] & _). rewrite E1 in H3, H4.
  assert (Hlast : forall first rest, inputs = first ++ rest -> running (run (stop r) first).1 = false ->
     Forall refused (run (run (stop r) first).1 rest).2).
  { intros first rest -> Hf. apply Forall_app in Hi as [Hi1 Hi2].
    destruct (stopped_run r first (stop r) Hi1 (stopped_stop r Hr) Ho' Hw) as (S1 & _).
    pose proof (orderly_run first (stop r) Ho') as O1. set (r1 := (run (stop r) first).1) in *.
    destruct (stopped_run r1 rest r1 Hi2 S1 O1) as (_ & _ & _ & H); [split; [done|by right]|by apply H]. }
  destruct (run (stop r) inputs) as [r' out]. cbn [fst snd] in *. split_and!; try done.
  - etrans; [|exact H3]. by apply sublist_inserts_r.
  - etrans; [|exact H4]. by apply sublist_inserts_r.
  - by apply hand_small, Ho.
Qed.

(** ** Theorems: the queue of reports *)

Definition is_drain (j : Job) : bool := match j with DrainInput => true | _ => false end.
Definition is_take (i : Instr) : bool := match i with TakeInput => true | _ => false end.
Definition is_look (i : Instr) : bool := match i with LookInput => true | _ => false end.
Definition drains (l : list Job) : nat := length (filter (fun j => is_drain j = true) l).
Definition takes (l : list Instr) : nat := length (filter (fun i => is_take i = true) l).

Definition handed {A} (e : bool * A) : option A := if e.1 then Some e.2 else None.

(** Where a drain of the reports is. *)
Inductive drain_shape : list Instr -> Prop :=
| shape_take : drain_shape [TakeInput]
| shape_pass report : drain_shape [PassInput report; LookInput]
| shape_look : drain_shape [LookInput]
| shape_none l : Forall (fun i => apart i = true) l -> drain_shape l.

Lemma shape_count l : drain_shape l ->
  length (filter (fun i => is_take i = true \/ is_look i = true) l) = (takes l + (if existsb is_look l then 1 else 0))%nat.
Proof.
  destruct 1 as [| | |l Hl]; try done. induction Hl as [|i l Hi _ IH]; [done|]. unfold takes in *. rewrite !filter_cons.
  cbn [existsb]. by destruct i.
Qed.

(** The receiver is a run of the queue. *)
Definition refines (r : Receiver) (q : Run (A := Report)) : Prop :=
  queue q = input_reports r /\ IngressQueue.jobs q = (drains (jobs r) + takes (io r))%nat /\
  between q = existsb is_look (io r) /\ drain_shape (io r).

Lemma drains_app l l' : drains (l ++ l') = (drains l + drains l')%nat.
Proof. unfold drains. by rewrite filter_app, length_app. Qed.

Lemma drains_cons j l : drains (j :: l) = ((if is_drain j then 1 else 0) + drains l)%nat.
Proof. unfold drains. rewrite filter_cons. by destruct (is_drain j). Qed.

Lemma drains_none l : Forall (fun j => is_drain j = false) l -> drains l = O.
Proof. induction 1 as [|j l Hj _ IH]; [done|]. unfold drains in *. rewrite filter_cons, Hj. done. Qed.

Lemma apart_none l : Forall (fun i => apart i = true) l -> takes l = O /\ existsb is_look l = false /\ in_hand l = [].
Proof.
  induction 1 as [|i l Hi _ (IH1 & IH2 & IH3)]; [done|]. unfold takes, in_hand in *. rewrite filter_cons. cbn. by destruct i.
Qed.

Lemma apart_program j : is_drain j = false -> Forall (fun i => apart i = true) (program j).
Proof. destruct j; try done; by repeat constructor. Qed.

Lemma refines_more r r' q l : refines r q -> input_reports r' = input_reports r -> io r' = io r -> jobs r' = jobs r ++ l ->
  Forall (fun j => is_drain j = false) l -> refines r' q.
Proof. unfold refines. intros (H1 & H2 & H3 & H4) -> -> -> Hl. rewrite drains_app, (drains_none l Hl), Nat.add_0_r. by split_and!. Qed.

Lemma refines_same r r' q : refines r q -> input_reports r' = input_reports r -> io r' = io r -> jobs r' = jobs r -> refines r' q.
Proof. intros H E1 E2 E3. apply (refines_more r r' q []); try done. by rewrite app_nil_r. Qed.

Lemma ended_quiet k : Forall (fun j => is_drain j = false) (replicate k SessionEnd).
Proof. by apply Forall_replicate. Qed.

(** An instruction of another program posts other jobs. *)
Lemma exec_jobs i rest r : apart i = true -> exists l, jobs (exec i rest r).1.1 = jobs r ++ l /\ Forall (fun j => is_drain j = false) l.
Proof.
  intros Hi. assert (H0 : exists l, jobs r = jobs r ++ l /\ Forall (fun j => is_drain j = false) l) by (exists []; by rewrite app_nil_r).
  destruct i as [| | |d|d| | |bus address|type detail| |failure| |report| | |audio| |n e]; try done; cbn [exec fst].
  - destruct (examine_jobs d r) as [l El]. destruct (examine d r). cbn in *. subst. exists (arrivals l). split; [done|]. by apply arrivals_all.
  - by exists [DeviceLeft]; split; [|repeat constructor].
  - destruct (start_session_run failure r) as (k & c & b & Er). destruct (start_control_session failure r). cbn in *. subst.
    exists (replicate k SessionEnd). split; [done|apply ended_quiet].
  - unfold drain_microphone_audio. by destruct (take_one _) as [[x|] q].
  - unfold drain_microphone_again. destruct (look_again _) as [[] q]; cbn; [|done]. by exists [DrainMicrophone]; split; [|repeat constructor].
  - destruct (handle_jobs n e r) as (k & c & Er). destruct (handle n e r). cbn in *. subst.
    exists (replicate k SessionEnd). split; [done|apply ended_quiet].
Qed.

Lemma exec_stays_apart i rest r : apart i = true -> Forall (fun i => apart i = true) rest -> Forall (fun i => apart i = true) (exec i rest r).2.
Proof.
  intros Hi Hr. destruct (exec_rest i rest r) as [->|[->|[(x & q & -> & _)|(x & q & _ & _ & ->)]]]; try done. by repeat constructor.
Qed.

(** Outcome of a step: a run of the queue that the new state is, with what was handed on. *)
Definition stepped (q : Run) (xs : list Report) (r : Receiver) (out : list Output) (hand : list Report) : Prop :=
  exists q', reachable kMaximumInputReports q' xs /\ refines r q' /\
    forall before, omap handed (left q) = before ++ hand -> omap handed (left q') = before ++ omap heard out ++ in_hand (io r).

Lemma refines_io r q xs : Crashed ∉ (io_instruction r).2 -> reachable kMaximumInputReports q xs -> refines r q ->
  stepped q xs (io_instruction r).1 (io_instruction r).2 (in_hand (io r)).
Proof.
  intros Hc Hq (H1 & H2 & H3 & H4). unfold stepped, io_instruction in *. remember (io r) as l eqn:El. destruct H4 as [|report| |l Hl].
  - exists (do_take q). assert (Hb : between q = false) by (by rewrite H3).
    assert (Hj : IngressQueue.jobs q = S (drains (jobs r))) by (rewrite H2, Nat.add_comm; done).
    split; [apply reach_take; [done|lia|done]|]. cbn [exec]. unfold drain_input_reports, do_take, refines. rewrite H1, Hj.
    destruct (take_one (input_reports r)) as [[x|] rest]; cbn -[takes drains].
    + split; [split_and!; [done|by rewrite Nat.add_0_r|done|constructor]|]. intros before Hb'. rewrite omap_app, Hb'. cbn. by rewrite app_nil_r.
    + split; [split_and!; [done|by rewrite Nat.add_0_r|done|by apply shape_none]|]. intros before Hb'. by rewrite Hb'.
  - exists q. split; [done|]. cbn [exec fst snd] in *. unfold pass_input in *. cbn [set_io io].
    destruct (control_session r) as [n|]; [destruct (no_channel n r); [destruct Hc; by left|]|]; cbn -[takes drains];
      (split; [split_and!; [done|by rewrite H2|done|constructor]|by intros before ->]).
  - exists (do_look q). split; [by apply reach_look|]. unfold do_look. rewrite H1. cbn [exec fst snd]. unfold drain_input_again.
    destruct (look_again (input_reports r)) as [[] rest]; cbn -[takes drains]; (split; [|by intros before ->]); split_and!; try done; try (by apply shape_none);
      cbn -[takes drains]; rewrite H2, ?drains_app; change (takes [LookInput]) with O; change (takes []) with O;
      try change (drains [DrainInput]) with 1%nat; lia.
  - destruct l as [|i rest].
    + exists q. split; [done|]. cbn. rewrite <- El. split; [split_and!; try done; [by rewrite <- El|by rewrite <- El|by rewrite <- El; apply shape_none]|by intros before ->].
    + pose proof Hl as Hl'. apply Forall_cons in Hl' as [Hi Hr]. exists q. split; [done|]. destruct (exec_apart i rest r Hi) as [E1 E2].
      destruct (exec_jobs i rest r Hi) as (l & E3 & Hj). pose proof (exec_stays_apart i rest r Hi Hr) as Hs.
      destruct (apart_none (i :: rest) Hl) as (A1 & A2 & A3). rewrite A3.
      destruct (exec i rest r) as [[r' out] rest']. cbn [fst snd set_io io] in *. destruct (apart_none rest' Hs) as (B1 & B2 & B3).
      rewrite E2, B3. split; [|by intros before ->]. unfold refines. cbn [set_io io WiredReceiver.jobs input_reports].
      rewrite E1, E3, B1, B2, drains_app, (drains_none l Hj). split_and!; try done; [|by rewrite H3|by apply shape_none].
      rewrite H2, A1. lia.
Qed.

Lemma refines_send b r q xs : reachable kMaximumInputReports q xs -> refines r q ->
  stepped q (xs ++ accepted r (SendInput b)) (send_input_report b r).1 (send_input_report b r).2 (in_hand (io r)).
Proof.
  intros Hq H. pose proof H as (H1 & H2 & H3 & H4).
  assert (Hsame : stepped q (xs ++ []) r [SentInput false] (in_hand (io r))) by (rewrite app_nil_r; exists q; by repeat split).
  unfold WiredReceiver.send_input_report, accepted.
  destruct (INT_MAX <? size_of b); [by rewrite orb_true_r|]. rewrite orb_false_r.
  destruct (ParseFromArray b) as [report|]; [|by destruct (_ || _)].
  destruct (_ || _); [done|]. exists (do_push kMaximumInputReports report q).
  split; [by apply reach_push|]. unfold do_push. rewrite H1. unfold push.
  assert (Hd : omap handed (left q ++ (if (kMaximumInputReports <=? length (items (input_reports r)))%nat then map (pair false) (take 1 (items (input_reports r))) else []))
    = omap handed (left q)).
  { rewrite omap_app. destruct (_ <=? _)%nat; [|by rewrite app_nil_r]. destruct (items (input_reports r)); cbn; by rewrite app_nil_r. }
  destruct (posted (input_reports r)); cbn [negb queue IngressQueue.jobs between left]; rewrite Hd; (split; [|done]).
  - by split_and!.
  - split_and!; try done. cbn -[drains takes]. rewrite H2, drains_app. change (drains [DrainInput]) with 1%nat. lia.
Qed.

Lemma refines_step r i q xs : i <> Stop -> orderly r -> Crashed ∉ (step r i).2 -> reachable kMaximumInputReports q xs -> refines r q ->
  stepped q (xs ++ accepted r i) (step r i).1 (step r i).2 (in_hand (io r)).
Proof.
  intros Hi [_ Hu] Hc Hq H.
  assert (Hsame : forall p, accepted r i = [] -> refines p.1 q -> io p.1 = io r -> omap heard p.2 = [] ->
    stepped q (xs ++ accepted r i) p.1 p.2 (in_hand (io r))).
  { intros p -> Hr E1 E2. exists q. by rewrite app_nil_r, E1, E2. }
  destruct i as [t|b|b| | |arrived d|result|n e| | |]; cbn [step] in *.
  - assert (E : refines (start t r).1 q /\ io (start t r).1 = io r); [|by apply Hsame; [done|apply E..|apply quiet_heard, start_quiet]].
    destruct (start_run t r) as [->|[[_ ->]|[_ (places & ->)]]]; [done| |].
    + destruct (reset_same r) as (_ & _ & _ & _ & _ & _ & _ & E8 & E9 & _ & E11 & _). split; [by eapply refines_same|done].
    + split; [|done]. eapply refines_more; [exact H|done..|]. by apply arrivals_all.
  - by apply refines_send.
  - unfold send_microphone_audio. destruct (bytes_eqb b []); [by apply Hsame|]. destruct (_ || _); [by apply Hsame|].
    unfold push. destruct (posted (microphone_audio r)); cbn [negb].
    + apply Hsame; [done| |done..]. by eapply refines_same.
    + apply Hsame; [done| |done..]. by apply (refines_more r _ q [DrainMicrophone]); [..|repeat constructor].
  - done.
  - destruct (reset_same r) as (_ & _ & _ & _ & _ & _ & _ & E8 & E9 & _ & E11 & _).
    assert (Hj : stop_joined r = r \/ stop_joined r = reset_locked r) by (unfold stop_joined; repeat case_match; auto).
    destruct Hj as [-> | ->]; apply Hsame; try done. by eapply refines_same.
  - destruct (usb r); [|by apply Hsame]. destruct (running r); by apply Hsame.
  - destruct (waits r) as [|w]; [by apply Hsame|]. apply Hsame; try done.
    eapply (refines_more r _ q [_]); [done..|]. constructor; [|done]. by destruct result as [|[[] ]].
  - destruct (of_capability_thread e).
    + pose proof (handle_says n e r) as Hs. destruct (handle_jobs n e r) as (k & c & Er). destruct (handle n e r) as [r' out].
      cbn [fst snd] in *. subst r'. apply (Hsame (_, out)); try done.
      * eapply refines_more; [exact H|done..|]. apply ended_quiet.
      * apply quiet_heard. eapply Forall_impl; [exact Hs|]. by intros o [(? & ? & ->)|(? & ->)].
    + destruct (io_free r) eqn:Ef; [|by apply Hsame]. unfold io_free in Ef. destruct (io r) eqn:Ei; [|by rewrite andb_false_r in Ef].
      exists q. rewrite app_nil_r. split; [done|]. split; [|done]. destruct H as (H1 & H2 & H3 & H4). rewrite Ei in *.
      split_and!; try done. by apply shape_none; repeat constructor.
  - destruct (io_free r) eqn:Ef; [|by apply Hsame]. destruct (jobs r) as [|j rest] eqn:Ej; [by apply Hsame|].
    unfold io_free in Ef. destruct (io r) eqn:Ei; [|by rewrite andb_false_r in Ef].
    exists q. rewrite app_nil_r. split; [done|]. destruct H as (H1 & H2 & H3 & H4). rewrite Ei, Ej in *. cbn [fst snd set_io set_jobs io].
    destruct (is_drain j) eqn:Ed.
    + destruct j; try done. split; [|done]. unfold refines. cbn -[drains takes]. split_and!; try done; [|constructor]. rewrite H2, drains_cons. cbn [is_drain].
      change (takes [TakeInput]) with 1%nat. change (takes []) with O. lia.
    + destruct (apart_none _ (apart_program j Ed)) as (A1 & A2 & A3). split; [|by rewrite A3]. unfold refines. cbn -[drains takes program]. rewrite A1, A2.
      split_and!; try done; [|by apply shape_none, apart_program]. by rewrite H2, drains_cons, Ed.
  - rewrite app_nil_r. by apply refines_io.
  - pose proof (usb_quiet r Hu) as Hs. destruct (usb_run r Hu) as (l & rest & E & _ & Hl). destruct (usb_instruction r) as [r' out].
    cbn [fst snd] in *. subst r'. apply (Hsame (_, out)); try done; [|by apply quiet_heard].
    eapply refines_more; [exact H|done..|]. eapply Forall_impl; [exact Hl|]. by intros j [->|(? & ? & ->)].
Qed.

Lemma refines_run inputs : forall r q xs before, Forall (fun i => i <> Stop) inputs -> Crashed ∉ (run r inputs).2 -> orderly r ->
  reachable kMaximumInputReports q xs -> refines r q -> omap handed (left q) = before ++ in_hand (io r) ->
  exists q', reachable kMaximumInputReports q' (xs ++ all_accepted r inputs) /\ refines (run r inputs).1 q' /\
    omap handed (left q') = before ++ omap heard (run r inputs).2 ++ in_hand (io (run r inputs).1).
Proof.
  induction inputs as [|i inputs IH]; intros r q xs before Hi Hc Ho Hq H Hb; cbn [WiredReceiver.run all_accepted] in *.
  - exists q. by rewrite app_nil_r.
  - apply Forall_cons in Hi as [Hi His]. destruct (step_state r i Ho) as [Ho' _].
    pose proof (refines_step r i q xs Hi Ho) as Hs. destruct (step r i) as [r' out]. cbn [fst snd] in *.
    specialize (IH r'). destruct (run r' inputs) as [r'' more]. cbn [fst snd] in *. rewrite elem_of_app in Hc.
    destruct Hs as (q1 & A & B & C); [tauto|done..|].
    destruct (IH q1 (xs ++ accepted r i) (before ++ omap heard out)) as (q2 & A' & B' & C'); try done; [tauto|rewrite <- (assoc_L (++)); by apply C|].
    exists q2. split; [by rewrite (assoc_L (++))|]. split; [done|]. by rewrite C', omap_app, <- !(assoc_L (++)).
Qed.

(** To whom a step passes a report. *)
Lemma step_passes r i : orderly r ->
  (forall n report, PassedInput n report ∈ (step r i).2 -> control_session r = Some n /\ no_channel n r = false) /\
  (forall report, Unheard report ∈ (step r i).2 -> control_session r = None).
Proof.
  intros [_ Hu]. assert (Hq : Forall (fun o => heard o = None) (step r i).2 ->
    (forall n report, PassedInput n report ∈ (step r i).2 -> control_session r = Some n /\ no_channel n r = false) /\
    (forall report, Unheard report ∈ (step r i).2 -> control_session r = None)).
  { intros Hq. rewrite Forall_forall in Hq. split; [intros n report Hin|intros report Hin]; by apply Hq in Hin. }
  destruct i as [t|b|b| | |arrived d|result|n e| | |]; cbn [WiredReceiver.step] in *.
  - apply Hq, start_quiet.
  - apply Hq. unfold WiredReceiver.send_input_report. destruct (if _ : bool then _ else _); [|by repeat constructor].
    destruct (_ || _); [by repeat constructor|]. destruct (push _ _ _). by repeat constructor.
  - apply Hq. unfold send_microphone_audio. destruct (bytes_eqb b []); [by repeat constructor|].
    destruct (_ || _); [by repeat constructor|]. destruct (push _ _ _). by repeat constructor.
  - apply Hq. constructor.
  - apply Hq. constructor.
  - apply Hq. destruct (usb r); constructor.
  - apply Hq. destruct (waits r); constructor.
  - apply Hq. destruct (of_capability_thread e); [|constructor]. eapply Forall_impl; [apply handle_says|].
    by intros o [(? & ? & ->)|(? & ->)].
  - apply Hq. destruct (io_free r); [|constructor]. destruct (jobs r); constructor.
  - unfold io_instruction in *. destruct (io r) as [|i rest]; [by apply Hq; constructor|].
    destruct (is_pass i) eqn:Ei.
    + destruct i; try done; cbn [exec snd] in *.
      * unfold pass_input in *. destruct (control_session r) as [m|].
        -- destruct (no_channel m r) eqn:En; split; [intros n x [=]%list_elem_of_singleton|intros x [=]%list_elem_of_singleton|
             intros n x [= -> _]%list_elem_of_singleton|intros x [=]%list_elem_of_singleton]; done.
        -- split; [intros n x [=]%list_elem_of_singleton|done].
      * apply Hq. unfold pass_microphone. repeat case_match; by repeat constructor.
    + pose proof (exec_says i rest r) as Hs. destruct (exec i rest r) as [[r' out] rest']. cbn [snd] in *. apply Hq.
      eapply Forall_impl; [exact Hs|]. intros o Ho. by eapply says_heard.
  - by apply Hq, usb_quiet.
Qed.

(** C9. The reports are a bounded queue. In every run until a stop in which the receiver does
    not follow the null channel of a session whose set-up failed, whatever the other
    threads do in between, the queue of input reports is a run of the queue that drops its
    oldest entry: the reports that were accepted are, in their order, those that left
    the queue and then those that wait, of which there are at most 32; those that left were
    dropped because the queue was full, or were handed on, and the ones handed on
    are, in order, those that came to the session or found none and the one, at
    most, that a drain has in hand; one drain is under way or posted exactly while the
    flag says so. A report goes to the session that the receiver holds at that moment, and is let
    go only when it holds none. When no more reports come, the drains hand on all that wait. *)
Theorem reports_refine_queue inputs :
  Forall (fun i => i <> Stop) inputs -> Crashed ∉ (run new_receiver inputs).2 ->
  let '(r, out) := run new_receiver inputs in
  (exists q : Run (A := Report),
    reachable kMaximumInputReports q (all_accepted new_receiver inputs) /\ refines r q /\
    omap handed (left q) = omap heard out ++ in_hand (io r) /\ (length (in_hand (io r)) <= 1)%nat /\
    map snd (left q) ++ items (input_reports r) = all_accepted new_receiver inputs /\
    (length (items (input_reports r)) <= 32)%nat /\
    (drains (jobs r) + length (filter (fun i => is_take i = true \/ is_look i = true) (io r)) =
       if posted (input_reports r) then 1 else 0)%nat /\
    exists n, Nat.iter n io_step q = mkRun new_ingress 0 false (left q ++ map (pair true) (items (input_reports r)))) /\
  (forall before i after, inputs = before ++ i :: after ->
     let now := (run new_receiver before).1 in
     (forall n report, PassedInput n report ∈ (step now i).2 -> control_session now = Some n /\ no_channel n now = false) /\
     (forall report, Unheard report ∈ (step now i).2 -> control_session now = None)).
Proof.
  intros Hi Hc. destruct (refines_run inputs new_receiver new_run [] [] Hi Hc orderly_new) as (q & A & B & C);
    [constructor|by split_and!; try constructor|done|].
  assert (Hpass : forall before i after, inputs = before ++ i :: after ->
     let now := (run new_receiver before).1 in
     (forall n report, PassedInput n report ∈ (step now i).2 -> control_session now = Some n /\ no_channel n now = false) /\
     (forall report, Unheard report ∈ (step now i).2 -> control_session now = None)).
  { intros before i after _. apply step_passes, orderly_run, orderly_new. }
  pose proof (orderly_run inputs _ orderly_new) as [Ha _]. destruct (run new_receiver inputs) as [r out]. cbn [fst snd] in *.
  split; [|done]. exists q. split; [done|]. split; [done|]. split; [done|].
  split; [by pose proof (hand_small _ Ha); lia|]. destruct B as (Bq & Bj & Bb & Bs). rewrite <- Bq.
  split; [by eapply accounted|]. split; [by eapply bounded; [|exact A]; unfold kMaximumInputReports; lia|].
  destruct (drains_all _ _ _ A) as (n & _ & E). split; [|by exists n].
  destruct (consistent_reachable _ _ _ A) as [Hj _]. rewrite Bj, Bb in Hj. rewrite <- Hj, <- Nat.add_assoc. f_equal. by apply shape_count.
Qed.
End Reports.

(** ** Examples *)

#[local] Abbreviation runs := (run (Report := Bytes) Some).

(** A stop between the two locks of a drain: the report that it has taken still reaches
    the session, the one behind it does not. *)
Definition until_taken : list Input :=
  [Start plain_start; phone_at 7] ++ whole_job ++ [SendInput [1]; SendInput [2]; RunJob; IoStep].

Definition wind_down : list Input := [IoStep; SendInput [3]; IoStep; StopJoined; SendMicrophone [2]].

Lemma nothing_after_stop_witness :
  let '(r, out) := runs (stop (runs new_receiver until_taken).1) wind_down in
  out = [PassedInput 0 [1]; SentInput false; SentMicrophone false] /\ stopped_state r /\
  omap heard out `sublist_of` in_hand (io (runs new_receiver until_taken).1).
Proof.
  pose proof (nothing_after_stop Some until_taken wind_down ltac:(by vm_compute) ltac:(repeat constructor; discriminate)) as H.
  assert (E : (runs (stop (runs new_receiver until_taken).1) wind_down).2 = [PassedInput 0 [1]; SentInput false; SentMicrophone false])
    by (by vm_compute).
  destruct (runs (stop (runs new_receiver until_taken).1) wind_down) as [r out]. cbn [snd] in E. destruct H as (_ & A & _ & _ & B & _).
  by split_and!.
Defined.

(** Three reports, one of which has been passed on and one of which is in hand. *)
Definition three_reports : list Input :=
  [Start plain_start; phone_at 7] ++ whole_job ++ [SendInput [1]] ++ whole_job ++ [SendInput [2]; RunJob; IoStep; SendInput [3]].

Lemma reports_refine_queue_witness :
  exists q : Run (A := Bytes), refines (runs new_receiver three_reports).1 q /\ omap handed (left q) = [[1]; [2]].
Proof.
  pose proof (reports_refine_queue Some three_reports) as H.
  assert (E : omap heard (runs new_receiver three_reports).2 ++ in_hand (io (runs new_receiver three_reports).1) = [[1]; [2]]) by (by vm_compute).
  assert (Hc : Crashed ∉ (runs new_receiver three_reports).2)
    by (vm_compute; intros Hc; repeat (apply elem_of_cons in Hc as [[=]|Hc]); by apply not_elem_of_nil in Hc).
  assert (Hi : Forall (fun i => i <> Stop) three_reports) by (repeat constructor; discriminate).
  specialize (H Hi Hc). destruct (runs new_receiver three_reports) as [r out]. destruct H as [(q & _ & B & C & _) _].
  exists q. split; [exact B|]. cbn [fst snd] in E. by rewrite C.
Defined.
