(* ===== verification/DaemonReceiver.v ===== *)
(** * The Android Auto receiver in the bridge daemon

    [src/src/bridge_daemon_main.cpp], the thread of the wired receiver: waiting for a
    configuration, the sockets it opens, the order of its start, and the callbacks that
    join the receiver to the forwarders, to the CarPlay worker and to the store of
    capabilities; and [src/src/bridge/h264_normalizer.cpp], through which the picture
    passes.  FFmpeg's filter is what its calls return. *)

From S2P Require Import Prelude Text Bplist IngressQueue DaemonLog Config HeadUnitCapabilities ReceiverTypes AndroidAuto DaemonParts MediaForwarders WiredReceiver ReceiverReports.
#[local] Open Scope Z_scope.

(** ** The normalizer *)

Record FilterSetUp := mkFilterSetUp { found : bool; allocated : bool; options_set : bool; initialized : bool }.

(** Whether there is a filter. *)
(* src/src/bridge/h264_normalizer.cpp:30-46 H264Normalizer *)
Definition new_normalizer (t : FilterSetUp) : bool :=
  if negb (found t) || negb (allocated t) then false
  else options_set t && initialized t.

(** [errors]: FFmpeg's text for a code. *)
Section Normalizer.
Context (errors : Z -> Bytes).

Inductive FilterTurn := NoPacket | Received (data : Bytes) | TryLater | EndOfStream | ReceiveFailed (code : Z).

(** [None]: the loop is still running. *)
(* src/src/bridge/h264_normalizer.cpp:86-108 H264Normalizer::normalize (receive) *)
Fixpoint receive_packets (turns : list FilterTurn) (output : list Bytes) : option (list Bytes * Bytes) :=
  match turns with
  | [] => None
  | turn :: turns =>
      match turn with
      | NoPacket => Some ([], bs "unable to allocate normalized H.264 output packet")
      | TryLater | EndOfStream => Some (output, [])
      | ReceiveFailed code => Some ([], bs "unable to receive normalized Android Auto H.264: " ++ errors code)
      | Received data => receive_packets turns (output ++ [data])
      end
  end.

(** [send]: [None] when there is no packet for the access unit, else the code. *)
(* src/src/bridge/h264_normalizer.cpp:55-110 H264Normalizer::normalize *)
Definition normalize (filter : bool) (access_unit : Bytes) (send : option Z) (turns : list FilterTurn)
    : option (list Bytes * Bytes) :=
  if negb filter then Some ([], bs "unable to initialize FFmpeg h264_metadata filter")
  else if INT_MAX <? size_of access_unit then Some ([], bs "Android Auto H.264 access unit is too large")
  else
    match send with
    | None => Some ([], bs "unable to allocate H.264 normalization packet")
    | Some code =>
        if code <? 0 then Some ([], bs "unable to normalize Android Auto H.264: " ++ errors code)
        else receive_packets turns []
    end.
End Normalizer.

(** ** Before the start *)

Definition configured (c : Config) : bool := negb (is_empty (Config.head_unit_mac c)) && negb (is_empty (wifi_interface c)).

Inductive Waited := StillWaiting | GaveUp | GoesOn.

(** A turn: whether a stop is requested at its top, and the configuration it reads.
    The second result counts the warnings. *)
(* src/src/bridge_daemon_main.cpp:506-520 run_wired_android_auto_receiver (configuration) *)
Fixpoint wait_for_configuration (turns : list (bool * Config)) (warned : bool) : Waited * nat :=
  match turns with
  | [] => (StillWaiting, O)
  | (true, _) :: _ => (GaveUp, O)
  | (false, config) :: turns =>
      if configured config then
        (** the stop is looked at once more behind the loop *)
        (match turns with (true, _) :: _ => GaveUp | _ => GoesOn end, O)
      else
        let '(r, n) := wait_for_configuration turns true in
        (r, if warned then n else S n)
  end.

(** [std::filesystem::path::operator/] with a relative name. *)
Definition join_path (dir name : Bytes) : Bytes :=
  match last dir with
  | None | Some 47 => dir ++ name
  | _ => dir ++ [47] ++ name
  end.

(* src/src/bridge_daemon_main.cpp:529-532 run_wired_android_auto_receiver (socket_dir) *)
Definition socket_dir (runtime_dir : option Bytes) : Bytes :=
  match runtime_dir with
  | Some (_ :: _ as dir) => dir
  | _ => bs "/tmp"
  end.

(* src/src/bridge_daemon_main.cpp:533-547 run_wired_android_auto_receiver (sockets) *)
Definition receiver_sockets (runtime_dir : option Bytes) (pid : Z) : Sockets :=
  let name := fun prefix => join_path (socket_dir runtime_dir) (bs prefix ++ dec pid ++ bs ".sock") in
  mkSockets (name "aa2acp-video-"%string) (name "aa2acp-media-audio-"%string) (name "aa2acp-guidance-audio-"%string)
    (name "aa2acp-system-audio-"%string) (name "aa2acp-carplay-event-"%string) (name "aa2acp-carplay-microphone-"%string).

Record ReceiverStart := mkReceiverStart {
  video_ready : bool;
  media_ready : bool;
  guidance_ready : bool;
  system_ready : bool;
  event_ready : bool;
  microphone_ready : bool;
  receiver_started : option Bytes
}.

(** [inl]: the loop of the sessions is entered; else the exit code and the line that
    says why. *)
(* src/src/bridge_daemon_main.cpp:548-563 run_wired_android_auto_receiver (forwarders) *)
Definition start_forwarders (t : ReceiverStart) : unit + Z * Bytes :=
  if negb (video_ready t) then inr (1, bs "Bridge daemon: unable to listen for Android Auto video")
  else if negb (media_ready t) || negb (guidance_ready t) || negb (system_ready t)
  then inr (1, bs "Bridge daemon: unable to listen for Android Auto audio")
  else inl tt.

(* src/src/bridge_daemon_main.cpp:740-753 run_wired_android_auto_receiver (start) *)
Definition start_receiver (t : ReceiverStart) : unit + Z * Bytes :=
  match start_forwarders t with
  | inr r => inr r
  | inl _ =>
      if negb (event_ready t) || negb (microphone_ready t) then inr (1, bs "Bridge daemon: unable to listen for CarPlay IPC")
      else
        match receiver_started t with
        | Some reason => inr (1, bs "Bridge daemon: unable to start Android Auto USB receiver: " ++ reason)
        | None => inl tt
        end
  end.

(** ** Callbacks *)

Section Wiring.
Context {Report : Type} (ParseFromArray : Bytes -> option Report).

(** The report that the protocol library makes of a key at a time. *)
Context (serialize : Z * bool -> Z -> Bytes).

Record Wiring := mkWiring {
  wired : Wired;
  receiver : Receiver (Report := Report);
  video : VideoSocketForwarder;
  media_audio_queue : Queue;
  guidance_audio_queue : Queue;
  system_audio_queue : Queue;
  event_dump : Dump
}.

Definition set_wired (w : Wired) (s : Wiring) : Wiring :=
  mkWiring w (receiver s) (video s) (media_audio_queue s) (guidance_audio_queue s) (system_audio_queue s) (event_dump s).
Definition set_receiver (r : Receiver) (s : Wiring) : Wiring :=
  mkWiring (wired s) r (video s) (media_audio_queue s) (guidance_audio_queue s) (system_audio_queue s) (event_dump s).
Definition set_video_forwarder (v : VideoSocketForwarder) (s : Wiring) : Wiring :=
  mkWiring (wired s) (receiver s) v (media_audio_queue s) (guidance_audio_queue s) (system_audio_queue s) (event_dump s).
Definition set_dump (d : Dump) (s : Wiring) : Wiring :=
  mkWiring (wired s) (receiver s) (video s) (media_audio_queue s) (guidance_audio_queue s) (system_audio_queue s) d.

(** The lines for an event; [child]: a CarPlay session is running. *)
(* src/src/bridge_daemon_main.cpp:571-629 run_wired_android_auto_receiver (event lines) *)
Definition event_lines (child : bool) (type : ReceiverEvent) (detail : Bytes) (w : Wired) : list (LogLevel * Bytes) :=
  match type with
  | WaitingForPhone => [(info, bs "Bridge daemon: Android Auto USB idle: " ++ detail)]
  | AoapTransportReady => [(info, bs "Bridge daemon: Android Auto USB transport ready: " ++ detail)]
  | ControlSessionReady => [(debug, bs "Bridge daemon: Android Auto control session ready: " ++ detail)]
  | VideoStreamConfigured => [(debug, bs "Bridge daemon: Android Auto video configured: " ++ detail)]
  | VideoStreamStarted => [(debug, bs "Bridge daemon: Android Auto video stream started")]
  | TransportTeardown => [(debug, bs "Bridge daemon: expected Android Auto USB transport teardown: " ++ detail)]
  | Disconnected =>
      (info, bs "Bridge daemon: Android Auto USB disconnected")
      :: (if child then [(info, bs "Bridge daemon: stopping CarPlay after Android Auto disconnect")] else [])
  | ReceiverError =>
      if negb (phone_disconnected w) then [(error, bs "Bridge daemon: " ++ detail)]
      else [(debug, bs "Bridge daemon: ignored Android Auto teardown error: " ++ detail)]
  end.

(** [writes]: what the writes to the capture file return, for each unit. *)
(* src/src/bridge_daemon_main.cpp:630-641 run_wired_android_auto_receiver (video) *)
Definition on_video_frame (normalized : list Bytes * Bytes) (writes : list (list (option nat))) (s : Wiring)
    : Wiring * list (LogLevel * Bytes) :=
  match normalized.1 with
  | [] => (s, [(error, bs "Bridge daemon: " ++ normalized.2)])
  | units =>
      (set_video_forwarder
         (fold_left (fun v '(i, unit) => push (nth i writes []) unit v) (imap pair units) (video s)) s, [])
  end.

(* src/src/bridge_daemon_main.cpp:642-656 run_wired_android_auto_receiver (audio) *)
Definition on_audio_frame (stream : AudioStream) (pcm : Bytes) (s : Wiring) : Wiring :=
  match stream with
  | MediaStream =>
      mkWiring (wired s) (receiver s) (video s) (push_audio pcm (media_audio_queue s)) (guidance_audio_queue s)
        (system_audio_queue s) (event_dump s)
  | GuidanceStream =>
      mkWiring (wired s) (receiver s) (video s) (media_audio_queue s) (push_audio pcm (guidance_audio_queue s))
        (system_audio_queue s) (event_dump s)
  | SystemStream =>
      mkWiring (wired s) (receiver s) (video s) (media_audio_queue s) (guidance_audio_queue s)
        (push_audio pcm (system_audio_queue s)) (event_dump s)
  end.

(* src/src/bridge_daemon_main.cpp:707-730 run_wired_android_auto_receiver (CarPlay event) *)
Definition on_carplay_event (turns : list WriteTurn) (now : Z) (bytes : Bytes) (s : Wiring)
    : Wiring * list (LogLevel * Bytes) :=
  let full := open_file (event_dump s) && negb (open_file (dump_event turns bytes (event_dump s))) in
  let lines := if full then [(debug, bs "Bridge daemon: CarPlay event diagnostic capture is full or unavailable")] else [] in
  let s := set_dump (dump_event turns bytes (event_dump s)) s in
  match carplay_input_report bytes with
  | Some key =>
      let '(r, out) := send_input_report ParseFromArray (serialize key now) (receiver s) in
      (set_receiver r s,
       lines ++ (if existsb (fun o => match o with SentInput true => true | _ => false end) out then []
                 else [(debug, bs "Bridge daemon: discarded mapped CarPlay input report")]))
  | None => (s, lines ++ [(debug, bs "Bridge daemon: CarPlay event had no supported explicit key mapping")])
  end.

(* src/src/bridge_daemon_main.cpp:731-739 run_wired_android_auto_receiver (CarPlay microphone) *)
Definition on_carplay_microphone (pcm : Bytes) (s : Wiring) : Wiring * list (LogLevel * Bytes) :=
  let '(r, out) := send_microphone_audio pcm (receiver s) in
  (set_receiver r s,
   if existsb (fun o => match o with SentMicrophone true => true | _ => false end) out then []
   else [(debug, bs "Bridge daemon: discarded CarPlay microphone packet before Android Auto microphone open")]).

(** What the receiver does, as the daemon sees it: the events and the sounds. *)
Definition on_output (o : Output (Report := Report)) (s : Wiring) : Wiring :=
  match o with
  | Emitted type _ => set_wired (on_event (wired s) type) s
  | Acted _ (AudioFrame stream data) => on_audio_frame stream data s
  | _ => s
  end.
End Wiring.

(** ** Capabilities *)

(** A turn: whether the preparation has failed, the file of the capabilities, and the
    milliseconds since the start when the turn is over. *)
Record ProviderTurn := mkProviderTurn { failed : bool; store : option Bytes; now : Z }.

Definition as_capabilities (p : HeadUnitCapabilities) : Capabilities :=
  mkCapabilities (HeadUnitCapabilities.width_pixels p) (HeadUnitCapabilities.height_pixels p) (HeadUnitCapabilities.max_fps p)
    (media_pcm_48k_stereo p) (guidance_pcm_16k_mono p) (system_pcm_16k_mono p).

(* src/src/bridge_daemon_main.cpp:665-666 run_wired_android_auto_receiver (deadline) *)
Definition kProviderDeadline : Z := 5000.

(** [mac]: the head unit of the configuration when the thread began. [None]: the loop is
    still running. *)
(* src/src/bridge_daemon_main.cpp:657-688 run_wired_android_auto_receiver (capabilities) *)
Fixpoint provide_capabilities (mac : Bytes) (turns : list ProviderTurn) : option (option Capabilities) :=
  match turns with
  | [] => None
  | t :: turns =>
      if failed t then Some None
      else
        match load_head_unit_capabilities (store t) mac with
        | Some p => Some (Some (as_capabilities p))
        | None => if now t <? kProviderDeadline then provide_capabilities mac turns else Some None
        end
  end.

(** ** Theorems: capabilities *)

(** The phone waits at most for the deadline. Whatever is in the store and whenever
    the preparation fails, the thread that answers a service discovery, which sleeps at
    least 50 ms in each turn, has an answer after at most 100 turns; and an answer
    with capabilities is what the store held for the head unit in one of them. *)
Theorem provider_returns mac turns :
  (forall i t, turns !! i = Some t -> 50 * (Z.of_nat i + 1) <= now t) -> (100 <= length turns)%nat ->
  exists answer, provide_capabilities mac (take 100 turns) = Some answer /\
    forall c, answer = Some c -> exists t p, t ∈ turns /\ failed t = false /\
      load_head_unit_capabilities (store t) mac = Some p /\ c = as_capabilities p.
Proof.
  intros Ht Hl.
  assert (H : forall n turns k, (forall i t, turns !! i = Some t -> 50 * (Z.of_nat (k + i) + 1) <= now t) ->
    (k + n = 100)%nat -> (0 < n)%nat -> (n <= length turns)%nat ->
    exists answer, provide_capabilities mac (take n turns) = Some answer /\
      forall c, answer = Some c -> exists t p, t ∈ turns /\ failed t = false /\
        load_head_unit_capabilities (store t) mac = Some p /\ c = as_capabilities p).
  { clear turns Ht Hl. intros n. induction n as [|n IH]; intros turns k Ht Hk Hn Hl; [lia|].
    destruct turns as [|t turns]; [cbn in Hl; lia|]. cbn [take provide_capabilities].
    destruct (failed t) eqn:Ef; [by eexists|].
    destruct (load_head_unit_capabilities (store t) mac) as [p|] eqn:Ep.
    { eexists. split; [done|]. intros c [= <-]. exists t, p. split_and!; [by left|done..]. }
    pose proof (Ht O t eq_refl) as H0. unfold kProviderDeadline. destruct (Z.ltb_spec (now t) 5000); [|by eexists].
    destruct (IH turns (S k)) as (answer & Ha & Hc); [|lia..|cbn in Hl; lia|].
    - intros i u Hi. replace (S k + i)%nat with (k + S i)%nat by lia. by apply Ht.
    - exists answer. split; [done|]. intros c Hac. destruct (Hc c Hac) as (u & p & Hu & ?). exists u, p. split; [by right|done]. }
  apply (H 100%nat turns O); [exact Ht|lia..|done].
Qed.

(** A store that is filled in the third turn. *)
Definition late_store : list ProviderTurn :=
  imap (fun i p => mkProviderTurn false (if Nat.ltb i 2 then None else p) (50 * (Z.of_nat i + 1)))
    (repeat (Some (profile_content (mkProfile (bs "00:11") 800 480 30 true false false))) 100).

Lemma provider_returns_witness : exists answer, provide_capabilities (bs "00:11") (take 100 late_store) = Some answer.
Proof.
  destruct (provider_returns (bs "00:11") late_store) as (answer & H & _).
  - intros i t Hi. unfold late_store in Hi. rewrite list_lookup_imap in Hi.
    destruct (repeat _ 100 !! i); [|done]. injection Hi as <-. cbn. lia.
  - unfold late_store. by rewrite length_imap, repeat_length.
  - by exists answer.
Defined.

(** What the phone is sent for an answer: the services of the discovery response. *)
Definition announced (actions : list Action) : list (list Service) :=
  omap (fun a => match a with Send ControlChannel (ServiceDiscoveryResponse l) => Some l | _ => None end) actions.

(** C12. What the head unit announced is what the phone is offered. When the [/info] of
    a head unit was read and stored, and the preparation has not failed, the thread that
    asks for the capabilities has an answer, and a session that goes on sends the phone one
    service discovery response for it: its sounds are exactly those that this head
    unit plays, each in its format, and it has one video service, whose picture is the head
    unit's, or 1280x720 when that is no size of Android Auto. *)
Theorem capabilities_reach_phone info mac p t turns c :
  head_unit_capabilities info mac = Some p ->
  failed t = false -> store t = Some (profile_content p) ->
  capability_stopping c = false -> responses c = [] ->
  exists answer offered, provide_capabilities mac (t :: turns) = Some answer /\
    announced (control_run c [CapabilityProvide answer; RunResponse]).2 = [offered] /\
    (AudioChannel MediaStream ∈ map channel_of offered <-> media_pcm_48k_stereo p = true) /\
    (AudioChannel GuidanceStream ∈ map channel_of offered <-> guidance_pcm_16k_mono p = true) /\
    (AudioChannel SystemStream ∈ map channel_of offered <-> system_pcm_16k_mono p = true) /\
    (forall stream rate bits channels, AudioService stream rate bits channels ∈ offered -> (rate, bits, channels) = format stream) /\
    let size := (HeadUnitCapabilities.width_pixels p, HeadUnitCapabilities.height_pixels p) in
    pictures_of offered = [if decide (size ∈ [(800, 480); (1920, 1080)]) then size else (1280, 720)].
Proof.
  intros Hp Hf Hs Hc Hr. exists (Some (as_capabilities p)), (services (Some (as_capabilities p))). cbn [provide_capabilities].
  rewrite Hf, Hs, (capabilities_reload info mac p Hp). split; [done|].
  split; [unfold control_run, control_step, capability_provide, run_response; cbn; by rewrite Hc, Hr; cbn; rewrite Hc|].
  split_and!; [apply services_audio..| |apply services_pictures]. apply services_format.
Qed.

Lemma capabilities_reach_phone_witness :
  exists answer offered, provide_capabilities (bs "00:11")
    [mkProviderTurn false (Some (profile_content (mkProfile (bs "00:11") 800 480 30 true false false))) 50] = Some answer /\
    announced (control_run new_control [CapabilityProvide answer; RunResponse]).2 = [offered] /\
    pictures_of offered = [(800, 480)] /\ AudioChannel MediaStream ∈ map channel_of offered.
Proof.
  destruct (capabilities_reach_phone sample_info (bs "00:11") (mkProfile (bs "00:11") 800 480 30 true false false)
    (mkProviderTurn false (Some (profile_content (mkProfile (bs "00:11") 800 480 30 true false false))) 50) [] new_control)
    as (answer & offered & H & Ho & Hm & _ & _ & _ & Hv).
  - vm_compute. reflexivity.
  - reflexivity.
  - reflexivity.
  - reflexivity.
  - reflexivity.
  - exists answer, offered. split; [exact H|]. split; [exact Ho|]. split; [exact Hv|]. apply Hm. reflexivity.
Defined.

(** The head unit is the one that was configured when the thread began: after another
    one was chosen, the phone is still offered what the first one can do, and nothing
    when only the second one has been seen. *)
Example capabilities_of_old_head_unit :
  provide_capabilities (bs "00:11")
    [mkProviderTurn false (Some (profile_content (mkProfile (bs "00:22") 800 480 30 true false false))) 5000] = Some None.
Proof. vm_compute. reflexivity. Qed.

(** ** Theorems: the sounds *)

Section WiringFacts.
Context {Report : Type}.

Definition sound (stream : AudioStream) (o : Output (Report := Report)) : option Bytes :=
  match o with
  | Acted _ (AudioFrame s data) => if decide (s = stream) then Some data else None
  | _ => None
  end.

Definition emitted (o : Output (Report := Report)) : option ReceiverEvent :=
  match o with Emitted type _ => Some type | _ => None end.

(** Each stream stays in its own pipe. Whatever the receiver does, the queue of each
    audio forwarder has taken exactly the sounds of its own stream, in their order, the
    picture's queue none of them, and the daemon's flags follow the reported events. *)
Theorem streams_kept_apart (out : list (Output (Report := Report))) (s : Wiring) :
  let s' := fold_left (fun s o => on_output o s) out s in
  media_audio_queue s' = fold_left (fun q pcm => push_audio pcm q) (omap (sound MediaStream) out) (media_audio_queue s) /\
  guidance_audio_queue s' = fold_left (fun q pcm => push_audio pcm q) (omap (sound GuidanceStream) out) (guidance_audio_queue s) /\
  system_audio_queue s' = fold_left (fun q pcm => push_audio pcm q) (omap (sound SystemStream) out) (system_audio_queue s) /\
  video s' = video s /\ wired s' = fold_left on_event (omap emitted out) (wired s).
Proof.
  cbv zeta. revert s. induction out as [|o out IH]; intros s; [done|]. cbn [fold_left].
  destruct (IH (on_output o s)) as (-> & -> & -> & -> & ->). clear IH.
  destruct o as [| | | | | | | |n []|]; try done. by destruct stream.
Qed.
End WiringFacts.

(** ** Theorems: a key *)

(** A key of the car reaches the phone. When a session with its channels is up and
    the receiver is idle, an event of the head unit that names a key, and whose report
    the protocol library can read back, is passed to that session by the next job of
    the I/O thread, in two steps. *)
Theorem key_press_delivered {Report} (ParseFromArray : Bytes -> option Report) serialize turns at_ bytes key report n (s : Wiring) :
  carplay_input_report bytes = Some key ->
  ParseFromArray (serialize key at_) = Some report -> size_of (serialize key at_) <= INT_MAX ->
  running (receiver s) = true -> stopping (receiver s) = false -> io (receiver s) = [] ->
  jobs (receiver s) = [] -> input_reports (receiver s) = new_ingress ->
  control_session (receiver s) = Some n -> no_channel n (receiver s) = false ->
  let s' := (on_carplay_event ParseFromArray serialize turns at_ bytes s).1 in
  (WiredReceiver.run ParseFromArray (receiver s') [RunJob; IoStep; IoStep]).2 = [PassedInput n report].
Proof.
  intros Hk Hp Hs Hr Hst Hd Hj Hi Hn Hc. unfold on_carplay_event. rewrite Hk. cbn [receiver set_dump].
  unfold send_input_report. replace (INT_MAX <? size_of (serialize key at_)) with false by (symmetry; apply Z.ltb_ge; lia).
  rewrite Hp, Hr, Hst, Hi. cbn. unfold io_free. cbn. rewrite Hr, Hst, Hd, Hj. cbn.
  unfold pass_input, no_channel in *. cbn. rewrite Hn in *. by rewrite Hc.
Qed.

(** A report that is its key and its state, and a receiver with one phone. *)
Definition plain_report (key : Z * bool) (at_ : Z) : Bytes := [key.1; if key.2 then 1 else 0].

Definition one_session : Receiver (Report := Bytes) :=
  (WiredReceiver.run Some new_receiver ([Start plain_start; phone_at 7] ++ whole_job)).1.

Definition one_session_wiring : Wiring (Report := Bytes) :=
  mkWiring new_wired one_session (new_video false) new_audio new_audio new_audio (mkDump false 0 []).

Definition key_event : Bytes :=
  let body := encode_bplist (PDict [(bs "keyCode", PInt 23)]) in
  sample_event (bs "Content-Length: " ++ dec (size_of body)) body.

Lemma key_press_delivered_witness :
  (WiredReceiver.run Some (receiver (on_carplay_event Some plain_report [] 0 key_event one_session_wiring).1) [RunJob; IoStep; IoStep]).2
  = [PassedInput 0 [23; 1]].
Proof.
  apply (key_press_delivered Some plain_report [] 0 key_event (23, true) [23; 1] 0 one_session_wiring); by vm_compute.
Defined.

(** ** Theorems: the sockets *)

Definition socket_list (s : Sockets) : list Bytes :=
  [video_socket s; media_audio_socket s; guidance_audio_socket s; system_audio_socket s; event_socket s; microphone_socket s].

Lemma join_path_prefix dir : exists p, forall name, join_path dir name = p ++ name.
Proof.
  unfold join_path. destruct (last dir) as [c|]; [|by exists dir].
  destruct (decide (c = 47)) as [->|Hc]; [by exists dir|]. exists (dir ++ [47]). intros name.
  rewrite <- (assoc_L (++)). destruct c as [|c|c]; try done. by do 6 (destruct c as [c|c|]; try done).
Qed.

(** The pipes of the receiver are six. In any runtime directory and for any process,
    the six paths on which the daemon listens are different, so that no listener
    unlinks the socket of another one. *)
Theorem sockets_are_distinct runtime_dir pid : NoDup (socket_list (receiver_sockets runtime_dir pid)).
Proof.
  destruct (join_path_prefix (socket_dir runtime_dir)) as [p Hp]. unfold socket_list, receiver_sockets. cbn [video_socket media_audio_socket
    guidance_audio_socket system_audio_socket event_socket microphone_socket]. rewrite !Hp. clear Hp. generalize (dec pid ++ bs ".sock"). intros name.
  repeat (apply NoDup_cons_2; [intros H; repeat (apply elem_of_cons in H as [H|H];
    [apply (inj (app p)) in H; vm_compute in H; discriminate H|]); by apply not_elem_of_nil in H|]). apply NoDup_nil_2.
Qed.
