(* ===== verification/DaemonMain.v ===== *)
(** * The bridge daemon's main function

    [src/src/bridge_daemon_main.cpp], [main]: the command line, reading the request of
    a client before its deadline, a turn of the main loop, and the order in which the
    threads are started and stopped on every way out. *)

From S2P Require Import Prelude Text Bplist FileStore Config ManagementUi DaemonParts DaemonRequests.
#[local] Open Scope Z_scope.

(** ** The command line *)

(** [std::stoul] in base ten; [None] when it throws. *)
Definition stoul (l : Bytes) : option Z :=
  let l := drop_while is_space l in
  let '(negative, l) := match l with
                        | 45 :: t => (true, t)
                        | 43 :: t => (false, t)
                        | _ => (false, l)
                        end in
  match digits_prefix l with
  | [] => None
  | ds =>
      let v := digits_value ds in
      if 2 ^ 64 - 1 <? v then None else Some (if negative : bool then u64 (- v) else v)
  end.

(** The conversion to [int]. *)
Definition to_int (v : Z) : Z := let w := u32 v in if w <? 2 ^ 31 then w else w - 2 ^ 32.

(* src/src/bridge_daemon_main.cpp:853-859 main (port) *)
Definition port_argument (value : Bytes) : Z :=
  match stoul value with
  | None => 8080
  | Some v => let port := to_int v in if (port <=? 0) || (65535 <? port) then 8080 else port
  end.

Record MainOptions := mkMainOptions { config_path : Bytes; port : Z; file_logging : bool }.

(** The first pass looks at every argument, the second skips the values. *)
(* src/src/bridge_daemon_main.cpp:822-825 main (file_logging) *)
Definition wants_file_log (arguments : list Bytes) : bool :=
  forallb (fun a => negb (bytes_eqb a (bs "--no-file-log"))) arguments.

(** [None]: the usage is printed, and the exit code is 2. *)
(* src/src/bridge_daemon_main.cpp:848-868 main (arguments) *)
Fixpoint parse_main (arguments : list Bytes) (o : MainOptions) : option MainOptions :=
  match arguments with
  | [] => Some o
  | argument :: rest =>
      let flag := if bytes_eqb argument (bs "--no-file-log") then parse_main rest o else None in
      match rest with
      | value :: rest' =>
          if bytes_eqb argument (bs "--config") then parse_main rest' (mkMainOptions value (port o) (file_logging o))
          else if bytes_eqb argument (bs "--port")
               then parse_main rest' (mkMainOptions (config_path o) (port_argument value) (file_logging o))
          else flag
      | [] => flag
      end
  end.

(* src/src/bridge_daemon_main.cpp:846-868 main (options) *)
Definition main_options (default_path : Bytes) (arguments : list Bytes) : option MainOptions :=
  parse_main arguments (mkMainOptions default_path 8080 (wants_file_log arguments)).

(** ** Reading a request *)

(** A turn: the milliseconds since the client was taken, whether it becomes readable
    in time, and what is received. *)
Record ReadTurn := mkReadTurn { elapsed : Z; readable : bool; received : Bytes }.

(* src/src/bridge_daemon_main.cpp:994-995 main (request_deadline) *)
Definition kRequestDeadline : Z := 3000.

(* src/src/bridge_daemon_main.cpp:996-1014 main (receive_more) *)
Definition receive_more (t : ReadTurn) (request : Bytes) : option Bytes * list (Z * Z) :=
  let remaining := kRequestDeadline - elapsed t in
  if remaining <=? 0 then (None, [])
  else
    let poll := [(elapsed t, Z.min remaining 1000)] in
    if negb (readable t) then (None, poll)
    else match received t with
         | [] => (None, poll)
         | bytes => (Some (request ++ bytes), poll)
         end.

(** The framing of a complete request, or [inr false] when the client is closed without
    an answer; [inr true]: no turn is left. *)
(* src/src/bridge_daemon_main.cpp:1015-1030 main (request loop) *)
Fixpoint read_request (max_size : Z) (turns : list ReadTurn) (request : Bytes) : (Bytes * Bytes + bool) * list (Z * Z) :=
  match frame_http_request max_size request (16 * 1024) (16 * 1024) with
  | complete form => (inl (request, form), [])
  | invalid => (inr false, [])
  | incomplete =>
      match turns with
      | [] => (inr true, [])
      | t :: turns =>
          match receive_more t request with
          | (None, polls) => (inr false, polls)
          | (Some request, polls) => let '(r, more) := read_request max_size turns request in (r, polls ++ more)
          end
      end
  end.

(** ** A turn of the main loop *)

Inductive MainPoll := MainPollError (interrupted : bool) | MainPollTimeout | MainPollReady (listener signal : bool).

Inductive MainTurn := LoopAgain | LoopEnds | LoopAccepts.

(** [rebound]: the listener was moved to another address; [signal_read]: a whole record
    was read from the signals. *)
(* src/src/bridge_daemon_main.cpp:1556-1577 main (loop) *)
Definition main_turn (p : MainPoll) (rebound signal_read : bool) : MainTurn :=
  match p with
  | MainPollError interrupted => if interrupted then LoopAgain else LoopEnds
  | MainPollTimeout => LoopAgain
  | MainPollReady listener signal =>
      if rebound then LoopAgain
      else if signal then (if signal_read then LoopEnds else LoopAgain)
      else if listener then LoopAccepts else LoopAgain
  end.

(** ** Threads *)

Inductive Thread := WifiRefresh | AndroidAutoThread | PreflightThread | ScanThread | RequestWorkers.

#[export] Instance thread_eq_dec : EqDecision Thread.
Proof. solve_decision. Defined.

Inductive MainAction :=
| StartThread (t : Thread) | RequestStop (t : Thread) | JoinThread (t : Thread) | CloseSignals
| StartChild | EndChild | OpenLogFile.

(** The destructor of a [std::jthread] with a thread. *)
Definition end_thread (t : Thread) : list MainAction := [RequestStop t; JoinThread t].

Record MainOutcomes := mkMainOutcomes {
  signals_blocked : bool;
  signals_opened : bool;
  listening : bool;
  preflight_started : bool;
  scan_started : bool
}.

(** A worker that was joined has no thread any more for its destructor. *)
(* src/src/bridge_daemon_main.cpp:1591-1618 main (shutdown) *)
Definition shutdown (t : MainOutcomes) : list MainAction :=
  [RequestStop RequestWorkers; JoinThread RequestWorkers; RequestStop WifiRefresh]
  ++ (if preflight_started t then [RequestStop PreflightThread] else [])
  ++ (if scan_started t then [RequestStop ScanThread] else [])
  ++ (if preflight_started t then [JoinThread PreflightThread] else [])
  ++ (if scan_started t then [JoinThread ScanThread] else [])
  ++ [RequestStop AndroidAutoThread; JoinThread AndroidAutoThread; CloseSignals].

(** From the blocking of the signals on: what is done, and the exit code. *)
(* src/src/bridge_daemon_main.cpp:916-967 main (threads) *)
Definition main_threads (t : MainOutcomes) : list MainAction * Z :=
  if negb (signals_blocked t) then ([], 1)
  else
    let begun := [StartThread WifiRefresh] in
    if negb (signals_opened t) then (begun ++ [RequestStop WifiRefresh] ++ end_thread WifiRefresh, 1)
    else
      let begun := begun ++ [StartThread AndroidAutoThread] in
      if negb (listening t)
      then (begun ++ [CloseSignals; RequestStop WifiRefresh] ++ end_thread AndroidAutoThread ++ end_thread WifiRefresh, 1)
      else
        (begun ++ [StartThread RequestWorkers]
         ++ (if preflight_started t then [StartThread PreflightThread] else [])
         ++ (if scan_started t then [StartThread ScanThread] else [])
         ++ shutdown t ++ end_thread WifiRefresh, 0).

(** The child of the worker is forked first, before the output goes through the log;
    the global that owns it is destroyed behind everything else. *)
(* src/src/bridge_daemon_main.cpp:816-868 main *)
Definition daemon_main (default_path : Bytes) (arguments : list Bytes) (t : MainOutcomes) : list MainAction * Z :=
  let begun := [StartChild] ++ (if wants_file_log arguments then [OpenLogFile] else []) in
  match main_options default_path arguments with
  | None => (begun ++ [EndChild], 2)
  | Some _ => let '(actions, code) := main_threads t in (begun ++ actions ++ [EndChild], code)
  end.

(** ** Theorems: the port *)

Lemma port_argument_range value : 1 <= port_argument value <= 65535.
Proof.
  unfold port_argument. destruct (stoul value) as [v|]; [|lia].
  destruct (to_int v <=? 0) eqn:E1; cbn [orb]; [lia|]. destruct (65535 <? to_int v) eqn:E2; lia.
Qed.

Lemma parse_main_port arguments : forall o o',
  parse_main arguments o = Some o' -> 1 <= port o <= 65535 -> 1 <= port o' <= 65535.
Proof.
  assert (H : forall n arguments, (length arguments <= n)%nat -> forall o o',
    parse_main arguments o = Some o' -> 1 <= port o <= 65535 -> 1 <= port o' <= 65535); [|by intros; eapply H].
  clear. induction n as [|n IH]; intros [|a rest] Hn o o'; cbn [length] in Hn; try lia; cbn [parse_main]; try (by intros [= <-]).
  assert (Hflag : (if bytes_eqb a (bs "--no-file-log") then parse_main rest o else None) = Some o' -> 1 <= port o <= 65535 -> 1 <= port o' <= 65535).
  { destruct (bytes_eqb a _); [|done]. apply IH. lia. }
  destruct rest as [|v rest]; [exact Hflag|]. cbn [length] in Hn.
  destruct (bytes_eqb a (bs "--config")); [intros E Ho; eapply IH; [|exact E|exact Ho]; lia|].
  destruct (bytes_eqb a (bs "--port")); [|exact Hflag].
  intros E Ho. eapply IH; [|exact E|apply port_argument_range]. lia.
Qed.

Lemma port_argument_dec p : 1 <= p <= 65535 -> port_argument (dec p) = p.
Proof.
  intros Hp. unfold port_argument, stoul. assert (Hd : Forall (fun c => is_digit c = true) (dec p)) by (apply dec_digits; lia).
  pose proof (dec_not_nil p ltac:(lia)) as Hne. assert (Hv : digits_value (dec p) = p) by (rewrite dec_of_nonneg by lia; apply dec_nonneg_spec; lia).
  assert (Hpre : digits_prefix (dec p) = dec p) by (rewrite <- (app_nil_r (dec p)) at 1; by apply digits_prefix_all).
  assert (Hw : drop_while is_space (dec p) = dec p).
  { destruct (dec p) as [|c l]; [done|]. apply Forall_cons in Hd as [Hc%digit_range _]. cbn.
    replace (is_space c) with false; [done|]. unfold is_space. lia. }
  rewrite Hw. assert (Hs : (match dec p with 45 :: t => (true, t) | 43 :: t => (false, t) | _ => (false, dec p) end) = (false, dec p)).
  { destruct (dec p) as [|c l]; [done|]. apply Forall_cons in Hd as [Hc%digit_range _].
    assert (c <> 45 /\ c <> 43) as [H1 H2] by lia. destruct c as [|c|c]; try done. by do 6 (destruct c as [c|c|]; try done). }
  rewrite Hs, Hpre. destruct (dec p) as [|c l] eqn:E; [done|]. rewrite Hv.
  assert (Hi : to_int p = p) by (unfold to_int; rewrite wrap_id by (unfold is_u; lia); by replace (p <? 2 ^ 31) with true by lia).
  replace (2 ^ 64 - 1 <? p) with false by lia. rewrite Hi.
  replace ((p <=? 0) || (65535 <? p)) with false by lia. done.
Qed.

(** The daemon listens on a port. Whatever its arguments are, when they are accepted
    the port is between 1 and 65535; and a port in this range is the one that is used. *)
Theorem port_is_valid default_path arguments o p :
  main_options default_path arguments = Some o -> 1 <= p <= 65535 ->
  1 <= port o <= 65535 /\ port_argument (dec p) = p.
Proof.
  intros H Hp. split; [|by apply port_argument_dec]. eapply parse_main_port; [exact H|]. cbn. lia.
Qed.

Lemma port_is_valid_witness :
  main_options [] [bs "--port"; bs "81"] = Some (mkMainOptions [] 81 true) /\ port_argument (dec 80) = 80.
Proof.
  split; [by vm_compute|]. apply (port_is_valid [] [bs "--port"; bs "81"] (mkMainOptions [] 81 true) 80); [by vm_compute|lia].
Defined.

(** A number that is no port is one all the same when its lower 32 bits are. *)
Example port_wraps : port_argument (bs "4294967376") = 80.
Proof. by vm_compute. Qed.

(** ** Theorems: reading a request *)

(** No client holds a request worker. However slowly a client sends, every wait for
    it ends within three seconds of its acceptance and is no longer than one; and
    the request that is answered is complete and exactly what the client has sent. *)
Theorem reading_is_bounded max_size turns request :
  let '(r, polls) := read_request max_size turns request in
  Forall (fun '(at_, timeout) => 0 < timeout <= 1000 /\ at_ + timeout <= kRequestDeadline) polls /\
  forall read form, r = inl (read, form) ->
    frame_http_request max_size read (16 * 1024) (16 * 1024) = complete form /\
    exists n, read = request ++ concat (map received (take n turns)).
Proof.
  revert request. induction turns as [|t turns IH]; intros request; cbn [read_request].
  - destruct (frame_http_request _ _ _ _) eqn:E; (split; [constructor|intros read form' [=]]). subst. split; [done|].
    exists O. cbn. by rewrite app_nil_r.
  - destruct (frame_http_request _ _ _ _) eqn:E; [|by split|split; [constructor|intros read form' [= <- <-]; split; [done|exists O; by rewrite app_nil_r]]].
    unfold receive_more. destruct (Z.leb_spec (kRequestDeadline - elapsed t) 0) as [H|H]; [by split|].
    assert (Hp : Forall (fun '(at_, timeout) => 0 < timeout <= 1000 /\ at_ + timeout <= kRequestDeadline)
      [(elapsed t, Z.min (kRequestDeadline - elapsed t) 1000)]) by (repeat constructor; lia).
    destruct (readable t); cbn [negb]; [|by split]. destruct (received t) as [|b bytes] eqn:Er; [by split|].
    specialize (IH (request ++ b :: bytes)). destruct (read_request max_size turns (request ++ b :: bytes)) as [r more].
    destruct IH as [I1 I2]. split; [by apply Forall_app|]. intros read form Hr. destruct (I2 read form Hr) as [Hf (n & ->)].
    split; [done|]. exists (S n). cbn. by rewrite Er, <- (assoc_L (++)).
Qed.

(** ** Theorems: the threads *)

(** What is there: the child, and the threads that run with those that were told to
    stop. *)
Record Running := mkRunning { child : bool; running : list Thread; told : list Thread }.

(** [None] when a thread is started twice, or joined while it does not run or was not
    told to stop; when the child is forked behind a thread or ended before one, and
    when the log is opened without it. *)
Definition run_action (a : MainAction) (s : Running) : option Running :=
  match a with
  | StartThread t => if decide (t ∈ running s) then None else Some (mkRunning (child s) (t :: running s) (told s))
  | RequestStop t => Some (mkRunning (child s) (running s) (t :: told s))
  | JoinThread t =>
      if decide (t ∈ running s /\ t ∈ told s)
      then Some (mkRunning (child s) (filter (fun u => u <> t) (running s)) (told s)) else None
  | CloseSignals => Some s
  | StartChild => if child s || negb (bool_decide (running s = [])) then None else Some (mkRunning true [] (told s))
  | EndChild => if child s && bool_decide (running s = []) then Some (mkRunning false [] (told s)) else None
  | OpenLogFile => if child s then Some s else None
  end.

Fixpoint run_actions (s : Running) (actions : list MainAction) : option Running :=
  match actions with
  | [] => Some s
  | a :: actions => match run_action a s with None => None | Some s => run_actions s actions end
  end.

(** The daemon leaves nothing. On every way out of [main], whatever its arguments and
    whichever workers a request has started, every thread that was started is told to
    stop and then waited for, so that the exit neither hangs on a thread that runs
    on nor leaves one; the child of the worker, forked before any thread and before
    the log takes the output, is ended behind all of them. The exit code is 2 for
    arguments that are refused, 0 after a shutdown and 1 otherwise. *)
Theorem main_leaves_nothing default_path arguments t :
  let '(actions, code) := daemon_main default_path arguments t in
  (exists told, run_actions (mkRunning false [] []) actions = Some (mkRunning false [] told)) /\
  code = match main_options default_path arguments with
         | None => 2
         | Some _ => if signals_blocked t && signals_opened t && listening t then 0 else 1
         end.
Proof.
  unfold daemon_main. destruct (main_options default_path arguments).
  - destruct t as [[] [] [] [] []], (wants_file_log arguments); vm_compute; (split; [by eexists|done]).
  - destruct (wants_file_log arguments); vm_compute; (split; [by eexists|done]).
Qed.
