(* ===== verification/BridgePipes.v ===== *)
(** * The pipes between the daemon and the AirPlay session

    [src/src/iap2_bt_main.cpp]: the readers that connect to the daemon's sockets, and the
    callbacks with which an AirPlay session is run; joined with the paths of the
    daemon and the command line of a session. *)

From S2P Require Import Prelude Config CarplayWorker BluetoothWorker SessionSetup DaemonParts AndroidAuto WiredReceiver DaemonReceiver Sockets.
#[local] Open Scope Z_scope.

(** ** Readers *)

(** A reader of audio looks at the flag that stops the streams as well. *)
(* src/src/iap2_bt_main.cpp:223-226 AudioSocketReader (members) *)
Record Reader := mkReader { reader_path : Bytes; socket_fd : Z; limit : Z }.

(* src/src/iap2_bt_main.cpp:142-148 VideoSocketReader *)
Definition video_reader (path : Bytes) : Reader := mkReader path (-1) kVideoLimit.
(* src/src/iap2_bt_main.cpp:184-191 AudioSocketReader *)
Definition audio_reader (path : Bytes) : Reader := mkReader path (-1) (64 * 1024).

(** The first call connects; [fd] and [connected] are what the calls return then. *)
(* src/src/iap2_bt_main.cpp:150-162 VideoSocketReader::next (connect) *)
Definition reader_connect (fd : Z) (connected : bool) (r : Reader) : Reader * list Event :=
  if socket_fd r <? 0 then
    let '(fd, calls) := connect_unix_blocking (reader_path r) fd connected in
    (mkReader (reader_path r) fd (limit r), calls)
  else (r, []).

(* src/src/iap2_bt_main.cpp:193-221 AudioSocketReader::next (whole) *)
Definition reader_next (fd : Z) (connected : bool) (turns : list ReadTurn) (stream : Bytes) (r : Reader)
    : option Bytes * Bytes * Reader * list Event :=
  let '(r, calls) := reader_connect fd connected r in
  if socket_fd r <? 0 then (None, stream, r, calls)
  else
    let '(frame, stream, _) := next_frame (limit r) turns stream in
    (frame, stream, r, calls ++ [Used (socket_fd r)]).

(* src/src/iap2_bt_main.cpp:188-191 AudioSocketReader (destructor) *)
Definition reader_end (r : Reader) : list Event := if 0 <=? socket_fd r then [Closed (socket_fd r)] else [].

(** ** The session *)

Definition if_given (path : Bytes) : option Bytes := if bytes_eqb path [] then None else Some path.

(** Where the callbacks of a session read and write. *)
Record Callbacks := mkCallbacks {
  video_from : option Reader;
  media_from : option Reader;
  guidance_from : option Reader;
  system_from : option Reader;
  events_to : option Bytes;
  microphone_to : option Bytes
}.

(* src/src/iap2_bt_main.cpp:483-511 run_bluetooth_worker (pipes) *)
Definition airplay_callbacks (o : WorkerOptions) : Callbacks :=
  mkCallbacks (video_reader <$> if_given (texts o VideoSocket)) (audio_reader <$> if_given (texts o AudioSocket))
    (audio_reader <$> if_given (texts o GuidanceAudioSocket)) (audio_reader <$> if_given (texts o SystemAudioSocket))
    (if_given (texts o EventSocket)) (if_given (texts o MicrophoneSocket)).

Definition given {A} (x : option A) : bool := match x with Some _ => true | None => false end.

(* src/src/iap2_bt_main.cpp:512-559 run_bluetooth_worker (session options) *)
Definition airplay_options (o : WorkerOptions) : SessionOptions :=
  let c := airplay_callbacks o in
  mkOptions (given (microphone_to c)) (given (media_from c)) (given (guidance_from c)) (given (system_from c))
    (texts o CapabilitiesStore) (texts o MacAddress).

(** ** Theorems *)

(** A reader holds at most one socket. Over any number of calls, whatever connecting
    and receiving do, the reader connects only while it has no socket, reads only the
    one it has, and its end closes exactly that. *)
Theorem reader_keeps_one_socket path limit calls :
  let '(r, events) := fold_left (fun '(r, events) '(fd, connected, turns, stream) =>
    let '(_, _, r, more) := reader_next fd connected turns stream r in (r, events ++ more)) calls (mkReader path (-1) limit, []) in
  disciplined ∅ (events ++ reader_end r) = Some ∅.
Proof.
  assert (H : forall calls r events,
    disciplined ∅ events = Some (if 0 <=? socket_fd r then {[socket_fd r]} else ∅) ->
    let '(r, events) := fold_left (fun '(r, events) '(fd, connected, turns, stream) =>
      let '(_, _, r, more) := reader_next fd connected turns stream r in (r, events ++ more)) calls (r, events) in
    disciplined ∅ events = Some (if 0 <=? socket_fd r then {[socket_fd r]} else ∅)).
  { clear. induction calls as [|[[[fd connected] turns] stream] calls IH]; intros r events He; [done|]. cbn [fold_left].
    assert (Hn : let '(_, _, r', more) := reader_next fd connected turns stream r in
      disciplined ∅ (events ++ more) = Some (if 0 <=? socket_fd r' then {[socket_fd r']} else ∅)).
    { unfold reader_next, reader_connect. destruct (Z.ltb_spec (socket_fd r) 0) as [Hs|Hs].
      - replace (0 <=? socket_fd r) with false in He by lia. unfold connect_unix_blocking. cbn.
        destruct (kSunPath <=? size_of (reader_path r)); [cbn; by rewrite app_nil_r|]. destruct (Z.ltb_spec fd 0) as [Hf|Hf]; [cbn; by rewrite app_nil_r|].
        destruct connected; cbn.
        + replace (fd <? 0) with false by lia. destruct (next_frame _ _ _) as [[frame rest] left]. cbn. replace (0 <=? fd) with true by lia.
          rewrite disciplined_app, He. cbn [option_bind mbind]. check_calls. f_equal. set_solver.
        + rewrite disciplined_app, He. cbn [option_bind mbind]. by rewrite open_close by set_solver.
      - replace (socket_fd r <? 0) with false by lia. destruct (next_frame _ _ _) as [[frame rest] left]. cbn.
        replace (0 <=? socket_fd r) with true in * by lia. rewrite disciplined_app, He. cbn [option_bind mbind]. check_calls. done. }
    destruct (reader_next fd connected turns stream r) as [[[frame rest] r'] more]. by apply IH. }
  specialize (H calls (mkReader path (-1) limit) [] eq_refl).
  destruct (fold_left _ calls _) as [r events]. rewrite disciplined_app, H. unfold reader_end. cbn [option_bind mbind].
  destruct (0 <=? socket_fd r); [check_calls; f_equal; set_solver|done].
Qed.

(** Every pipe ends where it began. For a session that the daemon starts for Android
    Auto, the worker's command line gives its AirPlay session a video source, three
    audio sources, an event sink and a microphone sink, each on the very path on which
    the daemon's forwarder or receiver of that name listens; a session without
    sockets, for a preflight, has none of them. *)
Theorem pipes_are_joined config store runtime_dir pid preflight video_path :
  let s := receiver_sockets runtime_dir pid in
  (exists o, parse_arguments (tail (session_arguments config store s preflight video_path)) default_worker_options = Some o /\
    airplay_callbacks o = mkCallbacks (Some (video_reader (video_socket s))) (Some (audio_reader (media_audio_socket s)))
      (Some (audio_reader (guidance_audio_socket s))) (Some (audio_reader (system_audio_socket s)))
      (Some (event_socket s)) (Some (microphone_socket s))) /\
  (exists o, parse_arguments (tail (session_arguments config store no_sockets preflight video_path)) default_worker_options = Some o /\
    airplay_callbacks o = mkCallbacks None None None None None None).
Proof.
  split.
  - destruct (parse_session config store (receiver_sockets runtime_dir pid) preflight video_path) as (o & Ho & _ & _ & _ & Ht).
    exists o. split; [exact Ho|]. unfold airplay_callbacks. rewrite !Ht. cbn [DaemonParts.passed].
    assert (Hg : forall prefix rest, prefix <> [] -> if_given (join_path (socket_dir runtime_dir) (prefix ++ rest)) = Some (join_path (socket_dir runtime_dir) (prefix ++ rest))).
    { intros prefix rest Hp. destruct (join_path_prefix (socket_dir runtime_dir)) as [p E]. rewrite E. unfold if_given.
      destruct (bytes_eqb (p ++ prefix ++ rest) []) eqn:Eb; [|done]. apply bytes_eqb_eq in Eb. by destruct p, prefix. }
    unfold receiver_sockets. cbv zeta beta. cbn [video_socket media_audio_socket guidance_audio_socket system_audio_socket event_socket microphone_socket].
    by rewrite !Hg by (vm_compute; discriminate).
  - destruct (parse_session config store no_sockets preflight video_path) as (o & Ho & _ & _ & _ & Ht).
    exists o. split; [exact Ho|]. unfold airplay_callbacks. by rewrite !Ht.
Qed.
