(* ===== verification/Processes.v ===== *)
(** * Child processes

    The nmcli process of [src/src/bridge/management_ui.cpp] whose output lists the
    interfaces, the anonymous file of [src/src/iap2/network_manager.cpp] that hands a
    secret to one, and the start and the end of the CarPlay worker of
    [src/src/bridge/carplay_worker.cpp], with the descriptors of each. *)

From S2P Require Import Prelude Sockets.
#[local] Open Scope Z_scope.

(** A call on a descriptor, or what happens to the child. *)
Inductive Call := Fd (e : Event) | Spawned | Killed | Reaped.

Definition fds (calls : list Call) : list Event := omap (fun c => match c with Fd e => Some e | _ => None end) calls.

(** ** The output of nmcli *)

Inductive ReadResult := Chunk (bytes : Bytes) | ReadInterrupted | NothingMore.

(* src/src/bridge/management_ui.cpp:280-280 run_nmcli_device_status (kMaximumOutput) *)
Definition kMaximumOutput : Z := 64 * 1024.

(** The output so far, and whether there is too much of it. *)
(* src/src/bridge/management_ui.cpp:284-300 run_nmcli_device_status (drain) *)
Fixpoint drain (reads : list ReadResult) (output : Bytes) : Bytes * bool :=
  match reads with
  | [] | NothingMore :: _ => (output, false)
  | ReadInterrupted :: reads => drain reads output
  | Chunk bytes :: reads =>
      if kMaximumOutput <? size_of output + size_of bytes then (output, true) else drain reads (output ++ bytes)
  end.

Inductive WaitResult := Exited (status : option Z) | NotYet | WaitFailed (interrupted : bool).

(** A turn: what the reads bring, what [waitpid] says, and whether the five seconds are
    over. A status is the exit code, or [None] for a signal. *)
Record StatusTurn := mkStatusTurn { reads : list ReadResult; waited : WaitResult; late : bool }.

(** The output, the status of the child that was reaped, and whether there is too much
    output; [None]: the loop is still running. *)
(* src/src/bridge/management_ui.cpp:301-316 run_nmcli_device_status (loop) *)
Fixpoint status_loop (turns : list StatusTurn) (output : Bytes) : option (Bytes * option (option Z) * bool) :=
  match turns with
  | [] => None
  | t :: turns =>
      let '(output, overflow) := drain (reads t) output in
      match waited t with
      | Exited status => Some (output, Some status, overflow)
      | WaitFailed false => Some (output, None, overflow)
      | NotYet | WaitFailed true =>
          if late t || overflow then Some (output, None, overflow) else status_loop turns output
      end
  end.

Record StatusWorld := mkStatusWorld {
  pipe : option (Z * Z);
  spawned : bool;
  nonblocking : bool;
  turns : list StatusTurn;
  last_wait : option (option Z);
  last_reads : list ReadResult
}.

(** [last_wait]: what the wait behind the kill brings, [None] for an error other than an
    interruption. *)
(* src/src/bridge/management_ui.cpp:246-328 run_nmcli_device_status *)
Definition run_nmcli_device_status (w : StatusWorld) : option (option Bytes * list Call) :=
  match pipe w with
  | None => Some (None, [])
  | Some (r, x) =>
      let begun := [Fd (Opened r); Fd (Opened x)] in
      if negb (spawned w) then Some (None, begun ++ [Fd (Closed x); Fd (Closed r)])
      else
        let begun := begun ++ [Spawned; Fd (Closed x)] in
        if negb (nonblocking w) then Some (None, begun ++ [Fd (Used r); Killed; Reaped; Fd (Closed r)])
        else
          match status_loop (turns w) [] with
          | None => None
          | Some (output, status, overflow) =>
              let reaped := match status with Some _ => [Reaped] | None => [] end in
              let killing := negb (match status with Some _ => true | None => false end) || overflow in
              (** the child is waited for again, and there is none when it was reaped before *)
              let again := if killing then (match status with Some _ => None | None => last_wait w end) else status in
              let killed := if killing then Killed :: (match again with Some _ => [Reaped] | None => [] end) else [] in
              let '(output, overflow') := drain (last_reads w) output in
              Some (if overflow || overflow' then None
                    else match again with Some (Some 0) => Some output | _ => None end,
                    begun ++ [Fd (Used r)] ++ reaped ++ killed ++ [Fd (Used r); Fd (Closed r)])
          end
  end.

(** ** A secret for nmcli *)

(** [writes]: what each [write] takes, [None] for an interruption; [Some 0]: an error. *)
(* src/src/iap2/network_manager.cpp:66-77 secret_memfd (write) *)
Fixpoint write_secret (writes : list (option nat)) (contents file : Bytes) : bool * Bytes :=
  match contents, writes with
  | [], _ => (true, file)
  | _, [] => (false, file)
  | _, None :: writes => write_secret writes contents file
  | _, Some n :: writes =>
      match Nat.min n (length contents) with
      | O => (false, file)
      | S k => write_secret writes (drop (S k) contents) (file ++ take (S k) contents)
      end
  end.

(** The descriptor, and what is read from it. *)
(* src/src/iap2/network_manager.cpp:61-84 secret_memfd *)
Definition secret_memfd (fd : Z) (writes : list (option nat)) (rewound : bool) (contents : Bytes) : Z * Bytes * list Event :=
  if fd <? 0 then (-1, [], [])
  else
    let '(ok, file) := write_secret writes contents [] in
    if negb ok then (-1, [], [Opened fd; Used fd; Closed fd])
    else if negb rewound then (-1, [], [Opened fd; Used fd; Used fd; Closed fd])
    else (fd, file, [Opened fd; Used fd; Used fd]).

(** ** The CarPlay worker *)

(** [kill] of the group: whether there is such a group. *)
(* src/src/bridge/carplay_worker.cpp:20-26 kill_worker_process_group *)
Definition kill_worker_process_group (pid : Z) (group_exists no_such_process : bool) : list Z :=
  if 0 <? pid then (- pid) :: (if negb group_exists && no_such_process then [pid] else []) else [].

Record WorkerProcess := mkWorkerProcess { control_fd : Z; output_fd : Z; pid : Z }.

(* src/src/bridge/carplay_worker.cpp:100-108 CarPlayWorker (parent) *)
Definition start_parent (control output : Z * Z) (forked : Z) (begun : list Event) : WorkerProcess * list Event :=
  let '(c0, c1) := control in
  let '(o0, o1) := output in
  let begun := begun ++ [Closed c1; Closed o1] in
  if 0 <? forked then (mkWorkerProcess c0 o0 forked, begun)
  else (mkWorkerProcess (-1) (-1) forked, begun ++ [Closed c0; Closed o0]).

(** The parent after the fork; [forked] is not 0, which only the child gets. *)
(* src/src/bridge/carplay_worker.cpp:28-44 CarPlayWorker *)
Definition start_worker (control output : option (Z * Z)) (forked : Z) : WorkerProcess * list Event :=
  match control with
  | None => (mkWorkerProcess (-1) (-1) (-1), [])
  | Some (c0, c1) =>
      let begun := [Opened c0; Opened c1] in
      match output with
      | None => (mkWorkerProcess (-1) (-1) (-1), begun ++ [Closed c0; Closed c1])
      | Some (o0, o1) =>
          let begun := begun ++ [Opened o0; Opened o1] in
          if forked <? 0 then (mkWorkerProcess (-1) (-1) forked, begun ++ [Closed c0; Closed c1; Closed o0; Closed o1])
          else start_parent (c0, c1) (o0, o1) forked begun
      end
  end.

(** The wait for the child: for each turn what [waitpid] says and whether the two
    seconds are over; [None]: still waiting. The wait behind the kill blocks until the
    child is reaped. *)
(* src/src/bridge/carplay_worker.cpp:118-133 CarPlayWorker (waiting for the child) *)
Fixpoint await_worker (pid : Z) (group_exists no_such_process : bool) (turns : list (WaitResult * bool)) : option (list Call) :=
  match turns with
  | [] => None
  | (Exited _, _) :: _ => Some [Reaped]
  | (WaitFailed true, _) :: turns => await_worker pid group_exists no_such_process turns
  | (WaitFailed false, _) :: _ => Some []
  | (NotYet, late) :: turns =>
      if late
      then Some (map (fun _ => Killed) (kill_worker_process_group pid group_exists no_such_process) ++ [Reaped])
      else await_worker pid group_exists no_such_process turns
  end.

(* src/src/bridge/carplay_worker.cpp:111-137 CarPlayWorker (destructor) *)
Definition end_worker (group_exists no_such_process : bool) (turns : list (WaitResult * bool)) (w : WorkerProcess) : option (list Call) :=
  let control := if 0 <=? control_fd w then [Fd (ShutDown (control_fd w)); Fd (Closed (control_fd w))] else [] in
  let output := if 0 <=? output_fd w then [Fd (Closed (output_fd w))] else [] in
  if 0 <? pid w
  then ended ← await_worker (pid w) group_exists no_such_process turns; Some (control ++ ended ++ output)
  else Some (control ++ output).

(** ** Theorems *)

(** What the reads of a turn bring. *)
Fixpoint chunks (reads : list ReadResult) : Bytes :=
  match reads with
  | [] | NothingMore :: _ => []
  | ReadInterrupted :: reads => chunks reads
  | Chunk bytes :: reads => bytes ++ chunks reads
  end.

Lemma drain_complete reads output output' :
  drain reads output = (output', false) -> output' = output ++ chunks reads.
Proof.
  revert output. induction reads as [|[bytes| |] reads IH]; intros output; cbn.
  - intros [= <-]. by rewrite app_nil_r.
  - case_match; [done|]. intros ->%IH. by rewrite app_assoc.
  - by intros ->%IH.
  - intros [= <-]. by rewrite app_nil_r.
Qed.

Lemma drain_bounded reads output :
  size_of output <= kMaximumOutput -> size_of (drain reads output).1 <= kMaximumOutput.
Proof.
  revert output. induction reads as [|[bytes| |] reads IH]; intros output H; cbn; try done; [|by apply IH].
  destruct (Z.ltb_spec kMaximumOutput (size_of output + size_of bytes)); [done|]. apply IH.
  unfold size_of in *. rewrite length_app. lia.
Qed.

Lemma status_loop_bounded turns output r :
  size_of output <= kMaximumOutput -> status_loop turns output = Some r -> size_of r.1.1 <= kMaximumOutput.
Proof.
  revert output. induction turns as [|t turns IH]; intros output H; cbn; [done|].
  pose proof (drain_bounded (reads t) output H) as B. destruct (drain (reads t) output) as [output' overflow].
  destruct (waited t) as [status| |[]]; try (by intros [= <-]);
    (destruct (late t || overflow); [by intros [= <-]|by apply IH]).
Qed.

Lemma status_loop_complete turns output output' status :
  status_loop turns output = Some (output', status, false) ->
  exists n, output' = output ++ concat (map (fun t => chunks (reads t)) (take n turns)).
Proof.
  revert output. induction turns as [|t turns IH]; intros output; cbn; [done|].
  destruct (drain (reads t) output) as [read overflow] eqn:E.
  assert (D : overflow = false -> read = output ++ chunks (reads t)) by (intros ->; by apply drain_complete).
  assert (Now : overflow = false -> exists n, read = output ++ concat (map (fun t => chunks (reads t)) (take n (t :: turns)))).
  { intros O. exists 1%nat. cbn. rewrite take_0. cbn. rewrite app_nil_r. by apply D. }
  assert (Later : status_loop turns read = Some (output', status, false) -> overflow = false ->
    exists n, output' = output ++ concat (map (fun t => chunks (reads t)) (take n (t :: turns)))).
  { intros [n ->]%IH O. exists (S n). cbn. by rewrite (D O), <- app_assoc. }
  destruct (waited t) as [status'| |[]]; try (intros [= <- <- ->]; by apply Now);
    (destruct (late t || overflow) eqn:L; [intros [= <- <- ->]; by apply Now|apply orb_false_iff in L as [_ O]; by intros ?%Later]).
Qed.

Lemma status_loop_waited turns output output' status overflow :
  status_loop turns output = Some (output', Some status, overflow) -> exists t, t ∈ turns /\ waited t = Exited status.
Proof.
  revert output. induction turns as [|t turns IH]; intros output; cbn; [done|].
  destruct (drain (reads t) output) as [read over].
  destruct (waited t) as [status'| |[]] eqn:W; try done.
  - intros [= <- <- <-]. exists t. split; [by left|done].
  - destruct (late t || over); [done|]. intros (t' & ? & ?)%IH. exists t'. split; [by right|done].
  - destruct (late t || over); [done|]. intros (t' & ? & ?)%IH. exists t'. split; [by right|done].
Qed.

Lemma status_loop_ends turns output : Exists (fun t => late t = true) turns -> is_Some (status_loop turns output).
Proof.
  intros H. revert output. induction H as [t turns L|t turns H IH]; intros output; cbn;
    destruct (drain (reads t) output) as [read over]; destruct (waited t) as [status'| |[]]; try by eexists.
  - by rewrite L; eexists.
  - by rewrite L; eexists.
  - by destruct (late t || over); [eexists|].
  - by destruct (late t || over); [eexists|].
Qed.

(** What nmcli says is taken as a whole or not at all. Whatever the reads and the
    waits bring: output that the bridge goes on with is everything that was read in
    the turns that passed and in the last reads, in their order, it is no longer than
    64 KiB, and the child had ended with status 0. *)
Theorem status_output_complete w output calls :
  run_nmcli_device_status w = Some (Some output, calls) ->
  size_of output <= kMaximumOutput /\
  (exists n, output = concat (map (fun t => chunks (reads t)) (take n (turns w))) ++ chunks (last_reads w)) /\
  (last_wait w = Some (Some 0) \/ exists t, t ∈ turns w /\ waited t = Exited (Some 0)).
Proof.
  unfold run_nmcli_device_status. destruct (pipe w) as [[r x]|]; [|done].
  destruct (spawned w); cbn [negb]; [|done]. destruct (nonblocking w); cbn [negb]; [|done].
  destruct (status_loop (turns w) []) as [[[read status] overflow]|] eqn:L; [|done].
  pose proof (status_loop_bounded _ [] _ ltac:(done) L) as B. cbn [fst] in B.
  pose proof (drain_bounded (last_reads w) read B) as B'.
  destruct (drain (last_reads w) read) as [output' overflow'] eqn:D. cbn [fst] in B'.
  destruct overflow; [done|]. destruct overflow'; [done|]. cbn [orb]. apply drain_complete in D as ->.
  destruct (status_loop_complete _ _ _ _ L) as [n ->]. cbn [app] in *.
  destruct status as [status|]; cbn [negb orb]; intros H.
  - apply status_loop_waited in L as (t & T & W). destruct status as [[]|]; inversion H; subst. eauto 10.
  - destruct (last_wait w) as [[[]|]|]; inversion H; subst. eauto 10.
Qed.

Definition demo_status : StatusWorld :=
  mkStatusWorld (Some (3, 4)) true true
    [mkStatusTurn [ReadInterrupted; Chunk (bs "wlan0:wifi"); NothingMore] NotYet false;
     mkStatusTurn [] (Exited (Some 0)) false] None [Chunk [10]].

Lemma status_output_complete_witness :
  run_nmcli_device_status demo_status =
    Some (Some (bs "wlan0:wifi" ++ [10]), map Fd [Opened 3; Opened 4] ++ [Spawned] ++ map Fd [Closed 4; Used 3] ++ [Reaped] ++ map Fd [Used 3; Closed 3]) /\
  size_of (bs "wlan0:wifi" ++ [10]) <= kMaximumOutput.
Proof.
  split; [by vm_compute|].
  exact (proj1 (status_output_complete demo_status (bs "wlan0:wifi" ++ [10]) _ ltac:(by vm_compute))).
Defined.

Definition is_reaped (c : Call) : bool := match c with Reaped => true | _ => false end.
Definition is_spawned (c : Call) : bool := match c with Spawned => true | _ => false end.
Definition count (f : Call -> bool) (calls : list Call) : nat := length (filter f calls).

Lemma calls_app f calls1 calls2 : count f (calls1 ++ calls2) = (count f calls1 + count f calls2)%nat.
Proof. unfold count. by rewrite filter_app, length_app. Qed.

(** The inventory ends and leaves nothing behind. When a turn comes that is later
    than five seconds it has a result; then both ends of the pipe are closed, each
    once, and when the blocking wait does not fail the child that was started has been
    reaped, exactly once. *)
Theorem status_leaves_nothing w (r x : Z) :
  pipe w = Some (r, x) -> r <> x -> Exists (fun t => late t = true) (turns w) -> last_wait w <> None ->
  exists result calls, run_nmcli_device_status w = Some (result, calls) /\
    disciplined ∅ (fds calls) = Some ∅ /\ count is_reaped calls = count is_spawned calls.
Proof.
  intros P N L W. unfold run_nmcli_device_status. rewrite P.
  destruct (spawned w), (nonblocking w); cbn [negb];
    try (eexists _, _; split; [done|]; split; [cbn; check_calls; f_equal; set_solver|done]).
  destruct (status_loop_ends _ [] L) as [[[read status] overflow] ->].
  destruct (last_wait w) as [last|]; [|done]. destruct (drain (last_reads w) read) as [output overflow'].
  eexists _, _; split; [done|].
  destruct status, overflow; (split; [cbn; check_calls; f_equal; set_solver|done]).
Qed.

Lemma status_leaves_nothing_witness :
  let w := mkStatusWorld (Some (3, 4)) true true [mkStatusTurn [] NotYet true] (Some None) [] in
  Exists (fun t => late t = true) (turns w) /\
  exists result calls, run_nmcli_device_status w = Some (result, calls) /\
    disciplined ∅ (fds calls) = Some ∅ /\ count is_reaped calls = count is_spawned calls.
Proof.
  intros w. assert (L : Exists (fun t => late t = true) (turns w)) by (by left).
  split; [done|]. exact (status_leaves_nothing w 3 4 eq_refl ltac:(lia) L ltac:(done)).
Defined.

(** A child whose last output is too much, and which is reaped in the same turn, is
    killed afterwards, when its number may be another's. *)
Example kill_after_reap :
  let chunk := Chunk (repeat 65 4096) in
  option_map snd (run_nmcli_device_status
    (mkStatusWorld (Some (3, 4)) true true [mkStatusTurn (repeat chunk 17) (Exited (Some 0)) false] None [])) =
  Some (map Fd [Opened 3; Opened 4] ++ [Spawned] ++ map Fd [Closed 4; Used 3] ++ [Reaped; Killed] ++ map Fd [Used 3; Closed 3]).
Proof. by vm_compute. Qed.

Lemma write_secret_complete writes contents file file' :
  write_secret writes contents file = (true, file') -> file' = file ++ contents.
Proof.
  revert contents file. induction writes as [|[n|] writes IH]; intros [|b contents] file; cbn -[take drop];
    try (intros [= <-]; by rewrite app_nil_r); try done; [|by apply IH].
  destruct (Nat.min n (S (length contents))) as [|k]; [done|]. intros ->%IH.
  by rewrite <- app_assoc, take_drop.
Qed.

(** A secret is written as a whole. Whatever the writes take: the descriptor that
    is handed to nmcli is of a file that holds all of the secret and nothing else,
    and no other descriptor is left open. *)
Theorem secret_is_whole fd writes rewound contents :
  let '(r, file, calls) := secret_memfd fd writes rewound contents in
  returns_what_is_open (r, calls) /\ (0 <= r -> file = contents).
Proof.
  unfold secret_memfd. destruct (Z.ltb_spec fd 0); [split; [done|cbn; lia]|].
  destruct (write_secret writes contents []) as [[] file] eqn:E; cbn [negb].
  - apply write_secret_complete in E. assert (L : (0 <=? fd) = true) by lia.
    destruct rewound; cbn [negb]; (split; [unfold returns_what_is_open; cbn; rewrite ?L; check_calls; f_equal; set_solver|]).
    + done.
    + lia.
  - split; [unfold returns_what_is_open; cbn; check_calls; f_equal; set_solver|lia].
Qed.

(** Membership of descriptors in sets that are written out is arithmetic. *)
Ltac fd_member :=
  repeat first [rewrite elem_of_difference | rewrite elem_of_union | rewrite elem_of_singleton | rewrite elem_of_empty]; lia.

Ltac count_fds :=
  unfold fds; cbn [disciplined app omap list_omap];
  repeat first [rewrite decide_False by fd_member | rewrite decide_True by fd_member];
  f_equal; apply set_eq; intros ?; fd_member.

Lemma await_worker_calls pid group no_such turns calls :
  await_worker pid group no_such turns = Some calls ->
  fds calls = [] /\
  (Forall (fun t => t.1 <> WaitFailed false) turns -> count is_reaped calls = 1%nat) /\
  (Killed ∈ calls -> (NotYet, true) ∈ turns).
Proof.
  induction turns as [|[[status| |[]] late] turns IH]; cbn; try done.
  - intros [= <-]. split_and!; [done..|]. intros H. set_solver.
  - destruct late.
    + intros [= <-]. unfold kill_worker_process_group.
      split_and!; [by repeat case_match|by repeat case_match|by left].
    + intros (-> & R & K)%IH. split_and!; [done| |by right; apply K]. intros F. by apply R; inversion F.
  - intros (-> & R & K)%IH. split_and!; [done| |by right; apply K]. intros F. by apply R; inversion F.
  - intros [= <-]. split_and!; [done| |set_solver]. intros F. by inversion F.
Qed.

(** The CarPlay worker is started and ended without a trace. Whichever of the two
    socket pairs and the fork fail: behind the start only the two descriptors the
    parent keeps are open, and behind the destructor none; a child that was started
    is waited for, and when the two seconds are over it is killed before. *)
Theorem worker_starts_and_ends (c0 c1 o0 o1 forked : Z) control output group no_such turns calls :
  NoDup [c0; c1; o0; o1] -> Forall (fun fd => 0 <= fd) [c0; c1; o0; o1] ->
  control = None \/ control = Some (c0, c1) -> output = None \/ output = Some (o0, o1) ->
  let '(worker, begun) := start_worker control output forked in
  end_worker group no_such turns worker = Some calls ->
  disciplined ∅ (begun ++ fds calls) = Some ∅ /\
  (0 < pid worker -> Forall (fun t => t.1 <> WaitFailed false) turns -> count is_reaped calls = 1%nat) /\
  (Killed ∈ calls -> exists t, t ∈ turns /\ t = (NotYet, true)).
Proof.
  intros N P Hc Ho. rewrite !Forall_cons in P. destruct P as (P0 & P1 & P2 & P3 & _).
  rewrite !NoDup_cons, !elem_of_cons in N. destruct N as (N0 & N1 & N2 & _ & _).
  assert (D : c0 <> c1 /\ c0 <> o0 /\ c0 <> o1 /\ c1 <> o0 /\ c1 <> o1 /\ o0 <> o1) by tauto.
  clear N0 N1 N2.
  unfold start_worker, end_worker.
  destruct Hc as [->| ->]; [cbn; intros [= <-]; split_and!; [done|lia|by inversion 1]|].
  destruct Ho as [->| ->]; [cbn; intros [= <-]; split_and!; [count_fds|lia|by inversion 1]|].
  destruct (Z.ltb_spec forked 0) as [F|F]; cbn [control_fd output_fd pid start_parent].
  { replace (0 <? forked) with false by lia. cbn. intros [= <-].
    split_and!; [count_fds|lia|by inversion 1]. }
  destruct (Z.ltb_spec 0 forked) as [F'|F'].
  - cbn [control_fd output_fd pid]. replace (0 <=? c0) with true by lia. replace (0 <=? o0) with true by lia.
    replace (0 <? forked) with true by lia.
    destruct (await_worker forked group no_such turns) as [ended|] eqn:E; [|done]. cbn. intros [= <-].
    apply await_worker_calls in E as (E & R & K). split_and!.
    + unfold fds in *. cbn. rewrite omap_app, E. cbn [omap list_omap app]. count_fds.
    + intros _ W. change (count is_reaped ([Fd (ShutDown c0); Fd (Closed c0)] ++ ended ++ [Fd (Closed o0)]) = 1%nat). by rewrite !calls_app, (R W).
    + intros H. exists (NotYet, true). split; [|done]. apply K.
      rewrite !elem_of_cons, elem_of_app in H. destruct H as [|[|[|H]]]; [done..|done|set_solver].
  - replace forked with 0 in * by lia. cbn. intros [= <-]. split_and!; [count_fds|lia|by inversion 1].
Qed.

Lemma worker_starts_and_ends_witness :
  let turns := [(NotYet, false); (WaitFailed true, false); (NotYet, true)] in
  let '(worker, begun) := start_worker (Some (3, 4)) (Some (5, 6)) 77 in
  exists calls, end_worker true false turns worker = Some calls /\ disciplined ∅ (begun ++ fds calls) = Some ∅.
Proof.
  eexists. split; [by vm_compute|].
  exact (proj1 (worker_starts_and_ends 3 4 5 6 77 (Some (3, 4)) (Some (5, 6)) true false
    [(NotYet, false); (WaitFailed true, false); (NotYet, true)] _
    ltac:(by apply (bool_decide_unpack _); vm_compute) ltac:(by repeat constructor; lia)
    (or_intror eq_refl) (or_intror eq_refl) ltac:(by vm_compute))).
Defined.

(** A worker that could not be started is an object without a child: the daemon, which
    tests the pointer to it, goes on, and every session fails at once. *)
Example worker_without_child :
  (start_worker (Some (3, 4)) (Some (5, 6)) (-1)).1 = mkWorkerProcess (-1) (-1) (-1).
Proof. vm_compute. reflexivity. Qed.
