(* ===== verification/NmcliProcess.v ===== *)
(** * One nmcli process

    [run_nmcli] of [src/src/iap2/network_manager.cpp] as the calls it makes: the pipe of
    the diagnostics, the anonymous file of the secret, what the child gets as its
    standard descriptors, the reads between the waits, the signals and the lines of
    the log; and [ipv4_address].  [NetworkManager.run_nmcli] is the abstract view of
    it, in which a process is a script of waits with its output: the theorems show
    that it is one. *)

From S2P Require Import Prelude Text DaemonLog Sockets Processes NetworkManager.
#[local] Open Scope Z_scope.

(** ** The child's descriptors *)

(** The file actions that [posix_spawnp] performs in the child. *)
Inductive FileAction := Dup2 (fd target : Z) | CloseAt (fd : Z).

(* src/src/iap2/network_manager.cpp:120-136 run_nmcli (file actions) *)
Definition file_actions (output_pipe : option (Z * Z)) (input_descriptor : option Z) : list FileAction :=
  match output_pipe with
  | Some (reader, writer) => [Dup2 writer 1; Dup2 writer 2; CloseAt reader; CloseAt writer]
  | None => []
  end ++
  match input_descriptor with
  | Some fd => Dup2 fd 0 :: (if fd =? 0 then [] else [CloseAt fd])
  | None => []
  end.

(** The descriptors of the child, each with the one of the parent it stands for. *)
Definition perform (table : gmap Z Z) (a : FileAction) : gmap Z Z :=
  match a with
  | Dup2 fd target => match table !! fd with Some file => <[target := file]> table | None => table end
  | CloseAt fd => delete fd table
  end.

(** What the program does, in order. *)
Inductive Action :=
| Descriptor (e : Event)
| Spawning (arguments : list Bytes) (actions : list FileAction)
| Kill (s : Signal)
| Log (level : LogLevel) (text : Bytes).

(** ** Waiting *)

(** The reads until one that brings nothing; without a pipe there are none. *)
(* src/src/iap2/network_manager.cpp:161-173 run_nmcli (drain_diagnostics) *)
Fixpoint drain_diagnostics (quiet : bool) (reads : list Bytes) (diagnostics : Bytes) : Bytes :=
  if negb quiet then diagnostics
  else match reads with
       | [] | [] :: _ => diagnostics
       | chunk :: reads => drain_diagnostics quiet reads (diagnostics ++ chunk)
       end.

(** What is known of the child, the diagnostics and what was done. The turns are those of the two seconds. *)
(* src/src/iap2/network_manager.cpp:174-196 run_nmcli (terminate_and_reap) *)
Fixpoint reap_after_term (quiet : bool) (grace : list (WaitTurn * list Bytes)) (final : Reaped) (diagnostics : Bytes)
    : Reaped * Bytes * list Action :=
  match grace with
  | (Exited status, _) :: _ => (Status status, diagnostics, [])
  | (Signaled, _) :: _ => (Abnormal, diagnostics, [])
  | (WaitFailed, _) :: _ | [] => (final, diagnostics, [Kill SIGKILL])
  | (WaitInterrupted, reads) :: grace | (Running _ _, reads) :: grace =>
      reap_after_term quiet grace final (drain_diagnostics quiet reads diagnostics)
  end.

Definition terminate_and_reap (quiet : bool) (grace : list (WaitTurn * list Bytes)) (final : Reaped) (diagnostics : Bytes)
    : Reaped * Bytes * list Action :=
  let '(r, diagnostics, actions) := reap_after_term quiet grace final diagnostics in (r, diagnostics, Kill SIGTERM :: actions).

(** A turn begins with the reads; a script that ends is the deadline. *)
(* src/src/iap2/network_manager.cpp:197-230 run_nmcli (loop) *)
Fixpoint wait_loop (quiet : bool) (turns : list (list Bytes * WaitTurn)) (grace : list (WaitTurn * list Bytes))
    (final : Reaped) (diagnostics : Bytes) : Reaped * bool * Bytes * list Action :=
  let terminate lines timed_out diagnostics :=
    let '(r, diagnostics, actions) := terminate_and_reap quiet grace final diagnostics in
    (r, timed_out, diagnostics, lines ++ actions) in
  match turns with
  | [] => terminate [] true diagnostics
  | (reads, turn) :: turns =>
      let diagnostics := drain_diagnostics quiet reads diagnostics in
      match turn with
      | WaitInterrupted => wait_loop quiet turns grace final diagnostics
      | WaitFailed => terminate [Log warning (bs "Wi-Fi: waitpid failed for nmcli; terminating child" ++ [10])] false diagnostics
      | Exited status => (Status status, false, diagnostics, [])
      | Signaled => (Abnormal, false, diagnostics, [])
      | Running late poll_failed =>
          if late : bool then terminate [] true diagnostics
          else if quiet && poll_failed then terminate [] false diagnostics
          else wait_loop quiet turns grace final diagnostics
      end
  end.

(** ** The process *)

(** What the calls return: the pipe; the secret's file, its writes and the rewinding;
    the error of [posix_spawnp]; the turns; the reads behind the loop; and how many
    milliseconds it all took. *)
Record NmcliWorld := mkNmcliWorld {
  diagnostics_pipe : option (Z * Z);
  memfd : Z;
  secret_writes : list (option nat);
  rewound : bool;
  spawn_error : Z;
  wait_turns : list (list Bytes * WaitTurn);
  grace_turns : list (WaitTurn * list Bytes);
  final_wait : Reaped;
  last_reads : list Bytes;
  elapsed : Z
}.

(* src/src/iap2/network_manager.cpp:98-119 run_nmcli (descriptors) *)
Definition prepare (quiet : bool) (stdin_data : Bytes) (w : NmcliWorld)
    : option (option (Z * Z) * option Z) * list Action :=
  let has_stdin := negb (bytes_eqb stdin_data []) in
  match quiet, diagnostics_pipe w with
  | true, None => (None, [Log error (bs "Wi-Fi: unable to capture nmcli diagnostics" ++ [10])])
  | _, _ =>
      let pipe := if quiet then diagnostics_pipe w else None in
      let opened := match pipe with Some (r, x) => [Descriptor (Opened r); Descriptor (Opened x)] | None => [] end in
      if negb has_stdin then (Some (pipe, None), opened)
      else
        let '(fd, _, events) := secret_memfd (memfd w) (secret_writes w) (rewound w) stdin_data in
        if fd <? 0
        then (None, opened ++ map Descriptor events
                ++ match pipe with Some (r, x) => [Descriptor (Closed r); Descriptor (Closed x)] | None => [] end
                ++ [Log error (bs "Wi-Fi: unable to provide nmcli secrets" ++ [10])])
        else (Some (pipe, Some fd), opened ++ map Descriptor events)
  end.

(* src/src/iap2/network_manager.cpp:238-262 run_nmcli (result) *)
Definition report (allow_inactive timed_out : bool) (r : Reaped) (elapsed : Z) (diagnostics : Bytes) : bool * list Action :=
  if nmcli_success allow_inactive r then
    (true, if 1000 <=? elapsed
           then [Log info (bs "Wi-Fi: NetworkManager command succeeded after " ++ dec elapsed ++ bs " ms" ++ [10])]
           else [])
  else
    (false,
     Log warning (bs "Wi-Fi: NetworkManager command " ++ (if timed_out then bs "timed out" else bs "failed") ++ bs " (exit "
       ++ match r with Status status => dec status | _ => bs "abnormal termination" end
       ++ bs ", after " ++ dec elapsed ++ bs " ms)" ++ [10])
     :: (if bytes_eqb diagnostics [] then [] else [Log warning (bs "Wi-Fi: nmcli: " ++ diagnostics)])).

(** Success, what is stored through [captured_output], and what was done. *)
(* src/src/iap2/network_manager.cpp:86-262 run_nmcli *)
Definition run_nmcli (arguments : list Bytes) (allow_inactive quiet : bool) (stdin_data : Bytes) (w : NmcliWorld)
    : bool * option Bytes * list Action :=
  match prepare quiet stdin_data w with
  | (None, actions) => (false, None, actions)
  | (Some (pipe, input), actions) =>
      let actions := actions ++ [Spawning arguments (file_actions pipe input)]
        ++ match pipe with Some (_, x) => [Descriptor (Closed x); Descriptor (Used (fst (default (0, 0) pipe)))] | None => [] end
        ++ match input with Some fd => [Descriptor (Closed fd)] | None => [] end in
      let close_reader := match pipe with Some (r, _) => [Descriptor (Closed r)] | None => [] end in
      if negb (spawn_error w =? 0)
      then (false, None, actions ++ close_reader
              ++ [Log error (bs "Wi-Fi: unable to run nmcli (error " ++ dec (spawn_error w) ++ bs ")" ++ [10])])
      else
        let '(r, timed_out, diagnostics, waiting) := wait_loop quiet (wait_turns w) (grace_turns w) (final_wait w) [] in
        let diagnostics := drain_diagnostics quiet (last_reads w) diagnostics in
        let '(success, lines) := report allow_inactive timed_out r (elapsed w) diagnostics in
        (success, Some diagnostics, actions ++ waiting ++ close_reader ++ lines)
  end.

(** ** The address of an interface *)

(** An entry of [getifaddrs]: its name, and the text of its address if it has one
    that is IPv4 and can be printed. *)
(* src/src/iap2/network_manager.cpp:38-57 ipv4_address *)
Definition ipv4_address (interface_name : Bytes) (addresses : option (list (Bytes * option Bytes))) : option Bytes :=
  match addresses with
  | None => None
  | Some entries => head (omap (fun e => if bytes_eqb interface_name e.1 then e.2 else None) entries)
  end.

(** What is logged when the hotspot is up. *)
(* src/src/iap2/network_manager.cpp:551-553 start_management_hotspot (gateway) *)
Definition hotspot_gateway (interface_name : Bytes) (addresses : option (list (Bytes * option Bytes))) : list Action :=
  match ipv4_address interface_name addresses with
  | Some address => [Log info (bs "Wi-Fi: management hotspot gateway is " ++ address ++ [10])]
  | None => []
  end.

(** ** Theorems *)

Definition signals (l : list Action) : list Signal := omap (fun a => match a with Kill s => Some s | _ => None end) l.
Definition descriptors (l : list Action) : list Event := omap (fun a => match a with Descriptor e => Some e | _ => None end) l.

(** What one series of reads brings. *)
Definition brought (reads : list Bytes) : Bytes := drain_diagnostics true reads [].

Lemma drain_brings reads : forall d, drain_diagnostics true reads d = d ++ brought reads.
Proof.
  unfold brought. induction reads as [|[|c chunk] reads IH]; intros d; cbn [drain_diagnostics negb];
    [by rewrite app_nil_r..|]. by rewrite IH, (IH ([] ++ _)), app_assoc.
Qed.

(** The first turns brought the diagnostics. *)
Definition read_up_to (all : list (list Bytes)) (before after : Bytes) : Prop :=
  exists k, after = before ++ concat (map brought (take k all)).

Lemma read_nothing all d : read_up_to all d d.
Proof. exists O. by rewrite app_nil_r. Qed.

Lemma read_first reads all d d' :
  read_up_to all (drain_diagnostics true reads d) d' -> read_up_to (reads :: all) d d'.
Proof. intros [k ->]. exists (S k). cbn. by rewrite drain_brings, <- app_assoc. Qed.

Lemma reap_refines grace final : forall d,
  let '(r, d', actions) := reap_after_term true grace final d in
  NetworkManager.terminate_and_reap (map fst grace) final = (r, signals actions) /\
  read_up_to (map snd grace) d d' /\ descriptors actions = [].
Proof.
  induction grace as [|[turn reads] grace IH]; intros d; cbn; [by split_and!; [|apply read_nothing|]|].
  destruct turn; cbn [map fst snd]; try (split_and!; [done|apply read_nothing|done]);
    specialize (IH (drain_diagnostics true reads d)); destruct (reap_after_term _ _ _ _) as [[r d'] actions];
    destruct IH as (? & ? & ?); (split_and!; [done|by apply read_first|done]).
Qed.

(** The waits are those of the abstract process, and nothing that was read in a turn
    is lost. *)
Lemma wait_refines turns grace final : forall d,
  let '(r, timed_out, d', actions) := wait_loop true turns grace final d in
  wait_nmcli (map snd turns) (map fst grace) final = (r, timed_out, signals actions) /\
  (exists middle, read_up_to (map fst turns) d middle /\ read_up_to (map snd grace) middle d') /\
  descriptors actions = [].
Proof.
  induction turns as [|[reads turn] turns IH]; intros d; cbn [wait_loop wait_nmcli map fst snd].
  - pose proof (reap_refines grace final d) as Hr. unfold terminate_and_reap.
    destruct (reap_after_term _ _ _ _) as [[r d'] actions]. destruct Hr as (-> & ? & ?).
    split_and!; [done|exists d; split; [apply read_nothing|done]|done].
  - set (d1 := drain_diagnostics true reads d).
    assert (H1 : read_up_to (reads :: map fst turns) d d1) by (apply read_first, read_nothing).
    assert (Ht : forall lines (timed_out : bool), signals lines = [] -> descriptors lines = [] ->
      let '(r, timed_out', d', actions) :=
        let '(r, d', actions) := terminate_and_reap true grace final d1 in (r, timed_out, d', lines ++ actions) in
      (let '(r, s) := NetworkManager.terminate_and_reap (map fst grace) final in (r, timed_out, SIGTERM :: s))
      = (r, timed_out', signals actions) /\
      (exists middle, read_up_to (reads :: map fst turns) d middle /\ read_up_to (map snd grace) middle d') /\
      descriptors actions = []).
    { intros lines timed_out Hs Hd. pose proof (reap_refines grace final d1) as Hr. unfold terminate_and_reap.
      destruct (reap_after_term _ _ _ _) as [[r d'] actions]. destruct Hr as (-> & ? & Ha).
      unfold signals, descriptors in *. rewrite !omap_app, Hs, Hd. cbn. rewrite Ha. split_and!; [done|by exists d1|done]. }
    assert (Hrec : let '(r, timed_out, d', actions) := wait_loop true turns grace final d1 in
      wait_nmcli (map snd turns) (map fst grace) final = (r, timed_out, signals actions) /\
      (exists middle, read_up_to (reads :: map fst turns) d middle /\ read_up_to (map snd grace) middle d') /\
      descriptors actions = []).
    { specialize (IH d1). destruct (wait_loop _ _ _ _ _) as [[[r t] d'] actions].
      destruct IH as (? & (m & ? & ?) & ?). split_and!; [done| |done]. exists m. split; [by apply read_first|done]. }
    assert (Hend : exists middle, read_up_to (reads :: map fst turns) d middle /\ read_up_to (map snd grace) middle d1)
      by (exists d1; split; [done|apply read_nothing]).
    destruct turn as [| |status| |[] []]; cbn [andb]; try done; by apply Ht.
Qed.

(** Whether the child was started. *)
Definition started (quiet : bool) (stdin_data : Bytes) (w : NmcliWorld) : bool :=
  bool_decide (is_Some (prepare quiet stdin_data w).1) && (spawn_error w =? 0).

(** The abstract process with this output. *)
Definition process_of (quiet : bool) (stdin_data : Bytes) (w : NmcliWorld) (output : Bytes) : Process :=
  NetworkManager.mkProcess (started quiet stdin_data w) (map snd (wait_turns w)) (map fst (grace_turns w))
    (final_wait w) output.

(** A command is what the rest of the program takes it for. With its diagnostics
    captured, as in every use, the run with all its calls gives the success of the
    abstract process; what is captured is the output of that process, and is read
    completely: what the first turns brought, then the first of the grace turns, then
    the reads behind the loop, and nothing between is lost. *)
Theorem nmcli_run_refines arguments allow_inactive stdin_data w rest cs :
  let '(success, captured, _) := run_nmcli arguments allow_inactive true stdin_data w in
  NetworkManager.run_nmcli arguments allow_inactive stdin_data
    (mkNmcli (process_of true stdin_data w (default [] captured) :: rest) cs)
  = (success, default [] captured, mkNmcli rest (cs ++ [mkCommand arguments stdin_data])) /\
  (is_Some captured <-> started true stdin_data w = true) /\
  forall output, captured = Some output -> exists k j,
    output = concat (map brought (take k (map fst (wait_turns w))))
             ++ concat (map brought (take j (map snd (grace_turns w)))) ++ brought (last_reads w).
Proof.
  unfold run_nmcli, NetworkManager.run_nmcli, process_of, started. cbn [head processes tail commands default].
  destruct (prepare true stdin_data w) as [[[pipe input]|] actions]; cbn.
  2: { split_and!; [done| |done]. split; [intros [? [=]]|done]. }
  destruct (spawn_error w =? 0); cbn [negb].
  2: { split_and!; [done| |done]. split; [intros [? [=]]|done]. }
  pose proof (wait_refines (wait_turns w) (grace_turns w) (final_wait w) []) as Hw.
  destruct (wait_loop _ _ _ _ _) as [[[r timed_out] d] waiting]. destruct Hw as (Ew & (m & [k ->] & [j ->]) & _).
  assert (Hr : forall elapsed diagnostics, (report allow_inactive timed_out r elapsed diagnostics).1 = nmcli_success allow_inactive r)
    by (intros; unfold report; by destruct (nmcli_success _ _)).
  specialize (Hr (elapsed w) (drain_diagnostics true (last_reads w)
    (([] ++ concat (map brought (take k (map fst (wait_turns w))))) ++ concat (map brought (take j (map snd (grace_turns w))))))).
  destruct (report _ _ _ _ _) as [success lines]. cbn in Hr. subst success. cbn. rewrite Ew.
  split_and!; [done|done|]. intros output [= <-]. exists k, j. by rewrite drain_brings, <- app_assoc.
Qed.

(** ** Nothing is left behind *)

Lemma reaped_unless_final quiet grace final d :
  (reap_after_term quiet grace final d).1.1 = NotReaped -> final = NotReaped.
Proof.
  revert d. induction grace as [|[[] reads] grace IH]; intros d; cbn; try done; apply IH.
Qed.

Lemma wait_reaps quiet turns grace final : forall d,
  (wait_loop quiet turns grace final d).1.1.1 = NotReaped -> final = NotReaped.
Proof.
  assert (Ht : forall d (lines : list Action) (t : bool),
    (let '(r, d, a) := terminate_and_reap quiet grace final d in (r, t, d, lines ++ a)).1.1.1 = NotReaped -> final = NotReaped).
  { intros d lines t. unfold terminate_and_reap. pose proof (reaped_unless_final quiet grace final d).
    by destruct (reap_after_term _ _ _ _) as [[r d'] a]. }
  induction turns as [|[reads turn] turns IH]; intros d; cbn [wait_loop]; [by apply Ht|].
  destruct turn as [| |status| |[] p]; try done; try apply IH; try apply Ht. destruct (quiet && p); [apply Ht|apply IH].
Qed.

Lemma waiting_has_no_descriptors quiet turns grace final : forall d,
  descriptors (wait_loop quiet turns grace final d).2 = [].
Proof.
  assert (Hg : forall d, descriptors (reap_after_term quiet grace final d).2 = []).
  { induction grace as [|[[] reads] g IH]; intros d; cbn; try done; apply IH. }
  assert (Ht : forall d (lines : list Action) (t : bool), descriptors lines = [] ->
    descriptors (let '(r, d, a) := terminate_and_reap quiet grace final d in (r, t, d, lines ++ a)).2 = []).
  { intros d lines t Hl. unfold terminate_and_reap. specialize (Hg d).
    destruct (reap_after_term _ _ _ _) as [[r d'] a]. unfold descriptors in *. cbn in Hg |- *.
    by rewrite omap_app, Hl. }
  induction turns as [|[reads turn] turns IH]; intros d; cbn [wait_loop]; [by apply Ht|].
  destruct turn as [| |status| |[] p]; try done; try apply IH; try (by apply Ht).
  destruct (quiet && p); [by apply Ht|apply IH].
Qed.

Lemma descriptors_app a b : descriptors (a ++ b) = descriptors a ++ descriptors b.
Proof. apply omap_app. Qed.

Lemma descriptors_events l : descriptors (map Descriptor l) = l.
Proof. unfold descriptors. induction l as [|e l IH]; [done|]. cbn. by f_equal. Qed.

Lemma report_has_no_descriptors allow timed_out r elapsed d : descriptors (report allow timed_out r elapsed d).2 = [].
Proof. unfold report. by repeat case_match. Qed.

(** The file of the secret, opened beside other descriptors. *)
Lemma secret_descriptors live fd writes rewound contents :
  fd ∉ live ->
  let '(r, _, events) := secret_memfd fd writes rewound contents in
  disciplined live events = Some (if 0 <=? r then {[r]} ∪ live else live) /\ (r = fd \/ r = -1).
Proof.
  intros Hf. unfold secret_memfd. destruct (Z.ltb_spec fd 0); [by split; [|right]|].
  assert (L : (0 <=? fd) = true) by lia.
  destruct (write_secret writes contents []) as [[] file]; cbn [negb]; [destruct rewound; cbn [negb]|];
    (split; [rewrite ?L; check_calls; f_equal; set_solver|by auto]).
Qed.

(** The pipe and the file of the secret are different descriptors. *)
Definition fresh_descriptors (w : NmcliWorld) : Prop :=
  match diagnostics_pipe w with
  | Some (r, x) => 0 <= r /\ 0 <= x /\ r <> x /\ r <> memfd w /\ x <> memfd w
  | None => True
  end.

Definition pipe_set (pipe : option (Z * Z)) : gset Z := match pipe with Some (r, x) => {[r; x]} | None => ∅ end.
Definition input_set (input : option Z) : gset Z := match input with Some fd => {[fd]} | None => ∅ end.

(** What is open behind the preparation: what the child is to get, and after a
    failure nothing. *)
Lemma prepare_opens quiet stdin_data w :
  fresh_descriptors w ->
  let '(result, actions) := prepare quiet stdin_data w in
  match result with
  | None => disciplined ∅ (descriptors actions) = Some ∅ /\ exists text, Log error text ∈ actions
  | Some (pipe, input) =>
      disciplined ∅ (descriptors actions) = Some (input_set input ∪ pipe_set pipe) /\
      (pipe = None \/ pipe = diagnostics_pipe w) /\ (input = None \/ input = Some (memfd w))
  end.
Proof.
  unfold fresh_descriptors, prepare. intros Hd.
  assert (Hopen : forall pipe, pipe = None \/ pipe = diagnostics_pipe w ->
    let opened := match pipe with Some (r, x) => [Descriptor (Opened r); Descriptor (Opened x)] | None => [] end in
    disciplined ∅ (descriptors opened) = Some (pipe_set pipe) /\ memfd w ∉ pipe_set pipe /\
    let closed := match pipe with Some (r, x) => [Descriptor (Closed r); Descriptor (Closed x)] | None => [] end in
    disciplined (pipe_set pipe) (descriptors closed) = Some ∅).
  { intros pipe [->| ->]; cbn; [by split_and!; [|set_solver|]|].
    destruct (diagnostics_pipe w) as [[r x]|]; cbn; [|by split_and!; [|set_solver|]].
    split_and!; [check_calls; f_equal; set_solver|set_solver|check_calls; f_equal; set_solver]. }
  assert (Hmain : forall pipe, pipe = None \/ pipe = diagnostics_pipe w ->
    let opened := match pipe with Some (r, x) => [Descriptor (Opened r); Descriptor (Opened x)] | None => [] end in
    let '(result, actions) :=
      if negb (negb (bytes_eqb stdin_data [])) then (Some (pipe, None), opened)
      else
        let '(fd, _, events) := secret_memfd (memfd w) (secret_writes w) (rewound w) stdin_data in
        if fd <? 0
        then (None, opened ++ map Descriptor events
                ++ match pipe with Some (r, x) => [Descriptor (Closed r); Descriptor (Closed x)] | None => [] end
                ++ [Log error (bs "Wi-Fi: unable to provide nmcli secrets" ++ [10])])
        else (Some (pipe, Some fd), opened ++ map Descriptor events) in
    match result with
    | None => disciplined ∅ (descriptors actions) = Some ∅ /\ exists text, Log error text ∈ actions
    | Some (pipe, input) =>
        disciplined ∅ (descriptors actions) = Some (input_set input ∪ pipe_set pipe) /\
        (pipe = None \/ pipe = diagnostics_pipe w) /\ (input = None \/ input = Some (memfd w))
    end).
  { intros pipe Hp. destruct (Hopen pipe Hp) as (H1 & H2 & H3). cbv zeta.
    destruct (negb (negb _)); [split_and!; [rewrite H1; cbn [input_set]; f_equal; set_solver|done|by left]|].
    pose proof (secret_descriptors (pipe_set pipe) (memfd w) (secret_writes w) (rewound w) stdin_data H2) as Hs.
    destruct (secret_memfd _ _ _ _) as [[fd file] events]. destruct Hs as [Hs Hfd]. cbn in H1, H3, Hs.
    destruct (Z.ltb_spec fd 0).
    - replace (0 <=? fd) with false in Hs by lia. split.
      + rewrite !descriptors_app, descriptors_events, disciplined_app, H1. cbn [mbind option_bind].
        rewrite disciplined_app, Hs. cbn [mbind option_bind]. by rewrite disciplined_app, H3.
      + eexists. rewrite !elem_of_app. do 3 right. by left.
    - replace (0 <=? fd) with true in Hs by lia.
      rewrite !descriptors_app, descriptors_events, disciplined_app, H1. cbn [mbind option_bind].
      rewrite Hs. split_and!; [done|done|]. right. destruct Hfd as [->| ->]; [done|lia]. }
  destruct quiet; [destruct (diagnostics_pipe w) as [[r x]|] eqn:E|]; [|split; [done|eexists; by left]|].
  - apply Hmain. by right.
  - apply Hmain. by left.
Qed.

(** A run leaves nothing behind and a failure is never silent. Whatever the calls
    return: at the end no descriptor of the run is open, and none was used or closed
    that was not; the child was reaped, unless even the wait behind [SIGKILL]
    failed; and a run that does not succeed has written a warning or an error. *)
Theorem nmcli_leaves_nothing arguments allow_inactive quiet stdin_data w :
  fresh_descriptors w ->
  let '(success, _, actions) := run_nmcli arguments allow_inactive quiet stdin_data w in
  disciplined ∅ (descriptors actions) = Some ∅ /\
  ((wait_loop quiet (wait_turns w) (grace_turns w) (final_wait w) []).1.1.1 = NotReaped -> final_wait w = NotReaped) /\
  (success = false -> exists text, Log warning text ∈ actions \/ Log error text ∈ actions).
Proof.
  intros Hd. pose proof (prepare_opens quiet stdin_data w Hd) as Hp. unfold run_nmcli.
  pose proof (wait_reaps quiet (wait_turns w) (grace_turns w) (final_wait w) []) as Hreap.
  destruct (prepare quiet stdin_data w) as [[[pipe input]|] actions].
  2: { destruct Hp as [Hp [text Ht]]. split_and!; [done|done|]. intros _. exists text. by right. }
  destruct Hp as (Hp & Hpipe & Hinput).
  assert (Hclose : forall middle rest, descriptors middle = [] -> descriptors rest = [] ->
    disciplined ∅ (descriptors ((actions ++ [Spawning arguments (file_actions pipe input)]
      ++ match pipe with Some (_, x) => [Descriptor (Closed x); Descriptor (Used (fst (default (0, 0) pipe)))] | None => [] end
      ++ match input with Some fd => [Descriptor (Closed fd)] | None => [] end)
      ++ middle ++ match pipe with Some (r, _) => [Descriptor (Closed r)] | None => [] end ++ rest)) = Some ∅).
  { intros middle rest Hm Hr. rewrite !descriptors_app, Hm, Hr, <- !app_assoc, disciplined_app, Hp. cbn [mbind option_bind].
    unfold fresh_descriptors in Hd.
    destruct Hpipe as [->| ->], Hinput as [->| ->]; destruct (diagnostics_pipe w) as [[r x]|];
      cbn; check_calls; f_equal; set_solver. }
  destruct (negb (spawn_error w =? 0)).
  - split_and!; [|done|].
    + apply (Hclose [] [_]); done.
    + intros _. eexists. right. rewrite !elem_of_app. right. right. by left.
  - pose proof (waiting_has_no_descriptors quiet (wait_turns w) (grace_turns w) (final_wait w) []) as Hno.
    destruct (wait_loop _ _ _ _ _) as [[[r timed_out] d] waiting]. cbn in Hno.
    set (diagnostics := drain_diagnostics quiet (last_reads w) d).
    pose proof (report_has_no_descriptors allow_inactive timed_out r (elapsed w) diagnostics) as Hlines.
    assert (Hf : (report allow_inactive timed_out r (elapsed w) diagnostics).1 = false ->
      exists text, Log warning text ∈ (report allow_inactive timed_out r (elapsed w) diagnostics).2).
    { unfold report. destruct (nmcli_success _ _); [done|]. intros _. eexists. by left. }
    destruct (report _ _ _ _ _) as [success lines]. cbn in Hlines, Hf. split_and!; [by apply Hclose|done|].
    intros [text Ht]%Hf. exists text. left. rewrite !elem_of_app. by do 3 right.
Qed.

(** ** What the child gets *)

(** The table of the parent: every descriptor that is open stands for itself. *)
Definition own_table (fds : list Z) : gmap Z Z := list_to_map (map (fun fd => (fd, fd)) fds).

(** nmcli reads the secret and writes to the pipe. When the pipe and the file of the
    secret are not among the three standard descriptors, the standard output and the
    standard error of the child are the pipe, its standard input is the file of the
    secret, and neither of them has another descriptor in it. *)
Theorem child_descriptors reader writer input fds :
  NoDup [reader; writer; input] -> Forall (fun fd => 2 < fd) [reader; writer; input] ->
  writer ∈ fds -> input ∈ fds ->
  let table := fold_left perform (file_actions (Some (reader, writer)) (Some input)) (own_table fds) in
  table !! 0 = Some input /\ table !! 1 = Some writer /\ table !! 2 = Some writer /\
  table !! reader = None /\ table !! writer = None /\ table !! input = None.
Proof.
  intros N P Hw Hi. rewrite !Forall_cons in P. destruct P as (Pr & Pw & Pi & _).
  rewrite !NoDup_cons, !elem_of_cons in N. destruct N as (N1 & N2 & _).
  assert (Hown : forall fd, fd ∈ fds -> own_table fds !! fd = Some fd).
  { intros fd. unfold own_table. clear. induction fds as [|g fds IH]; [set_solver|]. cbn.
    destruct (decide (g = fd)) as [->|Hn]; [by rewrite lookup_insert_eq|]. rewrite lookup_insert_ne by done.
    intros [->|H]%elem_of_cons; [done|by apply IH]. }
  unfold file_actions. replace (input =? 0) with false by lia. cbn [app fold_left perform].
  rewrite (Hown writer Hw). rewrite !lookup_insert_ne, (Hown writer Hw) by lia.
  rewrite !lookup_delete_ne, !lookup_insert_ne, (Hown input Hi) by (lia || naive_solver).
  repeat split; repeat first [rewrite lookup_insert_eq | rewrite lookup_delete_eq | done
    | rewrite lookup_insert_ne by lia | rewrite lookup_delete_ne by (lia || naive_solver)].
Qed.

Lemma child_descriptors_witness :
  let table := fold_left perform (file_actions (Some (5, 6)) (Some 7)) (own_table [0; 1; 2; 5; 6; 7]) in
  table !! 0 = Some 7 /\ table !! 6 = None.
Proof.
  cbv zeta. destruct (child_descriptors 5 6 7 [0; 1; 2; 5; 6; 7]) as (H0 & _ & _ & _ & H6 & _); [| | | |by split].
  - by apply (bool_decide_unpack _).
  - repeat constructor; lia.
  - set_solver.
  - set_solver.
Defined.

(** Only the file of the secret is guarded against being a standard descriptor. When
    the program runs with its standard output closed, the pipe takes that number, and
    the child has no standard output at all. *)
Example closed_standard_output :
  let table := fold_left perform (file_actions (Some (3, 1)) (Some 4)) (own_table [0; 1; 2; 3; 4]) in
  table !! 1 = None /\ table !! 2 = Some 1.
Proof. vm_compute. done. Qed.

(** A process that is asked to end after its deadline, prints a line and obeys. *)
Definition late_world : NmcliWorld :=
  mkNmcliWorld (Some (5, 6)) 7 [Some 3%nat; None; Some 100%nat] true 0
    [([bs "wai"; bs "ting"], Running false false); ([], WaitInterrupted); ([bs " "], Running true false)]
    [(Running false false, [bs "stop"]); (Exited 4, [])] NotReaped [bs "ped"] 60002.

Example late_run :
  run_nmcli [bs "nmcli"] false true (bs "secret") late_world
  = (false, Some (bs "waiting stopped"),
     [Descriptor (Opened 5); Descriptor (Opened 6); Descriptor (Opened 7); Descriptor (Used 7); Descriptor (Used 7);
      Spawning [bs "nmcli"] [Dup2 6 1; Dup2 6 2; CloseAt 5; CloseAt 6; Dup2 7 0; CloseAt 7];
      Descriptor (Closed 6); Descriptor (Used 5); Descriptor (Closed 7); Kill SIGTERM; Descriptor (Closed 5);
      Log warning (bs "Wi-Fi: NetworkManager command timed out (exit 4, after 60002 ms)" ++ [10]);
      Log warning (bs "Wi-Fi: nmcli: waiting stopped")]).
Proof. vm_compute. reflexivity. Qed.

Lemma nmcli_leaves_nothing_witness :
  disciplined ∅ (descriptors (run_nmcli [bs "nmcli"] false true (bs "secret") late_world).2) = Some ∅.
Proof.
  assert (Hf : fresh_descriptors late_world) by (cbn; lia).
  pose proof (nmcli_leaves_nothing [bs "nmcli"] false true (bs "secret") late_world Hf) as H.
  rewrite late_run in H. rewrite late_run. exact (proj1 H).
Defined.
