(* ===== verification/Diagnostics.v ===== *)
(** * What the debug log shows of a control message

    The summaries of [src/src/iap2/bootstrap.cpp] and [src/src/iap2/carplay_probe.cpp].
    They walk the parameters of a message that the accessory sent, whatever it holds. *)

From S2P Require Import Prelude Text Csm.
#[local] Open Scope Z_scope.

(** [std::hex] of a 16-bit number. *)
Definition hex_plain (x : Z) : Bytes :=
  if x <? 16 then hex 1 x else if x <? 256 then hex 2 x else if x <? 4096 then hex 3 x else hex 4 x.

Fixpoint message_list_from (first : bool) (value : Bytes) : Bytes :=
  match value with
  | a :: b :: rest =>
      (if first then [] else bs ", ") ++ bs "0x" ++ hex_plain (u16 (Z.lor (Z.shiftl a 8) b))
      ++ message_list_from false rest
  | _ => []
  end.

(* src/src/iap2/bootstrap.cpp:13-24 message_list *)
Definition message_list (value : Bytes) : Bytes := message_list_from true value.

(** ** Walking the parameters *)

Inductive Walked := AtEnd | MalformedHere | Found (id : Z) (value : Bytes) (next : nat).

(* src/src/iap2/bootstrap.cpp:29-39 parameter_summary (loop head) *)
Definition parameter_at (payload : Bytes) (offset : nat) : Walked :=
  if (length payload <? offset + 4)%nat then AtEnd
  else
    let len := Z.to_nat (read_u16 payload offset) in
    let id := read_u16 payload (offset + 2) in
    if (len <? 4)%nat || (length payload <? offset + len)%nat then MalformedHere
    else Found id (subspan (offset + 4) (len - 4) payload) (offset + len).

Fixpoint summary_from (fuel : nat) (payload : Bytes) (offset : nat) : Bytes :=
  match fuel with
  | O => []
  | S fuel =>
      match parameter_at payload offset with
      | AtEnd => []
      | MalformedHere => bs "invalid@" ++ dec (Z.of_nat offset)
      | Found id value next =>
          (if Nat.eqb offset 0 then [] else bs ", ") ++ bs "0x" ++ hex_plain id ++ bs ":" ++ dec (size_of value)
          ++ summary_from fuel payload next
      end
  end.

(* src/src/iap2/bootstrap.cpp:26-47 parameter_summary *)
Definition parameter_summary (payload : Bytes) : Bytes := summary_from (S (length payload)) payload 0.

(** The two lines for an [IdentificationInformation]. *)
(* src/src/iap2/bootstrap.cpp:92-111 BootstrapSession::handle (debug lines) *)
Definition identification_lines (payload : Bytes) : list Bytes :=
  let shown show id := match first_bytes_parameter payload id with Some value => show value | None => [] end in
  [bs "CSM: IdentificationInformation parameters: " ++ parameter_summary payload;
   bs "CSM: head unit sends [" ++ shown message_list 6 ++ bs "] and receives [" ++ shown message_list 7
   ++ bs "]; wireless component {" ++ shown parameter_summary 24 ++ bs "}"].

(* src/src/iap2/carplay_probe.cpp:94-94 log_carplay_control_parameters (limit) *)
Definition kMaximumValueBytes : nat := 32.

(* src/src/iap2/carplay_probe.cpp:92-101 log_carplay_control_parameters (parameter) *)
Definition parameter_details (id : Z) (value : Bytes) : Bytes :=
  bs " {id=0x" ++ hex_plain id ++ bs ", bytes=" ++ dec (size_of value) ++ bs ", value="
  ++ concat (map (hex 2) (take kMaximumValueBytes value))
  ++ (if (kMaximumValueBytes <? length value)%nat then bs "..." else []) ++ bs "}".

Fixpoint details_from (fuel : nat) (payload : Bytes) (offset : nat) : Bytes :=
  match fuel with
  | O => []
  | S fuel =>
      match parameter_at payload offset with
      | AtEnd => []
      | MalformedHere => bs " malformed@" ++ dec (Z.of_nat offset)
      | Found id value next => parameter_details id value ++ details_from fuel payload next
      end
  end.

(* src/src/iap2/carplay_probe.cpp:74-105 log_carplay_control_parameters *)
Definition log_carplay_control_parameters (debug : bool) (message : Message) : option Bytes :=
  if negb debug || (msg_id message <? 20480) || (20483 <? msg_id message) then None
  else Some (bs "CSM: CarPlay control 0x" ++ hex_plain (msg_id message) ++ bs " parameters:"
             ++ details_from (S (length (msg_payload message))) (msg_payload message) 0).

(** ** Theorems *)

Lemma parameter_at_inside payload offset id value next :
  parameter_at payload offset = Found id value next ->
  (next = offset + 4 + length value /\ next <= length payload)%nat.
Proof.
  unfold parameter_at. destruct (Nat.ltb_spec (length payload) (offset + 4)); [done|].
  set (len := Z.to_nat (read_u16 payload offset)). destruct (Nat.ltb_spec len 4); [done|].
  destruct (Nat.ltb_spec (length payload) (offset + len)); [done|]. cbn [orb]. intros [= <- <- <-].
  unfold subspan. rewrite length_take, length_drop. lia.
Qed.

(** The walk over a message ends, inside of it. Whatever the accessory sent: each
    value that is shown lies within the payload, right behind its header, and the walk
    goes on behind it; so it takes no more rounds than there are octets, and further
    ones would show nothing else. *)
Theorem walk_ends_inside payload :
  (forall offset id value next, parameter_at payload offset = Found id value next ->
     (offset + 4 <= next <= length payload)%nat /\ value = subspan (offset + 4) (next - offset - 4) payload) /\
  (forall fuel, (length payload < fuel)%nat -> summary_from fuel payload 0 = parameter_summary payload /\
     details_from fuel payload 0 = details_from (S (length payload)) payload 0).
Proof.
  split.
  - intros offset id value next H. pose proof (parameter_at_inside _ _ _ _ _ H) as [E L]. split; [lia|].
    revert H. unfold parameter_at. repeat case_match; try done. intros [= <- <- <-]. f_equal. lia.
  - assert (G : forall fuel fuel' offset, (length payload < fuel + offset -> length payload < fuel' + offset ->
      summary_from fuel payload offset = summary_from fuel' payload offset /\
      details_from fuel payload offset = details_from fuel' payload offset)%nat).
    { induction fuel as [|fuel IH]; intros fuel' offset F F'.
      - destruct fuel'; [done|]. cbn. unfold parameter_at. by rewrite (proj2 (Nat.ltb_lt _ _)) by lia.
      - destruct fuel' as [|fuel']; cbn.
        + unfold parameter_at. by rewrite (proj2 (Nat.ltb_lt _ _)) by lia.
        + destruct (parameter_at payload offset) as [| |id value next] eqn:E; [done..|].
          apply parameter_at_inside in E. destruct (IH fuel' next) as [-> ->]; [lia..|done]. }
    intros fuel F. apply G; lia.
Qed.

Lemma walk_ends_inside_witness :
  let payload := encode_parameter (6, [16; 0]) ++ [0; 9; 0; 7; 1] in
  parameter_summary payload = bs "0x6:2invalid@6" /\ summary_from 100 payload 0 = parameter_summary payload.
Proof.
  split; [by vm_compute|].
  exact (proj1 (proj2 (walk_ends_inside (encode_parameter (6, [16; 0]) ++ [0; 9; 0; 7; 1])) 100%nat ltac:(vm_compute; lia))).
Defined.

Lemma parameter_at_encoded pre q rest :
  parameter_ok q ->
  parameter_at (pre ++ encode_parameter q ++ rest) (length pre) = Found q.1 q.2 (length (pre ++ encode_parameter q)).
Proof.
  destruct q as [i v]. intros [Hi Hv]. cbn [fst snd] in *. unfold parameter_at.
  set (buf := pre ++ encode_parameter (i, v) ++ rest).
  assert (buf = pre ++ u16_field (u16 (size_of v + 4)) ++ u16_field i ++ v ++ rest) as Hb
    by (unfold buf, encode_parameter; cbn [fst snd]; by rewrite <- !app_assoc).
  assert (length buf = length pre + 4 + length v + length rest)%nat as Hlen
    by (rewrite Hb, !length_app; unfold u16_field; simpl; lia).
  rewrite (proj2 (Nat.ltb_ge (length buf) _)) by lia. pose proof (size_nonneg v).
  assert (Z.to_nat (read_u16 buf (length pre)) = 4 + length v)%nat as ->.
  { rewrite Hb, read_u16_mid by (done || apply wrap_is_u; lia). rewrite wrap_id by (unfold is_u; lia). unfold size_of. lia. }
  rewrite (proj2 (Nat.ltb_ge _ 4)), (proj2 (Nat.ltb_ge (length buf) _)) by lia. cbn [orb].
  assert (read_u16 buf (length pre + 2) = i) as ->.
  { rewrite Hb, (app_assoc pre). apply read_u16_mid; [done|]. rewrite length_app. done. }
  f_equal; [|rewrite length_app, length_encode_parameter; done].
  rewrite Hb, (app_assoc pre), (app_assoc (pre ++ _)).
  apply subspan_app'; [rewrite !length_app; simpl; lia|lia].
Qed.

Lemma details_at fuel pre ps :
  Forall parameter_ok ps -> (length (concat (map encode_parameter ps)) < fuel)%nat ->
  details_from fuel (pre ++ concat (map encode_parameter ps)) (length pre) = concat (map (fun q => parameter_details q.1 q.2) ps).
Proof.
  intros Hps. revert fuel pre. induction Hps as [|q ps Hq Hps IH]; intros [|fuel] pre Hf; cbn [map concat] in *; try done.
  - cbn. unfold parameter_at. rewrite app_nil_r. by rewrite (proj2 (Nat.ltb_lt _ _)) by lia.
  - simpl in Hf. lia.
  - rewrite length_app, length_encode_parameter in Hf. cbn [details_from].
    rewrite parameter_at_encoded by done. f_equal. rewrite app_assoc. apply IH. lia.
Qed.

(** A well-formed message is shown in full. The debug line of a CarPlay control
    message has one group for each of its parameters, in their order, with the number,
    the length and the first octets of its value. *)
Theorem parameters_shown id ps :
  20480 <= id <= 20483 -> Forall parameter_ok ps ->
  log_carplay_control_parameters true (mkMessage id (concat (map encode_parameter ps))) =
  Some (bs "CSM: CarPlay control 0x" ++ hex 4 id ++ bs " parameters:" ++ concat (map (fun q => parameter_details q.1 q.2) ps)).
Proof.
  intros I P. unfold log_carplay_control_parameters. cbn [msg_id msg_payload negb orb].
  replace (id <? 20480) with false by lia. replace (20483 <? id) with false by lia. cbn [orb].
  rewrite (details_at _ [] ps P) by (simpl; lia). unfold hex_plain.
  replace (id <? 16) with false by lia. replace (id <? 256) with false by lia. by replace (id <? 4096) with false by lia.
Qed.

Lemma parameters_shown_witness :
  log_carplay_control_parameters true (mkMessage 20481 (concat (map encode_parameter [(0, [1]); (11, repeat 171 33)]))) =
  Some (bs "CSM: CarPlay control 0x5001 parameters: {id=0x0, bytes=1, value=01} {id=0xb, bytes=33, value="
        ++ concat (repeat (bs "ab") 32) ++ bs "...}").
Proof.
  rewrite (parameters_shown 20481 [(0, [1]); (11, repeat 171 33)]) by (lia || (repeat constructor; vm_compute; intuition discriminate)).
  by vm_compute.
Defined.
