(* ===== verification/Tools.v ===== *)
(** * The small programs

    [src/src/android_auto_usb_main.cpp], which runs the Android Auto receiver alone and
    prints its events, and [src/src/airplay_pair_setup_probe_main.cpp], which runs one
    AirPlay session. *)

From S2P Require Import Prelude Text DaemonLog ReceiverTypes IngressQueue WiredReceiver ReceiverReports.
#[local] Open Scope Z_scope.

(** ** The receiver alone *)

(* src/src/android_auto_usb_main.cpp:15-35 event_name *)
Definition event_name (type : ReceiverEvent) : Bytes :=
  match type with
  | WaitingForPhone => bs "waiting"
  | AoapTransportReady => bs "ready"
  | ControlSessionReady => bs "session"
  | VideoStreamConfigured => bs "video-configured"
  | VideoStreamStarted => bs "video"
  | TransportTeardown => bs "teardown"
  | Disconnected => bs "disconnected"
  | ReceiverError => bs "error"
  end.

(* src/src/android_auto_usb_main.cpp:42-51 main (event) *)
Definition print_event (type : ReceiverEvent) (detail : Bytes) : LogLevel * Bytes :=
  (match type with ReceiverError => error | TransportTeardown => debug | _ => info end,
   bs "Android Auto USB [" ++ event_name type ++ bs "]: " ++ detail).

Definition printed {Report : Type} (out : list (Output (Report := Report))) : list (LogLevel * Bytes) :=
  omap (fun o => match o with Emitted type detail => Some (print_event type detail) | _ => None end) out.

(** The program from the start of its receiver to its end: what happens until a signal
    sets the flag, and while [stop] joins the threads. *)
(* src/src/android_auto_usb_main.cpp:39-61 main *)
Definition usb_main {Report : Type} (ParseFromArray : Bytes -> option Report) (t : StartTurn)
    (until_signal while_stopping : list Input) : Z * list (LogLevel * Bytes) :=
  let '(r, out) := WiredReceiver.start t (new_receiver (Report := Report)) in
  match last out with
  | Some (Started (Some reason)) => (1, printed out ++ [(error, bs "Android Auto USB: " ++ reason)])
  | _ =>
      let '(r, more) := run ParseFromArray r until_signal in
      let '(r, rest) := run ParseFromArray (stop r) while_stopping in
      (0, printed (out ++ more ++ rest))
  end.

(** ** The probe *)

Record ProbeOptions := mkProbeOptions {
  host : Bytes;
  port : Z;
  timeout_seconds : Z;
  video_path : Bytes;
  pairing_store : Bytes
}.

Definition default_probe : ProbeOptions := mkProbeOptions (bs "10.10.0.1") 7000 10 [] [].

(** [Terminated]: [std::stoi] throws and nothing catches it. *)
Inductive ProbeArguments := RunSession (o : ProbeOptions) | Usage | Terminated.

(* src/src/airplay_pair_setup_probe_main.cpp:8-28 main (arguments) *)
Fixpoint probe_arguments (arguments : list Bytes) (o : ProbeOptions) : ProbeArguments :=
  match arguments with
  | [] => RunSession o
  | argument :: rest =>
      match rest with
      | [] => Usage
      | value :: rest =>
          let given name := bytes_eqb argument (bs name) in
          if given "--host"%string then probe_arguments rest (mkProbeOptions value (port o) (timeout_seconds o) (video_path o) (pairing_store o))
          else if given "--port"%string then
            match stoi value with
            | None => Terminated
            | Some n => probe_arguments rest (mkProbeOptions (host o) (u16 n) (timeout_seconds o) (video_path o) (pairing_store o))
            end
          else if given "--timeout"%string then
            match stoi value with
            | None => Terminated
            | Some n => probe_arguments rest (mkProbeOptions (host o) (port o) n (video_path o) (pairing_store o))
            end
          else if given "--video"%string then probe_arguments rest (mkProbeOptions (host o) (port o) (timeout_seconds o) value (pairing_store o))
          else if given "--pairing-store"%string then probe_arguments rest (mkProbeOptions (host o) (port o) (timeout_seconds o) (video_path o) value)
          else Usage
      end
  end.

(** ** Theorems *)

Lemma step_running (Report : Type) (ParseFromArray : Bytes -> option Report) r i :
  (forall t, i <> Start t) -> i <> StopJoined -> running (WiredReceiver.step ParseFromArray r i).1 = running r.
Proof.
  intros Hs Hj. destruct i as [t|b|b| | |arrived d|result|n e| | |]; cbn [WiredReceiver.step].
  - by destruct (Hs t).
  - unfold send_input_report. by repeat case_match.
  - unfold send_microphone_audio. by repeat case_match.
  - unfold stop. by destruct (running r) eqn:E.
  - done.
  - destruct (usb r); [|done]. by destruct (running r) eqn:E.
  - by destruct (waits r).
  - destruct (of_capability_thread e); [|by destruct (io_free r)]. by destruct (handle_jobs n e r) as (k & c & ->).
  - destruct (io_free r); [|done]. by destruct (jobs r).
  - unfold io_instruction. destruct (io r) as [|i rest]; [done|]. destruct (exec_state i rest r) as [E _].
    by destruct (exec i rest r) as [[r' out] rest'].
  - unfold usb_instruction. destruct (usb r) as [|i rest]; [done|]. destruct (exec_state i rest r) as [E _].
    by destruct (exec i rest r) as [[r' out] rest'].
Qed.

Lemma run_running (Report : Type) (ParseFromArray : Bytes -> option Report) inputs : forall r,
  Forall (fun i => (forall t, i <> Start t) /\ i <> StopJoined) inputs ->
  running (run ParseFromArray r inputs).1 = running r.
Proof.
  induction inputs as [|i inputs IH]; intros r H; [done|]. inversion H as [|? ? [H1 H2] H3]; subst. cbn.
  pose proof (step_running _ ParseFromArray r i H1 H2) as E. destruct (WiredReceiver.step ParseFromArray r i) as [r' out].
  specialize (IH r' H3). destruct (run ParseFromArray r' inputs) as [r'' more]. cbn in *. congruence.
Qed.

Lemma printed_app (Report : Type) (l k : list (Output (Report := Report))) : printed (l ++ k) = printed l ++ printed k.
Proof. apply omap_app. Qed.

(** Only [Started] carries the outcome of a start. *)
Lemma existing_running (Report : Type) devices (r : Receiver (Report := Report)) :
  running (find_existing_aoap_device devices r).1 = running r.
Proof. by destruct (existing_jobs devices r) as [k ->]. Qed.

(** The lines that an instruction may print. *)
Definition prints {Report : Type} (i : Instr (Report := Report)) (line : LogLevel * Bytes) : Prop :=
  exists type detail, says i (Emitted type detail) /\ line = print_event type detail.

Lemma printed_left (Report : Type) (r : Receiver (Report := Report)) out :
  Forall (may_say r) out -> Forall (fun line => exists i, i ∈ io r ++ usb r /\ prints i line) (printed out).
Proof.
  induction 1 as [|o out Ho _ IH]; [constructor|]. destruct o; try exact IH. constructor; [|exact IH].
  destruct Ho as [[Ho|Ho]|(i & Hi & Hs)]; [done..|]. exists i. split; [done|]. by eexists _, _.
Qed.

(** The receiver that runs alone prints its events. When the receiver starts, the
    program ends with 0; what it printed is one line for each event of the receiver up to
    the signal, in their order, and, whatever the receiver meets while [stop] waits for
    its threads, only what the job and the callback that were under way at the signal had left to
    say; when it does not start, the program ends with 1 and its only line is the reason. *)
Theorem usb_main_prints_until_signal (Report : Type) (ParseFromArray : Bytes -> option Report) t until_signal while_stopping :
  Forall (fun i => (forall t, i <> Start t) /\ i <> StopJoined) until_signal ->
  Forall (fun i => forall t, i <> Start t) while_stopping ->
  if usb_init t && has_hotplug t && registered t
  then let '(r, out) := run ParseFromArray (new_receiver (Report := Report)) (Start t :: until_signal) in
       exists late, usb_main ParseFromArray t until_signal while_stopping = (0, printed out ++ late) /\
         Forall (fun line => exists i, i ∈ io r ++ usb r /\ prints i line) late
  else exists reason, usb_main ParseFromArray t until_signal while_stopping = (1, [(error, bs "Android Auto USB: " ++ reason)]).
Proof.
  intros Hu Hw. pose proof (orderly_run ParseFromArray (Start t :: until_signal) _ orderly_new) as Ho. revert Ho.
  unfold usb_main. cbn [run step]. unfold WiredReceiver.start. cbn [running new_receiver].
  destruct (usb_init t); cbn [negb andb]; [|by eexists]. destruct (has_hotplug t); cbn [negb andb]; [|by eexists].
  destruct (registered t); cbn [negb andb]; [|by eexists].
  match goal with |- context [find_existing_aoap_device ?d ?r0] => pose proof (existing_running _ d r0) as E; destruct (find_existing_aoap_device d r0) as [r out] end.
  cbn [fst] in E. cbn in E. replace (out ++ [waiting; Started None]) with ((out ++ [waiting]) ++ [Started None]) by (by rewrite <- app_assoc). rewrite last_snoc.
  pose proof (run_running _ ParseFromArray until_signal r Hu) as R. destruct (run ParseFromArray r until_signal) as [r' more]. cbn [fst] in *. intros Ho.
  destruct (stop_programs r') as [E1 E2].
  destruct (stopped_run ParseFromArray r' while_stopping (stop r') Hw) as (_ & F & _);
    [by apply stopped_stop; rewrite R|unfold orderly in *; by rewrite E1, E2|unfold winding_down; rewrite E1, E2; split; [done|by right]|].
  destruct (run ParseFromArray (stop r') while_stopping) as [r'' rest]. cbn [fst snd] in *.
  exists (printed rest). split; [by rewrite !printed_app, !app_assoc|by apply printed_left].
Qed.

Lemma usb_main_prints_until_signal_witness :
  let parse := fun b : Bytes => Some b in
  let t := mkStartTurn true true true None in
  usb_main parse t [SendInput [1]; Stop] [SendMicrophone [2]; RunJob; StopJoined] =
    (0, [(info, bs "Android Auto USB [waiting]: waiting for a wired Android Auto phone")]).
Proof.
  intros parse t.
  destruct (usb_main_prints_until_signal Bytes parse t [SendInput [1]; Stop] [SendMicrophone [2]; RunJob; StopJoined]
    ltac:(repeat constructor; done) ltac:(repeat constructor; done)) as (late & -> & Hl).
  destruct late as [|line late]; [done|]. apply Forall_cons in Hl as [(i & Hi & _) _]. by apply not_elem_of_nil in Hi.
Defined.

(** The port is taken modulo 2^16, so a number that is none is not refused. *)
Example probe_port_wraps :
  probe_arguments [bs "--port"; bs "72536"] default_probe = RunSession (mkProbeOptions (bs "10.10.0.1") 7000 10 [] []).
Proof. by vm_compute. Qed.
