(* ===== verification/Forwarding.v ===== *)
(** * The forwarding thread

    [MediaSocketForwarder::forward] of [src/src/bridge/media_forwarders.cpp], the base
    class of the video and the audio forwarder: one client at a time is greeted by
    the derived class, then gets the frames of the queue until sending fails, while
    the producer goes on.  What a forwarder adds to the queue and how it greets a
    client is a class with its laws, as it is a virtual method in the code; the
    theorem that a client gets the frames in order is proved once against it.  The
    other end is the reader of [src/src/iap2_bt_main.cpp]. *)

From S2P Require Import Prelude CarplayIpc MediaForwarders BluetoothWorker.
#[local] Open Scope Z_scope.

(** ** The interface of a forwarder *)

(** [accept] is what the owner calls with something to forward; the first argument
    is what the writes to a capture file return. [greet] is the virtual
    [on_client_connected]: whether the client is kept, and what it was sent. *)
(* src/include/aa2acp/bridge/media_forwarders.hpp:51-58 MediaSocketForwarder (virtual methods) *)
Class Forwarder (F : Type) := {
  queue_of : F -> Queue;
  with_queue : Queue -> F -> F;
  accept : list (option nat) -> Bytes -> F -> F;
  greet : list CarplayIpc.Turn -> F -> (bool * Bytes) * F
}.

#[export] Instance video_forwarder : Forwarder VideoSocketForwarder := {
  queue_of := queue;
  with_queue := set_queue;
  accept := push;
  greet := on_client_connected
}.

(** The base class keeps every client and sends it nothing. *)
(* src/src/bridge/media_forwarders.cpp:78-78 MediaSocketForwarder::on_client_connected *)
Definition base_greeting {F} (f : F) : (bool * Bytes) * F := ((true, []), f).

#[export] Instance audio_forwarder : Forwarder Queue := {
  queue_of q := q;
  with_queue q _ := q;
  accept _ pcm q := push_audio pcm q;
  greet _ := base_greeting
}.

(** ** The thread *)

Section Forward.
Context {F : Type} `{Forwarder F}.

(** The forwarder, the frame the thread is sending, what the client of now took, and
    as ghosts what the clients before took and what was accepted, in order. *)
Record Forwarding := mkForwarding {
  forwarder : F;
  sending : option Bytes;
  client : option Bytes;
  gone : list Bytes;
  offered : list Bytes
}.

(** The producer is on another thread and goes on at any moment. A stop that was
    requested is seen between two frames, or by [send_frame]. *)
(* src/src/bridge/media_forwarders.cpp:132-181 MediaSocketForwarder::forward *)
Inductive forward : Forwarding -> Forwarding -> Prop :=
| forward_accept writes bytes f s c g o :
    forward (mkForwarding f s c g o) (mkForwarding (accept writes bytes f) s c g (o ++ [bytes]))
| forward_greet turns sent f f' g o :
    greet turns f = ((true, sent), f') ->
    forward (mkForwarding f None None g o) (mkForwarding f' None (Some sent) g o)
| forward_refuse turns sent f f' g o :
    greet turns f = ((false, sent), f') ->
    forward (mkForwarding f None None g o) (mkForwarding f' None None (g ++ [sent]) o)
| forward_take frame q f c g o :
    take_front (queue_of f) = Some (frame, q) ->
    forward (mkForwarding f None (Some c) g o) (mkForwarding (with_queue q f) (Some frame) (Some c) g o)
| forward_send stop turns frame sent f c g o :
    send_frame stop turns frame = (true, sent) ->
    forward (mkForwarding f (Some frame) (Some c) g o) (mkForwarding f None (Some (c ++ sent)) g o)
| forward_lose stop turns frame sent f c g o :
    send_frame stop turns frame = (false, sent) ->
    forward (mkForwarding f (Some frame) (Some c) g o) (mkForwarding f None None (g ++ [c ++ sent]) o)
| forward_stop f c g o :
    forward (mkForwarding f None (Some c) g o) (mkForwarding f None None (g ++ [c]) o).

Inductive forwarding (start : F) : Forwarding -> Prop :=
| forwarding_start : forwarding start (mkForwarding start None None [] [])
| forwarding_step s s' : forwarding start s -> forward s s' -> forwarding start s'.

(** What each client took. *)
Definition clients (s : Forwarding) : list Bytes := gone s ++ option_list (client s).
End Forward.

Arguments Forwarding : clear implicits.

(** ** The reader *)

(** The frames that calls of [next] bring until one brings none; each call has a
    script of what the socket does. *)
Fixpoint read_frames (limit : Z) (calls : list (list ReadTurn)) (stream : Bytes) : list Bytes :=
  match calls with
  | [] => []
  | turns :: calls =>
      match next_frame limit turns stream with
      | (Some frame, stream, _) => frame :: read_frames limit calls stream
      | (None, _, _) => []
      end
  end.

(** ** What a client gets *)

(** A frame that the header can announce. *)
Definition framed (frame : Bytes) : Prop := 0 < size_of frame < 2 ^ 32.

(** What the laws of a forwarder say: [orderly sent offered f], of the frames that the
    client of now was sent or is being sent, and of what was accepted so far. A
    greeting is nothing, or a frame of which [greets] says what it holds. *)
Class ForwarderLaws (F : Type) `{Forwarder F} := {
  orderly : list Bytes -> list Bytes -> F -> Prop;
  greeting : F -> option Bytes;
  greets : Bytes -> Prop;
  orderly_order : forall sent offered f, orderly sent offered f ->
    sent ++ frames (queue_of f) `sublist_of` offered /\ Forall framed (sent ++ frames (queue_of f)) /\
    Forall framed (option_list (greeting f)) /\ Forall greets (option_list (greeting f));
  orderly_accept : forall sent offered writes bytes f, orderly sent offered f ->
    orderly sent (offered ++ [bytes]) (accept writes bytes f);
  orderly_take : forall sent offered frame q f, orderly sent offered f ->
    take_front (queue_of f) = Some (frame, q) -> orderly (sent ++ [frame]) offered (with_queue q f);
  orderly_greet : forall turns sent offered f result f', orderly sent offered f ->
    greet turns f = (result, f') -> orderly [] offered f' /\
    exists missing, concat (map wire (option_list (greeting f))) = result.2 ++ missing /\
      (result.1 = true -> missing = [])
}.

Section Order.
Context {F : Type} `{ForwarderLaws F}.

(** A prefix of what a client is sent: a greeting, then frames that were offered, in
    order. *)
Definition in_order (offered : list Bytes) (stream : Bytes) : Prop :=
  exists hello data missing, concat (map wire (option_list hello ++ data)) = stream ++ missing /\
    Forall framed (option_list hello ++ data) /\ Forall greets (option_list hello) /\ data `sublist_of` offered.

Definition forwarding_ok (s : Forwarding F) : Prop :=
  Forall (in_order (offered s)) (gone s) /\
  match client s with
  | Some bytes => exists hello data,
      bytes = concat (map wire (option_list hello ++ data)) /\ Forall framed (option_list hello ++ data) /\
      Forall greets (option_list hello) /\ orderly (data ++ option_list (sending s)) (offered s) (forwarder s)
  | None => sending s = None /\ exists sent, orderly sent (offered s) (forwarder s)
  end.

Lemma in_order_later offered more stream : in_order offered stream -> in_order (offered ++ more) stream.
Proof.
  intros (h & d & m & Hc & Hf & Hh & Hs). exists h, d, m. split_and!; [done..|]. etrans; [exact Hs|]. by apply sublist_inserts_r.
Qed.

Lemma send_frame_prefix stop turns frame ok sent :
  send_frame stop turns frame = (ok, sent) ->
  exists missing, wire frame = sent ++ missing /\ (ok = true -> missing = []).
Proof.
  unfold send_frame, wire. destruct stop as [[] s2]; cbn [fst snd]; [intros [= <- <-]; by exists (frame_header frame ++ frame)|].
  destruct (CarplayIpc.send_all turns (frame_header frame)) as [[ok1 s1] r1] eqn:E1.
  apply send_all_prefix in E1 as (m1 & Hm1 & Hok1). destruct (negb ok1 || s2) eqn:Eb.
  - intros [= <- <-]. exists (m1 ++ frame). by rewrite Hm1, <- app_assoc.
  - destruct (CarplayIpc.send_all r1 frame) as [[ok2 s3] r2] eqn:E2. intros [= <- <-].
    apply send_all_prefix in E2 as (m2 & Hm2 & Hok2). bool_hyps. destruct ok1; [|done].
    rewrite (proj1 Hok1 eq_refl), app_nil_r in Hm1. exists m2. rewrite Hm1, <- app_assoc, <- Hm2. split; [done|apply Hok2].
Qed.

Lemma concat_wire_snoc fs frame : concat (map wire (fs ++ [frame])) = concat (map wire fs) ++ wire frame.
Proof. rewrite map_app, concat_app. cbn. by rewrite app_nil_r. Qed.

Lemma forward_ok s s' : forwarding_ok s -> forward s s' -> forwarding_ok s'.
Proof.
  intros [Hg Hc] Hstep. destruct Hstep as [writes bytes f sd c g o|turns sent f f' g o E|turns sent f f' g o E
    |frame q f c g o E|stop turns frame sent f c g o E|stop turns frame sent f c g o E|f c g o];
    unfold forwarding_ok in *; cbn [gone client sending forwarder offered option_list] in *.
  - split; [eapply Forall_impl; [exact Hg|]; intros; by apply in_order_later|]. destruct c as [c|].
    + destruct Hc as (h & d & Hb & Hf & Hh & Ho). exists h, d. split_and!; [done..|by apply orderly_accept].
    + destruct Hc as (-> & sent & Ho). split; [done|]. exists sent. by apply orderly_accept.
  - destruct Hc as (_ & sent0 & Ho). split; [done|]. pose proof (orderly_order _ _ _ Ho) as (_ & _ & Hf & Hgr).
    destruct (orderly_greet _ _ _ _ _ _ Ho E) as (Ho' & m & Hm & Hk). rewrite (Hk eq_refl), app_nil_r in Hm.
    exists (greeting f), []. cbn [app]. rewrite app_nil_r. by split_and!.
  - destruct Hc as (_ & sent0 & Ho). pose proof (orderly_order _ _ _ Ho) as (_ & _ & Hf & Hgr).
    destruct (orderly_greet _ _ _ _ _ _ Ho E) as (Ho' & m & Hm & _). split; [|split; [done|by exists []]].
    apply Forall_app. split; [done|]. constructor; [|done]. exists (greeting f), [], m. rewrite app_nil_r.
    split_and!; [done|done|done|apply sublist_nil_l].
  - destruct Hc as (h & d & Hb & Hf & Hh & Ho). split; [done|]. exists h, d. split_and!; [done..|].
    rewrite app_nil_r in Ho. by apply orderly_take.
  - destruct Hc as (h & d & -> & Hf & Hh & Ho). split; [done|]. exists h, (d ++ [frame]).
    apply send_frame_prefix in E as (m & Hm & Hk). rewrite (Hk eq_refl), app_nil_r in Hm.
    pose proof (orderly_order _ _ _ Ho) as (_ & [[_ Hfr]%Forall_app _]%Forall_app & _).
    split_and!; [by rewrite app_assoc, concat_wire_snoc, Hm|rewrite app_assoc; by apply Forall_app|done|by rewrite app_nil_r].
  - destruct Hc as (h & d & -> & Hf & Hh & Ho). apply send_frame_prefix in E as (m & Hm & _).
    pose proof (orderly_order _ _ _ Ho) as (Hs & [[_ Hfr]%Forall_app _]%Forall_app & _).
    split; [|split; [done|by eexists]]. apply Forall_app. split; [done|]. constructor; [|done].
    exists h, (d ++ [frame]), m. split_and!.
    + by rewrite app_assoc, concat_wire_snoc, Hm, app_assoc.
    + rewrite app_assoc. by apply Forall_app.
    + done.
    + etrans; [|exact Hs]. by apply sublist_inserts_r.
  - destruct Hc as (h & d & -> & Hf & Hh & Ho). pose proof (orderly_order _ _ _ Ho) as (Hs & _ & _).
    split; [|split; [done|by eexists]]. apply Forall_app. split; [done|]. constructor; [|done].
    exists h, d, []. rewrite app_nil_r. split_and!; [done|done|done|]. etrans; [|exact Hs].
    rewrite app_nil_r. by apply sublist_inserts_r.
Qed.

Lemma forwarding_invariant start s : orderly [] [] start -> forwarding start s -> forwarding_ok s.
Proof.
  intros Hstart. induction 1 as [|s s' _ IH Hs]; [|by eapply forward_ok].
  split; [constructor|]. split; [done|by exists []].
Qed.

Lemma clients_in_order start s : orderly [] [] start -> forwarding start s -> Forall (in_order (offered s)) (clients s).
Proof.
  intros Hstart Hs. destruct (forwarding_invariant start s Hstart Hs) as [Hg Hc].
  unfold clients. apply Forall_app. split; [done|]. destruct (client s) as [bytes|]; [|constructor].
  destruct Hc as (h & d & -> & Hf & Hh & Ho). constructor; [|constructor]. exists h, d, []. rewrite app_nil_r.
  split_and!; [done|done|done|]. destruct (orderly_order _ _ _ Ho) as (Hs' & _). etrans; [|exact Hs'].
  rewrite <- app_assoc. by apply sublist_inserts_r.
Qed.
End Order.

(** ** The audio forwarder *)

Definition framed_queue (sent offered : list Bytes) (q : Queue) : Prop :=
  sent ++ frames q `sublist_of` offered /\ Forall framed (sent ++ frames q).

Lemma framed_accepted bytes :
  (size_of bytes =? 0) || (kMaximumQueuedBytes <? size_of bytes) = false -> framed bytes.
Proof. intros E. bool_hyps. pose proof (size_nonneg bytes). unfold framed, kMaximumQueuedBytes in *. lia. Qed.

Lemma framed_more sent offered bytes q : framed_queue sent offered q -> framed_queue sent (offered ++ [bytes]) q.
Proof. intros [Hs Hf]. split; [|done]. etrans; [exact Hs|]. by apply sublist_inserts_r. Qed.

Lemma make_room_suffix maximum size fs : forall queued, exists dropped, fs = dropped ++ (make_room maximum size fs queued).1.
Proof.
  induction fs as [|f fs IH]; intros queued; cbn [make_room]; [by exists []|].
  destruct (_ || _); [|by exists []]. destruct (IH (queued - size_of f)) as [d Hd]. exists (f :: d). cbn. by f_equal.
Qed.

(** Adding at the back, whatever is dropped from the front. *)
Lemma framed_added sent offered bytes dropped fs q q' :
  framed_queue sent offered q -> frames q = dropped ++ fs -> frames q' = fs ++ [bytes] -> framed bytes ->
  framed_queue sent (offered ++ [bytes]) q'.
Proof.
  unfold framed_queue. intros [Hs Hf] Hq -> Hb. rewrite Hq in Hs, Hf. rewrite !Forall_app in Hf. destruct Hf as (H1 & H2 & H3). split.
  - rewrite app_assoc. apply sublist_app; [|done]. etrans; [|exact Hs]. apply sublist_app; [done|]. by apply sublist_inserts_l.
  - rewrite !Forall_app. split_and!; [done..|]. by constructor; [|constructor].
Qed.

Lemma framed_taken sent offered frame q q' :
  framed_queue sent offered q -> take_front q = Some (frame, q') -> framed_queue (sent ++ [frame]) offered q'.
Proof.
  unfold take_front, framed_queue. destruct (frames q) as [|f fs]; [done|]. intros [Hs Hf] [= <- <-]. cbn [frames].
  by rewrite <- !app_assoc.
Qed.

Lemma framed_forgotten sent offered q : framed_queue sent offered q -> framed_queue [] offered q.
Proof. intros [Hs [_ Hf]%Forall_app]. split; [|done]. etrans; [|exact Hs]. by apply sublist_inserts_l. Qed.

#[export] Instance audio_forwarder_laws : ForwarderLaws Queue.
Proof.
  refine {| orderly := framed_queue; greeting _ := None; greets _ := False |}; cbn [queue_of with_queue accept greet audio_forwarder].
  - intros sent offered f [Hs Hf]. by split_and!.
  - intros sent offered _ bytes q Hq. unfold push_audio, enqueue. destruct (size_of bytes =? 0) eqn:E0; [by apply framed_more|].
    destruct (kMaximumQueuedBytes <? size_of bytes) eqn:E1; cbn [orb]; [by apply framed_more|].
    destruct (make_room_suffix (maximum_queued_frames q) (size_of bytes) (frames q) (queued_bytes q)) as [d Hd].
    destruct (make_room _ _ _ _) as [fs queued]. eapply framed_added; [exact Hq|exact Hd|done|apply framed_accepted; by rewrite E0, E1].
  - intros sent offered frame q f. apply framed_taken.
  - intros turns sent offered f result f' Hq [= <- <-]. split; [by eapply framed_forgotten|]. by exists [].
Defined.

(** ** The video forwarder *)

Definition video_greeting (v : VideoSocketForwarder) : option Bytes := match config v with [] => None | c => Some c end.

Lemma nalu_size fuel : forall input n, n ∈ nalus_from fuel input -> size_of n <= size_of input.
Proof.
  induction fuel as [|fuel IH]; intros input n; cbn [nalus_from]; [by intros ?%not_elem_of_nil|].
  assert (Hd : forall k, size_of (drop k input) <= size_of input) by (intros; unfold size_of; rewrite length_drop; lia).
  destruct (start_code input) as [code|].
  - specialize (Hd code). set (body := drop code input) in *. set (k := nalu_length body).
    assert (Hrest : n ∈ nalus_from fuel (drop k body) -> size_of n <= size_of input).
    { intros Hn%IH. unfold size_of in *. rewrite length_drop in Hn. lia. }
    destruct k as [|k']; [exact Hrest|]. intros [->|Hn]%elem_of_cons; [|by apply Hrest].
    unfold size_of in *. rewrite length_take. lia.
  - destruct input as [|c input]; [by intros ?%not_elem_of_nil|]. intros Hn%IH. rewrite size_cons. lia.
Qed.

Definition small (bytes : Bytes) : Prop := size_of bytes <= kMaximumQueuedBytes.

Lemma scan_small ns : forall acc, Forall small ns -> small acc.1.1 -> small acc.1.2 ->
  small (fold_left scan_nalu ns acc).1.1 /\ small (fold_left scan_nalu ns acc).1.2.
Proof.
  induction ns as [|n ns IH]; intros [[s p] k] Hn Hs Hp; cbn [fold_left]; [done|]. apply Forall_cons in Hn as [Hn Hns].
  apply IH; [done|..]; unfold scan_nalu; destruct n as [|c n]; try done; by repeat case_match.
Qed.

(** The queue and the retained frame are among what was accepted, and the parameter
    sets are short enough to be announced. *)
Definition video_orderly (sent offered : list Bytes) (v : VideoSocketForwarder) : Prop :=
  framed_queue sent offered (queue v) /\ (keyframe v = [] \/ keyframe v ∈ offered /\ framed (keyframe v)) /\
  small (sps v) /\ small (pps v).

(** A sequence and a picture parameter set, each behind a start code. *)
Definition parameter_sets (bytes : Bytes) : Prop :=
  exists sps pps, sps <> [] /\ pps <> [] /\ bytes = [0; 0; 0; 1] ++ sps ++ [0; 0; 0; 1] ++ pps.

Lemma greeting_sets v : Forall parameter_sets (option_list (video_greeting v)).
Proof.
  unfold video_greeting, config. destruct (sps v) as [|s ss]; [constructor|]. destruct (pps v) as [|p ps]; [constructor|].
  constructor; [|constructor]. by exists (s :: ss), (p :: ps).
Qed.

Lemma greeting_framed v : small (sps v) -> small (pps v) -> Forall framed (option_list (video_greeting v)).
Proof.
  unfold video_greeting, config, small, framed, kMaximumQueuedBytes. intros Hs Hp.
  destruct (sps v) as [|s ss]; [constructor|]. destruct (pps v) as [|p ps]; [constructor|].
  cbn [app option_list]. constructor; [|constructor]. unfold size_of in *. cbn [length] in *. rewrite length_app. cbn [length]. lia.
Qed.

Lemma elem_sublist (x : Bytes) l : x ∈ l -> [x] `sublist_of` l.
Proof. intros (l1 & l2 & ->)%list_elem_of_split. apply sublist_inserts_l. apply sublist_skip, sublist_nil_l. Qed.

Lemma video_orderly_accept sent offered writes bytes v :
  video_orderly sent offered v -> video_orderly sent (offered ++ [bytes]) (push writes bytes v).
Proof.
  intros (Hq & Hk & Hs & Hp). unfold push.
  assert (Hk' : keyframe v = [] \/ keyframe v ∈ offered ++ [bytes] /\ framed (keyframe v)).
  { destruct Hk as [?|[? ?]]; [by left|right]. split; [by apply elem_of_app; left|done]. }
  destruct (_ || _) eqn:E; [by split_and!; [apply framed_more| | |]|]. apply framed_accepted in E as Hb.
  assert (Hsmall : Forall small (nalus bytes)).
  { apply Forall_forall. intros n Hn%nalu_size. bool_hyps. unfold small. lia. }
  pose proof (scan_small (nalus bytes) (sps v, pps v, false) Hsmall Hs Hp) as [Hs' Hp'].
  destruct (fold_left scan_nalu _ _) as [[s' p'] key]. cbn in Hs', Hp'.
  set (v0 := mkVideo _ _ _ _ _ _ _ _).
  assert (Hc : queue (capture writes bytes v0) = queue v /\ keyframe (capture writes bytes v0) = keyframe v /\
    sps (capture writes bytes v0) = s' /\ pps (capture writes bytes v0) = p').
  { unfold capture. destruct (_ && _); [|done]. by destruct (write_dump _ _ _). }
  destruct Hc as (Hcq & Hck & Hcs & Hcp). cbv zeta. rewrite Hcq. destruct key; cbn [negb].
  - unfold video_orderly. cbn [queue keyframe sps pps]. rewrite Hcs, Hcp. split_and!; [|right|done|done].
    + eapply (framed_added sent offered bytes (frames (queue v)) []); [exact Hq|by rewrite app_nil_r|done|done].
    + split; [apply elem_of_app; right; by left|done].
  - unfold video_orderly. destruct (_ && _); cbn [queue set_queue keyframe sps pps]; rewrite ?Hcq, ?Hck, ?Hcs, ?Hcp;
      (split_and!; [|done|done|done]).
    + eapply (framed_added sent offered bytes [] (frames (queue v))); [exact Hq|done|done|done].
    + by apply framed_more.
Qed.

Lemma video_orderly_greet turns sent offered v result v' :
  video_orderly sent offered v -> on_client_connected turns v = (result, v') ->
  video_orderly [] offered v' /\
  exists missing, concat (map wire (option_list (video_greeting v))) = result.2 ++ missing /\ (result.1 = true -> missing = []).
Proof.
  intros (Hq & Hk & Hs & Hp). unfold on_client_connected. intros [= <- <-]. split.
  - unfold video_orderly. cbn [set_queue queue keyframe sps pps]. split_and!; [|done..].
    destruct (keyframe v) as [|c kf]; [split; [apply sublist_nil_l|constructor]|]. destruct Hk as [[=]|[Hin Hb]].
    destruct (negb _); [|by eapply framed_forgotten]. split; cbn [frames app]; [by apply elem_sublist|by constructor; [|constructor]].
  - change (config (set_queue _ v)) with (config v). unfold video_greeting.
    destruct (config v) as [|c cs]; [by exists []|].
    change (concat (map wire (option_list (Some (c :: cs))))) with (wire (c :: cs) ++ []). rewrite app_nil_r.
    destruct (send_frame (false, false) turns (c :: cs)) as [ok out] eqn:E.
    apply send_frame_prefix in E as (m & Hm & Hok). by exists m.
Qed.

#[export] Instance video_forwarder_laws : ForwarderLaws VideoSocketForwarder.
Proof.
  refine {| orderly := video_orderly; greeting := video_greeting; greets := parameter_sets |}; cbn [queue_of with_queue accept greet video_forwarder].
  - intros sent offered v (Hq & _ & Hs & Hp). destruct Hq. split_and!; [done|done|by apply greeting_framed|apply greeting_sets].
  - intros. by apply video_orderly_accept.
  - intros sent offered frame q v (Hq & Hk & Hs & Hp) Ht. split_and!; [|done..]. by eapply framed_taken.
  - intros turns sent offered v result v'. apply video_orderly_greet.
Defined.

(** ** What the reader gets *)

Lemma be_header frame : framed frame -> be_value (be_bytes 4 (size_of frame)) = size_of frame.
Proof. intros Hf. apply be_value_bytes_id. unfold framed in Hf. lia. Qed.

(** A stream that was cut anywhere is read as a prefix of its frames. *)
Lemma read_frames_prefix limit calls : forall fs stream missing,
  Forall framed fs -> concat (map wire fs) = stream ++ missing ->
  exists rest, fs = read_frames limit calls stream ++ rest.
Proof.
  induction calls as [|turns calls IH]; intros fs stream missing Hf Hs; cbn [read_frames]; [by exists fs|].
  unfold next_frame. destruct (receive_all turns 4 stream) as [[[header|] s1] t1] eqn:E1; [|by exists fs].
  apply media_read_exact in E1 as [Hl ->]. destruct Hf as [|f fs Hfr Hf].
  { cbn in Hs. symmetry in Hs. apply app_nil in Hs as [Hs _]. apply app_nil in Hs as [-> _]. done. }
  cbn [map concat] in Hs. change (wire f) with (be_bytes 4 (size_of f) ++ f) in Hs. rewrite <- !app_assoc in Hs.
  apply app_inj_1 in Hs as [<- Hs]; [|by rewrite length_be_bytes]. rewrite (be_header f Hfr).
  destruct (_ || _); [by exists (f :: fs)|].
  destruct (receive_all t1 _ s1) as [[[frame|] s2] t2] eqn:E2; [|by exists (f :: fs)].
  apply media_read_exact in E2 as [Hl2 ->]. rewrite <- app_assoc in Hs.
  apply app_inj_1 in Hs as [<- Hs]; [|rewrite Hl2; unfold size_of; lia].
  destruct (IH fs s2 missing Hf Hs) as [rest ->]. by exists rest.
Qed.

(** What a client reads, of any forwarder: a greeting at most, then frames that were
    offered, in order. *)
Lemma read_in_order {F} `{ForwarderLaws F} limit calls start s stream :
  orderly [] [] start -> forwarding start s -> stream ∈ clients s ->
  exists hello data, read_frames limit calls stream = option_list hello ++ data /\
    Forall greets (option_list hello) /\ data `sublist_of` offered s.
Proof.
  intros Hstart Hs Hin. pose proof (clients_in_order start s Hstart Hs) as Hall.
  rewrite Forall_forall in Hall. destruct (Hall stream Hin) as (h & d & m & Hc & Hf & Hg & Hd).
  destruct (read_frames_prefix limit calls _ _ _ Hf Hc) as [rest Hr].
  destruct h as [h|]; cbn [option_list app] in *.
  - destruct (read_frames limit calls stream) as [|x xs]; [exists None, []; split_and!; [done|constructor|apply sublist_nil_l]|].
    injection Hr as <- ->. exists (Some h), xs. split_and!; [done|done|]. etrans; [|exact Hd]. by apply sublist_inserts_r.
  - exists None, (read_frames limit calls stream). split_and!; [done|constructor|]. etrans; [|exact Hd].
    cbn in Hr. rewrite Hr. by apply sublist_inserts_r.
Qed.

(** The phone's sounds come in order. In every run of an audio forwarder, whatever the
    clients, the sending and the reads do, a reader on one connection gets packets
    that were pushed, each at most once and in the order of their pushes. *)
Theorem audio_read_in_order limit calls s stream :
  forwarding new_audio s -> stream ∈ clients s -> read_frames limit calls stream `sublist_of` offered s.
Proof.
  intros Hs Hin. destruct (read_in_order limit calls new_audio s stream) as (h & d & -> & Hg & Hd); [|done..|].
  - split; [apply sublist_nil_l|constructor].
  - destruct h as [h|]; [|done]. by apply Forall_cons in Hg as [[] _].
Qed.

Lemma new_video_orderly capturing : orderly [] [] (new_video capturing).
Proof. split_and!; [split; [apply sublist_nil_l|constructor]|by left|unfold small; cbn; done..]. Qed.

(** Everything is read when nothing fails. When every turn brings octets and each call
    has enough of them, the calls bring the frames, as long as they keep the limit of
    the reader. *)
Theorem frames_read_back limit fs calls :
  Forall framed fs -> Forall (fun f => size_of f <= limit) fs ->
  Forall2 (fun turns f => Forall brings turns /\ (4 + length f <= length turns)%nat) calls fs ->
  read_frames limit calls (concat (map wire fs)) = fs.
Proof.
  intros Hf Hl Hc. revert Hf Hl. induction Hc as [|turns f calls fs [Hb Hn] Hc IH]; intros Hf Hl; [done|].
  apply Forall_cons in Hf as [Hf Hfs], Hl as [Hl Hls]. cbn [read_frames map concat].
  change (wire f) with (be_bytes 4 (size_of f) ++ f). rewrite <- app_assoc.
  assert (f <> []) by (intros ->; unfold framed, size_of in Hf; cbn in Hf; lia).
  destruct (media_frame_read limit turns f (concat (map wire fs))) as [Hexact Harr]; [done|done|unfold framed in Hf; lia|].
  destruct (Harr Hb Hn) as (stream' & turns' & E). rewrite E. destruct (Hexact _ _ _ E) as [_ ->].
  f_equal. by apply IH.
Qed.

(** The forwarders take frames that their readers refuse: one that is longer than the
    limit of the reader, 4 MiB of video or 64 KiB of sound, while the queues take up
    to 16 MiB, brings nothing, and nothing behind it is read. *)
Theorem oversized_frame_ends_reading limit calls frame rest :
  framed frame -> limit < size_of frame -> read_frames limit calls (wire frame ++ rest) = [].
Proof.
  intros Hf Hl. destruct calls as [|turns calls]; [done|]. cbn [read_frames]. unfold next_frame.
  destruct (receive_all turns 4 _) as [[[header|] s1] t1] eqn:E1; [|done].
  apply media_read_exact in E1 as [Hlen Hs]. change (wire frame) with (be_bytes 4 (size_of frame) ++ frame) in Hs.
  rewrite <- app_assoc in Hs. apply app_inj_1 in Hs as [<- _]; [|by rewrite length_be_bytes, Hlen].
  rewrite be_header by done. replace (limit <? size_of frame) with true by lia. by rewrite orb_true_r.
Qed.

(** ** Evaluated *)

(** Two packets are pushed; the first is sent whole, the second is cut. *)
Definition two_packets : Forwarding Queue :=
  mkForwarding (mkQueue 100 [] 0) None None [wire [5; 6] ++ [0; 0; 0; 1]] [[5; 6]; [7]].

Lemma two_packets_run : forwarding new_audio two_packets.
Proof.
  eapply forwarding_step;
    [|exact (forward_lose (false, false) [Transfer 4; TransferFailed] [7] [0; 0; 0; 1] (mkQueue 100 [] 0) (wire [5; 6]) [] [[5; 6]; [7]] eq_refl)].
  eapply forwarding_step; [|exact (forward_take [7] (mkQueue 100 [] 0) (mkQueue 100 [[7]] 1) (wire [5; 6]) [] [[5; 6]; [7]] eq_refl)].
  eapply forwarding_step;
    [|exact (forward_send (false, false) [Transfer 3; Transfer 9; Transfer 2] [5; 6] (wire [5; 6]) (mkQueue 100 [[7]] 1) [] [] [[5; 6]; [7]] eq_refl)].
  eapply forwarding_step; [|exact (forward_accept [] [7] (mkQueue 100 [] 0) (Some [5; 6]) (Some []) [] [[5; 6]])].
  eapply forwarding_step; [|exact (forward_take [5; 6] (mkQueue 100 [] 0) (mkQueue 100 [[5; 6]] 2) [] [] [[5; 6]] eq_refl)].
  eapply forwarding_step; [|exact (forward_greet [] [] (mkQueue 100 [[5; 6]] 2) (mkQueue 100 [[5; 6]] 2) [] [[5; 6]] eq_refl)].
  eapply forwarding_step; [|exact (forward_accept [] [5; 6] new_audio None None [] [])].
  apply forwarding_start.
Qed.

Lemma audio_read_in_order_witness :
  let calls := repeat (repeat (Received 2) 6) 3 in
  read_frames (64 * 1024) calls (wire [5; 6] ++ [0; 0; 0; 1]) = [[5; 6]] /\ [[5; 6]] `sublist_of` [[5; 6]; [7]].
Proof.
  cbv zeta. assert (E : read_frames (64 * 1024) (repeat (repeat (Received 2) 6) 3) (wire [5; 6] ++ [0; 0; 0; 1]) = [[5; 6]])
    by (vm_compute; reflexivity).
  split; [exact E|]. rewrite <- E.
  apply (audio_read_in_order (64 * 1024) (repeat (repeat (Received 2) 6) 3) two_packets); [apply two_packets_run|by left].
Defined.

Lemma frames_read_back_witness :
  read_frames 10 [repeat (Received 1) 6; repeat (Received 3) 7] (concat (map wire [[5; 6]; [7; 8; 9]])) = [[5; 6]; [7; 8; 9]].
Proof.
  apply frames_read_back.
  - constructor; [vm_compute; by split|constructor; [vm_compute; by split|constructor]].
  - constructor; [vm_compute; by intros|constructor; [vm_compute; by intros|constructor]].
  - constructor; [|constructor; [|constructor]]; (split; [by repeat constructor|vm_compute; lia]).
Defined.

Lemma oversized_frame_ends_reading_witness :
  read_frames 2 [repeat (Received 9) 20; repeat (Received 9) 20] (wire [1; 2; 3] ++ wire [4]) = [].
Proof. apply oversized_frame_ends_reading; [vm_compute; by split|vm_compute; reflexivity]. Defined.
