(* ===== verification/EndToEnd.v ===== *)
(** * From the phone to the head unit and back

    The processes put together: what the daemon's forwarders take reaches the head unit
    through the worker's readers and the AirPlay session, and what the head unit sends
    reaches the phone through the session, the worker's writers
    ([src/src/iap2_bt_main.cpp]) and the daemon's callbacks
    ([src/src/bridge_daemon_main.cpp]).  Each theorem is proved from the lemmas of the
    parts; nothing is assumed of what lies between them but that it is what the parts
    leave there. *)

From S2P Require Import Prelude Text Crypto ControlCipher SessionAudio SessionVideo SessionChannel SessionEvents CarplayIpc MediaForwarders BluetoothWorker DaemonParts ReceiverTypes AndroidAuto WiredReceiver ReceiverReports DaemonReceiver Forwarding.
#[local] Open Scope Z_scope.

(** ** The worker's writers *)

(** What the session's callback does with an event, and with a packet of the
    microphone: one that is refused is dropped. *)
(* src/src/iap2_bt_main.cpp:538-558 run_bluetooth_worker (event_received, microphone_received) *)
Definition relay (frame : Bytes) (s : CarplayIpc.State) : CarplayIpc.State :=
  let '(taken, w) := CarplayIpc.send frame (CarplayIpc.writer s) in
  mkState w (inflight s) (connection s) (closed s)
    (CarplayIpc.accepted s ++ (if taken then [frame] else [])) (CarplayIpc.written s).

(** The runs in which these frames were relayed in order, with the steps of the writing
    thread in between. *)
Inductive relaying : list Bytes -> CarplayIpc.State -> Prop :=
| relaying_start : relaying [] initial
| relaying_frame frame fs s : relaying fs s -> relaying (fs ++ [frame]) (relay frame s)
| relaying_thread fs s s' : relaying fs s -> CarplayIpc.step s s' ->
    CarplayIpc.accepted s' = CarplayIpc.accepted s -> relaying fs s'.

Lemma relaying_reachable fs s : relaying fs s -> CarplayIpc.reachable s /\ CarplayIpc.accepted s `sublist_of` fs.
Proof.
  induction 1 as [|frame fs s _ [Hr Ha]|fs s s' _ [Hr Ha] Hs E].
  - split; [constructor|done].
  - unfold relay. destruct s as [w i c cl acc wr]. cbn in *.
    destruct (CarplayIpc.send frame w) as [[] w'] eqn:E; cbn [CarplayIpc.accepted].
    + split; [eapply reach_step; [exact Hr|by apply step_send]|by apply sublist_app].
    + rewrite app_nil_r. split; [eapply reach_step; [exact Hr|by eapply step_refused]|by apply sublist_inserts_r].
  - split; [by eapply reach_step|by rewrite E].
Qed.

Lemma relayed_in_order fs s turns i : relaying fs s -> received turns i (streams s) `sublist_of` fs.
Proof. intros [Hr Ha]%relaying_reachable. etrans; [by apply received_accepted|done]. Qed.

(** ** The daemon *)

Section Daemon.
Context {Report : Type} (ParseFromArray : Bytes -> option Report) (serialize : Z * bool -> Z -> Bytes).

(** A frame from the worker, with the writes of the diagnostic dump and the time, or
    something that happens to the receiver. *)
Inductive DaemonInput :=
| CarPlayEvent (turns : list DaemonParts.WriteTurn) (now : Z) (bytes : Bytes)
| ReceiverInput (i : WiredReceiver.Input).

Definition daemon_step (s : Wiring) (i : DaemonInput) : Wiring * list (Output (Report := Report)) :=
  match i with
  | CarPlayEvent turns now bytes => ((on_carplay_event ParseFromArray serialize turns now bytes s).1, [])
  | ReceiverInput i =>
      let '(r, out) := WiredReceiver.step ParseFromArray (receiver s) i in
      (fold_left (fun s o => on_output o s) out (set_receiver r s), out)
  end.

Fixpoint daemon_run (s : Wiring) (inputs : list DaemonInput) : Wiring * list (Output (Report := Report)) :=
  match inputs with
  | [] => (s, [])
  | i :: inputs =>
      let '(s, out) := daemon_step s i in
      let '(s, more) := daemon_run s inputs in (s, out ++ more)
  end.

Definition carplay_frames (inputs : list DaemonInput) : list Bytes :=
  omap (fun i => match i with CarPlayEvent _ _ bytes => Some bytes | _ => None end) inputs.

(** The daemon sends reports for the frames of the workers only. *)
Definition other_input (i : DaemonInput) : Prop :=
  match i with CarPlayEvent _ _ _ => True | ReceiverInput i => forall b, i <> SendInput b end.

(** What the receiver sees of an input. *)
Definition receiver_inputs (i : DaemonInput) : list WiredReceiver.Input :=
  match i with
  | CarPlayEvent _ now bytes => match carplay_input_report bytes with Some key => [SendInput (serialize key now)] | None => [] end
  | ReceiverInput i => [i]
  end.

Lemma on_outputs_receiver out : forall s : Wiring (Report := Report), receiver (fold_left (fun s o => on_output o s) out s) = receiver s.
Proof.
  induction out as [|o out IH]; intros s; cbn [fold_left]; [done|]. rewrite IH.
  destruct o; try done. destruct action; try done. by destruct stream.
Qed.

Lemma send_passes_nothing b r : omap passed (send_input_report ParseFromArray b r).2 = [].
Proof. unfold send_input_report. by repeat case_match. Qed.

Lemma run_app inputs1 inputs2 : forall r, WiredReceiver.run ParseFromArray r (inputs1 ++ inputs2) =
  let '(r1, out1) := WiredReceiver.run ParseFromArray r inputs1 in
  let '(r2, out2) := WiredReceiver.run ParseFromArray r1 inputs2 in (r2, out1 ++ out2).
Proof.
  induction inputs1 as [|i inputs1 IH]; intros r; cbn [WiredReceiver.run app]; [by destruct (WiredReceiver.run _ r inputs2)|].
  destruct (WiredReceiver.step ParseFromArray r i) as [r1 out1]. rewrite IH.
  destruct (WiredReceiver.run _ r1 inputs1) as [r2 out2]. destruct (WiredReceiver.run _ r2 inputs2) as [r3 out3].
  by rewrite app_assoc.
Qed.

Lemma event_receiver turns now bytes (s : Wiring (Report := Report)) :
  receiver (on_carplay_event ParseFromArray serialize turns now bytes s).1
  = (WiredReceiver.run ParseFromArray (receiver s) (receiver_inputs (CarPlayEvent turns now bytes))).1.
Proof.
  unfold on_carplay_event. cbn [receiver_inputs]. destruct (carplay_input_report bytes) as [key|]; [|done].
  cbn [WiredReceiver.run WiredReceiver.step set_dump receiver].
  by destruct (send_input_report ParseFromArray (serialize key now) (receiver s)) as [r out].
Qed.

Lemma event_passes_nothing turns now bytes r :
  omap passed (WiredReceiver.run ParseFromArray r (receiver_inputs (CarPlayEvent turns now bytes))).2 = [].
Proof.
  cbn [receiver_inputs]. destruct (carplay_input_report bytes) as [key|]; [|done].
  cbn [WiredReceiver.run WiredReceiver.step]. pose proof (send_passes_nothing (serialize key now) r) as H.
  destruct (send_input_report ParseFromArray (serialize key now) r) as [r' out]. cbn in *. by rewrite app_nil_r.
Qed.

(** The receiver in the daemon runs as it does alone. *)
Lemma daemon_receiver inputs : forall s : Wiring,
  omap passed (WiredReceiver.run ParseFromArray (receiver s) (concat (map receiver_inputs inputs))).2
  = omap passed (daemon_run s inputs).2.
Proof.
  induction inputs as [|i inputs IH]; intros s; [done|].
  cbn [daemon_run map concat]. rewrite run_app. destruct i as [turns now bytes|i]; cbn [daemon_step].
  - specialize (IH (on_carplay_event ParseFromArray serialize turns now bytes s).1). rewrite event_receiver in IH.
    pose proof (event_passes_nothing turns now bytes (receiver s)) as H1.
    destruct (WiredReceiver.run _ (receiver s) (receiver_inputs _)) as [r1 out1]. cbn [fst snd] in *.
    destruct (daemon_run _ inputs) as [s2 out2]. destruct (WiredReceiver.run _ r1 _) as [r3 out3]. cbn [fst snd app] in *.
    by rewrite omap_app, H1.
  - cbn [receiver_inputs WiredReceiver.run].
    destruct (WiredReceiver.step ParseFromArray (receiver s) i) as [r out].
    specialize (IH (fold_left (fun s o => on_output o s) out (set_receiver r s))).
    rewrite on_outputs_receiver in IH. cbn [set_receiver receiver] in IH.
    destruct (daemon_run _ inputs) as [s2 out2]. destruct (WiredReceiver.run _ r _) as [r3 out3]. cbn [fst snd] in *.
    by rewrite app_nil_r, !omap_app, IH.
Qed.

(** A report the receiver accepted, with the frame that it was made of. *)
Definition obeys (o : Bytes * (Z * bool) * Z) : option Report := ParseFromArray (serialize o.1.2 o.2).

Lemma accepted_events inputs : forall r, Forall other_input inputs ->
  exists obeyed, map (fun o => o.1.1) obeyed `sublist_of` carplay_frames inputs /\
    Forall (fun o => carplay_input_report o.1.1 = Some o.1.2) obeyed /\
    map Some (all_accepted ParseFromArray r (concat (map receiver_inputs inputs))) = map obeys obeyed.
Proof.
  induction inputs as [|i inputs IH]; intros r Ho; [by exists []|]. apply Forall_cons in Ho as [Hi Ho].
  cbn [map concat carplay_frames omap list_omap]. destruct i as [turns now bytes|i]; cbn [receiver_inputs].
  - destruct (carplay_input_report bytes) as [key|] eqn:Ek; cbn [app all_accepted].
    + destruct (IH (WiredReceiver.step ParseFromArray r (SendInput (serialize key now))).1 Ho) as (l & Hs & Hf & He).
      cbn [ReceiverReports.accepted]. destruct (_ || _); [|destruct (ParseFromArray (serialize key now)) as [report|] eqn:Ep];
        cbn [app]; [exists l; split_and!; [by apply sublist_cons|done|done]| |exists l; split_and!; [by apply sublist_cons|done|done]].
      exists ((bytes, key, now) :: l). cbn [map fst snd]. split_and!; [by apply sublist_skip|by constructor|].
      unfold obeys at 1. cbn [fst snd]. rewrite Ep. by f_equal.
    + destruct (IH r Ho) as (l & Hs & Hf & He). exists l. split_and!; [by apply sublist_cons|done|done].
  - cbn [app all_accepted]. destruct (IH (WiredReceiver.step ParseFromArray r i).1 Ho) as (l & Hs & Hf & He).
    exists l. split_and!; [done|done|]. destruct i; try done. by destruct (Hi serialized_report).
Qed.

Lemma sublist_of_map {A B} (f : A -> B) (l : list A) : forall k, k `sublist_of` map f l ->
  exists l', l' `sublist_of` l /\ k = map f l'.
Proof.
  induction l as [|x l IH]; cbn; intros k Hk.
  - apply sublist_nil_r in Hk as ->. by exists [].
  - apply sublist_cons_r in Hk as [Hk|(k' & -> & Hk)].
    + apply IH in Hk as (l' & Hl & ->). exists l'. split; [by apply sublist_cons|done].
    + apply IH in Hk as (l' & Hl & ->). exists (x :: l'). split; [by apply sublist_skip|done].
Qed.

(** What the phone is given by the daemon. *)
Lemma daemon_obeys inputs (s : Wiring) :
  receiver s = new_receiver -> Forall other_input inputs ->
  exists obeyed, map (fun o => o.1.1) obeyed `sublist_of` carplay_frames inputs /\
    Forall (fun o => carplay_input_report o.1.1 = Some o.1.2) obeyed /\
    map Some (omap passed (daemon_run s inputs).2) = map obeys obeyed.
Proof.
  intros Hr Ho. pose proof (daemon_receiver inputs s) as H1. rewrite Hr in H1.
  destruct (accepted_events inputs new_receiver Ho) as (l & Hl & Hf & He).
  assert (Hp : omap passed (daemon_run s inputs).2 `sublist_of`
    all_accepted ParseFromArray new_receiver (concat (map receiver_inputs inputs))) by (rewrite <- H1; apply passed_accepted).
  assert (Hm : map Some (omap passed (daemon_run s inputs).2) `sublist_of` map obeys l)
    by (rewrite <- He; by apply fmap_sublist).
  destruct (sublist_of_map _ _ _ Hm) as (l' & Hl' & E). exists l'. split_and!; [| |done].
  - etrans; [|exact Hl]. by apply fmap_sublist.
  - rewrite Forall_forall in Hf |- *. intros o Hin. apply Hf. by eapply elem_of_sublist.
Qed.
End Daemon.

(** ** From the head unit to the phone *)

(** One AirPlay session of a worker: the keys of its event channel, what arrives on it, and
    what the answers meet. *)
Record EventSession := mkEventSession { event_read_key : Bytes; event_write_key : Bytes; answers : list bool; arriving : list Bytes }.

Definition session_channel `{EVP} (e : EventSession) : EventChannel :=
  (service_event_channel (arriving e) (new_channel (event_read_key e) (event_write_key e) (answers e))).2.

(** The requests that the session handed on are, in order, what the head unit sealed: the
    frames that arrived open under the session's key with the counters 0, 1, 2, ... *)
Definition sealed_by_head_unit `{EVP} (e : EventSession) (requests : list Bytes) : Prop :=
  exists taken unread ps n rest,
    concat (arriving e) = taken ++ unread /\ SessionChannel.opens (event_read_key e) 0 taken ps n rest /\
    concat requests `prefix_of` concat ps /\ Forall complete_event requests.

(** A worker: its AirPlay sessions, the second of which is the retry, one after the other,
    and how far its writer, which both have, got with what they handed on. *)
Record WorkerLife := mkWorkerLife { attempts : list EventSession; event_writer : CarplayIpc.State }.

Definition worker_requests `{EVP} (l : WorkerLife) : list Bytes :=
  concat (map (fun e => SessionChannel.events (session_channel e)) (attempts l)).

Lemma lives_in_order `{EVP} turns workers : forall i,
  Forall (fun l => relaying (worker_requests l) (event_writer l)) workers ->
  received turns i (concat (map (fun l => streams (event_writer l)) workers)) `sublist_of`
    concat (map (fun e => SessionChannel.events (session_channel e)) (concat (map attempts workers))).
Proof.
  induction workers as [|l workers IH]; intros i Hw; [done|]. apply Forall_cons in Hw as [Hl Hw].
  cbn [map concat]. rewrite received_app, map_app, concat_app. apply sublist_app; [by apply relayed_in_order|by apply IH].
Qed.

(** C11. The phone obeys the head unit alone. Over the daemon's life, with any number of
    workers one after the other and the AirPlay sessions of each, the reports that the
    daemon passes on to the phone are, in order and each at most once, made of requests
    that the head unit, which alone has the key of a session's event channel, sealed
    and sent on it, whatever arrives on the network, however the sockets between the
    processes fail, and whatever happens to the receiver meanwhile, stops included. *)
Theorem phone_obeys_head_unit {Report} (ParseFromArray : Bytes -> option Report) serialize `{EVP}
    workers turns inputs (s : Wiring) :
  Forall (fun l => relaying (worker_requests l) (event_writer l)) workers ->
  carplay_frames inputs = received turns 0 (concat (map (fun l => streams (event_writer l)) workers)) ->
  receiver s = new_receiver -> Forall other_input inputs ->
  Forall (fun e => sealed_by_head_unit e (SessionChannel.events (session_channel e))) (concat (map attempts workers)) /\
  exists obeyed,
    map (fun o => o.1.1) obeyed `sublist_of` concat (map (fun e => SessionChannel.events (session_channel e)) (concat (map attempts workers))) /\
    Forall (fun o => carplay_input_report o.1.1 = Some o.1.2) obeyed /\
    map Some (omap passed (daemon_run ParseFromArray serialize s inputs).2) = map (obeys ParseFromArray serialize) obeyed.
Proof.
  intros Hw Hin Hr Ho. split.
  - apply Forall_forall. intros e _. unfold session_channel.
    destruct (service_event_channel _ _) as [alive ch] eqn:Hch.
    destruct (service_in_order _ _ _ _ _ _ Hch) as (taken & unread & ps & n & rest & H1 & H2 & H3 & H4 & _).
    exists taken, unread, ps, n, rest. by split_and!.
  - destruct (daemon_obeys ParseFromArray serialize inputs s Hr Ho) as (obeyed & H5 & H6 & H7).
    exists obeyed. split_and!; try done. etrans; [exact H5|]. rewrite Hin. by apply lives_in_order.
Qed.

(** One transfer for all octets. *)
Lemma send_all_once bytes rest :
  bytes <> [] -> CarplayIpc.send_all (CarplayIpc.Transfer (length bytes) :: rest) bytes = (true, bytes, rest).
Proof.
  destruct bytes as [|c bytes]; [done|]. intros _. cbn [CarplayIpc.send_all length]. rewrite Nat.min_id.
  change (S (length bytes)) with (length (c :: bytes)). rewrite drop_all, take_ge by done.
  destruct rest; cbn [CarplayIpc.send_all]; by rewrite app_nil_r.
Qed.

Lemma write_frame_once frame : frame <> [] -> exists turns, CarplayIpc.write_frame turns frame = (true, CarplayIpc.wire frame).
Proof.
  intros Hf. exists [CarplayIpc.Transfer (length (CarplayIpc.frame_header frame)); CarplayIpc.Transfer (length frame)].
  unfold CarplayIpc.write_frame. rewrite send_all_once by done. by rewrite send_all_once.
Qed.

(** Frames that are relayed one at a time, each written before the next. *)
Lemma relayed_at_leisure fs :
  Forall CarplayIpc.frame_ok fs -> exists c, relaying fs (mkState (mkWriter [] 0) None c [] fs fs) /\ default [] c = concat (map CarplayIpc.wire fs).
Proof.
  induction fs as [|frame fs IH] using rev_ind; intros Hf.
  - exists None. split; [apply relaying_start|done].
  - apply Forall_app in Hf as [Hfs Hf%Forall_inv]. destruct (IH Hfs) as (c & Hr & Hc).
    exists (Some (concat (map CarplayIpc.wire (fs ++ [frame])))). split; [|done].
    apply (relaying_frame frame) in Hr. unfold relay, CarplayIpc.send in Hr. cbn [CarplayIpc.writer CarplayIpc.frames CarplayIpc.queued_bytes] in Hr.
    unfold CarplayIpc.frame_ok in Hf. destruct Hf as [Hpos Hmax]. assert (E : (size_of frame =? 0) || (CarplayIpc.kMaximumFrameSize <? size_of frame)
      || (CarplayIpc.kMaximumQueuedBytes <? size_of frame) = false).
    { unfold CarplayIpc.kMaximumFrameSize, CarplayIpc.kMaximumQueuedBytes in *. lia. }
    rewrite E in Hr. rewrite (proj2 (Z.leb_gt _ _)) in Hr by done. cbn [orb] in Hr.
    rewrite (proj2 (Z.ltb_ge _ (0 + size_of frame))) in Hr by (unfold CarplayIpc.kMaximumFrameSize, CarplayIpc.kMaximumQueuedBytes in *; lia).
    cbn [inflight connection closed CarplayIpc.accepted CarplayIpc.written app] in Hr.
    assert (Hne : frame <> []) by (intros ->; unfold size_of in Hpos; cbn in Hpos; lia).
    destruct (write_frame_once frame Hne) as [turns Hw].
    eapply relaying_thread in Hr; [|apply (step_take frame); reflexivity|done]. cbn [CarplayIpc.queued_bytes] in Hr.
    replace (0 + size_of frame - size_of frame) with 0 in Hr by lia.
    assert (Hc' : relaying (fs ++ [frame]) (mkState (mkWriter [] 0) (Some frame) (Some (default [] c)) [] (fs ++ [frame]) fs))
      by (destruct c; [exact Hr|eapply relaying_thread; [exact Hr|apply step_connect|done]]).
    eapply relaying_thread in Hc'; [|exact (step_write turns frame _ _ _ _ _ _ Hw)|done].
    rewrite Hc in Hc'. rewrite map_app, concat_app. cbn [map concat]. by rewrite app_nil_r.
Qed.

(** The head unit is heard. When the head unit seals complete requests that a frame can
    hold, and nothing fails, however the network cuts them, the event channel answers
    them all and stays open, and the worker can relay them so that the daemon gets
    every one, as it was, in order. *)
Theorem requests_reach_daemon `{EVPLaws} rk wk ms w frames w' datas turns :
  encrypt_all ms w = (Some frames, w') -> write_key w = rk -> write_counter w = 0 ->
  Forall complete_event ms -> Forall (answerable rk wk) ms -> Forall CarplayIpc.frame_ok ms ->
  concat datas = concat frames -> Forall (fun d => size_of d <= 4096) datas ->
  Forall (fun t => exists n, t = CarplayIpc.Transfer (S n)) turns ->
  (length (concat (map CarplayIpc.wire ms)) <= length turns)%nat ->
  exists ch relayed,
    service_event_channel datas (new_channel rk wk (repeat true (length ms))) = (true, ch) /\
    answered ch = map cseq_of ms /\ relaying (SessionChannel.events ch) relayed /\
    received (fun _ => turns) 0 (streams relayed) = ms.
Proof.
  intros He Hk Hn Hms Has Hok Hd Hs Ht Hl.
  destruct (event_channel_answers_all rk wk ms w frames w' datas He Hk Hn Hms Has Hd Hs) as (n & k & Hch).
  destruct (relayed_at_leisure ms Hok) as (c & Hr & Hc).
  eexists _, _. split; [exact Hch|]. split; [done|]. split; [exact Hr|].
  unfold streams. cbn [closed connection app]. destruct c as [stream|]; cbn in Hc |- *.
  - rewrite app_nil_r, Hc. by apply CarplayIpc.frames_roundtrip.
  - destruct ms as [|m ms]; [done|]. by cbn in Hc.
Qed.

(** The sound of the microphone reaches the daemon as the head unit sealed it: in
    order, no packet twice. *)
Theorem microphone_relayed `{EVP} key datagrams w turns :
  let delivered := microphone_receiver key datagrams new_window in
  relaying (map snd delivered) w ->
  received turns 0 (streams w) `sublist_of` map snd (fresh_deliveries key datagrams []) /\
  NoDup (map (fun d => datagram_counter d.1) delivered).
Proof.
  cbv zeta. rewrite (receiver_refines key datagrams new_window []) by done. intros Hw.
  split; [by apply relayed_in_order|apply fresh_deliveries_counters].
Qed.

(** ** From the phone to the head unit *)

Lemma next_frame_size limit turns stream frame stream' turns' :
  0 <= limit -> next_frame limit turns stream = (Some frame, stream', turns') -> size_of frame <= limit.
Proof.
  intros H0. unfold next_frame. destruct (BluetoothWorker.receive_all turns 4 stream) as [[[header|] s1] t1]; [|done].
  destruct (_ || _) eqn:E; [done|]. intros Hr. apply media_read_exact in Hr as [Hl _]. bool_hyps. unfold size_of. lia.
Qed.

Lemma read_frames_small limit calls : 0 <= limit -> forall stream, Forall (fun f => size_of f <= limit) (read_frames limit calls stream).
Proof.
  intros H0. induction calls as [|turns calls IH]; intros stream; cbn [read_frames]; [done|].
  destruct (next_frame limit turns stream) as [[[f|] s1] t1] eqn:E; [|done]. constructor; [by eapply next_frame_size|apply IH].
Qed.

Definition unit_cost (n : Bytes) : Z := 3 + size_of n.
Definition cost (ns : list Bytes) : Z := fold_right (fun n c => unit_cost n + c) 0 ns.

(** Every unit stands behind a start code. *)
Lemma nalus_cost fuel : forall input, cost (nalus_from fuel input) <= size_of input.
Proof.
  induction fuel as [|fuel IH]; intros input; cbn [nalus_from]; [apply size_nonneg|].
  destruct (MediaForwarders.start_code input) as [code|] eqn:E.
  - assert (Hc : (3 <= code <= length input)%nat).
    { unfold MediaForwarders.start_code in E. destruct (three input) eqn:E3, (four input) eqn:E4; cbn in E; try done; injection E as <-;
        unfold three, four in *; bool_hyps; repeat match goal with H : Nat.leb _ _ = true |- _ => apply Nat.leb_le in H end; lia. }
    set (body := drop code input). assert (Hb : size_of body = size_of input - Z.of_nat code)
      by (unfold body, size_of; rewrite length_drop; lia).
    set (k := MediaForwarders.nalu_length body). specialize (IH (drop k body)).
    assert (Hd : size_of (take k body) + size_of (drop k body) = size_of body)
      by (rewrite <- size_app, take_drop; done).
    pose proof (size_nonneg (take k body)).
    destruct k as [|k']; [lia|]. unfold cost, unit_cost in *. cbn [fold_right]. lia.
  - destruct input as [|c input]; [done|]. specialize (IH input). rewrite size_cons. lia.
Qed.

Lemma frame_cost ns : size_of (frame_of ns) <= 2 * cost ns.
Proof.
  induction ns as [|n ns IH]; [done|]. unfold cost, unit_cost in *. cbn [frame_of fold_right]. pose proof (size_nonneg n).
  destruct (_ || _); [lia|]. rewrite !size_app. change (size_of [_; _; _; _]) with 4. lia.
Qed.

Lemma frame_of_small limit bytes : size_of bytes <= limit -> size_of (frame_of (h264_nalus bytes)) <= 2 * limit.
Proof.
  intros Hb. rewrite h264_nalus_agree. pose proof (frame_cost (MediaForwarders.nalus bytes)).
  pose proof (nalus_cost (length bytes) bytes). unfold MediaForwarders.nalus in *. lia.
Qed.

Lemma config_small seen config : config_from seen config -> size_of config < 2 ^ 32.
Proof.
  intros (sps & pps & _ & _ & _ & _ & E). unfold avcc_config in E. repeat case_match; simplify_eq. bool_hyps.
  rewrite !size_app. change (size_of [_; _; _; _; _; _; _; _]) with 8. change (size_of [_; _; _]) with 3. lia.
Qed.

Lemma length_omap {A B} (f : A -> option B) l : (length (omap f l) <= length l)%nat.
Proof.
  induction l as [|x l IH]; [done|]. cbn [omap list_omap]. change (list_omap A B f l) with (omap f l).
  destruct (f x); cbn [length]; lia.
Qed.

Lemma live_frames_of turns : exists fs, fs `sublist_of` omap video_frame turns /\ live_frames turns = map h264_nalus fs.
Proof.
  induction turns as [|turn turns (fs & Hs & E)]; [by exists []|]. cbn [live_frames omap list_omap].
  destruct (video_stop turn); [exists []; split; [apply sublist_nil_l|done]|].
  destruct (video_frame turn) as [f|]; [|exists []; split; [apply sublist_nil_l|done]].
  exists (f :: fs). split; [by apply sublist_skip|]. cbn. by rewrite E.
Qed.

(** C29. The head unit shows the phone's picture. A live session reads the daemon's video
    socket on one connection, first until it has seen the parameter sets and a key
    frame and then without end. When it ends with success, the head unit, which has
    the key of the stream, decodes from what was written the configuration and
    exactly the slices of a list of access units that begins with an IDR picture and
    holds, in order and each at most once, units that the phone sent; only the first
    may be the forwarder's own parameter sets. *)
Theorem picture_follows_phone `{EVPLaws} key calls capturing f stream startup_turns turns config st io s :
  forwarding (new_video capturing) f -> stream ∈ clients f ->
  omap next_video_frame startup_turns ++ omap video_frame turns = read_frames kVideoLimit calls stream ->
  startup startup_turns None new_startup = SessionVideo.Started config st ->
  data_stream key config (true, true) [] (map (fun u => (u, io)) (initial_access_units st)) turns = (0, s) ->
  size_of turns < 2 ^ 63 ->
  exists hello first units, Forall parameter_sets (option_list hello) /\
    first :: units `sublist_of` option_list hello ++ Forwarding.offered f /\
    existsb (has_type 5) (h264_nalus first) = true /\
    Receiver.read key (SessionVideo.written s) = Some (config, shown (map h264_nalus (first :: units))).
Proof.
  intros Hf Hin Hread Hstart Hdata Hn.
  destruct (live_stream_starts_decodable _ _ _ Hstart) as (seen & rest & first & Hseen & Hu & Hfirst & Hkey & Hconfig & _).
  destruct (live_frames_of turns) as (units & Hunits & Elive).
  assert (Hsub : first :: units `sublist_of` read_frames kVideoLimit calls stream).
  { rewrite <- Hread, Hseen. change (first :: units) with ([first] ++ units). apply sublist_app; [|done].
    apply sublist_inserts_r. by apply elem_sublist. }
  destruct (read_in_order kVideoLimit calls (new_video capturing) f stream (new_video_orderly capturing) Hf Hin)
    as (hello & data & E & Hgreets & Hdata').
  pose proof (read_frames_small kVideoLimit calls ltac:(done) stream) as Hsmall. rewrite E in Hsub, Hsmall.
  exists hello, first, units. split_and!; [done| |done|].
  - etrans; [exact Hsub|]. by apply sublist_app.
  - assert (Es : sent_units [] (map (fun u => (u, io)) (initial_access_units st)) turns = map h264_nalus (first :: units))
      by (unfold sent_units; rewrite Hu; cbn [static_frames map fst app]; by rewrite Elive).
    rewrite <- Es. apply data_stream_reads; [done|by eapply config_small| |].
    + rewrite Es. apply Forall_map, Forall_forall. intros u Hin'. rewrite Forall_forall in Hsmall.
      pose proof (frame_of_small kVideoLimit u (Hsmall u ltac:(by eapply elem_of_sublist))). unfold kVideoLimit in *. lia.
    + rewrite Es. unfold size_of in *. rewrite length_map. cbn [length].
      assert (length units <= length turns)%nat.
      { etrans; [by apply sublist_length|apply length_omap]. }
      lia.
Qed.

Lemma sent_in_order `{EVP} key frame_size turns : forall s,
  map fst (audio_sender key frame_size turns s) `sublist_of` omap SessionAudio.next_audio turns.
Proof.
  induction turns as [|turn turns IH]; intros s; [done|]. cbn [audio_sender omap list_omap].
  destruct (SessionAudio.stop_requested turn); [apply sublist_nil_l|].
  destruct (SessionAudio.next_audio turn) as [pcm|]; [|apply sublist_nil_l].
  destruct (_ || _); [apply sublist_cons, IH|]. destruct (audio_packet key pcm s); [|apply sublist_nil_l].
  destruct (SessionAudio.send_ok turn); cbn [negb map fst]; [apply sublist_skip, IH|apply sublist_nil_l].
Qed.

(** The head unit plays the phone's sound. What the receiver of a stream, which has its
    key, gets from the packets of the session are packets of samples that the phone
    sent, in order and each at most once, whatever the forwarder's clients, the socket
    between the processes and the sending of the datagrams do. *)
Theorem sound_follows_phone `{EVPLaws} key frame_size calls f stream turns :
  forwarding new_audio f -> stream ∈ clients f ->
  omap SessionAudio.next_audio turns = read_frames (64 * 1024) calls stream ->
  (2 | frame_size) -> 0 < frame_size -> Forall sendable turns -> Z.of_nat (length turns) < 2 ^ 64 ->
  map snd (microphone_receiver key (map snd (audio_sender key frame_size turns new_sender)) new_window)
    `sublist_of` Forwarding.offered f.
Proof.
  intros Hf Hin Hread Heven Hpos Hs Hn. destruct (audio_stream_received key frame_size turns Heven Hpos Hs Hn) as [_ ->].
  etrans; [apply sent_in_order|]. rewrite Hread.
  destruct (read_in_order (64 * 1024) calls new_audio f stream) as (h & d & -> & Hg & Hd); [|done..|].
  - split; [apply sublist_nil_l|constructor].
  - destruct h as [h|]; [|done]. by apply Forall_cons in Hg as [[] _].
Qed.

(** ** Evaluated *)

(** The head unit sends one key press. *)
Definition key_stream : Bytes := example_frames [key_event].
Definition key_channel : bool * EventChannel :=
  @service_event_channel Toy.toy_evp [key_stream] (new_channel example_key example_key [true]).

(** It was relayed, taken by the writing thread and written. *)
Definition key_written : CarplayIpc.State :=
  mkState (mkWriter [] 0) None (Some (CarplayIpc.wire key_event)) [] [key_event] [key_event].

Lemma key_relayed : relaying [key_event] key_written.
Proof.
  eapply relaying_thread; [|exact (step_write (repeat (CarplayIpc.Transfer 999) 9) key_event (mkWriter [] 0) [] _ [] [key_event] [] ltac:(vm_compute; reflexivity))|reflexivity].
  eapply relaying_thread; [|apply step_connect|reflexivity].
  eapply relaying_thread; [|apply (step_take key_event (mkWriter [key_event] (size_of key_event))); vm_compute; reflexivity|reflexivity].
  exact (relaying_frame key_event [] initial relaying_start).
Qed.

(** A worker whose first attempt fails and whose second is sent the key, and the next
    worker, which is sent it again under another key of its own. *)
Definition second_key : Bytes := repeat 9 32.
Definition second_stream : Bytes :=
  concat (default [] (@encrypt_all Toy.toy_evp [key_event] (new_cipher [] second_key)).1).
Definition two_lives : list WorkerLife :=
  [mkWorkerLife [mkEventSession second_key second_key [] [[1; 2; 3]]; mkEventSession example_key example_key [true] [key_stream]] key_written;
   mkWorkerLife [mkEventSession second_key second_key [true] [second_stream]] key_written].

(** The daemon gets both while a phone is there, and is stopped while it passes on the
    second. *)
Definition key_inputs : list DaemonInput :=
  map ReceiverInput ([Start plain_start; phone_at 7] ++ whole_job) ++
  [CarPlayEvent [] 5 key_event] ++ map ReceiverInput whole_job ++
  [CarPlayEvent [] 5 key_event] ++ map ReceiverInput [RunJob; IoStep; Stop; IoStep; IoStep; StopJoined].

Definition fresh_wiring : Wiring (Report := Bytes) :=
  mkWiring new_wired new_receiver (new_video false) new_audio new_audio new_audio
    (start_event_dump (Some (bs "/tmp/events")) true true true true true true true).

Lemma phone_obeys_head_unit_witness :
  omap passed (daemon_run Some plain_report fresh_wiring key_inputs).2 = [[23; 1]; [23; 1]] /\
  map (fun e => SessionChannel.events (@session_channel Toy.toy_evp e)) (concat (map attempts two_lives)) = [[]; [key_event]; [key_event]] /\
  Forall (fun e => @sealed_by_head_unit Toy.toy_evp e (SessionChannel.events (@session_channel Toy.toy_evp e))) (concat (map attempts two_lives)) /\
  exists obeyed,
    map (fun o => o.1.1) obeyed `sublist_of` [key_event; key_event] /\
    Forall (fun o => carplay_input_report o.1.1 = Some o.1.2) obeyed /\
    map Some [[23; 1]; [23; 1]] = map (obeys Some plain_report) obeyed.
Proof.
  assert (E : omap passed (daemon_run Some plain_report fresh_wiring key_inputs).2 = [[23; 1]; [23; 1]]) by (vm_compute; reflexivity).
  assert (Ech : map (fun e => SessionChannel.events (@session_channel Toy.toy_evp e)) (concat (map attempts two_lives))
    = [[]; [key_event]; [key_event]]) by (vm_compute; reflexivity).
  split; [exact E|]. split; [exact Ech|]. rewrite <- E.
  change [key_event; key_event] with (concat [[]; [key_event]; [key_event]]). rewrite <- Ech.
  apply (@phone_obeys_head_unit Bytes Some plain_report Toy.toy_evp two_lives (fun _ => repeat (CarplayIpc.Transfer 999) 9) key_inputs fresh_wiring).
  - assert (H1 : @worker_requests Toy.toy_evp (nth 0 two_lives (mkWorkerLife [] initial)) = [key_event]) by (vm_compute; reflexivity).
    assert (H2 : @worker_requests Toy.toy_evp (nth 1 two_lives (mkWorkerLife [] initial)) = [key_event]) by (vm_compute; reflexivity).
    cbn [nth two_lives] in H1, H2. unfold two_lives. repeat constructor; rewrite ?H1, ?H2; exact key_relayed.
  - vm_compute. reflexivity.
  - reflexivity.
  - repeat constructor; done.
Defined.

(** A packet of the microphone that is repeated on the network. *)
Lemma microphone_relayed_witness :
  let sent := @audio_sender Toy.toy_evp example_key 2 [mkTurn false (Some [1; 2]) true] new_sender in
  let datagrams := concat (repeat (map snd sent) 2) in
  map snd (@microphone_receiver Toy.toy_evp example_key datagrams new_window) = [[1; 2]] /\
  received (fun _ => []) 0 (streams (relay [1; 2] initial)) `sublist_of` map snd (@fresh_deliveries Toy.toy_evp example_key datagrams []) /\
  NoDup (map (fun d => datagram_counter d.1) (@microphone_receiver Toy.toy_evp example_key datagrams new_window)).
Proof.
  cbv zeta. set (datagrams := concat _).
  assert (E : map snd (@microphone_receiver Toy.toy_evp example_key datagrams new_window) = [[1; 2]]) by (vm_compute; reflexivity).
  split; [exact E|]. apply (@microphone_relayed Toy.toy_evp example_key datagrams (relay [1; 2] initial) (fun _ => [])).
  rewrite E. exact (relaying_frame [1; 2] [] initial relaying_start).
Defined.

(** The phone sends its parameter sets with a key frame and then a slice; the client
    is greeted with the sets alone. *)
Definition picture_frames : list Bytes := [demo_sets; demo_sets ++ demo_idr; demo_slice].
Definition picture_stream : Bytes := concat (map wire picture_frames).

Lemma picture_forwarded :
  exists v, forwarding (new_video false) (mkForwarding v None (Some picture_stream) [] [demo_sets ++ demo_idr; demo_slice]).
Proof.
  set (whole := repeat (CarplayIpc.Transfer 99) 9).
  pose proof (forwarding_step _ _ _ (forwarding_start (new_video false)) (forward_accept [] (demo_sets ++ demo_idr) _ _ _ _ _)) as H.
  eapply forwarding_step in H; [|eapply (forward_greet whole); vm_compute; reflexivity].
  eapply forwarding_step in H; [|eapply forward_take; vm_compute; reflexivity].
  eapply forwarding_step in H; [|eapply (forward_send (false, false) whole); vm_compute; reflexivity].
  eapply forwarding_step in H; [|apply (forward_accept [] demo_slice)].
  eapply forwarding_step in H; [|eapply forward_take; vm_compute; reflexivity].
  eapply forwarding_step in H; [|eapply (forward_send (false, false) whole); vm_compute; reflexivity].
  eexists. exact H.
Qed.

Definition picture_config : Bytes := [1; 1; 2; 3; 255; 225; 0; 4; 103; 1; 2; 3; 1; 0; 2; 104; 9].
Definition picture_startup : Startup :=
  mkStartup [[103; 1; 2; 3]; [104; 9]; [101; 128; 5]] [demo_sets ++ demo_idr] 35 true.
Definition picture_turns : list VideoTurn :=
  [mkVideoTurn false (Some demo_slice) (true, true); mkVideoTurn false None (true, true)].
Definition picture_sent : VideoSender :=
  (@data_stream Toy.toy_evp example_key picture_config (true, true) [] [(demo_sets ++ demo_idr, (true, true))] picture_turns).2.

Lemma picture_follows_phone_witness :
  @Receiver.read Toy.toy_evp example_key (SessionVideo.written picture_sent)
    = Some (picture_config, [[[101; 128; 5]]; [[65; 64; 6]]]) /\
  exists hello first units, Forall parameter_sets (option_list hello) /\
    first :: units `sublist_of` option_list hello ++ [demo_sets ++ demo_idr; demo_slice] /\
    existsb (has_type 5) (h264_nalus first) = true /\
    @Receiver.read Toy.toy_evp example_key (SessionVideo.written picture_sent)
      = Some (picture_config, shown (map h264_nalus (first :: units))).
Proof.
  split; [vm_compute; reflexivity|]. destruct picture_forwarded as [v Hv]. pose proof Toy.toy_laws as Hl.
  apply (@picture_follows_phone Toy.toy_evp Hl example_key (repeat (repeat (BluetoothWorker.Received 99) 99) 9) false _ picture_stream
    (map demo_turn [demo_sets; demo_sets ++ demo_idr]) picture_turns picture_config picture_startup (true, true) picture_sent Hv).
  - by left.
  - vm_compute. reflexivity.
  - vm_compute. reflexivity.
  - vm_compute. reflexivity.
  - reflexivity.
Defined.

Lemma sound_follows_phone_witness :
  map snd (@microphone_receiver Toy.toy_evp example_key (map snd (@audio_sender Toy.toy_evp example_key 2 [mkTurn false (Some [5; 6]) true] new_sender)) new_window)
    = [[5; 6]] /\ [[5; 6]] `sublist_of` [[5; 6]; [7]].
Proof.
  set (turns := [mkTurn false (Some [5; 6]) true]).
  assert (E : map snd (@microphone_receiver Toy.toy_evp example_key
    (map snd (@audio_sender Toy.toy_evp example_key 2 turns new_sender)) new_window) = [[5; 6]]) by (vm_compute; reflexivity).
  split; [exact E|]. rewrite <- E at 1. pose proof Toy.toy_laws as Hl.
  apply (@sound_follows_phone Toy.toy_evp Hl example_key 2 (repeat (repeat (BluetoothWorker.Received 2) 6) 3) two_packets (wire [5; 6] ++ [0; 0; 0; 1]) turns).
  - apply two_packets_run.
  - by left.
  - vm_compute. reflexivity.
  - by exists 1.
  - done.
  - constructor; [|constructor]. intros pcm [= <-]. apply Nat.leb_le. vm_compute. reflexivity.
  - reflexivity.
Defined.

Lemma requests_reach_daemon_witness :
  exists ch relayed,
    @service_event_channel Toy.toy_evp [take 80 key_stream; drop 80 key_stream] (new_channel example_key example_key [true]) = (true, ch) /\
    answered ch = map cseq_of [key_event] /\ relaying (SessionChannel.events ch) relayed /\
    received (fun _ => repeat (CarplayIpc.Transfer 1) 200) 0 (streams relayed) = [key_event].
Proof.
  pose proof Toy.toy_laws as Hl.
  apply (@requests_reach_daemon Toy.toy_evp Hl example_key example_key [key_event] (new_cipher [] example_key)
    (default [] (@encrypt_all Toy.toy_evp [key_event] (new_cipher [] example_key)).1) (mkCipher [] example_key 0 1)).
  1-3: vm_compute; reflexivity.
  - repeat constructor; vm_compute; reflexivity.
  - repeat constructor; intros n k; eexists; reflexivity.
  - repeat constructor; vm_compute; congruence.
  - vm_compute; reflexivity.
  - repeat constructor; vm_compute; discriminate.
  - apply Forall_forall. intros t Ht. exists O. by apply (repeat_spec 200), list_elem_of_In.
  - apply Nat.leb_le. vm_compute. reflexivity.
Defined.
