(* ===== verification/BluezDiscovery.v ===== *)
(** * The endpoint of the iAP2 service

    [src/src/iap2/bluez_pairing.cpp], the SDP part: the RFCOMM channel or the L2CAP
    port of a service record, and the queries that look for one.  The records and
    the outcome of every query are arguments; log lines are left out. *)

From S2P Require Import Prelude Text.
#[local] Open Scope Z_scope.

(** ** Records *)

(** A piece of a protocol descriptor; the pieces behind the first are its parameters. *)
Inductive SdpData := Uuid16 (uuid : Z) | Uint8 (n : Z) | Uint16 (n : Z) | OtherData.

Abbreviation Descriptor := (list SdpData).

Definition RFCOMM_UUID : Z := 3.
Definition L2CAP_UUID : Z := 256.

(** [None]: the record has no such attribute. *)
Record SdpRecord := mkRecord {
  service_classes : option (list Bytes);
  access_protos : option (list (list Descriptor))
}.

(* src/src/iap2/bluez_pairing.cpp:39-42 DiscoveredEndpoint *)
Record DiscoveredEndpoint := mkEndpoint {
  rfcomm_channel : option Z;
  l2cap_psm : option Z
}.

Definition no_endpoint : DiscoveredEndpoint := mkEndpoint None None.

(** One descriptor of an alternative, after those before it. *)
(* src/src/iap2/bluez_pairing.cpp:66-84 extract_endpoint (descriptor) *)
Definition read_descriptor (found : option Z * option Z) (descriptor : Descriptor) : option Z * option Z :=
  let '(rfcomm, l2cap) := found in
  match descriptor with
  | Uuid16 uuid :: params =>
      if uuid =? RFCOMM_UUID then
        match params with
        | Uint8 n :: _ => (Some n, l2cap)
        | Uint16 n :: _ => if n <=? 30 then (Some (u8 n), l2cap) else found
        | _ => found
        end
      else if uuid =? L2CAP_UUID then
        match params with
        | Uint8 n :: _ | Uint16 n :: _ => (rfcomm, Some n)
        | _ => found
        end
      else found
  | _ => found
  end.

(* src/src/iap2/bluez_pairing.cpp:62-85 extract_endpoint (alternative) *)
Definition read_alternative (protocols : list Descriptor) : option Z * option Z :=
  fold_left read_descriptor protocols (None, None).

(** The loop over the alternatives; [first]: the first port so far. *)
(* src/src/iap2/bluez_pairing.cpp:59-96 extract_endpoint (alternatives) *)
Fixpoint read_alternatives (alternatives : list (list Descriptor)) (first : option Z) (e : DiscoveredEndpoint)
    : DiscoveredEndpoint :=
  match alternatives with
  | [] => match rfcomm_channel e, first with
          | None, Some psm => mkEndpoint None (Some psm)
          | _, _ => e
          end
  | alternative :: rest =>
      match read_alternative alternative with
      | (Some channel, _) => mkEndpoint (Some channel) None
      | (None, l2cap) => read_alternatives rest (match first with Some _ => first | None => l2cap end) e
      end
  end.

(* src/src/iap2/bluez_pairing.cpp:46-101 extract_endpoint *)
Definition extract_endpoint (record : SdpRecord) (e : DiscoveredEndpoint) : DiscoveredEndpoint :=
  match access_protos record with
  | None => e
  | Some alternatives => read_alternatives alternatives None e
  end.

(* src/src/iap2/bluez_pairing.cpp:103-118 record_has_service_uuid *)
Definition record_has_service_uuid (record : SdpRecord) (wanted : Bytes) : bool :=
  match service_classes record with
  | None => false
  | Some classes => existsb (bytes_eqb wanted) classes
  end.

(** ** Queries *)

Definition found (e : DiscoveredEndpoint) : bool :=
  bool_decide (is_Some (rfcomm_channel e)) || bool_decide (is_Some (l2cap_psm e)).

(* src/src/iap2/bluez_pairing.cpp:162-174 run_sdp_query (record) *)
Definition take_record (required_service : option Bytes) (e : DiscoveredEndpoint) (record : SdpRecord) : DiscoveredEndpoint :=
  if match required_service with None => true | Some uuid => record_has_service_uuid record uuid end then
    let r := extract_endpoint record no_endpoint in
    if bool_decide (is_Some (rfcomm_channel r)) then mkEndpoint (rfcomm_channel r) None
    else if negb (found e) && bool_decide (is_Some (l2cap_psm r)) then mkEndpoint (rfcomm_channel e) (l2cap_psm r)
    else e
  else e.

(** [None]: the query failed. *)
(* src/src/iap2/bluez_pairing.cpp:120-194 run_sdp_query *)
Definition run_sdp_query (reply : option (list SdpRecord)) (required_service : option Bytes) (e : DiscoveredEndpoint)
    : DiscoveredEndpoint :=
  match reply with
  | None => e
  | Some records => fold_left (take_record required_service) records e
  end.

Definition iap2_uuid : Bytes := [0; 0; 0; 0; 222; 202; 250; 222; 222; 202; 222; 175; 222; 202; 202; 255].
Definition iap2_client_uuid : Bytes := [0; 0; 0; 0; 222; 202; 250; 222; 222; 202; 222; 175; 222; 202; 202; 254].

(* src/src/iap2/bluez_pairing.cpp:208-208 discover_endpoint (kSdpAttempts) *)
Definition kSdpAttempts : nat := 4.

(** [valid]: whether the address can be read. [connects]: whether each attempt
    reaches the device. [replies]: the reply of each query. *)
(* src/src/iap2/bluez_pairing.cpp:196-253 discover_endpoint *)
Definition discover_endpoint (valid : bool) (connects : nat -> bool) (replies : nat -> option (list SdpRecord))
    : DiscoveredEndpoint :=
  if negb valid then no_endpoint
  else if negb (existsb connects (seq 0 kSdpAttempts)) then no_endpoint
  else
    let unless_found e n service := if found e then e else run_sdp_query (replies n) service e in
    let e := run_sdp_query (replies 0%nat) (Some iap2_uuid) no_endpoint in
    let e := unless_found e 1%nat (Some iap2_client_uuid) in
    let e := unless_found e 2%nat (Some iap2_uuid) in
    let e := unless_found e 3%nat (Some iap2_client_uuid) in
    unless_found e 4%nat None.

(** ** Theorems *)

(** What a list of alternatives offers: the first RFCOMM channel of any, and
    without one the first port. *)
Definition offered (alternatives : list (list Descriptor)) : DiscoveredEndpoint :=
  match omap (fun a => (read_alternative a).1) alternatives with
  | channel :: _ => mkEndpoint (Some channel) None
  | [] => mkEndpoint None (head (omap (fun a => (read_alternative a).2) alternatives))
  end.

Lemma read_alternatives_offered alternatives : forall first,
  read_alternatives alternatives first no_endpoint =
  match omap (fun a => (read_alternative a).1) alternatives with
  | channel :: _ => mkEndpoint (Some channel) None
  | [] => mkEndpoint None (match first with Some _ => first | None => head (omap (fun a => (read_alternative a).2) alternatives) end)
  end.
Proof.
  induction alternatives as [|a rest IH]; intros first; [by destruct first|].
  cbn [read_alternatives omap list_omap]. destruct (read_alternative a) as [[channel|] l2cap]; cbn; [done|].
  rewrite IH. destruct (omap (λ a0, (read_alternative a0).1) rest); [|done]. by destruct first, l2cap.
Qed.

(** RFCOMM is preferred. The endpoint of a record is the channel of the first
    alternative that has one, wherever it stands, and only without one the port of
    the first alternative with a port. *)
Theorem extract_prefers_rfcomm record alternatives :
  access_protos record = Some alternatives -> extract_endpoint record no_endpoint = offered alternatives.
Proof. unfold extract_endpoint. intros ->. apply read_alternatives_offered. Qed.

(** Not both. *)
Definition exclusive (e : DiscoveredEndpoint) : Prop := rfcomm_channel e = None \/ l2cap_psm e = None.

Lemma take_record_exclusive service e record : exclusive e -> exclusive (take_record service e record).
Proof.
  intros He. unfold take_record. destruct (match service with None => true | Some _ => _ end); [|done].
  set (r := extract_endpoint record no_endpoint). destruct (bool_decide (is_Some (rfcomm_channel r))); [by right|].
  unfold found. destruct (bool_decide_reflect (is_Some (rfcomm_channel e))) as [|Hn]; [done|]. cbn [orb].
  destruct (negb _ && _); [left; by apply eq_None_not_Some|done].
Qed.

Lemma run_exclusive reply service e : exclusive e -> exclusive (run_sdp_query reply service e).
Proof.
  destruct reply as [records|]; [|done]. cbn. revert e.
  induction records as [|r records IH]; intros e He; [done|]. by apply IH, take_record_exclusive.
Qed.

(** An endpoint is an RFCOMM channel or an L2CAP port, never both, whatever the
    records hold and whichever queries fail. *)
Theorem endpoint_exclusive valid connects replies : exclusive (discover_endpoint valid connects replies).
Proof.
  unfold discover_endpoint. case_match; [by left|]. case_match; [by left|].
  assert (Hu : forall e n service, exclusive e -> exclusive (if found e then e else run_sdp_query (replies n) service e)).
  { intros e n service He. case_match; [done|by apply run_exclusive]. }
  apply Hu, Hu, Hu, Hu, run_exclusive. by left.
Qed.

Example rfcomm_behind_l2cap :
  extract_endpoint (mkRecord None (Some [[[Uuid16 256; Uint16 4097]]; [[Uuid16 256]; [Uuid16 3; Uint8 5]]])) no_endpoint
  = mkEndpoint (Some 5) None.
Proof. reflexivity. Qed.
