(* ===== verification/BluezAgent.v ===== *)
(** * BlueZ calls, the pairing agent and the iAP2 profile

    [src/src/iap2/bluez_pairing.cpp], first part: the messages the process sends to
    BlueZ, the objects it registers on the bus, the agent that BlueZ asks during
    pairing, and the profile through which BlueZ hands over a connected socket.
    D-Bus itself is an argument: what arrives while the process waits, what the
    clock says, and how a call ends.  The ghost [trace] is what the process did.
    Allocations of libdbus do not fail. *)

From S2P Require Import Prelude Text DaemonLog BluetoothWorker.
From stdpp Require Import gmap relations.
#[local] Open Scope Z_scope.

(** ** Messages *)

(** A value in the body of a message. A variant and an array carry the signature
    their container was opened with. *)
Inductive DBusValue :=
| DString (text : Bytes)
| DPath (path : Bytes)
| DBool (b : bool)
| DByte (n : Z)
| DInt16 (n : Z)
| DUint16 (n : Z)
| DUint32 (n : Z)
| DFd (fd : Z)
| DVariant (contained : Bytes) (v : DBusValue)
| DArray (element : Bytes) (items : list DBusValue)
| DEntry (key v : DBusValue).

Fixpoint signature (v : DBusValue) : Bytes :=
  match v with
  | DString _ => bs "s"
  | DPath _ => bs "o"
  | DBool _ => bs "b"
  | DByte _ => bs "y"
  | DInt16 _ => bs "n"
  | DUint16 _ => bs "q"
  | DUint32 _ => bs "u"
  | DFd _ => bs "h"
  | DVariant _ _ => bs "v"
  | DArray element _ => bs "a" ++ element
  | DEntry key v => bs "{" ++ signature key ++ signature v ++ bs "}"
  end.

Definition basic (v : DBusValue) : bool :=
  match v with DVariant _ _ | DArray _ _ | DEntry _ _ => false | _ => true end.

(** Whether a value is what its containers announce. *)
Fixpoint well_typed (v : DBusValue) : bool :=
  match v with
  | DVariant contained v => bytes_eqb (signature v) contained && well_typed v
  | DArray element items => forallb (fun v => bytes_eqb (signature v) element && well_typed v) items
  | DEntry key v => basic key && well_typed key && well_typed v
  | DByte n => (0 <=? n) && (n <? 2 ^ 8)
  | DInt16 n => (- 2 ^ 15 <=? n) && (n <? 2 ^ 15)
  | DUint16 n => (0 <=? n) && (n <? 2 ^ 16)
  | DUint32 n => (0 <=? n) && (n <? 2 ^ 32)
  | _ => true
  end.

(** A method call: to BlueZ, or from BlueZ to an object of this process. *)
Record Message := mkMessage {
  serial : Z;
  path : Bytes;
  interface : Bytes;
  member : Bytes;
  arguments : list DBusValue
}.

Definition body_signature (m : Message) : Bytes := concat (map signature (arguments m)).

(* src/src/iap2/bluez_pairing.cpp:258-258 kAgentPath *)
Definition kAgentPath : Bytes := bs "/com/aa2acp/agent".
(* src/src/iap2/bluez_pairing.cpp:259-259 kAgentManager *)
Definition kAgentManager : Bytes := bs "org.bluez.AgentManager1".
(* src/src/iap2/bluez_pairing.cpp:260-260 kAgentInterface *)
Definition kAgentInterface : Bytes := bs "org.bluez.Agent1".
(* src/src/iap2/bluez_pairing.cpp:261-261 kProfilePath *)
Definition kProfilePath : Bytes := bs "/com/aa2acp/iap2_accessory_profile".
(* src/src/iap2/bluez_pairing.cpp:262-262 kDeviceProfilePath *)
Definition kDeviceProfilePath : Bytes := bs "/com/aa2acp/iap2_device_profile".
(* src/src/iap2/bluez_pairing.cpp:263-263 kProfileManager *)
Definition kProfileManager : Bytes := bs "org.bluez.ProfileManager1".
(* src/src/iap2/bluez_pairing.cpp:264-264 kProfileInterface *)
Definition kProfileInterface : Bytes := bs "org.bluez.Profile1".
(* src/src/iap2/bluez_pairing.cpp:265-265 kIap2ServerUuid *)
Definition kIap2ServerUuid : Bytes := bs "00000000-deca-fade-deca-deafdecacaff".
(* src/src/iap2/bluez_pairing.cpp:266-266 kIap2DeviceUuid *)
Definition kIap2DeviceUuid : Bytes := bs "00000000-deca-fade-deca-deafdecacafe".
(* src/src/iap2/bluez_pairing.cpp:268-268 kAdapterPath *)
Definition kAdapterPath : Bytes := bs "/org/bluez/hci0".
(* src/src/iap2/bluez_pairing.cpp:269-269 kAdapterInterface *)
Definition kAdapterInterface : Bytes := bs "org.bluez.Adapter1".
(* src/src/iap2/bluez_pairing.cpp:270-270 kDeviceInterface *)
Definition kDeviceInterface : Bytes := bs "org.bluez.Device1".
(* src/src/iap2/bluez_pairing.cpp:271-271 kPropertiesInterface *)
Definition kPropertiesInterface : Bytes := bs "org.freedesktop.DBus.Properties".

(* src/src/iap2/bluez_pairing.cpp:391-394 new_call *)
Definition new_call (path interface method : Bytes) (arguments : list DBusValue) : Message :=
  mkMessage 0 path interface method arguments.

(* src/src/iap2/bluez_pairing.cpp:633-645 append_profile_string_option *)
Definition append_profile_string_option (key value : Bytes) : DBusValue :=
  DEntry (DString key) (DVariant (bs "s") (DString value)).

(* src/src/iap2/bluez_pairing.cpp:647-659 append_profile_bool_option *)
Definition append_profile_bool_option (key : Bytes) (value : bool) : DBusValue :=
  DEntry (DString key) (DVariant (bs "b") (DBool value)).

(* src/src/iap2/bluez_pairing.cpp:661-690 call_register_iap2_profile (message) *)
Definition register_iap2_profile : Message :=
  new_call (bs "/org/bluez") kProfileManager (bs "RegisterProfile")
    [DPath kProfilePath; DString kIap2ServerUuid;
     DArray (bs "{sv}")
       [append_profile_string_option (bs "Name") (bs "AA2ACP iAP2 client");
        append_profile_string_option (bs "Role") (bs "client");
        append_profile_bool_option (bs "RequireAuthentication") true]].

(* src/src/iap2/bluez_pairing.cpp:692-734 call_register_iap2_device_profile (message) *)
Definition register_iap2_device_profile : Message :=
  new_call (bs "/org/bluez") kProfileManager (bs "RegisterProfile")
    [DPath kDeviceProfilePath; DString kIap2DeviceUuid;
     DArray (bs "{sv}")
       [append_profile_string_option (bs "Name") (bs "AA2ACP iAP2 device server");
        append_profile_string_option (bs "Role") (bs "server");
        append_profile_bool_option (bs "RequireAuthentication") true;
        DEntry (DString (bs "Channel")) (DVariant (bs "q") (DUint16 0))]].

(* src/src/iap2/bluez_pairing.cpp:736-749 call_unregister_iap2_profile (message) *)
Definition unregister_iap2_profile (path : Bytes) : Message :=
  new_call (bs "/org/bluez") kProfileManager (bs "UnregisterProfile") [DPath path].

(* src/src/iap2/bluez_pairing.cpp:751-764 call_connect_iap2_profile (message) *)
Definition connect_iap2_profile (path : Bytes) : Message :=
  new_call path kDeviceInterface (bs "ConnectProfile") [DString kIap2ServerUuid].

(* src/src/iap2/bluez_pairing.cpp:766-778 call_disconnect_iap2_profile (message) *)
Definition disconnect_iap2_profile (path : Bytes) : Message :=
  new_call path kDeviceInterface (bs "DisconnectProfile") [DString kIap2ServerUuid].

(* src/src/iap2/bluez_pairing.cpp:819-836 call_register_agent (message) *)
Definition register_agent (method : Bytes) : Message :=
  new_call (bs "/org/bluez") kAgentManager method [DPath kAgentPath; DString (bs "DisplayYesNo")].

(* src/src/iap2/bluez_pairing.cpp:838-852 call_unregister_agent (message) *)
Definition unregister_agent : Message :=
  new_call (bs "/org/bluez") kAgentManager (bs "UnregisterAgent") [DPath kAgentPath].

(* src/src/iap2/bluez_pairing.cpp:854-868 call_request_default_agent (message) *)
Definition request_default_agent : Message :=
  new_call (bs "/org/bluez") kAgentManager (bs "RequestDefaultAgent") [DPath kAgentPath].

(* src/src/iap2/bluez_pairing.cpp:870-892 call_set_trusted (message) *)
Definition set_trusted (path : Bytes) : Message :=
  new_call path kPropertiesInterface (bs "Set")
    [DString kDeviceInterface; DString (bs "Trusted"); DVariant (bs "b") (DBool true)].

(* src/src/iap2/bluez_pairing.cpp:894-923 call_set_bredr_discovery_filter (message) *)
Definition set_bredr_discovery_filter : Message :=
  new_call kAdapterPath kAdapterInterface (bs "SetDiscoveryFilter")
    [DArray (bs "{sv}") [DEntry (DString (bs "Transport")) (DVariant (bs "s") (DString (bs "bredr")))]].

(* src/src/iap2/bluez_pairing.cpp:396-409 call_no_arguments (message) *)
Definition no_arguments (path interface method : Bytes) : Message := new_call path interface method [].

(** ** State *)

(** The variables of the pairing session while the agent's object is registered. *)
(* src/src/iap2/bluez_pairing.cpp:280-285 AgentContext *)
Record AgentContext := mkAgent {
  pending_confirmation : option Message;
  confirmation_id : Z;
  confirmation_deadline : Z
}.

(** A profile; a descriptor below zero is none. *)
(* src/src/iap2/bluez_pairing.cpp:27-35 BluezIap2Connection::State *)
Record ProfileState := mkProfile {
  device_path : Bytes;
  profile_path : Bytes;
  profile_uuid : Bytes;
  client_profile : bool;
  socket_fd : Z;
  profile_registered : bool
}.

(** The reply to a method call. *)
Inductive Reply := MethodReturn | Rejected (reason : Bytes).

(** How a call of the process ends. *)
Inductive CallReply := ReplyOk | ReplyError (name message : Bytes) | NoReply.
Inductive CallEnd := NotSubmitted | TimedOut | Replied (r : CallReply).

Inductive Event :=
| Logged (level : LogLevel) (text : Bytes)
| Answering (message : Message) (r : Reply)
| Asked (message : Message) (id : Z) (packet : option Bytes)
| UserAnswered (id : Z) (confirmed : bool)
| ClosedFd (fd : Z)
| TookFd (path : Bytes) (received fd : Z)
| Calling (call : Message)
| Ended (call : Message) (e : CallEnd).

(** What the process shares with BlueZ: the objects at its paths (a profile's
    object is its state), the profile kept between sessions, and the mailbox it
    shares with the management page. *)
Record Bus := mkBus {
  agent : option AgentContext;
  profiles : gmap Bytes ProfileState;
  device_profile : bool;
  mailbox : Mailbox;
  trace : list Event
}.

Definition emit (e : Event) (s : Bus) : Bus :=
  mkBus (agent s) (profiles s) (device_profile s) (mailbox s) (trace s ++ [e]).
Definition set_agent (a : option AgentContext) (s : Bus) : Bus :=
  mkBus a (profiles s) (device_profile s) (mailbox s) (trace s).
Definition set_profiles (p : gmap Bytes ProfileState) (s : Bus) : Bus :=
  mkBus (agent s) p (device_profile s) (mailbox s) (trace s).
Definition set_device_profile (b : bool) (s : Bus) : Bus :=
  mkBus (agent s) (profiles s) b (mailbox s) (trace s).
Definition set_mailbox (m : Mailbox) (s : Bus) : Bus :=
  mkBus (agent s) (profiles s) (device_profile s) m (trace s).
Definition set_socket (fd : Z) (p : ProfileState) : ProfileState :=
  mkProfile (device_path p) (profile_path p) (profile_uuid p) (client_profile p) fd (profile_registered p).
Definition set_registered (b : bool) (p : ProfileState) : ProfileState :=
  mkProfile (device_path p) (profile_path p) (profile_uuid p) (client_profile p) (socket_fd p) b.

Definition is_method (m : Message) (wanted_interface wanted_member : Bytes) : bool :=
  bytes_eqb (interface m) wanted_interface && bytes_eqb (member m) wanted_member.

(* src/src/iap2/bluez_pairing.cpp:925-933 write_log *)
Definition write_log (level : LogLevel) (message : Bytes) (s : Bus) : Bus := emit (Logged level message) s.

(** ** The agent *)

(* src/src/iap2/bluez_pairing.cpp:290-324 resolve_pending_confirmation *)
Definition resolve_pending_confirmation (now : Z) (s : Bus) : Bus :=
  match agent s with
  | Some (mkAgent (Some message) id deadline) =>
      let '(confirmed, m) := pairing_confirmation_result id (mailbox s) in
      let s := set_mailbox m s in
      let timed_out := negb (bool_decide (is_Some confirmed)) && (deadline <=? now) in
      if negb (bool_decide (is_Some confirmed)) && negb timed_out then s
      else
        let accepted := bool_decide (confirmed = Some true) in
        let s := emit (Answering message (if accepted then MethodReturn
                                          else Rejected (bs "Pairing confirmation rejected"))) s in
        let s := write_log (if accepted then info else warning)
                   (match confirmed with
                    | Some true => bs "pairing confirmation accepted from management UI"
                    | Some false => bs "pairing confirmation rejected from management UI"
                    | None => bs "pairing confirmation timed out"
                    end) s in
        let s := set_agent (Some (mkAgent None id deadline)) s in
        if timed_out then set_mailbox (cancel_pairing_confirmation id (mailbox s)) s else s
  | _ => s
  end.

(* src/src/iap2/bluez_pairing.cpp:326-340 reject_pending_confirmation *)
Definition reject_pending_confirmation (reason : Bytes) (s : Bus) : Bus :=
  match agent s with
  | Some (mkAgent (Some message) id deadline) =>
      let s := emit (Answering message (Rejected reason)) s in
      let s := set_mailbox (cancel_pairing_confirmation id (mailbox s)) s in
      set_agent (Some (mkAgent None id deadline)) s
  | _ => s
  end.

(* src/src/iap2/bluez_pairing.cpp:424-433 agent_request_detail (second argument) *)
Definition second_detail (arguments : list DBusValue) : Bytes :=
  match arguments with
  | DUint32 value :: _ => bs " with value " ++ dec value
  | DString value :: _ => bs " for service " ++ value
  | _ => []
  end.

(* src/src/iap2/bluez_pairing.cpp:411-435 agent_request_detail *)
Definition agent_request_detail (message : Message) : Bytes :=
  match arguments message with
  | DPath device :: rest => bs " for " ++ device ++ second_detail rest
  | rest => second_detail rest
  end.

(** BlueZ sends the path of the device and the passkey; the variables keep their
    first values when there are none. *)
(* src/src/iap2/bluez_pairing.cpp:490-498 agent_handler (arguments) *)
Definition confirmation_arguments (message : Message) : Bytes * Z :=
  match arguments message with
  | DPath device :: DUint32 passkey :: _ => (device, passkey)
  | _ => ([], 0)
  end.

(** The members that the agent answers. *)
(* src/src/iap2/bluez_pairing.cpp:439-454 agent_handler (members) *)
Definition agent_members : list Bytes :=
  map bs ["Release"; "Cancel"; "RequestConfirmation"; "RequestAuthorization"; "AuthorizeService";
          "DisplayPasskey"; "RequestPinCode"; "RequestPasskey"]%string.

(** What the surroundings do while a message is handled: the clock, the padding of
    the packet, whether it could be sent, and for a duplicate of a descriptor the least
    number from three on that nothing else in the process uses, or below zero when
    there is none. *)
Record Surround := mkSurround {
  clock : Z;
  padding : Bytes;
  packet_sent : bool;
  duplicate : Z
}.

(** The question to the management page. *)
(* src/src/iap2/bluez_pairing.cpp:486-519 agent_handler (RequestConfirmation) *)
Definition request_confirmation (w : Surround) (message : Message) (c : AgentContext) (s : Bus) : Bus :=
  let '(device, passkey) := confirmation_arguments message in
  let '(id, packet, m) := request_pairing_confirmation (padding w) device passkey (packet_sent w) (mailbox s) in
  let s := set_mailbox m s in
  match id with
  | Some id =>
      let s := emit (Asked message id packet) s in
      let s := set_agent (Some (mkAgent (Some message) id (clock w + 50000))) s in
      write_log info (bs "pairing confirmation is awaiting management UI approval") s
  | None =>
      let s := write_log error (bs "unable to request management UI pairing confirmation") s in
      emit (Answering message (Rejected (bs "Unable to request management UI pairing confirmation"))) s
  end.

(** Whether the message was handled; without the object nothing arrives. *)
(* src/src/iap2/bluez_pairing.cpp:437-544 agent_handler *)
Definition agent_handler (w : Surround) (message : Message) (s : Bus) : bool * Bus :=
  let asks := fun name => is_method message kAgentInterface (bs name) in
  match agent s with
  | None => (false, s)
  | Some _ =>
      if negb (existsb (is_method message kAgentInterface) agent_members) then (false, s)
      else
        let s := write_log info (bs "pairing agent request " ++ member message ++ agent_request_detail message) s in
        let s := if asks "Cancel"%string || asks "Release"%string
                 then reject_pending_confirmation (bs "Pairing confirmation cancelled") s else s in
        match agent s with
        | None => (true, s)
        | Some c =>
            if asks "RequestConfirmation"%string then
              match pending_confirmation c with
              | Some _ =>
                  let s := emit (Answering message (Rejected (bs "Another pairing confirmation is already pending"))) s in
                  (true, write_log warning (bs "rejected concurrent pairing confirmation request") s)
              | None => (true, request_confirmation w message c s)
              end
            else if asks "RequestPinCode"%string || asks "RequestPasskey"%string then
              let s := emit (Answering message (Rejected (bs "AA2ACP only supports Numeric Comparison pairing"))) s in
              (true, write_log warning (bs "rejected unsupported PIN/passkey pairing request") s)
            else (true, emit (Answering message MethodReturn) s)
        end
  end.

(** ** The profile *)

(** The duplicates that were taken and not closed since. *)
Definition open_step (fds : gset Z) (e : Event) : gset Z :=
  match e with
  | TookFd _ _ fd => fds ∪ {[fd]}
  | ClosedFd fd => fds ∖ {[fd]}
  | _ => fds
  end.
Definition open_fds (t : list Event) : gset Z := fold_left open_step t ∅.

Fixpoint lowest_free (fuel : nat) (n : Z) (taken : gset Z) : Z :=
  match fuel with
  | O => n
  | S fuel => if bool_decide (n ∈ taken) then lowest_free fuel (n + 1) (taken ∖ {[n]}) else n
  end.

(** [fcntl] with [F_DUPFD_CLOEXEC]: a descriptor that is not open. *)
Definition dupfd (least : Z) (s : Bus) : Z :=
  if least <? 0 then -1 else lowest_free (size (open_fds (trace s))) least (open_fds (trace s)).

(** The descriptor that a connection brings, when it is for the device of the
    profile: none for a message of another shape or for another device. *)
(* src/src/iap2/bluez_pairing.cpp:581-594 profile_handler (arguments) *)
Definition expected_connection (message : Message) (p : ProfileState) : bool :=
  match arguments message with
  | DPath device :: DFd _ :: _ => bytes_eqb (device_path p) device
  | _ => false
  end.

(* src/src/iap2/bluez_pairing.cpp:589-592 profile_handler (received_fd) *)
Definition received_fd (message : Message) : Z :=
  match arguments message with
  | DPath _ :: DFd fd :: _ => fd
  | _ => -1
  end.

(* src/src/iap2/bluez_pairing.cpp:556-621 profile_handler *)
Definition profile_handler (w : Surround) (message : Message) (s : Bus) : bool * Bus :=
  match profiles s !! path message with
  | None => (false, s)
  | Some p =>
      let store := fun p s => set_profiles (<[path message := p]> (profiles s)) s in
      if is_method message kProfileInterface (bs "Release") then
        if 0 <=? socket_fd p then (true, store (set_socket (-1) p) (emit (ClosedFd (socket_fd p)) s)) else (true, s)
      else if is_method message kProfileInterface (bs "RequestDisconnection") then
        (true, emit (Answering message MethodReturn) s)
      else if negb (is_method message kProfileInterface (bs "NewConnection")) then (false, s)
      else
        let expected := expected_connection message p in
        let duplicated_fd := if expected then dupfd (duplicate w) s else -1 in
        if (0 <=? duplicated_fd) && (socket_fd p <? 0) then
          let s := store (set_socket duplicated_fd p) (emit (TookFd (path message) (received_fd message) duplicated_fd) s) in
          (true, emit (Answering message MethodReturn) s)
        else
          let s := if 0 <=? duplicated_fd then emit (ClosedFd duplicated_fd) s else s in
          (true, emit (Answering message
             (Rejected (if expected then bs "iAP2 connection is already active"
                        else bs "unexpected iAP2 profile connection"))) s)
  end.
