(* ===== verification/InventoryBus.v ===== *)
(** * The Bluetooth inventory on the bus

    [src/src/bridge/bluez_inventory.cpp], the part under [BluezInventory]: the
    private connection, the messages that are sent, how the reply of BlueZ is walked
    with the iterators of libdbus, the texts of the errors, and the turns of the
    scan.  An iterator of libdbus is a class: what the code asks of it, and, as its
    laws, what the library documents for an iterator that stands in front of known
    values.  The theorems show that this code is what [BluezInventory] says, and that
    the devices it gives are what the reply says of them. *)

From S2P Require Import Prelude Text Bplist BplistFacts BluezInventory BluezAgent.
From Stdlib Require Import Sorting.Sorted.
#[local] Open Scope Z_scope.

(* src/src/bridge/bluez_inventory.cpp:16-16 kObjectManager *)
Definition kObjectManager : Bytes := bs "org.freedesktop.DBus.ObjectManager".

(** ** Iterators *)

(** The type codes of [dbus-protocol.h]. *)
Definition DBUS_TYPE_INVALID : Z := 0.
Definition DBUS_TYPE_ARRAY : Z := 97.
Definition DBUS_TYPE_DICT_ENTRY : Z := 101.
Definition DBUS_TYPE_STRING : Z := 115.
Definition DBUS_TYPE_BOOLEAN : Z := 98.
Definition DBUS_TYPE_VARIANT : Z := 118.

Definition type_code (v : DBusValue) : Z :=
  match v with
  | DString _ => DBUS_TYPE_STRING
  | DPath _ => 111
  | DBool _ => DBUS_TYPE_BOOLEAN
  | DByte _ => 121
  | DInt16 _ => 110
  | DUint16 _ => 113
  | DUint32 _ => 117
  | DFd _ => 104
  | DVariant _ _ => DBUS_TYPE_VARIANT
  | DArray _ _ => DBUS_TYPE_ARRAY
  | DEntry _ _ => DBUS_TYPE_DICT_ENTRY
  end.

Definition contents (v : DBusValue) : list DBusValue :=
  match v with
  | DVariant _ v => [v]
  | DArray _ items => items
  | DEntry key v => [key; v]
  | _ => []
  end.

(** [dbus_message_iter_get_arg_type], [_recurse], [_next] and the two uses of
    [_get_basic]; a pointer that is still null is none. *)
Class MessageIter (iter : Type) := {
  get_arg_type : iter -> Z;
  recurse : iter -> iter;
  next : iter -> iter;
  get_string : iter -> option Bytes;
  get_bool : iter -> bool
}.

(** [stands i vs]: the iterator is in front of these values. Nothing is said of
    entering a basic value or of reading a value as another type. *)
Class MessageIterLaws (iter : Type) `{MessageIter iter} := {
  stands : iter -> list DBusValue -> Prop;
  stands_type : forall i vs, stands i vs ->
    get_arg_type i = match vs with [] => DBUS_TYPE_INVALID | v :: _ => type_code v end;
  stands_next : forall i v vs, stands i (v :: vs) -> stands (next i) vs;
  stands_recurse : forall i v vs, stands i (v :: vs) -> basic v = false -> stands (recurse i) (contents v);
  stands_string : forall i text vs, stands i (DString text :: vs) -> get_string i = Some text;
  stands_bool : forall i b vs, stands i (DBool b :: vs) -> get_bool i = b
}.

(** ** Reading the reply *)

Section Reading.
Context {iter : Type} `{MessageIter iter}.

(** The entry ahead has the wanted name and a value of this type. *)
Definition entry_is (properties : iter) (wanted : Bytes) (code : Z) : bool :=
  let property := recurse properties in
  let value := recurse (next property) in
  match get_string property with
  | Some name => bytes_eqb name wanted && (get_arg_type value =? code)
  | None => false
  end.

Definition entry_value (properties : iter) : iter := recurse (next (recurse properties)).

(** None is a search that has not ended within the fuel. *)
(* src/src/bridge/bluez_inventory.cpp:67-85 property_string *)
Fixpoint property_string (fuel : nat) (properties : iter) (wanted : Bytes) : option (Bytes * iter) :=
  match fuel with
  | O => None
  | S fuel =>
      if get_arg_type properties =? DBUS_TYPE_DICT_ENTRY then
        if entry_is properties wanted DBUS_TYPE_STRING
        then Some (default [] (get_string (entry_value properties)), properties)
        else property_string fuel (next properties) wanted
      else Some ([], properties)
  end.

(* src/src/bridge/bluez_inventory.cpp:87-105 property_bool *)
Fixpoint property_bool (fuel : nat) (properties : iter) (wanted : Bytes) : option (bool * iter) :=
  match fuel with
  | O => None
  | S fuel =>
      if get_arg_type properties =? DBUS_TYPE_DICT_ENTRY then
        if entry_is properties wanted DBUS_TYPE_BOOLEAN
        then Some (get_bool (entry_value properties), properties)
        else property_bool fuel (next properties) wanted
      else Some (false, properties)
  end.

(** The fuel of every loop is [bound]. *)
Variable bound : nat.

(* src/src/bridge/bluez_inventory.cpp:206-213 list_bluez_devices (device) *)
Definition read_device (properties : iter) : option BluetoothDevice :=
  '(address, properties) ← property_string bound properties (bs "Address");
  '(alias, properties) ← property_string bound properties (bs "Alias");
  '(name, properties) ← (if bytes_eqb alias [] then property_string bound properties (bs "Name")
                         else Some (alias, properties));
  '(paired, properties) ← property_bool bound properties (bs "Paired");
  '(connected, _) ← property_bool bound properties (bs "Connected");
  Some (mkDevice address name paired connected).

(* src/src/bridge/bluez_inventory.cpp:196-217 list_bluez_devices (interfaces) *)
Fixpoint read_interfaces (fuel : nat) (interfaces : iter) (devices : list BluetoothDevice)
    : option (list BluetoothDevice) :=
  match fuel with
  | O => None
  | S fuel =>
      if get_arg_type interfaces =? DBUS_TYPE_DICT_ENTRY then
        let interface := recurse interfaces in
        let interface_name := get_string interface in
        let interface := next interface in
        if match interface_name with Some name => bytes_eqb name kDeviceInterface | None => false end then
          device ← read_device (recurse interface);
          read_interfaces fuel (next interfaces)
            (if negb (bytes_eqb (address device) []) then devices ++ [device] else devices)
        else read_interfaces fuel (next interfaces) devices
      else Some devices
  end.

(* src/src/bridge/bluez_inventory.cpp:191-220 list_bluez_devices (objects) *)
Fixpoint read_objects (fuel : nat) (objects : iter) (devices : list BluetoothDevice)
    : option (list BluetoothDevice) :=
  match fuel with
  | O => None
  | S fuel =>
      if get_arg_type objects =? DBUS_TYPE_DICT_ENTRY then
        devices ← read_interfaces bound (recurse (next (recurse objects))) devices;
        read_objects fuel (next objects) devices
      else Some devices
  end.

(** ** Connection and calls *)

(** How the private connection to the system bus is opened; the message of the
    error may be missing. *)
(* src/src/bridge/bluez_inventory.cpp:18-43 Connection *)
Inductive Connection := Connected | NotConnected (message : option Bytes).

(* src/src/bridge/bluez_inventory.cpp:38-38 error *)
Definition connection_error (c : Connection) : Bytes :=
  match c with NotConnected (Some message) => message | _ => [] end.

(** What becomes of a call: the message could not be allocated, the call failed, or
    it was answered. *)
Inductive Answer := NotAllocated | Failed (message : option Bytes) | Answered (reply : iter).

(** [std::string *error] when it may be null. *)
Definition put_error (error : option Bytes) (text : Bytes) : option Bytes := (fun _ => text) <$> error.

(** What the inventory does on the bus and tells. *)
Inductive Action := Sent (m : Message) (timeout_ms : Z) | Dispatched | Said (text : Bytes) | Closed.

(* src/src/bridge/bluez_inventory.cpp:45-65 call *)
Definition call (path interface method : Bytes) (timeout_ms : Z) (a : Answer) (error : option Bytes)
    : option iter * option Bytes * list Action :=
  match a with
  | NotAllocated => (None, put_error error (bs "unable to allocate D-Bus request"), [])
  | Failed message =>
      (None, put_error error (default (bs "D-Bus call failed") message),
       [Sent (new_call path interface method []) timeout_ms])
  | Answered reply => (Some reply, error, [Sent (new_call path interface method []) timeout_ms])
  end.

(** The message of [set_filter]. *)
(* src/src/bridge/bluez_inventory.cpp:109-126 set_filter (request) *)
Definition filter_request (transport : Bytes) : Message :=
  new_call kAdapterPath kAdapterInterface (bs "SetDiscoveryFilter")
    [DArray (bs "{sv}") [DEntry (DString (bs "Transport")) (DVariant (bs "s") (DString transport))]].

(* src/src/bridge/bluez_inventory.cpp:107-140 set_filter *)
Definition set_filter (transport : Bytes) (a : Answer) (error : option Bytes) : bool * option Bytes * list Action :=
  match a with
  | NotAllocated => (false, error, [])
  | Failed message =>
      (false, put_error error (default (bs "unable to set discovery filter") message),
       [Sent (filter_request transport) 5000])
  | Answered _ => (true, error, [Sent (filter_request transport) 5000])
  end.

(** ** The three entry points *)

(** [init root] is [dbus_message_iter_init]: whether the reply has arguments. *)
(* src/src/bridge/bluez_inventory.cpp:171-229 list_bluez_devices *)
Definition list_bluez_devices (c : Connection) (a : Answer) (init : iter -> bool) (error : option Bytes)
    : option (list BluetoothDevice) * option Bytes * list Action :=
  match c with
  | NotConnected _ => (Some [], put_error error (connection_error c), [])
  | Connected =>
      let '(reply, error, actions) := call (bs "/") kObjectManager (bs "GetManagedObjects") 5000 a error in
      match reply with
      | None => (Some [], error, actions ++ [Closed])
      | Some root =>
          if negb (init root) || negb (get_arg_type root =? DBUS_TYPE_ARRAY)
          then (Some [], put_error error (bs "BlueZ returned an invalid ObjectManager response"), actions ++ [Closed])
          else (sort_devices <$> read_objects bound (recurse root) [], error, actions ++ [Closed])
      end
  end.

(* src/src/bridge/bluez_inventory.cpp:252-257 forget_bluez_device (request) *)
Definition remove_request (address : Bytes) : Message :=
  new_call kAdapterPath kAdapterInterface (bs "RemoveDevice") [DPath (BluezInventory.device_path address)].

(* src/src/bridge/bluez_inventory.cpp:239-274 forget_bluez_device *)
Definition forget_bluez_device (address : Bytes) (c : Connection) (a : Answer) (error : option Bytes)
    : bool * option Bytes * list Action :=
  if negb (valid_address address) then (false, put_error error (bs "invalid Bluetooth address"), [])
  else match c with
  | NotConnected _ => (false, put_error error (connection_error c), [])
  | Connected =>
      match a with
      | NotAllocated => (false, put_error error (bs "unable to allocate D-Bus request"), [Closed])
      | Failed message =>
          (false, put_error error (default (bs "BlueZ RemoveDevice failed") message),
           [Sent (remove_request address) 5000; Closed])
      | Answered _ => (true, error, [Sent (remove_request address) 5000; Closed])
      end
  end.

(** The turns of the scan: what the clock says in each and whether a stop is
    requested; without a callback nothing is asked. *)
(* src/src/bridge/bluez_inventory.cpp:298-302 discover_bluez_devices (scan) *)
Fixpoint scan_turns (turns : nat) (n : nat) (now : nat -> Z) (deadline : Z) (stop_requested : option (nat -> bool))
    : option (list Action) :=
  match turns with
  | O => None
  | S turns =>
      if (now n <? deadline) && negb (match stop_requested with Some f => f n | None => false end)
      then cons Dispatched <$> scan_turns turns (S n) now deadline stop_requested
      else Some []
  end.

(* src/src/bridge/bluez_inventory.cpp:162-166 log_message *)
Definition log_message (log : bool) (message : Bytes) : list Action := if log then [Said message] else [].

(** The clock counts nanoseconds; [now 0] is read for the deadline, and [bound] is
    the fuel of the scan. *)
(* src/src/bridge/bluez_inventory.cpp:276-311 discover_bluez_devices *)
Definition discover_bluez_devices (transport : Bytes) (seconds : Z) (log : bool) (stop_requested : option (nat -> bool))
    (c : Connection) (filter start stop : Answer) (now : nat -> Z) : option (bool * list Action) :=
  match c with
  | NotConnected _ =>
      Some (false, log_message log (bs "cannot connect to system D-Bus: " ++ connection_error c))
  | Connected =>
      let '(filtered, error, actions) := set_filter transport filter (Some []) in
      if negb filtered then
        Some (false, actions ++ log_message log (bs "unable to select " ++ transport ++ bs " discovery: " ++ default [] error)
                     ++ [Closed])
      else
        let '(reply, error, more) := call kAdapterPath kAdapterInterface (bs "StartDiscovery") 5000 start error in
        let actions := actions ++ more in
        if negb (bool_decide (is_Some reply)) then
          Some (false, actions ++ log_message log (bs "unable to start " ++ transport ++ bs " discovery: " ++ default [] error)
                       ++ [Closed])
        else
          let actions := actions ++ log_message log
            (bs "scanning " ++ transport ++ bs " devices for " ++ dec seconds ++ bs " seconds") in
          turns ← scan_turns bound 1 now (now O + seconds * 1000000000) stop_requested;
          let '(reply, error, more) := call kAdapterPath kAdapterInterface (bs "StopDiscovery") 5000 stop error in
          let actions := actions ++ turns ++ more in
          if negb (bool_decide (is_Some reply))
          then Some (false, actions ++ log_message log (bs "unable to stop discovery: " ++ default [] error) ++ [Closed])
          else Some (true, actions ++ [Closed])
  end.
End Reading.

(** ** What a reply says *)

Definition variant_of (v : DBusValue) : Variant :=
  match v with DString text => VString text | DBool b => VBool b | _ => VOther end.

Definition property_of (v : DBusValue) : Bytes * Variant :=
  match v with DEntry (DString name) (DVariant _ v) => (name, variant_of v) | _ => ([], VOther) end.

Definition interface_of (v : DBusValue) : Bytes * Properties :=
  match v with DEntry (DString name) (DArray _ properties) => (name, map property_of properties) | _ => ([], []) end.

Definition object_of (v : DBusValue) : Object :=
  match v with DEntry _ (DArray _ interfaces) => map interface_of interfaces | _ => [] end.

Definition objects_of (v : DBusValue) : list Object := map object_of (contents v).

(** The entries of the widest container of a value. *)
Fixpoint widest (v : DBusValue) : nat :=
  match v with
  | DArray _ items => max (length items) (list_max (map widest items))
  | DVariant _ v => widest v
  | DEntry key v => max (widest key) (widest v)
  | _ => O
  end.

(** An element of an array with a known type. *)
Definition typed (code : Bytes) (v : DBusValue) : Prop := signature v = code /\ well_typed v = true.

Lemma typed_array element v : typed (97 :: element) v -> exists items, v = DArray element items /\ Forall (typed element) items.
Proof.
  intros [Hs Hw]. destruct v as [| | | | | | | | | |key v]; try discriminate Hs.
  injection Hs as ->. exists items. split; [done|]. apply Forall_forall. intros v Hv.
  cbn in Hw. rewrite forallb_forall in Hw. specialize (Hw v (proj1 (list_elem_of_In _ _) Hv)).
  apply andb_prop in Hw as [Hw ?]. by apply bytes_eqb_eq in Hw.
Qed.

Lemma typed_entry c code v :
  typed (123 :: c :: code ++ [125]) v -> exists key w, v = DEntry key w /\ signature key = [c] /\ typed code w.
Proof.
  intros [Hs Hw]. destruct v as [| | | | | | | | | |key v]; try discriminate Hs.
  exists key, v. cbn in Hw. bool_hyps. injection Hs as Hs.
  assert (exists k, signature key = [k]) as [k Hk] by (destruct key; try discriminate; by eexists).
  rewrite Hk in Hs. injection Hs as -> Hs. apply app_inj_tail in Hs as [Hs _].
  by split_and!.
Qed.

Lemma signature_string v : signature v = [115] -> exists text, v = DString text.
Proof. destruct v; try discriminate. by eexists. Qed.

Lemma signature_variant v : signature v = [118] -> exists c w, v = DVariant c w.
Proof. destruct v; try discriminate. by eexists _, _. Qed.

(** An entry of the properties, of the interfaces and of the objects. *)
Lemma typed_property v : typed (bs "{sv}") v -> exists name c w, v = DEntry (DString name) (DVariant c w).
Proof.
  intros (key & w & -> & Hk & Hw)%(typed_entry 115 [118]). apply signature_string in Hk as [name ->].
  destruct Hw as [(c & x & ->)%signature_variant _]. by eexists _, _, _.
Qed.

Lemma typed_interface v : typed (bs "{sa{sv}}") v ->
  exists name items, v = DEntry (DString name) (DArray (bs "{sv}") items) /\ Forall (typed (bs "{sv}")) items.
Proof.
  intros (key & w & -> & Hk & Hw)%(typed_entry 115 (bs "a{sv}")). apply signature_string in Hk as [name ->].
  apply typed_array in Hw as (items & -> & Hi). by exists name, items.
Qed.

Lemma typed_object v : typed (bs "{oa{sa{sv}}}") v ->
  exists key items, v = DEntry key (DArray (bs "{sa{sv}}") items) /\ Forall (typed (bs "{sa{sv}}")) items.
Proof.
  intros (key & w & -> & Hk & Hw)%(typed_entry 111 (bs "a{sa{sv}}")).
  apply typed_array in Hw as (items & -> & Hi). by exists key, items.
Qed.

Lemma widest_array element items b :
  (widest (DArray element items) < b)%nat -> (length items < b)%nat /\ Forall (fun v => (widest v < b)%nat) items.
Proof.
  cbn. intros Hb. split; [lia|]. assert (Hm : (list_max (map widest items) <= b - 1)%nat) by lia.
  apply list_max_le in Hm. rewrite List.Forall_map in Hm. eapply Forall_impl; [exact Hm|]. cbn. lia.
Qed.

(** ** Reading is what the inventory says *)

Section Refinement.
Context {iter : Type} `{MessageIterLaws iter}.
Variable bound : nat.

Lemma stands_entry i key v vs :
  stands i (DEntry key v :: vs) ->
  get_arg_type i = DBUS_TYPE_DICT_ENTRY /\ stands (recurse i) [key; v] /\ stands (next (recurse i)) [v] /\ stands (next i) vs.
Proof.
  intros Hi. assert (Hr : stands (recurse i) [key; v]) by (apply (stands_recurse _ _ _ Hi); reflexivity).
  split_and!; [apply (stands_type _ _ Hi)|exact Hr|exact (stands_next _ _ _ Hr)|exact (stands_next _ _ _ Hi)].
Qed.

(** The entry ahead is looked at as the value it is. *)
Lemma entry_seen i name c w vs wanted :
  stands i (DEntry (DString name) (DVariant c w) :: vs) ->
  (forall code, entry_is i wanted code = bytes_eqb name wanted && (type_code w =? code)) /\
  stands (entry_value i) [w].
Proof.
  intros (_ & Hr & Hn & _)%stands_entry.
  assert (Hv : stands (recurse (next (recurse i))) [w]) by (apply (stands_recurse _ _ _ Hn); reflexivity).
  split; [|exact Hv]. intros code. unfold entry_is. by rewrite (stands_string _ _ _ Hr), (stands_type _ _ Hv).
Qed.

(** A lookup, started in front of properties, ends in front of those that are left. *)
Definition same_lookup {A} (found : option (A * iter)) (expected : A * Properties) (vs : list DBusValue) : Prop :=
  exists i ws, found = Some (expected.1, i) /\ stands i ws /\ map property_of ws = expected.2 /\
    Forall (typed (bs "{sv}")) ws /\ (length ws <= length vs)%nat.

Lemma same_lookup_weaken {A} (found : option (A * iter)) expected v vs :
  same_lookup found expected vs -> same_lookup found expected (v :: vs).
Proof. intros (i & ws & ? & ? & ? & ? & ?). exists i, ws. split_and!; [done..|cbn; lia]. Qed.

Lemma property_string_refines wanted vs : forall fuel i,
  stands i vs -> Forall (typed (bs "{sv}")) vs -> (length vs < fuel)%nat ->
  same_lookup (property_string fuel i wanted) (BluezInventory.property_string (map property_of vs) wanted) vs.
Proof.
  induction vs as [|v vs IH]; intros [|fuel] i Hi Ht Hl; cbn in Hl; try lia; cbn [property_string].
  - rewrite (stands_type _ _ Hi). by exists i, [].
  - pose proof Ht as [(name & c & w & ->)%typed_property Ht']%Forall_cons.
    destruct (entry_seen _ _ _ _ _ wanted Hi) as [Hs Hv]. rewrite Hs.
    destruct (stands_entry _ _ _ _ Hi) as (-> & _ & _ & Hn). cbn [map property_of BluezInventory.property_string].
    rewrite Z.eqb_refl.
    assert (Hrest : same_lookup (property_string fuel (next i) wanted)
      (BluezInventory.property_string (map property_of vs) wanted) (DEntry (DString name) (DVariant c w) :: vs))
      by (apply same_lookup_weaken, IH; [done..|lia]).
    destruct w; cbn [variant_of type_code]; try (rewrite andb_false_r; exact Hrest). rewrite andb_true_r.
    destruct (bytes_eqb name wanted); [|exact Hrest]. rewrite (stands_string _ _ _ Hv).
    by eexists i, _.
Qed.

Lemma property_bool_refines wanted vs : forall fuel i,
  stands i vs -> Forall (typed (bs "{sv}")) vs -> (length vs < fuel)%nat ->
  same_lookup (property_bool fuel i wanted) (BluezInventory.property_bool (map property_of vs) wanted) vs.
Proof.
  induction vs as [|v vs IH]; intros [|fuel] i Hi Ht Hl; cbn in Hl; try lia; cbn [property_bool].
  - rewrite (stands_type _ _ Hi). by exists i, [].
  - pose proof Ht as [(name & c & w & ->)%typed_property Ht']%Forall_cons.
    destruct (entry_seen _ _ _ _ _ wanted Hi) as [Hs Hv]. rewrite Hs.
    destruct (stands_entry _ _ _ _ Hi) as (-> & _ & _ & Hn). cbn [map property_of BluezInventory.property_bool].
    rewrite Z.eqb_refl.
    assert (Hrest : same_lookup (property_bool fuel (next i) wanted)
      (BluezInventory.property_bool (map property_of vs) wanted) (DEntry (DString name) (DVariant c w) :: vs))
      by (apply same_lookup_weaken, IH; [done..|lia]).
    destruct w; cbn [variant_of type_code]; try (rewrite andb_false_r; exact Hrest). rewrite andb_true_r.
    destruct (bytes_eqb name wanted); [|exact Hrest]. rewrite (stands_bool _ _ _ Hv).
    by eexists i, _.
Qed.

Lemma read_device_refines i vs :
  stands i vs -> Forall (typed (bs "{sv}")) vs -> (length vs < bound)%nat ->
  read_device bound i = Some (BluezInventory.read_device (map property_of vs)).
Proof.
  intros Hi Ht Hl. unfold read_device, BluezInventory.read_device.
  destruct (property_string_refines (bs "Address") vs bound i Hi Ht Hl) as (i1 & w1 & E1 & Hi1 & M1 & T1 & L1).
  destruct (BluezInventory.property_string _ (bs "Address")) as [a p1]. rewrite E1. cbn in M1 |- *. subst p1.
  destruct (property_string_refines (bs "Alias") w1 bound i1 Hi1 T1 ltac:(lia)) as (i2 & w2 & E2 & Hi2 & M2 & T2 & L2).
  destruct (BluezInventory.property_string _ (bs "Alias")) as [al p2]. rewrite E2. cbn in M2 |- *. subst p2.
  assert (Hn : same_lookup (if bytes_eqb al [] then property_string bound i2 (bs "Name") else Some (al, i2))
    (if bytes_eqb al [] then BluezInventory.property_string (map property_of w2) (bs "Name") else (al, map property_of w2)) w2).
  { destruct (bytes_eqb al []); [apply property_string_refines; [done..|lia]|]. by exists i2, w2. }
  destruct Hn as (i3 & w3 & E3 & Hi3 & M3 & T3 & L3). rewrite E3.
  destruct (if bytes_eqb al [] then BluezInventory.property_string (map property_of w2) (bs "Name") else (al, map property_of w2))
    as [n p3]. cbn in M3 |- *. subst p3.
  destruct (property_bool_refines (bs "Paired") w3 bound i3 Hi3 T3 ltac:(lia)) as (i4 & w4 & E4 & Hi4 & M4 & T4 & L4).
  destruct (BluezInventory.property_bool _ (bs "Paired")) as [pr p4]. rewrite E4. cbn in M4 |- *. subst p4.
  destruct (property_bool_refines (bs "Connected") w4 bound i4 Hi4 T4 ltac:(lia)) as (i5 & w5 & E5 & _).
  destruct (BluezInventory.property_bool _ (bs "Connected")) as [cn p5]. by rewrite E5.
Qed.

Lemma read_interfaces_refines vs : forall fuel i devices,
  stands i vs -> Forall (typed (bs "{sa{sv}}")) vs -> Forall (fun v => (widest v < bound)%nat) vs ->
  (length vs < fuel)%nat ->
  read_interfaces bound fuel i devices = Some (devices ++ devices_of [map interface_of vs]).
Proof.
  induction vs as [|v vs IH]; intros [|fuel] i devices Hi Ht Hw Hl; cbn in Hl; try lia; cbn [read_interfaces].
  - rewrite (stands_type _ _ Hi). cbn. by rewrite app_nil_r.
  - apply Forall_cons in Ht as [(name & items & -> & Hitems)%typed_interface Ht], Hw as [Hb Hw].
    destruct (stands_entry _ _ _ _ Hi) as (-> & Hr & Hn & Hnext). rewrite (stands_string _ _ _ Hr), Z.eqb_refl.
    assert (Hin : stands (recurse (next (recurse i))) items) by (apply (stands_recurse _ _ _ Hn); reflexivity).
    assert (Hlen : (length items < bound)%nat) by (cbn in Hb; lia).
    rewrite (read_device_refines _ _ Hin Hitems Hlen). unfold devices_of in IH |- *.
    cbn [map concat interface_of fst snd] in IH |- *. change (bs "org.bluez.Device1") with kDeviceInterface.
    destruct (bytes_eqb name kDeviceInterface); cbn [mbind option_bind andb]; [|apply IH; [done..|lia]].
    rewrite IH by (done || lia). rewrite !app_nil_r. f_equal.
    destruct (negb (bytes_eqb (address _) [])); [|done]. by rewrite <- app_assoc.
Qed.

Lemma read_objects_refines vs : forall fuel i devices,
  stands i vs -> Forall (typed (bs "{oa{sa{sv}}}")) vs -> Forall (fun v => (widest v < bound)%nat) vs ->
  (length vs < fuel)%nat ->
  read_objects bound fuel i devices = Some (devices ++ devices_of (map object_of vs)).
Proof.
  induction vs as [|v vs IH]; intros [|fuel] i devices Hi Ht Hw Hl; cbn in Hl; try lia; cbn [read_objects].
  - rewrite (stands_type _ _ Hi). cbn. by rewrite app_nil_r.
  - apply Forall_cons in Ht as [(key & items & -> & Hitems)%typed_object Ht], Hw as [Hb Hw].
    destruct (stands_entry _ _ _ _ Hi) as (-> & _ & Hn & Hnext). rewrite Z.eqb_refl.
    assert (Hin : stands (recurse (next (recurse i))) items) by (apply (stands_recurse _ _ _ Hn); reflexivity).
    destruct (widest_array (bs "{sa{sv}}") items bound) as [Hlen Hwide]; [cbn [widest] in Hb |- *; lia|].
    rewrite (read_interfaces_refines items bound _ devices Hin Hitems Hwide Hlen). cbn [mbind option_bind].
    rewrite IH by (done || lia). f_equal. unfold devices_of. cbn [map concat object_of].
    by rewrite <- app_assoc, app_nil_r.
Qed.
End Refinement.

(** The walk with libdbus's iterators ends within the size of the reply, reads no
    value as another type, reports no error, and is the abstract one over the
    objects of the reply. *)
Lemma reply_refines {iter} `{MessageIterLaws iter} root v rest bound init error :
  stands root (v :: rest) -> signature v = bs "a{oa{sa{sv}}}" -> well_typed v = true ->
  (widest v < bound)%nat -> init root = true ->
  list_bluez_devices bound Connected (Answered root) init error
  = (Some (BluezInventory.list_bluez_devices (Some (objects_of v))), error,
     [Sent (new_call (bs "/") kObjectManager (bs "GetManagedObjects") []) 5000; Closed]).
Proof.
  intros Hroot Hs Hw Hb Hinit.
  destruct (typed_array (bs "{oa{sa{sv}}}") v (conj Hs Hw)) as (items & -> & Hitems).
  unfold list_bluez_devices, call. rewrite Hinit, (stands_type _ _ Hroot). cbn [negb orb type_code app].
  rewrite Z.eqb_refl. cbn [negb]. destruct (widest_array _ _ _ Hb) as [Hlen Hwide].
  rewrite (read_objects_refines bound items bound (recurse root) []); [done| |done..].
  apply (stands_recurse _ _ _ Hroot). reflexivity.
Qed.

(** *** What the reply says of its devices, in whatever order *)

(** The properties of every interface of a device, wherever it is in the reply. *)
Definition device_interface (v : DBusValue) : list (list DBusValue) :=
  match v with
  | DEntry (DString name) properties => if bool_decide (name = bs "org.bluez.Device1") then [contents properties] else []
  | _ => []
  end.

Definition device_object (v : DBusValue) : list (list DBusValue) :=
  match v with DEntry _ interfaces => concat (map device_interface (contents interfaces)) | _ => [] end.

Definition device_entries (v : DBusValue) : list (list DBusValue) := concat (map device_object (contents v)).

Definition property (name : string) (value : DBusValue) : DBusValue :=
  DEntry (DString (bs name)) (DVariant (signature value) value).

(** The device has the address, the alias and the two flags that are somewhere
    among the properties. *)
Definition describes (properties : list DBusValue) (d : BluetoothDevice) : Prop :=
  property "Address" (DString (address d)) ∈ properties /\
  property "Alias" (DString (name d)) ∈ properties /\
  property "Paired" (DBool (paired d)) ∈ properties /\
  property "Connected" (DBool (connected d)) ∈ properties.

Definition entry_name (v : DBusValue) : Bytes := match v with DEntry (DString name) _ => name | _ => [] end.

(** No property occurs twice, and the four that are read are there in the order in
    which they are looked for, with others before, between and behind them. *)
Definition in_order (properties : list DBusValue) : Prop :=
  NoDup (map entry_name properties) /\
  exists p0 address p1 alias p2 paired p3 connected p4,
    properties = p0 ++ property "Address" (DString address) :: p1 ++ property "Alias" (DString alias) :: p2
                 ++ property "Paired" (DBool paired) :: p3 ++ property "Connected" (DBool connected) :: p4 /\
    address <> [] /\ alias <> [].

Definition by_address (d e : BluetoothDevice) : Prop := bytes_ltb (address e) (address d) = false.

Lemma no_name_no_string wanted p : wanted ∉ map entry_name p -> no_string wanted (map property_of p).
Proof.
  intros Hn. apply Forall_fmap, Forall_forall. intros v Hv. cbn.
  destruct v as [| | | | | | | | | |[t| | | | | | | | | |] [| | | | | | | |c w| |]]; cbn; try done.
  destruct w; cbn; try done. intros ->. apply Hn, list_elem_of_fmap. by eexists; split; [|exact Hv].
Qed.

Lemma no_name_no_bool wanted p : wanted ∉ map entry_name p -> no_bool wanted (map property_of p).
Proof.
  intros Hn. apply Forall_fmap, Forall_forall. intros v Hv. cbn.
  destruct v as [| | | | | | | | | |[t| | | | | | | | | |] [| | | | | | | |c w| |]]; cbn; try done.
  destruct w; cbn; try done. intros ->. apply Hn, list_elem_of_fmap. by eexists; split; [|exact Hv].
Qed.

Lemma device_read_in_order properties : in_order properties ->
  let d := BluezInventory.read_device (map property_of properties) in describes properties d /\ address d <> [].
Proof.
  intros (Hn & p0 & a & p1 & n & p2 & b & p3 & c & p4 & -> & Ha & Hal). cbv zeta.
  repeat (rewrite map_app in Hn; cbn [map entry_name property] in Hn).
  rewrite NoDup_app in Hn. destruct Hn as (_ & H0 & Hn). apply NoDup_cons in Hn as [_ Hn].
  rewrite NoDup_app in Hn. destruct Hn as (_ & H1 & Hn). apply NoDup_cons in Hn as [_ Hn].
  rewrite NoDup_app in Hn. destruct Hn as (_ & H2 & Hn). apply NoDup_cons in Hn as [_ Hn].
  rewrite NoDup_app in Hn. destruct Hn as (_ & H3 & _).
  repeat (rewrite map_app; cbn [map property_of variant_of property]).
  rewrite read_device_in_order; [|done|apply no_name_no_string|apply no_name_no_string|apply no_name_no_bool|apply no_name_no_bool].
  - split; [|done]. unfold describes. cbn [address name paired connected]. set_solver.
  - intros Hi. apply (H0 _ Hi). set_solver.
  - intros Hi. apply (H1 _ Hi). set_solver.
  - intros Hi. apply (H2 _ Hi). set_solver.
  - intros Hi. apply (H3 _ Hi). set_solver.
Qed.

Lemma interface_devices v : typed (bs "{sa{sv}}") v -> Forall in_order (device_interface v) ->
  Forall2 describes (device_interface v)
    (let device := BluezInventory.read_device (interface_of v).2 in
     if bytes_eqb (interface_of v).1 (bs "org.bluez.Device1") && negb (bytes_eqb (address device) []) then [device] else []).
Proof.
  intros (n & items & -> & _)%typed_interface. cbn [device_interface interface_of fst snd contents]. cbv zeta. intros Ho.
  destruct (bytes_eqb n (bs "org.bluez.Device1")) eqn:E; cbn [andb].
  - apply bytes_eqb_eq in E as ->. rewrite bool_decide_eq_true_2 in Ho |- * by done.
    apply Forall_cons in Ho as [Ho _]. apply device_read_in_order in Ho as [Hd Ha].
    destruct (bytes_eqb (address _) []) eqn:E; [by apply bytes_eqb_eq in E|]. by constructor.
  - rewrite bool_decide_eq_false_2; [constructor|]. intros ->. by rewrite bytes_eqb_refl in E.
Qed.

Lemma object_devices v : typed (bs "{oa{sa{sv}}}") v -> Forall in_order (device_object v) ->
  Forall2 describes (device_object v) (devices_of [object_of v]).
Proof.
  intros (key & items & -> & Hi)%typed_object. unfold devices_of. cbn [device_object object_of contents map concat].
  rewrite app_nil_r. induction Hi as [|v items Hv Hi IH]; cbn [map concat]; [constructor|].
  intros [Ho1 Ho2]%Forall_app. apply Forall2_app; [by apply interface_devices|by apply IH].
Qed.

Lemma reply_devices v : typed (bs "a{oa{sa{sv}}}") v -> Forall in_order (device_entries v) ->
  Forall2 describes (device_entries v) (devices_of (objects_of v)).
Proof.
  intros (items & -> & Hi)%typed_array. unfold device_entries, objects_of, devices_of. cbn [contents].
  induction Hi as [|v items Hv Hi IH]; cbn [map concat]; [constructor|].
  intros [Ho1 Ho2]%Forall_app. apply Forall2_app; [|by apply IH].
  pose proof (object_devices v Hv Ho1) as Hd. unfold devices_of in Hd. cbn [map concat] in Hd. by rewrite app_nil_r in Hd.
Qed.

(** Devices in the order of the page: the paired ones first, each group by address. *)
Definition page_order (devices : list BluetoothDevice) : Prop :=
  exists first second, devices = first ++ second /\
    Forall (fun d => paired d = true) first /\ StronglySorted by_address first /\
    Forall (fun d => paired d = false) second /\ StronglySorted by_address second.

Lemma sorted_page_order devices : StronglySorted not_after devices -> page_order devices.
Proof.
  induction 1 as [|d l Hs (first & second & -> & H1 & S1 & H2 & S2) Hd].
  { exists [], []. split_and!; try done; constructor. }
  apply Forall_app in Hd as [Hd1 Hd2]. destruct (paired d) eqn:Ep.
  - exists (d :: first), second. split_and!; [done|by constructor| |done..]. constructor; [done|].
    rewrite Forall_forall in H1, Hd1 |- *. intros e He. specialize (Hd1 e He). specialize (H1 e He).
    unfold not_after, before in Hd1. by rewrite Ep, H1 in Hd1.
  - assert (first = []) as ->.
    { destruct first as [|e first]; [done|]. apply Forall_cons in Hd1 as [Hd1 _], H1 as [H1 _].
      unfold not_after, before in Hd1. by rewrite Ep, H1 in Hd1. }
    exists [], (d :: second). split_and!; [done|constructor|constructor|by constructor|]. constructor; [done|].
    rewrite Forall_forall in H2, Hd2 |- *. intros e He. specialize (Hd2 e He). specialize (H2 e He).
    unfold not_after, before in Hd2. by rewrite Ep, H2 in Hd2.
Qed.

(** C32. What the inventory reads is what BlueZ's reply says. When GetManagedObjects
    is answered with the type that the interface documents, and the properties of
    every device come in the order in which they are looked for (among others, none
    twice), then the walk with libdbus's iterators ends within the size of the reply
    and reports no error, and the list it gives has exactly one device for every
    device interface anywhere in the reply, with the address, the alias and the
    paired and connected flags that stand somewhere among the properties of that
    interface; the paired devices come first, each group by address; and the whole
    exchange is one call of that method, after which the connection is closed. *)
Theorem devices_as_described {iter} `{MessageIterLaws iter} root v rest bound init error :
  stands root (v :: rest) -> signature v = bs "a{oa{sa{sv}}}" -> well_typed v = true ->
  (widest v < bound)%nat -> init root = true -> Forall in_order (device_entries v) ->
  exists devices described,
    list_bluez_devices bound Connected (Answered root) init error
    = (Some devices, error, [Sent (new_call (bs "/") kObjectManager (bs "GetManagedObjects") []) 5000; Closed]) /\
    devices ≡ₚ described /\ Forall2 describes (device_entries v) described /\ page_order devices.
Proof.
  intros Hroot Hs Hw Hb Hinit Ho. eexists _, (devices_of (objects_of v)).
  split; [by eapply reply_refines|]. cbn [BluezInventory.list_bluez_devices]. split_and!.
  - apply sort_devices_perm.
  - by apply reply_devices.
  - apply sorted_page_order, sort_devices_sorted.
Qed.

(** ** Forgetting and scanning are what the inventory says *)

Definition messages (l : list Action) : list Message := omap (fun a => match a with Sent m _ => Some m | _ => None end) l.

Definition call_message (c : Call) : Message :=
  new_call kAdapterPath kAdapterInterface
    match c with
    | RemoveDevice _ => bs "RemoveDevice"
    | SetDiscoveryFilter _ => bs "SetDiscoveryFilter"
    | StartDiscovery => bs "StartDiscovery"
    | StopDiscovery => bs "StopDiscovery"
    end
    match c with
    | RemoveDevice path => [DPath path]
    | SetDiscoveryFilter transport =>
        [DArray (bs "{sv}") [DEntry (DString (bs "Transport")) (DVariant (bs "s") (DString transport))]]
    | StartDiscovery | StopDiscovery => []
    end.

Definition is_connected (c : Connection) : bool := match c with Connected => true | _ => false end.
Definition is_answered {iter} (a : @Answer iter) : bool := match a with Answered _ => true | _ => false end.
Definition allocated {iter} (a : @Answer iter) : Prop := match a with NotAllocated => False | _ => True end.

(** The bodies have the signatures of BlueZ's interface, and hold what they announce. *)
Lemma calls_as_documented c :
  body_signature (call_message c) = match c with
    | RemoveDevice _ => bs "o" | SetDiscoveryFilter _ => bs "a{sv}" | _ => [] end /\
  forallb well_typed (arguments (call_message c)) = true.
Proof. by destruct c. Qed.

(** The pairing process and the page ask for the same filter. *)
Lemma same_filter : filter_request (bs "bredr") = set_bredr_discovery_filter.
Proof. reflexivity. Qed.

(** Forgetting is the abstract operation, and a failure always has a text for a
    caller that asks for one, if the bus has. *)
Lemma forget_refines {iter} address c (a : @Answer iter) error :
  allocated a ->
  let '(ok, error', actions) := forget_bluez_device address c a error in
  (ok, messages actions)
  = (let '(ok, calls) := BluezInventory.forget_bluez_device address (is_connected c) (is_answered a) in
     (ok, map call_message calls)) /\
  (ok = true -> error' = error) /\
  (ok = false -> error = Some [] -> error' = Some [] ->
   (exists m, c = NotConnected m /\ default [] m = []) \/ a = Failed (Some [])).
Proof.
  intros Ha. unfold forget_bluez_device, BluezInventory.forget_bluez_device.
  destruct (valid_address address); cbn [negb];
    [|split_and!; [done|done|intros _ -> [=]]].
  destruct c as [|m]; cbn [is_connected negb].
  - destruct a as [|[m|]|reply]; [done|..]; (split_and!; [done|done|]); intros Hk -> [=]; subst; naive_solver.
  - split_and!; [done|done|]. intros _ -> [=]. left. exists m. split; [done|]. by destruct m.
Qed.

(** The scan is over: the time is up or a stop is requested. *)
Definition scan_over (now : nat -> Z) (deadline : Z) (stop_requested : option (nat -> bool)) (n : nat) : bool :=
  negb (now n <? deadline) || match stop_requested with Some f => f n | None => false end.

(** With fuel up to a turn in which it is over, the scan ends at the first such
    turn, and it has let the bus run in every turn before. *)
Lemma scan_turns_end now deadline stop_requested k : forall turns n,
  (n <= k < n + turns)%nat -> scan_over now deadline stop_requested k = true ->
  exists m, scan_turns turns n now deadline stop_requested = Some (repeat Dispatched m) /\
    scan_over now deadline stop_requested (n + m) = true /\
    forall j, (j < m)%nat -> scan_over now deadline stop_requested (n + j) = false.
Proof.
  induction turns as [|turns IH]; intros n Hk Hover; [lia|]. cbn [scan_turns].
  assert (En : (now n <? deadline) && negb (match stop_requested with Some f => f n | None => false end)
               = negb (scan_over now deadline stop_requested n)).
  { unfold scan_over. by rewrite negb_orb, negb_involutive. }
  rewrite En. destruct (scan_over now deadline stop_requested n) eqn:E; cbn [negb].
  - exists O. rewrite Nat.add_0_r. split_and!; [done..|lia].
  - assert (n <> k) by congruence. destruct (IH (S n)) as (m & -> & Hm & Hbefore); [lia|done|].
    exists (S m). rewrite Nat.add_succ_r. split_and!; [done..|]. intros [|j] Hj; [by rewrite Nat.add_0_r|].
    rewrite Nat.add_succ_r. apply Hbefore. lia.
Qed.

Lemma messages_app a b : messages (a ++ b) = messages a ++ messages b.
Proof. apply omap_app. Qed.

Lemma messages_said log text : messages (log_message log text) = [].
Proof. by destruct log. Qed.

Lemma messages_dispatched m : messages (repeat Dispatched m) = [].
Proof. induction m as [|m IH]; [done|]. exact IH. Qed.

(** What is done around the turns of a scan. *)
Lemma scan_shape (b : bool) calls before tail m now deadline stop_requested :
  Dispatched ∉ before -> tail = [] \/ (exists text, tail = [Said text]) ->
  messages before ++ [call_message StopDiscovery] = calls ->
  scan_over now deadline stop_requested (S m) = true ->
  (forall j, (j < m)%nat -> scan_over now deadline stop_requested (S j) = false) ->
  let actions := before ++ repeat Dispatched m ++ Sent (call_message StopDiscovery) 5000 :: tail ++ [Closed] in
  (b, messages actions) = (b, calls) /\ last actions = Some Closed /\
  exists before after m, actions = before ++ repeat Dispatched m ++ after /\
    Dispatched ∉ before /\ Dispatched ∉ after /\ scan_over now deadline stop_requested (S m) = true /\
    forall j, (j < m)%nat -> scan_over now deadline stop_requested (S j) = false.
Proof.
  intros Hb Ht <- Hm Hbefore. cbv zeta. split_and!.
  - rewrite !messages_app, messages_dispatched. by destruct Ht as [->|[text ->]].
  - by rewrite !app_comm_cons, !app_assoc, last_snoc.
  - eexists before, _, m. split_and!; [done|done| |done|done]. destruct Ht as [->|[text ->]]; cbn; set_solver.
Qed.

Lemma said_shape log text : log_message log text = [] \/ (exists t, log_message log text = [Said t]).
Proof. destruct log; [right; by eexists|by left]. Qed.

(** The scan returns, and it is the abstract one. If in some turn within the fuel
    the time is up or a stop is requested, the discovery ends: its result and the
    calls on the bus are those of the inventory, the last thing done with a
    connection is to close it, and when the scan began, the bus ran in all turns up
    to the first one in which the scan was over and in no other. *)
Theorem discovery_returns {iter} bound transport seconds log stop_requested c (filter start stop : @Answer iter) now k :
  let deadline := now O + seconds * 1000000000 in
  allocated filter -> allocated start -> allocated stop ->
  (1 <= k <= bound)%nat -> scan_over now deadline stop_requested k = true ->
  exists ok actions,
    discover_bluez_devices bound transport seconds log stop_requested c filter start stop now = Some (ok, actions) /\
    (ok, messages actions)
    = (let '(ok, calls) := BluezInventory.discover_bluez_devices transport (is_connected c) (is_answered filter)
         (is_answered start) (is_answered stop) in (ok, map call_message calls)) /\
    (c = Connected -> last actions = Some Closed) /\
    (is_connected c && is_answered filter && is_answered start = true ->
     exists before after m, actions = before ++ repeat Dispatched m ++ after /\
       Dispatched ∉ before /\ Dispatched ∉ after /\
       scan_over now deadline stop_requested (S m) = true /\
       forall j, (j < m)%nat -> scan_over now deadline stop_requested (S j) = false).
Proof.
  intros deadline Hf Hs Hp Hk Hover.
  unfold discover_bluez_devices, BluezInventory.discover_bluez_devices.
  destruct c as [|m]; cbn [is_connected negb];
    [|eexists _, _; split_and!; [done|by rewrite messages_said|done|done]].
  destruct filter as [|fm|fr]; [done|..]; cbn [set_filter is_answered negb].
  { eexists _, _. split_and!; [done| |intros _; by rewrite app_assoc, last_snoc|done].
    by rewrite !messages_app, messages_said. }
  destruct start as [|sm|sr]; [done|..]; cbn -[scan_turns log_message bs].
  { eexists _, _. split_and!; [done| |intros _; by rewrite !app_comm_cons, app_assoc, last_snoc|done].
    cbn [messages omap list_omap]. by rewrite !messages_app, messages_said. }
  destruct (scan_turns_end now deadline stop_requested k bound 1 ltac:(lia) Hover) as (m & E & Hm & Hbefore).
  unfold deadline in E. rewrite E. cbn -[scan_turns log_message bs].
  set (before := Sent (filter_request transport) 5000
    :: Sent (call_message StartDiscovery) 5000
    :: log_message log (bs "scanning " ++ transport ++ bs " devices for " ++ dec seconds ++ bs " seconds")).
  assert (Hb : Dispatched ∉ before) by (subst before; destruct log; cbn; set_solver).
  assert (Hc : messages before ++ [call_message StopDiscovery]
    = map call_message [SetDiscoveryFilter transport; StartDiscovery; StopDiscovery])
    by (subst before; by destruct log).
  destruct stop as [|pm|pr]; [done|..]; cbn -[log_message bs].
  - destruct (scan_shape false _ before (log_message log (bs "unable to stop discovery: "
      ++ default (bs "D-Bus call failed") pm)) m _ _ _ Hb (said_shape _ _) Hc Hm Hbefore) as (H1 & H2 & H3).
    eexists _, _. split_and!; [|exact H1|intros _; exact H2|intros _; exact H3].
    subst before. cbn -[log_message bs]. by rewrite <- !app_assoc.
  - destruct (scan_shape true _ before [] m _ _ _ Hb (or_introl eq_refl) Hc Hm Hbefore) as (H1 & H2 & H3).
    eexists _, _. split_and!; [|exact H1|intros _; exact H2|intros _; exact H3].
    subst before. cbn -[log_message bs]. by rewrite <- !app_assoc.
Qed.

(** ** The interface holds of an iterator over a list *)

#[export] Instance list_iter : MessageIter (list DBusValue) := {
  get_arg_type vs := match vs with [] => DBUS_TYPE_INVALID | v :: _ => type_code v end;
  recurse vs := match vs with [] => [] | v :: _ => contents v end;
  next := tail;
  get_string vs := match vs with DString text :: _ => Some text | _ => None end;
  get_bool vs := match vs with DBool b :: _ => b | _ => false end
}.

#[export] Instance list_iter_laws : MessageIterLaws (list DBusValue).
Proof. by refine {| stands := eq |}; intros; subst. Defined.

(** A reply with the adapter and two devices. *)
Definition sample_device (address : Bytes) (paired : bool) : DBusValue :=
  DEntry (DPath (BluezInventory.device_path address))
    (DArray (bs "{sa{sv}}")
       [DEntry (DString (bs "org.bluez.Device1"))
          (DArray (bs "{sv}")
             [DEntry (DString (bs "Address")) (DVariant (bs "s") (DString address));
              DEntry (DString (bs "Alias")) (DVariant (bs "s") (DString (bs "car")));
              DEntry (DString (bs "Paired")) (DVariant (bs "b") (DBool paired));
              DEntry (DString (bs "RSSI")) (DVariant (bs "n") (DInt16 (-60)));
              DEntry (DString (bs "Connected")) (DVariant (bs "b") (DBool false))])]).

Definition sample_reply : DBusValue :=
  DArray (bs "{oa{sa{sv}}}")
    [DEntry (DPath (bs "/org/bluez/hci0"))
       (DArray (bs "{sa{sv}}")
          [DEntry (DString (bs "org.bluez.Adapter1"))
             (DArray (bs "{sv}") [DEntry (DString (bs "Address")) (DVariant (bs "s") (DString (bs "00:00:00:00:00:01")))])]);
     sample_device (bs "00:00:00:00:00:02") false;
     sample_device (bs "00:00:00:00:00:03") true].

Lemma sample_in_order : Forall in_order (device_entries sample_reply).
Proof.
  repeat apply Forall_cons_2; [| |constructor]; split.
  1,3: eapply bool_decide_unpack; vm_compute; exact I.
  - eexists [], _, [], _, [], false, [property "RSSI" (DInt16 (-60))], false, []. split; [reflexivity|done].
  - eexists [], _, [], _, [], true, [property "RSSI" (DInt16 (-60))], false, []. split; [reflexivity|done].
Qed.

Lemma devices_as_described_witness :
  signature sample_reply = bs "a{oa{sa{sv}}}" /\ well_typed sample_reply = true /\
  exists devices described,
    (list_bluez_devices 9 Connected (Answered [sample_reply]) (fun _ => true) (Some [])).1.1 = Some devices /\
    devices = [mkDevice (bs "00:00:00:00:00:03") (bs "car") true false; mkDevice (bs "00:00:00:00:00:02") (bs "car") false false] /\
    devices ≡ₚ described /\ Forall2 describes (device_entries sample_reply) described.
Proof.
  split_and!; [reflexivity|vm_compute; reflexivity|].
  destruct (devices_as_described [sample_reply] sample_reply [] 9 (fun _ => true) (Some []))
    as (devices & described & E & Hp & Hd & _);
    [reflexivity|reflexivity|vm_compute; reflexivity|vm_compute; lia|reflexivity|exact sample_in_order|].
  exists devices, described. split_and!; [by rewrite E| |exact Hp|exact Hd].
  assert (Some devices = (list_bluez_devices 9 Connected (Answered [sample_reply]) (fun _ => true) (Some [])).1.1) as Eq
    by (by rewrite E).
  vm_compute in Eq. by injection Eq.
Defined.

(** Three turns of a scan of one second; the fourth finds the time up. *)
Lemma discovery_returns_witness :
  exists ok actions,
    discover_bluez_devices 10 (bs "bredr") 1 true None Connected (Answered tt) (Answered tt) (Answered tt)
      (fun n => Z.of_nat n * 250000000) = Some (ok, actions) /\ ok = true /\ last actions = Some Closed.
Proof.
  destruct (discovery_returns 10 (bs "bredr") 1 true None Connected (Answered tt) (Answered tt) (Answered tt)
    (fun n => Z.of_nat n * 250000000) 4 I I I ltac:(lia) eq_refl) as (ok & actions & E & Eq & Hlast & _).
  exists ok, actions. split_and!; [exact E|by injection Eq|by apply Hlast].
Defined.
