(* ===== verification/BluezPairing.v ===== *)
(** * Pairing with a head unit and connecting iAP2 through BlueZ

    [src/src/iap2/bluez_pairing.cpp], second part: waiting for a call while the
    agent and the profile are served, [ensure_bluez_pairing], [connect_bluez_iap2]
    and the end of a connection.  A function is a computation on the bus; what
    happens while it waits is a script, times are milliseconds. *)

From S2P Require Import Prelude Text DaemonLog BluetoothWorker BluezInventory BluezAgent.
From stdpp Require Import gmap relations.
#[local] Open Scope Z_scope.

(** ** Waiting *)

(** What may be dispatched: a method call to an object, the reply to the call that
    is waited for, or (on another thread) the answer of the management page. *)
Inductive Incoming :=
| MethodCall (message : Message) (w : Surround)
| CallDone (r : CallReply)
| UserAnswer (id : Z) (confirmed : bool).

(** A turn of a waiting loop: the clock of its condition, what is dispatched, the
    clock when a pending confirmation is looked at. *)
Record Turn := mkTurn {
  turn_now : Z;
  incoming : list Incoming;
  after : Z
}.

(** A call: whether it could be submitted, the clock then, and the turns. *)
Record CallScript := mkCallScript {
  submitted : bool;
  start : Z;
  turns : list Turn
}.

(** A search for a device: the clock at its start, and its turns, each with the
    reply of the object list. *)
Record WaitScript := mkWaitScript {
  wait_start : Z;
  wait_turns : list (Turn * option (list Object))
}.

(** The bus and what is still to happen on it. *)
Record World := mkWorld {
  bus : Bus;
  calls : list CallScript;
  waits : list WaitScript
}.

Definition M (A : Type) : Type := World -> A * World.
#[export] Instance m_ret : MRet M := fun A a w => (a, w).
#[export] Instance m_bind : MBind M := fun A B f m w => let '(a, w) := m w in f a w.

Definition on_bus (f : Bus -> Bus) : M unit := fun w => (tt, mkWorld (f (bus w)) (calls w) (waits w)).
Definition read_bus : M Bus := fun w => (bus w, w).
Definition say (level : LogLevel) (message : Bytes) : M unit := on_bus (write_log level message).

(** One dispatched item; a method call goes to the object at its path, and the
    first reply is the one that counts. *)
Definition dispatch (result : option CallReply) (s : Bus) (i : Incoming) : option CallReply * Bus :=
  match i with
  | MethodCall message w =>
      (result, if bytes_eqb (path message) kAgentPath then (agent_handler w message s).2
               else (profile_handler w message s).2)
  | CallDone r => (Some (default r result), s)
  | UserAnswer id confirmed =>
      (result, emit (UserAnswered id confirmed) (set_mailbox (answer_pairing_confirmation id confirmed (mailbox s)) s))
  end.

Definition dispatch_all (items : list Incoming) (result : option CallReply) (s : Bus) : option CallReply * Bus :=
  fold_left (fun '(result, s) i => dispatch result s i) items (result, s).

(** [with_agent]: whether the caller passed the agent's context. *)
(* src/src/iap2/bluez_pairing.cpp:375-380 await_call (loop) *)
Fixpoint await_turns (with_agent : bool) (deadline : Z) (turns : list Turn) (result : option CallReply) (s : Bus)
    : option CallReply * Bus :=
  match result, turns with
  | Some _, _ | None, [] => (result, s)
  | None, t :: turns =>
      if deadline <=? turn_now t then (None, s)
      else
        let '(result, s) := dispatch_all (incoming t) None s in
        await_turns with_agent deadline turns result
          (if with_agent then resolve_pending_confirmation (after t) s else s)
  end.

(** The name and the message of the last error; a call that ends without a reply
    keeps the name of an earlier one. *)
Abbreviation Errors := (Bytes * Bytes)%type.

(* src/src/iap2/bluez_pairing.cpp:342-361 finish_call *)
Definition finish_call (r : CallReply) : bool * Errors :=
  match r with
  | ReplyOk => (true, ([], []))
  | ReplyError name message => (false, (if bytes_eqb name [] then bs "D-Bus error" else name, message))
  | NoReply => (false, ([], []))
  end.

(* src/src/iap2/bluez_pairing.cpp:363-389 await_call *)
Definition await_call (call : Message) (timeout_ms : Z) (with_agent : bool) (errors : Errors) : M (bool * Errors) := fun w =>
  let '(script, rest) := match calls w with
                         | [] => (mkCallScript false 0 [], [])
                         | script :: rest => (script, rest)
                         end in
  let finish e s := mkWorld (emit (Ended call e) s) rest (waits w) in
  let s := emit (Calling call) (bus w) in
  if negb (submitted script) then ((false, (errors.1, bs "unable to submit D-Bus call")), finish NotSubmitted s)
  else
    match await_turns with_agent (start script + timeout_ms) (turns script) None s with
    | (None, s) => ((false, (errors.1, bs "D-Bus call timed out")), finish TimedOut s)
    | (Some r, s) => (finish_call r, finish (Replied r) s)
    end.

(* src/src/iap2/bluez_pairing.cpp:396-409 call_no_arguments *)
Definition call_no_arguments (path interface method : Bytes) (timeout_ms : Z) (with_agent : bool) : Errors -> M (bool * Errors) :=
  await_call (no_arguments path interface method) timeout_ms with_agent.

(* src/src/iap2/bluez_pairing.cpp:661-690 call_register_iap2_profile *)
Definition call_register_iap2_profile : Errors -> M (bool * Errors) := await_call register_iap2_profile 5000 false.
(* src/src/iap2/bluez_pairing.cpp:692-734 call_register_iap2_device_profile *)
Definition call_register_iap2_device_profile : Errors -> M (bool * Errors) :=
  await_call register_iap2_device_profile 5000 false.
(* src/src/iap2/bluez_pairing.cpp:736-749 call_unregister_iap2_profile *)
Definition call_unregister_iap2_profile (path : Bytes) : Errors -> M (bool * Errors) :=
  await_call (unregister_iap2_profile path) 5000 false.
(* src/src/iap2/bluez_pairing.cpp:751-764 call_connect_iap2_profile *)
Definition call_connect_iap2_profile (path : Bytes) (timeout_ms : Z) : Errors -> M (bool * Errors) :=
  await_call (connect_iap2_profile path) timeout_ms false.
(* src/src/iap2/bluez_pairing.cpp:766-778 call_disconnect_iap2_profile *)
Definition call_disconnect_iap2_profile (path : Bytes) : M (bool * Errors) :=
  await_call (disconnect_iap2_profile path) 5000 false ([], []).
(* src/src/iap2/bluez_pairing.cpp:819-836 call_register_agent *)
Definition call_register_agent (method : Bytes) : Errors -> M (bool * Errors) := await_call (register_agent method) 5000 false.
(* src/src/iap2/bluez_pairing.cpp:838-852 call_unregister_agent *)
Definition call_unregister_agent : Errors -> M (bool * Errors) := await_call unregister_agent 5000 false.
(* src/src/iap2/bluez_pairing.cpp:854-868 call_request_default_agent *)
Definition call_request_default_agent : Errors -> M (bool * Errors) := await_call request_default_agent 5000 false.
(* src/src/iap2/bluez_pairing.cpp:870-892 call_set_trusted *)
Definition call_set_trusted (path : Bytes) : Errors -> M (bool * Errors) := await_call (set_trusted path) 5000 false.
(* src/src/iap2/bluez_pairing.cpp:894-923 call_set_bredr_discovery_filter *)
Definition call_set_bredr_discovery_filter : Errors -> M (bool * Errors) := await_call set_bredr_discovery_filter 5000 false.

(** An error as the log shows it. *)
Definition shown (errors : Errors) : Bytes := errors.1 ++ bs " " ++ errors.2.

(** ** Devices *)

(* src/src/iap2/bluez_pairing.cpp:780-786 device_path *)
Definition device_path (mac : Bytes) : Bytes :=
  bs "/org/bluez/hci0/dev_" ++ map (fun character => if character =? 58 then 95 else character) mac.

(* src/src/iap2/bluez_pairing.cpp:935-943 same_address *)
Definition same_address (left right : Bytes) : bool :=
  (size_of left =? size_of right) && forallb (fun '(a, b) => to_upper a =? to_upper b) (combine left right).

(* src/src/iap2/bluez_pairing.cpp:945-951 device_visible *)
Definition device_visible (mac : Bytes) (reply : option (list Object)) : bool :=
  existsb (fun device => same_address (address device) mac) (list_bluez_devices reply).

(** The object list is looked at after what was dispatched. *)
(* src/src/iap2/bluez_pairing.cpp:1084-1094 ensure_bluez_pairing (wait_for_device) *)
Fixpoint wait_loop (mac : Bytes) (deadline : Z) (turns : list (Turn * option (list Object))) (s : Bus) : bool * Bus :=
  match turns with
  | [] => (false, s)
  | (t, reply) :: turns =>
      if deadline <=? turn_now t then (false, s)
      else
        let s := (dispatch_all (incoming t) None s).2 in
        if device_visible mac reply then (true, s) else wait_loop mac deadline turns s
  end.

Definition wait_for_device (mac : Bytes) (seconds : Z) : M bool := fun w =>
  let '(script, rest) := match waits w with
                         | [] => (mkWaitScript 0 [], [])
                         | script :: rest => (script, rest)
                         end in
  let '(found, s) := wait_loop mac (wait_start script + seconds * 1000) (wait_turns script) (bus w) in
  (found, mkWorld s (calls w) rest).

(** ** Objects *)

(** Whether the path was free: the library refuses a second object at a path. *)
Definition register_profile_object (p : ProfileState) : M bool := fun w =>
  match profiles (bus w) !! profile_path p with
  | Some _ => (false, w)
  | None => (true, mkWorld (set_profiles (<[profile_path p := p]> (profiles (bus w))) (bus w)) (calls w) (waits w))
  end.

Definition unregister_profile_object (path : Bytes) : M unit :=
  on_bus (fun s => set_profiles (delete path (profiles s)) s).

Definition register_agent_object : M bool := fun w =>
  match agent (bus w) with
  | Some _ => (false, w)
  | None => (true, mkWorld (set_agent (Some (mkAgent None 0 0)) (bus w)) (calls w) (waits w))
  end.

(** [state->profile_registered = true] *)
Definition mark_registered (path : Bytes) : M unit :=
  on_bus (fun s => set_profiles (alter (set_registered true) path (profiles s)) s).

(* src/src/iap2/bluez_pairing.cpp:788-817 ensure_iap2_device_profile *)
Definition ensure_iap2_device_profile (mac : Bytes) : M bool := fun w =>
  if device_profile (bus w) then (true, w)
  else
    (registered ← register_profile_object (mkProfile (device_path mac) kDeviceProfilePath kIap2DeviceUuid false (-1) false);
     if negb (registered : bool) then
       say error (bs "cannot register BlueZ iAP2 device profile object") ;; mret false
     else
       '(ok, errors) ← call_register_iap2_device_profile ([], []);
       if negb (ok : bool) then
         say error (bs "RegisterProfile(iAP2 device) failed: " ++ shown errors) ;;
         unregister_profile_object kDeviceProfilePath ;; mret false
       else
         mark_registered kDeviceProfilePath ;;
         on_bus (set_device_profile true) ;;
         say info (bs "advertising BlueZ iAP2 device service before pairing") ;; mret true) w.

(** ** Pairing *)

(* src/src/iap2/bluez_pairing.cpp:1047-1059 ensure_bluez_pairing (cleanup_agent) *)
Definition cleanup_agent : M unit :=
  on_bus (reject_pending_confirmation (bs "Pairing session ended")) ;;
  '(ok, errors) ← call_unregister_agent ([], []);
  (if negb (ok : bool) && negb (bytes_eqb (errors.1) (bs "org.bluez.Error.DoesNotExist"))
   then say warning (bs "UnregisterAgent failed: " ++ shown errors) else mret tt) ;;
  on_bus (set_agent None).

Definition adapter_call (method : string) : Errors -> M (bool * Errors) :=
  call_no_arguments kAdapterPath kAdapterInterface (bs method) 5000 false.

(** [StopDiscovery], whose outcome nobody looks at. *)
Definition stop_discovery : M unit := adapter_call "StopDiscovery" ([], []) ;; mret tt.

(* src/src/iap2/bluez_pairing.cpp:1060-1076 ensure_bluez_pairing (discovery) *)
Definition begin_discovery (mac : Bytes) (errors : Errors) : M Errors :=
  '(ok, errors) ← call_request_default_agent errors;
  (if negb (ok : bool) then say warning (bs "RequestDefaultAgent failed: " ++ shown errors) else mret tt) ;;
  '(ok, errors) ← call_set_bredr_discovery_filter errors;
  (if negb (ok : bool) then say warning (bs "SetDiscoveryFilter(bredr) failed: " ++ shown errors) else mret tt) ;;
  '(ok, errors) ← adapter_call "StartDiscovery" errors;
  (if negb (ok : bool) then say warning (bs "StartDiscovery failed: " ++ shown errors)
   else say info (bs "scanning for " ++ mac)) ;;
  mret errors.

(** The inquiry, restarted once when nothing was found. *)
(* src/src/iap2/bluez_pairing.cpp:1082-1118 ensure_bluez_pairing (search) *)
Definition search_device (mac : Bytes) (timeout_seconds : Z) : M bool :=
  let discovery_seconds := Z.max 12 (Z.min timeout_seconds 30) in
  found ← wait_for_device mac discovery_seconds;
  if (found : bool) then mret true
  else
    say warning (bs "discovery window empty; restarting inquiry once") ;;
    stop_discovery ;;
    '(ok, errors) ← adapter_call "StartDiscovery" ([], []);
    if negb (ok : bool) then say error (bs "discovery restart failed: " ++ shown errors) ;; mret false
    else wait_for_device mac discovery_seconds.

(** [left]: the attempts that remain; [None] when the device stayed away. *)
(* src/src/iap2/bluez_pairing.cpp:1139-1171 ensure_bluez_pairing (attempts) *)
Fixpoint pair_attempts (left : nat) (mac : Bytes) (pair_timeout : Z) (errors : Errors) : M (option (bool * Errors)) :=
  match left with
  | O => mret (Some (false, errors))
  | S left =>
      '(paired, errors) ← call_no_arguments (device_path mac) kDeviceInterface (bs "Pair") pair_timeout true errors;
      if (paired : bool) then mret (Some (true, errors))
      else if bytes_eqb (errors.1) (bs "org.freedesktop.DBus.Error.UnknownObject") && negb (Nat.eqb left 0) then
        say warning (bs "Device1 object vanished mid-pairing; waiting for it to reappear before retrying") ;;
        visible_again ← wait_for_device mac 15;
        if (visible_again : bool) then pair_attempts left mac pair_timeout errors else mret None
      else pair_attempts left mac pair_timeout errors
  end.

Definition already_paired (errors : Errors) : bool :=
  bytes_eqb (errors.1) (bs "org.bluez.Error.AlreadyExists") || bytes_eqb (errors.1) (bs "org.bluez.Error.AlreadyPaired").

(* src/src/iap2/bluez_pairing.cpp:1172-1200 ensure_bluez_pairing (trust) *)
Definition finish_pairing (mac : Bytes) (paired : bool) (errors : Errors) : M bool :=
  stop_discovery ;;
  if negb paired && negb (already_paired errors) then
    say error (bs "Pair failed: " ++ shown errors) ;; cleanup_agent ;; mret false
  else
    say info (if already_paired errors then bs "device was already paired" else bs "pairing succeeded") ;;
    '(ok, errors) ← call_set_trusted (device_path mac) errors;
    if negb (ok : bool) then
      say warning (bs "setting Trusted failed: " ++ shown errors) ;; cleanup_agent ;; mret false
    else say info (bs "device is trusted") ;; cleanup_agent ;; mret true.

(** Discovery and pairing, with the agent registered. *)
(* src/src/iap2/bluez_pairing.cpp:1060-1201 ensure_bluez_pairing (pairing) *)
Definition discover_and_pair (mac : Bytes) (timeout_seconds : Z) (errors : Errors) : M bool :=
  errors ← begin_discovery mac errors;
  found ← search_device mac timeout_seconds;
  if negb (found : bool) then
    say error (bs "discovery timeout reached for " ++ mac) ;; stop_discovery ;; cleanup_agent ;;
    say error (bs "Bluetooth device " ++ mac ++ bs " was not found; pairing was not attempted") ;; mret false
  else
    say info (bs "found " ++ mac ++ bs " during discovery") ;;
    result ← pair_attempts 3 mac (if 0 <? timeout_seconds then timeout_seconds * 1000 else 60000) errors;
    match result : option (bool * Errors) with
    | None =>
        say error (bs "Bluetooth device " ++ mac ++ bs " did not reappear; giving up on pairing") ;;
        stop_discovery ;; cleanup_agent ;; mret false
    | Some (paired, errors) => finish_pairing mac paired errors
    end.

(** [connection_error]: the message when the bus cannot be reached. [objects]: the
    reply of the object list when the bond is looked up. *)
(* src/src/iap2/bluez_pairing.cpp:1004-1201 ensure_bluez_pairing *)
Definition ensure_bluez_pairing (connection_error : option Bytes) (objects : option (list Object))
    (mac : Bytes) (timeout_seconds : Z) : M bool :=
  match connection_error with
  | Some message => say error (bs "cannot connect to system D-Bus: " ++ message) ;; mret false
  | None =>
      ready ← ensure_iap2_device_profile mac;
      if negb (ready : bool) then mret false
      else if bluez_device_is_paired mac objects then
        say info (bs "reusing existing BlueZ bond for " ++ mac) ;;
        '(ok, errors) ← call_set_trusted (device_path mac) ([], []);
        if negb (ok : bool) then say warning (bs "setting Trusted failed: " ++ shown errors) ;; mret false
        else mret true
      else
        registered ← register_agent_object;
        if negb (registered : bool) then say error (bs "cannot register BlueZ pairing agent") ;; mret false
        else
          '(ok, errors) ← call_register_agent (bs "RegisterAgent") ([], []);
          if negb (ok : bool) then
            say error (bs "RegisterAgent failed: " ++ shown errors) ;; on_bus (set_agent None) ;; mret false
          else discover_and_pair mac timeout_seconds errors
  end.

(** ** The connection *)

(** A connection owns the profile at its path. *)
Abbreviation Connection := Bytes.

(* src/src/iap2/bluez_pairing.cpp:1214-1216 BluezIap2Connection::fd *)
Definition fd (c : Connection) (s : Bus) : Z :=
  match profiles s !! c with Some p => socket_fd p | None => -1 end.

(* src/src/iap2/bluez_pairing.cpp:1218-1239 BluezIap2Connection::close *)
Definition close (c : Connection) : M unit := fun w =>
  match profiles (bus w) !! c with
  | None => (tt, w)
  | Some p =>
      ((if 0 <=? socket_fd p
        then on_bus (fun s => set_profiles (alter (set_socket (-1)) c (profiles s)) (emit (ClosedFd (socket_fd p)) s))
        else mret tt) ;;
       (if profile_registered p then
          (if client_profile p then call_disconnect_iap2_profile (BluezAgent.device_path p) ;; mret tt else mret tt) ;;
          call_unregister_iap2_profile c ([], []) ;; mret tt
        else mret tt) ;;
       unregister_profile_object c) w
  end.

(* src/src/iap2/bluez_pairing.cpp:1260-1266 connect_bluez_iap2 (inbound) *)
Fixpoint await_inbound (deadline : Z) (turns : list Turn) (s : Bus) : Bus :=
  match turns with
  | [] => s
  | t :: turns =>
      if negb (fd kDeviceProfilePath s <? 0) || (deadline <=? turn_now t) then s
      else await_inbound deadline turns (dispatch_all (incoming t) None s).2
  end.

(** A connection to the service of the head unit. *)
(* src/src/iap2/bluez_pairing.cpp:1274-1312 connect_bluez_iap2 (outbound) *)
Definition connect_outbound (mac : Bytes) (timeout_seconds : Z) : M (option Connection) :=
  registered ← register_profile_object (mkProfile (device_path mac) kProfilePath kIap2ServerUuid true (-1) false);
  if negb (registered : bool) then say error (bs "cannot register BlueZ iAP2 profile object") ;; mret None
  else
    '(ok, errors) ← call_register_iap2_profile ([], []);
    if negb (ok : bool) then
      say error (bs "RegisterProfile failed: " ++ shown errors) ;;
      unregister_profile_object kProfilePath ;; mret None
    else
      mark_registered kProfilePath ;;
      say info (bs "requesting BlueZ iAP2 profile connection for " ++ mac) ;;
      '(ok, errors) ← call_connect_iap2_profile (device_path mac) (Z.max 10 (Z.min timeout_seconds 60) * 1000) errors;
      s ← read_bus;
      if negb (ok : bool) || (fd kProfilePath s <? 0) then
        say error (bs "ConnectProfile(iAP2) failed: " ++ shown errors) ;; close kProfilePath ;; mret None
      else say info (bs "BlueZ connected the iAP2 profile") ;; mret (Some kProfilePath).

(** [inbound]: the clock when the wait for an inbound connection starts, and its turns. *)
(* src/src/iap2/bluez_pairing.cpp:1241-1312 connect_bluez_iap2 *)
Definition connect_bluez_iap2 (connection_error : option Bytes) (inbound : Z * list Turn)
    (mac : Bytes) (timeout_seconds : Z) : M (option Connection) := fun w =>
  match connection_error with
  | Some message => (say error (bs "cannot connect to system D-Bus: " ++ message) ;; mret None) w
  | None =>
      if negb (device_profile (bus w)) then connect_outbound mac timeout_seconds w
      else
        let s := await_inbound (inbound.1 + 60000) inbound.2 (bus w) in
        if 0 <=? fd kDeviceProfilePath s then
          (say info (bs "head unit connected to the advertised iAP2 device service") ;;
           on_bus (set_device_profile false) ;; mret (Some kDeviceProfilePath)) (mkWorld s (calls w) (waits w))
        else connect_outbound mac timeout_seconds (mkWorld s (calls w) (waits w))
  end.

(** The address of the adapter in small letters; [reply]: the string in the variant
    of the reply, when there is one. *)
(* src/src/iap2/bluez_pairing.cpp:955-1002 local_bluez_adapter_address *)
Definition local_bluez_adapter_address (connected : bool) (reply : option Bytes) : option Bytes :=
  if negb connected then None else lower <$> reply.
