(* ===== verification/BluezFacts.v ===== *)
(** * Pairing and connecting: facts and theorems

    About BluezAgent.v and BluezPairing.v: what is sent to BlueZ has the documented
    types, BlueZ's question is answered as the user answered it, a pairing that
    ends leaves nothing running behind, and a connection is one that BlueZ
    announced for the device of the profile. *)

From S2P Require Import Prelude Text DaemonLog BluetoothWorker BluezInventory BluezAgent BluezPairing.
From stdpp Require Import gmap relations.
#[local] Open Scope Z_scope.

(** ** What can be called *)

(** The signatures that BlueZ documents for the members that are called. *)
Definition documented (call : Message) : option Bytes :=
  let to := fun i m => is_method call (bs i) (bs m) in
  if to "org.bluez.ProfileManager1"%string "RegisterProfile"%string then Some (bs "osa{sv}")
  else if to "org.bluez.ProfileManager1"%string "UnregisterProfile"%string then Some (bs "o")
  else if to "org.bluez.Device1"%string "ConnectProfile"%string then Some (bs "s")
  else if to "org.bluez.Device1"%string "DisconnectProfile"%string then Some (bs "s")
  else if to "org.bluez.Device1"%string "Pair"%string then Some []
  else if to "org.bluez.AgentManager1"%string "RegisterAgent"%string then Some (bs "os")
  else if to "org.bluez.AgentManager1"%string "UnregisterAgent"%string then Some (bs "o")
  else if to "org.bluez.AgentManager1"%string "RequestDefaultAgent"%string then Some (bs "o")
  else if to "org.bluez.Adapter1"%string "SetDiscoveryFilter"%string then Some (bs "a{sv}")
  else if to "org.bluez.Adapter1"%string "StartDiscovery"%string then Some []
  else if to "org.bluez.Adapter1"%string "StopDiscovery"%string then Some []
  else if to "org.freedesktop.DBus.Properties"%string "Set"%string then Some (bs "ssv")
  else None.

Definition typed_call (call : Message) : Prop :=
  documented call = Some (body_signature call) /\ forallb well_typed (arguments call) = true.

Lemma typed_register_iap2_profile : typed_call register_iap2_profile.
Proof. by vm_compute. Qed.
Lemma typed_register_iap2_device_profile : typed_call register_iap2_device_profile.
Proof. by vm_compute. Qed.
Lemma typed_unregister_iap2_profile path : typed_call (unregister_iap2_profile path).
Proof. by vm_compute. Qed.
Lemma typed_connect_iap2_profile path : typed_call (connect_iap2_profile path).
Proof. by vm_compute. Qed.
Lemma typed_disconnect_iap2_profile path : typed_call (disconnect_iap2_profile path).
Proof. by vm_compute. Qed.
Lemma typed_register_agent : typed_call (register_agent (bs "RegisterAgent")).
Proof. by vm_compute. Qed.
Lemma typed_unregister_agent : typed_call unregister_agent.
Proof. by vm_compute. Qed.
Lemma typed_request_default_agent : typed_call request_default_agent.
Proof. by vm_compute. Qed.
Lemma typed_set_trusted path : typed_call (set_trusted path).
Proof. by vm_compute. Qed.
Lemma typed_set_bredr_discovery_filter : typed_call set_bredr_discovery_filter.
Proof. by vm_compute. Qed.
Lemma typed_pair path : typed_call (no_arguments path kDeviceInterface (bs "Pair")).
Proof. by vm_compute. Qed.
Lemma typed_start : typed_call (no_arguments kAdapterPath kAdapterInterface (bs "StartDiscovery")).
Proof. by vm_compute. Qed.
Lemma typed_stop : typed_call (no_arguments kAdapterPath kAdapterInterface (bs "StopDiscovery")).
Proof. by vm_compute. Qed.
Create HintDb bluez.
#[export] Hint Resolve typed_register_iap2_profile typed_register_iap2_device_profile typed_unregister_iap2_profile
  typed_connect_iap2_profile typed_disconnect_iap2_profile typed_register_agent typed_unregister_agent
  typed_request_default_agent typed_set_trusted typed_set_bredr_discovery_filter typed_pair typed_start typed_stop : bluez.

(** ** Steps of the bus *)

(** Everything the functions do to the bus, one piece at a time. *)
Inductive bus_step (s : Bus) : Bus -> Prop :=
| step_log level text : bus_step s (write_log level text s)
| step_dispatch result i : bus_step s (dispatch result s i).2
| step_resolve now : bus_step s (resolve_pending_confirmation now s)
| step_reject reason : bus_step s (reject_pending_confirmation reason s)
| step_calling call : typed_call call -> bus_step s (emit (Calling call) s)
| step_ended call e : bus_step s (emit (Ended call e) s)
| step_agent a : a = None \/ a = Some (mkAgent None 0 0) -> bus_step s (set_agent a s)
| step_device_profile b : bus_step s (set_device_profile b s)
| step_added p : profiles s !! profile_path p = None -> socket_fd p = -1 ->
    bus_step s (set_profiles (<[profile_path p := p]> (profiles s)) s)
| step_removed path : bus_step s (set_profiles (delete path (profiles s)) s)
| step_marked path : bus_step s (set_profiles (alter (set_registered true) path (profiles s)) s)
| step_closed path p : profiles s !! path = Some p -> 0 <= socket_fd p ->
    bus_step s (set_profiles (alter (set_socket (-1)) path (profiles s)) (emit (ClosedFd (socket_fd p)) s)).

(** A computation that only takes such steps. *)
Definition stepwise {A} (m : M A) : Prop := forall w, rtc bus_step (bus w) (bus (m w).2).

Lemma stepwise_ret {A} (a : A) : stepwise (mret a).
Proof. intros w. apply rtc_refl. Qed.

Lemma stepwise_bind {A B} (m : M A) (f : A -> M B) : stepwise m -> (forall a, stepwise (f a)) -> stepwise (m ≫= f).
Proof.
  intros Hm Hf w. unfold mbind, m_bind. specialize (Hm w). destruct (m w) as [a w1].
  etrans; [exact Hm|apply Hf].
Qed.

Lemma stepwise_on_bus f : (forall s, bus_step s (f s)) -> stepwise (on_bus f).
Proof. intros Hf w. apply rtc_once, Hf. Qed.

Lemma stepwise_say level text : stepwise (say level text).
Proof. apply stepwise_on_bus. intros s. constructor. Qed.

Lemma stepwise_read : stepwise read_bus.
Proof. intros w. apply rtc_refl. Qed.

Lemma dispatch_steps items : forall result s, rtc bus_step s (dispatch_all items result s).2.
Proof.
  induction items as [|i items IH]; intros result s; [apply rtc_refl|].
  unfold dispatch_all. cbn [fold_left]. pose proof (step_dispatch s result i) as Hs.
  destruct (dispatch result s i) as [result' s']. eapply rtc_l; [exact Hs|apply IH].
Qed.

Lemma await_steps with_agent deadline turns : forall result s,
  rtc bus_step s (await_turns with_agent deadline turns result s).2.
Proof.
  induction turns as [|t turns IH]; intros [r|] s; cbn; [apply rtc_refl..|].
  case_match; [apply rtc_refl|]. pose proof (dispatch_steps (incoming t) None s) as Hd.
  destruct (dispatch_all (incoming t) None s) as [result s']. etrans; [exact Hd|].
  destruct with_agent; [|apply IH]. eapply rtc_l; [apply (step_resolve _ (after t))|apply IH].
Qed.

Lemma stepwise_call call timeout with_agent errors : typed_call call -> stepwise (await_call call timeout with_agent errors).
Proof.
  intros Ht w. unfold await_call. destruct (match calls w with [] => _ | _ => _ end) as [script rest].
  apply rtc_l with (emit (Calling call) (bus w)); [by constructor|].
  destruct (negb (submitted script)); cbn [snd bus]; [apply rtc_once; constructor|].
  pose proof (await_steps with_agent (start script + timeout) (turns script) None (emit (Calling call) (bus w))) as Ha.
  destruct (await_turns _ _ _ _ _) as [[r|] s]; cbn [snd bus] in *; (eapply rtc_r; [exact Ha|constructor]).
Qed.

Lemma wait_steps mac deadline turns : forall s, rtc bus_step s (wait_loop mac deadline turns s).2.
Proof.
  induction turns as [|[t reply] turns IH]; intros s; cbn; [apply rtc_refl|].
  case_match; [apply rtc_refl|]. pose proof (dispatch_steps (incoming t) None s) as Hd.
  case_match; [exact Hd|]. etrans; [exact Hd|apply IH].
Qed.

Lemma stepwise_wait mac seconds : stepwise (wait_for_device mac seconds).
Proof.
  intros w. unfold wait_for_device. destruct (match waits w with [] => _ | _ => _ end) as [script rest].
  pose proof (wait_steps mac (wait_start script + seconds * 1000) (wait_turns script) (bus w)) as Hw.
  destruct (wait_loop _ _ _ _) as [found s]. exact Hw.
Qed.

#[export] Hint Resolve stepwise_ret stepwise_say stepwise_read stepwise_wait : bluez.
#[export] Hint Extern 1 (stepwise (on_bus _)) => apply stepwise_on_bus; intros; constructor; by auto : bluez.

(** Goes through a computation, one bind or case at a time. *)
Ltac stepwise :=
  repeat first
    [ solve [eauto with bluez]
    | apply stepwise_call; solve [eauto with bluez]
    | apply stepwise_bind; [|intros]
    | match goal with
      | |- stepwise (match ?x with _ => _ end) => destruct x
      | |- stepwise ((fun _ => _) _) => cbn beta
      end ].

Lemma stepwise_cleanup : stepwise cleanup_agent.
Proof. unfold cleanup_agent, call_unregister_agent. stepwise. Qed.

Lemma stepwise_adapter method : typed_call (no_arguments kAdapterPath kAdapterInterface (bs method)) ->
  forall errors, stepwise (adapter_call method errors).
Proof. intros Ht errors. apply stepwise_call, Ht. Qed.

Lemma stepwise_stop : stepwise stop_discovery.
Proof. apply stepwise_bind; [apply stepwise_adapter; eauto with bluez|intros; stepwise]. Qed.

Lemma stepwise_start errors : stepwise (adapter_call "StartDiscovery" errors).
Proof. apply stepwise_adapter; eauto with bluez. Qed.
#[export] Hint Resolve stepwise_cleanup stepwise_stop stepwise_start : bluez.

Lemma stepwise_register_profile p : socket_fd p = -1 -> stepwise (register_profile_object p).
Proof.
  intros Hp w. unfold register_profile_object. destruct (profiles (bus w) !! profile_path p) eqn:E; [apply rtc_refl|].
  apply rtc_once. by constructor.
Qed.

Lemma stepwise_register_agent : stepwise register_agent_object.
Proof. intros w. unfold register_agent_object. destruct (agent (bus w)); [apply rtc_refl|apply rtc_once; constructor; auto]. Qed.

Lemma stepwise_unregister path : stepwise (unregister_profile_object path).
Proof. apply stepwise_on_bus. intros. constructor. Qed.

Lemma stepwise_mark path : stepwise (mark_registered path).
Proof. apply stepwise_on_bus. intros. constructor. Qed.
#[export] Hint Resolve stepwise_register_agent stepwise_unregister stepwise_mark : bluez.
#[export] Hint Extern 1 (stepwise (register_profile_object _)) => apply stepwise_register_profile; reflexivity : bluez.

Lemma stepwise_pair_attempts left mac timeout : forall errors, stepwise (pair_attempts left mac timeout errors).
Proof. induction left as [|left IH]; intros errors; cbn; stepwise. Qed.
#[export] Hint Resolve stepwise_pair_attempts : bluez.

Lemma stepwise_device_profile mac : stepwise (ensure_iap2_device_profile mac).
Proof.
  intros w. unfold ensure_iap2_device_profile. destruct (device_profile (bus w)); [apply rtc_refl|].
  match goal with |- rtc _ _ (bus (?m w).2) => assert (stepwise m) as Hm; [|apply Hm] end.
  unfold call_register_iap2_device_profile. stepwise.
Qed.
#[export] Hint Resolve stepwise_device_profile : bluez.

Lemma stepwise_discover mac timeout errors : stepwise (discover_and_pair mac timeout errors).
Proof.
  unfold discover_and_pair, begin_discovery, search_device, finish_pairing, call_request_default_agent,
    call_set_bredr_discovery_filter, call_set_trusted. stepwise.
Qed.
#[export] Hint Resolve stepwise_discover : bluez.

Lemma stepwise_ensure connection_error objects mac timeout : stepwise (ensure_bluez_pairing connection_error objects mac timeout).
Proof. unfold ensure_bluez_pairing, call_set_trusted, call_register_agent. stepwise. Qed.

Lemma stepwise_close c : stepwise (close c).
Proof.
  intros w. unfold close. destruct (profiles (bus w) !! c) as [p|] eqn:Ep; [|apply rtc_refl].
  match goal with |- rtc _ _ (bus ((_ ≫= ?f) w).2) => assert (forall a, stepwise (f a)) as Hm end.
  { intros ?. unfold call_disconnect_iap2_profile, call_unregister_iap2_profile. stepwise. }
  destruct (Z.leb_spec 0 (socket_fd p)) as [Hfd|_]; [|by apply (Hm tt w)].
  eapply rtc_l; [by apply (step_closed _ c p)|]. apply (Hm tt (mkWorld _ (calls w) (waits w))).
Qed.
#[export] Hint Resolve stepwise_close : bluez.

Lemma stepwise_outbound mac timeout : stepwise (connect_outbound mac timeout).
Proof. unfold connect_outbound, call_register_iap2_profile, call_connect_iap2_profile. stepwise. Qed.

Lemma inbound_steps deadline turns : forall s, rtc bus_step s (await_inbound deadline turns s).
Proof.
  induction turns as [|t turns IH]; intros s; cbn; [apply rtc_refl|].
  case_match; [apply rtc_refl|]. etrans; [apply dispatch_steps|apply IH].
Qed.

Lemma stepwise_connect connection_error inbound mac timeout : stepwise (connect_bluez_iap2 connection_error inbound mac timeout).
Proof.
  intros w. unfold connect_bluez_iap2. destruct connection_error as [message|]; [apply rtc_once; constructor|].
  case_match; [apply stepwise_outbound|].
  pose proof (inbound_steps (inbound.1 + 60000) inbound.2 (bus w)) as Hi. set (s := await_inbound _ _ _) in *.
  etrans; [exact Hi|]. case_match; [|apply (stepwise_outbound mac timeout (mkWorld s (calls w) (waits w)))].
  match goal with |- rtc _ _ (bus (?m ?w').2) => assert (stepwise m) as Hm; [|apply (Hm w')] end. stepwise.
Qed.

(** ** Sessions *)

(** What a worker does with the bus, in any order and number; the script of an
    operation is what happens on the bus meanwhile. *)
Inductive Operation :=
| EnsurePairing (connection_error : option Bytes) (objects : option (list Object)) (mac : Bytes) (timeout : Z)
    (calls : list CallScript) (waits : list WaitScript)
| ConnectIap2 (connection_error : option Bytes) (inbound : Z * list Turn) (mac : Bytes) (timeout : Z)
    (calls : list CallScript)
| CloseConnection (c : Connection) (calls : list CallScript)
| Between (i : Incoming).

Definition run_operation (s : Bus) (o : Operation) : Bus :=
  match o with
  | EnsurePairing connection_error objects mac timeout calls waits =>
      bus (ensure_bluez_pairing connection_error objects mac timeout (mkWorld s calls waits)).2
  | ConnectIap2 connection_error inbound mac timeout calls =>
      bus (connect_bluez_iap2 connection_error inbound mac timeout (mkWorld s calls [])).2
  | CloseConnection c calls => bus (close c (mkWorld s calls [])).2
  | Between i => (dispatch None s i).2
  end.

(** The worker process at its start; [fd]: the socket to the daemon. *)
Definition new_bus (fd : Z) : Bus := mkBus None ∅ false (set_pairing_confirmation_control_fd fd new_mailbox) [].
Definition run_operations (fd : Z) (ops : list Operation) : Bus := fold_left run_operation ops (new_bus fd).

Lemma operation_steps s o : rtc bus_step s (run_operation s o).
Proof.
  destruct o; cbn [run_operation].
  - apply (stepwise_ensure _ _ _ _ (mkWorld s _ _)).
  - apply (stepwise_connect _ _ _ _ (mkWorld s _ _)).
  - apply (stepwise_close _ (mkWorld s _ _)).
  - apply rtc_once, step_dispatch.
Qed.

(** What holds at the start and survives every step holds in every run. *)
Lemma run_invariant (P : Bus -> Prop) fd ops :
  P (new_bus fd) -> (forall s s', P s -> bus_step s s' -> P s') -> P (run_operations fd ops).
Proof.
  intros H0 Hs. unfold run_operations.
  assert (Hr : forall s s', rtc bus_step s s' -> P s -> P s') by (induction 1; eauto).
  revert H0. generalize (new_bus fd). induction ops as [|o ops IH]; intros s H0; cbn; [done|].
  apply IH. eapply Hr; [apply operation_steps|done].
Qed.

(** ** Typed calls *)

(** The calls in a trace, with their ends. *)
Definition call_event (e : Event) : option Event :=
  match e with Calling _ | Ended _ _ => Some e | _ => None end.

(** The trace grows at its end, without a call. *)
Definition grows (s s' : Bus) : Prop := exists t, trace s' = trace s ++ t /\ omap call_event t = [].

Lemma grows_same s s' : trace s' = trace s -> grows s s'.
Proof. intros E. red. rewrite E. exists []. by rewrite app_nil_r. Qed.

Lemma grows_emit e s s' : grows s s' -> call_event e = None -> grows s (emit e s').
Proof.
  intros (t & Ht & Hc) He. exists (t ++ [e]). cbn [emit trace]. rewrite Ht, omap_app, Hc. split; [by rewrite (assoc_L (++))|].
  cbn. by rewrite He.
Qed.

Lemma grows_trans s1 s2 s3 : grows s1 s2 -> grows s2 s3 -> grows s1 s3.
Proof.
  intros (t & Ht & Hc) (u & Hu & Hd). exists (t ++ u). rewrite Hu, Ht, omap_app, Hc. split; [by rewrite (assoc_L (++))|done].
Qed.

Lemma grows_set_agent a s s' : grows s s' -> grows s (set_agent a s').
Proof. done. Qed.
Lemma grows_set_profiles p s s' : grows s s' -> grows s (set_profiles p s').
Proof. done. Qed.
Lemma grows_set_mailbox m s s' : grows s s' -> grows s (set_mailbox m s').
Proof. done. Qed.
Lemma grows_log level text s s' : grows s s' -> grows s (write_log level text s').
Proof. intros. by apply grows_emit. Qed.

Ltac grows :=
  repeat first
    [ apply grows_same; reflexivity
    | apply grows_log
    | apply grows_emit; [|reflexivity]
    | apply grows_set_agent | apply grows_set_profiles | apply grows_set_mailbox ].

Lemma reject_grows reason s : grows s (reject_pending_confirmation reason s).
Proof. unfold reject_pending_confirmation. destruct (agent s) as [[[message|] id deadline]|]; grows. Qed.

Lemma resolve_grows now s : grows s (resolve_pending_confirmation now s).
Proof.
  unfold resolve_pending_confirmation. destruct (agent s) as [[[message|] id deadline]|]; [|grows..].
  destruct (pairing_confirmation_result id (mailbox s)) as [[[]|] m]; cbn; [grows..|].
  destruct (deadline <=? now); cbn; grows.
Qed.

Lemma request_grows w message c s : grows s (request_confirmation w message c s).
Proof.
  unfold request_confirmation. destruct (confirmation_arguments message) as [device passkey].
  destruct (request_pairing_confirmation _ _ _ _ _) as [[[id|] packet] m]; grows.
Qed.

(** Cases of the handler, each with what it did before. *)
Lemma agent_handler_cases w message s :
  (agent_handler w message s).2 = s \/
  exists level text s1,
    (s1 = write_log level text s \/
     exists reason, s1 = reject_pending_confirmation reason (write_log level text s)) /\
    let s' := (agent_handler w message s).2 in
    let confirmation := is_method message kAgentInterface (bs "RequestConfirmation") in
    (exists reason level text, s' = write_log level text (emit (Answering message (Rejected reason)) s1)) \/
    (exists c, agent s1 = Some c /\ pending_confirmation c = None /\ confirmation = true /\
       s' = request_confirmation w message c s1) \/
    (confirmation = false /\ s' = emit (Answering message MethodReturn) s1) \/ s' = s1.
Proof.
  unfold agent_handler. destruct (agent s) as [c|]; [|by left].
  destruct (negb (existsb _ _)); [by left|]. right.
  set (s0 := write_log info _ s).
  destruct (_ || _) eqn:Ecancel; eexists info, _, _; cbv zeta;
    [split; [right; exists (bs "Pairing confirmation cancelled"); reflexivity|]|split; [left; reflexivity|]].
  all: fold s0; match goal with |- context [agent ?s1] => destruct (agent s1) as [c1|] eqn:Ea end; [|by right; right; right].
  all: destruct (is_method message kAgentInterface (bs "RequestConfirmation")) eqn:Ec.
  all: try (destruct (pending_confirmation c1) eqn:Ep; [left; eexists _, _, _; reflexivity|right; left; by exists c1]).
  all: match goal with |- context [if ?b then (true, write_log warning _ _) else _] => destruct b end;
    [left; eexists _, _, _; reflexivity|by right; right; left].
Qed.

Lemma agent_handler_grows w message s : grows s (agent_handler w message s).2.
Proof.
  destruct (agent_handler_cases w message s) as [->|(level & text & s1 & H1 & Hs)]; [grows|].
  apply grows_trans with s1.
  { destruct H1 as [->|[reason ->]]; [grows|]. eapply grows_trans; [|apply reject_grows]. grows. }
  destruct Hs as [(reason & l & t & ->)|[(c & _ & _ & _ & ->)|[[_ ->]| ->]]]; [grows|apply request_grows|grows..].
Qed.

Lemma profile_handler_grows w message s : grows s (profile_handler w message s).2.
Proof.
  unfold profile_handler. destruct (profiles s !! path message) as [p|]; [|grows].
  destruct (is_method _ _ (bs "Release")); [destruct (0 <=? socket_fd p); cbn [snd]; grows|].
  destruct (is_method _ _ (bs "RequestDisconnection")); [cbn [snd]; grows|].
  destruct (negb _); [grows|]. cbv zeta. set (d := if expected_connection message p then _ else _).
  destruct (_ && _); cbn [snd]; [grows|]. destruct (0 <=? d); grows.
Qed.

Lemma dispatch_grows result s i : grows s (dispatch result s i).2.
Proof.
  destruct i as [message w|r|id confirmed]; cbn [dispatch snd]; [|grows..].
  destruct (bytes_eqb (path message) kAgentPath); [apply agent_handler_grows|apply profile_handler_grows].
Qed.

Lemma step_trace s s' : bus_step s s' ->
  grows s s' \/ (exists call, typed_call call /\ s' = emit (Calling call) s) \/ exists call e, s' = emit (Ended call e) s.
Proof.
  destruct 1 as [level text|result i|now|reason|call Ht|call e|a _|b|p _ _|path|path|path fd];
    [left; grows|left; apply dispatch_grows|left; apply resolve_grows|left; apply reject_grows|by right; left; eexists|
     by right; right; eexists _, _|left; grows..].
Qed.

(** C31. Every call to BlueZ is well typed. Whatever happens on the bus, each method
    call that pairing, connecting and closing make has the body signature that
    BlueZ documents for the member, every variant and array in it holds what its
    container was opened with, and every number fits its type. *)
Theorem calls_well_typed fd ops call :
  Calling call ∈ trace (run_operations fd ops) ->
  documented call = Some (body_signature call) /\ forallb well_typed (arguments call) = true.
Proof.
  intros Hin. revert call Hin. apply run_invariant.
  - intros call Hin. cbn in Hin. by apply not_elem_of_nil in Hin.
  - intros s s' Hs Hstep call. apply step_trace in Hstep as [(t & -> & Ht)|[(call' & Hc & ->)|(call' & e & ->)]]; cbn [emit trace].
    all: intros [Hin|Hin]%elem_of_app; [by apply Hs|].
    + assert (Hc : Calling call ∈ omap call_event t) by (apply list_elem_of_omap; by exists (Calling call)).
      rewrite Ht in Hc. by apply not_elem_of_nil in Hc.
    + apply list_elem_of_singleton in Hin as [= ->]. exact Hc.
    + by apply list_elem_of_singleton in Hin.
Qed.

(** ** The user's answer *)

(** The last answer given to a question within a part of the trace. *)
Definition last_answer (id : Z) (t : list Event) : option bool :=
  fold_left (fun a e => match e with UserAnswered i b => if i =? id then Some b else a | _ => a end) t None.

Definition is_confirmation (m : Message) : bool := is_method m kAgentInterface (bs "RequestConfirmation").

(** The packet asks the user for what BlueZ wants confirmed. *)
Definition question_of (m : Message) (id : Z) (packet : option Bytes) : Prop :=
  let '(device, passkey) := confirmation_arguments m in
  exists padding, packet = Some (3 :: object_bytes padding (mkConfirmation id passkey (address_field device))).

(** In the trace so far the question was asked, and the last answer to it was yes. *)
Definition confirmed (t : list Event) (m : Message) : Prop :=
  exists u1 id packet u2, t = u1 ++ Asked m id packet :: u2 /\ question_of m id packet /\ last_answer id u2 = Some true.

Definition replies_ok (t : list Event) : Prop :=
  forall t1 m t2, t = t1 ++ Answering m MethodReturn :: t2 -> is_confirmation m = true -> confirmed t1 m.

Definition pending_ok (s : Bus) : Prop :=
  forall c m, agent s = Some c -> pending_confirmation c = Some m ->
  exists t1 packet t2, trace s = t1 ++ Asked m (confirmation_id c) packet :: t2 /\
    question_of m (confirmation_id c) packet /\ is_confirmation m = true /\
    pending_id (mailbox s) = confirmation_id c /\
    pending_result (mailbox s) = result_of (last_answer (confirmation_id c) t2).

Definition sound (s : Bus) : Prop := pending_ok s /\ replies_ok (trace s).

Lemma last_answer_snoc id t e :
  last_answer id (t ++ [e]) = match e with UserAnswered i b => if i =? id then Some b else last_answer id t | _ => last_answer id t end.
Proof. unfold last_answer. by rewrite fold_left_app. Qed.

Lemma snoc_split {A} (t t1 t2 : list A) e x : t ++ [e] = t1 ++ x :: t2 ->
  (t1 = t /\ x = e) \/ exists t2', t2 = t2' ++ [e] /\ t = t1 ++ x :: t2'.
Proof.
  destruct t2 as [|y t2 _] using rev_ind; intros H.
  - left. by apply app_inj_tail in H as [-> ->].
  - right. exists t2. rewrite app_comm_cons, (assoc_L (++)) in H. by apply app_inj_tail in H as [-> ->].
Qed.

Lemma replies_snoc t e :
  replies_ok t -> (forall m, e = Answering m MethodReturn -> is_confirmation m = true -> confirmed t m) -> replies_ok (t ++ [e]).
Proof.
  intros Ht He t1 m t2 H Hm. apply snoc_split in H as [[-> <-]|(t2' & -> & ->)]; [by apply He|]. by eapply Ht.
Qed.

(** Not a reply to a question, not an answer of the user. *)
Definition plain (e : Event) : Prop :=
  (forall m, e = Answering m MethodReturn -> is_confirmation m = false) /\ (forall id b, e <> UserAnswered id b).

Lemma replies_plain t e : replies_ok t -> plain e -> replies_ok (t ++ [e]).
Proof. intros Ht [He _]. apply replies_snoc; [done|]. intros m ->. by rewrite He. Qed.

Lemma sound_emit e s : sound s -> plain e -> sound (emit e s).
Proof.
  intros [Hp Hr] He. split; [|by apply replies_plain].
  intros c m Hc Hm. destruct (Hp c m Hc Hm) as (t1 & packet & t2 & Ht & Hq & Hi & Hid & Hres).
  exists t1, packet, (t2 ++ [e]). cbn [emit trace mailbox]. rewrite Ht, last_answer_snoc. split_and!; try done.
  - by rewrite <- (assoc_L (++)).
  - destruct He as [_ He]. destruct e; try done. by destruct (He id confirmed0).
Qed.

Lemma sound_log level text s : sound s -> sound (write_log level text s).
Proof. intros. by apply sound_emit. Qed.

(** Nothing pending: only the trace counts. *)
Lemma sound_idle s : (forall c, agent s = Some c -> pending_confirmation c = None) -> replies_ok (trace s) -> sound s.
Proof. intros Hn Hr. split; [|done]. intros c m Hc Hm. by rewrite (Hn c Hc) in Hm. Qed.

Lemma sound_reject reason s : sound s -> sound (reject_pending_confirmation reason s).
Proof.
  intros Hs. unfold reject_pending_confirmation. destruct (agent s) as [[[message|] id deadline]|] eqn:E; [|done..].
  destruct Hs as [_ Hr]. apply sound_idle; [by intros c [= <-]|]. by apply replies_plain.
Qed.

Lemma sound_resolve now s : sound s -> sound (resolve_pending_confirmation now s).
Proof.
  intros Hs. unfold resolve_pending_confirmation. destruct (agent s) as [[[message|] id deadline]|] eqn:E; [|done..].
  destruct Hs as [Hp Hr]. destruct (Hp _ _ E eq_refl) as (t1 & packet & t2 & Ht & Hq & Hi & Hid & Hres). cbn in *.
  unfold pairing_confirmation_result. rewrite Hid, Z.eqb_refl, Hres. cbn [negb orb].
  assert (Hno : replies_ok (trace s ++ [Answering message (Rejected (bs "Pairing confirmation rejected"))])) by by apply replies_plain.
  destruct (last_answer id t2) as [[]|] eqn:El; cbn; [| |destruct (deadline <=? now); cbn].
  - apply sound_idle; [by intros c [= <-]|]. apply (replies_plain _ (Logged _ _)); [|done].
    apply replies_snoc; [done|]. intros m [= <-] _. by exists t1, id, packet, t2.
  - apply sound_idle; [by intros c [= <-]|]. by apply (replies_plain _ (Logged _ _)).
  - apply sound_idle; [by intros c [= <-]|]. by apply (replies_plain _ (Logged _ _)).
  - split; [|done]. intros c m. cbn. rewrite E. intros [= <-] [= <-]. exists t1, packet, t2. cbn. by rewrite El.
Qed.

Lemma sound_request w m c s : agent s = Some c -> pending_confirmation c = None -> is_confirmation m = true ->
  sound s -> sound (request_confirmation w m c s).
Proof.
  intros Hc Hn Hm [_ Hr]. unfold request_confirmation.
  destruct (confirmation_arguments m) as [device passkey] eqn:Ea.
  destruct (request_pairing_confirmation _ _ _ _ _) as [[[id|] packet] mb] eqn:E.
  - apply sound_log. split; [|by apply replies_plain]. intros c' m' [= <-] [= <-].
    exists (trace s), packet, []. cbn. unfold question_of. rewrite Ea.
    unfold request_pairing_confirmation in E. repeat case_match; simplify_eq/=. split_and!; try done. by eexists.
  - apply sound_idle; [cbn; intros c'; rewrite Hc; by intros [= <-]|].
    apply replies_plain; [|done]. by apply (replies_plain _ (Logged _ _)).
Qed.

Lemma sound_agent w m s : sound s -> sound (agent_handler w m s).2.
Proof.
  intros Hs. destruct (agent_handler_cases w m s) as [->|(level & text & s1 & H1 & Hc)]; [done|].
  assert (Hs1 : sound s1). { destruct H1 as [->|[reason ->]]; [by apply sound_log|by apply sound_reject, sound_log]. }
  destruct Hc as [(reason & l & t & ->)|[(c & Ec & En & Em & ->)|[[Em ->]| ->]]]; [|by apply sound_request| |done].
  - apply sound_log. by apply sound_emit.
  - apply sound_emit; [done|]. split; [|done]. by intros ? [= <-].
Qed.

Lemma not_confirmation m i n : is_method m i n = true -> i <> kAgentInterface -> is_confirmation m = false.
Proof.
  unfold is_confirmation, is_method. rewrite andb_true_iff, andb_false_iff, !bytes_eqb_eq. intros [-> _] Hi. left.
  by apply bool_decide_eq_false.
Qed.

Lemma profile_plain m i r : is_method m kProfileInterface i = true -> plain (Answering m r).
Proof. intros H. split; [|done]. intros ? [= <- ->]. by eapply not_confirmation. Qed.

Lemma sound_profile w m s : sound s -> sound (profile_handler w m s).2.
Proof.
  intros Hs. unfold profile_handler. destruct (profiles s !! path m) as [p|]; [|done].
  assert (Hset : forall ps s, sound s -> sound (set_profiles ps s)) by done.
  destruct (is_method _ _ (bs "Release")) eqn:E1; [destruct (0 <=? socket_fd p); cbn [snd]; [apply Hset; by apply sound_emit|done]|].
  destruct (is_method _ _ (bs "RequestDisconnection")) eqn:E2; [cbn [snd]; apply sound_emit; [done|by eapply profile_plain]|].
  destruct (is_method _ _ (bs "NewConnection")) eqn:E3; [|done]. cbn [negb]. cbv zeta.
  set (d := if expected_connection m p then _ else _).
  destruct (_ && _); cbn [snd]; (apply sound_emit; [|by eapply profile_plain]).
  - apply Hset. by apply sound_emit.
  - destruct (0 <=? d); [by apply sound_emit|done].
Qed.

Lemma sound_answer id b s : sound s ->
  sound (emit (UserAnswered id b) (set_mailbox (answer_pairing_confirmation id b (mailbox s)) s)).
Proof.
  intros [Hp Hr]. split; [|by apply replies_snoc].
  intros c m Hc Hm. destruct (Hp c m Hc Hm) as (t1 & packet & t2 & Ht & Hq & Hi & Hid & Hres).
  exists t1, packet, (t2 ++ [UserAnswered id b]). cbn [emit set_mailbox trace mailbox]. rewrite Ht, last_answer_snoc.
  unfold answer_pairing_confirmation. rewrite Hid, Z.eqb_sym.
  destruct (id =? confirmation_id c); cbn; split_and!; try done; by rewrite <- (assoc_L (++)).
Qed.

Lemma sound_step s s' : sound s -> bus_step s s' -> sound s'.
Proof.
  intros Hs. destruct 1 as [level text|result i|now|reason|call Ht|call e|a Ha|b|p _ _|path|path|path fd]; try (by apply sound_emit); try done.
  - destruct i as [m w|r|id b]; cbn [dispatch snd]; [|done|by apply sound_answer].
    destruct (bytes_eqb _ _); [by apply sound_agent|by apply sound_profile].
  - by apply sound_resolve.
  - by apply sound_reject.
  - apply sound_idle; [|by destruct Hs]. cbn. intros c ->. by destruct Ha as [|[= ->]].
Qed.

(** C5. A pairing is confirmed only by the user. In every run of pairings,
    connections and whatever happens on the bus, BlueZ's request for a confirmation
    is granted only after this very request was put to the management page, with
    the passkey that BlueZ named, and the last answer to it since then was yes. *)
Theorem confirmed_only_by_user fd ops t1 m t2 :
  trace (run_operations fd ops) = t1 ++ Answering m MethodReturn :: t2 ->
  is_method m kAgentInterface (bs "RequestConfirmation") = true ->
  exists u1 id packet u2, t1 = u1 ++ Asked m id packet :: u2 /\ question_of m id packet /\
    last_answer id u2 = Some true.
Proof.
  assert (Hs : sound (run_operations fd ops)).
  { apply run_invariant; [|by intros; eapply sound_step]. split; [by intros ? ?|].
    intros ? ? ?. cbn. intros H. by destruct (app_cons_not_nil _ _ _ H). }
  intros Ht Hm. by apply (proj2 Hs) with t2.
Qed.

(** ** How a pairing ends *)

(** The calls that a computation made, with their ends. *)
Definition did (w : World) (es : list Event) (w' : World) : Prop :=
  omap call_event (trace (bus w')) = omap call_event (trace (bus w)) ++ es.

Lemma did_nil w w' : trace (bus w') = trace (bus w) -> did w [] w'.
Proof. unfold did. intros ->. by rewrite app_nil_r. Qed.

Lemma did_grows w w' : grows (bus w) (bus w') -> did w [] w'.
Proof. intros (t & Ht & Hc). unfold did. by rewrite Ht, omap_app, Hc. Qed.

Lemma did_trans w1 w2 w3 es1 es2 : did w1 es1 w2 -> did w2 es2 w3 -> did w1 (es1 ++ es2) w3.
Proof. unfold did. intros H1 ->. by rewrite H1, (assoc_L (++)). Qed.

Lemma bind_split {A B} (m : M A) (f : A -> M B) w r :
  (m ≫= f) w = r -> exists a w1, m w = (a, w1) /\ f a w1 = r.
Proof. unfold mbind, m_bind. destruct (m w) as [a w1]. eauto. Qed.

(** One step of a run. *)
Ltac split_run H := let a := fresh "a" in let w := fresh "w" in let E := fresh "E" in
  apply bind_split in H as (a & w & E & H); try match type of a with unit => destruct a end.

(** Without the agent's object nothing is pending, and none appears. *)
Definition no_agent (w : World) : Prop := agent (bus w) = None.

Lemma dispatch_no_agent result s i : agent s = None -> agent (dispatch result s i).2 = None.
Proof.
  intros Hn. destruct i as [m w|r|id b]; cbn [dispatch snd]; [|done..].
  destruct (bytes_eqb _ _); [unfold agent_handler; by rewrite Hn|].
  unfold profile_handler. destruct (profiles s !! path m); [|done].
  repeat case_match; done.
Qed.

Lemma dispatch_all_facts items : forall result s,
  grows s (dispatch_all items result s).2 /\ (agent s = None -> agent (dispatch_all items result s).2 = None).
Proof.
  induction items as [|i items IH]; intros result s; [split; [grows|done]|].
  unfold dispatch_all. cbn [fold_left]. pose proof (dispatch_grows result s i) as Hg.
  pose proof (dispatch_no_agent result s i) as Hn. destruct (dispatch result s i) as [result' s'].
  destruct (IH result' s') as [Hg' Hn']. split; [by eapply grows_trans|auto].
Qed.

Lemma resolve_no_agent now s : agent s = None -> agent (resolve_pending_confirmation now s) = None.
Proof. unfold resolve_pending_confirmation. intros H. by rewrite !H. Qed.

Lemma await_facts with_agent deadline turns : forall result s,
  grows s (await_turns with_agent deadline turns result s).2 /\
  (agent s = None -> agent (await_turns with_agent deadline turns result s).2 = None).
Proof.
  induction turns as [|t turns IH]; intros [r|] s; cbn; [split; [grows|done]..|].
  case_match; [split; [grows|done]|]. destruct (dispatch_all_facts (incoming t) None s) as [Hg Hn].
  destruct (dispatch_all (incoming t) None s) as [result s']. cbn [snd] in *.
  destruct with_agent.
  - destruct (IH result (resolve_pending_confirmation (after t) s')) as [Hg' Hn']. split.
    + eapply grows_trans; [exact Hg|]. eapply grows_trans; [apply resolve_grows|done].
    + intros Ha. by apply Hn', resolve_no_agent, Hn.
  - destruct (IH result s') as [Hg' Hn']. split; [by eapply grows_trans|auto].
Qed.

(** Where the name of an error comes from. *)
Definition origin (errors : Errors) (es : list Event) : Prop :=
  errors.1 = [] \/ errors.1 = bs "D-Bus error" \/
  exists call message, Ended call (Replied (ReplyError (errors.1) message)) ∈ es.

Lemma origin_app errors es es' : origin errors es -> origin errors (es ++ es').
Proof.
  intros [H|[H|(call & message & H)]]; [by left|by right; left|right; right]. exists call, message. apply elem_of_app. by left.
Qed.

(** The name says that the device is paired already. *)
Definition already (name : Bytes) : bool :=
  bytes_eqb name (bs "org.bluez.Error.AlreadyExists") || bytes_eqb name (bs "org.bluez.Error.AlreadyPaired").

(** BlueZ replied so to this call. *)
Definition replied_already (call : Message) (es : list Event) : Prop :=
  exists name message, Ended call (Replied (ReplyError name message)) ∈ es /\ already name = true.

(** This call was never answered: it was not sent, or no reply came in time. *)
Definition unanswered (call : Message) (es : list Event) : Prop :=
  Ended call NotSubmitted ∈ es \/ Ended call TimedOut ∈ es.

Lemma replied_already_weaken call es es' : es ⊆ es' -> replied_already call es -> replied_already call es'.
Proof. intros Hs (name & message & Hin & Ha). exists name, message. auto. Qed.

Lemma unanswered_weaken call es es' : es ⊆ es' -> unanswered call es -> unanswered call es'.
Proof. intros Hs [H|H]; [left|right]; auto. Qed.

Lemma await_call_run call timeout with_agent errors w ok errors' w' :
  await_call call timeout with_agent errors w = ((ok, errors'), w') ->
  exists e, did w [Calling call; Ended call e] w' /\ (ok = true <-> e = Replied ReplyOk) /\
    (no_agent w -> no_agent w') /\
    (forall es, origin errors es -> origin errors' (es ++ [Calling call; Ended call e])) /\
    (already (errors'.1) = true -> replied_already call [Ended call e] \/ unanswered call [Ended call e]).
Proof.
  unfold await_call. destruct (match calls w with [] => _ | _ => _ end) as [script rest].
  assert (Hdid : forall s e, grows (emit (Calling call) (bus w)) s ->
            did w [Calling call; Ended call e] (mkWorld (emit (Ended call e) s) rest (waits w))).
  { intros s e (t & Ht & Hc). unfold did. cbn [bus emit trace]. rewrite Ht. cbn [emit trace].
    rewrite !omap_app, Hc, app_nil_r. cbn. by rewrite <- (assoc_L (++)). }
  assert (Hun : forall e, e = NotSubmitted \/ e = TimedOut -> unanswered call [Ended call e])
    by (intros e [->| ->]; [left|right]; set_solver).
  destruct (negb (submitted script)).
  { intros [= <- <- <-]. exists NotSubmitted. split_and!; [apply Hdid; grows|done|done|intros; by apply (origin_app (_, _))|right; auto]. }
  destruct (await_facts with_agent (start script + timeout) (turns script) None (emit (Calling call) (bus w))) as [Hg Hn].
  destruct (await_turns _ _ _ _ _) as [[r|] s]; cbn [snd] in *.
  - intros [= Hf <-]. exists (Replied r). split_and!; [by apply Hdid| |auto| |].
    + destruct r; cbn in Hf; split; congruence.
    + intros es _. destruct r as [|name message|]; injection Hf as <- <-; [by left| |by left].
      case_match eqn:E; [by right; left|]. right; right. exists call, message. cbn. set_solver.
    + destruct r as [|name message|]; injection Hf as <- <-; [done| |done]. cbn. intros Ha. left.
      exists name, message. split; [set_solver|]. by case_match.
  - intros [= <- <- <-]. exists TimedOut. split_and!; [by apply Hdid|done|auto|intros; by apply (origin_app (_, _))|right; auto].
Qed.

Lemma wait_run mac seconds w found w' : wait_for_device mac seconds w = (found, w') -> did w [] w'.
Proof.
  unfold wait_for_device. destruct (match waits w with [] => _ | _ => _ end) as [script rest].
  assert (Hl : forall turns s, grows s (wait_loop mac (wait_start script + seconds * 1000) turns s).2).
  { induction turns as [|[t reply] turns IH]; intros s; cbn; [grows|]. case_match; [grows|].
    destruct (dispatch_all_facts (incoming t) None s) as [Hg _]. case_match; [done|]. by eapply grows_trans. }
  specialize (Hl (wait_turns script) (bus w)). destruct (wait_loop _ _ _ _) as [b s]. intros [= <- <-].
  by apply did_grows.
Qed.

(** Every occurrence of [a] is followed by [b]. *)
Definition followed (a b : Event) (t : list Event) : Prop := forall t1 t2, t = t1 ++ a :: t2 -> b ∈ t2.

Lemma followed_none a b t : a ∉ t -> followed a b t.
Proof. intros Hn t1 t2 ->. destruct Hn. set_solver. Qed.

Lemma followed_app a b t1 t2 : b ∈ t2 -> followed a b t2 -> followed a b (t1 ++ t2).
Proof.
  intros Hb Hf u1 u2 H. apply app_eq_app in H as (k & [[-> H2]|[-> H2]]).
  - destruct k as [|x k]; cbn in H2; simplify_eq; [by eapply (Hf [])|set_solver].
  - by eapply Hf.
Qed.

Definition start_call : Message := no_arguments kAdapterPath kAdapterInterface (bs "StartDiscovery").
Definition stop_call : Message := no_arguments kAdapterPath kAdapterInterface (bs "StopDiscovery").
Definition pair_call (mac : Bytes) : Message := no_arguments (device_path mac) kDeviceInterface (bs "Pair").
Definition agent_registered : Event := Ended (register_agent (bs "RegisterAgent")) (Replied ReplyOk).

(** Calls of other members are other events. *)
Definition named (m : Bytes) (e : Event) : bool :=
  match e with Calling call | Ended call _ => bytes_eqb (member call) m | _ => false end.

Lemma not_named m a es : named m a = true -> Forall (fun e => named m e = false) es -> a ∉ es.
Proof. intros Ha Hes Hin. rewrite Forall_forall in Hes. specialize (Hes a Hin). congruence. Qed.

Ltac other_member m := apply (not_named (bs m)); [reflexivity|repeat constructor].

Lemma say_run level text w u w' : say level text w = (u, w') -> did w [] w' /\ (no_agent w -> no_agent w').
Proof. intros [= <- <-]. split; [apply did_grows; cbn; grows|done]. Qed.

Lemma mret_run {A} (a b : A) w w' : (mret a : M A) w = (b, w') -> b = a /\ w' = w.
Proof. by intros [= <- <-]. Qed.

(** A message or nothing. *)
Lemma say_if_run (b : bool) level text w u w' :
  (if b then say level text else mret tt) w = (u, w') -> did w [] w' /\ (no_agent w -> no_agent w').
Proof. destruct b; [apply say_run|]. intros [-> ->]%mret_run. split; [by apply did_nil|done]. Qed.

Lemma cleanup_run w u w' : cleanup_agent w = (u, w') ->
  no_agent w' /\ exists e, did w [Calling unregister_agent; Ended unregister_agent e] w'.
Proof.
  unfold cleanup_agent. intros H. split_run H. injection E as <-.
  split_run H. destruct a as [ok errors]. apply await_call_run in E as (e & Hd & _).
  split_run H. apply say_if_run in E as [Hs _]. injection H as <- <-. split; [done|]. exists e.
  assert (Hr : did w [] (mkWorld (reject_pending_confirmation (bs "Pairing session ended") (bus w)) (calls w) (waits w)))
    by apply did_grows, reject_grows.
  exact (did_trans _ _ _ _ _ Hr (did_trans _ _ _ _ _ Hd Hs)).
Qed.

Lemma stop_run w u w' : stop_discovery w = (u, w') -> exists e, did w [Calling stop_call; Ended stop_call e] w'.
Proof.
  unfold stop_discovery. intros H. split_run H. destruct a as [ok errors].
  apply await_call_run in E as (e & Hd & _). apply mret_run in H as [_ ->]. by exists e.
Qed.

Lemma begin_run mac errors0 w errors w' es :
  begin_discovery mac errors0 w = (errors, w') -> origin errors0 es ->
  exists es', did w es' w' /\ origin errors (es ++ es').
Proof.
  unfold begin_discovery. intros H Ho.
  split_run H. destruct a as [ok1 err1]. apply await_call_run in E as (e1 & D1 & _ & _ & O1 & _). apply O1 in Ho as Ho1.
  split_run H. apply say_if_run in E as [S1 _].
  split_run H. destruct a as [ok2 err2]. apply await_call_run in E as (e2 & D2 & _ & _ & O2 & _). apply O2 in Ho1 as Ho2.
  split_run H. apply say_if_run in E as [S2 _].
  split_run H. destruct a as [ok3 err3]. apply await_call_run in E as (e3 & D3 & _ & _ & O3 & _). apply O3 in Ho2 as Ho3.
  split_run H. assert (S3 : did w4 [] w5) by (destruct (negb ok3); by apply say_run in E as [S3 _]).
  apply mret_run in H as [-> ->].
  eexists. split.
  - eapply did_trans; [exact D1|]. eapply did_trans; [exact S1|]. eapply did_trans; [exact D2|].
    eapply did_trans; [exact S2|]. eapply did_trans; [exact D3|exact S3].
  - cbn. cbn in Ho3. rewrite <- !(assoc_L (++)) in Ho3. exact Ho3.
Qed.

Lemma search_run mac timeout w found w' : search_device mac timeout w = (found, w') -> exists es, did w es w'.
Proof.
  unfold search_device. intros H. split_run H. apply wait_run in E. destruct a; [apply mret_run in H as [_ ->]; by eexists|].
  split_run H. apply say_run in E0 as [S _]. split_run H. apply stop_run in E0 as (e & D).
  split_run H. destruct a as [ok errors]. apply await_call_run in E0 as (e' & D' & _).
  assert (exists es, did w3 es w') as [es Hes].
  { destruct (negb ok); [|apply wait_run in H; by eexists].
    split_run H. apply say_run in E0 as [S' _]. apply mret_run in H as [_ ->]. by eexists. }
  eexists. eapply did_trans; [exact E|]. eapply did_trans; [exact S|]. eapply did_trans; [exact D|].
  eapply did_trans; [exact D'|exact Hes].
Qed.

(** What an error after the attempts to pair tells: a reply to such an attempt, or, when one
    was never answered, what is left of a call before. *)
Definition pair_error (mac : Bytes) (errors : Errors) (es : list Event) : Prop :=
  already (errors.1) = true -> replied_already (pair_call mac) es \/
    (unanswered (pair_call mac) es /\ exists call, replied_already call es).

Lemma origin_already errors es : origin errors es -> already (errors.1) = true -> exists call, replied_already call es.
Proof.
  intros [E|[E|(call & message & Hin)]] Ha; [by rewrite E in Ha..|]. exists call. by eexists _, _.
Qed.

Lemma pair_error_weaken mac errors es es' : es ⊆ es' -> pair_error mac errors es -> pair_error mac errors es'.
Proof.
  intros Hs He Ha. destruct (He Ha) as [H|[Hu [call H]]]; [left; by eapply replied_already_weaken|right].
  split; [by eapply unanswered_weaken|exists call; by eapply replied_already_weaken].
Qed.

Lemma pair_attempts_run left mac timeout : forall errors0 w r w' es,
  pair_attempts left mac timeout errors0 w = (r, w') -> origin errors0 es ->
  (left = O -> pair_error mac errors0 es) ->
  exists es', did w es' w' /\
    forall paired errors, r = Some (paired, errors) -> pair_error mac errors (es ++ es') /\
      (paired = true -> Ended (pair_call mac) (Replied ReplyOk) ∈ es').
Proof.
  induction left as [|left IH]; intros errors0 w r w' es H Ho Hp; cbn in H.
  - apply mret_run in H as [-> ->]. exists []. split; [by apply did_nil|]. intros ? ? [= <- <-]. rewrite app_nil_r. by split; [auto|].
  - split_run H. destruct a as [ok err]. apply await_call_run in E as (e & D & Hok & _ & O & Ha). apply O in Ho as Ho1.
    assert (Hp1 : forall u, pair_error mac err ((es ++ [Calling (pair_call mac); Ended (pair_call mac) e]) ++ u)).
    { intros u. apply pair_error_weaken with (es ++ [Calling (pair_call mac); Ended (pair_call mac) e]); [set_solver|].
      intros Hal. destruct (Ha Hal) as [Hr|Hu]; [left; eapply replied_already_weaken; [|exact Hr]; set_solver|right].
      split; [eapply unanswered_weaken; [|exact Hu]; set_solver|]. by eapply origin_already. }
    assert (Hgo : forall u w3, did w0 u w3 -> pair_attempts left mac timeout err w3 = (r, w') -> exists es', did w es' w' /\
      forall paired errors, r = Some (paired, errors) -> pair_error mac errors (es ++ es') /\
        (paired = true -> Ended (pair_call mac) (Replied ReplyOk) ∈ es')).
    { intros u w3 Hu Hr. eapply IH in Hr as (es' & D' & Hr); [|exact (origin_app _ _ u Ho1)|intros _; apply Hp1].
      eexists. split; [eapply did_trans; [exact D|]; eapply did_trans; [exact Hu|exact D']|].
      intros paired errors Hpe. destruct (Hr _ _ Hpe) as [Hor Hin]. split.
      - by rewrite <- !(assoc_L (++)) in Hor.
      - intros Ht. specialize (Hin Ht). set_solver. }
    destruct ok.
    { apply mret_run in H as [-> ->]. eexists. split; [exact D|]. intros ? ? [= <- <-].
      split; [specialize (Hp1 []); by rewrite app_nil_r in Hp1|].
      intros _. rewrite (proj1 Hok) by done. unfold pair_call. set_solver. }
    case_match; [|by apply (Hgo [] w0); [apply did_nil|]].
    split_run H. apply say_run in E as [S _]. split_run H. apply wait_run in E. destruct a.
    + apply (Hgo [] w2); [by apply (did_trans _ _ _ [] [] S)|done].
    + apply mret_run in H as [-> ->]. eexists. split; [eapply did_trans; [exact D|]; eapply did_trans; [exact S|exact E]|done].
Qed.

(** The end of a session with an agent. *)
Definition closing (es : list Event) : Prop :=
  Calling stop_call ∈ es /\ (Calling start_call ∉ es) /\ Calling unregister_agent ∈ es /\ agent_registered ∉ es.

Lemma closing_followed es1 es2 : closing es2 ->
  followed (Calling start_call) (Calling stop_call) (es1 ++ es2) /\
  followed agent_registered (Calling unregister_agent) (es1 ++ es2).
Proof. intros (H1 & H2 & H3 & H4). split; apply followed_app; [done|by apply followed_none|done|by apply followed_none]. Qed.

Ltac closing := split_and!; [set_solver|other_member "StartDiscovery"%string|set_solver|other_member "RegisterAgent"%string].

Lemma finish_run mac paired errors w r w' : finish_pairing mac paired errors w = (r, w') ->
  no_agent w' /\ exists es, did w es w' /\ closing es /\
    (r = true -> Ended (set_trusted (device_path mac)) (Replied ReplyOk) ∈ es /\ (paired = true \/ already_paired errors = true)).
Proof.
  unfold finish_pairing. intros H. split_run H. apply stop_run in E as (e & D).
  destruct (negb paired && negb (already_paired errors)) eqn:Ep.
  - split_run H. apply say_run in E as [S _]. split_run H. apply cleanup_run in E as (Hn & e' & D').
    apply mret_run in H as [-> ->]. split; [done|]. eexists. split; [exact (did_trans _ _ _ _ _ D (did_trans _ _ _ _ _ S D'))|].
    split; [closing|done].
  - split_run H. apply say_run in E as [S _]. split_run H. destruct a as [ok err].
    apply await_call_run in E as (e1 & D1 & Hok & _).
    assert (exists w3 e', did w2 [] w3 /\ did w3 [Calling unregister_agent; Ended unregister_agent e'] w' /\ no_agent w' /\ r = ok)
      as (w3 & e' & S' & D' & Hn & ->).
    { destruct ok; cbn [negb] in H; split_run H; apply say_run in E as [S' _]; split_run H;
        apply cleanup_run in E as (Hn & e' & D'); apply mret_run in H as [-> ->]; eexists _, e'; split_and!; done. }
    split; [done|]. eexists. split.
    { exact (did_trans _ _ _ _ _ D (did_trans _ _ _ _ _ S (did_trans _ _ _ _ _ D1 (did_trans _ _ _ _ _ S' D')))). }
    split; [closing|]. intros ->. rewrite (proj1 Hok) by done. split; [set_solver|]. destruct paired; [by left|right].
    by destruct (already_paired errors).
Qed.

(** The bond exists, as far as the replies tell: BlueZ paired this device, or replied that it
    is paired already; or an attempt to pair was never answered and an earlier call, of
    whatever kind, had been answered so. *)
Definition bonded (mac : Bytes) (es : list Event) : Prop :=
  Ended (pair_call mac) (Replied ReplyOk) ∈ es \/ replied_already (pair_call mac) es \/
  (unanswered (pair_call mac) es /\ exists call, replied_already call es).

Lemma already_bonded mac errors es : pair_error mac errors es -> already_paired errors = true -> bonded mac es.
Proof. intros He Ha. by right; apply He. Qed.

Lemma bonded_weaken mac es es' : es ⊆ es' -> bonded mac es -> bonded mac es'.
Proof.
  intros Hs [H|[H|[Hu [call H]]]]; [left; auto|right; left; by eapply replied_already_weaken|right; right].
  split; [by eapply unanswered_weaken|exists call; by eapply replied_already_weaken].
Qed.

Lemma discover_run mac timeout errors0 w r w' es0 :
  discover_and_pair mac timeout errors0 w = (r, w') -> origin errors0 es0 ->
  no_agent w' /\ exists es1 es2, did w (es1 ++ es2) w' /\ closing es2 /\
    (r = true -> Ended (set_trusted (device_path mac)) (Replied ReplyOk) ∈ es2 /\ bonded mac (es0 ++ es1)).
Proof.
  unfold discover_and_pair. intros H Ho. split_run H. eapply begin_run in E as (es1 & D1 & O1); [|exact Ho].
  split_run H. apply search_run in E as (es2 & D2). destruct a0; cbn [negb] in H.
  - split_run H. apply say_run in E as [S _]. split_run H.
    eapply pair_attempts_run in E as (es3 & D3 & Hp); [|exact (origin_app _ _ es2 O1)|done].
    pose proof (did_trans _ _ _ _ _ D1 (did_trans _ _ _ _ _ D2 (did_trans _ _ _ _ _ S D3))) as D.
    destruct a0 as [[paired errors]|].
    + apply finish_run in H as (Hn & es4 & D4 & Hc & Hr). split; [done|].
      eexists _, es4. split; [exact (did_trans _ _ _ _ _ D D4)|]. split; [done|]. intros Ht.
      destruct (Hr Ht) as [Hin Hb]. split; [done|]. destruct (Hp _ _ eq_refl) as [Hor Hok].
      destruct Hb as [Hb|Hb]; [left; specialize (Hok Hb); set_solver|].
      eapply bonded_weaken; [|by eapply already_bonded]. cbn. by rewrite <- !(assoc_L (++)).
    + split_run H. apply say_run in E as [S' _]. split_run H. apply stop_run in E as (e & D4).
      split_run H. apply cleanup_run in E as (Hn & e' & D5). apply mret_run in H as [-> ->]. split; [done|].
      eexists _, _. split; [exact (did_trans _ _ _ _ _ D (did_trans _ _ _ _ _ S' (did_trans _ _ _ _ _ D4 D5)))|].
      split; [closing|done].
  - split_run H. apply say_run in E as [S' _]. split_run H. apply stop_run in E as (e & D4).
    split_run H. apply cleanup_run in E as (Hn & e' & D5). split_run H. apply say_run in E as [S Hs].
    apply mret_run in H as [-> ->]. split; [auto|]. exists (es1 ++ es2). eexists.
    split; [exact (did_trans _ _ _ _ _ (did_trans _ _ _ _ _ D1 D2) (did_trans _ _ _ _ _ S' (did_trans _ _ _ _ _ D4 (did_trans _ _ _ _ _ D5 S))))|].
    split; [closing|done].
Qed.

Lemma ensure_profile_run mac w r w' : ensure_iap2_device_profile mac w = (r, w') ->
  no_agent w -> no_agent w' /\ exists es, did w es w' /\ (Calling start_call ∉ es) /\ agent_registered ∉ es.
Proof.
  unfold ensure_iap2_device_profile. intros H Hn.
  assert (Hnil : (Calling start_call ∉ []) /\ agent_registered ∉ []) by (split; apply not_elem_of_nil).
  destruct (device_profile (bus w)); [injection H as <- <-; split; [done|]; exists []; split; [by apply did_nil|done]|].
  split_run H. assert (R : did w [] w0 /\ no_agent w0).
  { unfold register_profile_object in E. destruct (profiles (bus w) !! _); injection E as <- <-; (split; [by apply did_nil|done]). }
  destruct R as [R Hn0]. destruct (negb a).
  { split_run H. apply say_run in E0 as [S Hs]. apply mret_run in H as [-> ->]. split; [auto|].
    eexists. split; [exact (did_trans _ _ _ _ _ R S)|done]. }
  split_run H. destruct a0 as [ok errors]. apply await_call_run in E0 as (e & D & _ & Hna & _). specialize (Hna Hn0).
  assert (exists es, did w1 es w' /\ es = [] /\ no_agent w') as (es & D' & -> & Hn').
  { destruct (negb ok); split_run H.
    - apply say_run in E0 as [S Hs]. split_run H. injection E0 as <-. apply mret_run in H as [-> ->].
      exists []. split_and!; [exact S|done|exact (Hs Hna)].
    - injection E0 as <-. split_run H. injection E0 as <-. split_run H. apply say_run in E0 as [S Hs].
      apply mret_run in H as [-> ->]. exists []. split_and!; [exact S|done|exact (Hs Hna)]. }
  split; [done|]. eexists. split; [exact (did_trans _ _ _ _ _ R (did_trans _ _ _ _ _ D D'))|].
  split; [other_member "StartDiscovery"%string|other_member "RegisterAgent"%string].
Qed.

(** C6. How a pairing ends. Whatever happens on the bus, when [ensure_bluez_pairing]
    returns, the agent's object is gone, every discovery that was started was
    stopped later, and every agent that BlueZ accepted was unregistered later; and
    when it returns true, BlueZ has marked this device as trusted, and the device
    was bonded before, or BlueZ answered a Pair call for this device with success, or
    with the error that it exists or is paired already. There is one exception: when a
    Pair call for it was never answered, the error of an earlier call of another kind
    may be taken for the answer. *)
Theorem pairing_outcome connection_error objects mac timeout w r w' :
  agent (bus w) = None ->
  ensure_bluez_pairing connection_error objects mac timeout w = (r, w') ->
  agent (bus w') = None /\ exists es, did w es w' /\
    followed (Calling start_call) (Calling stop_call) es /\
    followed (Ended (register_agent (bs "RegisterAgent")) (Replied ReplyOk)) (Calling unregister_agent) es /\
    (r = true -> Ended (set_trusted (device_path mac)) (Replied ReplyOk) ∈ es /\
                 (bluez_device_is_paired mac objects = true \/
                  Ended (pair_call mac) (Replied ReplyOk) ∈ es \/ replied_already (pair_call mac) es \/
                  (unanswered (pair_call mac) es /\ exists call, replied_already call es))).
Proof.
  intros Hn H. unfold ensure_bluez_pairing in H.
  assert (Hquiet : forall es, Calling start_call ∉ es -> agent_registered ∉ es ->
    followed (Calling start_call) (Calling stop_call) es /\ followed agent_registered (Calling unregister_agent) es)
    by (intros; split; by apply followed_none).
  destruct connection_error as [message|].
  { split_run H. apply say_run in E as [S Hs]. apply mret_run in H as [-> ->]. split; [by apply Hs|]. exists []. split; [done|].
    destruct (Hquiet []) as [? ?]; [apply not_elem_of_nil..|]. by split_and!. }
  split_run H. apply ensure_profile_run in E as (Hn0 & es0 & D0 & Hs0 & Hr0); [|done].
  destruct (negb a); [apply mret_run in H as [-> ->]; split; [done|]; exists es0; destruct (Hquiet es0 Hs0 Hr0); by split_and!|].
  destruct (bluez_device_is_paired mac objects) eqn:Eb.
  { split_run H. apply say_run in E as [S Hs]. split_run H. destruct a0 as [ok errors].
    apply await_call_run in E as (e & D1 & Hok & Hna & _). specialize (Hna (Hs Hn0)).
    assert (did w2 [] w' /\ no_agent w' /\ r = ok) as (D2 & Hn2 & ->).
    { destruct ok; cbn [negb] in H; [apply mret_run in H as [-> ->]; split_and!; [by apply did_nil|done..]|].
      split_run H. apply say_run in E as [S2 Hs2]. apply mret_run in H as [-> ->]. split_and!; auto. }
    split; [done|]. eexists. split; [exact (did_trans _ _ _ _ _ D0 (did_trans _ _ _ _ _ S (did_trans _ _ _ _ _ D1 D2)))|].
    match goal with |- followed _ _ ?es /\ _ => destruct (Hquiet es) as [? ?] end.
    - apply not_elem_of_app. split; [done|other_member "StartDiscovery"%string].
    - apply not_elem_of_app. split; [done|other_member "RegisterAgent"%string].
    - split_and!; [done..|]. intros ->. rewrite (proj1 Hok) by done. split; [set_solver|by left]. }
  split_run H. assert (R : a0 = true /\ did w0 [] w1).
  { unfold register_agent_object in E. unfold no_agent in Hn0. rewrite Hn0 in E. injection E as <- <-. split; [done|by apply did_nil]. }
  destruct R as [-> R]. cbn [negb] in H. split_run H. destruct a0 as [ok errors].
  apply await_call_run in E0 as (e & D1 & Hok & _ & O & _). destruct ok; cbn [negb] in H.
  - eapply discover_run in H as (Hn' & es1 & es2 & D2 & Hc & Hr); [|apply (O []); by left].
    split; [done|]. pose proof (did_trans _ _ _ _ _ D0 (did_trans _ _ _ _ _ R (did_trans _ _ _ _ _ D1 D2))) as D.
    cbn [app] in D. set (d := [Calling (register_agent (bs "RegisterAgent")); _]) in *.
    assert (Hd : es0 ++ Calling (register_agent (bs "RegisterAgent")) :: Ended (register_agent (bs "RegisterAgent")) e :: es1 ++ es2
                 = (es0 ++ d ++ es1) ++ es2) by (unfold d; by rewrite <- !(assoc_L (++))).
    rewrite Hd in D. eexists. split; [exact D|]. apply closing_followed with (es1 := es0 ++ d ++ es1) in Hc as [? ?].
    split_and!; [done..|]. intros Ht. destruct (Hr Ht) as [Hin Hb]. split; [set_solver|right].
    eapply bonded_weaken; [|exact Hb]. set_solver.
  - split_run H. apply say_run in E0 as [S _]. split_run H. injection E0 as <-. apply mret_run in H as [-> ->].
    split; [done|]. eexists. split; [exact (did_trans _ _ _ _ _ D0 (did_trans _ _ _ _ _ R (did_trans _ _ _ _ _ D1 S)))|].
    match goal with |- followed _ _ ?es /\ _ => destruct (Hquiet es) as [? ?] end.
    + apply not_elem_of_app. split; [done|other_member "StartDiscovery"%string].
    + apply not_elem_of_app. split; [done|]. intros Hin.
      repeat (apply elem_of_cons in Hin as [Hin|Hin]; [try discriminate|]); [|by apply not_elem_of_nil in Hin].
      injection Hin as Hin. symmetry in Hin. by apply Hok in Hin.
    + by split_and!.
Qed.

(** ** The socket of a connection *)

(** BlueZ passed this descriptor for the device of the profile, whose duplicate was
    taken and not closed since. *)
Definition announced (t : list Event) (c : Connection) (p : ProfileState) : Prop :=
  exists t1 m t2 received rest,
    t = t1 ++ TookFd c received (socket_fd p) :: Answering m MethodReturn :: t2 /\
    ClosedFd (socket_fd p) ∉ t2 /\
    is_method m kProfileInterface (bs "NewConnection") = true /\ path m = c /\
    arguments m = DPath (BluezAgent.device_path p) :: DFd received :: rest.

(** Every socket was announced, and no two profiles have the same. *)
Definition sockets_ok (s : Bus) : Prop :=
  (forall c p, profiles s !! c = Some p -> 0 <= socket_fd p -> announced (trace s) c p) /\
  (forall c c' p p', profiles s !! c = Some p -> profiles s !! c' = Some p' ->
     0 <= socket_fd p -> socket_fd p = socket_fd p' -> c = c').

Lemma open_fds_app t u fd : fd ∈ open_fds t -> ClosedFd fd ∉ u -> fd ∈ open_fds (t ++ u).
Proof.
  unfold open_fds. rewrite fold_left_app. generalize (fold_left open_step t ∅). induction u as [|e u IH]; intros fds Hin Hc; [done|].
  apply not_elem_of_cons in Hc as [He Hc]. cbn [fold_left]. apply IH; [|done].
  destruct e as [| | | |fd'| | |]; cbn [open_step]; set_solver.
Qed.

Lemma announced_open t c p : announced t c p -> socket_fd p ∈ open_fds t.
Proof.
  intros (t1 & m & t2 & received & rest & -> & Hc & _). rewrite cons_middle, (assoc_L (++)).
  apply open_fds_app; [|by apply not_elem_of_cons]. unfold open_fds. rewrite fold_left_app. cbn. set_solver.
Qed.

Lemma lowest_free_spec fuel : forall n taken, (size taken <= fuel)%nat ->
  n <= lowest_free fuel n taken /\ lowest_free fuel n taken ∉ taken.
Proof.
  induction fuel as [|fuel IH]; intros n taken Hf; cbn [lowest_free].
  - split; [lia|]. rewrite (size_empty_inv taken) by lia. set_solver.
  - case_bool_decide as Hn; [|split; [lia|done]].
    assert (size (taken ∖ {[n]}) < size taken)%nat by (apply subset_size; set_solver).
    destruct (IH (n + 1) (taken ∖ {[n]}) ltac:(lia)) as [Hl Hi]. split; [lia|]. set_unfold. intros Hin. apply Hi. split; [done|lia].
Qed.

(** A duplicate is not the socket of a profile. *)
Lemma dupfd_fresh least s c p :
  sockets_ok s -> profiles s !! c = Some p -> 0 <= socket_fd p -> socket_fd p <> dupfd least s.
Proof.
  intros [Ha _] Hp Hfd E. pose proof (announced_open _ _ _ (Ha c p Hp Hfd)) as Ho. rewrite E in Ho, Hfd.
  unfold dupfd in *. destruct (least <? 0); [lia|]. by apply (lowest_free_spec _ _ _ (le_n _)) in Ho.
Qed.

Lemma announced_app t u c p : ClosedFd (socket_fd p) ∉ u -> announced t c p -> announced (t ++ u) c p.
Proof.
  intros Hu (t1 & m & t2 & fd & rest & -> & Hc & H). exists t1, m, (t2 ++ u), fd, rest.
  split_and!; [by rewrite <- (assoc_L (++))|by apply not_elem_of_app|by destruct H as (? & ? & ?)..].
Qed.

(** More trace, and profiles that are the old ones or have no socket; what is closed
    is no socket of theirs. *)
Lemma sockets_keep s s' :
  (forall c p', profiles s' !! c = Some p' -> 0 <= socket_fd p' ->
     exists p, profiles s !! c = Some p /\ socket_fd p = socket_fd p' /\ BluezAgent.device_path p = BluezAgent.device_path p') ->
  (exists t, trace s' = trace s ++ t /\
     forall c p', profiles s' !! c = Some p' -> 0 <= socket_fd p' -> ClosedFd (socket_fd p') ∉ t) ->
  sockets_ok s -> sockets_ok s'.
Proof.
  intros Hp (t & Ht & Hk) [Ha Hi]. split.
  - intros c p' Hc Hfd. destruct (Hp c p' Hc Hfd) as (p & Hc' & Hsock & Hdev).
    destruct (Ha c p Hc') as (t1 & m & t2 & fd & rest & E & H); [lia|]. rewrite Ht. apply announced_app; [by eapply Hk|].
    exists t1, m, t2, fd, rest. by rewrite <- Hsock, <- Hdev.
  - intros c c' p p' Hc Hc' Hfd E. destruct (Hp c p Hc Hfd) as (q & Hq & Hs & _).
    destruct (Hp c' p' Hc') as (q' & Hq' & Hs' & _); [lia|]. apply (Hi c c' q q'); [done|done|lia|congruence].
Qed.

(** What was taken and closed. *)
Definition fd_event (e : Event) : option Event :=
  match e with TookFd _ _ _ | ClosedFd _ => Some e | _ => None end.
Definition fds (s : Bus) : list Event := omap fd_event (trace s).

(** A step that takes and closes nothing and keeps the sockets. *)
Lemma sockets_quiet s s' : fds s' = fds s -> (exists t, trace s' = trace s ++ t) ->
  (forall c p', profiles s' !! c = Some p' -> 0 <= socket_fd p' ->
     exists p, profiles s !! c = Some p /\ socket_fd p = socket_fd p' /\ BluezAgent.device_path p = BluezAgent.device_path p') ->
  sockets_ok s -> sockets_ok s'.
Proof.
  intros Hf [t Ht] Hp. apply sockets_keep; [done|]. exists t. split; [done|]. intros c p _ _ Hin.
  unfold fds in Hf. rewrite Ht, omap_app in Hf.
  assert (omap fd_event t = []) as E by (apply (app_inv_head (omap fd_event (trace s))); by rewrite app_nil_r).
  assert (Hc : ClosedFd (socket_fd p) ∈ omap fd_event t) by (apply list_elem_of_omap; by eexists).
  rewrite E in Hc. by apply not_elem_of_nil in Hc.
Qed.

Lemma sockets_same s s' : profiles s' = profiles s -> fds s' = fds s -> grows s s' -> sockets_ok s -> sockets_ok s'.
Proof. intros Hp Hf (t & Ht & _). apply sockets_quiet; [done|by eexists|]. rewrite Hp. intros c p Hc _. by exists p. Qed.

Lemma fds_emit e s : fd_event e = None -> fds (emit e s) = fds s.
Proof. intros He. unfold fds. cbn [emit trace]. rewrite omap_app. cbn. by rewrite He, app_nil_r. Qed.

Lemma fds_log level text s : fds (write_log level text s) = fds s.
Proof. by apply fds_emit. Qed.
Lemma fds_set_agent a s : fds (set_agent a s) = fds s.
Proof. done. Qed.
Lemma fds_set_mailbox m s : fds (set_mailbox m s) = fds s.
Proof. done. Qed.
Create Rewrite HintDb fds.
#[export] Hint Rewrite fds_log fds_set_agent fds_set_mailbox : fds.
#[export] Hint Rewrite fds_emit using reflexivity : fds.

Lemma reject_fds reason s : fds (reject_pending_confirmation reason s) = fds s.
Proof. unfold reject_pending_confirmation. destruct (agent s) as [[[message|] id deadline]|]; by autorewrite with fds. Qed.

Lemma resolve_fds now s : fds (resolve_pending_confirmation now s) = fds s.
Proof.
  unfold resolve_pending_confirmation. destruct (agent s) as [[[message|] id deadline]|]; [|done..].
  destruct (pairing_confirmation_result id (mailbox s)) as [[[]|] m]; cbn -[emit write_log set_agent set_mailbox];
    [by autorewrite with fds..|]. destruct (deadline <=? now); cbn -[emit write_log set_agent set_mailbox]; by autorewrite with fds.
Qed.

Lemma agent_fds w m s : fds (agent_handler w m s).2 = fds s.
Proof.
  destruct (agent_handler_cases w m s) as [->|(level & text & s1 & H1 & Hc)]; [done|].
  assert (fds s1 = fds s) as <-. { destruct H1 as [->|[reason ->]]; [|rewrite reject_fds]; by autorewrite with fds. }
  destruct Hc as [(reason & l & t & ->)|[(c & _ & _ & _ & ->)|[[_ ->]| ->]]]; [by autorewrite with fds| |by autorewrite with fds|done].
  unfold request_confirmation. destruct (confirmation_arguments m) as [device passkey].
  destruct (request_pairing_confirmation _ _ _ _ _) as [[[id|] packet] mb]; by autorewrite with fds.
Qed.

Lemma reject_profiles reason s : profiles (reject_pending_confirmation reason s) = profiles s.
Proof. unfold reject_pending_confirmation. by destruct (agent s) as [[[message|] id deadline]|]. Qed.

Lemma resolve_profiles now s : profiles (resolve_pending_confirmation now s) = profiles s.
Proof.
  unfold resolve_pending_confirmation. destruct (agent s) as [[[message|] id deadline]|]; [|done..].
  destruct (pairing_confirmation_result id (mailbox s)) as [[[]|] m]; cbn; [done..|]. by destruct (deadline <=? now).
Qed.

Lemma agent_profiles w m s : profiles (agent_handler w m s).2 = profiles s.
Proof.
  destruct (agent_handler_cases w m s) as [->|(level & text & s1 & H1 & Hc)]; [done|].
  assert (profiles s1 = profiles s) as <-. { destruct H1 as [->|[reason ->]]; [done|]. by rewrite reject_profiles. }
  destruct Hc as [(reason & l & t & ->)|[(c & _ & _ & _ & ->)|[[_ ->]| ->]]]; [done| |done..].
  unfold request_confirmation. destruct (confirmation_arguments m) as [device passkey].
  by destruct (request_pairing_confirmation _ _ _ _ _) as [[[id|] packet] mb].
Qed.

(** What the profile handler does. *)
Lemma profile_handler_cases w m s :
  let s' := (profile_handler w m s).2 in
  (profiles s' = profiles s /\
     (fds s' = fds s \/ exists r, s' = emit (Answering m r) (emit (ClosedFd (dupfd (duplicate w) s)) s))) \/
  exists p, profiles s !! path m = Some p /\
    ((0 <= socket_fd p /\ s' = set_profiles (<[path m := set_socket (-1) p]> (profiles s)) (emit (ClosedFd (socket_fd p)) s)) \/
     (is_method m kProfileInterface (bs "NewConnection") = true /\ expected_connection m p = true /\
      let d := dupfd (duplicate w) s in
      s' = emit (Answering m MethodReturn)
             (set_profiles (<[path m := set_socket d p]> (profiles s)) (emit (TookFd (path m) (received_fd m) d) s)))).
Proof.
  cbv zeta. unfold profile_handler. destruct (profiles s !! path m) as [p|]; [|by left; split; [|left]].
  destruct (is_method _ _ (bs "Release")).
  { destruct (Z.leb_spec 0 (socket_fd p)); [right|by left; split; [|left]]. exists p. split; [done|by left]. }
  destruct (is_method _ _ (bs "RequestDisconnection")); [left; split; [done|left; by apply fds_emit]|].
  destruct (is_method _ _ (bs "NewConnection")) eqn:E3; [|by left; split; [|left]]. cbn [negb]. cbv zeta.
  destruct (expected_connection m p) eqn:Ee; [|left; split; [done|left; by apply fds_emit]].
  destruct (_ && _); cbn [snd]; [right; exists p; split; [done|right; by split_and!]|left].
  destruct (0 <=? dupfd (duplicate w) s); (split; [done|]); [right; by eexists|left; by apply fds_emit].
Qed.

Lemma sockets_profile w m s : sockets_ok s -> sockets_ok (profile_handler w m s).2.
Proof.
  intros Hs. pose proof (profile_handler_grows w m s) as Hg. pose proof (dupfd_fresh (duplicate w) s) as Hd.
  destruct (profile_handler_cases w m s) as [[Hp [Hf|[r Hr]]]|(p & Hc & [[Hfd Hp]|(Hn & He & Hp)])].
  - by eapply sockets_same.
  - rewrite Hr. apply (sockets_keep s); [intros c p Hc _; by exists p| |done].
    eexists. split; [cbn [emit trace]; by rewrite <- (assoc_L (++))|]. intros c p Hc Hfd Hin.
    specialize (Hd c p Hs Hc Hfd). cbn in Hin. set_solver.
  - rewrite Hp. apply (sockets_keep s); [| |done].
    + cbn. intros c p'. intros [[<- <-]|[_ Hc']]%lookup_insert_Some; [cbn; lia|by exists p'].
    + eexists. split; [reflexivity|]. cbn. intros c p'. intros [[<- <-]|[Hne Hc']]%lookup_insert_Some Hfd' Hin; [cbn in Hfd'; lia|].
      apply list_elem_of_singleton in Hin as [= E]. apply Hne. by apply (proj2 Hs _ _ p p').
  - rewrite Hp. set (d := dupfd (duplicate w) s) in *. split; cbn [emit set_profiles profiles trace].
    + intros c p'. intros [[<- <-]|[_ Hc']]%lookup_insert_Some Hfd.
      * unfold expected_connection in He. destruct (arguments m) as [|[| device | | | | | | | | |] [|[| | | | | | |n| | |] rest]] eqn:Ea; try done.
        apply bytes_eqb_eq in He. exists (trace s), m, [], n, rest. rewrite <- (assoc_L (++)). cbn. unfold received_fd. rewrite Ea, He.
        split_and!; try done. apply not_elem_of_nil.
      * rewrite <- (assoc_L (++)). apply announced_app; [|by apply Hs]. cbn. set_solver.
    + intros c c' p1 p2. intros [[<- <-]|[Hn1 H1]]%lookup_insert_Some; intros [[<- <-]|[Hn2 H2]]%lookup_insert_Some; cbn; intros Hfd E; try done.
      * destruct (Hd c' p2 Hs H2); lia.
      * by destruct (Hd c p1 Hs H1).
      * by apply (proj2 Hs _ _ p1 p2).
Qed.

Lemma sockets_step s s' : sockets_ok s -> bus_step s s' -> sockets_ok s'.
Proof.
  intros Hs. destruct 1 as [level text|result i|now|reason|call Ht|call e|a Ha|b|p Hp Hfd|path|path|path p Hp Hfd].
  - apply (sockets_same s); [done|apply fds_log|grows|done].
  - destruct i as [m w|r|id b]; cbn [dispatch snd]; [|done|].
    + destruct (bytes_eqb _ _); [|by apply sockets_profile].
      apply (sockets_same s); [apply agent_profiles|apply agent_fds|apply agent_handler_grows|done].
    + apply (sockets_same s); [done|by rewrite fds_emit|grows|done].
  - apply (sockets_same s); [apply resolve_profiles|apply resolve_fds|apply resolve_grows|done].
  - apply (sockets_same s); [apply reject_profiles|apply reject_fds|apply reject_grows|done].
  - apply (sockets_quiet s); [by apply fds_emit|by eexists| |done]. intros c p Hc _. by exists p.
  - apply (sockets_quiet s); [by apply fds_emit|by eexists| |done]. intros c p Hc _. by exists p.
  - done.
  - done.
  - apply (sockets_quiet s); [done|exists []; by rewrite app_nil_r| |done]. cbn. intros c p'.
    intros [[<- <-]|[_ Hc]]%lookup_insert_Some; [lia|by exists p'].
  - apply (sockets_quiet s); [done|exists []; by rewrite app_nil_r| |done]. cbn. intros c p'.
    intros [_ Hc]%lookup_delete_Some. by exists p'.
  - apply (sockets_quiet s); [done|exists []; by rewrite app_nil_r| |done]. cbn. intros c p'.
    intros [(_ & q & Hq & ->)|[_ Hq]]%lookup_alter_Some; [by exists q|by exists p'].
  - apply (sockets_keep s); [| |done].
    + cbn. intros c p'. intros [(_ & q & Hq & ->)|[_ Hq]]%lookup_alter_Some; [cbn; lia|by exists p'].
    + eexists. split; [reflexivity|]. cbn. intros c p'.
      intros [(_ & q & Hq & ->)|[Hne Hq]]%lookup_alter_Some Hfd' Hin; [cbn in Hfd'; lia|].
      apply list_elem_of_singleton in Hin as [= E]. apply Hne. by apply (proj2 Hs _ _ p p').
Qed.

(** The device of a profile never changes. *)
Definition device_at (c : Connection) (s : Bus) : option Bytes := BluezAgent.device_path <$> profiles s !! c.

Lemma dispatch_device result s i c : device_at c (dispatch result s i).2 = device_at c s.
Proof.
  unfold device_at. destruct i as [m w|r|id b]; cbn [dispatch snd]; [|done..].
  destruct (bytes_eqb _ _); [by rewrite agent_profiles|].
  destruct (profile_handler_cases w m s) as [[-> _]|(p & Hc & [[_ ->]|(_ & _ & ->)])]; [done|cbn [emit set_profiles profiles]..];
    (destruct (decide (c = path m)) as [->|?]; [by rewrite lookup_insert_eq, Hc|by rewrite lookup_insert_ne]).
Qed.

Lemma dispatch_all_device items c : forall result s, device_at c (dispatch_all items result s).2 = device_at c s.
Proof.
  induction items as [|i items IH]; intros result s; [done|]. unfold dispatch_all. cbn [fold_left].
  pose proof (dispatch_device result s i c) as Hd. destruct (dispatch result s i) as [r' s']. cbn in Hd.
  rewrite <- Hd. apply IH.
Qed.

Lemma await_device deadline turns c : forall result s,
  device_at c (await_turns false deadline turns result s).2 = device_at c s.
Proof.
  induction turns as [|t turns IH]; intros [r|] s; cbn; [done..|]. case_match; [done|].
  pose proof (dispatch_all_device (incoming t) c None s) as Hd. destruct (dispatch_all _ _ _) as [r' s']. cbn in Hd.
  by rewrite IH.
Qed.

Lemma call_device call timeout errors c w ok errors' w' :
  await_call call timeout false errors w = ((ok, errors'), w') -> device_at c (bus w') = device_at c (bus w).
Proof.
  unfold await_call. destruct (match calls w with [] => _ | _ => _ end) as [script rest].
  destruct (negb (submitted script)); [by intros [= <- <- <-]|].
  pose proof (await_device (start script + timeout) (turns script) c None (emit (Calling call) (bus w))) as Hd.
  destruct (await_turns _ _ _ _ _) as [[r|] s]; intros [=]; subst w'; exact Hd.
Qed.

Lemma fd_open c s : 0 <= fd c s -> exists p, profiles s !! c = Some p /\ socket_fd p = fd c s.
Proof. unfold fd. destruct (profiles s !! c) as [p|]; [by exists p|lia]. Qed.

Lemma outbound_run mac timeout w c w' : connect_outbound mac timeout w = (Some c, w') ->
  c = kProfilePath /\ device_at c (bus w') = Some (device_path mac) /\ 0 <= fd c (bus w').
Proof.
  unfold connect_outbound. intros H. split_run H. destruct a; cbn [negb] in H; [|split_run H; by apply mret_run in H as [[=] _]].
  assert (D0 : device_at kProfilePath (bus w0) = Some (device_path mac)).
  { unfold register_profile_object in E. destruct (profiles (bus w) !! _); [done|]. injection E as <-.
    unfold device_at. cbn. by rewrite lookup_insert_eq. }
  split_run H. destruct a as [ok errors]. apply (call_device _ _ _ kProfilePath) in E0 as D1.
  destruct ok; cbn [negb] in H; [|do 2 split_run H; by apply mret_run in H as [[=] _]].
  split_run H. assert (D2 : device_at kProfilePath (bus w2) = device_at kProfilePath (bus w1)).
  { injection E1 as <-. unfold device_at. cbn. rewrite lookup_alter_eq. by destruct (profiles (bus w1) !! kProfilePath). }
  split_run H. assert (bus w3 = write_log info (bs "requesting BlueZ iAP2 profile connection for " ++ mac) (bus w2)) as E3
    by by injection E2 as <-.
  split_run H. destruct a as [ok errors']. apply (call_device _ _ _ kProfilePath) in E4 as D4.
  rewrite E3 in D4. split_run H. injection E5 as <- <-.
  destruct (negb ok || (fd kProfilePath (bus w4) <? 0)) eqn:Ef; [do 2 split_run H; by apply mret_run in H as [[=] _]|].
  apply orb_false_iff in Ef as [_ Ef%Z.ltb_ge]. split_run H. injection E5 as <-. apply mret_run in H as [[= ->] ->].
  split_and!; [done| |exact Ef]. rewrite <- D0, <- D1, <- D2. exact D4.
Qed.

(** C7. A connection is the one that BlueZ announced. In any state that a worker
    reaches, when [connect_bluez_iap2] returns a connection, its socket is a
    duplicate of the descriptor that BlueZ passed in a NewConnection call, which
    named the device of the profile; the duplicate is open, since it was not closed
    after it was taken; it is the socket of this connection alone; and for an outbound
    connection the device is the one that was asked for. *)
Theorem connection_was_announced fd0 ops connection_error inbound mac timeout calls c w :
  let s := run_operations fd0 ops in
  connect_bluez_iap2 connection_error inbound mac timeout (mkWorld s calls []) = (Some c, w) ->
  exists p, profiles (bus w) !! c = Some p /\ 0 <= socket_fd p /\ announced (trace (bus w)) c p /\
    socket_fd p ∈ open_fds (trace (bus w)) /\
    (forall c' p', profiles (bus w) !! c' = Some p' -> socket_fd p' = socket_fd p -> c' = c) /\
    (c = kProfilePath /\ BluezAgent.device_path p = device_path mac \/
     c = kDeviceProfilePath /\ BluezAgent.device_profile s = true).
Proof.
  cbv zeta. set (s := run_operations fd0 ops). intros H.
  assert (Hs : sockets_ok s) by (apply run_invariant; [by split; intros ? ? ?|by intros; eapply sockets_step]).
  assert (Hw : sockets_ok (bus w)).
  { pose proof (stepwise_connect connection_error inbound mac timeout (mkWorld s calls [])) as Hr. rewrite H in Hr. cbn in Hr.
    clear H. induction Hr; [done|]. apply IHHr. by eapply sockets_step. }
  assert (Hopen : forall p, profiles (bus w) !! c = Some p -> 0 <= socket_fd p ->
    announced (trace (bus w)) c p /\ socket_fd p ∈ open_fds (trace (bus w)) /\
    forall c' p', profiles (bus w) !! c' = Some p' -> socket_fd p' = socket_fd p -> c' = c).
  { intros p Hp Hfd. apply Hw in Hp as Ha; [|done]. split_and!; [done|by eapply announced_open|].
    intros c' p' Hp' E. apply (proj2 Hw c' c p' p); try done. lia. }
  assert (Hout : forall w0, connect_outbound mac timeout w0 = (Some c, w) ->
    exists p, profiles (bus w) !! c = Some p /\ 0 <= socket_fd p /\ announced (trace (bus w)) c p /\
      socket_fd p ∈ open_fds (trace (bus w)) /\
      (forall c' p', profiles (bus w) !! c' = Some p' -> socket_fd p' = socket_fd p -> c' = c) /\
      (c = kProfilePath /\ BluezAgent.device_path p = device_path mac \/ c = kDeviceProfilePath /\ BluezAgent.device_profile s = true)).
  { intros w0 H0. apply outbound_run in H0 as (-> & Hd & Hfd). apply fd_open in Hfd as Hp. destruct Hp as (p & Hp & Hf).
    exists p. unfold device_at in Hd. rewrite Hp in Hd. injection Hd as Hd. destruct (Hopen p Hp) as (? & ? & ?); [lia|].
    split_and!; [done|lia|done..|by left]. }
  unfold connect_bluez_iap2 in H. destruct connection_error; [split_run H; by apply mret_run in H as [[=] _]|]. cbn [bus] in H.
  destruct (BluezAgent.device_profile s) eqn:Ed; cbn [negb] in H; [|by eapply Hout].
  destruct (0 <=? fd _ _) eqn:Ef; [|by eapply Hout].
  split_run H. injection E as <-. split_run H. injection E as <-. apply mret_run in H as [[= ->] ->].
  cbn [bus set_device_profile write_log emit profiles trace] in *. apply Z.leb_le in Ef. apply fd_open in Ef as Hf. destruct Hf as (p & Hp & Hf).
  destruct (Hopen p Hp) as (? & ? & ?); [lia|]. exists p. split_and!; [done|lia|done..|by right].
Qed.

(** ** Examples *)

(** A call that is answered at once. *)
Definition answered (r : CallReply) : CallScript := mkCallScript true 0 [mkTurn 0 [CallDone r] 0].
Definition sample_mac : Bytes := bs "AA:BB:CC:DD:EE:FF".
Definition sample_device (paired : bool) : list Object :=
  [[(bs "org.bluez.Device1", [(bs "Address", VString sample_mac); (bs "Alias", VString (bs "car")); (bs "Paired", VBool paired)])]].
Definition sample_surround : Surround := mkSurround 100 [0; 0] true 9.
Definition sample_question : Message :=
  mkMessage 4 kAgentPath kAgentInterface (bs "RequestConfirmation") [DPath (device_path sample_mac); DUint32 123456].
Definition sample_wait : WaitScript := mkWaitScript 0 [(mkTurn 0 [] 0, Some (sample_device false))].

(** A first pairing: the user answers while the call waits. *)
Definition sample_pairing (yes : bool) (pair : CallReply) : Operation :=
  EnsurePairing None (Some (sample_device false)) sample_mac 30
    (repeat (answered ReplyOk) 5
     ++ [mkCallScript true 0 [mkTurn 0 [MethodCall sample_question sample_surround] 0; mkTurn 200 [UserAnswer 1 yes] 200;
                              mkTurn 300 [CallDone pair] 300]]
     ++ repeat (answered ReplyOk) 3)
    [sample_wait].

Definition granted (e : Event) : bool :=
  match e with Answering m MethodReturn => is_confirmation m | _ => false end.

(** The trace before the first confirmation that was granted. *)
Fixpoint before_grant (t : list Event) : nat :=
  match t with [] => O | e :: t => if granted e then O else S (before_grant t) end.

Lemma calls_well_typed_witness :
  Calling (set_trusted (device_path sample_mac)) ∈ trace (run_operations 3 [sample_pairing true ReplyOk]) /\
  documented (set_trusted (device_path sample_mac)) = Some (bs "ssv").
Proof.
  assert (H : Calling (set_trusted (device_path sample_mac)) ∈ trace (run_operations 3 [sample_pairing true ReplyOk])).
  { apply list_elem_of_In. vm_compute. tauto. }
  split; [exact H|]. exact (proj1 (calls_well_typed 3 _ _ H)).
Defined.

Lemma confirmed_only_by_user_witness :
  let t := trace (run_operations 3 [sample_pairing true ReplyOk]) in
  exists t1 t2, t = t1 ++ Answering sample_question MethodReturn :: t2 /\ confirmed t1 sample_question.
Proof.
  cbv zeta. set (t := trace (run_operations 3 [sample_pairing true ReplyOk])).
  set (n := before_grant t).
  assert (H : t = take n t ++ Answering sample_question MethodReturn :: drop (S n) t) by (vm_compute; reflexivity).
  exists (take n t), (drop (S n) t). split; [exact H|].
  apply (confirmed_only_by_user 3 [sample_pairing true ReplyOk] (take n t) sample_question (drop (S n) t)); [exact H|reflexivity].
Defined.

Lemma pairing_outcome_witness :
  let script := repeat (answered ReplyOk) 9 in
  let w := mkWorld (new_bus 3) script [sample_wait] in
  let r := ensure_bluez_pairing None (Some (sample_device false)) sample_mac 30 w in
  r.1 = true /\ agent (bus r.2) = None /\ exists es, did w es r.2 /\
    Ended (set_trusted (device_path sample_mac)) (Replied ReplyOk) ∈ es.
Proof.
  cbv zeta. set (w := mkWorld _ _ _). destruct (ensure_bluez_pairing _ _ _ _ w) as [b w'] eqn:E. cbn [fst snd].
  assert (b = true) as -> by (apply (f_equal fst) in E; cbn [fst] in E; rewrite <- E; vm_compute; reflexivity).
  destruct (pairing_outcome None (Some (sample_device false)) sample_mac 30 w true w') as (Hn & es & Hd & _ & _ & Ht); [reflexivity|exact E|].
  split; [reflexivity|]. split; [exact Hn|]. exists es. split; [exact Hd|]. exact (proj1 (Ht eq_refl)).
Defined.

(** BlueZ's call that hands over a connection. *)
Definition new_connection (profile mac : Bytes) : Message :=
  mkMessage 7 profile kProfileInterface (bs "NewConnection") [DPath (device_path mac); DFd 5].

Lemma connection_was_announced_witness :
  let calls := [answered ReplyOk;
                mkCallScript true 0 [mkTurn 0 [MethodCall (new_connection kProfilePath sample_mac) sample_surround] 0;
                                     mkTurn 0 [CallDone ReplyOk] 0]] in
  let r := connect_bluez_iap2 None (0, []) sample_mac 30 (mkWorld (run_operations 3 []) calls []) in
  r.1 = Some kProfilePath /\ exists p, socket_fd p = 9 /\ announced (trace (bus r.2)) kProfilePath p.
Proof.
  cbv zeta. set (calls := [_; _]). destruct (connect_bluez_iap2 _ _ _ _ _) as [c w] eqn:E. cbn [fst snd].
  assert (c = Some kProfilePath /\ fd kProfilePath (bus w) = 9) as [-> Hfd].
  { pose proof (f_equal fst E) as E1. pose proof (f_equal (fun r => fd kProfilePath (bus r.2)) E) as E2. cbn [fst snd] in E1, E2.
    rewrite <- E1, <- E2. vm_compute. split; reflexivity. }
  split; [reflexivity|].
  destruct (connection_was_announced 3 [] None (0, []) sample_mac 30 calls kProfilePath w E) as (p & Hp & _ & Ha & _).
  exists p. split; [|exact Ha]. unfold fd in Hfd. rewrite Hp in Hfd. exact Hfd.
Defined.

(** How often a pairing was asked for. *)
Definition pair_requests (t : list Event) : nat :=
  length (List.filter (fun e => match e with Calling call => bytes_eqb (member call) (bs "Pair") | _ => false end) t).

(** The loop is meant for an object that vanished, but every failure goes around:
    a pairing that the user refuses is asked for two more times. *)
Example refused_pairing_is_repeated :
  let refused := answered (ReplyError (bs "org.bluez.Error.AuthenticationRejected") []) in
  let calls := repeat (answered ReplyOk) 5 ++ repeat refused 3 ++ repeat (answered ReplyOk) 2 in
  pair_requests (trace (run_operations 3 [EnsurePairing None (Some (sample_device false)) sample_mac 30 calls [sample_wait]])) = 3%nat.
Proof. vm_compute. reflexivity. Qed.

(** A call that times out keeps the name of the error before it: here discovery
    failed, Pair never answered, and the device counts as paired already. *)
Example stale_error_counts_as_paired :
  let waiting := mkCallScript true 0 [mkTurn 999999 [] 0] in
  let calls := repeat (answered ReplyOk) 4 ++ [answered (ReplyError (bs "org.bluez.Error.AlreadyExists") [])]
               ++ repeat waiting 3 ++ repeat (answered ReplyOk) 3 in
  (ensure_bluez_pairing None (Some (sample_device false)) sample_mac 30 (mkWorld (new_bus 3) calls [sample_wait])).1 = true.
Proof. vm_compute. reflexivity. Qed.

(** The device profile keeps the device of the first pairing: after another head
    unit was configured, its connection is refused. *)
Example old_device_stays :
  let other := bs "11:22:33:44:55:66" in
  let lost := EnsurePairing None None sample_mac 30 (repeat (answered ReplyOk) 9) [] in
  let next := EnsurePairing None (Some [[(bs "org.bluez.Device1", [(bs "Address", VString other); (bs "Paired", VBool true)])]])
                other 30 [answered ReplyOk] [] in
  let arrives := Between (MethodCall (new_connection kDeviceProfilePath other) sample_surround) in
  last (trace (run_operations 3 [lost; next; arrives])) =
  Some (Answering (new_connection kDeviceProfilePath other) (Rejected (bs "unexpected iAP2 profile connection"))).
Proof. vm_compute. reflexivity. Qed.

(** An address in small letters is found by the search, but not among the bonds, and
    its path is not the one BlueZ uses. *)
Example small_letters :
  let mac := bs "aa:bb:cc:dd:ee:ff" in
  device_visible mac (Some (sample_device true)) = true /\
  bluez_device_is_paired mac (Some (sample_device true)) = false /\
  bytes_eqb (device_path mac) (device_path sample_mac) = false.
Proof. vm_compute. split_and!; reflexivity. Qed.

(** The question carries no address: BlueZ names the device by its path, which does
    not fit the field for an address. *)
Example question_without_address : address_field (device_path sample_mac) = repeat 0 18.
Proof. vm_compute. reflexivity. Qed.

(** A pairing without a code, which BlueZ asks for with RequestAuthorization, is
    granted without a question. *)
Example authorization_is_not_asked :
  let request := mkMessage 4 kAgentPath kAgentInterface (bs "RequestAuthorization") [DPath (device_path sample_mac)] in
  let s := set_agent (Some (mkAgent None 0 0)) (new_bus 3) in
  last (trace (agent_handler sample_surround request s).2) = Some (Answering request MethodReturn).
Proof. vm_compute. reflexivity. Qed.
